(* ===== verification/_CoqProject ===== *)
-Q . S2P
Prelude.v
Links.v
ByteBits.v
OssBase.v
OssMmap.v
UtilMath.v
DmsBase.v
DmsName.v
DmsSegmentSpace.v
DmsSMEMgr.v
DmsRecord.v
DmsDirtyList.v
DmsMBContext.v
DmsExtent.v
DmsMB.v
Bson.v
DmsStore.v
DmsInsert.v
DmsSize.v
DmsWp.v
DmsDelete.v
DmsView.v
DmsCol.v
DmsSpaceOk.v
DmsAlloc.v
DmsInsertOk.v
DmsInsertRecord.v
DmsRefine.v
DmsCollection.v
DmsSession.v
DmsCreateOk.v
DmsOpenOk.v
DmsHistory.v
DmsScanner.v
DmsScanOk.v
DmsExample.v
OssMem.v
PmdBase.v
PmdEDU.v
PmdEDUOk.v
PmdEDUClear.v
PmdEDUMgr.v
PmdEDURun.v
PmdEDURunOk.v
PmdEDUSteps.v
PmdEDUCalls.v
PmdEDUSafe.v
PmdEDULive.v
PmdEDUStart.v
PmdStop.v
BsonDecimal.v
BsonDecimalOk.v
BsonDecimalAdd.v
BsonDecimalOps.v
BsonDecimalRound.v
BsonDecimalMul.v
BsonDecimalStr.v
BsonDecimalStrOk.v
BsonDecimalParse.v
BsonDecimalText.v
BsonDecimalAccept.v
BsonDecimalDiv.v
BsonDecimalDivOk.v
BsonDecimalQuot.v
BsonDecimalWhole.v
BsonDecimalLong.v
BsonDecimalValue.v
BsonDecimalTyped.v
BsonDecimalJson.v
UtilBitmap.v
UtilSegment.v
UtilSegmentOk.v
UtilSegmentShrink.v
UtilSegmentMgr.v
UtilSegmentMgrOk.v
UtilSegmentHist.v
UtilMemPool.v
UtilMemPoolOk.v
UtilMemPoolHist.v
UtilMemPoolExample.v
