(* ===== verification/Prelude.v ===== *)
(** * NOVA: verification library

    NOVA's own core is its storage engine (src/src/dms): a collection space is
    one file, mapped into memory in segments, that holds collections of BSON
    documents.  The daemon runs it in executors, threads with a control block
    and a queue of events (src/src/pmd), the numbers of the documents are
    decimals of any precision (src/src/bson), and memory comes from pools of
    blocks of fixed sizes (src/src/util).  This library models the four and
    proves that the engine stores what it is given, that the executors never
    use a control block that is gone (under three conditions, each shown to be
    needed), that decimal arithmetic and text are exact, and that the memory
    pools are a heap.

    ** The program's parts and the files that model them

    - Integers, bytes, bits: this file (machine integers as [Z] with the
      conversions written out, the shared tactics and lemmas), ByteBits.v (bit
      masks in byte arrays, the class [BitMask]), Links.v (linked lists whose
      links are numbers), OssBase.v (src/src/oss/ossUtil.cpp,
      src/src/include/ossAtomic.hpp), UtilMath.v (src/src/util/utilMath.cpp).
    - Mapped files: OssMmap.v ([_ossMmapFile], src/src/oss/ossMmap.cpp).
    - Identifiers, flags and names: DmsBase.v (src/src/include/dms.hpp),
      DmsName.v (src/src/dms/dms.cpp).
    - Free pages: DmsSegmentSpace.v ([_dmsSegmentSpace], the free runs of one
      segment) and DmsSMEMgr.v ([_dmsSMEMgr] and the page mask
      [_dmsSpaceManagementExtent]; the manager is written against the class
      [BitMask], which the mask implements).
    - Layouts in the file: DmsRecord.v (records and deleted records,
      src/src/dms/dmsRecord.hpp), DmsExtent.v (extents and the index of the
      extents of a collection), DmsMB.v (metadata blocks, statistics, the
      header of the file, unique identifiers), Bson.v (what the engine reads
      of a document).
    - Dirty segments: DmsDirtyList.v ([_dmsDirtyList]).
    - Locks: DmsMBContext.v ([_dmsMBContext] and the latch of a collection, as
      a step relation over any number of sessions).
    - The storage unit [_dmsBlockData] (src/src/dms/dmsBlockData.cpp):
      DmsStore.v (its state and the monad of its operations: state passing, C++
      exceptions, and calls that do not come back), DmsInsert.v (extending the
      file, free pages, extents, delete lists, space for a record,
      [insertRecord]), DmsCollection.v (contexts, [addCollection], reading a
      record, creating and opening the file, [_dmsBlockUnit::insertRecord]).
    - The scanner: DmsScanner.v ([_dmsExtScanner], [_dmsRecordGenerator]).
    - Executors: OssMem.v (live memory blocks, src/src/oss/ossMem.c), PmdBase.v
      (types, events, entry points), PmdEDU.v (the control block [_pmdEDUCB]
      with its event queue and buffers), PmdEDUMgr.v (the sections of
      [_pmdEDUMgr], src/src/pmd/pmdEDUMgr.cpp, on shared control blocks),
      PmdEDURun.v (threads, callers of [startEDU] and controlling functions
      interleaved, as a step relation and the states it reaches; [eduRules] says
      whether a thread creation may fail, whether [activateEDU] and [waitEDU]
      may be called for an executor that is being created, and whether any event
      may be posted),
      PmdEDUStart.v ([startEDU] and creation as a whole), PmdStop.v
      ([destroyAll], [fini], [deadCheck]).
    - Decimals (src/src/bson/common_decimal.c): BsonDecimal.v (the number, its
      special values, comparison, sum, difference, rounding), BsonDecimalOps.v
      (product, precision, 64-bit integers), BsonDecimalStr.v (text),
      BsonDecimalDiv.v (quotient, remainder, whole numbers), BsonDecimalValue.v
      (the stored form, with bsonobjbuilder.h, and the operations of
      bsonDecimal.cpp that keep the precision), BsonDecimalJson.v (JSON).
    - Memory pools: UtilBitmap.v (src/src/include/utilBitmap.hpp),
      UtilSegment.v (pools of objects, [_utilSegmentPool],
      src/src/include/utilSegment.hpp; the handler a pool reports its segments
      to is the class [SegmentHandler]), UtilSegmentMgr.v (pools together,
      [_utilSegmentManager]), UtilMemPool.v ([_utilMemBlockPool],
      src/src/util/utilMemBlockPool.cpp, which implements the handler).

    A definition keeps the name of the function it translates where it can;
    one function is one definition, with its loops as fixpoints and its early
    returns as branches.  The memory of the mapped file is a typed store:
    extents, extent indexes and records by their place in the file.  The
    operating system and the allocator are a function [os] from the number of
    a call to its result, quantified in every theorem: all of them hold
    whatever it answers.

    ** What the theorems show

    - DmsSMEMgr.v, DmsSegmentSpace.v: pages are reserved, released and counted
      exactly; no page is ever owned twice; a reservation fails only when no
      run is free.
    - DmsMBContext.v: mutual exclusion, no leaked latch, the absence of
      deadlock however many sessions wait, and the result of every lock call.
    - DmsRecord.v, DmsExtent.v, DmsMB.v, Bson.v, DmsName.v, OssMmap.v,
      UtilMath.v, DmsDirtyList.v: round trips, independence of packed fields,
      exact validation, exact overflow tests, exact counts.
    - The view of a collection (DmsView.v: the records and free chunks that
      tile an extent; DmsCol.v: a collection, its delete lists, its chain of
      extents and its index) and the rules for the monad (DmsWp.v, weakest
      preconditions).  DmsDelete.v, DmsSpaceOk.v, DmsAlloc.v, DmsInsertOk.v and
      DmsInsertRecord.v prove, function by function, that the operations keep
      the view; DmsSize.v has the arithmetic of sizes.
    - DmsRefine.v: the abstract storage unit, a map from collections to lists
      of records, the invariant [store_ok] that ties the state to it, and the
      refinement of [insertRecord]; the search for space ends.
    - DmsSession.v: an operation touches no latch but its own collection's.
    - DmsCreateOk.v, DmsOpenOk.v: [addCollection] refines adding an empty
      collection, and says which pages the collections own afterwards, on every
      error too; opening a new file establishes the invariant.
    - DmsHistory.v: inserting by name; every history of operations is one of
      the abstract storage unit, and no record is ever lost.
    - DmsScanOk.v: a scan returns exactly the records; what was inserted is
      found.
    - DmsExample.v: a run from the empty file to the first record, evaluated,
      and the theorems above at that run.
    - PmdEDUOk.v, PmdEDUClear.v: the buffers of an executor below 2 GB are
      accounted for, and deleting it releases each block once.  PmdEDURunOk.v, PmdEDUSteps.v,
      PmdEDUCalls.v: the invariant of the running executors and that each step
      keeps it.  PmdEDUSafe.v: in every interleaving in which threads can be
      created, [activateEDU] and [waitEDU] leave executors alone that are being
      created, and events from outside are not resume events and bring data of
      their own ([orderly]), no control block is used after it was deleted, and maps,
      states and threads agree; a run without each of the conditions ends in a
      use of a deleted control block or of a missing entry point.
      PmdEDULive.v: an executor that is started runs.  PmdEDUStart.v: the result
      of [startEDU] on every branch.  PmdStop.v: how long a stop takes, at most
      and when executors do not end.
    - BsonDecimalOk.v, BsonDecimalAdd.v, BsonDecimalRound.v, BsonDecimalMul.v,
      BsonDecimalDivOk.v, BsonDecimalQuot.v, BsonDecimalWhole.v: comparison,
      sum, difference, rounding, product, quotient (Knuth's algorithm D),
      remainder, floor and ceiling are those of the exact values; a decimal is
      worth [scaled k d] in units of [10000 ^ -k].  Sums and differences are so
      also when the result is an operand, save the places a zero shows; a zero
      that is stored with digits compares by its sign; the product is wrong
      where its accumulator overflows: all three are shown.  BsonDecimalStrOk.v,
      BsonDecimalParse.v, BsonDecimalText.v, BsonDecimalAccept.v: printing
      stays in its buffer, parsing accepts just the numerals and is exact up to
      the rounding to the precision of the target, and the two are inverse.  BsonDecimalLong.v, BsonDecimalValue.v,
      BsonDecimalTyped.v: integers and stored values are read back, and the
      digits of every decimal that the operations make are in range (products
      where the accumulator has room).
    - UtilBitmap.v: bitmaps are sets of numbers.  UtilSegmentOk.v,
      UtilSegmentShrink.v, UtilSegmentMgrOk.v: the invariant of pools and
      managers and that each operation keeps it.  UtilSegmentHist.v: in every
      history of a manager with two objects per segment or more each object is
      held once, in live memory, and can be given back as long as [shrink] keeps
      a segment.  UtilMemPoolOk.v, UtilMemPoolHist.v:
      headers of blocks are read back, and the memory pool refines a heap, a map
      from blocks to bytes; its total is the bytes of its segments.
      UtilMemPoolExample.v: the theorems at concrete runs, a run after which
      blocks can no longer be released, one with one object per segment, and one
      where a size overflows.

    ** Fuel and bounds

    [retry_fuel] (64) bounds the loops that retry after adding space.
    [allocRecordSpace_terminates] shows that two rounds are enough for
    [_allocRecordSpace]; [findFreeSpace_correct] that [_findFreeSpace] ends
    within it (its second round finds the segment its first one added).
    [extend_retry] makes at most two attempts, as the code does; a search in a
    delete list looks at no more than the code's three entries ([s_maxSearch]);
    the other fixpoints recurse on a count the code itself computes.
    [writeFile] repeats as long as writes are short: its fuel is not enough for
    every operating system, and the theorem about opening a file speaks of the
    calls that return.  The result [Stop Panic] is the code's [ossPanic], when
    the file cannot be brought back to its size after a failed extension.
    The loops of [destroyAll] have one round more than their time allows, and
    never run out.  The loops of the pools run over their lists or count what
    the code counts.  [long_digits] has five rounds, as a 64-bit number has at
    most five digits in base 10000; [adjust_qhat] one more than its first
    estimate, from which it counts down; both are shown to be enough.  The
    product of decimals keeps [int] and [short] at their width; elsewhere the
    theorems show that digits stay in range.

    ** Not modelled

    Updating and deleting records, indexes and dropping a collection are not in
    the sources.  [removeStorage], [_ossMmapFile::unlink] and the construction
    of the objects in [_dmsBlockUnit::open] only call the operating system.
    The metadata latch is not part of the state: the sections it guards are
    atomic steps.  Two sessions interleave in DmsMBContext.v (the lock
    protocol); the theorems about the storage unit are about one session at a
    time, which holds the latch of its collection.  Of the executors, the
    monitor thread (it only calls [createIdleEDU]), killing by thread
    identifier and the dumps for display are left out; of the decimals, the
    conversions from and to floating point, which are [sprintf] and [strtod].
    Each operation of an object pool is one step, as it runs under the pool's
    latch; the flag that a pool is being shrunk, which managers read without it,
    is an answer of the environment.  Pointers the memory pool did not hand out
    and headers its users overwrote are outside of the model.  The ratio of
    objects in use is compared exactly instead of in doubles, which is the same
    for the numbers that occur.
    The rest of the repository (the shell and its script engine, networking,
    processes, logging, the BSON library beyond what the engine reads) is
    listed in the manifest with the reasons. *)
From stdpp Require Export base tactics numbers list gmap strings.
From Stdlib Require Export ZArith Lia.

#[global] Open Scope Z_scope.

(** Comparisons of open terms stay folded. *)
#[global] Arguments Z.eqb !x !y.
#[global] Arguments Z.ltb !x !y.
#[global] Arguments Z.leb !x !y.

(** ** Machine integers

    Integers are kept in [Z]; the functions below are the conversions the
    C++ compiler inserts when a value is stored into a variable of the named
    type. *)

Definition u8 (x : Z) : Z := x mod 256.
Definition u16 (x : Z) : Z := x mod 65536.
Definition u32 (x : Z) : Z := x mod 4294967296.
Definition u64 (x : Z) : Z := x mod 18446744073709551616.
Definition i32 (x : Z) : Z := (x + 2147483648) mod 4294967296 - 2147483648.
Definition i64 (x : Z) : Z :=
  (x + 9223372036854775808) mod 18446744073709551616 - 9223372036854775808.

Lemma u8_id x : 0 <= x < 256 -> u8 x = x.
Proof. apply Z.mod_small. Qed.

Lemma u16_id x : 0 <= x < 65536 -> u16 x = x.
Proof. apply Z.mod_small. Qed.

Lemma u32_id x : 0 <= x < 4294967296 -> u32 x = x.
Proof. apply Z.mod_small. Qed.

Lemma u64_id x : 0 <= x < 18446744073709551616 -> u64 x = x.
Proof. apply Z.mod_small. Qed.

Lemma i32_id x : -2147483648 <= x < 2147483648 -> i32 x = x.
Proof. intros. unfold i32. rewrite Z.mod_small; lia. Qed.

Lemma i64_id x :
  -9223372036854775808 <= x < 9223372036854775808 -> i64 x = x.
Proof. intros. unfold i64. rewrite Z.mod_small; lia. Qed.

Lemma u8_range x : 0 <= u8 x < 256.
Proof. apply Z.mod_pos_bound; lia. Qed.

Lemma u16_range x : 0 <= u16 x < 65536.
Proof. apply Z.mod_pos_bound; lia. Qed.

Lemma u32_range x : 0 <= u32 x < 4294967296.
Proof. apply Z.mod_pos_bound; lia. Qed.

Lemma i32_range x : -2147483648 <= i32 x < 2147483648.
Proof.
  unfold i32. pose proof (Z.mod_pos_bound (x + 2147483648) 4294967296). lia.
Qed.

Lemma i64_range x : -9223372036854775808 <= i64 x < 9223372036854775808.
Proof.
  unfold i64.
  pose proof (Z.mod_pos_bound (x + 9223372036854775808) 18446744073709551616).
  lia.
Qed.

(** The signed conversion differs from its argument by a multiple of the
    modulus, which is how overflow tests are analysed. *)
Lemma i64_congr x : exists k, i64 x = x + k * 18446744073709551616.
Proof.
  unfold i64.
  exists (- ((x + 9223372036854775808) / 18446744073709551616)).
  pose proof (Z.div_mod (x + 9223372036854775808) 18446744073709551616).
  lia.
Qed.

(** ** Shifts and masks as arithmetic *)

Lemma land_ones_mod x n : 0 <= n -> Z.land x (Z.shiftl 1 n - 1) = x mod 2 ^ n.
Proof.
  intros. rewrite Z.shiftl_1_l, <- Z.land_ones by lia.
  f_equal. rewrite Z.ones_equiv. lia.
Qed.

Lemma shiftr_div x n : 0 <= n -> Z.shiftr x n = x / 2 ^ n.
Proof. apply Z.shiftr_div_pow2. Qed.

Lemma shiftl_mul x n : 0 <= n -> Z.shiftl x n = x * 2 ^ n.
Proof. apply Z.shiftl_mul_pow2. Qed.

(** Two values that live in disjoint bit ranges: [lor] is addition. *)
Lemma lor_shiftl_add a b n :
  0 <= n -> 0 <= b < 2 ^ n -> Z.lor (Z.shiftl a n) b = a * 2 ^ n + b.
Proof.
  intros Hn Hb. rewrite <- Z.shiftl_mul_pow2 by lia.
  symmetry. apply Z.add_nocarry_lor.
  apply Z.bits_inj'; intros i Hi.
  rewrite Z.land_spec, Z.bits_0.
  destruct (Z.ltb_spec i n).
  - rewrite Z.shiftl_spec_low by lia. reflexivity.
  - rewrite (Z.testbit_eqb b) by lia.
    rewrite Z.div_small by (split; [lia|];
      apply Z.lt_le_trans with (2 ^ n); [lia|]; apply Z.pow_le_mono_r; lia).
    apply andb_false_r.
Qed.

(** ** Tactics

    [zcase] splits on the next comparison the goal branches on, [zcases]
    on all of them, [zcase_in H] on one of a hypothesis; the arithmetic
    facts are left in the context for [lia]. *)

Ltac zcase :=
  match goal with
  | |- context [Z.ltb ?a ?b] => destruct (Z.ltb_spec a b)
  | |- context [Z.leb ?a ?b] => destruct (Z.leb_spec a b)
  | |- context [Z.eqb ?a ?b] => destruct (Z.eqb_spec a b)
  end.

Ltac zcases := repeat (zcase; try lia; simpl).

Ltac zcase_in H :=
  match type of H with
  | context [Z.ltb ?a ?b] => destruct (Z.ltb_spec a b)
  | context [Z.leb ?a ?b] => destruct (Z.leb_spec a b)
  | context [Z.eqb ?a ?b] => destruct (Z.eqb_spec a b)
  end.

(** Remove the machine conversions whose argument is in range. *)
Ltac mach :=
  repeat first
    [ rewrite u8_id by lia | rewrite u16_id by lia | rewrite u32_id by lia
    | rewrite u64_id by lia | rewrite i32_id by lia | rewrite i64_id by lia ].

(** ** Lists *)

Fixpoint sumZ (l : list Z) : Z :=
  match l with
  | [] => 0
  | x :: l => x + sumZ l
  end.

Lemma sumZ_app l1 l2 : sumZ (l1 ++ l2) = sumZ l1 + sumZ l2.
Proof. induction l1; simpl; lia. Qed.

Lemma sumZ_nonneg l : Forall (fun x => 0 <= x) l -> 0 <= sumZ l.
Proof. induction 1; simpl; lia. Qed.

Lemma sumZ_elem_le l x : Forall (fun y => 0 <= y) l -> x ∈ l -> x <= sumZ l.
Proof.
  induction 1 as [|y l Hy Hl IH]; intros Hx; [set_solver|].
  apply elem_of_cons in Hx as [->|Hx]; simpl.
  - pose proof (sumZ_nonneg l Hl). lia.
  - specialize (IH Hx). lia.
Qed.

Lemma sumZ_map_insert {A} (f : A -> Z) (l : list A) k x y :
  l !! k = Some x ->
  sumZ (map f (<[k := y]> l)) = sumZ (map f l) - f x + f y.
Proof.
  revert k. induction l as [|a l IH]; intros [|k] Hk; simplify_eq/=; [lia|].
  rewrite (IH _ Hk). lia.
Qed.

Lemma sumZ_map_bound {A} (f : A -> Z) (l : list A) b :
  (forall x, x ∈ l -> 0 <= f x <= b) -> 0 <= sumZ (map f l) <= Z.of_nat (length l) * b.
Proof.
  induction l as [|a l IH]; intros Hb; simpl; [lia|].
  pose proof (Hb a ltac:(left)).
  specialize (IH (fun x Hx => Hb x ltac:(by right))). lia.
Qed.

Lemma sumZ_map_all_1 {A} (f : A -> bool) (l : list A) :
  (forall x, x ∈ l -> f x = true) ->
  sumZ (map (fun x => if f x then 1 else 0) l) = Z.of_nat (length l).
Proof.
  induction l as [|a l IH]; intros Hf; simpl sumZ; [done|].
  rewrite (Hf a) by left. rewrite IH; [simpl length; lia|].
  intros x Hx. apply Hf. by right.
Qed.

(** The maximum a counting loop computes. *)
Fixpoint maxZ (l : list Z) : Z :=
  match l with
  | [] => 0
  | x :: l => Z.max x (maxZ l)
  end.

Lemma maxZ_nonneg l : 0 <= maxZ l.
Proof. induction l; simpl; lia. Qed.

Lemma maxZ_ub l x : x ∈ l -> x <= maxZ l.
Proof.
  induction l; intros Hx; [set_solver|].
  apply elem_of_cons in Hx as [->|Hx]; simpl; [lia|].
  specialize (IHl Hx). lia.
Qed.

Lemma maxZ_witness l : 0 < maxZ l -> maxZ l ∈ l.
Proof.
  induction l as [|x l IH]; simpl; [lia|].
  intros H. destruct (Z.max_spec x (maxZ l)) as [[? ->]|[? ->]].
  - right. apply IH. lia.
  - left.
Qed.

Lemma maxZ_app l1 l2 : maxZ (l1 ++ l2) = Z.max (maxZ l1) (maxZ l2).
Proof.
  induction l1; simpl; [pose proof (maxZ_nonneg l2); lia|lia].
Qed.

(** [zseq a n] lists the [n] integers from [a]. *)
Definition zseq (a : Z) (n : nat) : list Z := seqZ a (Z.of_nat n).

Lemma elem_of_zseq a n x : x ∈ zseq a n <-> a <= x < a + Z.of_nat n.
Proof. unfold zseq. rewrite elem_of_seqZ. lia. Qed.

Lemma zseq_S a n : zseq a (S n) = a :: zseq (a + 1) n.
Proof.
  unfold zseq. rewrite seqZ_cons by lia.
  unfold Z.succ. repeat f_equal. lia.
Qed.

Lemma zseq_S_end a n : zseq a (S n) = zseq a n ++ [a + Z.of_nat n].
Proof.
  unfold zseq. replace (Z.of_nat (S n)) with (Z.of_nat n + 1) by lia.
  rewrite seqZ_app by lia. by rewrite (seqZ_cons _ 1) by lia.
Qed.

(** ** Return codes (src/src/include/ossErr.h) *)

Definition SDB_OK : Z := 0.
Definition SDB_OOM : Z := -2.
Definition SDB_PERM : Z := -3.
Definition SDB_INVALIDARG : Z := -6.
Definition SDB_INTERRUPT : Z := -8.
Definition SDB_SYS : Z := -10.
Definition SDB_TIMEOUT : Z := -13.
Definition SDB_INVALID_FILE_TYPE : Z := -20.
Definition SDB_DMS_NOSPC : Z := -21.
Definition SDB_DMS_EXIST : Z := -22.
Definition SDB_DMS_NOTEXIST : Z := -23.
Definition SDB_DMS_RECORD_TOO_BIG : Z := -24.
Definition SDB_DMS_EOC : Z := -29.
Definition SDB_DMS_INVALID_SU : Z := -35.
Definition SDB_DMS_INCOMPATIBLE_VERSION : Z := -93.
Definition SDB_CLS_EMPTY_HEAP : Z := -103.
Definition SDB_DMS_CORRUPTED_SME : Z := -115.
Definition SDB_DMS_CORRUPTED_EXTENT : Z := -139.
Definition SDB_OPERATION_INCOMPATIBLE : Z := -315.
(** Not in the checked-in [ossErr.h]; its position in misc/resource/rclist.xml,
    from which that header is generated, is five after
    [SDB_RTN_CONF_NOT_TAKE_EFFECT], which is -322. *)
Definition SDB_DMS_UNIQUEID_CONFLICT : Z := -327.
