(* ===== verification/Links.v ===== *)
(** * Linked lists of numbers

    The extents of a collection and the records of an extent are doubly
    linked lists whose links are numbers and whose end is [-1].  A direction
    of such a list is a function [nx] from a cell to its link; [lchain nx h l]:
    following [nx] from [h] visits exactly [l]. *)
From S2P Require Import Prelude.

Definition NIL : Z := -1.

Fixpoint lchain (nx : Z -> Z) (h : Z) (l : list Z) : Prop :=
  match l with
  | [] => h = NIL
  | x :: l => h = x /\ x <> NIL /\ lchain nx (nx x) l
  end.

Lemma lchain_ext nx nx' l : forall h,
  (forall x, x ∈ l -> nx' x = nx x) -> lchain nx h l -> lchain nx' h l.
Proof.
  induction l as [|x l IH]; intros h Hext; simpl; [done|].
  intros (->&Hn&Hc). rewrite Hext by left. split_and!; try done.
  apply IH; [|done]. intros y ?. apply Hext. by right.
Qed.

Lemma lchain_head nx h l : lchain nx h l -> h = default NIL (head l).
Proof. destruct l; simpl; [done|]. by intros [-> _]. Qed.

Lemma lchain_not_nil nx h l x : lchain nx h l -> x ∈ l -> x <> NIL.
Proof.
  revert h. induction l as [|y l IH]; intros h Hc Hx; [by apply not_elem_of_nil in Hx|].
  destruct Hc as (_&Hn&Hc). apply elem_of_cons in Hx as [->|Hx]; eauto.
Qed.

Lemma lchain_app nx l1 : forall h l2,
  lchain nx h (l1 ++ l2) ->
  lchain nx (match last l1 with None => h | Some p => nx p end) l2.
Proof.
  induction l1 as [|x l1 IH]; intros h l2; simpl; [done|].
  intros (->&_&Hc). apply IH in Hc. destruct l1; [done|].
  simpl in *. destruct (last (z :: l1)) eqn:E; [done|]. by apply last_None in E.
Qed.

(** The link into the cell after [l1]. *)
Lemma lchain_link nx h l1 l2 :
  lchain nx h (l1 ++ l2) ->
  (match last l1 with None => h | Some p => nx p end) = default NIL (head l2).
Proof. intros H%lchain_app. by eapply lchain_head. Qed.

(** A new cell between [l1] and [l2]. *)
Lemma lchain_insert nx nx' l1 : forall x l2 h,
  lchain nx h (l1 ++ l2) -> NoDup (l1 ++ l2) -> x <> NIL ->
  nx' x = default NIL (head l2) ->
  (forall p, last l1 = Some p -> nx' p = x) ->
  (forall y, y ∈ l1 ++ l2 -> last l1 <> Some y -> nx' y = nx y) ->
  lchain nx' (match l1 with [] => x | _ => h end) (l1 ++ x :: l2).
Proof.
  induction l1 as [|a l1 IH]; intros x l2 h Hc Hnd Hx Hnx Hp Hext.
  { simpl in *. split_and!; try done. rewrite Hnx, <- (lchain_head _ _ _ Hc).
    eapply lchain_ext; [|done]. intros y Hy. by apply Hext. }
  destruct Hc as (->&Ha&Hc). apply NoDup_cons in Hnd as [Hna Hnd].
  simpl. split_and!; try done. destruct l1 as [|b l1].
  - simpl in *. rewrite (Hp a) by done. split_and!; try done.
    rewrite Hnx, <- (lchain_head _ _ _ Hc). eapply lchain_ext; [|done].
    intros y Hy. apply Hext; [by right|]. by intros [= ->].
  - change (lchain nx (nx a) ((b :: l1) ++ l2)) in Hc.
    change (NoDup ((b :: l1) ++ l2)) in Hnd. change (a ∉ (b :: l1) ++ l2) in Hna.
    specialize (IH x l2 (nx a) Hc Hnd Hx Hnx). cbn match in IH.
    rewrite (Hext a); [apply IH| |].
    + intros p Hl. by apply Hp.
    + intros y Hy Hl. apply Hext; [by right|done].
    + by left.
    + intros Hl. apply Hna, elem_of_app. left. by eapply last_Some_elem_of.
Qed.

Lemma last_rev {A} (l : list A) : last (rev l) = head l.
Proof. destruct l; [done|]. simpl. by rewrite last_snoc. Qed.

Lemma head_rev {A} (l : list A) : head (rev l) = last l.
Proof. by rewrite <- (rev_involutive l), last_rev, rev_involutive. Qed.

Lemma elem_of_rev {A} (l : list A) x : x ∈ rev l <-> x ∈ l.
Proof. by rewrite !list_elem_of_In, <- in_rev. Qed.

(** ** Both directions *)

Record dlist (nx px : Z -> Z) (first last : Z) (l : list Z) : Prop := {
  dl_next : lchain nx first l;
  dl_prev : lchain px last (rev l);
  dl_nodup : NoDup l
}.

Lemma dlist_first nx px f t l : dlist nx px f t l -> f = default NIL (head l).
Proof. intros [H _ _]. by eapply lchain_head. Qed.

Lemma dlist_last nx px f t l : dlist nx px f t l -> t = default NIL (list.last l).
Proof. intros [_ H _]. rewrite <- head_rev. by eapply lchain_head. Qed.

(** What the code has to write to put [x] between [l1] and [l2]. *)
Lemma dlist_insert nx px nx' px' f t f' t' l1 x l2 :
  dlist nx px f t (l1 ++ l2) -> x ∉ l1 ++ l2 -> x <> NIL ->
  nx' x = default NIL (head l2) -> px' x = default NIL (list.last l1) ->
  (forall p, list.last l1 = Some p -> nx' p = x) ->
  (forall q, head l2 = Some q -> px' q = x) ->
  (forall y, y ∈ l1 ++ l2 -> list.last l1 <> Some y -> nx' y = nx y) ->
  (forall y, y ∈ l1 ++ l2 -> head l2 <> Some y -> px' y = px y) ->
  f' = (match l1 with [] => x | _ => f end) ->
  t' = (match l2 with [] => x | _ => t end) ->
  dlist nx' px' f' t' (l1 ++ x :: l2).
Proof.
  intros [Hn Hp Hd] Hx Hnil Hnx Hpx Hnp Hpq Hne Hpe -> ->. split.
  - by eapply lchain_insert.
  - rewrite rev_app_distr. simpl. rewrite <- app_assoc. simpl.
    replace (match l2 with [] => x | _ => t end)
      with (match rev l2 with [] => x | _ => t end).
    2: { destruct l2 as [|b l2]; [done|]. simpl. by destruct (rev l2). }
    eapply lchain_insert.
    + rewrite <- rev_app_distr. exact Hp.
    + rewrite <- rev_app_distr. by apply NoDup_ListNoDup, NoDup_rev, NoDup_ListNoDup.
    + done.
    + by rewrite head_rev.
    + intros p. rewrite last_rev. apply Hpq.
    + intros y. rewrite last_rev, <- rev_app_distr, elem_of_rev. apply Hpe.
  - rewrite <- Permutation_middle. by constructor.
Qed.

Lemma dlist_ext nx px nx' px' f t l :
  (forall y, y ∈ l -> nx' y = nx y /\ px' y = px y) ->
  dlist nx px f t l -> dlist nx' px' f t l.
Proof.
  intros Hext [Hn Hp Hd]. split; [..|done].
  - eapply lchain_ext; [|done]. intros y Hy. by apply Hext.
  - eapply lchain_ext; [|done]. intros y Hy. apply Hext.
    by apply elem_of_rev.
Qed.
