(* ===== verification/ByteBits.v ===== *)
(** * Bit masks kept in byte arrays

    Three components keep one bit per object in an array of bytes: the space
    management extent and the dirty list (most significant bit first) and
    [_utilBitmapBase] (least significant bit first).  A byte array is a finite
    map from the index to the unsigned 8-bit pattern, and an index never
    written reads 0, which is the [memset] all three start from.  A C [CHAR]
    is signed here, but sign extension does not change the low eight bits,
    which are the only ones the code looks at.

    [BitMask] is the interface the clients are proved against. *)
From S2P Require Import Prelude.

Abbreviation bytes := (gmap Z Z).

Definition byte_at (d : bytes) (i : Z) : Z := default 0 (d !! i).

Lemma byte_at_insert d i x j :
  byte_at (<[i := x]> d) j = if decide (i = j) then x else byte_at d j.
Proof. unfold byte_at. rewrite lookup_insert. by case_decide. Qed.

(** ** One byte *)

Lemma testbit_u8 x k : 0 <= k < 8 -> Z.testbit (u8 x) k = Z.testbit x k.
Proof.
  intros. unfold u8. change 256 with (2 ^ 8).
  by rewrite Z.mod_pow2_bits_low by lia.
Qed.

Lemma testbit_one_shiftl k j :
  0 <= k -> 0 <= j -> Z.testbit (Z.shiftl 1 k) j = bool_decide (j = k).
Proof.
  intros. rewrite Z.shiftl_spec by lia.
  destruct (decide (j = k)) as [->|Hn].
  - rewrite Z.sub_diag, bool_decide_eq_true_2 by done. reflexivity.
  - rewrite bool_decide_eq_false_2 by done.
    destruct (Z.ltb_spec j k).
    + by rewrite Z.testbit_neg_r by lia.
    + rewrite Z.testbit_eqb by lia.
      rewrite Z.div_small; [done|]. split; [lia|].
      apply Z.pow_gt_1; lia.
Qed.

Lemma land_shiftr_1 x k : 0 <= k -> Z.land (Z.shiftr x k) 1 = Z.b2z (Z.testbit x k).
Proof.
  intros. change 1 with (Z.ones 1). rewrite Z.land_ones by lia.
  rewrite Z.testbit_spec' by lia. by rewrite shiftr_div by lia.
Qed.

Lemma byte_set_bit x k j :
  0 <= k < 8 -> 0 <= j < 8 ->
  Z.testbit (u8 (Z.lor x (Z.shiftl 1 k))) j =
  if decide (k = j) then true else Z.testbit x j.
Proof.
  intros. rewrite testbit_u8, Z.lor_spec, testbit_one_shiftl by lia.
  case_decide; case_bool_decide; subst; try done.
  - apply orb_true_r.
  - apply orb_false_r.
Qed.

Lemma byte_clear_bit x k j :
  0 <= k < 8 -> 0 <= j < 8 ->
  Z.testbit (u8 (Z.land x (Z.lnot (Z.shiftl 1 k)))) j =
  if decide (k = j) then false else Z.testbit x j.
Proof.
  intros.
  rewrite testbit_u8, Z.land_spec, Z.lnot_spec, testbit_one_shiftl by lia.
  case_decide; case_bool_decide; subst; try done; simpl.
  - apply andb_false_r.
  - apply andb_true_r.
Qed.

(** Splitting a bit number into its byte and its place in the byte. *)
Lemma bitnum_split n :
  0 <= n -> Z.shiftr n 3 = n / 8 /\ Z.land n 7 = n mod 8 /\ 0 <= n mod 8 < 8
            /\ n = n / 8 * 8 + n mod 8.
Proof.
  intros. rewrite shiftr_div by lia.
  change 7 with (Z.ones 3). rewrite Z.land_ones by lia.
  change (2 ^ 3) with 8.
  pose proof (Z.div_mod n 8). pose proof (Z.mod_pos_bound n 8). lia.
Qed.

(** ** The interface *)

Class BitMask (T : Type) := {
  bm_get : T -> Z -> Z;
  bm_set : T -> Z -> T;
  bm_clear : T -> Z -> T
}.

Class BitMaskLaws (T : Type) `{BitMask T} : Prop := {
  bm_get_01 : forall (t : T) i, 0 <= i -> bm_get t i = 0 \/ bm_get t i = 1;
  bm_get_set : forall (t : T) i j, 0 <= i -> 0 <= j ->
    bm_get (bm_set t i) j = if decide (i = j) then 1 else bm_get t j;
  bm_get_clear : forall (t : T) i j, 0 <= i -> 0 <= j ->
    bm_get (bm_clear t i) j = if decide (i = j) then 0 else bm_get t j
}.

(** The two loops over a run of pages. *)
Section Runs.
  Context {T : Type} `{BitMaskLaws T}.

Fixpoint bm_set_run (t : T) (a : Z) (n : nat) : T :=
  match n with
  | O => t
  | S n => bm_set_run (bm_set t a) (a + 1) n
  end.

Fixpoint bm_clear_run (t : T) (a : Z) (n : nat) : T :=
  match n with
  | O => t
  | S n => bm_clear_run (bm_clear t a) (a + 1) n
  end.

Lemma bm_get_set_run n : forall (t : T) a j, 0 <= a -> 0 <= j ->
  bm_get (bm_set_run t a n) j =
  if decide (a <= j < a + Z.of_nat n) then 1 else bm_get t j.
Proof.
  induction n as [|n IH]; intros t a j Ha Hj; simpl.
  - case_decide; [lia|done].
  - rewrite IH, bm_get_set by lia. repeat case_decide; try done; lia.
Qed.

Lemma bm_get_clear_run n : forall (t : T) a j, 0 <= a -> 0 <= j ->
  bm_get (bm_clear_run t a n) j =
  if decide (a <= j < a + Z.of_nat n) then 0 else bm_get t j.
Proof.
  induction n as [|n IH]; intros t a j Ha Hj; simpl.
  - case_decide; [lia|done].
  - rewrite IH, bm_get_clear by lia. repeat case_decide; try done; lia.
Qed.

End Runs.

(** ** Most significant bit first *)

Definition msb_get (d : bytes) (n : Z) : Z :=
  Z.land (Z.shiftr (byte_at d (Z.shiftr n 3)) (7 - Z.land n 7)) 1.

Definition msb_set (d : bytes) (n : Z) : bytes :=
  <[Z.shiftr n 3 :=
      u8 (Z.lor (byte_at d (Z.shiftr n 3)) (Z.shiftl 1 (7 - Z.land n 7)))]> d.

Definition msb_clear (d : bytes) (n : Z) : bytes :=
  <[Z.shiftr n 3 :=
      u8 (Z.land (byte_at d (Z.shiftr n 3))
                 (Z.lnot (Z.shiftl 1 (7 - Z.land n 7))))]> d.

Lemma msb_get_testbit d n :
  0 <= n -> msb_get d n = Z.b2z (Z.testbit (byte_at d (n / 8)) (7 - n mod 8)).
Proof.
  intros. destruct (bitnum_split n) as (E1&E2&?&?); [lia|].
  unfold msb_get. rewrite E1, E2. apply land_shiftr_1. lia.
Qed.

Lemma msb_get_set d i j :
  0 <= i -> 0 <= j ->
  msb_get (msb_set d i) j = if decide (i = j) then 1 else msb_get d j.
Proof.
  intros. rewrite !msb_get_testbit by lia.
  destruct (bitnum_split i) as (E1&E2&?&?); [lia|].
  destruct (bitnum_split j) as (?&?&?&?); [lia|].
  unfold msb_set. rewrite E1, E2, byte_at_insert.
  destruct (decide (i / 8 = j / 8)) as [Hq|Hq].
  - rewrite byte_set_bit, Hq by lia.
    repeat case_decide; try done; lia.
  - case_decide; [subst; done|done].
Qed.

Lemma msb_get_clear d i j :
  0 <= i -> 0 <= j ->
  msb_get (msb_clear d i) j = if decide (i = j) then 0 else msb_get d j.
Proof.
  intros. rewrite !msb_get_testbit by lia.
  destruct (bitnum_split i) as (E1&E2&?&?); [lia|].
  destruct (bitnum_split j) as (?&?&?&?); [lia|].
  unfold msb_clear. rewrite E1, E2, byte_at_insert.
  destruct (decide (i / 8 = j / 8)) as [Hq|Hq].
  - rewrite byte_clear_bit, Hq by lia.
    repeat case_decide; try done; lia.
  - case_decide; [subst; done|done].
Qed.

Lemma msb_get_01 d i : 0 <= i -> msb_get d i = 0 \/ msb_get d i = 1.
Proof. intros. rewrite msb_get_testbit by lia. destruct (Z.testbit _ _); auto. Qed.

(** ** Copies and little-endian words *)

(** [memcpy]: the list of bytes goes to offset [a]. *)
Fixpoint write_bytes (d : bytes) (a : Z) (l : list Z) : bytes :=
  match l with
  | [] => d
  | x :: l => write_bytes (<[a := x]> d) (a + 1) l
  end.

Fixpoint read_bytes (d : bytes) (a : Z) (n : nat) : list Z :=
  match n with
  | O => []
  | S n => byte_at d a :: read_bytes d (a + 1) n
  end.

Lemma byte_at_write_bytes l : forall d a j,
  byte_at (write_bytes d a l) j =
  if decide (a <= j < a + Z.of_nat (length l)) then nth (Z.to_nat (j - a)) l 0
  else byte_at d j.
Proof.
  induction l as [|x l IH]; intros d a j; simpl.
  - by rewrite decide_False by lia.
  - rewrite IH, byte_at_insert.
    destruct (decide (a = j)) as [->|].
    + rewrite decide_False, decide_True by lia. by rewrite Z.sub_diag.
    + repeat case_decide; try lia; try done.
      replace (Z.to_nat (j - a)) with (S (Z.to_nat (j - (a + 1)))) by lia. done.
Qed.

Lemma read_bytes_ext d d' n : forall a,
  (forall j, a <= j < a + Z.of_nat n -> byte_at d j = byte_at d' j) ->
  read_bytes d a n = read_bytes d' a n.
Proof.
  induction n as [|n IH]; intros a Hd; simpl; [done|].
  rewrite (Hd a) by lia. f_equal. apply IH. intros j Hj. apply Hd. lia.
Qed.

Lemma read_write_bytes l : forall d a,
  read_bytes (write_bytes d a l) a (length l) = l.
Proof.
  induction l as [|x l IH]; intros d a; simpl; [done|].
  rewrite IH. f_equal. rewrite byte_at_write_bytes, decide_False by lia.
  by rewrite byte_at_insert, decide_True.
Qed.

Lemma length_read_bytes d n : forall a, length (read_bytes d a n) = n.
Proof. induction n; intros; simpl; auto. Qed.

Definition u32_bytes (x : Z) : list Z :=
  [x mod 256; (x / 256) mod 256; (x / 65536) mod 256; (x / 16777216) mod 256].

Definition bytes_u32 (l : list Z) : Z :=
  match l with
  | b0 :: b1 :: b2 :: b3 :: _ => b0 + b1 * 256 + b2 * 65536 + b3 * 16777216
  | _ => 0
  end.

Definition read_u32 (d : bytes) (a : Z) : Z := bytes_u32 (read_bytes d a 4).
Definition write_u32 (d : bytes) (a x : Z) : bytes := write_bytes d a (u32_bytes x).

Lemma bytes_u32_bytes x : 0 <= x < 4294967296 -> bytes_u32 (u32_bytes x) = x.
Proof.
  intros Hx. unfold bytes_u32, u32_bytes.
  pose proof (Z.div_mod x 256 ltac:(lia)) as H0.
  pose proof (Z.div_mod (x / 256) 256 ltac:(lia)) as H1.
  pose proof (Z.div_mod (x / 65536) 256 ltac:(lia)) as H2.
  rewrite Z.div_div in H1, H2 by lia.
  change (256 * 256) with 65536 in H1. change (65536 * 256) with 16777216 in H2.
  rewrite (Z.mod_small (x / 16777216)); [lia|].
  split; [apply Z.div_pos; lia|apply Z.div_lt_upper_bound; lia].
Qed.

Lemma read_write_u32 d a x : 0 <= x < 4294967296 -> read_u32 (write_u32 d a x) a = x.
Proof.
  intros. unfold read_u32, write_u32.
  change 4%nat with (length (u32_bytes x)). rewrite read_write_bytes.
  by apply bytes_u32_bytes.
Qed.

Lemma bytes_u32_app l l' : (4 <= length l)%nat -> bytes_u32 (l ++ l') = bytes_u32 l.
Proof. destruct l as [|? [|? [|? [|? ?]]]]; simpl; intros; try lia; done. Qed.

Lemma read_u32_bytes d a n :
  (4 <= n)%nat -> read_u32 d a = bytes_u32 (read_bytes d a n).
Proof. intros. destruct n as [|[|[|[|n]]]]; try lia. done. Qed.
