(* ===== verification/OssBase.v ===== *)
(** * Operating-system services: integer helpers and atomics

    [ossAlignX] (src/src/include/ossTypes.hpp), [ossIsPowerOf2] and
    [ossNextPowerOf2] (src/src/oss/ossUtil.cpp), the unsigned 32-bit atomic
    of src/src/include/ossAtomic.hpp, and the overflow tests of
    src/src/util/utilMath.cpp. *)
From S2P Require Import Prelude.

(** ** Alignment *)

Definition ossAlignX (i X : Z) : Z :=
  Z.land (u32 (i + (X - 1))) (u32 (Z.lnot (u32 (X - 1)))).

(** ** Powers of two *)

(** The loop that counts the shifts until the value is 1. *)
Fixpoint pow2_square_loop (fuel : nat) (num square : Z) : Z :=
  match fuel with
  | O => square
  | S fuel =>
      if num =? 1 then square
      else pow2_square_loop fuel (Z.shiftr num 1) (square + 1)
  end.

(** Result and the value written through [pSquare] ([None]: not written).
    The loop runs at most 31 times on a nonzero 32-bit value. *)
Definition ossIsPowerOf2 (num : Z) : bool * option Z :=
  let bPowered := negb (num =? 0) && (Z.land num (u32 (num - 1)) =? 0) in
  if bPowered then (true, Some (pow2_square_loop 32 num 0)) else (false, None).

Fixpoint nextpow2_loop (fuel : nat) (num square result : Z) : Z * Z :=
  match fuel with
  | O => (result, square)
  | S fuel =>
      if result <? num
      then nextpow2_loop fuel num (square + 1) (u64 (Z.shiftl result 1))
      else (result, square)
  end.

(** [ossNextPowerOf2]: result and [*pSquare]. *)
Definition ossNextPowerOf2 (num : Z) : Z * Z := nextpow2_loop 33 num 0 1.

Lemma pow2_square_loop_pow2 fuel k acc :
  0 <= k < Z.of_nat fuel -> pow2_square_loop fuel (2 ^ k) acc = acc + k.
Proof.
  revert k acc. induction fuel as [|fuel IH]; intros k acc Hk; [lia|]. simpl.
  destruct (decide (k = 0)) as [->|Hn]; [simpl; lia|].
  destruct (Z.eqb_spec (2 ^ k) 1) as [E|_].
  { pose proof (Z.pow_gt_1 2 k). lia. }
  rewrite shiftr_div by lia.
  replace (2 ^ k / 2 ^ 1) with (2 ^ (k - 1)).
  - rewrite IH by lia. lia.
  - rewrite <- Z.pow_sub_r by lia. done.
Qed.

Lemma land_pred_pow2 k : 0 <= k -> Z.land (2 ^ k) (2 ^ k - 1) = 0.
Proof.
  intros. replace (2 ^ k - 1) with (Z.ones k) by (rewrite Z.ones_equiv; lia).
  rewrite Z.land_ones by lia. apply Z.mod_same. lia.
Qed.

Lemma land_pred_zero_pow2 n :
  0 < n -> Z.land n (n - 1) = 0 -> n = 2 ^ Z.log2 n.
Proof.
  intros Hn Hl. pose proof (Z.log2_spec n Hn) as [H1 H2].
  pose proof (Z.log2_nonneg n).
  destruct (decide (n = 2 ^ Z.log2 n)) as [|Hne]; [done|exfalso].
  assert (Z.testbit (Z.land n (n - 1)) (Z.log2 n) = true) as Ht.
  { rewrite Z.land_spec, Z.bit_log2 by lia. simpl.
    replace (Z.log2 n) with (Z.log2 (n - 1)).
    - apply Z.bit_log2. lia.
    - apply Z.log2_unique; lia. }
  rewrite Hl, Z.bits_0 in Ht. done.
Qed.

Lemma ossIsPowerOf2_pow2 k :
  0 <= k < 32 -> ossIsPowerOf2 (2 ^ k) = (true, Some k).
Proof.
  intros Hk. unfold ossIsPowerOf2.
  assert (0 < 2 ^ k) by lia.
  assert (2 ^ k <= 2 ^ 31) by (apply Z.pow_le_mono_r; lia).
  change (2 ^ 31) with 2147483648 in *.
  rewrite u32_id, land_pred_pow2 by lia.
  destruct (Z.eqb_spec (2 ^ k) 0); [lia|]. simpl andb. cbn iota.
  by rewrite pow2_square_loop_pow2 by lia.
Qed.

#[local] Arguments pow2_square_loop : simpl never.

(** [ossIsPowerOf2] decides powers of two and computes the exponent. *)
Lemma ossIsPowerOf2_spec num :
  0 <= num < 4294967296 ->
  (exists k, 0 <= k < 32 /\ num = 2 ^ k /\ ossIsPowerOf2 num = (true, Some k)) \/
  ((forall k, 0 <= k -> num <> 2 ^ k) /\ ossIsPowerOf2 num = (false, None)).
Proof.
  intros Hn.
  destruct (ossIsPowerOf2 num) as [b o] eqn:E.
  pose proof E as E'. unfold ossIsPowerOf2 in E.
  destruct (Z.eqb_spec num 0) as [->|Hnz]; simpl in E.
  { injection E as <- <-. right. split; [|done]. intros k Hk.
    pose proof (Z.pow_pos_nonneg 2 k). lia. }
  rewrite u32_id in E by lia.
  destruct (Z.eqb_spec (Z.land num (num - 1)) 0) as [Hl|Hl]; simpl in E.
  - left. apply land_pred_zero_pow2 in Hl; [|lia].
    exists (Z.log2 num). pose proof (Z.log2_nonneg num).
    assert (Z.log2 num < 32) by (apply Z.log2_lt_pow2; lia).
    split; [lia|]. split; [done|].
    rewrite <- E', Hl at 1. apply ossIsPowerOf2_pow2. lia.
  - right. injection E as <- <-. split; [|done].
    intros k Hk ->. by rewrite land_pred_pow2 in Hl by lia.
Qed.

Lemma nextpow2_loop_spec fuel num k :
  0 <= k -> num <= 4294967296 -> 32 < k + Z.of_nat fuel -> k <= 32 ->
  (k = 0 \/ 2 ^ (k - 1) < num) ->
  exists r, 0 <= r <= 32 /\ nextpow2_loop fuel num k (2 ^ k) = (2 ^ r, r) /\
    num <= 2 ^ r /\ (r = 0 \/ 2 ^ (r - 1) < num).
Proof.
  revert k. induction fuel as [|fuel IH]; intros k Hk Hn Hf Hk2 Hlow; [lia|].
  simpl. destruct (Z.ltb_spec (2 ^ k) num) as [Hlt|Hge].
  - assert (k < 32).
    { destruct (decide (k = 32)) as [->|]; [|lia].
      change (2 ^ 32) with 4294967296 in Hlt. lia. }
    assert (2 ^ (k + 1) <= 2 ^ 32) by (apply Z.pow_le_mono_r; lia).
    assert (0 < 2 ^ (k + 1)) by lia.
    rewrite shiftl_mul by lia.
    replace (2 ^ k * 2 ^ 1) with (2 ^ (k + 1)) by (rewrite Z.pow_add_r; lia).
    rewrite u64_id by lia.
    apply IH; try lia. right. replace (k + 1 - 1) with k by lia. done.
  - exists k. split; [lia|]. done.
Qed.

(** [ossNextPowerOf2] returns the least power of two that is not below its
    argument, with its exponent. *)
Lemma ossNextPowerOf2_spec num :
  0 <= num < 4294967296 ->
  exists k, 0 <= k <= 32 /\ ossNextPowerOf2 num = (2 ^ k, k) /\
    num <= 2 ^ k /\ (k = 0 \/ 2 ^ (k - 1) < num).
Proof.
  intros. unfold ossNextPowerOf2. change 1 with (2 ^ 0).
  apply nextpow2_loop_spec; lia.
Qed.

(** ** Alignment is rounding up to the next multiple *)

Lemma land_lnot_ones x k :
  0 <= k -> 0 <= x -> Z.land x (Z.lnot (2 ^ k - 1)) = x - x mod 2 ^ k.
Proof.
  intros. replace (2 ^ k - 1) with (Z.ones k) by (rewrite Z.ones_equiv; lia).
  rewrite <- Z.ldiff_land, Z.ldiff_ones_r, shiftr_div, shiftl_mul by lia.
  pose proof (Z.div_mod x (2 ^ k)). lia.
Qed.

Lemma ossAlignX_spec i k :
  0 <= k < 32 -> 0 <= i -> i + 2 ^ k - 1 < 4294967296 ->
  i <= ossAlignX i (2 ^ k) < i + 2 ^ k /\ (2 ^ k | ossAlignX i (2 ^ k)).
Proof.
  intros Hk Hi Hb. unfold ossAlignX.
  assert (0 < 2 ^ k) by lia.
  rewrite (u32_id (2 ^ k - 1)), (u32_id (i + _)) by lia.
  replace (Z.land (i + (2 ^ k - 1)) (u32 (Z.lnot (2 ^ k - 1))))
    with (Z.land (i + (2 ^ k - 1)) (Z.lnot (2 ^ k - 1))).
  - rewrite land_lnot_ones by lia.
    pose proof (Z.mod_pos_bound (i + (2 ^ k - 1)) (2 ^ k)).
    split; [lia|].
    exists ((i + (2 ^ k - 1)) / 2 ^ k).
    pose proof (Z.div_mod (i + (2 ^ k - 1)) (2 ^ k)). lia.
  - unfold u32. change 4294967296 with (2 ^ 32).
    rewrite <- Z.land_ones, (Z.land_comm (Z.lnot _)), Z.land_assoc by lia.
    f_equal. rewrite Z.land_ones by lia. symmetry. apply Z.mod_small. lia.
Qed.

(** ** The unsigned 32-bit atomic

    Each method is one indivisible step on the cell, so its effect is a
    function from the old value to the returned and the new one.
    [swapPredicated] loops on a compare-and-swap; the step is its successful
    iteration, which installs [val] exactly when the predicate holds of [val]
    and the value read. *)

Definition atomic_fetch (v : Z) : Z := v.
Definition atomic_add (v val : Z) : Z := u32 (v + val).
Definition atomic_sub (v val : Z) : Z := u32 (v + - val).
Definition atomic_compareAndSwap (v compVal val : Z) : bool * Z :=
  if v =? compVal then (true, val) else (false, v).
Definition atomic_swapPredicated (op : Z -> Z -> bool) (v val : Z) : Z :=
  if op val v then val else v.
Definition atomic_swapGreaterThan (v val : Z) : Z :=
  atomic_swapPredicated (fun l r => r <? l) v val.
Definition atomic_swapLesserThan (v val : Z) : Z :=
  atomic_swapPredicated (fun l r => l <? r) v val.

Lemma atomic_swapLesserThan_min v val :
  atomic_swapLesserThan v val = Z.min v val.
Proof. unfold atomic_swapLesserThan, atomic_swapPredicated. zcases; lia. Qed.

Lemma atomic_swapGreaterThan_max v val :
  atomic_swapGreaterThan v val = Z.max v val.
Proof. unfold atomic_swapGreaterThan, atomic_swapPredicated. zcases; lia. Qed.
