(* ===== verification/OssMmap.v ===== *)
(** * Mapped files: [_ossMmapFile] (src/src/oss/ossMmap.cpp,
    src/src/include/ossMmap.hpp)

    A mapped byte is named by its segment and its offset in it, so a segment
    keeps its length and its place in the file, and no address.  Every call
    whose result the code tests takes its answer from [calls], at the
    position [n]; the operations return the position they stopped at. *)
From S2P Require Import Prelude.

Definition OSS_MMAP_INIT_CAPACITY : Z := 128.

Definition ENOMEM : Z := 12.
Definition EACCES : Z := 13.

Record ossMmapSegment := mkMapSeg { ms_length : Z; ms_offset : Z }.

(** [mm_segs] is the array [_pSegArray] up to [_size]; [mm_fileSize] is the
    size of the file. *)
Record ossMmapFile := mkMmap {
  mm_opened : bool;
  mm_fileSize : Z;
  mm_segs : list ossMmapSegment;
  mm_capacity : Z;
  mm_totalLength : Z
}.

Definition mm_new (fileSize : Z) : ossMmapFile := mkMmap false fileSize [] 0 0.

Definition mm_with_fileSize (f : ossMmapFile) (size : Z) : ossMmapFile :=
  mkMmap (mm_opened f) size (mm_segs f) (mm_capacity f) (mm_totalLength f).

Definition segmentSize (f : ossMmapFile) : Z := Z.of_nat (length (mm_segs f)).

Definition getSegmentInfo (f : ossMmapFile) (pos : Z) : option ossMmapSegment :=
  mm_segs f !! Z.to_nat pos.

Section Calls.
  Context (calls : nat -> Z).

(** [rc] of [ossOpen]. *)
Definition mm_open (n : nat) (f : ossMmapFile) : Z * nat * ossMmapFile :=
  let rc := calls n in
  (rc, S n,
   if SDB_OK =? rc
   then mkMmap true (mm_fileSize f) (mm_segs f) (mm_capacity f) (mm_totalLength f)
   else f).

(** [_totalLength] is not reset. *)
Definition mm_close (f : ossMmapFile) : ossMmapFile :=
  mkMmap false (mm_fileSize f) [] 0 (mm_totalLength f).

(** Return code and file size. *)
Definition mm_size (n : nat) (f : ossMmapFile) : Z * Z * nat :=
  let rc := calls n in
  (rc, if rc =? 0 then mm_fileSize f else 0, S n).

Definition ensureSpace (n : nat) (f : ossMmapFile) (size : Z) : Z * nat * ossMmapFile :=
  if size <=? mm_capacity f then (SDB_OK, n, f)
  else
    let newSize := u32 (Z.shiftl (mm_capacity f) 1) in
    let newSize := if 0 =? newSize then OSS_MMAP_INIT_CAPACITY else newSize in
    let newSize := if newSize <? size then size else newSize in
    if negb (calls n =? 0) then (SDB_OOM, S n, f)
    else (SDB_OK, S n,
          mkMmap (mm_opened f) (mm_fileSize f) (mm_segs f) newSize (mm_totalLength f)).

(** The result of [mmap] is 0 or the error number. *)
Definition mm_map (n : nat) (f : ossMmapFile) (offset len : Z)
    : Z * nat * ossMmapFile :=
  if 0 =? len then (SDB_OK, n, f)
  else if negb (calls n =? 0) then (calls n, S n, f)
  else
    let n := S n in
    let fileSize := mm_fileSize f in
    if fileSize <=? offset then (SDB_INVALIDARG, n, f)
    else
      let len :=
        if fileSize <? u64 (offset + len)
        then u32 (len - (fileSize - offset - 1)) else len in
      let '(rc, n, f) := ensureSpace n f (u32 (segmentSize f + 1)) in
      if negb (rc =? 0) then (rc, n, f)
      else
        let err := calls n in
        let n := S n in
        if negb (err =? 0)
        then (if ENOMEM =? err then SDB_OOM else if EACCES =? err then SDB_PERM else SDB_SYS,
              n, f)
        else (SDB_OK, n,
              mkMmap (mm_opened f) (mm_fileSize f) (mm_segs f ++ [mkMapSeg len offset])
                (mm_capacity f) (u64 (mm_totalLength f + len))).

(** A failed [msync] is logged; [rc] keeps its value. *)
Definition mm_flush (n : nat) (f : ossMmapFile) (segmentID : Z) : Z * nat :=
  if segmentSize f <=? segmentID then (SDB_INVALIDARG, n) else (SDB_OK, S n).

Fixpoint flushAll_loop (k : nat) (i : Z) (n : nat) (f : ossMmapFile) : Z * nat :=
  match k with
  | O => (SDB_OK, n)
  | S k =>
      let '(rc, n) := mm_flush n f i in
      if negb (SDB_OK =? rc) then (rc, n) else flushAll_loop k (i + 1) n f
  end.
Definition mm_flushAll (n : nat) (f : ossMmapFile) : Z * nat :=
  flushAll_loop (length (mm_segs f)) 0 n f.

(** The range that is synchronised, when one is. *)
Definition mm_flushBlock (n : nat) (f : ossMmapFile) (segmentID offset len : Z)
    : Z * nat * option (Z * Z) :=
  match getSegmentInfo f segmentID with
  | None => (SDB_INVALIDARG, n, None)
  | Some seg =>
      if segmentSize f <=? segmentID then (SDB_INVALIDARG, n, None)
      else if ms_length seg <? offset then (SDB_INVALIDARG, n, None)
      else if (len =? 0) || (offset =? ms_length seg) then (SDB_OK, n, None)
      else
        let len :=
          if (len <? 0) || (ms_length seg <? u32 (len + offset))
          then i32 (ms_length seg - offset) else len in
        (SDB_OK, S n, Some (offset, len))
  end.

End Calls.

(** ** Invariant *)

(** The array has room for its segments, every segment lies in the file, and
    [_totalLength] counts the mapped bytes. *)
Record mm_inv (f : ossMmapFile) : Prop := {
  mmi_cap : segmentSize f <= mm_capacity f < 4294967296;
  mmi_segs : Forall (fun s => 0 < ms_length s < 4294967296 /\ 0 <= ms_offset s /\
                              ms_offset s + ms_length s <= mm_fileSize f) (mm_segs f);
  mmi_size : 0 <= mm_fileSize f < 9223372036854775808;
  mmi_total : mm_totalLength f = u64 (sumZ (map ms_length (mm_segs f)))
}.

Lemma ensureSpace_spec calls n f rc n' f' :
  segmentSize f <= mm_capacity f < 4294967296 -> segmentSize f + 1 < 4294967296 ->
  ensureSpace calls n f (segmentSize f + 1) = (rc, n', f') ->
  (rc = SDB_OOM /\ f' = f) \/
  (rc = SDB_OK /\ segmentSize f + 1 <= mm_capacity f' < 4294967296 /\
   mm_opened f' = mm_opened f /\ mm_fileSize f' = mm_fileSize f /\
   mm_segs f' = mm_segs f /\ mm_totalLength f' = mm_totalLength f).
Proof.
  intros Hc Hs. unfold ensureSpace.
  destruct (Z.leb_spec (segmentSize f + 1) (mm_capacity f)).
  { intros; simplify_eq. right. split_and!; done || lia. }
  pose proof (u32_range (Z.shiftl (mm_capacity f) 1)).
  case_match; intros; simplify_eq; simpl; [by left|right].
  split_and!; try done; unfold OSS_MMAP_INIT_CAPACITY;
    destruct (Z.eqb_spec 0 (u32 (Z.shiftl (mm_capacity f) 1)));
    repeat match goal with |- context [?a <? ?b] => destruct (Z.ltb_spec a b) end; lia.
Qed.

(** [map] of a range inside the file either appends exactly that range as
    the next segment, with the array grown when it was full, or reports the
    failure of a system call and maps nothing; the invariant is kept and no
    existing segment moves. *)
Theorem mm_map_correct calls n f offset len rc n' f' :
  mm_inv f -> segmentSize f < 4294967295 ->
  0 <= offset -> 0 < len < 4294967296 -> offset + len <= mm_fileSize f ->
  mm_map calls n f offset len = (rc, n', f') ->
  mm_inv f' /\ mm_fileSize f' = mm_fileSize f /\
  ((rc = SDB_OK /\ mm_segs f' = mm_segs f ++ [mkMapSeg len offset]) \/
   (rc <> SDB_OK /\ mm_segs f' = mm_segs f)).
Proof.
  intros Hi Hn Ho Hl Hin. destruct Hi as [Hc Hs Hz Ht]. unfold mm_map.
  destruct (Z.eqb_spec 0 len); [lia|].
  destruct (Z.eqb_spec (calls n) 0) as [|Hne]; simpl.
  2: { intros; simplify_eq. split_and!; [done..|right; done]. }
  destruct (Z.leb_spec (mm_fileSize f) offset); [lia|].
  rewrite (u64_id (offset + len)) by lia.
  destruct (Z.ltb_spec (mm_fileSize f) (offset + len)); [lia|].
  rewrite u32_id by (unfold segmentSize in *; lia).
  destruct (ensureSpace calls (S n) f (segmentSize f + 1)) as [[rc1 n1] f1] eqn:E.
  apply ensureSpace_spec in E; [|done|lia].
  destruct E as [(->&->)|(->&Hc1&Hop&Hz1&Hs1&Ht1)]; simpl.
  { intros; simplify_eq. split_and!; [done..|right; done]. }
  destruct (Z.eqb_spec (calls n1) 0) as [|Hne]; simpl.
  - intros; simplify_eq; simpl. split_and!; [split|done|left; split; [done|by rewrite Hs1]];
      unfold segmentSize in *; simpl.
    + rewrite Hs1, length_app. simpl. lia.
    + rewrite Hs1, Hz1. apply Forall_app. split; [done|]. constructor; [simpl; lia|done].
    + by rewrite Hz1.
    + rewrite Ht1, Ht, Hs1, map_app, sumZ_app. simpl. unfold u64.
      rewrite Zplus_mod_idemp_l. f_equal. lia.
  - intros H'. assert (rc <> SDB_OK /\ f' = f1) as [Hrc ->].
    { repeat case_match; simplify_eq; done. }
    split_and!; [split| |right]; try (by rewrite ?Hz1, ?Hs1); unfold segmentSize in *.
    + rewrite Hs1. lia.
    + by rewrite Ht1, Ht, Hs1.
Qed.

Definition mmap_example : ossMmapFile := mkMmap true 200000 [] 0 0.

Lemma mmap_example_inv : mm_inv mmap_example.
Proof. split; [split; reflexivity || (vm_compute; discriminate)|constructor|simpl; lia|reflexivity]. Qed.

Lemma mm_map_correct_witness :
  mm_segs (mm_map (fun _ => 0) 0 mmap_example 0 65536).2 = [mkMapSeg 65536 0] /\
  mm_inv (mm_map (fun _ => 0) 0 mmap_example 0 65536).2.
Proof.
  destruct (mm_map (fun _ => 0) 0 mmap_example 0 65536) as [[rc n] f] eqn:E.
  destruct (mm_map_correct (fun _ => 0) 0 mmap_example 0 65536 rc n f mmap_example_inv)
    as (Hi&_&_); [vm_compute; reflexivity|lia|lia|simpl; lia|exact E|].
  split; [|exact Hi].
  assert ((rc, n, f) = mm_map (fun _ => 0) 0 mmap_example 0 65536) as E' by (symmetry; exact E).
  vm_compute in E'. injection E' as -> -> ->. reflexivity.
Defined.

(** A range that runs past the end of the file is not clamped to it: the
    mapped length keeps running past the end. *)
Theorem mm_map_past_end :
  let f := (mm_map (fun _ => 0) 0 (mkMmap true 100 [] 0 0) 0 200).2 in
  mm_segs f = [mkMapSeg 101 0] /\ ~ mm_inv f.
Proof.
  split; [reflexivity|]. intros [_ Hs _ _]. 
  change (Forall (fun s => 0 < ms_length s < 4294967296 /\ 0 <= ms_offset s /\
                           ms_offset s + ms_length s <= 100) [mkMapSeg 101 0]) in Hs.
  apply Forall_cons in Hs as [(_&_&H) _]. simpl in H. lia.
Qed.
