(* ===== verification/UtilMath.v ===== *)
(** * Overflow tests on 64-bit arithmetic (src/src/util/utilMath.cpp)

    The caller computes the wrapped [result] of the machine operation and asks
    whether the exact result was representable.  The theorems show each test
    is exact in both directions. *)
From S2P Require Import Prelude.

Definition OSS_SINT64_MIN : Z := -9223372036854775808.

Definition in_i64 (x : Z) : Prop :=
  -9223372036854775808 <= x < 9223372036854775808.

Definition utilAddIsOverflow (l r result : Z) : bool :=
  if (0 <? l) && (0 <? r) && (result <? 0) then true
  else if (l <? 0) && (r <? 0) && (0 <=? result) then true
  else false.

Definition utilSubIsOverflow (l r result : Z) : bool :=
  if (0 <=? l) && (r <? 0) && (result <? 0) then true
  else if (l <? 0) && (0 <? r) && (0 <? result) then true
  else false.

(** [result / r] truncates toward zero; [||] does not evaluate it when its
    left operand holds. *)
Definition utilMulIsOverflow (l r result : Z) : bool :=
  if negb (l =? i32 l) || negb (r =? i32 r) then
    if negb (r =? 0) &&
       (((r =? -1) && (l <? 0) && (result <? 0)) ||
        negb (Z.quot result r =? l))
    then true else false
  else false.

Definition utilDivIsOverflow (l r : Z) : bool :=
  if (OSS_SINT64_MIN =? l) && (-1 =? r) then true else false.

(** The wrapped value is the exact one exactly when that is representable. *)
Lemma i64_exact x : i64 x = x <-> in_i64 x.
Proof.
  split; [|apply i64_id].
  intros E. pose proof (i64_range x). unfold in_i64. lia.
Qed.

Lemma utilAddIsOverflow_exact l r :
  in_i64 l -> in_i64 r ->
  utilAddIsOverflow l r (i64 (l + r)) = true <-> ~ in_i64 (l + r).
Proof.
  unfold in_i64. intros Hl Hr.
  pose proof (i64_range (l + r)). destruct (i64_congr (l + r)) as [k Hk].
  unfold utilAddIsOverflow. zcases; split; intros; try done; try lia.
Qed.

Lemma utilSubIsOverflow_exact l r :
  in_i64 l -> in_i64 r ->
  utilSubIsOverflow l r (i64 (l - r)) = true <-> ~ in_i64 (l - r).
Proof.
  unfold in_i64. intros Hl Hr.
  pose proof (i64_range (l - r)). destruct (i64_congr (l - r)) as [k Hk].
  unfold utilSubIsOverflow. zcases; split; intros; try done; try lia.
Qed.

(** Dividing a wrapped product by one factor gives back the other one only
    when nothing was lost. *)
Lemma quot_wrapped_mul l r :
  in_i64 l -> in_i64 r -> r <> 0 -> Z.quot (i64 (l * r)) r = l <-> in_i64 (l * r).
Proof.
  intros Hl Hr Hnz. split.
  - intros E. apply i64_exact.
    destruct (i64_congr (l * r)) as [k Hk].
    pose proof (Z.quot_rem' (i64 (l * r)) r) as Hq. rewrite E in Hq.
    pose proof (Z.rem_bound_abs (i64 (l * r)) r Hnz).
    unfold in_i64 in *.
    assert (Z.rem (i64 (l * r)) r = k * 18446744073709551616) by lia.
    assert (k = 0) by lia. subst k. lia.
  - intros Hm. rewrite (proj2 (i64_exact _) Hm). apply Z.quot_mul. done.
Qed.

Lemma i32_exact x : i32 x = x -> -2147483648 <= x < 2147483648.
Proof. intros E. pose proof (i32_range x). lia. Qed.

Lemma utilMulIsOverflow_exact l r :
  in_i64 l -> in_i64 r ->
  utilMulIsOverflow l r (i64 (l * r)) = true <-> ~ in_i64 (l * r).
Proof.
  intros Hl Hr. unfold utilMulIsOverflow.
  destruct (negb (l =? i32 l) || negb (r =? i32 r)) eqn:Eb.
  - destruct (Z.eqb_spec r 0) as [->|Hnz]; simpl.
    { rewrite Z.mul_0_r. unfold in_i64. split; [done|lia]. }
    pose proof (quot_wrapped_mul l r Hl Hr Hnz) as Hq.
    destruct ((r =? -1) && (l <? 0) && (i64 (l * r) <? 0)) eqn:E1; simpl.
    + split; [|done]. intros _. rewrite !andb_true_iff in E1.
      destruct E1 as [[E1 E2] E3].
      apply Z.eqb_eq in E1. apply Z.ltb_lt in E2, E3. subst r.
      intros Hm. rewrite (proj2 (i64_exact _) Hm) in E3. lia.
    + destruct (Z.eqb_spec (Z.quot (i64 (l * r)) r) l) as [E|E]; simpl;
        rewrite Hq in E; naive_solver.
  - apply orb_false_iff in Eb as [E1 E2].
    apply negb_false_iff, Z.eqb_eq in E1, E2.
    symmetry in E1, E2. apply i32_exact in E1, E2.
    split; [done|]. unfold in_i64. intros Hm. exfalso. apply Hm. nia.
Qed.

(** A quotient by anything but -1 is no larger than the dividend. *)
Lemma quot_in_i64 l r : in_i64 l -> r <> 0 -> r <> -1 -> in_i64 (Z.quot l r).
Proof.
  unfold in_i64. intros Hl H0 H1.
  destruct (decide (r = 1)) as [->|]; [rewrite Z.quot_1_r; lia|].
  pose proof (Z.quot_abs l r H0) as E. rewrite Z.quot_div_nonneg in E by lia.
  pose proof (Z.div_le_compat_l (Z.abs l) 2 (Z.abs r)).
  pose proof (Z.div_mod (Z.abs l) 2). pose proof (Z.mod_pos_bound (Z.abs l) 2).
  lia.
Qed.

Lemma utilDivIsOverflow_exact l r :
  in_i64 l -> in_i64 r -> r <> 0 ->
  utilDivIsOverflow l r = true <-> ~ in_i64 (Z.quot l r).
Proof.
  intros Hl Hr Hnz. unfold utilDivIsOverflow, OSS_SINT64_MIN.
  destruct (Z.eqb_spec (-1) r) as [<-|Hr'].
  - replace (Z.quot l (-1)) with (- l)
      by (change (-1) with (- (1)); rewrite Z.quot_opp_r, Z.quot_1_r; lia).
    unfold in_i64 in *. zcases; split; intros; try done; lia.
  - rewrite andb_false_r. pose proof (quot_in_i64 l r Hl Hnz). naive_solver.
Qed.

(** Each of the four overflow tests, given the wrapped result of the
    64-bit operation, says exactly whether the mathematical result does not
    fit in 64 bits. *)
Theorem utilMath_overflow_exact l r :
  in_i64 l -> in_i64 r ->
  (utilAddIsOverflow l r (i64 (l + r)) = true <-> ~ in_i64 (l + r)) /\
  (utilSubIsOverflow l r (i64 (l - r)) = true <-> ~ in_i64 (l - r)) /\
  (utilMulIsOverflow l r (i64 (l * r)) = true <-> ~ in_i64 (l * r)) /\
  (r <> 0 -> utilDivIsOverflow l r = true <-> ~ in_i64 (Z.quot l r)).
Proof.
  intros Hl Hr. split_and!; auto using utilAddIsOverflow_exact,
    utilSubIsOverflow_exact, utilMulIsOverflow_exact, utilDivIsOverflow_exact.
Qed.

Lemma utilMath_overflow_exact_witness :
  utilMulIsOverflow 4294967296 2147483648 (i64 (4294967296 * 2147483648)) = true /\
  utilMulIsOverflow 4294967296 2147483647 (i64 (4294967296 * 2147483647)) = false.
Proof.
  split.
  - apply (utilMath_overflow_exact 4294967296 2147483648); unfold in_i64; lia.
  - destruct (utilMulIsOverflow 4294967296 2147483647 (i64 (4294967296 * 2147483647))) eqn:E;
      [exfalso|reflexivity].
    destruct (utilMath_overflow_exact 4294967296 2147483647) as (_&_&Hm&_);
      [unfold in_i64; lia..|].
    apply Hm in E. apply E. unfold in_i64. lia.
Defined.
