(* ===== verification/DmsBase.v ===== *)
(** * DMS base definitions (src/src/include/dms.hpp, src/src/dms/dms.cpp)

    Constants of the on-disk format, record identifiers and their order, the
    collection state flags, and the checks on collection space and collection
    names. *)
From S2P Require Import Prelude.
From Stdlib Require Import Ascii String.

(** ** Format constants *)

Definition DMS_COLLECTION_SPACE_NAME_SZ : Z := 127.
Definition DMS_COLLECTION_NAME_SZ : Z := 127.
Definition DMS_PAGE_SIZE4K : Z := 4096.
Definition DMS_PAGE_SIZE8K : Z := 8192.
Definition DMS_PAGE_SIZE16K : Z := 16384.
Definition DMS_PAGE_SIZE32K : Z := 32768.
Definition DMS_PAGE_SIZE64K : Z := 65536.
Definition DMS_PAGE_SIZE_DFT : Z := DMS_PAGE_SIZE64K.
Definition DMS_MAX_PG : Z := 128 * 1024 * 1024.
Definition DMS_SEGMENT_SZ : Z := 128 * 1024 * 1024.
Definition DMS_BEST_UP_EXTENT_SZ : Z := 16 * 1024 * 1024.
Definition DMS_MME_SLOTS : Z := 4096.
Definition DMS_INVALID_CLID : Z := u32 (Z.lnot 0).
Definition DMS_INVALID_OFFSET : Z := -1.
Definition DMS_INVALID_EXTENT : Z := -1.
Definition DMS_INVALID_MBID : Z := 65535.

(** ** Record identifiers *)

Record dmsRecordID := mkRID { rid_extent : Z; rid_offset : Z }.

#[export] Instance dmsRecordID_eq_dec : EqDecision dmsRecordID.
Proof. solve_decision. Defined.

#[export] Instance dmsRecordID_countable : Countable dmsRecordID.
Proof.
  apply (inj_countable' (fun r => (rid_extent r, rid_offset r))
                        (fun p => mkRID p.1 p.2)).
  by intros [].
Defined.

Definition rid_null : dmsRecordID := mkRID DMS_INVALID_EXTENT DMS_INVALID_OFFSET.
Definition rid_isNull (r : dmsRecordID) : bool := DMS_INVALID_EXTENT =? rid_extent r.
Definition rid_isValid (r : dmsRecordID) : bool :=
  negb (DMS_INVALID_EXTENT =? rid_extent r).

(** The difference is computed in [INT32]. *)
Definition rid_compare (a b : dmsRecordID) : Z :=
  if negb (rid_extent a =? rid_extent b)
  then i32 (rid_extent a - rid_extent b)
  else i32 (rid_offset a - rid_offset b).

Definition rid_le (a b : dmsRecordID) : bool := rid_compare a b <=? 0.
Definition rid_lt (a b : dmsRecordID) : bool := rid_compare a b <? 0.
Definition rid_eqb (a b : dmsRecordID) : bool :=
  (rid_extent a =? rid_extent b) && (rid_offset a =? rid_offset b).

Definition rid_resetMax : dmsRecordID := mkRID 2147483647 2147483647.
Definition rid_resetMin : dmsRecordID := mkRID 0 0.

(** Identifiers of a place in the file, the bounds set by [resetMin] and
    [resetMax] included. *)
Definition rid_wf (r : dmsRecordID) : Prop :=
  0 <= rid_extent r < 2147483648 /\ 0 <= rid_offset r < 2147483648.

(** The order of positions in the file: by extent, then by offset. *)
Definition rid_before (a b : dmsRecordID) : Prop :=
  rid_extent a < rid_extent b \/
  (rid_extent a = rid_extent b /\ rid_offset a < rid_offset b).

Lemma rid_compare_spec a b :
  rid_wf a -> rid_wf b ->
  (rid_compare a b < 0 <-> rid_before a b) /\
  (rid_compare a b = 0 <-> a = b) /\
  (0 < rid_compare a b <-> rid_before b a).
Proof.
  unfold rid_wf, rid_compare, rid_before. intros.
  destruct a as [ea oa], b as [eb ob]; simpl in *.
  destruct (Z.eqb_spec ea eb); simpl; rewrite i32_id by lia;
    (split; [lia|split; [|lia]]); split; intros E;
    try injection E; intros; try f_equal; lia.
Qed.

(** Among positions in the file, [operator<] is a strict total order. *)
Lemma rid_lt_before a b :
  rid_wf a -> rid_wf b -> rid_lt a b = true <-> rid_before a b.
Proof.
  intros Ha Hb. unfold rid_lt. rewrite Z.ltb_lt.
  apply (rid_compare_spec a b Ha Hb).
Qed.

Lemma rid_lt_trans a b c :
  rid_wf a -> rid_wf b -> rid_wf c ->
  rid_lt a b = true -> rid_lt b c = true -> rid_lt a c = true.
Proof.
  intros Ha Hb Hc. rewrite !rid_lt_before by done. unfold rid_before. lia.
Qed.

Lemma rid_lt_total a b :
  rid_wf a -> rid_wf b -> rid_lt a b = true \/ a = b \/ rid_lt b a = true.
Proof.
  intros Ha Hb. rewrite !rid_lt_before by done.
  destruct a as [ea oa], b as [eb ob]; unfold rid_before; simpl.
  destruct (Z.lt_trichotomy ea eb) as [|[->|]]; try lia.
  destruct (Z.lt_trichotomy oa ob) as [|[->|]]; try lia. auto.
Qed.

(** On positions in the file (up to the one [resetMax] sets), [compare]
    is the order by extent and then offset: negative, zero and positive
    exactly for before, same and after, so [operator<] is a strict total
    order and the subtraction never overflows. *)
Theorem rid_order a b c :
  rid_wf a -> rid_wf b -> rid_wf c ->
  (rid_compare a b < 0 <-> rid_before a b) /\
  (rid_compare a b = 0 <-> a = b) /\
  (0 < rid_compare a b <-> rid_before b a) /\
  (rid_lt a b = true -> rid_lt b c = true -> rid_lt a c = true) /\
  (rid_lt a b = true \/ a = b \/ rid_lt b a = true).
Proof.
  intros Ha Hb Hc. pose proof (rid_compare_spec a b Ha Hb) as (?&?&?).
  split_and!; eauto using rid_lt_trans, rid_lt_total.
Qed.

Lemma rid_order_witness : rid_lt (mkRID 3 100) (mkRID 4 36) = true.
Proof.
  destruct (rid_order (mkRID 3 100) (mkRID 4 36) rid_resetMax) as (H&_);
    [unfold rid_wf; simpl; lia..|].
  unfold rid_lt. apply Z.ltb_lt, H. left. reflexivity.
Defined.

(** The null identifier is not such a position: between the two
    sentinels the 32-bit subtraction overflows, and the identifier [resetMax]
    sets sorts before the null one, while the null one also sorts before
    every position of the file. *)
Theorem rid_compare_sentinels_overflow : rid_lt rid_resetMax rid_null = true /\
  rid_lt rid_null rid_resetMin = true.
Proof. split; reflexivity. Qed.

(** ** Collection state flags *)

Definition DMS_MB_FLAG_FREE : Z := 0x0000.
Definition DMS_MB_FLAG_USED : Z := 0x0001.
Definition DMS_MB_FLAG_DROPED : Z := 0x0002.
Definition DMS_MB_FLAG_OFFLINE_REORG : Z := 0x0010.
Definition DMS_MB_FLAG_ONLINE_REORG : Z := 0x0020.
Definition DMS_MB_FLAG_LOAD : Z := 0x0040.
Definition DMS_MB_FLAG_OFFLINE_REORG_SHADOW_COPY : Z := 0x0100.
Definition DMS_MB_FLAG_OFFLINE_REORG_TRUNCATE : Z := 0x0200.
Definition DMS_MB_FLAG_OFFLINE_REORG_COPY_BACK : Z := 0x0400.
Definition DMS_MB_FLAG_OFFLINE_REORG_REBUILD : Z := 0x0800.
Definition DMS_MB_FLAG_LOAD_LOAD : Z := 0x0100.
Definition DMS_MB_FLAG_LOAD_BUILD : Z := 0x0200.

Definition flag_on (x m : Z) : bool := negb (0 =? Z.land x m).

Definition DMS_IS_MB_FREE (x : Z) : bool := DMS_MB_FLAG_FREE =? x.
Definition DMS_SET_MB_FREE (x : Z) : Z := DMS_MB_FLAG_FREE.
Definition DMS_IS_MB_INUSE (x : Z) : bool := flag_on x DMS_MB_FLAG_USED.
Definition DMS_SET_MB_INUSE (x : Z) : Z := u16 (Z.lor x DMS_MB_FLAG_USED).
Definition DMS_IS_MB_DROPPED (x : Z) : bool := DMS_MB_FLAG_DROPED =? x.
Definition DMS_SET_MB_DROPPED (x : Z) : Z := DMS_MB_FLAG_DROPED.
Definition DMS_IS_MB_NORMAL (x : Z) : bool := DMS_MB_FLAG_USED =? x.
Definition DMS_SET_MB_NORMAL (x : Z) : Z := DMS_MB_FLAG_USED.
Definition DMS_IS_MB_OFFLINE_REORG (x : Z) : bool :=
  flag_on x DMS_MB_FLAG_OFFLINE_REORG && DMS_IS_MB_INUSE x.
Definition DMS_SET_MB_OFFLINE_REORG (x : Z) : Z :=
  Z.lor DMS_MB_FLAG_OFFLINE_REORG DMS_MB_FLAG_USED.
Definition DMS_IS_MB_ONLINE_REORG (x : Z) : bool :=
  flag_on x DMS_MB_FLAG_ONLINE_REORG && DMS_IS_MB_INUSE x.
Definition DMS_SET_MB_ONLINE_REORG (x : Z) : Z :=
  Z.lor DMS_MB_FLAG_ONLINE_REORG DMS_MB_FLAG_USED.
Definition DMS_IS_MB_OFFLINE_REORG_SHADOW_COPY (x : Z) : bool :=
  flag_on x DMS_MB_FLAG_OFFLINE_REORG_SHADOW_COPY && DMS_IS_MB_OFFLINE_REORG x.
Definition DMS_SET_MB_OFFLINE_REORG_SHADOW_COPY (x : Z) : Z :=
  Z.lor (Z.lor DMS_MB_FLAG_OFFLINE_REORG_SHADOW_COPY DMS_MB_FLAG_OFFLINE_REORG)
        DMS_MB_FLAG_USED.
Definition DMS_IS_MB_OFFLINE_REORG_TRUNCATE (x : Z) : bool :=
  flag_on x DMS_MB_FLAG_OFFLINE_REORG_TRUNCATE && DMS_IS_MB_OFFLINE_REORG x.
Definition DMS_SET_MB_OFFLINE_REORG_TRUNCATE (x : Z) : Z :=
  Z.lor (Z.lor DMS_MB_FLAG_OFFLINE_REORG_TRUNCATE DMS_MB_FLAG_OFFLINE_REORG)
        DMS_MB_FLAG_USED.
Definition DMS_IS_MB_OFFLINE_REORG_COPY_BACK (x : Z) : bool :=
  flag_on x DMS_MB_FLAG_OFFLINE_REORG_COPY_BACK && DMS_IS_MB_OFFLINE_REORG x.
Definition DMS_SET_MB_OFFLINE_REORG_COPY_BACK (x : Z) : Z :=
  Z.lor (Z.lor DMS_MB_FLAG_OFFLINE_REORG_COPY_BACK DMS_MB_FLAG_OFFLINE_REORG)
        DMS_MB_FLAG_USED.
Definition DMS_IS_MB_OFFLINE_REORG_REBUILD (x : Z) : bool :=
  flag_on x DMS_MB_FLAG_OFFLINE_REORG_REBUILD && DMS_IS_MB_OFFLINE_REORG x.
Definition DMS_SET_MB_OFFLINE_REORG_REBUILD (x : Z) : Z :=
  Z.lor (Z.lor DMS_MB_FLAG_OFFLINE_REORG_REBUILD DMS_MB_FLAG_OFFLINE_REORG)
        DMS_MB_FLAG_USED.
Definition DMS_IS_MB_LOAD (x : Z) : bool :=
  flag_on x DMS_MB_FLAG_LOAD && DMS_IS_MB_INUSE x.
Definition DMS_SET_MB_LOAD (x : Z) : Z := Z.lor DMS_MB_FLAG_LOAD DMS_MB_FLAG_USED.
Definition DMS_IS_MB_FLAG_LOAD_LOAD (x : Z) : bool :=
  flag_on x DMS_MB_FLAG_LOAD_LOAD && DMS_IS_MB_LOAD x.
Definition DMS_SET_MB_FLAG_LOAD_LOAD (x : Z) : Z :=
  Z.lor (Z.lor DMS_MB_FLAG_LOAD_LOAD DMS_MB_FLAG_LOAD) DMS_MB_FLAG_USED.
Definition DMS_IS_MB_FLAG_LOAD_BUILD (x : Z) : bool :=
  flag_on x DMS_MB_FLAG_LOAD_BUILD && DMS_IS_MB_LOAD x.
Definition DMS_SET_MB_FLAG_LOAD_BUILD (x : Z) : Z :=
  Z.lor (Z.lor DMS_MB_FLAG_LOAD_BUILD DMS_MB_FLAG_LOAD) DMS_MB_FLAG_USED.

Lemma DMS_SET_MB_INUSE_inuse x : DMS_IS_MB_INUSE (DMS_SET_MB_INUSE x) = true.
Proof.
  unfold DMS_IS_MB_INUSE, DMS_SET_MB_INUSE, flag_on, DMS_MB_FLAG_USED, u16.
  change 65536 with (2 ^ 16). rewrite <- Z.land_ones by lia.
  rewrite <- Z.land_assoc. change (Z.land (Z.ones 16) 1) with 1.
  rewrite Z.land_lor_distr_l. change (Z.land 1 1) with 1.
  change 1 with (Z.ones 1) at 1. rewrite Z.land_ones by lia.
  destruct (Z.eqb_spec 0 (Z.lor (x mod 2 ^ 1) 1)) as [E|]; [|done].
  symmetry in E. apply Z.lor_eq_0_iff in E. lia.
Qed.

(** The operation and phase a set macro records, as the test macros of each
    family read it back: offline reorganisation (none, or one of its four
    phases), online reorganisation, load (none, or one of its two phases). *)
Definition mb_offline_phases (x : Z) : list bool :=
  [DMS_IS_MB_OFFLINE_REORG x; DMS_IS_MB_OFFLINE_REORG_SHADOW_COPY x;
   DMS_IS_MB_OFFLINE_REORG_TRUNCATE x; DMS_IS_MB_OFFLINE_REORG_COPY_BACK x;
   DMS_IS_MB_OFFLINE_REORG_REBUILD x].
Definition mb_load_phases (x : Z) : list bool :=
  [DMS_IS_MB_LOAD x; DMS_IS_MB_FLAG_LOAD_LOAD x; DMS_IS_MB_FLAG_LOAD_BUILD x].

Definition mb_ops : list (Z -> Z) :=
  [DMS_SET_MB_NORMAL; DMS_SET_MB_OFFLINE_REORG; DMS_SET_MB_ONLINE_REORG;
   DMS_SET_MB_OFFLINE_REORG_SHADOW_COPY; DMS_SET_MB_OFFLINE_REORG_TRUNCATE;
   DMS_SET_MB_OFFLINE_REORG_COPY_BACK; DMS_SET_MB_OFFLINE_REORG_REBUILD;
   DMS_SET_MB_LOAD; DMS_SET_MB_FLAG_LOAD_LOAD; DMS_SET_MB_FLAG_LOAD_BUILD].

(** The phases each set macro of [mb_ops] should record. *)
Definition mb_ops_phases : list (list bool * bool * list bool) :=
  let off k := map (fun i => (i =? 0) || (i =? k)) [0; 1; 2; 3; 4] in
  let none := [false; false; false; false; false] in
  let load k := map (fun i => (i =? 0) || (i =? k)) [0; 1; 2] in
  let noload := [false; false; false] in
  [(none, false, noload); (off 0, false, noload); (none, true, noload);
   (off 1, false, noload); (off 2, false, noload); (off 3, false, noload);
   (off 4, false, noload); (none, false, load 0); (none, false, load 1);
   (none, false, load 2)].

(** Whatever the flag word was, every set macro leaves a collection in
    use and in exactly the operation and phase it names, as the test macros
    of the offline reorganisation, online reorganisation and load families
    read it; [DMS_SET_MB_INUSE] on a free slot gives the normal state, and
    the free and dropped words are neither in use nor normal. *)
Theorem mb_flags_roundtrip x :
  map (fun set => let f := set x in
         (mb_offline_phases f, DMS_IS_MB_ONLINE_REORG f, mb_load_phases f)) mb_ops
    = mb_ops_phases /\
  Forall (fun set => DMS_IS_MB_INUSE (set x) = true /\ DMS_IS_MB_FREE (set x) = false
                     /\ DMS_IS_MB_DROPPED (set x) = false) mb_ops /\
  DMS_IS_MB_INUSE (DMS_SET_MB_INUSE x) = true /\
  DMS_IS_MB_NORMAL (DMS_SET_MB_INUSE (DMS_SET_MB_FREE x)) = true /\
  DMS_IS_MB_FREE (DMS_SET_MB_FREE x) = true /\
  DMS_IS_MB_INUSE (DMS_SET_MB_FREE x) = false /\
  DMS_IS_MB_DROPPED (DMS_SET_MB_DROPPED x) = true /\
  DMS_IS_MB_INUSE (DMS_SET_MB_DROPPED x) = false.
Proof.
  split_and!; try reflexivity; [repeat constructor|apply DMS_SET_MB_INUSE_inuse].
Qed.
