(* ===== verification/DmsName.v ===== *)
(** * Collection space and collection names (src/src/dms/dms.cpp)

    C strings are [string]s without a NUL; a null pointer is [None].  The
    check functions dereference their argument before testing it, so they
    take a [string]. *)
From S2P Require Import Prelude.
From S2P Require Import DmsBase.
From Stdlib Require Import Ascii String.
#[local] Open Scope string_scope.
#[local] Open Scope Z_scope.

Definition strlen (s : string) : Z := Z.of_nat (String.length s).

(** The text before and after the first occurrence of [c]: what [strchr] and
    the store of a NUL through its result, or [std::string::find], give. *)
Fixpoint str_cut (c : ascii) (s : string) : option (string * string) :=
  match s with
  | EmptyString => None
  | String a s =>
      if Ascii.eqb a c then Some (EmptyString, s)
      else match str_cut c s with
           | Some (b, r) => Some (String a b, r)
           | None => None
           end
  end.

Definition ossStrchr (s : string) (c : ascii) : bool :=
  match str_cut c s with Some _ => true | None => false end.

(** The first [n] characters: [strncpy] into a zeroed buffer. *)
Fixpoint str_take (n : nat) (s : string) : string :=
  match n, s with
  | S n, String a s => String a (str_take n s)
  | _, _ => EmptyString
  end.

Definition char_at (s : string) (i : nat) : ascii :=
  match String.get i s with Some c => c | None => zero end.

Definition dmsIsSysCSName (n : option string) : bool :=
  match n with
  | None => false
  | Some s =>
      if (3 <=? strlen s) && Ascii.eqb "S" (char_at s 0)
         && Ascii.eqb "Y" (char_at s 1) && Ascii.eqb "S" (char_at s 2)
      then true else false
  end.

Definition dmsIsSysCLName (n : option string) : bool :=
  match n with
  | None => false
  | Some s =>
      if (3 <=? strlen s) && Ascii.eqb "S" (char_at s 0)
         && Ascii.eqb "Y" (char_at s 1) && Ascii.eqb "S" (char_at s 2)
      then true else false
  end.

(** The characters of [invalidArray]: . \ / : * ? double-quote < > | *)
Definition invalidArray : list ascii :=
  ["."; "\"; "/"; ":"; "*"; "?"; ascii_of_nat 34; "<"; ">"; "|"]%char.

Definition dmsCheckCSName (s : string) (sys : bool) : Z :=
  let csNameLen := strlen s in
  if (DMS_COLLECTION_SPACE_NAME_SZ <? csNameLen) || (csNameLen <=? 0)
  then SDB_INVALIDARG
  else if Ascii.eqb "$" (char_at s 0) then SDB_INVALIDARG
  else if negb sys && dmsIsSysCSName (Some s) then SDB_INVALIDARG
  else if existsb (ossStrchr s) invalidArray then SDB_INVALIDARG
  else SDB_OK.

Definition dmsCheckCLName (s : string) (sys : bool) : Z :=
  let clNameLen := strlen s in
  if (DMS_COLLECTION_NAME_SZ <? clNameLen) || (clNameLen <=? 0)
  then SDB_INVALIDARG
  else if Ascii.eqb "$" (char_at s 0) then SDB_INVALIDARG
  else if ossStrchr s "." then SDB_INVALIDARG
  else if negb sys && dmsIsSysCLName (Some s) then SDB_INVALIDARG
  else SDB_OK.

(** The buffer holds DMS_COLLECTION_NAME_SZ + DMS_COLLECTION_SPACE_NAME_SZ + 1
    = 255 characters of the argument. *)
Definition dmsCheckFullCLName (full : string) (sys : bool) : Z :=
  let buffer :=
    str_take (Z.to_nat (DMS_COLLECTION_NAME_SZ + DMS_COLLECTION_SPACE_NAME_SZ + 1)) full in
  match str_cut "." buffer with
  | None => SDB_INVALIDARG
  | Some (cs, cl) =>
      let rc := dmsCheckCSName cs sys in
      if negb (rc =? 0) then rc else dmsCheckCLName cl sys
  end.

(** [substr( 0, npos )] and [substr( npos + 1 )] both give the whole string. *)
Definition dmsGetCSNameFromFullName (full : string) : string :=
  match str_cut "." full with Some (cs, _) => cs | None => full end.

Definition dmsGetCLShortNameFromFullName (full : string) : string :=
  match str_cut "." full with Some (_, cl) => cl | None => full end.

(** ** Lemmas on cutting *)

Lemma str_cut_app c b r :
  ossStrchr b c = false -> str_cut c (b ++ String c r)%string = Some (b, r).
Proof.
  unfold ossStrchr. induction b as [|a b IH]; simpl.
  - by rewrite Ascii.eqb_refl.
  - destruct (Ascii.eqb a c); [done|].
    destruct (str_cut c b) as [[]|]; [done|]. intros. by rewrite IH.
Qed.

Lemma str_cut_Some c s b r :
  str_cut c s = Some (b, r) -> s = (b ++ String c r)%string /\ ossStrchr b c = false.
Proof.
  unfold ossStrchr. revert b. induction s as [|a s IH]; intros b; simpl; [done|].
  destruct (Ascii.eqb_spec a c) as [->|Hn].
  - intros [= <- <-]. done.
  - destruct (str_cut c s) as [[b' r']|] eqn:E; [|done].
    intros [= <- <-]. destruct (IH b' eq_refl) as [-> Hb]. split; [done|].
    simpl. destruct (Ascii.eqb_spec a c); [done|].
    destruct (str_cut c b') as [[]|]; done.
Qed.

Lemma strlen_cons a s : strlen (String a s) = 1 + strlen s.
Proof. unfold strlen. cbn [String.length]. lia. Qed.

Lemma strlen_nonneg s : 0 <= strlen s.
Proof. unfold strlen. lia. Qed.

Lemma str_take_all n s : strlen s <= Z.of_nat n -> str_take n s = s.
Proof.
  revert s. induction n as [|n IH]; intros [|a s]; try done;
    rewrite strlen_cons; pose proof (strlen_nonneg s); intros Hl.
  cbn [str_take]. rewrite IH; [done|lia].
Qed.

Lemma strlen_app a b : strlen (a ++ b)%string = strlen a + strlen b.
Proof.
  induction a as [|c a IH]; [done|].
  change (String c a ++ b)%string with (String c (a ++ b)).
  rewrite !strlen_cons, IH. lia.
Qed.

(** What a legal name is, stated on its characters. *)
Definition cs_name_ok (s : string) (sys : bool) : Prop :=
  1 <= strlen s <= 127 /\ char_at s 0 <> "$"%char /\
  (sys = false -> String.prefix "SYS" s = false) /\
  (forall c, c ∈ invalidArray -> ossStrchr s c = false).

Definition cl_name_ok (s : string) (sys : bool) : Prop :=
  1 <= strlen s <= 127 /\ char_at s 0 <> "$"%char /\
  (sys = false -> String.prefix "SYS" s = false) /\
  ossStrchr s "." = false.

Lemma isSys_prefix s : dmsIsSysCSName (Some s) = String.prefix "SYS" s.
Proof.
  unfold dmsIsSysCSName.
  destruct s as [|a [|b [|c s]]]; try done;
    rewrite ?strlen_cons; unfold char_at; cbn [String.get String.prefix];
    repeat match goal with
    | |- context [ascii_dec ?x ?y] =>
        destruct (ascii_dec x y) as [<-|]; try done
    end.
  { pose proof (strlen_nonneg s). zcases. by destruct s. }
  all: match goal with
       | H : ?x <> ?y |- _ => destruct (Ascii.eqb_spec x y); [done|]
       end; rewrite ?andb_false_r, ?andb_false_l; done.
Qed.

Lemma existsb_false_forall {A} (f : A -> bool) l :
  existsb f l = false <-> forall x, x ∈ l -> f x = false.
Proof.
  induction l as [|a l IH]; simpl.
  - split; [|done]. intros _ x Hx. by apply not_elem_of_nil in Hx.
  - rewrite orb_false_iff, IH. split.
    + intros [Ha Hl] x [->|Hx]%elem_of_cons; auto.
    + intros Hx. split; [apply Hx; left|]. intros x ?. apply Hx. by right.
Qed.

(** The two checks accept exactly the legal names. *)
Lemma dmsCheckCSName_ok s sys :
  dmsCheckCSName s sys = SDB_OK <-> cs_name_ok s sys.
Proof.
  unfold dmsCheckCSName, cs_name_ok, DMS_COLLECTION_SPACE_NAME_SZ.
  rewrite isSys_prefix, <- existsb_false_forall.
  destruct (Ascii.eqb_spec "$" (char_at s 0)), (String.prefix "SYS" s), sys,
    (existsb (ossStrchr s) invalidArray); zcases;
    split; intros; try done; try (naive_solver lia); naive_solver.
Qed.

Lemma dmsCheckCLName_ok s sys :
  dmsCheckCLName s sys = SDB_OK <-> cl_name_ok s sys.
Proof.
  unfold dmsCheckCLName, cl_name_ok, DMS_COLLECTION_NAME_SZ.
  change (dmsIsSysCLName (Some s)) with (dmsIsSysCSName (Some s)).
  rewrite isSys_prefix.
  destruct (Ascii.eqb_spec "$" (char_at s 0)), (String.prefix "SYS" s), sys,
    (ossStrchr s "."); zcases;
    split; intros; try done; try (naive_solver lia); naive_solver.
Qed.

Lemma rc_eqb_ok rc : negb (rc =? 0) = false <-> rc = SDB_OK.
Proof. rewrite negb_false_iff, Z.eqb_eq. done. Qed.

(** within the 255 characters a full name may have, the check accepts
    exactly the names of the form space.collection with both parts legal, and
    the two accessors then return the parts. *)
Theorem dmsCheckFullCLName_spec full sys :
  strlen full <= 255 ->
  dmsCheckFullCLName full sys = SDB_OK <->
  exists cs cl, full = (cs ++ String "." cl)%string /\
    cs_name_ok cs sys /\ cl_name_ok cl sys /\
    dmsGetCSNameFromFullName full = cs /\
    dmsGetCLShortNameFromFullName full = cl.
Proof.
  intros Hlen. unfold dmsCheckFullCLName.
  rewrite str_take_all by (vm_compute (Z.of_nat _); lia).
  unfold dmsGetCSNameFromFullName, dmsGetCLShortNameFromFullName.
  split.
  - destruct (str_cut "." full) as [[cs cl]|] eqn:E; [|done].
    destruct (negb (dmsCheckCSName cs sys =? 0)) eqn:Ecs.
    { intros Hrc. rewrite Hrc in Ecs. done. }
    apply rc_eqb_ok, dmsCheckCSName_ok in Ecs.
    intros Hcl%dmsCheckCLName_ok. apply str_cut_Some in E as [-> _]. eauto 10.
  - intros (cs & cl & -> & Hcs & Hcl & _).
    rewrite str_cut_app.
    + apply dmsCheckCSName_ok in Hcs. rewrite Hcs. by apply dmsCheckCLName_ok.
    + apply Hcs. unfold invalidArray. left.
Qed.

Lemma dmsCheckFullCLName_spec_witness :
  dmsCheckFullCLName "foo.bar" false = SDB_OK.
Proof.
  apply (dmsCheckFullCLName_spec "foo.bar" false); [vm_compute; discriminate|].
  exists "foo"%string, "bar"%string. split; [reflexivity|]. split; [|split; [|split; reflexivity]].
  - apply dmsCheckCSName_ok. reflexivity.
  - apply dmsCheckCLName_ok. reflexivity.
Defined.

(** [n] times the character [a]. *)
Fixpoint str_rep (n : nat) (a : ascii) : string :=
  match n with O => EmptyString | S n => String a (str_rep n a) end.

(** A full name longer than the buffer is judged by its first 255
    characters: a collection part of any length is accepted when the space
    name takes all of its 127 characters, though the same collection name
    alone is refused. *)
Theorem dmsCheckFullCLName_overlong_accepted :
  dmsCheckFullCLName (str_rep 127 "a" ++ String "." (str_rep 200 "b")) false = SDB_OK
  /\ dmsCheckCLName (str_rep 200 "b") false = SDB_INVALIDARG.
Proof. split; vm_compute; reflexivity. Qed.

(** A full name built from a space without a dot and any collection name
    is taken apart into the same two names. *)
Theorem full_name_roundtrip cs cl :
  ossStrchr cs "." = false ->
  dmsGetCSNameFromFullName (cs ++ String "." cl) = cs /\
  dmsGetCLShortNameFromFullName (cs ++ String "." cl) = cl.
Proof.
  intros H. unfold dmsGetCSNameFromFullName, dmsGetCLShortNameFromFullName.
  by rewrite str_cut_app.
Qed.

Lemma full_name_roundtrip_witness :
  dmsGetCSNameFromFullName ("foo" ++ String "." "a.b") = "foo"%string.
Proof. apply (full_name_roundtrip "foo" "a.b"). reflexivity. Defined.
