(* ===== verification/DmsSegmentSpace.v ===== *)
(** * Free pages of one segment: [_dmsSegmentSpace]
    (src/src/dms/dmsSMEMgr.hpp, src/src/dms/dmsSMEMgr.cpp)

    A segment keeps the runs of its free pages in a list of packed 32-bit
    nodes (start in the high half, length in the low half), the length of the
    longest run and the number of free pages.  The operations also change,
    through [_pSMEMgr], the on-disk bit mask and two counters of the manager:
    those cells are [smeShared], and the mask is used through the interface
    [BitMask].

    The section ends with the contract of the two operations in terms of the
    set of free pages, which is all the manager relies on. *)
From S2P Require Import Prelude.
From S2P Require Import ByteBits.
From S2P Require Import OssBase.
From S2P Require Import DmsBase.

(** ** Packed nodes *)

Definition NODE_GETSTART (x : Z) : Z := u16 (Z.shiftr x 16).
Definition NODE_GETSIZE (x : Z) : Z := u16 (Z.land 0xFFFF x).
Definition NODE_SETSIZE (x y : Z) : Z := Z.lor (u16 y) (Z.land 0xFFFF0000 x).
Definition NODE_SET (y z : Z) : Z :=
  Z.lor (u32 (Z.shiftl (u32 y) 16)) (Z.land 0xFFFF z).

Lemma NODE_SET_eq y z :
  0 <= y < 65536 -> 0 <= z < 65536 -> NODE_SET y z = y * 65536 + z.
Proof.
  intros. unfold NODE_SET. rewrite (u32_id y) by lia.
  rewrite u32_id by (rewrite shiftl_mul by lia; lia).
  rewrite Z.land_comm. change 0xFFFF with (Z.ones 16). rewrite Z.land_ones by lia.
  rewrite Z.mod_small by lia. apply (lor_shiftl_add y z 16); lia.
Qed.

Lemma NODE_GETSIZE_eq x : NODE_GETSIZE x = x mod 65536.
Proof.
  unfold NODE_GETSIZE. rewrite Z.land_comm. change 0xFFFF with (Z.ones 16).
  rewrite Z.land_ones by lia. apply Z.mod_mod. lia.
Qed.

Lemma NODE_GETSTART_eq x : 0 <= x < 4294967296 -> NODE_GETSTART x = x / 65536.
Proof.
  intros. unfold NODE_GETSTART. rewrite shiftr_div by lia.
  change (2 ^ 16) with 65536. apply u16_id.
  split; [apply Z.div_pos; lia|apply Z.div_lt_upper_bound; lia].
Qed.

Lemma NODE_GETSIZE_SET y z :
  0 <= y < 65536 -> 0 <= z < 65536 -> NODE_GETSIZE (NODE_SET y z) = z.
Proof.
  intros. rewrite NODE_GETSIZE_eq, NODE_SET_eq, Z.add_comm, Z.mod_add by lia.
  apply Z.mod_small. lia.
Qed.

Lemma NODE_GETSTART_SET y z :
  0 <= y < 65536 -> 0 <= z < 65536 -> NODE_GETSTART (NODE_SET y z) = y.
Proof.
  intros. rewrite NODE_SET_eq by lia.
  rewrite NODE_GETSTART_eq, Z.div_add_l, Z.div_small by lia. lia.
Qed.

Lemma NODE_GETSIZE_range x : 0 <= NODE_GETSIZE x < 65536.
Proof. apply u16_range. Qed.

Lemma NODE_GETSTART_range x : 0 <= NODE_GETSTART x < 65536.
Proof. apply u16_range. Qed.

Lemma NODE_SETSIZE_bits x y i :
  0 <= i -> 0 <= y < 65536 ->
  Z.testbit (NODE_SETSIZE x y) i =
  if decide (i < 16) then Z.testbit y i
  else if decide (i < 32) then Z.testbit x i else false.
Proof.
  intros Hi Hy. unfold NODE_SETSIZE. rewrite u16_id by lia.
  change 0xFFFF0000 with (Z.shiftl (Z.ones 16) 16).
  rewrite Z.lor_spec, Z.land_spec, Z.shiftl_spec by lia.
  repeat case_decide.
  - rewrite (Z.testbit_neg_r _ (i - 16)) by lia. simpl. apply orb_false_r.
  - rewrite Z.ones_spec_low by lia. simpl.
    replace (Z.testbit y i) with false; [done|].
    symmetry. apply Z.testbit_false; [lia|]. rewrite Z.div_small; [done|].
    split; [lia|]. apply Z.lt_le_trans with (2 ^ 16); [lia|].
    apply Z.pow_le_mono_r; lia.
  - rewrite Z.ones_spec_high by lia. simpl. rewrite orb_false_r.
    apply Z.testbit_false; [lia|]. rewrite Z.div_small; [done|].
    split; [lia|]. apply Z.lt_le_trans with (2 ^ 16); [lia|].
    apply Z.pow_le_mono_r; lia.
Qed.

Lemma NODE_GETSIZE_SETSIZE x y :
  0 <= y < 65536 -> NODE_GETSIZE (NODE_SETSIZE x y) = y.
Proof.
  intros Hy. rewrite NODE_GETSIZE_eq. change 65536 with (2 ^ 16).
  rewrite <- (Z.mod_small y (2 ^ 16)) at 2 by lia.
  apply Z.bits_inj'; intros i Hi.
  destruct (decide (i < 16)).
  - rewrite !Z.mod_pow2_bits_low, NODE_SETSIZE_bits by lia.
    by rewrite decide_True by lia.
  - by rewrite !Z.mod_pow2_bits_high by lia.
Qed.

Lemma NODE_GETSTART_SETSIZE x y :
  0 <= y < 65536 -> NODE_GETSTART (NODE_SETSIZE x y) = NODE_GETSTART x.
Proof.
  intros Hy. unfold NODE_GETSTART, u16. change 65536 with (2 ^ 16).
  apply Z.bits_inj'; intros i Hi.
  destruct (decide (i < 16)).
  - rewrite !Z.mod_pow2_bits_low, !Z.shiftr_spec, NODE_SETSIZE_bits by lia.
    by rewrite decide_False, decide_True by lia.
  - by rewrite !Z.mod_pow2_bits_high by lia.
Qed.

#[local] Opaque NODE_GETSTART NODE_GETSIZE NODE_SET NODE_SETSIZE.

(** ** State *)

Record dmsSegmentSpace := mkSeg {
  ss_freeSpaceList : list Z;
  ss_maxNode : Z;
  ss_startExtent : Z;
  ss_totalSize : Z;
  ss_totalFree : Z
}.

(** The manager's cells an operation on a segment reaches: [_pSME],
    [_totalFree] and [_freePos]. *)
Record smeShared (T : Type) := mkShared {
  sh_SME : T;
  sh_totalFree : Z;
  sh_freePos : Z
}.
Arguments mkShared {T} _ _ _.
Arguments sh_SME {T} _.
Arguments sh_totalFree {T} _.
Arguments sh_freePos {T} _.

Definition dmsSegmentSpace_new (startExtent maxNode : Z) : dmsSegmentSpace :=
  mkSeg [] 0 startExtent maxNode 0.

(** ** Operations *)

Fixpoint resetMax_loop (l : list Z) (maxNode : Z) : Z :=
  match l with
  | [] => maxNode
  | node :: l =>
      let size := NODE_GETSIZE node in
      resetMax_loop l (if maxNode <? size then u16 size else maxNode)
  end.

Definition seg_resetMax (l : list Z) : Z := resetMax_loop l 0.

(** The scan of [reservePages]: the start and old size of the first node that
    is large enough, and the list with the pages taken off it. *)
Fixpoint reserve_scan (l : list Z) (numPages : Z) : option (Z * Z * list Z) :=
  match l with
  | [] => None
  | node :: l' =>
      let oldsize := NODE_GETSIZE node in
      if numPages <=? oldsize then
        let foundPage := NODE_GETSTART node in
        if NODE_GETSIZE node =? numPages then Some (foundPage, oldsize, l')
        else
          let newsize := u16 (oldsize - numPages) in
          Some (foundPage, oldsize, NODE_SET (foundPage + numPages) newsize :: l')
      else
        match reserve_scan l' numPages with
        | Some (f, o, l'') => Some (f, o, node :: l'')
        | None => None
        end
  end.

(** What the loop of [releasePages] leaves when it breaks: the size of the
    node that now holds the pages ([newSize]), the longest run, the nodes it
    passed (reversed, so its head is [oldit]), that node ([it1]) and the
    nodes after it.  [None]: the pages overlap a free run. *)
Fixpoint release_scan (pre l : list Z) (relaStart numPages newnode maxNode : Z)
    : option (Z * Z * list Z * Z * list Z) :=
  match l with
  | [] =>
      let newSize := numPages in
      Some (newSize, if maxNode <? newSize then newSize else maxNode,
            pre, newnode, [])
  | node :: l' =>
      let nodeStart := NODE_GETSTART node in
      let nodeSize := NODE_GETSIZE node in
      if relaStart <? nodeStart then
        if nodeStart <? relaStart + numPages then None
        else if relaStart + numPages =? nodeStart then
          let newSize := u16 (nodeSize + numPages) in
          Some (newSize, if maxNode <? newSize then newSize else maxNode,
                pre, NODE_SET relaStart newSize, l')
        else
          let newSize := numPages in
          Some (newSize, if maxNode <? newSize then newSize else maxNode,
                pre, newnode, node :: l')
      else if (relaStart =? nodeStart) || (relaStart <? nodeStart + nodeSize) then
        None
      else release_scan (node :: pre) l' relaStart numPages newnode maxNode
  end.

(** The last step of [releasePages]: join the node at [it1] with the run
    before it when they touch. *)
Definition release_merge_prev (pre : list Z) (it1 : Z) (rest : list Z)
    (newSize maxNode relaStart : Z) : Z * list Z * Z :=
  match pre with
  | [] => (SDB_OK, it1 :: rest, maxNode)
  | prevNode :: pre' =>
      let prevStart := NODE_GETSTART prevNode in
      let prevSize := NODE_GETSIZE prevNode in
      if relaStart <? prevStart + prevSize
      then (SDB_SYS, rev pre ++ it1 :: rest, maxNode)
      else if prevStart + prevSize =? relaStart
      then (SDB_OK,
            rev pre' ++ NODE_SETSIZE prevNode (newSize + prevSize) :: rest,
            if maxNode <? newSize + prevSize
            then u16 (newSize + prevSize) else maxNode)
      else (SDB_OK, rev pre ++ it1 :: rest, maxNode)
  end.

Section Operations.
  Context {T : Type} `{BitMask T}.

(** Results: the return code, [foundPage], the segment, the manager's cells. *)
Definition seg_reservePages (s : dmsSegmentSpace) (m : smeShared T)
    (numPages foundPage pos : Z) : Z * Z * dmsSegmentSpace * smeShared T :=
  let m1 :=
    if 0 =? ss_totalFree s
    then mkShared (sh_SME m) (sh_totalFree m)
           (atomic_compareAndSwap (sh_freePos m) pos (u32 (pos + 1))).2
    else m in
  if ss_maxNode s <? numPages then (SDB_DMS_NOSPC, foundPage, s, m1)
  else
    match reserve_scan (ss_freeSpaceList s) numPages with
    | None => (SDB_SYS, foundPage, s, m1)
    | Some (f, oldsize, l') =>
        let foundPage := i32 (f + ss_startExtent s) in
        let totalFree := u16 (ss_totalFree s - numPages) in
        let maxNode :=
          if oldsize =? ss_maxNode s then seg_resetMax l' else ss_maxNode s in
        let s' := mkSeg l' maxNode (ss_startExtent s) (ss_totalSize s) totalFree in
        let m' :=
          mkShared (bm_set_run (sh_SME m1) (u32 foundPage) (Z.to_nat numPages))
                   (atomic_sub (sh_totalFree m1) numPages) (sh_freePos m1) in
        (SDB_OK, foundPage, s', m')
    end.

(** The part of [releasePages] before [done]: the return code, the list and
    the longest run. *)
Definition release_list (s : dmsSegmentSpace) (start numPages : Z)
    : Z * list Z * Z :=
  let relaStart := u16 (start - ss_startExtent s) in
  if (start <? ss_startExtent s)
     || (ss_startExtent s + ss_totalSize s <? start + numPages)
  then (SDB_SYS, ss_freeSpaceList s, ss_maxNode s)
  else if numPages =? 0 then (SDB_OK, ss_freeSpaceList s, ss_maxNode s)
  else
    let newnode := NODE_SET relaStart numPages in
    match ss_freeSpaceList s with
    | [] => (SDB_OK, [newnode], numPages)
    | l =>
        match release_scan [] l relaStart numPages newnode (ss_maxNode s) with
        | None => (SDB_SYS, l, ss_maxNode s)
        | Some (newSize, maxNode, pre, it1, rest) =>
            release_merge_prev pre it1 rest newSize maxNode relaStart
        end
    end.

Definition seg_releasePages (s : dmsSegmentSpace) (m : smeShared T)
    (start numPages : Z) (bitSet : bool) : Z * dmsSegmentSpace * smeShared T :=
  let '(rc, l, maxNode) := release_list s start numPages in
  if rc =? SDB_OK then
    let s' := mkSeg l maxNode (ss_startExtent s) (ss_totalSize s)
                (u16 (ss_totalFree s + numPages)) in
    let m' :=
      if bitSet
      then mkShared (bm_clear_run (sh_SME m) (u32 start) (Z.to_nat numPages))
                    (atomic_add (sh_totalFree m) numPages) (sh_freePos m)
      else m in
    (rc, s', m')
  else
    (rc, mkSeg l maxNode (ss_startExtent s) (ss_totalSize s) (ss_totalFree s), m).

End Operations.

Definition seg_totalFree (s : dmsSegmentSpace) : Z := ss_totalFree s.

(** ** Invariant and abstraction

    The runs are in increasing order, not empty, inside the segment, and two
    of them never touch (the page after a run is not free). *)

Abbreviation node_end n := (NODE_GETSTART n + NODE_GETSIZE n).
Abbreviation sizes l := (map NODE_GETSIZE l).

Fixpoint fl_wf (lo hi : Z) (l : list Z) : Prop :=
  match l with
  | [] => True
  | n :: l =>
      lo <= NODE_GETSTART n /\ 0 < NODE_GETSIZE n /\ node_end n <= hi /\
      fl_wf (node_end n + 1) hi l
  end.

Fixpoint fl_free (l : list Z) (p : Z) : Prop :=
  match l with
  | [] => False
  | n :: l => NODE_GETSTART n <= p < node_end n \/ fl_free l p
  end.

Record seg_inv (s : dmsSegmentSpace) : Prop := {
  si_total : 0 < ss_totalSize s < 65536;
  si_start : 0 <= ss_startExtent s;
  si_end : ss_startExtent s + ss_totalSize s < 2147483648;
  si_wf : fl_wf 0 (ss_totalSize s) (ss_freeSpaceList s);
  si_max : ss_maxNode s = maxZ (sizes (ss_freeSpaceList s));
  si_sum : ss_totalFree s = sumZ (sizes (ss_freeSpaceList s))
}.

(** A page (by its extent number) is free in the segment. *)
Definition seg_free (s : dmsSegmentSpace) (p : Z) : Prop :=
  fl_free (ss_freeSpaceList s) (p - ss_startExtent s).

(** *** Lists of runs *)

Lemma fl_wf_mono lo lo' hi l : lo' <= lo -> fl_wf lo hi l -> fl_wf lo' hi l.
Proof. destruct l; simpl; [done|]. intuition lia. Qed.

Lemma fl_free_range l : forall lo hi p,
  fl_wf lo hi l -> fl_free l p -> lo <= p < hi.
Proof.
  induction l as [|n l IH]; simpl; [done|].
  intros lo hi p (?&?&?&Hl) [Hp|Hp]; [lia|].
  specialize (IH _ _ _ Hl Hp). lia.
Qed.

Fixpoint fl_last (lo : Z) (l : list Z) : Z :=
  match l with
  | [] => lo
  | n :: l => fl_last (node_end n + 1) l
  end.

Lemma fl_wf_app l1 : forall lo hi l2,
  fl_wf lo hi (l1 ++ l2) <-> fl_wf lo hi l1 /\ fl_wf (fl_last lo l1) hi l2.
Proof.
  induction l1 as [|n l1 IH]; intros; simpl; [tauto|].
  rewrite IH. tauto.
Qed.

Lemma fl_last_snoc l n lo : fl_last lo (l ++ [n]) = node_end n + 1.
Proof. revert lo. induction l; simpl; auto. Qed.

Lemma fl_free_app l1 l2 p : fl_free (l1 ++ l2) p <-> fl_free l1 p \/ fl_free l2 p.
Proof. induction l1; simpl; tauto. Qed.

Lemma sizes_nonneg l : Forall (fun x => 0 <= x) (sizes l).
Proof.
  induction l as [|n l IH]; simpl; constructor; [|done].
  pose proof (NODE_GETSIZE_range n). lia.
Qed.

Lemma fl_sum_bound l : forall lo hi,
  fl_wf lo hi l -> lo <= hi + 1 -> sumZ (sizes l) <= hi + 1 - lo.
Proof.
  induction l as [|n l IH]; simpl; intros lo hi; [lia|].
  intros (?&?&?&Hl) ?. specialize (IH _ _ Hl ltac:(lia)). lia.
Qed.

Lemma fl_sum_le l hi : 0 <= hi -> fl_wf 0 hi l -> sumZ (sizes l) <= hi.
Proof.
  destruct l as [|n l]; simpl; [lia|]. intros ? (?&?&?&Hl).
  pose proof (fl_sum_bound _ _ _ Hl ltac:(lia)). lia.
Qed.

Lemma fl_max_le l : forall lo hi, 0 <= lo -> 0 <= hi -> fl_wf lo hi l -> maxZ (sizes l) <= hi.
Proof.
  induction l as [|n l IH]; simpl; intros lo hi; [lia|].
  intros ? ? (?&?&?&Hl).
  assert (maxZ (sizes l) <= hi) by (eapply IH; [| |exact Hl]; lia). lia.
Qed.

(** A run of consecutive free pages lies inside one node, because two nodes
    never touch. *)
Lemma fl_run_in_node l : forall lo hi a n,
  fl_wf lo hi l -> 0 < n -> (forall p, a <= p < a + n -> fl_free l p) ->
  exists nd, nd ∈ l /\ NODE_GETSTART nd <= a /\ a + n <= node_end nd.
Proof.
  induction l as [|nd l IH]; intros lo hi a n Hwf Hn Hrun.
  { destruct (Hrun a); lia. }
  simpl in Hwf. destruct Hwf as (Hlo&Hsz&Hhi&Hl).
  destruct (decide (a < node_end nd)).
  - assert (NODE_GETSTART nd <= a).
    { destruct (Hrun a) as [|Hf]; [lia|lia|].
      pose proof (fl_free_range _ _ _ _ Hl Hf). lia. }
    destruct (decide (a + n <= node_end nd)).
    { exists nd. split; [left|lia]. }
    destruct (Hrun (node_end nd)) as [|Hf]; [lia|lia|].
    pose proof (fl_free_range _ _ _ _ Hl Hf). lia.
  - destruct (IH _ _ a n Hl Hn) as (nd'&?&?&?).
    + intros p Hp. destruct (Hrun p) as [|Hf]; [lia|lia|done].
    + exists nd'. split; [by right|done].
Qed.

(** *** [_resetMax] *)

Lemma resetMax_loop_spec l m :
  0 <= m -> resetMax_loop l m = Z.max m (maxZ (sizes l)).
Proof.
  revert m. induction l as [|n l IH]; intros m Hm; simpl; [lia|].
  pose proof (NODE_GETSIZE_range n). rewrite u16_id by lia.
  zcase; rewrite IH by lia; lia.
Qed.

Lemma seg_resetMax_spec l : seg_resetMax l = maxZ (sizes l).
Proof.
  unfold seg_resetMax. rewrite resetMax_loop_spec by lia.
  pose proof (maxZ_nonneg (sizes l)). lia.
Qed.

(** *** The scan of [reservePages] *)

Lemma reserve_scan_None l n :
  reserve_scan l n = None -> maxZ (sizes l) < n \/ l = [].
Proof.
  induction l as [|nd l IH]; simpl; [auto|].
  destruct (Z.leb_spec n (NODE_GETSIZE nd)); [by zcase|].
  destruct (reserve_scan l n) as [[[f o] l'']|]; [done|].
  intros _. pose proof (NODE_GETSIZE_range nd).
  destruct IH as [?| ->]; [done|left; lia|left; simpl; lia].
Qed.

Lemma reserve_scan_Some l : forall lo hi n f o l',
  fl_wf lo hi l -> 0 <= lo -> hi < 65536 -> 0 < n ->
  reserve_scan l n = Some (f, o, l') ->
  lo <= f /\ n <= o /\ f + n <= hi /\ fl_wf lo hi l' /\
  (forall p, f <= p < f + n -> fl_free l p) /\
  (forall p, fl_free l' p <-> fl_free l p /\ ~ (f <= p < f + n)) /\
  sumZ (sizes l') = sumZ (sizes l) - n /\
  o <= maxZ (sizes l) /\
  (o < maxZ (sizes l) -> maxZ (sizes l') = maxZ (sizes l)).
Proof.
  induction l as [|nd l IH]; intros lo hi n f o l' Hwf Hlo Hhi Hn; simpl; [done|].
  simpl in Hwf. destruct Hwf as (H1&H2&H3&Hl).
  pose proof (NODE_GETSIZE_range nd). pose proof (maxZ_nonneg (sizes l)).
  destruct (Z.leb_spec n (NODE_GETSIZE nd)) as [Hle|Hgt].
  - destruct (Z.eqb_spec (NODE_GETSIZE nd) n) as [He|Hne]; intros [= <- <- <-].
    + split_and!; try lia.
      * eapply fl_wf_mono; [|done]. lia.
      * intros p. split.
        -- intros Hp. split; [by right|].
           pose proof (fl_free_range _ _ _ p Hl Hp). lia.
        -- intros [[Hp|Hp] ?]; [lia|done].
    + rewrite u16_id by lia. simpl.
      rewrite NODE_GETSTART_SET, NODE_GETSIZE_SET by lia.
      split_and!; try lia.
      * eapply fl_wf_mono; [|done]. lia.
      * intros p. split.
        -- intros [Hp|Hp]; [split; [left|]; lia|]. split; [by right|].
           pose proof (fl_free_range _ _ _ p Hl Hp). lia.
        -- intros [[Hp|Hp] ?]; [left; lia|by right].
  - destruct (reserve_scan l n) as [[[f' o'] l'']|] eqn:E; [|done].
    intros [= <- <- <-].
    destruct (IH _ _ _ _ _ _ Hl ltac:(lia) Hhi Hn E)
      as (?&?&?&Hwf'&Hrun&Hfree&Hsum&Ho&Hmax).
    simpl. split_and!; try lia; try done.
    + intros p Hp. right. auto.
    + intros p. rewrite Hfree. split; [|tauto].
      intros [Hp|Hp]; [split; [by left|lia]|tauto].
Qed.

(** *** The scan of [releasePages] *)

Lemma release_scan_None l : forall pre lo hi r n nn mx,
  fl_wf lo hi l -> 0 < n ->
  release_scan pre l r n nn mx = None ->
  exists p, r <= p < r + n /\ fl_free l p.
Proof.
  induction l as [|nd l IH]; simpl; intros pre lo hi r n nn mx Hwf Hn; [done|].
  destruct Hwf as (H1&H2&H3&Hl).
  destruct (Z.ltb_spec r (NODE_GETSTART nd)).
  - destruct (Z.ltb_spec (NODE_GETSTART nd) (r + n)).
    + intros _. exists (NODE_GETSTART nd). lia.
    + by destruct (_ =? _).
  - destruct (Z.eqb_spec r (NODE_GETSTART nd)); simpl;
      [|destruct (Z.ltb_spec r (node_end nd))].
    + intros _. exists r. lia.
    + intros _. exists r. lia.
    + intros E. destruct (IH _ _ _ _ _ _ _ Hl Hn E) as (p&?&?). eauto.
Qed.

(** Where the loop breaks: every passed run ends at or before the released
    pages, which either stand alone or have absorbed the next run. *)
Lemma release_scan_Some l : forall pre r n nn mx newSize mx' pre' it1 rest,
  release_scan pre l r n nn mx = Some (newSize, mx', pre', it1, rest) ->
  mx' = Z.max mx newSize /\
  exists l1, pre' = rev l1 ++ pre /\ Forall (fun nd => node_end nd <= r) l1 /\
    ((l = l1 ++ rest /\ newSize = n /\ it1 = nn /\
      (forall nd rest', rest = nd :: rest' -> r + n < NODE_GETSTART nd)) \/
     (exists nd, l = l1 ++ nd :: rest /\ NODE_GETSTART nd = r + n /\
      newSize = u16 (NODE_GETSIZE nd + n) /\ it1 = NODE_SET r newSize)).
Proof.
  induction l as [|nd l IH]; simpl; intros pre r n nn mx newSize mx' pre' it1 rest.
  { intros [= <- <- <- <- <-]. split; [zcase; lia|].
    exists []. split; [done|]. split; [constructor|]. left. naive_solver. }
  destruct (Z.ltb_spec r (NODE_GETSTART nd)).
  - destruct (Z.ltb_spec (NODE_GETSTART nd) (r + n)); [done|].
    destruct (Z.eqb_spec (r + n) (NODE_GETSTART nd));
      intros [= <- <- <- <- <-]; (split; [zcase; lia|]);
      exists []; (split; [done|]); (split; [constructor|]).
    + right. exists nd. auto.
    + left. split; [done|]. split; [done|]. split; [done|].
      intros nd' rest' [= <- <-]. lia.
  - destruct (Z.eqb_spec r (NODE_GETSTART nd)); simpl; [done|].
    destruct (Z.ltb_spec r (node_end nd)); [done|].
    intros E. apply IH in E as (Hmx&l1&->&Hall&Hcase).
    split; [done|]. exists (nd :: l1). split; [simpl; by rewrite <- app_assoc|].
    split; [by constructor|].
    destruct Hcase as [(->&?)|(nd'&->&?)]; [by left|right; eauto].
Qed.

(** Runs that end before a page do not contain it. *)
Lemma fl_free_before l r p :
  Forall (fun nd => node_end nd <= r) l -> r <= p -> ~ fl_free l p.
Proof. induction 1; simpl; [tauto|]. intros ? [?|?]; [lia|tauto]. Qed.

(** The list after the run [r, r+sz) is placed between [l1] and [rest], on its
    own or joined to the last run of [l1]. *)
Lemma place_alone l1 it1 rest lo hi r sz :
  fl_wf lo hi l1 -> fl_last lo l1 <= r -> 0 < sz -> r + sz <= hi ->
  NODE_GETSTART it1 = r -> NODE_GETSIZE it1 = sz -> fl_wf (r + sz + 1) hi rest ->
  fl_wf lo hi (l1 ++ it1 :: rest).
Proof.
  intros H1 H2 H3 H4 E1 E2 H5. rewrite fl_wf_app. simpl. rewrite E1, E2.
  split_and!; try done; lia.
Qed.

Lemma fl_last_le l lo r :
  Forall (fun nd => node_end nd < r) l -> lo <= r -> fl_last lo l <= r.
Proof.
  intros H. revert lo. induction H as [|nd l Hnd Hl IH]; intros lo Hlo; simpl; [done|].
  apply IH. lia.
Qed.

(** The runs before the last one of a well-formed list end before it starts. *)
Lemma fl_wf_snoc_before l nd lo hi r :
  fl_wf lo hi (l ++ [nd]) -> node_end nd <= r -> Forall (fun x => node_end x < r) l.
Proof.
  revert lo. induction l as [|x l IH]; intros lo; simpl; [constructor|].
  intros (?&?&?&Hl) Hr. constructor; [|by eapply IH].
  assert (forall lo l, fl_wf lo hi (l ++ [nd]) -> lo <= NODE_GETSTART nd) as Hb.
  { clear. intros lo l. revert lo.
    induction l as [|y l IH]; intros lo; simpl; [tauto|].
    intros (?&?&?&?%IH). lia. }
  pose proof (Hb _ _ Hl). pose proof (NODE_GETSIZE_range nd). lia.
Qed.

(** The node that holds the released pages and the runs after it, compared
    with the runs [l2] that followed before. *)
Lemma release_tail l1 L W r n newSize it1 rest :
  fl_wf 0 W L -> 0 < n -> 0 <= r -> r + n <= W -> W < 65536 ->
  ((L = l1 ++ rest /\ newSize = n /\ it1 = NODE_SET r n /\
    (forall nd rest', rest = nd :: rest' -> r + n < NODE_GETSTART nd)) \/
   (exists nd, L = l1 ++ nd :: rest /\ NODE_GETSTART nd = r + n /\
    newSize = u16 (NODE_GETSIZE nd + n) /\ it1 = NODE_SET r newSize)) ->
  exists l2, L = l1 ++ l2 /\ NODE_GETSTART it1 = r /\ NODE_GETSIZE it1 = newSize /\
    n <= newSize /\ r + newSize <= W /\ fl_wf (r + newSize + 1) W rest /\
    fl_wf (r + n) W l2 /\
    (forall p, (r <= p < r + newSize \/ fl_free rest p) <->
               (r <= p < r + n \/ fl_free l2 p)) /\
    sumZ (sizes rest) + newSize = sumZ (sizes l2) + n /\
    Z.max newSize (maxZ (sizes rest)) = Z.max newSize (maxZ (sizes l2)).
Proof.
  intros Hwf Hn Hr Hb HW [(->&->&->&Hgap)|(nd&->&Hnd&->&->)];
    apply fl_wf_app in Hwf as [_ Hwf].
  - exists rest. rewrite NODE_GETSTART_SET, NODE_GETSIZE_SET by lia.
    assert (fl_wf (r + n + 1) W rest).
    { destruct rest as [|nd rest]; [done|]. specialize (Hgap _ _ eq_refl).
      simpl in *. intuition lia. }
    split_and!; try done; try lia. eapply fl_wf_mono; [|done]. lia.
  - simpl in Hwf. destruct Hwf as (?&?&?&Hrest).
    rewrite u16_id by lia. exists (nd :: rest).
    rewrite NODE_GETSTART_SET, NODE_GETSIZE_SET by lia.
    split_and!; try done; simpl; try lia.
    + eapply fl_wf_mono; [|done]. lia.
    + split_and!; try lia; done.
    + intros p. split; [intros [?|?]; [|tauto]|intros [?|[?|?]]; [left|left|tauto]]; lia.
Qed.

(** Joining with the previous run: the result is canonical and holds the runs
    of [l1 ++ l2] and the released pages. *)
Lemma release_merge_prev_spec l1 l2 it1 rest newSize W r n rc l' mx' :
  fl_wf 0 W (l1 ++ l2) -> Forall (fun nd => node_end nd <= r) l1 ->
  0 < n <= newSize -> 0 <= r -> r + newSize <= W -> W < 65536 ->
  NODE_GETSTART it1 = r -> NODE_GETSIZE it1 = newSize ->
  fl_wf (r + newSize + 1) W rest ->
  (forall p, (r <= p < r + newSize \/ fl_free rest p) <->
             (r <= p < r + n \/ fl_free l2 p)) ->
  sumZ (sizes rest) + newSize = sumZ (sizes l2) + n ->
  Z.max newSize (maxZ (sizes rest)) = Z.max newSize (maxZ (sizes l2)) ->
  release_merge_prev (rev l1) it1 rest newSize
    (Z.max (maxZ (sizes (l1 ++ l2))) newSize) r = (rc, l', mx') ->
  rc = SDB_OK /\ fl_wf 0 W l' /\ mx' = maxZ (sizes l') /\
  sumZ (sizes l') = sumZ (sizes (l1 ++ l2)) + n /\
  (forall p, fl_free l' p <-> fl_free (l1 ++ l2) p \/ r <= p < r + n).
Proof.
  intros Hwf Hall Hn Hr Hb HW Es Ez Hrest Hfree Hs Hm.
  unfold release_merge_prev.
  rewrite map_app, maxZ_app, sumZ_app. setoid_rewrite fl_free_app.
  apply fl_wf_app in Hwf as [Hwf1 Hwf2].
  pose proof (maxZ_nonneg (sizes l2)). pose proof (maxZ_nonneg (sizes rest)).
  destruct l1 as [|prev l1 _] using rev_ind.
  { simpl. intros [= <- <- <-]. simpl in *. rewrite Es, Ez.
    split_and!; try done; try lia. intros p. specialize (Hfree p). tauto. }
  rewrite rev_app_distr. simpl. rewrite rev_involutive.
  apply Forall_app in Hall as [Hall Hprev].
  apply (proj1 (Forall_singleton _ _)) in Hprev.
  rewrite map_app, ?maxZ_app, ?sumZ_app in *. simpl in *.
  apply fl_wf_app in Hwf1 as [Hwf1 Hp1]. simpl in Hp1.
  destruct (Z.ltb_spec r (node_end prev)); [lia|].
  pose proof (maxZ_nonneg (sizes l1)). pose proof (NODE_GETSTART_range prev).
  destruct (Z.eqb_spec (node_end prev) r); intros [= <- <- <-].
  - rewrite map_app, maxZ_app, sumZ_app. simpl.
    rewrite NODE_GETSIZE_SETSIZE, u16_id by lia.
    split_and!; try done; try lia.
    + apply (place_alone _ _ _ _ _ (NODE_GETSTART prev) (newSize + NODE_GETSIZE prev));
        rewrite ?NODE_GETSTART_SETSIZE, ?NODE_GETSIZE_SETSIZE by lia; try done; try lia.
      eapply fl_wf_mono; [|done]. lia.
    + zcase; lia.
    + intros p. rewrite !fl_free_app. simpl.
      rewrite NODE_GETSTART_SETSIZE, NODE_GETSIZE_SETSIZE by lia.
      specialize (Hfree p).
      assert (NODE_GETSTART prev <= p < NODE_GETSTART prev + (newSize + NODE_GETSIZE prev)
              <-> NODE_GETSTART prev <= p < node_end prev \/ r <= p < r + newSize)
        as -> by lia.
      tauto.
  - rewrite map_app, maxZ_app, sumZ_app. simpl. rewrite map_app, maxZ_app, sumZ_app.
    simpl. rewrite Ez. split_and!; try done; try lia.
    + apply (place_alone _ _ _ _ _ r newSize); try done; try lia.
      * apply fl_wf_app. simpl. tauto.
      * rewrite fl_last_snoc. lia.
    + intros p. rewrite !fl_free_app. simpl.
      rewrite Es, Ez. specialize (Hfree p). tauto.
Qed.

(** The heart of [releasePages]: on success the released pages have joined the
    free ones and the list is in canonical form again; a refusal means the
    pages are out of range or one of them is already free, and changes
    nothing. *)
Lemma release_list_spec s start n rc l' mx' :
  seg_inv s -> 0 <= n < 65536 -> 
  release_list s start n = (rc, l', mx') ->
  (rc = SDB_OK /\
   ss_startExtent s <= start /\ start + n <= ss_startExtent s + ss_totalSize s /\
   fl_wf 0 (ss_totalSize s) l' /\
   mx' = maxZ (sizes l') /\
   sumZ (sizes l') = sumZ (sizes (ss_freeSpaceList s)) + n /\
   (forall p, fl_free l' p <->
      fl_free (ss_freeSpaceList s) p \/
      start - ss_startExtent s <= p < start - ss_startExtent s + n) /\
   (forall p, start - ss_startExtent s <= p < start - ss_startExtent s + n ->
      ~ fl_free (ss_freeSpaceList s) p)) \/
  (rc = SDB_SYS /\ l' = ss_freeSpaceList s /\ mx' = ss_maxNode s /\
   (start < ss_startExtent s \/
    ss_startExtent s + ss_totalSize s < start + n \/
    exists p, start - ss_startExtent s <= p < start - ss_startExtent s + n /\
      fl_free (ss_freeSpaceList s) p)).
Proof.
  intros Hinv Hn. destruct Hinv as [Ht Hs0 He Hwf Hmax Hsum].
  unfold release_list.
  set (S := ss_startExtent s) in *. set (W := ss_totalSize s) in *.
  destruct ((start <? S) || (S + W <? start + n)) eqn:Erng.
  { intros [= <- <- <-]. right. split_and!; try done.
    apply orb_true_iff in Erng as [?%Z.ltb_lt|?%Z.ltb_lt]; auto. }
  apply orb_false_iff in Erng as [H1%Z.ltb_ge H2%Z.ltb_ge].
  rewrite u16_id by lia. set (r := start - S) in *.
  destruct (Z.eqb_spec n 0) as [->|Hnz].
  { intros [= <- <- <-]. left. split_and!; try done; try lia.
    intros p. split; [tauto|]. intros [?|?]; [done|lia]. }
  destruct (ss_freeSpaceList s) as [|nd0 L0] eqn:EL.
  { intros [= <- <- <-]. left. simpl.
    rewrite NODE_GETSTART_SET, NODE_GETSIZE_SET by lia.
    split_and!; try done; try lia. }
  rewrite <- EL in *. set (L := ss_freeSpaceList s) in *. clearbody L. clear EL nd0 L0.
  destruct (release_scan [] L r n (NODE_SET r n) (ss_maxNode s))
    as [[[[[newSize mx] pre] it1] rest]|] eqn:E.
  2: { intros [= <- <- <-]. right. split_and!; try done. right; right.
       eapply release_scan_None; [done|lia|done]. }
  apply release_scan_Some in E as (->&l1&Hpre&Hall&Hcase).
  rewrite app_nil_r in Hpre. subst pre. rewrite Hmax.
  apply (release_tail _ _ W) in Hcase as (l2&->&Es&Ez&?&?&Hrest&Hl2&Hfree&Hs&Hm);
    try done; try lia.
  assert (forall p, r <= p < r + n -> ~ fl_free (l1 ++ l2) p) as Hdis.
  { intros p Hp [Hf|Hf]%fl_free_app.
    - by eapply fl_free_before; [done| |done]; lia.
    - pose proof (fl_free_range _ _ _ _ Hl2 Hf). lia. }
  intros Hmp. left.
  destruct (release_merge_prev_spec l1 l2 it1 rest newSize W r n rc l' mx')
    as (->&?&?&?&?); try done; try lia.
Qed.

(** ** Contract of the two operations *)

Section Contract.
  Context {T : Type} `{BitMaskLaws T}.

(** The bit mask shows the free pages of the segment. *)
Definition seg_agrees (s : dmsSegmentSpace) (t : T) : Prop :=
  forall p, ss_startExtent s <= p < ss_startExtent s + ss_totalSize s ->
    bm_get t p = 0 <-> seg_free s p.

Lemma seg_free_range s p :
  seg_inv s -> seg_free s p ->
  ss_startExtent s <= p < ss_startExtent s + ss_totalSize s.
Proof.
  intros [] Hf. apply (fl_free_range _ _ _ _ si_wf0) in Hf. lia.
Qed.

(** No page is free exactly when the counter is zero. *)
Lemma seg_totalFree_zero s :
  seg_inv s -> ss_totalFree s = 0 <-> (forall p, ~ seg_free s p).
Proof.
  intros [_ _ _ Hwf _ ->]. unfold seg_free. split.
  - intros Hz p. destruct (ss_freeSpaceList s) as [|n l]; [by simpl; tauto|].
    simpl in *. pose proof (sumZ_nonneg _ (sizes_nonneg l)). lia.
  - intros Hf. destruct (ss_freeSpaceList s) as [|n l]; [done|].
    simpl in *. exfalso. apply (Hf (NODE_GETSTART n + ss_startExtent s)). lia.
Qed.

(** The free-position hint moves on only from an exhausted segment. *)
Definition freePos_after (s : dmsSegmentSpace) (freePos pos : Z) : Z :=
  if decide (ss_totalFree s = 0 /\ freePos = pos) then u32 (pos + 1) else freePos.

Definition in_run (a n p : Z) : Prop := a <= p < a + n.

#[export] Instance in_run_dec a n p : Decision (in_run a n p).
Proof. unfold in_run. apply _. Defined.

Definition seg_reserve_post (s : dmsSegmentSpace) (m : smeShared T)
    (n f0 rc found : Z) (s' : dmsSegmentSpace) (m' : smeShared T) : Prop :=
  (rc = SDB_OK /\
   ss_startExtent s <= found /\ found + n <= ss_startExtent s + ss_totalSize s /\
   (forall p, in_run found n p -> seg_free s p) /\
   (forall p, seg_free s' p <-> seg_free s p /\ ~ in_run found n p) /\
   (forall p, 0 <= p -> bm_get (sh_SME m') p =
      if decide (in_run found n p) then 1 else bm_get (sh_SME m) p) /\
   sh_totalFree m' = atomic_sub (sh_totalFree m) n /\
   ss_totalFree s' = ss_totalFree s - n) \/
  (rc = SDB_DMS_NOSPC /\ found = f0 /\ s' = s /\ sh_SME m' = sh_SME m /\
   sh_totalFree m' = sh_totalFree m /\
   (forall a, ~ (forall p, in_run a n p -> seg_free s p))).

Lemma seg_reservePages_spec s m n f0 pos rc found s' m' :
  seg_inv s -> 0 < n < 65536 ->
  seg_reservePages s m n f0 pos = (rc, found, s', m') ->
  seg_inv s' /\ ss_startExtent s' = ss_startExtent s /\
  ss_totalSize s' = ss_totalSize s /\
  sh_freePos m' = freePos_after s (sh_freePos m) pos /\
  seg_reserve_post s m n f0 rc found s' m'.
Proof.
  intros Hinv Hn. unfold seg_reservePages.
  set (m1 := if 0 =? ss_totalFree s then _ else m).
  assert (sh_SME m1 = sh_SME m /\ sh_totalFree m1 = sh_totalFree m /\
          sh_freePos m1 = freePos_after s (sh_freePos m) pos) as (E1&E2&E3).
  { subst m1. unfold freePos_after, atomic_compareAndSwap.
    destruct (Z.eqb_spec 0 (ss_totalFree s)); simpl; [|case_decide; [lia|done]].
    destruct (Z.eqb_spec (sh_freePos m) pos); simpl; case_decide; try done; lia. }
  clearbody m1. pose proof Hinv as [Ht Hs0 He Hwf Hmax Hsum].
  assert (maxZ (sizes (ss_freeSpaceList s)) < n ->
          forall a, ~ (forall p, in_run a n p -> seg_free s p)) as Hno.
  { intros Hlt a Hrun.
    destruct (fl_run_in_node _ _ _ (a - ss_startExtent s) n Hwf) as (nd&Hin&?&?); [lia| |].
    - intros p Hp. specialize (Hrun (p + ss_startExtent s)).
      unfold seg_free in Hrun. rewrite Z.add_simpl_r in Hrun.
      apply Hrun. unfold in_run. lia.
    - assert (NODE_GETSIZE nd <= maxZ (sizes (ss_freeSpaceList s))); [|lia].
      apply maxZ_ub. apply list_elem_of_In, in_map, list_elem_of_In. done. }
  destruct (Z.ltb_spec (ss_maxNode s) n).
  { intros [= <- <- <- <-]. split_and!; try done. right.
    split_and!; try done. apply Hno. lia. }
  destruct (reserve_scan (ss_freeSpaceList s) n) as [[[f o] l']|] eqn:E.
  2: { exfalso. apply reserve_scan_None in E as [|E]; [lia|].
       rewrite E in Hmax. simpl in Hmax. lia. }
  intros [= <- <- <- <-].
  destruct (reserve_scan_Some _ 0 (ss_totalSize s) n f o l' Hwf)
    as (?&?&?&Hwf'&Hrun&Hfree&Hs&Ho&Hm); try done; try lia.
  pose proof (sumZ_nonneg _ (sizes_nonneg l')).
  pose proof (fl_sum_le (ss_freeSpaceList s) (ss_totalSize s) ltac:(lia) Hwf).
  assert (u16 (ss_totalFree s - n) = sumZ (sizes l')) as Etf by (rewrite u16_id; lia).
  simpl. split_and!; try done.
  - split; simpl; try done. destruct (Z.eqb_spec o (ss_maxNode s)).
    + apply seg_resetMax_spec.
    + rewrite Hm; lia.
  - left. rewrite i32_id by lia. rewrite u32_id by lia.
    split_and!; try done; try lia.
    + intros p Hp. apply Hrun. unfold in_run in Hp. lia.
    + intros p. unfold seg_free. simpl. rewrite Hfree. unfold in_run.
      split; intros [? ?]; (split; [done|lia]).
    + intros p Hp. simpl. rewrite bm_get_set_run, E1 by lia.
      rewrite Z2Nat.id by lia. done.
    + simpl. by rewrite E2.
    + simpl. lia.
Qed.

Definition seg_release_post (s : dmsSegmentSpace) (m : smeShared T)
    (start n : Z) (bitSet : bool) (rc : Z) (s' : dmsSegmentSpace) (m' : smeShared T)
    : Prop :=
  (rc = SDB_OK /\
   ss_startExtent s <= start /\ start + n <= ss_startExtent s + ss_totalSize s /\
   (forall p, in_run start n p -> ~ seg_free s p) /\
   (forall p, seg_free s' p <-> seg_free s p \/ in_run start n p) /\
   ss_totalFree s' = ss_totalFree s + n /\
   if bitSet then
     (forall p, 0 <= p -> bm_get (sh_SME m') p =
        if decide (in_run start n p) then 0 else bm_get (sh_SME m) p) /\
     sh_totalFree m' = atomic_add (sh_totalFree m) n
   else sh_SME m' = sh_SME m /\ sh_totalFree m' = sh_totalFree m) \/
  (rc = SDB_SYS /\ s' = s /\ m' = m /\
   (start < ss_startExtent s \/
    ss_startExtent s + ss_totalSize s < start + n \/
    exists p, in_run start n p /\ seg_free s p)).

Lemma seg_releasePages_spec s m start n bitSet rc s' m' :
  seg_inv s -> 0 <= n < 65536 ->
  seg_releasePages s m start n bitSet = (rc, s', m') ->
  seg_inv s' /\ ss_startExtent s' = ss_startExtent s /\
  ss_totalSize s' = ss_totalSize s /\ sh_freePos m' = sh_freePos m /\
  seg_release_post s m start n bitSet rc s' m'.
Proof.
  intros Hinv Hn. unfold seg_releasePages.
  destruct (release_list s start n) as [[rc0 l'] mx'] eqn:E.
  pose proof Hinv as [Ht Hs0 He Hwf Hmax Hsum].
  destruct (release_list_spec _ _ _ _ _ _ Hinv Hn E)
    as [(->&?&?&Hwf'&Hm&Hs&Hfree&Hdis)|(->&->&->&Hwhy)]; simpl.
  - intros [= <- <- <-].
    pose proof (sumZ_nonneg _ (sizes_nonneg (ss_freeSpaceList s))).
    pose proof (fl_sum_le l' (ss_totalSize s) ltac:(lia) Hwf').
    assert (u16 (ss_totalFree s + n) = sumZ (sizes l')) as Etf by (rewrite u16_id; lia).
    simpl. split_and!; try done.
    + by destruct bitSet.
    + left. split_and!; try done; simpl; try lia.
      * intros p Hp. apply Hdis. unfold in_run in Hp. lia.
      * intros p. unfold seg_free. simpl. rewrite Hfree. unfold in_run. 
        split; (intros [?|?]; [by left|right; lia]).
      * destruct bitSet; simpl; [|done]. split; [|done].
        intros p Hp. rewrite u32_id by lia. rewrite bm_get_clear_run by lia.
        rewrite Z2Nat.id by lia. done.
  - intros [= <- <- <-]. destruct s. simpl in *.
    split_and!; try done. right. split_and!; try done.
    destruct Hwhy as [?|[?|(p&?&?)]]; [by left|by right; left|right; right].
    exists (p + ss_startExtent0). unfold in_run, seg_free. simpl.
    rewrite Z.add_simpl_r. split; [lia|done].
Qed.

End Contract.

(** ** The counter counts the free pages *)

Lemma sumZ_map_ext {A} (f g : A -> Z) l :
  (forall x, x ∈ l -> f x = g x) -> sumZ (map f l) = sumZ (map g l).
Proof.
  induction l as [|a l IH]; intros Hfg; simpl; [done|].
  rewrite (Hfg a) by left. rewrite IH; [done|]. intros x Hx. apply Hfg. by right.
Qed.

Lemma sumZ_map_const {A} (l : list A) c :
  sumZ (map (fun _ => c) l) = Z.of_nat (length l) * c.
Proof. induction l; simpl length; simpl sumZ; nia. Qed.

Lemma sumZ_seqZ_const f a n c :
  0 <= n -> (forall p, a <= p < a + n -> f p = c) -> sumZ (map f (seqZ a n)) = n * c.
Proof.
  intros Hn Hf. rewrite (sumZ_map_ext f (fun _ => c)).
  - by rewrite sumZ_map_const, length_seqZ, Z2Nat.id by lia.
  - intros p Hp%elem_of_seqZ. apply Hf. lia.
Qed.

Lemma fl_count l : forall lo hi f,
  fl_wf lo hi l -> lo <= hi ->
  (forall p, lo <= p < hi -> (f p = 1 /\ fl_free l p) \/ (f p = 0 /\ ~ fl_free l p)) ->
  sumZ (map f (seqZ lo (hi - lo))) = sumZ (sizes l).
Proof.
  induction l as [|n l IH]; intros lo hi f Hwf Hle Hf; simpl.
  - rewrite (sumZ_seqZ_const f lo (hi - lo) 0); [lia|lia|].
    intros p Hp. destruct (Hf p ltac:(lia)) as [[_ []]|[]]; done.
  - destruct Hwf as (Hlo&Hsz&Hhi&Hl).
    assert (fl_wf (node_end n) hi l) as Hl' by (eapply fl_wf_mono; [|exact Hl]; lia).
    replace (hi - lo) with
      ((NODE_GETSTART n - lo) + (NODE_GETSIZE n + (hi - node_end n))) by lia.
    rewrite !seqZ_app, !map_app, !sumZ_app by lia.
    replace (lo + (NODE_GETSTART n - lo)) with (NODE_GETSTART n) by lia.
    rewrite (sumZ_seqZ_const f lo _ 0), (sumZ_seqZ_const f (NODE_GETSTART n) _ 1).
    + rewrite (IH _ _ f Hl'); [lia|lia|]. intros p Hp.
      destruct (Hf p ltac:(lia)) as [[? [?|?]]|[? Hn]]; [lia|by left|right].
      split; [done|]. intros Hin. apply Hn. by right.
    + lia.
    + intros p Hp. destruct (Hf p ltac:(lia)) as [[]|[_ Hn]]; [done|].
      destruct Hn. left. lia.
    + lia.
    + intros p Hp. destruct (Hf p ltac:(lia)) as [[_ [?|Hfr]]|[]]; [lia| |done].
      pose proof (fl_free_range _ _ _ _ Hl Hfr). lia.
Qed.

(** In a segment that agrees with the mask, [_totalFree] is the number of
    zero bits of the segment's range. *)
Lemma seg_totalFree_count {T} `{BitMaskLaws T} (s : dmsSegmentSpace) (t : T) :
  seg_inv s -> seg_agrees s t ->
  ss_totalFree s =
  sumZ (map (fun p => 1 - bm_get t p) (seqZ (ss_startExtent s) (ss_totalSize s))).
Proof.
  intros [Ht Hs He Hwf _ ->] Hag. symmetry.
  rewrite <- (fl_count _ 0 (ss_totalSize s)
                (fun p => 1 - bm_get t (p + ss_startExtent s)) Hwf); [|lia|].
  - rewrite Z.sub_0_r. rewrite <- (Z.add_0_r (ss_startExtent s)) at 1.
    rewrite <- (fmap_add_seqZ (ss_startExtent s) 0).
    change (Z.add (ss_startExtent s) <$> seqZ 0 (ss_totalSize s))
      with (map (Z.add (ss_startExtent s)) (seqZ 0 (ss_totalSize s))).
    rewrite map_map. apply sumZ_map_ext.
    intros p _. by rewrite Z.add_comm.
  - intros p Hp. specialize (Hag (p + ss_startExtent s) ltac:(lia)).
    unfold seg_free in Hag. rewrite Z.add_simpl_r in Hag.
    destruct (bm_get_01 t (p + ss_startExtent s)) as [E|E]; [lia|left|right];
      rewrite E; (split; [lia|]).
    + by apply Hag.
    + intros Hf%Hag. lia.
Qed.
