(* ===== verification/DmsSMEMgr.v ===== *)
(** * Space manager of a storage unit: [_dmsSpaceManagementExtent] and
    [_dmsSMEMgr] (src/src/dms/dmsBlockData.hpp, src/src/dms/dmsSMEMgr.cpp)

    The on-disk mask has one bit per page (1 = allocated); the manager keeps
    one [dmsSegmentSpace] per segment as an index over it.  The theorems
    describe every operation as an operation on the mask alone, and the
    manager's index as a cache that always agrees with it. *)
From S2P Require Import Prelude.
From S2P Require Import ByteBits.
From S2P Require Import OssBase.
From S2P Require Import DmsBase.
From S2P Require Import DmsSegmentSpace.

(** ** The mask *)

Definition DMS_SME_LEN : Z := DMS_MAX_PG / 8.
Definition DMS_SME_FREE : Z := 0.
Definition DMS_SME_ALLOCATED : Z := 1.

Record dmsSpaceManagementExtent := mkSME { smeMask : bytes }.

Definition sme_new : dmsSpaceManagementExtent := mkSME ∅.

Definition getBitMask (t : dmsSpaceManagementExtent) (bitNum : Z) : Z :=
  Z.land (Z.shiftr (byte_at (smeMask t) (Z.shiftr bitNum 3)) (7 - Z.land bitNum 7)) 1.

Definition freeBitMask (t : dmsSpaceManagementExtent) (bitNum : Z)
    : dmsSpaceManagementExtent :=
  mkSME (<[Z.shiftr bitNum 3 :=
            u8 (Z.land (byte_at (smeMask t) (Z.shiftr bitNum 3))
                       (Z.lnot (Z.shiftl 1 (7 - Z.land bitNum 7))))]> (smeMask t)).

Definition setBitMask (t : dmsSpaceManagementExtent) (bitNum : Z)
    : dmsSpaceManagementExtent :=
  mkSME (<[Z.shiftr bitNum 3 :=
            u8 (Z.lor (byte_at (smeMask t) (Z.shiftr bitNum 3))
                      (Z.shiftl 1 (7 - Z.land bitNum 7)))]> (smeMask t)).

#[export] Instance sme_BitMask : BitMask dmsSpaceManagementExtent := {
  bm_get := getBitMask; bm_set := setBitMask; bm_clear := freeBitMask
}.

#[export] Instance sme_BitMaskLaws : BitMaskLaws dmsSpaceManagementExtent.
Proof.
  split; simpl; intros [d] i.
  - apply (msb_get_01 d).
  - apply (msb_get_set d).
  - apply (msb_get_clear d).
Qed.

Lemma getBitMask_new p : 0 <= p -> getBitMask sme_new p = DMS_SME_FREE.
Proof.
  intros. change (getBitMask sme_new p) with (msb_get ∅ p).
  rewrite msb_get_testbit by lia. by rewrite Z.testbit_0_l.
Qed.

(** ** The manager *)

(** What the manager reads of its storage base. *)
Record dmsGeometry := mkGeo {
  geo_segmentPages : Z;
  geo_segmentPagesSquare : Z
}.

Record dmsSMEMgr (T : Type) := mkMgr {
  sm_segments : list dmsSegmentSpace;
  sm_shared : smeShared T
}.
Arguments mkMgr {T} _ _.
Arguments sm_segments {T} _.
Arguments sm_shared {T} _.

Section Manager.
  Context {T : Type} `{BitMask T}.

Definition mgr_new (sme : T) : dmsSMEMgr T := mkMgr [] (mkShared sme 0 0).

(** *** [init]

    The variables of the loop.  [_segments] is kept reversed, so its head is
    the segment [newspace] points to ([NULL] before the first one). *)
Record initState := mkInit {
  is_segs : list dmsSegmentSpace;
  is_shared : smeShared T;
  is_releaseBegin : Z;
  is_inUse : bool
}.

(** [newspace->releasePages( releaseBegin, i - releaseBegin, FALSE )] and the
    addition to [_totalFree]. *)
Definition init_release (st : initState) (i : Z) : Z * initState :=
  match is_segs st with
  | [] => (SDB_OK, st)
  | cur :: rest =>
      let '(rc, cur', sh') :=
        seg_releasePages cur (is_shared st) (is_releaseBegin st)
          (u16 (i - is_releaseBegin st)) false in
      if negb (rc =? 0)
      then (rc, mkInit (cur' :: rest) sh' (is_releaseBegin st) (is_inUse st))
      else
        (rc, mkInit (cur' :: rest)
               (mkShared (sh_SME sh')
                  (atomic_add (sh_totalFree sh') (u32 (i - is_releaseBegin st)))
                  (sh_freePos sh'))
               (is_releaseBegin st) (is_inUse st))
  end.

(** [alloc i]: whether the [new] for the segment at page [i] succeeds. *)
Definition init_newspace (alloc : Z -> bool) (geo : dmsGeometry) (i : Z)
    (st : initState) : Z * initState :=
  let '(rc, st) :=
    match is_segs st with
    | _ :: _ => if is_inUse st then (SDB_OK, st) else init_release st i
    | [] => (SDB_OK, st)
    end in
  if negb (rc =? 0) then (rc, st)
  else if alloc i
  then (SDB_OK, mkInit (dmsSegmentSpace_new i (u16 (geo_segmentPages geo)) :: is_segs st)
                  (is_shared st) i false)
  else (SDB_OOM, st).

Definition init_body (alloc : Z -> bool) (geo : dmsGeometry) (i : Z)
    (st : initState) : Z * initState :=
  let '(rc, st) :=
    if 0 =? Z.land i (Z.shiftl 1 (geo_segmentPagesSquare geo) - 1)
    then init_newspace alloc geo i st else (SDB_OK, st) in
  if negb (rc =? 0) then (rc, st)
  else if negb (DMS_SME_FREE =? bm_get (sh_SME (is_shared st)) i) && negb (is_inUse st)
  then
    let '(rc, st) := init_release st i in
    if negb (rc =? 0) then (rc, st)
    else (rc, mkInit (is_segs st) (is_shared st) (is_releaseBegin st) true)
  else if (DMS_SME_FREE =? bm_get (sh_SME (is_shared st)) i) && is_inUse st
  then (rc, mkInit (is_segs st) (is_shared st) i false)
  else (rc, st).

(** [n] more pages, from [i] on. *)
Fixpoint init_loop (alloc : Z -> bool) (geo : dmsGeometry) (n : nat) (i : Z)
    (st : initState) : Z * Z * initState :=
  match n with
  | O => (SDB_OK, i, st)
  | S n =>
      let '(rc, st) := init_body alloc geo i st in
      if negb (rc =? 0) then (rc, i, st) else init_loop alloc geo n (i + 1) st
  end.

Definition mgr_init (alloc : Z -> bool) (geo : dmsGeometry) (pageNum : Z) (sme : T)
    : Z * dmsSMEMgr T :=
  let '(rc, i, st) :=
    init_loop alloc geo (Z.to_nat pageNum) 0 (mkInit [] (mkShared sme 0 0) 0 false) in
  let '(rc, st) :=
    if negb (rc =? 0) then (rc, st)
    else if (0 <? i) && (DMS_SME_FREE =? bm_get (sh_SME (is_shared st)) (i - 1))
    then init_release st i else (rc, st) in
  (rc, mkMgr (rev (is_segs st)) (is_shared st)).

(** *** [reservePages]

    The loop over the segments from the free-position hint on; [n] is how
    many are left. *)
Fixpoint reserve_loop (n : nat) (segs : list dmsSegmentSpace) (sh : smeShared T)
    (numPages foundPage pos : Z) : Z * Z * list dmsSegmentSpace * smeShared T :=
  match n with
  | O => (SDB_OK, DMS_INVALID_EXTENT, segs, sh)
  | S n =>
      match segs !! Z.to_nat pos with
      | None => (SDB_OK, DMS_INVALID_EXTENT, segs, sh)
      | Some s =>
          let '(rc, foundPage, s', sh') :=
            seg_reservePages s sh numPages foundPage pos in
          let segs' := <[Z.to_nat pos := s']> segs in
          if SDB_OK =? rc then (rc, foundPage, segs', sh')
          else if negb (SDB_DMS_NOSPC =? rc) then (rc, foundPage, segs', sh')
          else reserve_loop n segs' sh' numPages foundPage (pos + 1)
      end
  end.

(** Return code, [foundPage], [*pSegmentNum], the manager. *)
Definition mgr_reservePages (m : dmsSMEMgr T) (numPages foundPage : Z)
    : Z * Z * Z * dmsSMEMgr T :=
  let size := Z.of_nat (length (sm_segments m)) in
  let pos := atomic_fetch (sh_freePos (sm_shared m)) in
  let '(rc, found, segs, sh) :=
    reserve_loop (Z.to_nat (size - pos)) (sm_segments m) (sm_shared m)
      numPages foundPage pos in
  (rc, found, size, mkMgr segs sh).

(** *** [releasePages] *)
Definition mgr_releasePages (geo : dmsGeometry) (m : dmsSMEMgr T)
    (start numPages : Z) : Z * dmsSMEMgr T :=
  let segmentID := u32 (Z.shiftr start (geo_segmentPagesSquare geo)) in
  if Z.of_nat (length (sm_segments m)) <=? segmentID then (SDB_SYS, m)
  else
    match sm_segments m !! Z.to_nat segmentID with
    | None => (SDB_SYS, m)
    | Some s =>
        let '(rc, s', sh') := seg_releasePages s (sm_shared m) start numPages true in
        let segs' := <[Z.to_nat segmentID := s']> (sm_segments m) in
        if negb (rc =? 0) then (rc, mkMgr segs' sh')
        else (rc, mkMgr segs'
                    (mkShared (sh_SME sh') (sh_totalFree sh')
                       (atomic_swapLesserThan (sh_freePos sh') segmentID)))
    end.

(** *** [depositASegment] ([alloc]: whether the [new] succeeds) *)
Definition mgr_depositASegment (alloc : bool) (geo : dmsGeometry)
    (m : dmsSMEMgr T) (start : Z) : Z * dmsSMEMgr T :=
  let segmentPages := u16 (geo_segmentPages geo) in
  let segmentID := u32 (Z.shiftr start (geo_segmentPagesSquare geo)) in
  if negb (segmentID =? Z.of_nat (length (sm_segments m))) then (SDB_SYS, m)
  else if negb alloc then (SDB_OOM, m)
  else
    let '(rc, s', sh') :=
      seg_releasePages (dmsSegmentSpace_new start segmentPages) (sm_shared m)
        start segmentPages false in
    let segs' := sm_segments m ++ [s'] in
    if negb (rc =? 0) then (rc, mkMgr segs' sh')
    else (rc, mkMgr segs'
                (mkShared (sh_SME sh') (atomic_add (sh_totalFree sh') segmentPages)
                   (sh_freePos sh'))).

Definition mgr_segmentNum (m : dmsSMEMgr T) : Z := Z.of_nat (length (sm_segments m)).

Definition mgr_totalFree (m : dmsSMEMgr T) : Z := sh_totalFree (sm_shared m).

End Manager.

Arguments initState : clear implicits.

(** ** Invariant *)

(** The geometry the header check accepts: a segment holds a power of two
    pages, at most 32768 of them (128MB of 4K pages). *)
Record geo_ok (geo : dmsGeometry) : Prop := {
  go_square : 0 <= geo_segmentPagesSquare geo <= 15;
  go_pages : geo_segmentPages geo = 2 ^ geo_segmentPagesSquare geo
}.

Lemma geo_ok_pages geo : geo_ok geo -> 0 < geo_segmentPages geo <= 32768.
Proof.
  intros [Hs ->]. split; [lia|]. change 32768 with (2 ^ 15).
  apply Z.pow_le_mono_r; lia.
Qed.

Section Invariant.
  Context {T : Type} `{BitMaskLaws T}.
  Context (geo : dmsGeometry) (Hgeo : geo_ok geo).

Abbreviation P := (geo_segmentPages geo).

(** Segment [k] indexes the pages [k*P, (k+1)*P) and agrees with the mask. *)
Record seg_at (t : T) (k : nat) (s : dmsSegmentSpace) : Prop := {
  sa_inv : seg_inv s;
  sa_start : ss_startExtent s = Z.of_nat k * P;
  sa_total : ss_totalSize s = P;
  sa_agrees : seg_agrees s t
}.

Record mgr_inv (m : dmsSMEMgr T) : Prop := {
  mi_segs : forall k s, sm_segments m !! k = Some s -> seg_at (sh_SME (sm_shared m)) k s;
  mi_max : Z.of_nat (length (sm_segments m)) * P <= DMS_MAX_PG;
  mi_total : sh_totalFree (sm_shared m) = sumZ (map ss_totalFree (sm_segments m));
  mi_pos : 0 <= sh_freePos (sm_shared m) <= Z.of_nat (length (sm_segments m));
  mi_full : forall k s, sm_segments m !! k = Some s ->
    Z.of_nat k < sh_freePos (sm_shared m) -> ss_totalFree s = 0
}.

Definition in_one_segment (m : dmsSMEMgr T) (a n : Z) : Prop :=
  exists k, Z.of_nat k * P <= a /\ a + n <= (Z.of_nat k + 1) * P /\
            (k < length (sm_segments m))%nat.

(** A run of [n] pages that are all free in the mask and lie in one segment. *)
Definition free_run (m : dmsSMEMgr T) (a n : Z) : Prop :=
  in_one_segment m a n /\
  forall p, in_run a n p -> bm_get (sh_SME (sm_shared m)) p = DMS_SME_FREE.

Lemma seg_at_totalFree t k s : seg_at t k s -> 0 <= ss_totalFree s <= P.
Proof.
  intros [[Ht _ _ Hwf _ ->] _ <- _].
  split; [apply sumZ_nonneg, sizes_nonneg|]. apply fl_sum_le; [lia|done].
Qed.

Lemma mgr_total_bound m :
  mgr_inv m -> 0 <= sh_totalFree (sm_shared m) <= DMS_MAX_PG.
Proof.
  intros [Hs Hm -> _ _].
  pose proof (sumZ_map_bound ss_totalFree (sm_segments m) P) as Hb.
  destruct Hb as [H1 H2].
  - intros s [k Hk]%list_elem_of_lookup. eapply seg_at_totalFree; eauto.
  - lia.
Qed.

(** Segment ranges do not overlap. *)
Lemma seg_at_other t t' k j s :
  seg_at t j s -> j <> k ->
  (forall p, 0 <= p -> ~ (Z.of_nat k * P <= p < (Z.of_nat k + 1) * P) ->
     bm_get t' p = bm_get t p) ->
  seg_at t' j s.
Proof.
  intros [Hi Hst Hto Hag] Hne Hsame. pose proof (geo_ok_pages _ Hgeo).
  split; try done. intros p Hp. rewrite Hst, Hto in Hp.
  rewrite Hsame; [|nia|nia]. apply Hag. lia.
Qed.

(** Replacing segment [k], with the mask changed inside its range only. *)
Lemma segs_update (m : dmsSMEMgr T) k s s' t' :
  mgr_inv m -> sm_segments m !! k = Some s -> seg_at t' k s' ->
  (forall p, 0 <= p -> ~ (Z.of_nat k * P <= p < (Z.of_nat k + 1) * P) ->
     bm_get t' p = bm_get (sh_SME (sm_shared m)) p) ->
  forall j x, <[k := s']> (sm_segments m) !! j = Some x -> seg_at t' j x.
Proof.
  intros Hinv Hk Hs' Hsame j x Hj.
  destruct (decide (j = k)) as [->|Hne].
  - rewrite list_lookup_insert_eq in Hj by (by eapply lookup_lt_Some).
    by simplify_eq.
  - rewrite list_lookup_insert_ne in Hj by done.
    eapply seg_at_other; [by eapply mi_segs|done|done].
Qed.

Lemma mgr_inv_update (m : dmsSMEMgr T) k s s' sh' :
  mgr_inv m -> sm_segments m !! k = Some s -> seg_at (sh_SME sh') k s' ->
  (forall p, 0 <= p -> ~ (Z.of_nat k * P <= p < (Z.of_nat k + 1) * P) ->
     bm_get (sh_SME sh') p = bm_get (sh_SME (sm_shared m)) p) ->
  sh_totalFree sh' = sh_totalFree (sm_shared m) - ss_totalFree s + ss_totalFree s' ->
  0 <= sh_freePos sh' <= Z.of_nat (length (sm_segments m)) ->
  (forall j x, <[k := s']> (sm_segments m) !! j = Some x ->
     Z.of_nat j < sh_freePos sh' -> ss_totalFree x = 0) ->
  mgr_inv (mkMgr (<[k := s']> (sm_segments m)) sh').
Proof.
  intros Hinv Hk Hs' Hsame Htot Hpos Hfull. split; simpl.
  - by eapply segs_update.
  - rewrite length_insert. apply Hinv.
  - erewrite sumZ_map_insert by done. rewrite Htot, (mi_total _ Hinv). lia.
  - rewrite length_insert. done.
  - done.
Qed.

Lemma mgr_total_ge (m : dmsSMEMgr T) k s :
  mgr_inv m -> sm_segments m !! k = Some s ->
  ss_totalFree s <= sh_totalFree (sm_shared m).
Proof.
  intros Hinv Hk. rewrite (mi_total _ Hinv). apply sumZ_elem_le.
  - apply Forall_forall. intros z Hz.
    apply list_elem_of_In, in_map_iff in Hz as (x&<-&Hx).
    apply list_elem_of_In, list_elem_of_lookup in Hx as [j Hj].
    eapply seg_at_totalFree. by eapply mi_segs.
  - apply list_elem_of_In, in_map, list_elem_of_In. by eapply list_elem_of_lookup_2.
Qed.

(** Only the free-position hint changed. *)
Lemma mgr_inv_freePos (m : dmsSMEMgr T) sh' :
  mgr_inv m -> sh_SME sh' = sh_SME (sm_shared m) ->
  sh_totalFree sh' = sh_totalFree (sm_shared m) ->
  0 <= sh_freePos sh' <= Z.of_nat (length (sm_segments m)) ->
  (forall j x, sm_segments m !! j = Some x ->
     Z.of_nat j < sh_freePos sh' -> ss_totalFree x = 0) ->
  mgr_inv (mkMgr (sm_segments m) sh').
Proof. intros [] E1 E2 ? ?. split; simpl; rewrite ?E1, ?E2; done. Qed.

(** *** [reservePages] *)

(** The outcome of [reservePages]: a run of free pages taken, or nothing
    changed because no segment from [pos] on has such a run. *)
Definition reserve_outcome (m : dmsSMEMgr T) (numPages pos found' : Z)
    (sh' : smeShared T) : Prop :=
  (0 <= found' /\ free_run m found' numPages /\
   (forall p, 0 <= p -> bm_get (sh_SME sh') p =
      if decide (in_run found' numPages p) then DMS_SME_ALLOCATED
      else bm_get (sh_SME (sm_shared m)) p) /\
   sh_totalFree sh' = sh_totalFree (sm_shared m) - numPages) \/
  (found' = DMS_INVALID_EXTENT /\ sh_SME sh' = sh_SME (sm_shared m) /\
   sh_totalFree sh' = sh_totalFree (sm_shared m) /\
   forall k s a, pos <= Z.of_nat k -> sm_segments m !! k = Some s ->
     ~ (forall p, in_run a numPages p -> seg_free s p)).

Lemma freePos_after_bounds (m : dmsSMEMgr T) s pos :
  mgr_inv m -> sm_segments m !! Z.to_nat pos = Some s -> 0 <= pos ->
  sh_freePos (sm_shared m) <= pos ->
  let fp := freePos_after s (sh_freePos (sm_shared m)) pos in
  0 <= fp <= pos + 1 /\ fp <= Z.of_nat (length (sm_segments m)) /\
  (fp = pos + 1 -> ss_totalFree s = 0) /\
  (forall j x, sm_segments m !! j = Some x -> Z.of_nat j < fp -> ss_totalFree x = 0).
Proof.
  intros Hinv Hs Hpos Hle. pose proof (lookup_lt_Some _ _ _ Hs).
  pose proof (geo_ok_pages _ Hgeo). pose proof (mi_max _ Hinv) as Hm.
  pose proof (mi_pos _ Hinv). unfold DMS_MAX_PG in Hm.
  simpl. unfold freePos_after. case_decide as Hc.
  - rewrite u32_id by nia. split_and!; try lia; try tauto.
    intros j x Hj Hlt. destruct (decide (j = Z.to_nat pos)) as [->|].
    + naive_solver.
    + eapply (mi_full _ Hinv); [done|lia].
  - split_and!; try lia. apply (mi_full _ Hinv).
Qed.

Lemma seg_at_reserved (m : dmsSMEMgr T) k s s' sh' f n :
  mgr_inv m -> sm_segments m !! k = Some s -> seg_inv s' ->
  ss_startExtent s' = ss_startExtent s -> ss_totalSize s' = ss_totalSize s ->
  (forall p, seg_free s' p <-> seg_free s p /\ ~ in_run f n p) ->
  (forall p, 0 <= p -> bm_get (sh_SME sh') p =
     if decide (in_run f n p) then 1 else bm_get (sh_SME (sm_shared m)) p) ->
  seg_at (sh_SME sh') k s'.
Proof.
  intros Hinv Hk Hi Es Et Hf Hb. destruct (mi_segs _ Hinv _ _ Hk) as [_ ? ? Hag].
  split; [done|congruence|congruence|].
  intros p Hp. rewrite Es, Et in Hp. pose proof (geo_ok_pages _ Hgeo).
  rewrite Hb, Hf by nia. rewrite <- (Hag p) by lia.
  case_decide; naive_solver.
Qed.

Lemma reserve_loop_spec n : forall m numPages found pos rc found' segs' sh',
  mgr_inv m -> 0 < numPages < 65536 -> 0 <= pos ->
  sh_freePos (sm_shared m) <= pos ->
  Z.of_nat n = Z.of_nat (length (sm_segments m)) - pos ->
  reserve_loop n (sm_segments m) (sm_shared m) numPages found pos
    = (rc, found', segs', sh') ->
  rc = SDB_OK /\ mgr_inv (mkMgr segs' sh') /\ length segs' = length (sm_segments m) /\
  reserve_outcome m numPages pos found' sh'.
Proof.
  induction n as [|n IH]; intros m numPages found pos rc found' segs' sh'
    Hinv Hn Hpos Hfp Hlen; simpl.
  - intros [= <- <- <- <-]. split_and!; [done|by destruct m|done|].
    right. split_and!; try done. intros k s a Hk Hs.
    pose proof (lookup_lt_Some _ _ _ Hs). lia.
  - destruct (lookup_lt_is_Some_2 (sm_segments m) (Z.to_nat pos)) as [s Hs]; [lia|].
    rewrite Hs. pose proof (mi_segs _ Hinv _ _ Hs) as Hat.
    pose proof (sa_start _ _ _ Hat) as Est. pose proof (sa_total _ _ _ Hat) as Eto.
    pose proof (geo_ok_pages _ Hgeo).
    rewrite Z2Nat.id in Est by lia.
    destruct (freePos_after_bounds _ _ _ Hinv Hs Hpos Hfp) as (Hb1&Hb2&Hb3&Hb4).
    destruct (seg_reservePages s (sm_shared m) numPages found pos)
      as [[[rc1 f1] s1] sh1] eqn:E.
    destruct (seg_reservePages_spec _ _ _ _ _ _ _ _ _ (sa_inv _ _ _ Hat) Hn E)
      as (Hi1&Es1&Et1&Efp&[(->&?&?&Hrun&Hfree&Hbits&Htot&Htf)|(->&->&->&Esme&Etot&Hno)]).
    + simpl. intros [= <- <- <- <-].
      pose proof (mgr_total_bound _ Hinv) as Hmb.
      pose proof (seg_at_totalFree _ _ _ Hat) as Hstf.
      pose proof (seg_at_reserved _ _ _ _ _ _ _ Hinv Hs Hi1 Es1 Et1 Hfree Hbits) as Hat1.
      pose proof (seg_at_totalFree _ _ _ Hat1) as Hstf1.
      pose proof (mgr_total_ge _ _ _ Hinv Hs) as Hge.
      assert (sh_totalFree sh1 = sh_totalFree (sm_shared m) - numPages) as Htot1.
      { rewrite Htot. unfold atomic_sub, DMS_MAX_PG in *. apply u32_id. lia. }
      split_and!; [done| |by rewrite length_insert|].
      * eapply mgr_inv_update; eauto; try lia.
        -- intros p Hp Hout. rewrite Hbits by lia. case_decide as Hc; [|done].
           unfold in_run in Hc. nia.
        -- intros j x Hj Hlt. destruct (decide (j = Z.to_nat pos)) as [->|].
           ++ rewrite list_lookup_insert_eq in Hj by lia. simplify_eq. lia.
           ++ rewrite list_lookup_insert_ne in Hj by done. eapply Hb4; [done|lia].
      * left. split_and!; try done; [nia|]. split.
        -- exists (Z.to_nat pos). rewrite Z2Nat.id by lia. split_and!; lia.
        -- intros p Hp. apply (sa_agrees _ _ _ Hat); [unfold in_run in Hp; lia|].
           by apply Hrun.
    + simpl. rewrite list_insert_id by done. intros Hloop.
      set (m1 := mkMgr (sm_segments m) sh1).
      assert (mgr_inv m1) as Hinv1
        by (apply mgr_inv_freePos; try done; rewrite Efp; done || lia).
      destruct (IH m1 numPages found (pos + 1) rc found' segs' sh' Hinv1)
        as (->&?&?&Hout); simpl; try lia; [done|].
      split_and!; try done. unfold reserve_outcome, free_run in *. simpl in Hout.
      rewrite Esme, Etot in Hout. destruct Hout as [|(->&?&?&Hk)]; [by left|right].
      split_and!; try done. intros k x a Hge Hx.
      destruct (decide (k = Z.to_nat pos)) as [->|]; [|eapply Hk; [|done]; lia].
      simplify_eq. apply Hno.
Qed.

(** [reservePages] as an operation on the mask: it succeeds, and either takes
    [numPages] free pages of one segment, or reports [DMS_INVALID_EXTENT]
    with the mask unchanged, which happens only when no segment has that many
    consecutive free pages. *)
Lemma mgr_reservePages_mask m numPages found0 rc found segNum m' :
  mgr_inv m -> 0 < numPages < 65536 ->
  mgr_reservePages m numPages found0 = (rc, found, segNum, m') ->
  rc = SDB_OK /\ mgr_inv m' /\
  length (sm_segments m') = length (sm_segments m) /\
  ((free_run m found numPages /\ 0 <= found /\
    (forall p, 0 <= p -> bm_get (sh_SME (sm_shared m')) p =
       if decide (in_run found numPages p) then DMS_SME_ALLOCATED
       else bm_get (sh_SME (sm_shared m)) p) /\
    mgr_totalFree m' = mgr_totalFree m - numPages) \/
   (found = DMS_INVALID_EXTENT /\ sh_SME (sm_shared m') = sh_SME (sm_shared m) /\
    mgr_totalFree m' = mgr_totalFree m /\
    forall a, ~ free_run m a numPages)).
Proof.
  intros Hinv Hn. unfold mgr_reservePages, mgr_totalFree, atomic_fetch.
  destruct (reserve_loop _ _ _ _ _ _) as [[[rc1 f1] segs1] sh1] eqn:E.
  intros [= <- <- <- <-]. pose proof (mi_pos _ Hinv).
  apply reserve_loop_spec in E as (->&?&?&Hout); try done; try lia.
  split_and!; try done. destruct Hout as [|(->&Esme&Etot&Hno)]; [left; naive_solver|right].
  split_and!; try done. intros a [(k&?&?&Hk) Hbits].
  destruct (lookup_lt_is_Some_2 _ _ Hk) as [s Hs].
  pose proof (mi_segs _ Hinv _ _ Hs) as Hat.
  assert (forall p, in_run a numPages p -> seg_free s p) as Hrun.
  { intros p Hp. apply (sa_agrees _ _ _ Hat); [|by apply Hbits].
    rewrite (sa_start _ _ _ Hat), (sa_total _ _ _ Hat). unfold in_run in Hp. lia. }
  destruct (decide (sh_freePos (sm_shared m) <= Z.of_nat k)).
  - by eapply Hno.
  - pose proof (mi_full _ Hinv _ _ Hs ltac:(lia)) as Hz.
    apply (seg_totalFree_zero _ (sa_inv _ _ _ Hat)) with (p := a) in Hz.
    apply Hz, Hrun. unfold in_run. lia.
Qed.

(** *** [releasePages] *)

Lemma segment_of (start : Z) :
  0 <= start < DMS_MAX_PG ->
  u32 (Z.shiftr start (geo_segmentPagesSquare geo)) = start / P /\
  0 <= start / P < DMS_MAX_PG.
Proof.
  intros Hs. destruct Hgeo as [Hsq Hp]. pose proof (geo_ok_pages _ Hgeo).
  rewrite shiftr_div by lia. rewrite <- Hp.
  assert (0 <= start / P) by (apply Z.div_pos; lia).
  assert (start / P <= start) by (apply Z.div_le_upper_bound; nia).
  unfold DMS_MAX_PG in *. split; [apply u32_id|]; lia.
Qed.

Lemma in_one_segment_div (m : dmsSMEMgr T) a n :
  0 <= a -> 0 < n ->
  in_one_segment m a n <->
  a + n <= (a / P + 1) * P /\ a / P < Z.of_nat (length (sm_segments m)).
Proof.
  intros Ha Hn. pose proof (geo_ok_pages _ Hgeo).
  pose proof (Z.div_mod a P ltac:(lia)). pose proof (Z.mod_pos_bound a P ltac:(lia)).
  assert (0 <= a / P) by (apply Z.div_pos; lia). split.
  - intros (k&?&?&?). assert (a / P = Z.of_nat k) as -> by nia. lia.
  - intros [? ?]. exists (Z.to_nat (a / P)). rewrite Z2Nat.id by lia. lia.
Qed.

Lemma seg_at_released (m : dmsSMEMgr T) k s s' sh' f n :
  mgr_inv m -> sm_segments m !! k = Some s -> seg_inv s' ->
  ss_startExtent s' = ss_startExtent s -> ss_totalSize s' = ss_totalSize s ->
  (forall p, seg_free s' p <-> seg_free s p \/ in_run f n p) ->
  (forall p, 0 <= p -> bm_get (sh_SME sh') p =
     if decide (in_run f n p) then 0 else bm_get (sh_SME (sm_shared m)) p) ->
  seg_at (sh_SME sh') k s'.
Proof.
  intros Hinv Hk Hi Es Et Hf Hb. destruct (mi_segs _ Hinv _ _ Hk) as [_ ? ? Hag].
  split; [done|congruence|congruence|].
  intros p Hp. rewrite Es, Et in Hp. pose proof (geo_ok_pages _ Hgeo).
  rewrite Hb, Hf by nia. rewrite <- (Hag p) by lia.
  case_decide; naive_solver.
Qed.

(** [releasePages] as an operation on the mask: it clears the run when the
    run lies in one segment and every page of it is allocated, and otherwise
    fails and changes nothing. *)
Lemma mgr_releasePages_mask (m : dmsSMEMgr T) start n rc m' :
  mgr_inv m -> 0 <= start < DMS_MAX_PG -> 0 < n < 65536 ->
  mgr_releasePages geo m start n = (rc, m') ->
  (rc = SDB_OK /\ mgr_inv m' /\ length (sm_segments m') = length (sm_segments m) /\
   in_one_segment m start n /\
   (forall p, in_run start n p ->
      bm_get (sh_SME (sm_shared m)) p = DMS_SME_ALLOCATED) /\
   (forall p, 0 <= p -> bm_get (sh_SME (sm_shared m')) p =
      if decide (in_run start n p) then DMS_SME_FREE
      else bm_get (sh_SME (sm_shared m)) p) /\
   mgr_totalFree m' = mgr_totalFree m + n) \/
  (rc = SDB_SYS /\ m' = m /\
   (in_one_segment m start n ->
    exists p, in_run start n p /\ bm_get (sh_SME (sm_shared m)) p = DMS_SME_FREE)).
Proof.
  intros Hinv Hst Hn. unfold mgr_releasePages, mgr_totalFree.
  destruct (segment_of start Hst) as [-> Hseg]. set (k := start / P) in *.
  pose proof (geo_ok_pages _ Hgeo). pose proof (mgr_total_bound _ Hinv) as Hmb.
  rewrite in_one_segment_div by lia. fold k.
  zcase; [intros [= <- <-]; right; split_and!; [done|done|lia]|].
  destruct (lookup_lt_is_Some_2 (sm_segments m) (Z.to_nat k)) as [s Hs]; [lia|].
  rewrite Hs. pose proof (mi_segs _ Hinv _ _ Hs) as Hat.
  pose proof (sa_start _ _ _ Hat) as Est. pose proof (sa_total _ _ _ Hat) as Eto.
  rewrite Z2Nat.id in Est by lia.
  destruct (seg_releasePages s (sm_shared m) start n true) as [[rc1 s1] sh1] eqn:E.
  apply seg_releasePages_spec in E; [|apply Hat|lia].
  destruct E as (Hi1&Es1&Et1&Efp&Hpost).
  destruct Hpost as [(->&?&?&Hdis&Hfree&Htf&Hbits&Htot)|(->&->&->&Hwhy)].
  - simpl. intros [= <- <-]. left.
    pose proof (seg_at_released _ _ _ _ _ _ _ Hinv Hs Hi1 Es1 Et1 Hfree Hbits) as Hat1.
    pose proof (seg_at_totalFree _ _ _ Hat1) as Hstf1.
    assert (sh_totalFree sh1 = sh_totalFree (sm_shared m) + n) as Htot1.
    { rewrite Htot. unfold atomic_add, DMS_MAX_PG in *. apply u32_id. lia. }
    simpl. split_and!; try done; try lia.
    + rewrite atomic_swapLesserThan_min. pose proof (mi_pos _ Hinv).
      apply (mgr_inv_update m _ s); simpl; try done; try lia.
      * intros p Hp Hout. rewrite Hbits by lia. case_decide as Hc; [|done].
        unfold in_run in Hc. nia.
      * intros j x Hj Hlt. rewrite list_lookup_insert_ne in Hj by lia.
        eapply (mi_full _ Hinv); [done|lia].
    + by rewrite length_insert.
    + intros p Hp. assert (0 <= p) by (unfold in_run in Hp; lia).
      destruct (bm_get_01 (sh_SME (sm_shared m)) p) as [E0|E0]; [done| |done].
      destruct (Hdis p Hp). apply (sa_agrees _ _ _ Hat); [unfold in_run in Hp; lia|done].
  - simpl. rewrite list_insert_id by done. intros [= <- <-]. right.
    split_and!; [done|by destruct m|]. intros [? ?].
    assert (P * k <= start) by (apply Z.mul_div_le; lia).
    destruct Hwhy as [?|[?|(p&Hp&Hf)]]; [lia|lia|]. exists p. split; [done|].
    apply (sa_agrees _ _ _ Hat); [unfold in_run in Hp; lia|done].
Qed.

(** *** [depositASegment] *)

Lemma seg_inv_new start :
  0 <= start -> start + P < 2147483648 -> seg_inv (dmsSegmentSpace_new start P).
Proof. intros. pose proof (geo_ok_pages _ Hgeo). split; simpl; lia || done. Qed.

Lemma map_snoc {A B} (f : A -> B) l x : map f (l ++ [x]) = map f l ++ [f x].
Proof. apply map_app. Qed.

(** A new segment whose pages are all free in the mask joins the manager. *)
Lemma mgr_depositASegment_mask (m : dmsSMEMgr T) start rc m' :
  mgr_inv m -> 0 <= start -> start + P <= DMS_MAX_PG ->
  (forall p, in_run start P p -> bm_get (sh_SME (sm_shared m)) p = DMS_SME_FREE) ->
  start mod P = 0 ->
  mgr_depositASegment true geo m start = (rc, m') ->
  (rc = SDB_OK /\ start = Z.of_nat (length (sm_segments m)) * P /\
   mgr_inv m' /\ length (sm_segments m') = S (length (sm_segments m)) /\
   sh_SME (sm_shared m') = sh_SME (sm_shared m) /\
   mgr_totalFree m' = mgr_totalFree m + P) \/
  (rc = SDB_SYS /\ m' = m /\ start <> Z.of_nat (length (sm_segments m)) * P).
Proof.
  intros Hinv Hst Hmax Hfr Hmod. unfold mgr_depositASegment, mgr_totalFree.
  pose proof (geo_ok_pages _ Hgeo) as HP.
  destruct (segment_of start) as [-> Hseg]; [unfold DMS_MAX_PG in *; lia|].
  pose proof (Z.div_mod start P ltac:(lia)) as Hdm. rewrite Hmod, Z.add_0_r in Hdm.
  rewrite u16_id by lia. simpl. zcase; simpl.
  2: { intros [= <- <-]. right. split_and!; try done. nia. }
  pose proof (seg_inv_new start Hst ltac:(unfold DMS_MAX_PG in *; lia)) as Hnew.
  destruct (seg_releasePages _ _ _ _ _) as [[rc1 s1] sh1] eqn:E.
  apply seg_releasePages_spec in E; [|done|lia].
  destruct E as (Hi1&Es1&Et1&Efp&Hpost).
  destruct Hpost as [(->&_&_&_&Hfree&Htf&Esme&Etot)|(->&_&_&Hwhy)];
    simpl in *; [|exfalso; destruct Hwhy as [?|[?|(p&_&[])]]; lia].
  intros [= <- <-]. left. pose proof (mgr_total_bound _ Hinv) as Hmb.
  assert (seg_at (sh_SME sh1) (length (sm_segments m)) s1) as Hat.
  { split; [done|lia|done|]. intros p Hp. rewrite Es1, Et1 in Hp.
    rewrite Hfree, Esme. split; [by right|]. intros _. by apply Hfr. }
  assert (atomic_add (sh_totalFree sh1) P = sh_totalFree (sm_shared m) + P) as Etot1.
  { rewrite Etot. unfold atomic_add, DMS_MAX_PG in *. apply u32_id. lia. }
  pose proof (mi_pos _ Hinv). simpl. split_and!; try done; [lia| |].
  - split; simpl; rewrite ?length_app; simpl.
    + intros k s [[? Hk]|[-> <-]]%lookup_snoc_Some; rewrite ?Esme in *; [|done].
      by eapply (mi_segs _ Hinv).
    + lia.
    + rewrite map_snoc, sumZ_app, Etot1, (mi_total _ Hinv). simpl. lia.
    + lia.
    + intros k s [[? Hk]|[-> <-]]%lookup_snoc_Some ?; [|lia].
      eapply (mi_full _ Hinv); [done|lia].
  - rewrite length_app. simpl. lia.
Qed.

(** [totalFree] is the number of free pages of the mask. *)
Lemma segs_totalFree_count t segs : forall k0,
  (forall k s, segs !! k = Some s -> seg_at t (k0 + k)%nat s) ->
  sumZ (map ss_totalFree segs) =
  sumZ (map (fun p => 1 - bm_get t p)
          (seqZ (Z.of_nat k0 * P) (Z.of_nat (length segs) * P))).
Proof.
  pose proof (geo_ok_pages _ Hgeo).
  induction segs as [|s segs IH]; intros k0 Hs; simpl; [done|].
  destruct (Hs 0%nat s eq_refl) as [Hi Est Eto Hag]. rewrite Nat.add_0_r in Est.
  rewrite (seg_totalFree_count s t Hi Hag), Est, Eto.
  rewrite (IH (S k0)).
  - replace (Z.of_nat (S (length segs)) * P)
      with (P + Z.of_nat (length segs) * P) by lia.
    rewrite seqZ_app, map_app, sumZ_app by nia.
    by replace (Z.of_nat k0 * P + P) with (Z.of_nat (S k0) * P) by lia.
  - intros k x Hk. rewrite Nat.add_succ_comm. by apply Hs.
Qed.

Lemma mgr_totalFree_count (m : dmsSMEMgr T) :
  mgr_inv m ->
  mgr_totalFree m =
  sumZ (map (fun p => 1 - bm_get (sh_SME (sm_shared m)) p)
          (seqZ 0 (Z.of_nat (length (sm_segments m)) * P))).
Proof.
  intros Hinv. unfold mgr_totalFree. rewrite (mi_total _ Hinv).
  apply (segs_totalFree_count _ _ 0). intros k s Hk. by eapply (mi_segs _ Hinv).
Qed.

(** *** [init]

    While the loop runs, the segments found so far agree with the mask up to
    the page [hw] (and know no free page from there on). *)
Section Init.
  Context (sme : T) (pageNum : Z).
  Context (Hnum : 0 <= pageNum <= DMS_MAX_PG) (Hmul : pageNum mod P = 0).

Record seg_upto (hw : Z) (k : nat) (s : dmsSegmentSpace) : Prop := {
  su_inv : seg_inv s;
  su_start : ss_startExtent s = Z.of_nat k * P;
  su_total : ss_totalSize s = P;
  su_free : forall p, Z.of_nat k * P <= p < (Z.of_nat k + 1) * P ->
    seg_free s p <-> bm_get sme p = DMS_SME_FREE /\ p < hw
}.

Record init_inv (hw : Z) (st : initState T) : Prop := {
  ii_sme : sh_SME (is_shared st) = sme;
  ii_pos : sh_freePos (is_shared st) = 0;
  ii_max : Z.of_nat (length (is_segs st)) * P <= pageNum;
  ii_tot : sh_totalFree (is_shared st) = sumZ (map ss_totalFree (is_segs st));
  ii_segs : forall k s, rev (is_segs st) !! k = Some s -> seg_upto hw k s
}.

Lemma seg_upto_totalFree hw k s : seg_upto hw k s -> 0 <= ss_totalFree s <= P.
Proof.
  intros [[Ht _ _ Hwf _ ->] _ <- _].
  split; [apply sumZ_nonneg, sizes_nonneg|]. apply fl_sum_le; [lia|done].
Qed.

Lemma init_total_bound hw st :
  init_inv hw st -> 0 <= sumZ (map ss_totalFree (is_segs st)) <= pageNum.
Proof.
  intros [_ _ Hm _ Hs].
  destruct (sumZ_map_bound ss_totalFree (is_segs st) P) as [H1 H2]; [|lia].
  intros s Hs0. apply list_elem_of_In, in_rev, list_elem_of_In in Hs0.
  apply list_elem_of_lookup in Hs0 as [k Hk]. eapply seg_upto_totalFree; eauto.
Qed.

(** Where the mask says nothing new between [hw] and [hw'], the segments
    agree with it up to [hw'] as well. *)
Lemma init_inv_advance hw hw' st :
  hw <= hw' -> init_inv hw st ->
  (forall p, hw <= p < hw' -> bm_get sme p <> DMS_SME_FREE) -> init_inv hw' st.
Proof.
  intros Hle [] Hno. split; try done. intros k s Hk.
  destruct (ii_segs0 k s Hk) as [? ? ? Hf]. split; try done.
  intros p Hp. rewrite Hf by done. split; intros [Hb ?]; (split; [done|]); [lia|].
  destruct (decide (p < hw)); [done|]. by destruct (Hno p); [lia|].
Qed.

Lemma init_inv_flags hw st rb use :
  init_inv hw st -> init_inv hw (mkInit (is_segs st) (is_shared st) rb use).
Proof. intros []. by split. Qed.

(** The current segment and where the loop stands in it. *)
Definition in_current (st : initState T) (a : Z) : Prop :=
  0 < Z.of_nat (length (is_segs st)) /\
  (Z.of_nat (length (is_segs st)) - 1) * P <= a <= Z.of_nat (length (is_segs st)) * P.

Lemma init_release_spec st i :
  init_inv (is_releaseBegin st) st ->
  in_current st (is_releaseBegin st) -> in_current st i ->
  is_releaseBegin st <= i ->
  (forall p, is_releaseBegin st <= p < i -> bm_get sme p = DMS_SME_FREE) ->
  exists st', init_release st i = (SDB_OK, st') /\ init_inv i st' /\
    length (is_segs st') = length (is_segs st) /\
    is_releaseBegin st' = is_releaseBegin st /\ is_inUse st' = is_inUse st.
Proof.
  destruct st as [[|cur rest] sh rb use]; unfold in_current; simpl; [lia|].
  intros Hii [_ Hrb] [_ Hi] Hle Hfr. pose proof (init_total_bound _ _ Hii) as Hb.
  destruct Hii as [Esme Epos Hmax Htot Hsegs]; simpl in *.
  pose proof (geo_ok_pages _ Hgeo). unfold DMS_MAX_PG in *.
  destruct (Hsegs (length rest) cur) as [Hi0 Hs0 Ht0 Hf0].
  { apply lookup_snoc_Some. right. by rewrite length_rev. }
  unfold init_release. simpl. rewrite (u16_id (i - rb)), (u32_id (i - rb)) by lia.
  destruct (seg_releasePages cur sh rb (i - rb) false) as [[rc1 s1] sh1] eqn:E.
  apply seg_releasePages_spec in E; [|done|lia].
  destruct E as (Hi1&Es1&Et1&Efp&Hpost).
  destruct Hpost as [(->&_&_&_&Hfree&Htf&Esme1&Etot)|(->&_&_&Hwhy)].
  2: { exfalso. destruct Hwhy as [?|[?|(p&Hp&Hfp)]]; [lia|lia|].
       unfold in_run in Hp. apply Hf0 in Hfp; lia. }
  assert (seg_upto i (length rest) s1) as Hup.
  { split; [done|congruence|congruence|]. intros p Hp.
    rewrite Hfree, Hf0 by done. unfold in_run. split.
    - intros [[? ?]|?]; (split; [|lia]); [done|apply Hfr; lia].
    - intros [? ?]. destruct (decide (p < rb)); [by left|right; lia]. }
  simpl. eexists. split; [done|]. simpl. split_and!; try done.
  split; simpl; try done; try congruence.
  - rewrite Etot, Htot. unfold atomic_add. rewrite u32_id; lia.
  - intros k s Hk. apply lookup_snoc_Some in Hk as [[Hlt Hk]|[-> <-]].
    2: { by rewrite length_rev. }
    rewrite length_rev in Hlt.
    destruct (Hsegs k s) as [? ? ? Hfk]; [apply lookup_snoc_Some; rewrite length_rev; by left|].
    split; try done. intros p Hp. rewrite Hfk by done.
    split; intros [? ?]; (split; [done|nia]).
Qed.

(** Inside a segment, having seen the pages before [i]. *)
Definition open_inv (i : Z) (st : initState T) : Prop :=
  in_current st i /\
  if is_inUse st then init_inv i st
  else init_inv (is_releaseBegin st) st /\ in_current st (is_releaseBegin st) /\
       is_releaseBegin st <= i /\
       forall p, is_releaseBegin st <= p < i -> bm_get sme p = DMS_SME_FREE.

Definition loop_inv (i : Z) (st : initState T) : Prop :=
  (i = 0 /\ st = mkInit [] (mkShared sme 0 0) 0 false) \/
  (0 < i /\ open_inv i st /\ (Z.of_nat (length (is_segs st)) - 1) * P < i /\
   (is_inUse st = true <-> bm_get sme (i - 1) <> DMS_SME_FREE)).

(** Flushing the run that is being collected. *)
Lemma open_release i st :
  open_inv i st -> is_inUse st = false ->
  exists st', init_release st i = (SDB_OK, st') /\ init_inv i st' /\
    length (is_segs st') = length (is_segs st) /\ in_current st' i /\
    is_inUse st' = false.
Proof.
  intros [Hc Ho] Eu. rewrite Eu in Ho. destruct Ho as (Hii&Hrb&Hle&Hfr).
  destruct (init_release_spec st i Hii Hrb Hc Hle Hfr) as (st'&?&?&Hlen&?&Eu').
  exists st'. unfold in_current in *. rewrite Hlen, Eu'. done.
Qed.

Lemma init_inv_newspace i st :
  init_inv i st -> i = Z.of_nat (length (is_segs st)) * P -> i < pageNum ->
  open_inv i (mkInit (dmsSegmentSpace_new i P :: is_segs st) (is_shared st) i false).
Proof.
  intros [Esme Epos Hmax Htot Hsegs] Hi Hlt. pose proof (geo_ok_pages _ Hgeo).
  unfold open_inv, in_current. simpl.
  assert ((Z.of_nat (length (is_segs st)) + 1) * P <= pageNum) as Hroom.
  { pose proof (Z.div_mod pageNum P ltac:(lia)) as Hdm. rewrite Hmul in Hdm.
    assert (Z.of_nat (length (is_segs st)) < pageNum / P) by nia. nia. }
  assert (0 <= i) by nia.
  pose proof Hnum as Hn. unfold DMS_MAX_PG in Hn. split_and!; try lia.
  split; simpl; try done; [lia|].
  intros k s [[Hk Hs]|[-> <-]]%lookup_snoc_Some; [by apply Hsegs|].
  rewrite length_rev. split; simpl; [apply seg_inv_new; lia|done|done|].
  intros p Hp. unfold seg_free. simpl. split; [done|lia].
Qed.

Lemma init_enter_spec i st :
  loop_inv i st -> 0 <= i < pageNum ->
  exists st',
    (if 0 =? Z.land i (Z.shiftl 1 (geo_segmentPagesSquare geo) - 1)
     then init_newspace (fun _ => true) geo i st else (SDB_OK, st)) = (SDB_OK, st') /\
    open_inv i st' /\ i < Z.of_nat (length (is_segs st')) * P.
Proof.
  intros Hl Hi. pose proof (geo_ok_pages _ Hgeo) as HP.
  assert (Z.land i (Z.shiftl 1 (geo_segmentPagesSquare geo) - 1) = i mod P) as ->.
  { rewrite land_ones_mod by apply Hgeo. by rewrite (go_pages _ Hgeo). }
  unfold init_newspace. rewrite (u16_id P) by lia.
  destruct Hl as [[-> ->]|(Hpos&Ho&Hcur&Huse)].
  - rewrite Z.mod_0_l by lia. simpl. eexists. split; [done|].
    assert (init_inv 0 (mkInit [] (mkShared sme 0 0) 0 false)) as H00
      by (split; simpl; done || lia).
    split; [|simpl; lia]. by apply (init_inv_newspace 0) in H00; [|simpl; lia|lia].
  - destruct Ho as [[Hlen Hin] Ho].
    pose proof (Z.div_mod i P ltac:(lia)) as Hdm.
    pose proof (Z.mod_pos_bound i P ltac:(lia)) as Hmb.
    destruct (Z.eqb_spec 0 (i mod P)) as [E0|E0].
    + assert (i = Z.of_nat (length (is_segs st)) * P) as Ei.
      { assert (Z.of_nat (length (is_segs st)) = i / P) by nia. nia. }
      assert (open_inv i st) as Ho' by (split; [by split|done]).
      destruct (is_segs st) as [|cur rest] eqn:Esegs; [done|].
      destruct (is_inUse st) eqn:Eu.
      * simpl. eexists. split; [done|]. rewrite <- Esegs in *.
        split; [apply init_inv_newspace; done || lia|simpl; lia].
      * destruct (open_release i st Ho' Eu) as (st'&->&Hii&El&_&_).
        simpl. eexists. split; [done|]. rewrite Esegs in El.
        split; [apply init_inv_newspace; [done|by rewrite El|lia]|].
        simpl. rewrite El. simpl in *. lia.
    + exists st. split_and!; [done|by split|].
      assert (i <> Z.of_nat (length (is_segs st)) * P); [|lia].
      intros ->. by rewrite Z.mod_mul in E0 by lia.
Qed.

Lemma init_body_spec i st :
  loop_inv i st -> 0 <= i < pageNum ->
  exists st', init_body (fun _ => true) geo i st = (SDB_OK, st') /\
    loop_inv (i + 1) st'.
Proof.
  intros Hl Hi. destruct (init_enter_spec i st Hl Hi) as (s1&E1&Ho&Hlt).
  unfold init_body. rewrite E1. change (negb (SDB_OK =? 0)) with false.
  cbv beta iota zeta. clear E1 Hl st.
  assert (sh_SME (is_shared s1) = sme) as ->.
  { destruct Ho as [_ Ho]. destruct (is_inUse s1); [by destruct Ho|by destruct Ho as [[] _]]. }
  replace (i + 1 - 1) with i by lia. unfold loop_inv.
  replace (i + 1 - 1) with i by lia.
  pose proof Ho as [[Hlen Hin] Hbr].
  destruct (is_inUse s1) eqn:Eu; destruct (Z.eqb_spec DMS_SME_FREE (bm_get sme i)) as [Eb|Eb];
    simpl.
  - eexists. split; [done|]. right. simpl. split_and!; try lia; try (split; congruence).
    unfold open_inv, in_current. simpl. split; [lia|]. split_and!; try lia; [by apply init_inv_flags|].
    intros p Hp. by replace p with i by lia.
  - exists s1. split; [done|]. right. split_and!; try lia; try (split; congruence).
    unfold open_inv, in_current. rewrite Eu. split; [lia|].
    apply (init_inv_advance i); [lia|done|].
    intros p Hp. by replace p with i by lia.
  - exists s1. split; [done|]. right. destruct Hbr as (?&?&?&Hfr).
    split_and!; try lia; try (split; congruence).
    unfold open_inv. rewrite Eu. split; [unfold in_current; lia|]. split_and!; try done; [lia|].
    intros p Hp. destruct (decide (p = i)) as [->|]; [done|apply Hfr; lia].
  - destruct (open_release i s1 Ho Eu) as (st'&->&Hii&El&_&_). simpl.
    eexists. split; [done|]. right. simpl. rewrite El.
    split_and!; try lia; try (split; congruence).
    unfold open_inv, in_current. simpl. rewrite El. split; [lia|].
    apply (init_inv_advance i); [lia| |].
    + by apply init_inv_flags.
    + intros p Hp. by replace p with i by lia.
Qed.

Lemma init_loop_spec n : forall i st,
  loop_inv i st -> 0 <= i -> i + Z.of_nat n <= pageNum ->
  exists st', init_loop (fun _ => true) geo n i st = (SDB_OK, i + Z.of_nat n, st') /\
    loop_inv (i + Z.of_nat n) st'.
Proof.
  induction n as [|n IH]; intros i st Hl Hi Hn; simpl init_loop.
  - exists st. by rewrite Z.add_0_r.
  - destruct (init_body_spec i st Hl ltac:(lia)) as (s1&->&Hl1). simpl.
    destruct (IH (i + 1) s1 Hl1 ltac:(lia) ltac:(lia)) as (st'&->&Hl').
    exists st'. by replace (i + Z.of_nat (S n)) with (i + 1 + Z.of_nat n) by lia.
Qed.

Lemma mgr_inv_of_init st :
  init_inv pageNum st -> Z.of_nat (length (is_segs st)) * P = pageNum ->
  mgr_inv (mkMgr (rev (is_segs st)) (is_shared st)).
Proof.
  intros [Esme Epos Hmax Htot Hsegs] Hlen. split; simpl; rewrite ?length_rev, ?Epos.
  - intros k s Hk. rewrite Esme. destruct (Hsegs k s Hk) as [? Hs Ht Hf].
    pose proof (lookup_lt_Some _ _ _ Hk) as Hlt. rewrite length_rev in Hlt.
    split; try done. intros p Hp. rewrite Hs, Ht in Hp. rewrite Hf by lia.
    split; [intros; split; [done|nia]|by intros []].
  - lia.
  - rewrite map_rev. rewrite Htot. clear. induction (map _ _); simpl; [done|].
    rewrite sumZ_app, <- IHl. simpl. lia.
  - lia.
  - lia.
Qed.

(** [init] builds a manager that agrees with the mask it was given. *)
Lemma mgr_init_mask :
  exists m, mgr_init (fun _ => true) geo pageNum sme = (SDB_OK, m) /\ mgr_inv m /\
    sh_SME (sm_shared m) = sme /\ Z.of_nat (length (sm_segments m)) * P = pageNum.
Proof.
  unfold mgr_init. pose proof (geo_ok_pages _ Hgeo) as HP.
  destruct (init_loop_spec (Z.to_nat pageNum) 0 (mkInit [] (mkShared sme 0 0) 0 false))
    as (st&->&Hl); [by left|lia|lia|].
  rewrite Z.add_0_l, Z2Nat.id in * by lia.
  change (negb (SDB_OK =? 0)) with false. cbv beta iota zeta.
  destruct Hl as [[-> ->]|(Hpos&Ho&Hcur&Huse)].
  { simpl. eexists. split; [done|]. split_and!; [|done|done].
    split; simpl; done || lia. }
  pose proof Ho as [[Hlen Hin] Hbr].
  assert (Z.of_nat (length (is_segs st)) * P = pageNum) as Hall.
  { pose proof (Z.div_mod pageNum P ltac:(lia)) as Hdm. rewrite Hmul in Hdm.
    assert (Z.of_nat (length (is_segs st)) = pageNum / P) by nia. nia. }
  assert (sh_SME (is_shared st) = sme) as ->.
  { destruct (is_inUse st); [by destruct Hbr|by destruct Hbr as [[] _]]. }
  destruct (Z.ltb_spec 0 pageNum); [|lia]. cbv beta iota delta [andb].
  destruct (is_inUse st) eqn:Eu.
  - destruct (Z.eqb_spec DMS_SME_FREE (bm_get sme (pageNum - 1))) as [Eb|];
      [by destruct (proj1 Huse eq_refl)|].
    eexists. split; [done|]. split_and!; [by apply mgr_inv_of_init|by destruct Hbr|].
    simpl. by rewrite length_rev.
  - destruct (Z.eqb_spec DMS_SME_FREE (bm_get sme (pageNum - 1))) as [Eb|Hne];
      [|by assert (false = true) by (apply Huse; congruence)].
    destruct (open_release _ _ Ho Eu) as (st'&->&Hii&El&_&_).
    eexists. split; [done|]. simpl. rewrite length_rev, El.
    split_and!; [apply mgr_inv_of_init; [done|lia]|by destruct Hii|done].
Qed.

End Init.
End Invariant.

(** ** Clients of the space manager

    Callers reserve runs of pages, give them back, and deposit segments in
    any order; [held] is what they have reserved and not given back.  Pages
    are owned at most once, and the mask records exactly the owned pages. *)
Section Clients.
  Context (geo : dmsGeometry).

Definition sme_client : Type := dmsSMEMgr dmsSpaceManagementExtent * list (Z * Z).

Inductive sme_step : sme_client -> sme_client -> Prop :=
  | step_reserve m held n found0 rc found segNum m' :
      0 < n < 65536 ->
      mgr_reservePages m n found0 = (rc, found, segNum, m') ->
      sme_step (m, held)
        (m', if decide (rc = SDB_OK /\ found <> DMS_INVALID_EXTENT)
             then (found, n) :: held else held)
  | step_release m held1 a n held2 rc m' :
      mgr_releasePages geo m a n = (rc, m') ->
      sme_step (m, held1 ++ (a, n) :: held2) (m', held1 ++ held2)
  | step_deposit m held start rc m' :
      0 <= start -> start + geo_segmentPages geo <= DMS_MAX_PG ->
      start mod geo_segmentPages geo = 0 ->
      mgr_depositASegment true geo m start = (rc, m') ->
      sme_step (m, held) (m', held).

(** From the manager of a new storage file with [pageNum] pages. *)
Definition sme_reachable (pageNum : Z) (c : sme_client) : Prop :=
  exists m0, mgr_init (fun _ => true) geo pageNum sme_new = (SDB_OK, m0) /\
             rtc sme_step (m0, []) c.

(** How many held runs cover page [p]. *)
Definition owners (held : list (Z * Z)) (p : Z) : Z :=
  sumZ (map (fun r => if decide (in_run r.1 r.2 p) then 1 else 0) held).

Record client_inv (c : sme_client) : Prop := {
  ci_mgr : mgr_inv geo c.1;
  ci_owners : forall p, 0 <= p -> owners c.2 p = getBitMask (sh_SME (sm_shared c.1)) p;
  ci_held : Forall (fun r => 0 < r.2 < 65536 /\ 0 <= r.1 /\
                             in_one_segment geo c.1 r.1 r.2) c.2;
  ci_free : mgr_totalFree c.1 =
    Z.of_nat (length (sm_segments c.1)) * geo_segmentPages geo - sumZ (map snd c.2)
}.

Context (Hgeo : geo_ok geo).

Lemma owners_app h1 h2 p : owners (h1 ++ h2) p = owners h1 p + owners h2 p.
Proof. unfold owners. by rewrite map_app, sumZ_app. Qed.

Lemma owners_nonneg h p : 0 <= owners h p.
Proof.
  unfold owners. apply sumZ_nonneg. apply Forall_map, Forall_true.
  intros r. simpl. case_decide; lia.
Qed.

Lemma owners_cons r h p :
  owners (r :: h) p = (if decide (in_run r.1 r.2 p) then 1 else 0) + owners h p.
Proof. done. Qed.

Lemma in_one_segment_len (m m' : dmsSMEMgr dmsSpaceManagementExtent) a n :
  (length (sm_segments m) <= length (sm_segments m'))%nat ->
  in_one_segment geo m a n -> in_one_segment geo m' a n.
Proof. intros ? (k&?&?&?). exists k. split_and!; lia. Qed.

Lemma held_mono (m m' : dmsSMEMgr dmsSpaceManagementExtent) held :
  (length (sm_segments m) <= length (sm_segments m'))%nat ->
  Forall (fun r => 0 < r.2 < 65536 /\ 0 <= r.1 /\ in_one_segment geo m r.1 r.2) held ->
  Forall (fun r => 0 < r.2 < 65536 /\ 0 <= r.1 /\ in_one_segment geo m' r.1 r.2) held.
Proof.
  intros Hl Hh. eapply Forall_impl; [done|]. intros r (?&?&?).
  split_and!; try lia. by eapply in_one_segment_len.
Qed.

(** A page that some run owns is not owned twice, and is allocated. *)
Lemma client_held_allocated m h1 a n h2 p :
  client_inv (m, h1 ++ (a, n) :: h2) -> 0 <= a -> in_run a n p ->
  getBitMask (sh_SME (sm_shared m)) p = DMS_SME_ALLOCATED.
Proof.
  intros Hc Ha Hp. assert (0 <= p) by (unfold in_run in Hp; lia).
  pose proof (ci_owners _ Hc p ltac:(lia)) as Ho. simpl in Ho.
  rewrite owners_app, owners_cons in Ho. simpl in Ho.
  rewrite decide_True in Ho by done.
  pose proof (owners_nonneg h1 p). pose proof (owners_nonneg h2 p).
  destruct (bm_get_01 (sh_SME (sm_shared m)) p) as [E|E]; [lia| |exact E].
  simpl in E. lia.
Qed.

Lemma in_one_segment_max (m : dmsSMEMgr dmsSpaceManagementExtent) a n :
  mgr_inv geo m -> 0 < n -> in_one_segment geo m a n -> a < DMS_MAX_PG.
Proof.
  intros Hm Hn (k&?&?&?). pose proof (mi_max _ _ Hm).
  pose proof (geo_ok_pages _ Hgeo). nia.
Qed.

Lemma client_release_ok m h1 a n h2 rc m' :
  client_inv (m, h1 ++ (a, n) :: h2) -> mgr_releasePages geo m a n = (rc, m') ->
  rc = SDB_OK /\ client_inv (m', h1 ++ h2).
Proof.
  intros Hc E. pose proof Hc as [Hm Ho Hh Hf]; simpl in *.
  apply Forall_app in Hh as [Hh1 Hh2].
  apply Forall_cons in Hh2 as [(Hn&Ha&Hseg) Hh2]. simpl in *.
  pose proof (in_one_segment_max _ _ _ Hm (proj1 Hn) Hseg).
  apply (mgr_releasePages_mask geo Hgeo) in E; [|done|lia|lia].
  destruct E as [(->&Hm'&Hlen&_&_&Hbits&Hfree)|(_&_&Hbad)].
  - split; [done|]. split; simpl; [done| |..].
    + intros p Hp. specialize (Ho p Hp). rewrite owners_app, owners_cons in Ho.
      rewrite owners_app. change (getBitMask (sh_SME (sm_shared m')) p)
        with (bm_get (sh_SME (sm_shared m')) p). rewrite Hbits by done.
      simpl in Ho. case_decide; [|change (bm_get (sh_SME (sm_shared m)) p)
        with (getBitMask (sh_SME (sm_shared m)) p); lia].
      pose proof (owners_nonneg h1 p). pose proof (owners_nonneg h2 p).
      destruct (bm_get_01 (sh_SME (sm_shared m)) p) as [E|E]; [lia|..]; simpl in E;
        unfold DMS_SME_FREE; lia.
    + apply Forall_app. split; (eapply held_mono; [|done]); lia.
    + rewrite Hfree, Hf, Hlen, !map_app, !sumZ_app. simpl. lia.
  - destruct (Hbad Hseg) as (p&Hp&Hfr).
    pose proof (client_held_allocated _ _ _ _ _ p Hc Ha Hp) as Hal.
    simpl in Hfr. by rewrite Hal in Hfr.
Qed.

Lemma client_reserve_inv m held n found0 rc found segNum m' :
  client_inv (m, held) -> 0 < n < 65536 ->
  mgr_reservePages m n found0 = (rc, found, segNum, m') ->
  client_inv (m', if decide (rc = SDB_OK /\ found <> DMS_INVALID_EXTENT)
                  then (found, n) :: held else held).
Proof.
  intros Hc Hn E. pose proof Hc as [Hm Ho Hh Hf]; simpl in *.
  apply (mgr_reservePages_mask geo Hgeo) in E; [|done|lia].
  destruct E as (->&Hm'&Hlen&[(Hrun&Hpos&Hbits&Hfree)|(->&Hsme&Hfree&_)]).
  - rewrite decide_True by (split; [done|unfold DMS_INVALID_EXTENT; lia]).
    split; simpl; [done| |..].
    + intros p Hp. rewrite owners_cons. simpl.
      change (getBitMask (sh_SME (sm_shared m')) p)
        with (bm_get (sh_SME (sm_shared m')) p). rewrite Hbits, Ho by done.
      case_decide as Hin; [|done]. destruct Hrun as [_ Hz].
      specialize (Hz p Hin). simpl in Hz. rewrite Hz. done.
    + apply Forall_cons. simpl. destruct Hrun as [Hseg _].
      split; [split_and!; try lia; eapply in_one_segment_len; [|done]; lia|].
      eapply held_mono; [|done]. lia.
    + rewrite Hfree, Hf, Hlen. lia.
  - rewrite decide_False by naive_solver. split; simpl; try done.
    + intros p Hp. rewrite Hsme. by apply Ho.
    + eapply held_mono; [|done]. lia.
    + by rewrite Hfree, Hf, Hlen.
Qed.

Lemma owners_outside m held p :
  client_inv (m, held) -> 0 <= p ->
  Z.of_nat (length (sm_segments m)) * geo_segmentPages geo <= p ->
  getBitMask (sh_SME (sm_shared m)) p = DMS_SME_FREE.
Proof.
  intros [Hm Ho Hh _] Hp Hout; simpl in *. rewrite <- Ho by done.
  clear Ho. pose proof (geo_ok_pages _ Hgeo).
  induction Hh as [|r held (?&?&k&?&?&?) _ IH]; [done|].
  rewrite owners_cons, IH, decide_False by (unfold in_run; nia). done.
Qed.

Lemma client_deposit_inv m held start rc m' :
  client_inv (m, held) -> 0 <= start ->
  start + geo_segmentPages geo <= DMS_MAX_PG ->
  start mod geo_segmentPages geo = 0 ->
  mgr_depositASegment true geo m start = (rc, m') -> client_inv (m', held).
Proof.
  intros Hc Hs Hmx Hmod E. pose proof Hc as [Hm Ho Hh Hf]; simpl in *.
  destruct (decide (start =
    Z.of_nat (length (sm_segments m)) * geo_segmentPages geo)) as [Est|Hne].
  - apply (mgr_depositASegment_mask geo Hgeo) in E; try done.
    2: { intros p Hp. unfold in_run in Hp. eapply owners_outside; [done|lia..]. }
    destruct E as [(_&_&Hm'&Hlen&Hsme&Hfree)|(_&_&?)]; [|done].
    split; simpl; [done| |..].
    + intros p Hp. rewrite Hsme. by apply Ho.
    + eapply held_mono; [|done]. lia.
    + rewrite Hfree, Hf, Hlen. lia.
  - unfold mgr_depositASegment in E. pose proof (geo_ok_pages _ Hgeo).
    rewrite (proj1 (segment_of geo Hgeo start ltac:(lia))) in E.
    destruct (Z.eqb_spec (start / geo_segmentPages geo)
                (Z.of_nat (length (sm_segments m)))) as [Ek|]; simpl in E.
    + pose proof (Z.div_mod start (geo_segmentPages geo) ltac:(lia)). nia.
    + by simplify_eq.
Qed.

Lemma client_inv_reachable pageNum c :
  0 <= pageNum <= DMS_MAX_PG -> pageNum mod geo_segmentPages geo = 0 ->
  sme_reachable pageNum c -> client_inv c.
Proof.
  intros Hn Hmod (m0&E&Hrtc).
  assert (client_inv (m0, [])) as H0.
  { destruct (mgr_init_mask geo Hgeo sme_new pageNum Hn Hmod) as (m&E'&Hm&Hsme&Hlen).
    rewrite E' in E. simplify_eq. split; simpl; [done| |constructor|].
    - intros p Hp. rewrite Hsme. by rewrite getBitMask_new.
    - rewrite (mgr_totalFree_count geo Hgeo m0 Hm), Hsme.
      rewrite (sumZ_seqZ_const _ 0 _ 1); [lia|lia|].
      intros p Hp. simpl. rewrite getBitMask_new; done || lia. }
  remember (m0, []) as c0 eqn:Ec0. clear Ec0 E.
  induction Hrtc as [|c1 c2 c3 Hstep _ IH]; [done|]. apply IH.
  inversion Hstep; subst; eauto using client_reserve_inv, client_deposit_inv.
  by eapply client_release_ok.
Qed.

End Clients.

(** ** Properties *)

(** [init] on any mask builds a manager whose per-segment index agrees
    with the mask bit for bit, leaves the mask as it is, covers every page,
    and counts the free pages. *)
Theorem sme_init_correct geo sme pageNum :
  geo_ok geo -> 0 <= pageNum <= DMS_MAX_PG -> pageNum mod geo_segmentPages geo = 0 ->
  exists m, mgr_init (fun _ => true) geo pageNum sme = (SDB_OK, m) /\
    mgr_inv geo m /\ sh_SME (sm_shared m) = sme /\
    mgr_segmentNum m * geo_segmentPages geo = pageNum /\
    mgr_totalFree m = sumZ (map (fun p => 1 - getBitMask sme p) (seqZ 0 pageNum)).
Proof.
  intros Hg Hn Hmod.
  destruct (mgr_init_mask geo Hg sme pageNum Hn Hmod) as (m&E&Hm&Hs&Hl).
  exists m. split_and!; try done.
  by rewrite (mgr_totalFree_count geo Hg m Hm), Hl, Hs.
Qed.

Definition geo_example : dmsGeometry := mkGeo 4 2.

Lemma geo_example_ok : geo_ok geo_example.
Proof. split; simpl; lia. Qed.

Lemma sme_init_correct_witness :
  exists m, mgr_init (fun _ => true) geo_example 8 (setBitMask sme_new 2) = (SDB_OK, m) /\
    mgr_totalFree m = 7.
Proof.
  destruct (sme_init_correct geo_example (setBitMask sme_new 2) 8)
    as (m&E&_&_&_&Hf).
  - exact geo_example_ok.
  - unfold DMS_MAX_PG. lia.
  - reflexivity.
  - exists m. split; [exact E|]. rewrite Hf. vm_compute. reflexivity.
Defined.

(** C30: [reservePages] never fails: it takes [numPages] consecutive free pages
    of one segment, marks exactly those in the mask and lowers the count, or
    it reports [DMS_INVALID_EXTENT] and changes no page, and then no segment
    has that many consecutive free pages (so the free-position hint never
    hides space). *)
Theorem sme_reserve_correct geo m numPages found0 rc found segNum
    (m' : dmsSMEMgr dmsSpaceManagementExtent) :
  geo_ok geo -> mgr_inv geo m -> 0 < numPages < 65536 ->
  mgr_reservePages m numPages found0 = (rc, found, segNum, m') ->
  rc = SDB_OK /\ mgr_inv geo m' /\
  ((free_run geo m found numPages /\ 0 <= found /\
    (forall p, 0 <= p -> getBitMask (sh_SME (sm_shared m')) p =
       if decide (in_run found numPages p) then DMS_SME_ALLOCATED
       else getBitMask (sh_SME (sm_shared m)) p) /\
    mgr_totalFree m' = mgr_totalFree m - numPages) \/
   (found = DMS_INVALID_EXTENT /\ sh_SME (sm_shared m') = sh_SME (sm_shared m) /\
    mgr_totalFree m' = mgr_totalFree m /\ forall a, ~ free_run geo m a numPages)).
Proof.
  intros Hg Hm Hn E. by apply (mgr_reservePages_mask geo Hg) in E as (?&?&_&?).
Qed.

Definition mgr_example : dmsSMEMgr dmsSpaceManagementExtent :=
  (mgr_init (fun _ => true) geo_example 8 sme_new).2.

Lemma mgr_example_inv : mgr_inv geo_example mgr_example.
Proof.
  destruct (mgr_init_mask geo_example geo_example_ok sme_new 8) as (m&E&Hm&_&_).
  - unfold DMS_MAX_PG. lia.
  - reflexivity.
  - unfold mgr_example. rewrite E. exact Hm.
Qed.

Lemma sme_reserve_correct_witness :
  let r := mgr_reservePages mgr_example 3 0 in
  r.1.1.1 = SDB_OK /\ mgr_inv geo_example r.2 /\ r.1.1.2 = 0 /\
  getBitMask (sh_SME (sm_shared r.2)) 2 = DMS_SME_ALLOCATED.
Proof.
  destruct (mgr_reservePages mgr_example 3 0) as [[[rc f] sn] m'] eqn:E.
  destruct (sme_reserve_correct geo_example mgr_example 3 0 rc f sn m'
              geo_example_ok mgr_example_inv) as (H1&H2&_); [lia|exact E|].
  assert ((rc, f, sn, m') = mgr_reservePages mgr_example 3 0) as E' by (symmetry; exact E).
  vm_compute in E'. injection E' as -> -> -> ->.
  split; [reflexivity|split; [exact H2|split; [reflexivity|vm_compute; reflexivity]]].
Defined.

(** C31: [releasePages] clears the run in the mask and raises the count when
    the run lies in one segment and every page of it is allocated; on any
    other run it returns [SDB_SYS] and changes nothing, so pages are never
    freed twice. *)
Theorem sme_release_correct geo (m : dmsSMEMgr dmsSpaceManagementExtent) start n rc m' :
  geo_ok geo -> mgr_inv geo m -> 0 <= start < DMS_MAX_PG -> 0 < n < 65536 ->
  mgr_releasePages geo m start n = (rc, m') ->
  (rc = SDB_OK /\ mgr_inv geo m' /\ in_one_segment geo m start n /\
   (forall p, in_run start n p ->
      getBitMask (sh_SME (sm_shared m)) p = DMS_SME_ALLOCATED) /\
   (forall p, 0 <= p -> getBitMask (sh_SME (sm_shared m')) p =
      if decide (in_run start n p) then DMS_SME_FREE
      else getBitMask (sh_SME (sm_shared m)) p) /\
   mgr_totalFree m' = mgr_totalFree m + n) \/
  (rc = SDB_SYS /\ m' = m /\
   (in_one_segment geo m start n ->
    exists p, in_run start n p /\ getBitMask (sh_SME (sm_shared m)) p = DMS_SME_FREE)).
Proof.
  intros Hg Hm Hs Hn E. apply (mgr_releasePages_mask geo Hg) in E; try done.
  destruct E as [(?&?&_&?)|?]; [left|right]; done.
Qed.

Lemma sme_release_correct_witness :
  (mgr_releasePages geo_example mgr_example 0 2).1 = SDB_SYS /\
  (mgr_releasePages geo_example mgr_example 0 2).2 = mgr_example.
Proof.
  destruct (mgr_releasePages geo_example mgr_example 0 2) as [rc m'] eqn:E.
  destruct (sme_release_correct geo_example mgr_example 0 2 rc m'
              geo_example_ok mgr_example_inv) as [(_&_&_&Hall&_)|(H1&H2&_)].
  - unfold DMS_MAX_PG. lia.
  - lia.
  - exact E.
  - exfalso. specialize (Hall 0 ltac:(unfold in_run; lia)). vm_compute in Hall. discriminate.
  - simpl. split; [exact H1|exact H2].
Defined.

(** C29: Along any sequence of reservations, releases of held runs and segment
    deposits from a new file, a page is held by at most one run, the mask is
    exactly the set of held pages, and [totalFree] is what is not held. *)
Theorem sme_pages_owned_once geo pageNum m held :
  geo_ok geo -> 0 <= pageNum <= DMS_MAX_PG -> pageNum mod geo_segmentPages geo = 0 ->
  sme_reachable geo pageNum (m, held) ->
  (forall p, 0 <= p -> owners held p = getBitMask (sh_SME (sm_shared m)) p /\
                       owners held p <= 1) /\
  mgr_totalFree m = mgr_segmentNum m * geo_segmentPages geo - sumZ (map snd held).
Proof.
  intros Hg Hn Hmod Hr. apply client_inv_reachable in Hr as [_ Ho _ Hf]; try done.
  simpl in Ho. split; [|done]. intros p Hp. rewrite (Ho p Hp). split; [done|].
  destruct (bm_get_01 (sh_SME (sm_shared m)) p) as [E|E]; [lia|..]; simpl in E; lia.
Qed.

Definition client_example : sme_client :=
  let '(_, f, _, m) := mgr_reservePages mgr_example 3 0 in (m, [(f, 3)]).

Lemma client_example_reachable : sme_reachable geo_example 8 client_example.
Proof.
  exists mgr_example. split; [vm_compute; reflexivity|].
  eapply rtc_l; [|apply rtc_refl].
  pose proof (step_reserve geo_example mgr_example [] 3 0) as Hstep.
  unfold client_example.
  destruct (mgr_reservePages mgr_example 3 0) as [[[rc f] sn] m'] eqn:E.
  specialize (Hstep rc f sn m' ltac:(lia) eq_refl).
  assert ((rc, f, sn, m') = mgr_reservePages mgr_example 3 0) as E' by (symmetry; exact E).
  vm_compute in E'. injection E' as -> -> -> ->. exact Hstep.
Qed.

Lemma sme_pages_owned_once_witness :
  owners client_example.2 1 = 1 /\ mgr_totalFree client_example.1 = 5.
Proof.
  destruct (sme_pages_owned_once geo_example 8 client_example.1 client_example.2)
    as [Ho Hf].
  - exact geo_example_ok.
  - unfold DMS_MAX_PG. lia.
  - reflexivity.
  - exact client_example_reachable.
  - split; [rewrite (proj1 (Ho 1 ltac:(lia)))|rewrite Hf]; vm_compute; reflexivity.
Defined.

