(* ===== verification/DmsRecord.v ===== *)
(** * Record headers: [_dmsRecord], [_dmsDeletedRecord], [_dmsCappedRecord]
    and [_dmsRecordData] (src/src/dms/dmsRecord.hpp)

    The three headers are overlays of the same sixteen bytes: a 32-bit word
    with the flag in its first byte and the size minus one in the other three
    (little-endian build), then three 32-bit words.  [dmsRecord] is that
    layout; the other two classes are views of it, as in the source, where
    their methods cast to [dmsRecord]. *)
From S2P Require Import Prelude.
From S2P Require Import ByteBits.
From S2P Require Import DmsBase.

Definition DMS_RECORD_MAX_SZ : Z := 0x01000000.
Definition DMS_RECORD_USER_MAX_SZ : Z := DMS_RECORD_MAX_SZ - 4096.

Definition UTIL_COMPRESSOR_INVALID : Z := 255.

(** ** [_dmsRecordData]: the pointers are the bytes they point to *)

Record dmsRecordData := mkRecData {
  rd_data : option (list Z);
  rd_len : Z;
  rd_compressType : Z;
  rd_orgData : option (list Z);
  rd_orgLen : Z
}.

Definition rd_reset : dmsRecordData :=
  mkRecData None 0 UTIL_COMPRESSOR_INVALID None 0.

Definition rd_isEmpty (d : dmsRecordData) : bool :=
  match rd_data d with None => true | Some _ => 0 =? rd_len d end.

Definition rd_isCompressed (d : dmsRecordData) : bool :=
  negb (UTIL_COMPRESSOR_INVALID =? rd_compressType d).

Definition rd_setData (d : dmsRecordData) (data : list Z) (len compressType : Z)
    (isOrgData : bool) : dmsRecordData :=
  mkRecData (Some data) len compressType
    (if isOrgData then Some data else rd_orgData d)
    (if isOrgData then len else rd_orgLen d).

Definition rd_setOrgData (d : dmsRecordData) (orgData : list Z) (orgLen : Z)
    : dmsRecordData :=
  mkRecData (rd_data d) (rd_len d) (rd_compressType d) (Some orgData) orgLen.

Definition rd_resetOrgData (d : dmsRecordData) : dmsRecordData :=
  mkRecData (rd_data d) (rd_len d) (rd_compressType d) None 0.

(** ** Flags *)

Definition DMS_RECORD_FLAG_NORMAL : Z := 0x00.
Definition DMS_RECORD_FLAG_OVERFLOWF : Z := 0x01.
Definition DMS_RECORD_FLAG_OVERFLOWT : Z := 0x02.
Definition DMS_RECORD_FLAG_DELETED : Z := 0x04.
Definition DMS_RECORD_FLAG_COMPRESSED : Z := 0x10.
Definition DMS_RECORD_FLAG_DELETING : Z := 0x80.

Definition DMS_RECORD_METADATA_SZ : Z := 16.
Definition DMS_DELETEDRECORD_METADATA_SZ : Z := 16.
Definition DMS_MIN_DELETEDRECORD_SZ : Z := DMS_DELETEDRECORD_METADATA_SZ + 20.
Definition DMS_MIN_RECORD_SZ : Z := DMS_MIN_DELETEDRECORD_SZ.
Definition DMS_MIN_RECORD_DATA_SZ : Z := 5.

(** ** [_dmsRecord]: the header and, from [rec_body] offset 0, the bytes that
    follow it *)

Record dmsRecord := mkRec {
  rec_head : Z;
  rec_myOffset : Z;
  rec_previousOffset : Z;
  rec_nextOffset : Z;
  rec_body : bytes
}.

(** What memory never written reads as. *)
Definition rec_zero : dmsRecord := mkRec 0 0 0 0 ∅.

Definition with_head (r : dmsRecord) (h : Z) : dmsRecord :=
  mkRec h (rec_myOffset r) (rec_previousOffset r) (rec_nextOffset r) (rec_body r).

Definition with_body (r : dmsRecord) (b : bytes) : dmsRecord :=
  mkRec (rec_head r) (rec_myOffset r) (rec_previousOffset r) (rec_nextOffset r) b.

Definition rec_getFlag (r : dmsRecord) : Z := Z.land (rec_head r) 0xFF.
Definition rec_getState (r : dmsRecord) : Z := Z.land (rec_getFlag r) 0x0F.
Definition rec_getAttr (r : dmsRecord) : Z := Z.land (rec_getFlag r) 0xF0.

Definition rec_isOvf (r : dmsRecord) : bool := DMS_RECORD_FLAG_OVERFLOWF =? rec_getState r.
Definition rec_isOvt (r : dmsRecord) : bool := DMS_RECORD_FLAG_OVERFLOWT =? rec_getState r.
Definition rec_isDeleted (r : dmsRecord) : bool := DMS_RECORD_FLAG_DELETED =? rec_getState r.
Definition rec_isNormal (r : dmsRecord) : bool := DMS_RECORD_FLAG_NORMAL =? rec_getState r.
Definition rec_isCompressed (r : dmsRecord) : bool :=
  negb (Z.land (rec_getAttr r) DMS_RECORD_FLAG_COMPRESSED =? 0).
Definition rec_isDeleting (r : dmsRecord) : bool :=
  negb (Z.land (rec_getAttr r) DMS_RECORD_FLAG_DELETING =? 0).

(** The overflow RID: two signed words after the header. *)
Definition rec_getOvfRID (r : dmsRecord) : dmsRecordID :=
  if rec_isOvf r
  then mkRID (i32 (read_u32 (rec_body r) 0)) (i32 (read_u32 (rec_body r) 4))
  else rid_null.

Definition rec_getSize (r : dmsRecord) : Z := u32 (Z.shiftr (rec_head r) 8 + 1).

Definition rec_getCompressType (r : dmsRecord) : Z := byte_at (rec_body r) 3.
Definition rec_getDataLength (r : dmsRecord) : Z :=
  Z.land (read_u32 (rec_body r) 0) 0x00FFFFFF.

(** The bytes [getData] points at, [n] of them. *)
Definition rec_getData (r : dmsRecord) (n : nat) : list Z :=
  if rec_isCompressed r then read_bytes (rec_body r) 4 n
  else read_bytes (rec_body r) 0 n.

Definition rec_setMyOffset (r : dmsRecord) (o : Z) : dmsRecord :=
  mkRec (rec_head r) o (rec_previousOffset r) (rec_nextOffset r) (rec_body r).
Definition rec_setPrevOffset (r : dmsRecord) (o : Z) : dmsRecord :=
  mkRec (rec_head r) (rec_myOffset r) o (rec_nextOffset r) (rec_body r).
Definition rec_setNextOffset (r : dmsRecord) (o : Z) : dmsRecord :=
  mkRec (rec_head r) (rec_myOffset r) (rec_previousOffset r) o (rec_body r).

(** Assigning [_recordHead[0]]. *)
Definition rec_setFlag (r : dmsRecord) (flag : Z) : dmsRecord :=
  with_head r (Z.lor (Z.land (rec_head r) 0xFFFFFF00) (u8 flag)).

Definition rec_setState (r : dmsRecord) (state : Z) : dmsRecord :=
  rec_setFlag r (Z.lor (Z.land state 0x0F) (rec_getAttr r)).
Definition rec_setAttr (r : dmsRecord) (attr : Z) : dmsRecord :=
  rec_setFlag r (Z.lor (rec_getFlag r) (Z.land attr 0xF0)).
Definition rec_unsetAttr (r : dmsRecord) (attr : Z) : dmsRecord :=
  rec_setFlag r (Z.land (rec_getFlag r) (u8 (Z.lnot (Z.land attr 0xF0)))).
Definition rec_resetAttr (r : dmsRecord) : dmsRecord := rec_unsetAttr r 0xF0.

Definition rec_setOvf (r : dmsRecord) : dmsRecord := rec_setState r DMS_RECORD_FLAG_OVERFLOWF.
Definition rec_setOvt (r : dmsRecord) : dmsRecord := rec_setState r DMS_RECORD_FLAG_OVERFLOWT.
Definition rec_setNormal (r : dmsRecord) : dmsRecord := rec_setState r DMS_RECORD_FLAG_NORMAL.
Definition rec_setDeleted (r : dmsRecord) : dmsRecord := rec_setState r DMS_RECORD_FLAG_DELETED.
Definition rec_setCompressed (r : dmsRecord) : dmsRecord :=
  rec_setAttr r DMS_RECORD_FLAG_COMPRESSED.
Definition rec_unsetCompressed (r : dmsRecord) : dmsRecord :=
  rec_unsetAttr r DMS_RECORD_FLAG_COMPRESSED.
Definition rec_setDeleting (r : dmsRecord) : dmsRecord := rec_setAttr r DMS_RECORD_FLAG_DELETING.
Definition rec_unsetDeleting (r : dmsRecord) : dmsRecord :=
  rec_unsetAttr r DMS_RECORD_FLAG_DELETING.

Definition rec_setOvfRID (r : dmsRecord) (rid : dmsRecordID) : dmsRecord :=
  with_body r (write_u32 (write_u32 (rec_body r) 0 (u32 (rid_extent rid)))
                 4 (u32 (rid_offset rid))).

Definition rec_setSize (r : dmsRecord) (size : Z) : dmsRecord :=
  with_head r (u32 (Z.lor (rec_getFlag r) (Z.shiftl (u32 (size - 1)) 8))).

Definition rec_setCompressType (r : dmsRecord) (type : Z) : dmsRecord :=
  with_body r (write_u32 (rec_body r) 0
    (Z.lor (read_u32 (rec_body r) 0) (Z.land (Z.shiftl type 24) 0xFF000000))).

Definition rec_setData (r : dmsRecord) (data : dmsRecordData) : dmsRecord :=
  if rd_isEmpty data then r
  else
    let bytes := take (Z.to_nat (rd_len data)) (default [] (rd_data data)) in
    if rd_isCompressed data then
      let r := rec_setCompressed r in
      let w := Z.lor (rd_len data)
                 (Z.land (u32 (Z.shiftl (rd_compressType data) 24)) 0xFF000000) in
      with_body r (write_bytes (write_u32 (rec_body r) 0 w) 4 bytes)
    else
      let r := rec_unsetCompressed r in
      with_body r (write_bytes (rec_body r) 0 bytes).

(** ** [_dmsDeletedRecord]: [_next] overlays the two links *)

Definition del_getFlag (r : dmsRecord) : Z := rec_getFlag r.
Definition del_isDeleted (r : dmsRecord) : bool := DMS_RECORD_FLAG_DELETED =? del_getFlag r.
Definition del_getNextRID (r : dmsRecord) : dmsRecordID :=
  mkRID (rec_previousOffset r) (rec_nextOffset r).
Definition del_setNextRID (r : dmsRecord) (rid : dmsRecordID) : dmsRecord :=
  mkRec (rec_head r) (rec_myOffset r) (rid_extent rid) (rid_offset rid) (rec_body r).
Definition del_setDeleted (r : dmsRecord) : dmsRecord :=
  rec_setFlag r DMS_RECORD_FLAG_DELETED.

(** ** [_dmsCappedRecord]: [_recNo] and the 64-bit [_logicalID] *)

Definition cap_getRecordNo (r : dmsRecord) : Z := u32 (rec_myOffset r).
Definition cap_setRecordNo (r : dmsRecord) (n : Z) : dmsRecord := rec_setMyOffset r (i32 n).
Definition cap_getLogicalID (r : dmsRecord) : Z :=
  i64 (u32 (rec_previousOffset r) + Z.shiftl (u32 (rec_nextOffset r)) 32).
Definition cap_setLogicalID (r : dmsRecord) (id : Z) : dmsRecord :=
  mkRec (rec_head r) (rec_myOffset r) (i32 id) (i32 (Z.shiftr id 32)) (rec_body r).

(** ** The header word

    [head_view r f s]: the header holds the flag byte [f] and the size [s]. *)
Record head_view (r : dmsRecord) (f s : Z) : Prop := {
  hv_head : rec_head r = (s - 1) * 256 + f;
  hv_flag : 0 <= f < 256;
  hv_size : 1 <= s <= DMS_RECORD_MAX_SZ
}.

(** Every 32-bit header word has a view. *)
Lemma head_view_exists r :
  0 <= rec_head r < 4294967296 ->
  head_view r (rec_head r mod 256) (rec_head r / 256 + 1).
Proof.
  intros Hr. pose proof (Z.div_mod (rec_head r) 256 ltac:(lia)).
  pose proof (Z.mod_pos_bound (rec_head r) 256 ltac:(lia)).
  split; [lia|lia|]. unfold DMS_RECORD_MAX_SZ.
  assert (rec_head r / 256 < 0x01000000) by (apply Z.div_lt_upper_bound; lia).
  assert (0 <= rec_head r / 256) by (apply Z.div_pos; lia). lia.
Qed.

Lemma head_getFlag r f s : head_view r f s -> rec_getFlag r = f.
Proof.
  intros [Hr Hf Hs]. unfold rec_getFlag. rewrite Hr. change 0xFF with (Z.ones 8).
  rewrite Z.land_ones by lia. change (2 ^ 8) with 256.
  rewrite Z.add_comm, Z.mod_add by lia. by apply Z.mod_small.
Qed.

Lemma head_getSize r f s : head_view r f s -> rec_getSize r = s.
Proof.
  intros [Hr Hf Hs]. unfold rec_getSize, DMS_RECORD_MAX_SZ in *. rewrite Hr.
  rewrite shiftr_div by lia. change (2 ^ 8) with 256.
  rewrite Z.div_add_l, Z.div_small by lia. rewrite u32_id; lia.
Qed.

Lemma head_setFlag r f s g :
  head_view r f s -> 0 <= g < 256 -> head_view (rec_setFlag r g) g s.
Proof.
  intros [Hr Hf Hs] Hg. split; [|done|done]. simpl. rewrite Hr, u8_id by lia.
  replace ((s - 1) * 256 + f) with (Z.lor (Z.shiftl (s - 1) 8) f)
    by (rewrite lor_shiftl_add by lia; lia).
  rewrite Z.land_lor_distr_l. change 0xFFFFFF00 with (Z.shiftl (Z.ones 24) 8).
  rewrite <- Z.shiftl_land, Z.land_ones by lia.
  rewrite Z.mod_small by (unfold DMS_RECORD_MAX_SZ in *; lia).
  assert (Z.land f (Z.shiftl (Z.ones 24) 8) = 0) as ->.
  { apply Z.bits_inj'. intros i Hi. rewrite Z.land_spec, Z.bits_0.
    destruct (Z.ltb_spec i 8).
    - rewrite Z.shiftl_spec_low by lia. apply andb_false_r.
    - rewrite (Z.testbit_eqb f) by lia. rewrite Z.div_small; [done|].
      split; [lia|]. apply Z.lt_le_trans with (2 ^ 8); [lia|].
      apply Z.pow_le_mono_r; lia. }
  rewrite Z.lor_0_r. rewrite lor_shiftl_add by lia. lia.
Qed.

Lemma head_setSize r f s n :
  head_view r f s -> 1 <= n <= DMS_RECORD_MAX_SZ -> head_view (rec_setSize r n) f n.
Proof.
  intros Hv Hn. pose proof (head_getFlag _ _ _ Hv) as Ef. destruct Hv as [_ Hf _].
  unfold DMS_RECORD_MAX_SZ in *. split; [|done|done].
  simpl. rewrite Ef, (u32_id (n - 1)) by lia.
  rewrite Z.lor_comm, lor_shiftl_add by lia. rewrite u32_id by lia. lia.
Qed.

(** The size survives in a header that had any flag and size before. *)
Lemma head_setSize_any r n :
  1 <= n <= DMS_RECORD_MAX_SZ -> head_view (rec_setSize r n) (rec_getFlag r) n.
Proof.
  intros Hn. assert (0 <= rec_getFlag r < 256) as Hf.
  { unfold rec_getFlag. change 0xFF with (Z.ones 8). rewrite Z.land_ones by lia.
    apply Z.mod_pos_bound. lia. }
  unfold DMS_RECORD_MAX_SZ in *. split; [|done|done].
  simpl. rewrite (u32_id (n - 1)) by lia.
  rewrite Z.lor_comm, lor_shiftl_add by lia. rewrite u32_id by lia. lia.
Qed.

(** The two nibbles of the flag. *)
Lemma nibble_lo f : 0 <= f < 256 -> Z.land f 0x0F = f mod 16.
Proof. intros. change 0x0F with (Z.ones 4). by rewrite Z.land_ones by lia. Qed.

Lemma nibble_all (P : Z -> Z -> bool) :
  forallb (fun f => forallb (P f) (seqZ 0 256)) (seqZ 0 256) = true ->
  forall f g, 0 <= f < 256 -> 0 <= g < 256 -> P f g = true.
Proof.
  intros H f g Hf Hg. rewrite forallb_forall in H.
  specialize (H f ltac:(apply list_elem_of_In, elem_of_seqZ; lia)).
  rewrite forallb_forall in H. apply H, list_elem_of_In, elem_of_seqZ. lia.
Qed.

(** Flag arithmetic, checked for every pair of bytes. *)
Lemma flag_state_attr f g :
  0 <= f < 256 -> 0 <= g < 256 ->
  let f1 := Z.lor (Z.land g 0x0F) (Z.land f 0xF0) in
  let f2 := Z.lor f (Z.land g 0xF0) in
  let f3 := Z.land f (u8 (Z.lnot (Z.land g 0xF0))) in
  (0 <=? f1) && (f1 <? 256) && (Z.land f1 0x0F =? Z.land g 0x0F) &&
  (Z.land f1 0xF0 =? Z.land f 0xF0) &&
  (0 <=? f2) && (f2 <? 256) && (Z.land f2 0x0F =? Z.land f 0x0F) &&
  (Z.land f2 0xF0 =? Z.lor (Z.land f 0xF0) (Z.land g 0xF0)) &&
  (0 <=? f3) && (f3 <? 256) && (Z.land f3 0x0F =? Z.land f 0x0F) &&
  (Z.land (Z.land f3 0xF0) (Z.land g 0xF0) =? 0) = true.
Proof.
  intros Hf Hg. revert f g Hf Hg. apply nibble_all. vm_compute. reflexivity.
Qed.

Lemma head_state r f s g :
  head_view r f s -> 0 <= g < 256 ->
  let r' := rec_setState r g in
  rec_getState r' = Z.land g 0x0F /\ rec_getAttr r' = rec_getAttr r /\
  rec_getSize r' = s /\ head_view r' (Z.lor (Z.land g 0x0F) (Z.land f 0xF0)) s.
Proof.
  intros Hv Hg r'. subst r'. pose proof (flag_state_attr f g (hv_flag _ _ _ Hv) Hg) as Hb.
  cbv zeta in Hb. repeat apply andb_prop in Hb as [Hb ?].
  assert (head_view (rec_setState r g) (Z.lor (Z.land g 0x0F) (Z.land f 0xF0)) s) as Hv'.
  { unfold rec_setState, rec_getAttr. rewrite (head_getFlag _ _ _ Hv).
    eapply head_setFlag; [done|lia]. }
  unfold rec_getState, rec_getAttr.
  rewrite (head_getFlag _ _ _ Hv'), (head_getFlag _ _ _ Hv), (head_getSize _ _ _ Hv').
  split_and!; try done; lia.
Qed.

Lemma head_attr r f s g :
  head_view r f s -> 0 <= g < 256 ->
  let r' := rec_setAttr r g in
  rec_getAttr r' = Z.lor (rec_getAttr r) (Z.land g 0xF0) /\
  rec_getState r' = rec_getState r /\ rec_getSize r' = s /\
  head_view r' (Z.lor f (Z.land g 0xF0)) s.
Proof.
  intros Hv Hg r'. subst r'. pose proof (flag_state_attr f g (hv_flag _ _ _ Hv) Hg) as Hb.
  cbv zeta in Hb. repeat apply andb_prop in Hb as [Hb ?].
  assert (head_view (rec_setAttr r g) (Z.lor f (Z.land g 0xF0)) s) as Hv'.
  { unfold rec_setAttr. rewrite (head_getFlag _ _ _ Hv).
    eapply head_setFlag; [done|lia]. }
  unfold rec_getState, rec_getAttr.
  rewrite (head_getFlag _ _ _ Hv'), (head_getFlag _ _ _ Hv), (head_getSize _ _ _ Hv').
  split_and!; try done; lia.
Qed.

Lemma head_unattr r f s g :
  head_view r f s -> 0 <= g < 256 ->
  let r' := rec_unsetAttr r g in
  Z.land (rec_getAttr r') (Z.land g 0xF0) = 0 /\
  rec_getState r' = rec_getState r /\ rec_getSize r' = s /\
  head_view r' (Z.land f (u8 (Z.lnot (Z.land g 0xF0)))) s.
Proof.
  intros Hv Hg r'. subst r'. pose proof (flag_state_attr f g (hv_flag _ _ _ Hv) Hg) as Hb.
  cbv zeta in Hb. repeat apply andb_prop in Hb as [Hb ?].
  assert (head_view (rec_unsetAttr r g) (Z.land f (u8 (Z.lnot (Z.land g 0xF0)))) s) as Hv'.
  { unfold rec_unsetAttr. rewrite (head_getFlag _ _ _ Hv).
    eapply head_setFlag; [done|lia]. }
  unfold rec_getState, rec_getAttr.
  rewrite (head_getFlag _ _ _ Hv'), (head_getFlag _ _ _ Hv), (head_getSize _ _ _ Hv').
  split_and!; try done; lia.
Qed.

(** The size, the state nibble and the attribute nibble of a record
    header are independent: each setter stores its own field (the size for
    every length up to 16MB) and leaves the other two as they were. *)
Theorem record_head_independent r size state attr :
  0 <= rec_head r < 4294967296 -> 1 <= size <= DMS_RECORD_MAX_SZ ->
  0 <= state < 256 -> 0 <= attr < 256 ->
  (rec_getSize (rec_setSize r size) = size /\
   rec_getFlag (rec_setSize r size) = rec_getFlag r) /\
  (rec_getState (rec_setState r state) = Z.land state 0x0F /\
   rec_getAttr (rec_setState r state) = rec_getAttr r /\
   rec_getSize (rec_setState r state) = rec_getSize r) /\
  (rec_getAttr (rec_setAttr r attr) = Z.lor (rec_getAttr r) (Z.land attr 0xF0) /\
   rec_getState (rec_setAttr r attr) = rec_getState r /\
   rec_getSize (rec_setAttr r attr) = rec_getSize r) /\
  (Z.land (rec_getAttr (rec_unsetAttr r attr)) (Z.land attr 0xF0) = 0 /\
   rec_getState (rec_unsetAttr r attr) = rec_getState r /\
   rec_getSize (rec_unsetAttr r attr) = rec_getSize r).
Proof.
  intros Hr Hs Hst Hat. pose proof (head_view_exists r Hr) as Hv.
  pose proof (head_setSize _ _ _ _ Hv Hs) as Hv'.
  rewrite (head_getSize _ _ _ Hv), (head_getSize _ _ _ Hv'),
    (head_getFlag _ _ _ Hv), (head_getFlag _ _ _ Hv').
  pose proof (head_state _ _ _ _ Hv Hst) as (?&?&?&_).
  pose proof (head_attr _ _ _ _ Hv Hat) as (?&?&?&_).
  pose proof (head_unattr _ _ _ _ Hv Hat) as (?&?&?&_). done.
Qed.

Lemma record_head_independent_witness :
  rec_getSize (rec_setSize rec_zero DMS_RECORD_MAX_SZ) = DMS_RECORD_MAX_SZ /\
  rec_getState (rec_setState rec_zero DMS_RECORD_FLAG_DELETED) = 4.
Proof.
  destruct (record_head_independent rec_zero DMS_RECORD_MAX_SZ
              DMS_RECORD_FLAG_DELETED DMS_RECORD_FLAG_COMPRESSED)
    as ((H1&_)&(H2&_)&_).
  - simpl. lia.
  - unfold DMS_RECORD_MAX_SZ. lia.
  - unfold DMS_RECORD_FLAG_DELETED. lia.
  - unfold DMS_RECORD_FLAG_COMPRESSED. lia.
  - split; [exact H1|rewrite H2; reflexivity].
Defined.

(** ** Data *)

Definition is_bytes (l : list Z) : Prop := Forall (fun b => 0 <= b < 256) l.

Lemma bytes_u32_range l : is_bytes l -> 0 <= bytes_u32 l < 4294967296.
Proof.
  destruct l as [|b0 [|b1 [|b2 [|b3 l]]]]; simpl; try lia.
  unfold is_bytes. rewrite !Forall_cons. lia.
Qed.

Lemma land_24 x : Z.land x 0x00FFFFFF = x mod 16777216.
Proof. change 0x00FFFFFF with (Z.ones 24). by rewrite Z.land_ones by lia. Qed.

(** The length and compressor type packed in the word before compressed data. *)
Lemma comp_word len type :
  0 <= len < 16777216 -> 0 <= type < 256 ->
  Z.lor len (Z.land (u32 (Z.shiftl type 24)) 0xFF000000) = type * 16777216 + len.
Proof.
  intros Hl Ht. rewrite u32_id by (rewrite shiftl_mul by lia; lia).
  change 0xFF000000 with (Z.shiftl (Z.ones 8) 24).
  rewrite <- Z.shiftl_land, Z.land_ones, Z.mod_small by lia.
  rewrite Z.lor_comm, lor_shiftl_add by lia. lia.
Qed.

(** What a stored record gives back. *)
Definition data_stored (r : dmsRecord) (l : list Z) (compressType : Z) : Prop :=
  rec_getDataLength r = Z.of_nat (length l) /\ rec_getData r (length l) = l /\
  if compressType =? UTIL_COMPRESSOR_INVALID then rec_isCompressed r = false
  else rec_isCompressed r = true /\ rec_getCompressType r = compressType.

Lemma head_compressed r f s :
  head_view r f s -> rec_isCompressed (rec_setCompressed r) = true.
Proof.
  intros Hv. destruct (head_attr r f s DMS_RECORD_FLAG_COMPRESSED Hv) as (Ha&_);
    [unfold DMS_RECORD_FLAG_COMPRESSED; lia|].
  unfold rec_isCompressed, rec_setCompressed. rewrite Ha, Z.land_lor_distr_l.
  change (Z.land (Z.land DMS_RECORD_FLAG_COMPRESSED 0xF0) DMS_RECORD_FLAG_COMPRESSED)
    with 16. apply negb_true_iff, Z.eqb_neq. intros [_ Hz]%Z.lor_eq_0_iff. lia.
Qed.

Lemma head_uncompressed r f s :
  head_view r f s -> rec_isCompressed (rec_unsetCompressed r) = false.
Proof.
  intros Hv. destruct (head_unattr r f s DMS_RECORD_FLAG_COMPRESSED Hv) as (Ha&_);
    [unfold DMS_RECORD_FLAG_COMPRESSED; lia|].
  unfold rec_isCompressed. apply negb_false_iff, Z.eqb_eq. exact Ha.
Qed.

Lemma setData_head r d f s :
  head_view r f s -> exists f', head_view (rec_setData r d) f' s /\
    Z.land f' 0x0F = Z.land f 0x0F.
Proof.
  intros Hv. unfold rec_setData. destruct (rd_isEmpty d); [by exists f|].
  destruct (rd_isCompressed d).
  - destruct (head_attr r f s DMS_RECORD_FLAG_COMPRESSED Hv) as (_&Est&_&Hv');
      [unfold DMS_RECORD_FLAG_COMPRESSED; lia|].
    eexists. split; [destruct Hv'; split; done|].
    unfold rec_getState in Est. by rewrite (head_getFlag _ _ _ Hv'), (head_getFlag _ _ _ Hv) in Est.
  - destruct (head_unattr r f s DMS_RECORD_FLAG_COMPRESSED Hv) as (_&Est&_&Hv');
      [unfold DMS_RECORD_FLAG_COMPRESSED; lia|].
    eexists. split; [destruct Hv'; split; done|].
    unfold rec_getState in Est. by rewrite (head_getFlag _ _ _ Hv'), (head_getFlag _ _ _ Hv) in Est.
Qed.

Lemma setData_plain r f s l :
  head_view r f s -> is_bytes l -> (4 <= length l)%nat ->
  Z.of_nat (length l) < 16777216 -> bytes_u32 l = Z.of_nat (length l) ->
  data_stored (rec_setData r
    (mkRecData (Some l) (Z.of_nat (length l)) UTIL_COMPRESSOR_INVALID
       (Some l) (Z.of_nat (length l)))) l UTIL_COMPRESSOR_INVALID.
Proof.
  intros Hv Hb H4 Hlen Hpre. unfold rec_setData, rd_isEmpty.
  cbn [rd_data rd_len rd_compressType default from_option id].
  destruct (Z.eqb_spec 0 (Z.of_nat (length l))); [lia|].
  change (rd_isCompressed _) with false. cbv iota. unfold id. rewrite Nat2Z.id, firstn_all.
  pose proof (head_uncompressed r f s Hv) as Hu.
  assert (forall b, rec_isCompressed (with_body (rec_unsetCompressed r) b) = false) as Hu'
    by exact (fun _ => Hu).
  unfold data_stored, rec_getDataLength, rec_getData. rewrite Hu'.
  cbn [rec_body with_body].
  rewrite read_write_bytes, (read_u32_bytes _ _ (length l)), read_write_bytes by done.
  rewrite land_24, Hpre, Z.mod_small by lia. done.
Qed.

Lemma setData_compressed r f s l type o :
  head_view r f s -> is_bytes l -> (0 < length l)%nat ->
  Z.of_nat (length l) < 16777216 -> 0 <= type < 255 ->
  data_stored (rec_setData r (mkRecData (Some l) (Z.of_nat (length l)) type o.1 o.2)) l type.
Proof.
  intros Hv Hb H4 Hlen Ht. unfold rec_setData, rd_isEmpty.
  cbn [rd_data rd_len rd_compressType default from_option id].
  destruct (Z.eqb_spec 0 (Z.of_nat (length l))); [lia|].
  assert (rd_isCompressed (mkRecData (Some l) (Z.of_nat (length l)) type o.1 o.2) = true) as ->.
  { apply negb_true_iff, Z.eqb_neq. simpl. unfold UTIL_COMPRESSOR_INVALID. lia. }
  cbv iota. rewrite Nat2Z.id, firstn_all, comp_word by lia.
  pose proof (head_compressed r f s Hv) as Hu.
  assert (forall b, rec_isCompressed (with_body (rec_setCompressed r) b) = true) as Hu'
    by exact (fun _ => Hu).
  unfold data_stored, rec_getDataLength, rec_getData, rec_getCompressType. rewrite Hu'.
  cbn [rec_body with_body].
  set (w := type * 16777216 + Z.of_nat (length l)). set (b := rec_body (rec_setCompressed r)).
  assert (read_u32 (write_bytes (write_u32 b 0 w) 4 l) 0 = w) as Er.
  { rewrite <- (read_write_u32 b 0 w) at 2 by lia. unfold read_u32. f_equal.
    apply read_bytes_ext. intros j Hj. by rewrite byte_at_write_bytes, decide_False by lia. }
  assert (byte_at (write_bytes (write_u32 b 0 w) 4 l) 3 = type) as Et.
  { rewrite byte_at_write_bytes, decide_False by lia. unfold write_u32.
    rewrite byte_at_write_bytes, decide_True by (simpl; lia). simpl.
    change (Z.to_nat (3 - 0)) with 3%nat. simpl. subst w.
    rewrite Z.div_add_l, Z.div_small by lia. rewrite Z.mod_small; lia. }
  rewrite read_write_bytes, Er, Et, land_24. subst w.
  rewrite Z.add_comm, Z.mod_add, Z.mod_small by lia.
  destruct (Z.eqb_spec type UTIL_COMPRESSOR_INVALID); [unfold UTIL_COMPRESSOR_INVALID in *; lia|].
  done.
Qed.

(** Data put in a record is read back: a BSON object (whose first word is
    its length) is stored as it is, compressed data behind a word that holds
    its length and compressor type; either way the length, the bytes and the
    kind come back, and the size and the state of the record stay. *)
Theorem record_data_roundtrip r l type org :
  0 <= rec_head r < 4294967296 -> is_bytes l -> Z.of_nat (length l) < 16777216 ->
  (type = UTIL_COMPRESSOR_INVALID /\ org = (Some l, Z.of_nat (length l)) /\
   (4 <= length l)%nat /\ bytes_u32 l = Z.of_nat (length l) \/
   0 <= type < UTIL_COMPRESSOR_INVALID /\ (0 < length l)%nat) ->
  let r' := rec_setData r (mkRecData (Some l) (Z.of_nat (length l)) type org.1 org.2) in
  data_stored r' l type /\ rec_getSize r' = rec_getSize r /\
  rec_getState r' = rec_getState r.
Proof.
  intros Hr Hb Hlen Hk r'. subst r'. pose proof (head_view_exists r Hr) as Hv.
  split.
  - destruct Hk as [(->&->&H4&Hpre)|(Ht&H0)].
    + by eapply setData_plain.
    + by eapply setData_compressed.
  - destruct (setData_head r (mkRecData (Some l) (Z.of_nat (length l)) type org.1 org.2)
      _ _ Hv) as (f'&Hv'&Hn).
    rewrite (head_getSize _ _ _ Hv), (head_getSize _ _ _ Hv').
    unfold rec_getState. by rewrite (head_getFlag _ _ _ Hv), (head_getFlag _ _ _ Hv').
Qed.

Lemma record_data_roundtrip_witness :
  rec_getData (rec_setData rec_zero
    (mkRecData (Some [5;0;0;0;0]) 5 UTIL_COMPRESSOR_INVALID (Some [5;0;0;0;0]) 5)) 5
  = [5;0;0;0;0].
Proof.
  destruct (record_data_roundtrip rec_zero [5;0;0;0;0] UTIL_COMPRESSOR_INVALID
              (Some [5;0;0;0;0], 5)) as ((_&H1&_)&_).
  - simpl. lia.
  - repeat constructor; lia.
  - simpl. lia.
  - left. repeat split; simpl; lia.
  - exact H1.
Defined.

(** [setCompressType] ors the new type into the old one. *)
Theorem setCompressType_accumulates :
  rec_getCompressType (rec_setCompressType (rec_setCompressType rec_zero 1) 2) = 3.
Proof. vm_compute. reflexivity. Qed.

(** The 64-bit logical identifier of a capped record over the two links. *)
Lemma capped_logicalID_roundtrip r id :
  -9223372036854775808 <= id < 9223372036854775808 ->
  cap_getLogicalID (cap_setLogicalID r id) = id.
Proof.
  intros Hid. unfold cap_getLogicalID, cap_setLogicalID. simpl.
  assert (forall x, u32 (i32 x) = x mod 4294967296) as Hu.
  { intros x. unfold u32, i32. rewrite Zminus_mod_idemp_l.
    by replace (x + 2147483648 - 2147483648) with x by lia. }
  rewrite !Hu, shiftl_mul, shiftr_div by lia. change (2 ^ 32) with 4294967296.
  set (hi := id / 4294967296).
  assert (id = hi * 4294967296 + id mod 4294967296) as Hd
    by (pose proof (Z.div_mod id 4294967296 ltac:(lia)); subst hi; lia).
  assert (-2147483648 <= hi < 2147483648).
  { subst hi. split; [apply Z.div_le_lower_bound; lia|apply Z.div_lt_upper_bound; lia]. }
  unfold i64. destruct (decide (0 <= hi)).
  - rewrite (Z.mod_small hi) by lia. rewrite Z.mod_small; lia.
  - rewrite <- (Z.mod_add hi 1 4294967296) by lia. rewrite (Z.mod_small (hi + _)) by lia.
    rewrite <- (Z.mod_add _ (-1) 18446744073709551616) by lia. rewrite Z.mod_small; lia.
Qed.
