(* ===== verification/DmsDirtyList.v ===== *)
(** * Dirty segments: [_dmsDirtyList] (src/src/dms/dmsBlockData.hpp,
    src/src/dms/dmsBlockData.cpp)

    One bit per data segment, a range that encloses the set bits, and a flag
    that stands for "all".  [nextDirtyPos] and [dirtyNumber] skip whole zero
    bytes; the theorems say that the skipping is not observable. *)
From S2P Require Import Prelude.
From S2P Require Import ByteBits.
From S2P Require Import OssBase.

Record dmsDirtyList := mkDirty {
  dl_data : bytes;
  dl_capacity : Z;
  dl_size : Z;
  dl_fullDirty : bool;
  dl_dirtyBegin : Z;
  dl_dirtyEnd : Z
}.

Definition DIRTY_BEGIN_NONE : Z := 0x7FFFFFFF.

Definition dirty_new : dmsDirtyList := mkDirty ∅ 0 0 false DIRTY_BEGIN_NONE 0.

Definition dirty_destory (t : dmsDirtyList) : dmsDirtyList := dirty_new.

Fixpoint clean_loop (d : bytes) (i : Z) (n : nat) : bytes :=
  match n with
  | O => d
  | S n =>
      clean_loop (if negb (byte_at d i =? 0) then <[i := 0]> d else d) (i + 1) n
  end.

Definition dirty_cleanAll (t : dmsDirtyList) : dmsDirtyList :=
  let arrayNum := Z.shiftr (u32 (dl_size t + 7)) 3 in
  mkDirty (clean_loop (dl_data t) 0 (Z.to_nat arrayNum))
    (dl_capacity t) (dl_size t) false DIRTY_BEGIN_NONE 0.

(** [alloc]: whether the [malloc] succeeds. *)
Definition dirty_init (alloc : bool) (t : dmsDirtyList) (capacity : Z)
    : Z * dmsDirtyList :=
  if capacity <=? dl_capacity t then (SDB_OK, dirty_cleanAll t)
  else
    let t := dirty_destory t in
    let arrayNum := Z.shiftr (u32 (capacity + 7)) 3 in
    if negb alloc then (SDB_OOM, t)
    else (SDB_OK,
          mkDirty ∅ (u32 (Z.shiftl arrayNum 3)) (dl_size t) (dl_fullDirty t)
            (dl_dirtyBegin t) (dl_dirtyEnd t)).

Definition dirty_setSize (t : dmsDirtyList) (size : Z) : dmsDirtyList :=
  mkDirty (dl_data t) (dl_capacity t)
    (if size <=? dl_capacity t then size else dl_capacity t)
    (dl_fullDirty t) (dl_dirtyBegin t) (dl_dirtyEnd t).

Definition dirty_setDirty (t : dmsDirtyList) (pos : Z) : dmsDirtyList :=
  mkDirty (msb_set (dl_data t) pos) (dl_capacity t) (dl_size t) (dl_fullDirty t)
    (atomic_swapLesserThan (dl_dirtyBegin t) pos)
    (atomic_swapGreaterThan (dl_dirtyEnd t) pos).

Definition dirty_cleanDirty (t : dmsDirtyList) (pos : Z) : dmsDirtyList :=
  mkDirty (msb_clear (dl_data t) pos) (dl_capacity t) (dl_size t) (dl_fullDirty t)
    (dl_dirtyBegin t) (dl_dirtyEnd t).

Definition dirty_isDirty (t : dmsDirtyList) (pos : Z) : bool :=
  if dl_fullDirty t then true else negb (msb_get (dl_data t) pos =? 0).

Definition dirty_setFullDirty (t : dmsDirtyList) : dmsDirtyList :=
  mkDirty (dl_data t) (dl_capacity t) (dl_size t) true
    (dl_dirtyBegin t) (dl_dirtyEnd t).

(** The loop of [nextDirtyPos]: the position found (-1: none) and [fromPos].
    Every turn moves [fromPos] forward, so [size - fromPos] turns are enough. *)
Fixpoint next_loop (fuel : nat) (t : dmsDirtyList) (fromPos : Z) : Z * Z :=
  match fuel with
  | O => (-1, fromPos)
  | S fuel =>
      if fromPos <? dl_size t then
        if negb (dl_fullDirty t) && (0 =? Z.land fromPos 7)
           && (0 =? byte_at (dl_data t) (Z.shiftr fromPos 3))
        then next_loop fuel t (u32 (fromPos + 8))
        else if negb (dirty_isDirty t fromPos)
        then next_loop fuel t (u32 (fromPos + 1))
        else (i32 fromPos, u32 (fromPos + 1))
      else (-1, fromPos)
  end.

Definition dirty_nextDirtyPos (t : dmsDirtyList) (fromPos : Z) : Z * Z :=
  next_loop (Z.to_nat (dl_size t - fromPos)) t fromPos.

Fixpoint number_loop (fuel : nat) (t : dmsDirtyList) (beginPos endPos dirtyNum : Z) : Z :=
  match fuel with
  | O => dirtyNum
  | S fuel =>
      if beginPos <? endPos then
        if (0 =? Z.land beginPos 7)
           && (0 =? byte_at (dl_data t) (Z.shiftr beginPos 3))
        then number_loop fuel t (u32 (beginPos + 8)) endPos dirtyNum
        else number_loop fuel t (u32 (beginPos + 1)) endPos
               (if dirty_isDirty t beginPos then u32 (dirtyNum + 1) else dirtyNum)
      else dirtyNum
  end.

Definition dirty_dirtyNumber (t : dmsDirtyList) : Z :=
  if dl_fullDirty t then dl_size t
  else
    let beginPos := dl_dirtyBegin t in
    let endPos := u32 (dl_dirtyEnd t + 1) in
    number_loop (Z.to_nat (endPos - beginPos)) t beginPos endPos 0.

Definition dirty_dirtyGap (t : dmsDirtyList) : Z :=
  if dl_fullDirty t then dl_size t
  else if dl_dirtyEnd t <? dl_dirtyBegin t then 0
  else u32 (dl_dirtyEnd t - dl_dirtyBegin t + 1).

(** ** Invariant: the set bits are in range and inside [begin, end] *)

Record dirty_inv (t : dmsDirtyList) : Prop := {
  di_size : 0 <= dl_size t <= dl_capacity t;
  di_cap : dl_capacity t < DIRTY_BEGIN_NONE;
  di_range : 0 <= dl_dirtyBegin t <= DIRTY_BEGIN_NONE /\
             0 <= dl_dirtyEnd t < Z.max 1 (dl_size t);
  di_bits : forall p, 0 <= p -> msb_get (dl_data t) p = 1 ->
    dl_dirtyBegin t <= p <= dl_dirtyEnd t /\ p < dl_size t
}.

Lemma zero_byte d p :
  0 <= p -> Z.land p 7 = 0 -> byte_at d (Z.shiftr p 3) = 0 ->
  forall q, p <= q < p + 8 -> msb_get d q = 0.
Proof.
  intros Hp Hal Hz q Hq. destruct (bitnum_split p Hp) as (E1&E2&?&?).
  rewrite msb_get_testbit by lia. rewrite E1 in Hz. rewrite E2 in Hal.
  replace (q / 8) with (p / 8); [by rewrite Hz, Z.testbit_0_l|].
  apply (Z.div_unique q 8 (p / 8) (q - p)); lia.
Qed.

Lemma isDirty_bit t p :
  0 <= p -> dl_fullDirty t = false -> dirty_isDirty t p = (msb_get (dl_data t) p =? 1).
Proof.
  intros Hp Hf. unfold dirty_isDirty. rewrite Hf.
  by destruct (msb_get_01 (dl_data t) p Hp) as [-> | ->].
Qed.

Lemma clean_loop_byte n : forall d i j,
  byte_at (clean_loop d i n) j =
  if decide (i <= j < i + Z.of_nat n) then 0 else byte_at d j.
Proof.
  induction n as [|n IH]; intros d i j; simpl; [by rewrite decide_False by lia|].
  rewrite IH. destruct (Z.eqb_spec (byte_at d i) 0) as [E|E]; simpl.
  - repeat case_decide; try lia; try done. by replace j with i by lia.
  - rewrite byte_at_insert. repeat case_decide; try lia; done.
Qed.

(** *** Every operation keeps the invariant *)

Lemma dirty_inv_new : dirty_inv dirty_new.
Proof.
  split; simpl; try lia; [unfold DIRTY_BEGIN_NONE; lia..|].
  intros p Hp. rewrite msb_get_testbit by lia. by rewrite Z.testbit_0_l.
Qed.

Lemma dirty_inv_setDirty t p :
  dirty_inv t -> 0 <= p < dl_size t -> dirty_inv (dirty_setDirty t p).
Proof.
  intros [] Hp. split; simpl; try done;
    rewrite atomic_swapLesserThan_min, atomic_swapGreaterThan_max; [lia|].
  intros q Hq. rewrite msb_get_set by lia.
  case_decide; [lia|]. intros Hb. specialize (di_bits0 q Hq Hb). lia.
Qed.

Lemma dirty_inv_cleanDirty t p :
  dirty_inv t -> 0 <= p -> dirty_inv (dirty_cleanDirty t p).
Proof.
  intros [] Hp. split; simpl; try done.
  intros q Hq. rewrite msb_get_clear by lia. case_decide; [done|]. by apply di_bits0.
Qed.

Lemma dirty_inv_grow t n :
  dirty_inv t -> dl_size t <= n -> dirty_inv (dirty_setSize t n).
Proof.
  intros [] Hn. unfold dirty_setSize. zcase; split; simpl; try lia.
  all: intros q Hq Hb; specialize (di_bits0 q Hq Hb); lia.
Qed.

Lemma dirty_inv_full t : dirty_inv t -> dirty_inv (dirty_setFullDirty t).
Proof. intros []. by split. Qed.

Lemma cleanAll_bits t p :
  dirty_inv t -> 0 <= p -> msb_get (dl_data (dirty_cleanAll t)) p = 0.
Proof.
  intros [Hs Hc Hr Hb] Hp. unfold DIRTY_BEGIN_NONE in Hc. simpl.
  rewrite u32_id, shiftr_div by lia. change (2 ^ 3) with 8.
  assert (0 <= (dl_size t + 7) / 8) by (apply Z.div_pos; lia).
  rewrite msb_get_testbit by lia. rewrite clean_loop_byte, Z2Nat.id by lia.
  assert (0 <= p / 8) by (apply Z.div_pos; lia).
  case_decide as Hd; [by rewrite Z.testbit_0_l|].
  destruct (msb_get_01 (dl_data t) p Hp) as [E|E].
  - by rewrite msb_get_testbit in E by lia.
  - destruct (Hb p Hp E) as [_ Hlt].
    assert (p / 8 < (dl_size t + 7) / 8); [|lia].
    apply Z.div_lt_upper_bound; [lia|].
    pose proof (Z.div_mod (dl_size t + 7) 8 ltac:(lia)).
    pose proof (Z.mod_pos_bound (dl_size t + 7) 8 ltac:(lia)). lia.
Qed.

Lemma dirty_inv_cleanAll t : dirty_inv t -> dirty_inv (dirty_cleanAll t).
Proof.
  intros Hi. pose proof Hi as [].
  split; simpl; [lia|lia|unfold DIRTY_BEGIN_NONE; lia|].
  intros p Hp Hb. pose proof (cleanAll_bits t p Hi Hp) as E. simpl in E. lia.
Qed.

(** ** The skipping loops *)

Lemma next_loop_spec fuel : forall t from pos from',
  dirty_inv t -> 0 <= from -> dl_size t <= from + Z.of_nat fuel ->
  from < DIRTY_BEGIN_NONE + 8 ->
  next_loop fuel t from = (pos, from') ->
  (pos = -1 /\ forall q, from <= q < dl_size t -> dirty_isDirty t q = false) \/
  (from <= pos < dl_size t /\ dirty_isDirty t pos = true /\ from' = pos + 1 /\
   forall q, from <= q < pos -> dirty_isDirty t q = false).
Proof.
  induction fuel as [|fuel IH]; intros t from pos from' Hi Hf Hfuel Hb; simpl.
  { intros [= <- <-]. left. split; [done|lia]. }
  pose proof Hi as [Hs Hc _ _]. unfold DIRTY_BEGIN_NONE in *.
  destruct (Z.ltb_spec from (dl_size t)); [|intros [= <- <-]; left; split; [done|lia]].
  destruct (negb (dl_fullDirty t) && (0 =? Z.land from 7)
    && (0 =? byte_at (dl_data t) (Z.shiftr from 3))) eqn:E.
  - apply andb_prop in E as [[Efull E7]%andb_prop E0].
    apply negb_true_iff in Efull. apply Z.eqb_eq in E7, E0.
    assert (forall q, from <= q < from + 8 -> dirty_isDirty t q = false) as Hz.
    { intros q Hq. rewrite isDirty_bit by (done || lia).
      by rewrite (zero_byte (dl_data t) from) by (done || lia). }
    rewrite u32_id by lia. intros Hl. apply IH in Hl; [|done|lia..].
    destruct Hl as [[-> Hq]|(?&?&?&Hq)]; [left|right; split_and!; try done; try lia].
    + split; [done|]. intros q Hr. destruct (decide (q < from + 8)); [apply Hz|apply Hq]; lia.
    + intros q Hr. destruct (decide (q < from + 8)); [apply Hz|apply Hq]; lia.
  - destruct (dirty_isDirty t from) eqn:Ed; simpl.
    + rewrite u32_id, i32_id by lia. intros [= <- <-]. right. split_and!; try done; lia.
    + rewrite u32_id by lia. intros Hl. apply IH in Hl; [|done|lia..].
      destruct Hl as [[-> Hq]|(?&?&?&Hq)]; [left|right; split_and!; try done; try lia].
      * split; [done|]. intros q Hr. destruct (decide (q = from)) as [->|]; [done|apply Hq; lia].
      * intros q Hr. destruct (decide (q = from)) as [->|]; [done|apply Hq; lia].
Qed.

Definition dirty_count (t : dmsDirtyList) (a n : Z) : Z :=
  sumZ (map (fun p => if dirty_isDirty t p then 1 else 0) (seqZ a n)).

Lemma dirty_count_app t a n m :
  0 <= n -> 0 <= m -> dirty_count t a (n + m) = dirty_count t a n + dirty_count t (a + n) m.
Proof. intros. unfold dirty_count. by rewrite seqZ_app, map_app, sumZ_app by lia. Qed.

Lemma dirty_count_none t a n :
  0 <= n -> (forall q, a <= q < a + n -> dirty_isDirty t q = false) -> dirty_count t a n = 0.
Proof.
  intros Hn Hq. unfold dirty_count.
  assert (forall l, (forall q, q ∈ l -> dirty_isDirty t q = false) ->
    sumZ (map (fun p => if dirty_isDirty t p then 1 else 0) l) = 0) as Hall.
  { induction l as [|x l IH]; intros Hl; simpl; [done|].
    rewrite (Hl x) by left. rewrite IH; [done|]. intros q Hin. apply Hl. by right. }
  apply Hall. intros q Hin%elem_of_seqZ. apply Hq. lia.
Qed.

Lemma dirty_count_range t a n : 0 <= n -> 0 <= dirty_count t a n <= n.
Proof.
  intros Hn. unfold dirty_count.
  destruct (sumZ_map_bound (fun p => if dirty_isDirty t p then 1 else 0) (seqZ a n) 1)
    as [H1 H2]; [intros x _; destruct (dirty_isDirty t x); lia|].
  rewrite length_seqZ in H2. lia.
Qed.

Lemma dirty_count_1 t a : dirty_count t a 1 = if dirty_isDirty t a then 1 else 0.
Proof. unfold dirty_count. rewrite seqZ_cons by lia. simpl. lia. Qed.

Lemma number_loop_spec fuel : forall t b e num,
  dirty_inv t -> dl_fullDirty t = false -> 0 <= b -> 0 <= num <= b ->
  e <= b + Z.of_nat fuel -> 0 <= e <= Z.max 1 (dl_size t) ->
  number_loop fuel t b e num = num + dirty_count t b (Z.max 0 (e - b)).
Proof.
  induction fuel as [|fuel IH]; intros t b e num Hi Hfull Hb Hn Hf He; simpl.
  { rewrite (dirty_count_none t b); [lia|lia|]. intros q Hq. lia. }
  pose proof Hi as [Hs Hc _ _]. unfold DIRTY_BEGIN_NONE in *.
  destruct (Z.ltb_spec b e).
  2: { rewrite Z.max_l by lia. unfold dirty_count. simpl. lia. }
  destruct ((0 =? Z.land b 7) && (0 =? byte_at (dl_data t) (Z.shiftr b 3))) eqn:E.
  - apply andb_prop in E as [E7 E0]. apply Z.eqb_eq in E7, E0.
    assert (forall q, b <= q < b + 8 -> dirty_isDirty t q = false) as Hz.
    { intros q Hq. rewrite isDirty_bit by (done || lia).
      by rewrite (zero_byte (dl_data t) b) by (done || lia). }
    rewrite u32_id, IH by (done || lia). f_equal.
    destruct (decide (e <= b + 8)).
    + rewrite (dirty_count_none t b) by (try lia; intros q Hq; apply Hz; lia).
      by rewrite Z.max_l by lia.
    + rewrite !Z.max_r by lia. replace (e - b) with (8 + (e - (b + 8))) by lia.
      by rewrite dirty_count_app, (dirty_count_none t b 8) by (done || lia).
  - rewrite (u32_id (b + 1)), (u32_id (num + 1)) by lia.
    rewrite (Z.max_r 0 (e - b)) by lia. replace (e - b) with (1 + (e - (b + 1))) by lia.
    rewrite dirty_count_app, dirty_count_1 by lia.
    destruct (dirty_isDirty t b); rewrite IH by (done || lia); rewrite Z.max_r by lia; lia.
Qed.

(** [dirtyNumber] is the number of dirty segments, whatever was marked and
    cleaned since the range was last reset: the range [begin, end] loses none. *)
Theorem dirty_number_exact t :
  dirty_inv t -> dirty_dirtyNumber t = dirty_count t 0 (dl_size t).
Proof.
  intros Hi. pose proof Hi as [Hs Hc [Hr1 Hr2] Hb]. unfold dirty_dirtyNumber.
  unfold DIRTY_BEGIN_NONE in *. destruct (dl_fullDirty t) eqn:Ef.
  - unfold dirty_count. rewrite (sumZ_map_all_1 _ (seqZ 0 (dl_size t))).
    + rewrite length_seqZ. lia.
    + intros p _. unfold dirty_isDirty. by rewrite Ef.
  - rewrite u32_id by lia.
    assert (forall q, 0 <= q -> ~ (dl_dirtyBegin t <= q <= dl_dirtyEnd t /\ q < dl_size t) ->
      dirty_isDirty t q = false) as Hout.
    { intros q Hq Hn. rewrite isDirty_bit by done. apply Z.eqb_neq. naive_solver. }
    rewrite number_loop_spec by (done || lia). rewrite Z.add_0_l.
    destruct (decide (dl_size t = 0)) as [E0|Hne].
    { rewrite E0. rewrite (dirty_count_none t (dl_dirtyBegin t)); [done|lia|].
      intros q Hq. apply Hout; lia. }
    destruct (decide (dl_dirtyEnd t < dl_dirtyBegin t)).
    { rewrite (Z.max_l 0) by lia. symmetry. apply dirty_count_none; [lia|].
      intros q Hq. apply Hout; lia. }
    rewrite Z.max_r by lia.
    replace (dl_size t) with (dl_dirtyBegin t + ((dl_dirtyEnd t + 1 - dl_dirtyBegin t)
      + (dl_size t - (dl_dirtyEnd t + 1)))) by lia.
    rewrite !dirty_count_app, (dirty_count_none t 0),
      (dirty_count_none t _ (dl_size t - _)); rewrite ?Z.add_0_l; try lia;
      intros q Hq; apply Hout; lia.
Qed.

(** ** Properties *)

(** [nextDirtyPos] returns the first dirty segment at or after [fromPos]
    and moves [fromPos] behind it, or -1 when there is none. *)
Theorem dirty_next_first t from pos from' :
  dirty_inv t -> 0 <= from <= dl_size t ->
  dirty_nextDirtyPos t from = (pos, from') ->
  (pos = -1 /\ forall q, from <= q < dl_size t -> dirty_isDirty t q = false) \/
  (from <= pos < dl_size t /\ dirty_isDirty t pos = true /\ from' = pos + 1 /\
   forall q, from <= q < pos -> dirty_isDirty t q = false).
Proof.
  intros Hi Hf E. pose proof (di_cap _ Hi). pose proof (di_size _ Hi).
  eapply next_loop_spec; [done|lia| |lia|exact E]. lia.
Qed.

Definition dirty_example : dmsDirtyList :=
  dirty_setDirty (dirty_setDirty (dirty_setSize (dirty_init true dirty_new 64).2 40) 35) 17.

Lemma dirty_inv_init c :
  0 < c < 1000000 -> dirty_inv (dirty_init true dirty_new c).2.
Proof.
  intros Hc. unfold dirty_init. simpl. zcase; [lia|]. simpl.
  assert (0 <= Z.shiftl (Z.shiftr (u32 (c + 7)) 3) 3 <= c + 7).
  { rewrite u32_id, shiftl_mul, shiftr_div by lia. change (2 ^ 3) with 8.
    pose proof (Z.div_mod (c + 7) 8 ltac:(lia)).
    pose proof (Z.mod_pos_bound (c + 7) 8 ltac:(lia)). lia. }
  unfold DIRTY_BEGIN_NONE. rewrite u32_id by lia. split; simpl; unfold DIRTY_BEGIN_NONE; try lia.
  intros p Hp. rewrite msb_get_testbit by lia. by rewrite Z.testbit_0_l.
Qed.

Lemma dirty_example_inv : dirty_inv dirty_example.
Proof.
  unfold dirty_example. repeat apply dirty_inv_setDirty.
  - apply dirty_inv_grow; [apply dirty_inv_init; lia|]. vm_compute. discriminate.
  - split; [lia|]. vm_compute. reflexivity.
  - split; [lia|]. vm_compute. reflexivity.
Qed.

Lemma dirty_next_first_witness : exists pos from',
  dirty_nextDirtyPos dirty_example 18 = (pos, from') /\ pos = 35 /\ from' = 36.
Proof.
  destruct (dirty_nextDirtyPos dirty_example 18) as [pos from'] eqn:E.
  exists pos, from'. split; [reflexivity|].
  destruct (dirty_next_first dirty_example 18 pos from' dirty_example_inv)
    as [[-> Hn]|(Hp&Hd&->&Hn)].
  - vm_compute. split; discriminate.
  - exact E.
  - exfalso. specialize (Hn 35 ltac:(split; [lia|vm_compute; reflexivity])).
    vm_compute in Hn. discriminate.
  - vm_compute in E. injection E as <- _. split; reflexivity.
Defined.

Lemma dirty_number_exact_witness : dirty_dirtyNumber dirty_example = 2.
Proof. rewrite (dirty_number_exact dirty_example dirty_example_inv). vm_compute. reflexivity. Defined.

(** Marking makes a segment dirty and no other; cleaning a segment or all
    of them does the reverse; the invariant is kept by both, so the range of
    dirty segments always encloses them. *)
Theorem dirty_mark_clean t p q :
  dirty_inv t -> dl_fullDirty t = false -> 0 <= p < dl_size t -> 0 <= q < dl_size t ->
  dirty_isDirty (dirty_setDirty t p) q = (if decide (p = q) then true else dirty_isDirty t q) /\
  dirty_isDirty (dirty_cleanDirty t p) q = (if decide (p = q) then false else dirty_isDirty t q) /\
  dirty_isDirty (dirty_cleanAll t) q = false /\
  dirty_inv (dirty_setDirty t p) /\ dirty_inv (dirty_cleanDirty t p) /\
  dirty_inv (dirty_cleanAll t).
Proof.
  intros Hi Hf Hp Hq. rewrite !isDirty_bit by (done || lia).
  split_and!; auto using dirty_inv_setDirty, dirty_inv_cleanAll.
  - simpl. rewrite msb_get_set by lia. by case_decide.
  - simpl. rewrite msb_get_clear by lia. by case_decide.
  - by rewrite cleanAll_bits by (done || lia).
  - apply dirty_inv_cleanDirty; [done|lia].
Qed.

Lemma dirty_mark_clean_witness :
  dirty_isDirty (dirty_setDirty dirty_example 3) 3 = true /\
  dirty_isDirty (dirty_cleanDirty dirty_example 35) 35 = false.
Proof.
  destruct (dirty_mark_clean dirty_example 3 3 dirty_example_inv) as (H1&_);
    [reflexivity|vm_compute; split; congruence|vm_compute; split; congruence|].
  destruct (dirty_mark_clean dirty_example 35 35 dirty_example_inv) as (_&H2&_);
    [reflexivity|vm_compute; split; congruence|vm_compute; split; congruence|].
  split; [rewrite H1|rewrite H2]; reflexivity.
Defined.
