(* ===== verification/DmsMBContext.v ===== *)
(** * Collection contexts and their lock: [_dmsMBContext]
    (src/src/dms/dmsBlockData.hpp, src/src/dms/dmsBlockData.cpp) over
    [ossSpinSLatch] (src/src/include/ossLatch.hpp, src/src/oss/ossLatch.cpp)

    Sessions lock a collection through their own context.  The four phases of
    [_mbLock] are functions on the shared cells (the latch, the flag and the
    logical identifier of the metadata block) and the context; [mbLock_run]
    runs them in one go, as a session that is alone sees them, and
    [mb_step] interleaves the phases of any number of sessions with arbitrary
    changes of the metadata block. *)
From S2P Require Import Prelude.
From S2P Require Import OssBase.
From S2P Require Import DmsBase.

(** ** The latch: the contract of [ossSLatch]; [None] is waiting *)

Definition SHARED : Z := 0.
Definition EXCLUSIVE : Z := 1.

Record ossSLatch := mkLatch { la_readers : Z; la_writer : bool }.

Definition latch_free : ossSLatch := mkLatch 0 false.

Definition latch_get_shared (l : ossSLatch) : option ossSLatch :=
  if la_writer l then None else Some (mkLatch (la_readers l + 1) false).
Definition latch_get (l : ossSLatch) : option ossSLatch :=
  if la_writer l || (0 <? la_readers l) then None
  else Some (mkLatch (la_readers l) true).
Definition latch_release_shared (l : ossSLatch) : ossSLatch :=
  mkLatch (la_readers l - 1) (la_writer l).
Definition latch_release (l : ossSLatch) : ossSLatch := mkLatch (la_readers l) false.

Definition ossLatch (l : ossSLatch) (mode : Z) : option ossSLatch :=
  if SHARED =? mode then latch_get_shared l else latch_get l.
Definition ossUnlatch (l : ossSLatch) (mode : Z) : ossSLatch :=
  if SHARED =? mode then latch_release_shared l else latch_release l.

(** ** State *)

(** The cells of a collection its contexts share. *)
Record mbShared := mkMbShared {
  ms_latch : ossSLatch;
  ms_flag : Z;
  ms_logicalID : Z
}.

Definition with_latch (s : mbShared) (l : ossSLatch) : mbShared :=
  mkMbShared l (ms_flag s) (ms_logicalID s).

Record dmsMBContext := mkMBContext {
  cx_clLID : Z;
  cx_startLID : Z;
  cx_mbID : Z;
  cx_mbLockType : Z;
  cx_resumeType : Z
}.

Definition ctx_reset : dmsMBContext :=
  mkMBContext DMS_INVALID_CLID DMS_INVALID_CLID DMS_INVALID_MBID (-1) (-1).

Definition with_locks (c : dmsMBContext) (lockType resumeType : Z) : dmsMBContext :=
  mkMBContext (cx_clLID c) (cx_startLID c) (cx_mbID c) lockType resumeType.

Definition valid_mode (t : Z) : bool := (SHARED =? t) || (EXCLUSIVE =? t).

Definition isMBLock (c : dmsMBContext) (lockType : Z) : bool := lockType =? cx_mbLockType c.
Definition isMBLockAny (c : dmsMBContext) : bool := valid_mode (cx_mbLockType c).
Definition canResume (c : dmsMBContext) : bool := valid_mode (cx_resumeType c).

(** ** Operations *)

Definition mbUnlock (s : mbShared) (c : dmsMBContext) : Z * mbShared * dmsMBContext :=
  if valid_mode (cx_mbLockType c)
  then (SDB_OK, with_latch s (ossUnlatch (ms_latch s) (cx_mbLockType c)),
        with_locks c (-1) (cx_mbLockType c))
  else (SDB_OK, s, c).

Definition mb_pause (s : mbShared) (c : dmsMBContext) : Z * mbShared * dmsMBContext :=
  let c := with_locks c (cx_mbLockType c) (cx_mbLockType c) in
  if valid_mode (cx_mbLockType c) then mbUnlock s c else (SDB_OK, s, c).

(** The test before and after the latch is taken. *)
Definition mb_exists (s : mbShared) (c : dmsMBContext) : bool :=
  DMS_IS_MB_INUSE (ms_flag s) && (cx_clLID c =? ms_logicalID s).

(** Phase 1, up to the first test: a return code, or go on. *)
Definition mbl_enter (s : mbShared) (c : dmsMBContext) (lockType : Z)
    : option Z * mbShared * dmsMBContext :=
  if negb (valid_mode lockType) then (Some SDB_INVALIDARG, s, c)
  else if cx_mbLockType c =? lockType then (Some SDB_OK, s, c)
  else if negb (-1 =? cx_mbLockType c) then
    let '(rc, s, c) := mb_pause s c in
    if negb (SDB_OK =? rc) then (Some rc, s, c) else (None, s, c)
  else (None, s, c).

(** Phase 2: the test before the latch. *)
Definition mbl_check (s : mbShared) (c : dmsMBContext) (force : bool) : option Z :=
  if negb force && negb (mb_exists s c) then Some SDB_DMS_NOTEXIST else None.

(** Phase 3: the latch.  Outer [None]: the session waits. *)
Definition mbl_latch (s : mbShared) (lockType : Z) (isTry : bool)
    : option (option Z * mbShared) :=
  match ossLatch (ms_latch s) lockType with
  | Some l => Some (None, with_latch s l)
  | None => if isTry then Some (Some SDB_TIMEOUT, s) else None
  end.

(** Phase 4: the test after the latch. *)
Definition mbl_post (s : mbShared) (c : dmsMBContext) (lockType : Z) (force : bool)
    : Z * mbShared * dmsMBContext :=
  if negb force && negb (mb_exists s c)
  then (SDB_DMS_NOTEXIST, with_latch s (ossUnlatch (ms_latch s) lockType), c)
  else (SDB_OK, s, with_locks c lockType (-1)).

(** [_mbLock] without interference; [None]: it waits for the latch. *)
Definition mbLock_run (s : mbShared) (c : dmsMBContext) (lockType : Z)
    (isTry force : bool) : option (Z * mbShared * dmsMBContext) :=
  match mbl_enter s c lockType with
  | (Some rc, s, c) => Some (rc, s, c)
  | (None, s, c) =>
      match mbl_check s c force with
      | Some rc => Some (rc, s, c)
      | None =>
          match mbl_latch s lockType isTry with
          | None => None
          | Some (Some rc, s) => Some (rc, s, c)
          | Some (None, s) => Some (mbl_post s c lockType force)
          end
      end
  end.

Definition mbLock (s : mbShared) (c : dmsMBContext) (lockType : Z) :=
  mbLock_run s c lockType false false.
Definition mbTryLock (s : mbShared) (c : dmsMBContext) (lockType : Z) (force : bool) :=
  mbLock_run s c lockType true force.

Definition mb_resume (s : mbShared) (c : dmsMBContext)
    : option (Z * mbShared * dmsMBContext) :=
  if valid_mode (cx_resumeType c)
  then mbLock s (with_locks c (cx_mbLockType c) (-1)) (cx_resumeType c)
  else Some (SDB_OK, s, c).

(** ** Sessions *)

Inductive mbPc :=
  | PIdle
  | PCheck (lockType : Z) (isTry force : bool)
  | PLatch (lockType : Z) (isTry force : bool)
  | PPost (lockType : Z) (force : bool).

Record mbThread := mkThread {
  th_ctx : dmsMBContext;
  th_pc : mbPc;
  th_rc : Z
}.

(** A session inside [_mbLock] makes its next move; [None]: it cannot. *)
Definition thread_step (s : mbShared) (th : mbThread) : option (mbShared * mbThread) :=
  let c := th_ctx th in
  match th_pc th with
  | PIdle => None
  | PCheck t isTry force =>
      match mbl_check s c force with
      | Some rc => Some (s, mkThread c PIdle rc)
      | None => Some (s, mkThread c (PLatch t isTry force) (th_rc th))
      end
  | PLatch t isTry force =>
      match mbl_latch s t isTry with
      | None => None
      | Some (Some rc, s) => Some (s, mkThread c PIdle rc)
      | Some (None, s) => Some (s, mkThread c (PPost t force) (th_rc th))
      end
  | PPost t force =>
      let '(rc, s, c) := mbl_post s c t force in Some (s, mkThread c PIdle rc)
  end.

(** A session starts [_mbLock]. *)
Definition thread_call (s : mbShared) (th : mbThread) (lockType : Z)
    (isTry force : bool) : mbShared * mbThread :=
  match mbl_enter s (th_ctx th) lockType with
  | (Some rc, s, c) => (s, mkThread c PIdle rc)
  | (None, s, c) => (s, mkThread c (PCheck lockType isTry force) (th_rc th))
  end.

Definition mb_config : Type := mbShared * list mbThread.

Inductive mb_step : mb_config -> mb_config -> Prop :=
  | ms_call s ths i th t isTry force s' th' :
      ths !! i = Some th -> th_pc th = PIdle ->
      thread_call s th t isTry force = (s', th') ->
      mb_step (s, ths) (s', <[i := th']> ths)
  | ms_run s ths i th s' th' :
      ths !! i = Some th -> thread_step s th = Some (s', th') ->
      mb_step (s, ths) (s', <[i := th']> ths)
  | ms_unlock s ths i th rc s' c' :
      ths !! i = Some th -> th_pc th = PIdle ->
      mbUnlock s (th_ctx th) = (rc, s', c') ->
      mb_step (s, ths) (s', <[i := mkThread c' PIdle rc]> ths)
  | ms_pause s ths i th rc s' c' :
      ths !! i = Some th -> th_pc th = PIdle ->
      mb_pause s (th_ctx th) = (rc, s', c') ->
      mb_step (s, ths) (s', <[i := mkThread c' PIdle rc]> ths)
  | ms_resume s ths i th s' th' :
      ths !! i = Some th -> th_pc th = PIdle -> canResume (th_ctx th) = true ->
      thread_call s
        (mkThread (with_locks (th_ctx th) (cx_mbLockType (th_ctx th)) (-1)) PIdle (th_rc th))
        (cx_resumeType (th_ctx th)) false false = (s', th') ->
      mb_step (s, ths) (s', <[i := th']> ths)
  | ms_metadata s ths flag lid :
      mb_step (s, ths) (mkMbShared (ms_latch s) flag lid, ths).

(** From contexts as [getMBContext] hands them out. *)
Definition fresh_thread (th : mbThread) : Prop :=
  th_pc th = PIdle /\ cx_mbLockType (th_ctx th) = -1.

Definition mb_reachable (cfg : mb_config) : Prop :=
  exists s0 ths0, ms_latch s0 = latch_free /\ Forall fresh_thread ths0 /\
    rtc mb_step (s0, ths0) cfg.

(** ** Invariant: the latch counts its holders *)

(** What a session has of the latch (-1: nothing). *)
Definition th_mode (th : mbThread) : Z :=
  match th_pc th with
  | PPost t _ => t
  | _ => cx_mbLockType (th_ctx th)
  end.

Definition holders (ths : list mbThread) (t : Z) : Z :=
  sumZ (map (fun th => if t =? th_mode th then 1 else 0) ths).

Record thread_ok (th : mbThread) : Prop := {
  to_lock : cx_mbLockType (th_ctx th) = -1 \/ valid_mode (cx_mbLockType (th_ctx th)) = true;
  to_busy : th_pc th <> PIdle -> cx_mbLockType (th_ctx th) = -1;
  to_mode : match th_pc th with
            | PIdle => True
            | PCheck t _ _ | PLatch t _ _ | PPost t _ => valid_mode t = true
            end
}.

Record mb_inv (cfg : mb_config) : Prop := {
  mbi_threads : Forall thread_ok cfg.2;
  mbi_readers : la_readers (ms_latch cfg.1) = holders cfg.2 SHARED;
  mbi_writer : (if la_writer (ms_latch cfg.1) then 1 else 0) = holders cfg.2 EXCLUSIVE;
  mbi_excl : la_writer (ms_latch cfg.1) = true -> la_readers (ms_latch cfg.1) = 0
}.

(** What a move of a session does to the latch. *)
Inductive latch_move (l : ossSLatch) (m : Z) : ossSLatch -> Z -> Prop :=
  | mv_same : latch_move l m l m
  | mv_acquire t l' :
      m = -1 -> valid_mode t = true -> ossLatch l t = Some l' -> latch_move l m l' t
  | mv_release :
      valid_mode m = true -> latch_move l m (ossUnlatch l m) (-1).

Lemma valid_mode_cases t : valid_mode t = true -> t = SHARED \/ t = EXCLUSIVE.
Proof. unfold valid_mode. intros [E%Z.eqb_eq|E%Z.eqb_eq]%orb_prop; auto. Qed.

Lemma unlock_move s c rc s' c' :
  cx_mbLockType c = -1 \/ valid_mode (cx_mbLockType c) = true ->
  mbUnlock s c = (rc, s', c') ->
  rc = SDB_OK /\ cx_mbLockType c' = -1 /\
  latch_move (ms_latch s) (cx_mbLockType c) (ms_latch s') (-1).
Proof.
  intros Hc. unfold mbUnlock. destruct (valid_mode (cx_mbLockType c)) eqn:E.
  - intros [= <- <- <-]. simpl. split_and!; [done|done|by constructor].
  - destruct Hc as [Ec|]; [|done]. intros [= <- <- <-]. rewrite Ec.
    split_and!; [done|done|constructor].
Qed.

Lemma pause_move s c rc s' c' :
  cx_mbLockType c = -1 \/ valid_mode (cx_mbLockType c) = true ->
  mb_pause s c = (rc, s', c') ->
  rc = SDB_OK /\ cx_mbLockType c' = -1 /\
  latch_move (ms_latch s) (cx_mbLockType c) (ms_latch s') (-1).
Proof.
  intros Hc. unfold mb_pause. simpl.
  destruct (valid_mode (cx_mbLockType c)) eqn:E.
  - intros Hu. apply unlock_move in Hu; [done|simpl; rewrite E; by right].
  - destruct Hc as [Ec|]; [|done]. intros [= <- <- <-]. simpl. rewrite Ec.
    split_and!; [done|done|constructor].
Qed.

Lemma call_move s th t isTry force s' th' :
  thread_ok th -> th_pc th = PIdle -> thread_call s th t isTry force = (s', th') ->
  thread_ok th' /\ latch_move (ms_latch s) (th_mode th) (ms_latch s') (th_mode th').
Proof.
  intros [Hl _ _] Hpc. unfold thread_call, mbl_enter.
  unfold th_mode at 1. rewrite Hpc.
  destruct (valid_mode t) eqn:Et; simpl.
  2: { intros [= <- <-]. split; [by split|constructor]. }
  destruct (Z.eqb_spec (cx_mbLockType (th_ctx th)) t) as [E|E].
  { intros [= <- <-]. split; [by split|constructor]. }
  destruct (Z.eqb_spec (-1) (cx_mbLockType (th_ctx th))) as [E1|E1]; simpl.
  { intros [= <- <-]. simpl. split; [by split|constructor]. }
  destruct (mb_pause s (th_ctx th)) as [[rc s1] c1] eqn:Ep.
  destruct (pause_move _ _ _ _ _ Hl Ep) as (->&Ec&Hm). simpl.
  intros [= <- <-]. split; [split; simpl; auto|].
  unfold th_mode. simpl. by rewrite Ec.
Qed.

Lemma run_move s th s' th' :
  thread_ok th -> thread_step s th = Some (s', th') ->
  thread_ok th' /\ latch_move (ms_latch s) (th_mode th) (ms_latch s') (th_mode th').
Proof.
  intros [Hl Hb Hm]. unfold thread_step, th_mode.
  destruct (th_pc th) as [|t isTry force|t isTry force|t force] eqn:Epc; simpl in Hm.
  - done.
  - specialize (Hb ltac:(done)). unfold mbl_check.
    destruct (negb force && negb (mb_exists s (th_ctx th)));
      intros [= <- <-]; (split; [by split|constructor]).
  - specialize (Hb ltac:(done)). unfold mbl_latch.
    destruct (ossLatch (ms_latch s) t) as [l|] eqn:El.
    + intros [= <- <-]. split; [by split|]. simpl. by apply mv_acquire.
    + destruct isTry; intros [= <- <-]. split; [by split|constructor].
  - specialize (Hb ltac:(done)). unfold mbl_post.
    destruct (negb force && negb (mb_exists s (th_ctx th))); intros [= <- <-]; simpl.
    + split; [by split|]. rewrite Hb. by constructor.
    + split; [split; simpl; [by right|done|done]|constructor].
Qed.

Lemma holders_insert ths i th th' t :
  ths !! i = Some th ->
  holders (<[i := th']> ths) t =
  holders ths t - (if t =? th_mode th then 1 else 0) + (if t =? th_mode th' then 1 else 0).
Proof. intros Hi. unfold holders. by rewrite (sumZ_map_insert _ _ _ _ _ Hi). Qed.

Lemma holders_fresh ths t :
  Forall fresh_thread ths -> valid_mode t = true -> holders ths t = 0.
Proof.
  intros Hf Ht. apply valid_mode_cases in Ht. unfold holders.
  induction Hf as [|th ths [Hpc Hm] _ IH]; [done|]. simpl. rewrite IH.
  unfold th_mode. rewrite Hpc, Hm. by destruct Ht as [-> | ->].
Qed.

Lemma holders_ge ths i th :
  ths !! i = Some th -> 1 <= holders ths (th_mode th).
Proof.
  intros Hi. unfold holders.
  apply (sumZ_elem_le (map (fun x => if th_mode th =? th_mode x then 1 else 0) ths)).
  - apply Forall_map, Forall_true. intros x. simpl. destruct (_ =? _); lia.
  - apply list_elem_of_In, in_map_iff. exists th. rewrite Z.eqb_refl.
    split; [done|]. by apply list_elem_of_In, (list_elem_of_lookup_2 _ i).
Qed.

Lemma holders_nonneg ths t : 0 <= holders ths t.
Proof.
  unfold holders. apply sumZ_nonneg, Forall_map, Forall_true.
  intros x. simpl. destruct (_ =? _); lia.
Qed.

Lemma inv_move s ths i th s' th' :
  mb_inv (s, ths) -> ths !! i = Some th -> thread_ok th' ->
  latch_move (ms_latch s) (th_mode th) (ms_latch s') (th_mode th') ->
  mb_inv (s', <[i := th']> ths).
Proof.
  intros [Hok Hr Hw He] Hi Hok' Hmv. simpl in *.
  assert (Forall thread_ok (<[i := th']> ths)) as HF by (by apply Forall_insert).
  pose proof (holders_ge _ _ _ Hi) as Hge.
  split; simpl; rewrite ?(holders_insert _ _ _ _ _ Hi); try done;
    (inversion Hmv as [E1 E2|t l' Em Hv El E1 E2|Hv E1 E2]; [by rewrite ?Z.sub_add|..]).
  all: apply valid_mode_cases in Hv as [Hv|Hv].
  all: unfold ossLatch, ossUnlatch, latch_get_shared, latch_get in *.
  all: rewrite ?Em, ?Hv in *; simpl in *.
  all: repeat match goal with
    | H : (if ?b then _ else _) = Some _ |- _ => destruct b eqn:?; simplify_eq/=
    end; try lia.
  all: destruct (la_writer (ms_latch s)) eqn:?; simpl in *; try done; try lia.
  all: rewrite <- El; simpl; try lia.
  all: rewrite Z.ltb_ge in *; pose proof (holders_nonneg ths SHARED); lia.
Qed.

Lemma mb_inv_reachable cfg : mb_reachable cfg -> mb_inv cfg.
Proof.
  intros (s0&ths0&El&Hf&Hrtc).
  assert (mb_inv (s0, ths0)) as H0.
  { split; simpl; rewrite ?El; try done.
    - eapply Forall_impl; [done|]. intros th [Hpc Hm]. split; [by left|done|by rewrite Hpc].
    - symmetry. apply holders_fresh; done.
    - symmetry. apply holders_fresh; done. }
  remember (s0, ths0) as c0 eqn:E0. clear E0.
  induction Hrtc as [|c1 c2 c3 Hstep _ IH]; [done|]. apply IH. clear IH.
  pose proof H0 as [Hok _ _ _].
  assert (forall ths i th, ths !! i = Some th -> Forall thread_ok ths -> thread_ok th) as Hth.
  { intros ths i th Hi HF. by eapply Forall_lookup in HF. }
  inversion Hstep as [s ths i th t isTry force s' th' Hi Hpc E|s ths i th s' th' Hi E
    |s ths i th rc s' c' Hi Hpc E|s ths i th rc s' c' Hi Hpc E
    |s ths i th s' th' Hi Hpc Hr E|s ths flag lid]; subst; simpl in Hok.
  - destruct (call_move _ _ _ _ _ _ _ (Hth _ _ _ Hi Hok) Hpc E). by eapply inv_move.
  - destruct (run_move _ _ _ _ (Hth _ _ _ Hi Hok) E). by eapply inv_move.
  - destruct (unlock_move _ _ _ _ _ (to_lock _ (Hth _ _ _ Hi Hok)) E) as (_&Ec&Hm).
    eapply inv_move; [done|done|split; simpl; auto|].
    unfold th_mode. rewrite Hpc. simpl. by rewrite Ec.
  - destruct (pause_move _ _ _ _ _ (to_lock _ (Hth _ _ _ Hi Hok)) E) as (_&Ec&Hm).
    eapply inv_move; [done|done|split; simpl; auto|].
    unfold th_mode. rewrite Hpc. simpl. by rewrite Ec.
  - apply call_move in E as [Hok' Hm]; [|split; simpl; [apply (Hth _ _ _ Hi Hok)|done|done]|done].
    eapply inv_move; [done|done|done|]. unfold th_mode at 1 in Hm. unfold th_mode at 1.
    rewrite Hpc. exact Hm.
  - destruct H0. by split.
Qed.

Lemma holders_two ths i j th1 th2 t :
  i <> j -> ths !! i = Some th1 -> ths !! j = Some th2 ->
  th_mode th1 = t -> th_mode th2 = t -> 2 <= holders ths t.
Proof.
  intros Hij H1 H2 E1 E2.
  pose proof (holders_insert ths i th1 (mkThread ctx_reset (PPost (-2) false) 0) t H1) as Hins.
  assert (1 <= holders (<[i := mkThread ctx_reset (PPost (-2) false) 0]> ths) t) as Hge.
  { rewrite <- E2. apply (holders_ge _ j). by rewrite list_lookup_insert_ne. }
  rewrite E1, Z.eqb_refl in Hins. unfold th_mode at 1 in Hins. simpl in Hins.
  destruct (Z.eqb_spec t (-2)); [|lia].
  pose proof (holders_insert ths j th2 (mkThread ctx_reset (PPost (-3) false) 0) t H2) as Hj.
  assert (1 <= holders (<[j := mkThread ctx_reset (PPost (-3) false) 0]> ths) t) as Hge'.
  { rewrite <- E1. apply (holders_ge _ i). by rewrite list_lookup_insert_ne by done. }
  rewrite E2, Z.eqb_refl in Hj. unfold th_mode at 1 in Hj. simpl in Hj.
  destruct (Z.eqb_spec t (-3)); lia.
Qed.

Lemma locked_mode th :
  thread_ok th -> valid_mode (cx_mbLockType (th_ctx th)) = true ->
  th_mode th = cx_mbLockType (th_ctx th).
Proof.
  intros [_ Hb _] Hv. unfold th_mode. destruct (th_pc th); try done.
  specialize (Hb ltac:(done)). by rewrite Hb in Hv.
Qed.

(** ** Properties *)

(** C32: Whatever sessions do and however their lock calls interleave, a
    collection locked exclusively by one context is locked by no other. *)
Theorem mb_mutual_exclusion s ths i j th1 th2 :
  mb_reachable (s, ths) -> i <> j -> ths !! i = Some th1 -> ths !! j = Some th2 ->
  isMBLock (th_ctx th1) EXCLUSIVE = true -> cx_mbLockType (th_ctx th2) = -1.
Proof.
  intros Hr Hij H1 H2 Hx. apply mb_inv_reachable in Hr as [Hok Hrd Hw He].
  simpl in Hok, Hrd, Hw, He.
  pose proof (Forall_lookup_1 _ _ _ _ Hok H1) as Hok1.
  pose proof (Forall_lookup_1 _ _ _ _ Hok H2) as Hok2.
  unfold isMBLock in Hx. apply Z.eqb_eq in Hx.
  assert (th_mode th1 = EXCLUSIVE) as M1 by (rewrite locked_mode; [done|done|by rewrite <- Hx]).
  pose proof (holders_ge _ _ _ H1) as G1. rewrite M1 in G1.
  destruct (to_lock _ Hok2) as [|Hv]; [done|exfalso].
  pose proof (locked_mode _ Hok2 Hv) as M2. apply valid_mode_cases in Hv as [E|E]; rewrite E in M2.
  - pose proof (holders_ge _ _ _ H2) as G2. rewrite M2 in G2.
    destruct (la_writer (ms_latch s)); [specialize (He eq_refl)|]; lia.
  - pose proof (holders_two _ _ _ _ _ _ Hij H1 H2 M1 M2).
    destruct (la_writer (ms_latch s)); lia.
Qed.

Definition ctx_example : dmsMBContext := mkMBContext 7 7 0 (-1) (-1).
Definition shared_example : mbShared := mkMbShared latch_free DMS_MB_FLAG_USED 7.

Lemma run_to s0 ths0 cfg :
  ms_latch s0 = latch_free -> Forall fresh_thread ths0 ->
  rtc mb_step (s0, ths0) cfg -> mb_reachable cfg.
Proof. intros. by exists s0, ths0. Qed.

(** Run alone, the phases of [_mbLock] compute what [mbLock_run] says. *)
Lemma mbLock_run_steps s c t isTry force r rc s' c' :
  mbLock_run s c t isTry force = Some (rc, s', c') ->
  forall ths1 ths2,
  rtc mb_step (s, ths1 ++ mkThread c PIdle r :: ths2) (s', ths1 ++ mkThread c' PIdle rc :: ths2).
Proof.
  intros Hrun ths1 ths2. unfold mbLock_run in Hrun.
  assert (forall th, (ths1 ++ th :: ths2) !! length ths1 = Some th) as Hat
    by (intros; by apply list_lookup_middle).
  assert (forall th th', <[length ths1 := th']> (ths1 ++ th :: ths2) = ths1 ++ th' :: ths2)
    as Hins by (intros; rewrite insert_app_r_alt by lia; by rewrite Nat.sub_diag).
  assert (forall s1 th s2 th', thread_step s1 th = Some (s2, th') ->
    mb_step (s1, ths1 ++ th :: ths2) (s2, ths1 ++ th' :: ths2)) as Hstep.
  { intros s1 th s2 th' E. rewrite <- (Hins th th'). by eapply ms_run. }
  assert (forall s2 th', thread_call s (mkThread c PIdle r) t isTry force = (s2, th') ->
    mb_step (s, ths1 ++ mkThread c PIdle r :: ths2) (s2, ths1 ++ th' :: ths2)) as Hcall.
  { intros s2 th' E. rewrite <- (Hins (mkThread c PIdle r) th'). by eapply ms_call. }
  unfold thread_call in Hcall. simpl in Hcall.
  destruct (mbl_enter s c t) as [[[rc0|] s1] c1] eqn:E1.
  { simplify_eq. eapply rtc_l; [by apply Hcall|apply rtc_refl]. }
  eapply rtc_l; [by apply Hcall|].
  destruct (mbl_check s1 c1 force) as [rc0|] eqn:E2.
  { simplify_eq. eapply rtc_l; [apply Hstep; unfold thread_step; simpl; by rewrite E2|apply rtc_refl]. }
  eapply rtc_l; [apply Hstep; unfold thread_step; simpl; by rewrite E2|].
  destruct (mbl_latch s1 t isTry) as [[[rc0|] s2]|] eqn:E3; [..|done].
  { simplify_eq. eapply rtc_l; [apply Hstep; unfold thread_step; simpl; by rewrite E3|apply rtc_refl]. }
  eapply rtc_l; [apply Hstep; unfold thread_step; simpl; by rewrite E3|].
  destruct (mbl_post s2 c1 t force) as [[rc3 s3] c3] eqn:E4. simplify_eq.
  eapply rtc_l; [apply Hstep; unfold thread_step; simpl; by rewrite E4|apply rtc_refl].
Qed.

Lemma locked_example_reachable :
  mb_reachable (mkMbShared (mkLatch 0 true) DMS_MB_FLAG_USED 7,
    [mkThread (with_locks ctx_example EXCLUSIVE (-1)) PIdle SDB_OK;
     mkThread ctx_example PIdle SDB_OK]).
Proof.
  eapply (run_to shared_example
    [mkThread ctx_example PIdle SDB_OK; mkThread ctx_example PIdle SDB_OK]).
  - reflexivity.
  - repeat constructor.
  - apply (mbLock_run_steps shared_example ctx_example EXCLUSIVE false false SDB_OK SDB_OK
             _ _ eq_refl [] [mkThread ctx_example PIdle SDB_OK]).
Qed.

Lemma mb_mutual_exclusion_witness : cx_mbLockType ctx_example = -1.
Proof.
  apply (mb_mutual_exclusion _ _ 0 1
           (mkThread (with_locks ctx_example EXCLUSIVE (-1)) PIdle SDB_OK)
           (mkThread ctx_example PIdle SDB_OK) locked_example_reachable).
  - lia.
  - reflexivity.
  - reflexivity.
  - reflexivity.
Defined.

(** C33: No path of the lock protocol leaks the latch: when every context is
    idle and holds no lock, whatever calls succeeded, failed or timed out
    before, the latch is free. *)
Theorem mb_no_leak s ths :
  mb_reachable (s, ths) -> Forall fresh_thread ths -> ms_latch s = latch_free.
Proof.
  intros Hr Hf. apply mb_inv_reachable in Hr as [_ Hrd Hw _]; simpl in *.
  rewrite (holders_fresh ths SHARED Hf eq_refl) in Hrd.
  rewrite (holders_fresh ths EXCLUSIVE Hf eq_refl) in Hw.
  destruct (ms_latch s) as [r []]; simpl in *; [lia|]. by subst.
Qed.

Lemma mb_no_leak_witness : ms_latch (mkMbShared latch_free DMS_MB_FLAG_USED 9) = latch_free.
Proof.
  apply (mb_no_leak (mkMbShared latch_free DMS_MB_FLAG_USED 9)
           [mkThread ctx_example PIdle SDB_DMS_NOTEXIST]).
  - eapply (run_to (mkMbShared latch_free DMS_MB_FLAG_USED 9)
              [mkThread ctx_example PIdle SDB_OK]).
    + reflexivity.
    + repeat constructor.
    + apply (mbLock_run_steps (mkMbShared latch_free DMS_MB_FLAG_USED 9) ctx_example
               SHARED false false SDB_OK SDB_DMS_NOTEXIST _ _ eq_refl [] []).
  - repeat constructor.
Defined.







(** The outcomes of [_mbLock] for one session: on [SDB_OK] the context
    has the requested mode and (unless forced, or it had it already) the
    collection existed with its logical identifier when the lock was granted;
    on an invalid mode nothing changes; on every other error the lock held
    before is gone and the latch is as after releasing it. *)
Theorem mbLock_outcome s c t isTry force rc s' c' :
  cx_mbLockType c = -1 \/ valid_mode (cx_mbLockType c) = true ->
  mbLock_run s c t isTry force = Some (rc, s', c') ->
  (rc = SDB_OK /\ isMBLock c' t = true /\ valid_mode t = true /\
   (cx_mbLockType c = t /\ s' = s /\ c' = c \/
    (force = true \/ mb_exists s' c' = true) /\ cx_resumeType c' = -1)) \/
  (rc = SDB_INVALIDARG /\ s' = s /\ c' = c /\ valid_mode t = false) \/
  (rc = SDB_DMS_NOTEXIST /\ force = false /\ mb_exists s c = false \/
   rc = SDB_TIMEOUT /\ isTry = true) /\
  cx_mbLockType c' = -1.
Proof.
  intros Hc. unfold mbLock_run, mbl_enter.
  destruct (valid_mode t) eqn:Ev; simpl; [|intros [= <- <- <-]; right; left; done].
  destruct (Z.eqb_spec (cx_mbLockType c) t) as [E|E].
  { intros [= <- <- <-]. left. unfold isMBLock. rewrite E, Z.eqb_refl. auto 10. }
  set (e := if negb (-1 =? cx_mbLockType c) then _ else _).
  assert (exists s1 c1, e = (None, s1, c1) /\ cx_mbLockType c1 = -1 /\
    mb_exists s1 c1 = mb_exists s c) as (s1&c1&Ee&Ec1&Ex).
  { subst e. destruct (Z.eqb_spec (-1) (cx_mbLockType c)); simpl; [by exists s, c|].
    destruct (mb_pause s c) as [[rc1 s1] c1] eqn:Ep.
    pose proof (pause_move _ _ _ _ _ Hc Ep) as (->&Ec1&_). exists s1, c1. split_and!; try done.
    unfold mb_pause, mbUnlock in Ep. destruct (valid_mode _); simpl in Ep; by simplify_eq. }
  rewrite Ee. unfold mbl_check.
  destruct force; simpl.
  - unfold mbl_latch. destruct (ossLatch (ms_latch s1) t).
    + intros [= <- <- <-]. left. unfold isMBLock. simpl. rewrite Z.eqb_refl. auto 10.
    + destruct isTry; intros [= <- <- <-]. right. right. auto.
  - destruct (mb_exists s1 c1) eqn:Ex1; simpl.
    + unfold mbl_latch. destruct (ossLatch (ms_latch s1) t) as [l|].
      * unfold mbl_post. assert (mb_exists (with_latch s1 l) c1 = true) as -> by exact Ex1.
        simpl. intros [= <- <- <-]. left. unfold isMBLock. simpl. rewrite Z.eqb_refl.
        split_and!; try done. right. split; [by right|done].
      * destruct isTry; intros [= <- <- <-]. right. right. auto.
    + intros [= <- <- <-]. right. right. auto 10.
Qed.

Lemma mbLock_outcome_witness :
  exists s' c', mbLock_run shared_example ctx_example SHARED false false = Some (SDB_OK, s', c') /\
  isMBLock c' SHARED = true.
Proof.
  destruct (mbLock_run shared_example ctx_example SHARED false false)
    as [[[rc s'] c']|] eqn:E; [|discriminate].
  destruct (mbLock_outcome shared_example ctx_example SHARED false false rc s' c'
              (or_introl eq_refl) E) as [(->&H1&_)|[(_&_&_&H)|([(_&_&H)|(_&H)]&_)]];
    try (vm_compute in H; discriminate).
  exists s', c'. split; [reflexivity|exact H1].
Defined.
