(* ===== verification/DmsExtent.v ===== *)
(** * Extents (src/src/dms/dmsExtent.hpp) and the extent index of a collection,
    [_metadataBlockEx] (src/src/dms/dmsBlockData.hpp)

    The four kinds of extents start with the same eight bytes (eye catcher,
    block size, collection, flag, version), which is what [validate] looks
    at; [extHeader] is that prefix. *)
From S2P Require Import Prelude.
From S2P Require Import ByteBits.
From S2P Require Import DmsBase.

Definition DMS_EXTENT_FLAG_INUSE : Z := 0x01.
Definition DMS_EXTENT_FLAG_FREED : Z := 0x02.

Record extHeader := mkExtHeader {
  eh_eyeCatcher0 : Z;
  eh_eyeCatcher1 : Z;
  eh_blockSize : Z;
  eh_mbID : Z;
  eh_flag : Z;
  eh_version : Z
}.

Definition eh_validate (e0 e1 : Z) (h : extHeader) (mbID : Z) : bool :=
  if negb (e0 =? eh_eyeCatcher0 h) || negb (e1 =? eh_eyeCatcher1 h)
     || negb (DMS_EXTENT_FLAG_INUSE =? eh_flag h)
  then false
  else if negb (DMS_INVALID_MBID =? mbID) && negb (eh_mbID h =? mbID) then false
  else true.

(** ** Data extents *)

Definition DMS_EXTENT_EYECATCHER0 : Z := 68. (* D *)
Definition DMS_EXTENT_EYECATCHER1 : Z := 69. (* E *)
Definition DMS_EXTENT_CURRENT_V : Z := 1.
Definition DMS_EXTENT_METADATA_SZ : Z := 36.

Record dmsExtent := mkExtent {
  ext_header : extHeader;
  ext_logicID : Z;
  ext_prevExtent : Z;
  ext_nextExtent : Z;
  ext_recCount : Z;
  ext_firstRecordOffset : Z;
  ext_lastRecordOffset : Z;
  ext_freeSpace : Z
}.

Definition ext_init (numPages mbID totalSize : Z) : dmsExtent :=
  mkExtent
    (mkExtHeader DMS_EXTENT_EYECATCHER0 DMS_EXTENT_EYECATCHER1 numPages mbID
       DMS_EXTENT_FLAG_INUSE DMS_EXTENT_CURRENT_V)
    DMS_INVALID_EXTENT DMS_INVALID_EXTENT DMS_INVALID_EXTENT 0
    DMS_INVALID_OFFSET DMS_INVALID_OFFSET
    (i32 (u32 (totalSize - DMS_EXTENT_METADATA_SZ))).

Definition ext_validate (e : dmsExtent) (mbID : Z) : bool :=
  eh_validate DMS_EXTENT_EYECATCHER0 DMS_EXTENT_EYECATCHER1 (ext_header e) mbID.

Definition ext_with_logicID (e : dmsExtent) (v : Z) : dmsExtent :=
  mkExtent (ext_header e) v (ext_prevExtent e) (ext_nextExtent e) (ext_recCount e)
    (ext_firstRecordOffset e) (ext_lastRecordOffset e) (ext_freeSpace e).
Definition ext_with_prev (e : dmsExtent) (v : Z) : dmsExtent :=
  mkExtent (ext_header e) (ext_logicID e) v (ext_nextExtent e) (ext_recCount e)
    (ext_firstRecordOffset e) (ext_lastRecordOffset e) (ext_freeSpace e).
Definition ext_with_next (e : dmsExtent) (v : Z) : dmsExtent :=
  mkExtent (ext_header e) (ext_logicID e) (ext_prevExtent e) v (ext_recCount e)
    (ext_firstRecordOffset e) (ext_lastRecordOffset e) (ext_freeSpace e).
Definition ext_with_recs (e : dmsExtent) (recCount first last : Z) : dmsExtent :=
  mkExtent (ext_header e) (ext_logicID e) (ext_prevExtent e) (ext_nextExtent e) recCount
    first last (ext_freeSpace e).
Definition ext_with_freeSpace (e : dmsExtent) (v : Z) : dmsExtent :=
  mkExtent (ext_header e) (ext_logicID e) (ext_prevExtent e) (ext_nextExtent e)
    (ext_recCount e) (ext_firstRecordOffset e) (ext_lastRecordOffset e) v.

(** ** Meta extents and [_metadataBlockEx]

    [mbx_array] is the array after the header: the first and the last extent
    of each segment, in turn. *)

Definition DMS_META_EXTENT_EYECATCHER0 : Z := 77. (* M *)
Definition DMS_META_EXTENT_EYECATCHER1 : Z := 69. (* E *)
Definition DMS_META_EXTENT_CURRENT_V : Z := 1.
Definition DMS_METAEXTENT_HEADER_SZ : Z := 16.

Record dmsMetaExtent := mkMetaExtent {
  me_header : extHeader;
  me_segNum : Z;
  me_usedSegNum : Z
}.

Record dmsMBEx := mkMBEx {
  mbx_header : dmsMetaExtent;
  mbx_array : gmap Z Z
}.

Fixpoint array_reset (a : gmap Z Z) (i : Z) (n : nat) : gmap Z Z :=
  match n with
  | O => a
  | S n =>
      array_reset
        (<[Z.shiftl i 1 + 1 := DMS_INVALID_EXTENT]>
           (<[Z.shiftl i 1 := DMS_INVALID_EXTENT]> a)) (i + 1) n
  end.

Definition me_init (a : gmap Z Z) (numPages mbID segNum : Z) : dmsMBEx :=
  mkMBEx
    (mkMetaExtent
       (mkExtHeader DMS_META_EXTENT_EYECATCHER0 DMS_META_EXTENT_EYECATCHER1 numPages mbID
          DMS_EXTENT_FLAG_INUSE DMS_META_EXTENT_CURRENT_V) segNum 0)
    (array_reset a 0 (Z.to_nat segNum)).

Definition me_reset (x : dmsMBEx) : dmsMBEx :=
  mkMBEx (mkMetaExtent (me_header (mbx_header x)) (me_segNum (mbx_header x)) 0)
    (array_reset (mbx_array x) 0 (Z.to_nat (me_segNum (mbx_header x)))).

Definition me_validate (x : dmsMetaExtent) (mbID : Z) : bool :=
  eh_validate DMS_META_EXTENT_EYECATCHER0 DMS_META_EXTENT_EYECATCHER1 (me_header x) mbID.

Definition mbx_at (x : dmsMBEx) (i : Z) : Z := default 0 (mbx_array x !! i).

(** The getters leave [extID] alone on error. *)
Definition getFirstExtentID (x : dmsMBEx) (segID extID : Z) : Z * Z :=
  if me_segNum (mbx_header x) <=? segID then (SDB_INVALIDARG, extID)
  else (SDB_OK, mbx_at x (u32 (Z.shiftl segID 1))).
Definition getLastExtentID (x : dmsMBEx) (segID extID : Z) : Z * Z :=
  if me_segNum (mbx_header x) <=? segID then (SDB_INVALIDARG, extID)
  else (SDB_OK, mbx_at x (u32 (Z.shiftl segID 1 + 1))).

Definition setFirstExtentID (x : dmsMBEx) (segID extID : Z) : Z * dmsMBEx :=
  if me_segNum (mbx_header x) <=? segID then (SDB_INVALIDARG, x)
  else (SDB_OK, mkMBEx (mbx_header x) (<[u32 (Z.shiftl segID 1) := extID]> (mbx_array x))).
Definition setLastExtentID (x : dmsMBEx) (segID extID : Z) : Z * dmsMBEx :=
  if me_segNum (mbx_header x) <=? segID then (SDB_INVALIDARG, x)
  else (SDB_OK, mkMBEx (mbx_header x) (<[u32 (Z.shiftl segID 1 + 1) := extID]> (mbx_array x))).

Definition mbx_incUsed (x : dmsMBEx) : dmsMBEx :=
  mkMBEx (mkMetaExtent (me_header (mbx_header x)) (me_segNum (mbx_header x))
            (u32 (me_usedSegNum (mbx_header x) + 1))) (mbx_array x).

(** ** Dictionary and option extents *)

Definition DMS_DICT_EXTENT_EYECATCHER0 : Z := 67. (* C *)
Definition DMS_DICT_EXTENT_EYECATCHER1 : Z := 69. (* E *)
Definition DMS_DICT_EXTENT_CURRENT_V : Z := 1.
Definition DMS_OPT_EXTENT_EYECATCHER0 : Z := 79. (* O *)
Definition DMS_OPT_EXTENT_EYECATCHER1 : Z := 69. (* E *)
Definition DMS_OPT_EXTENT_CURRENT_V : Z := 1.

Record dmsDictExtent := mkDictExtent {
  de_header : extHeader;
  de_dictLen : Z;
  de_body : bytes
}.

Definition de_init (b : bytes) (numPages mbID : Z) : dmsDictExtent :=
  mkDictExtent
    (mkExtHeader DMS_DICT_EXTENT_EYECATCHER0 DMS_DICT_EXTENT_EYECATCHER1 numPages mbID
       DMS_EXTENT_FLAG_INUSE DMS_DICT_EXTENT_CURRENT_V) 0 b.
Definition de_setDict (e : dmsDictExtent) (dict : list Z) (dictLen : Z) : dmsDictExtent :=
  mkDictExtent (de_header e) dictLen
    (write_bytes (de_body e) 0 (take (Z.to_nat dictLen) dict)).
Definition de_validate (e : dmsDictExtent) (mbID : Z) : bool :=
  eh_validate DMS_DICT_EXTENT_EYECATCHER0 DMS_DICT_EXTENT_EYECATCHER1 (de_header e) mbID.

Record dmsOptExtent := mkOptExtent {
  oe_header : extHeader;
  oe_optSize : Z;
  oe_body : bytes
}.

Definition oe_init (b : bytes) (numPages mbID : Z) : dmsOptExtent :=
  mkOptExtent
    (mkExtHeader DMS_OPT_EXTENT_EYECATCHER0 DMS_OPT_EXTENT_EYECATCHER1 numPages mbID
       DMS_EXTENT_FLAG_INUSE DMS_OPT_EXTENT_CURRENT_V) 0 b.
Definition oe_setOption (e : dmsOptExtent) (opt : list Z) (optSize : Z) : dmsOptExtent :=
  mkOptExtent (oe_header e) optSize
    (write_bytes (oe_body e) 0 (take (Z.to_nat optSize) opt)).
Definition oe_validate (e : dmsOptExtent) (mbID : Z) : bool :=
  eh_validate DMS_OPT_EXTENT_EYECATCHER0 DMS_OPT_EXTENT_EYECATCHER1 (oe_header e) mbID.

(** The bytes at [optAddr], [optSize] of them. *)
Definition oe_getOption (e : dmsOptExtent) : Z * option (list Z) :=
  if 0 =? oe_optSize e then (SDB_SYS, None)
  else (SDB_OK, Some (read_bytes (oe_body e) 0 (Z.to_nat (oe_optSize e)))).

(** ** Lemmas *)

Lemma eh_validate_mb e0 e1 h mbID :
  eh_validate e0 e1 h mbID = true ->
  eh_eyeCatcher0 h = e0 /\ eh_eyeCatcher1 h = e1 /\ eh_flag h = DMS_EXTENT_FLAG_INUSE /\
  (mbID <> DMS_INVALID_MBID -> eh_mbID h = mbID).
Proof.
  unfold eh_validate. repeat (zcase; simpl; try done).
Qed.

Lemma array_reset_at n : forall a i j,
  0 <= i -> 0 <= j ->
  default 0 (array_reset a i n !! j) =
  if decide (2 * i <= j < 2 * (i + Z.of_nat n)) then DMS_INVALID_EXTENT
  else default 0 (a !! j).
Proof.
  induction n as [|n IH]; intros a i j Hi Hj; simpl.
  - by rewrite decide_False by lia.
  - rewrite IH by lia. rewrite !shiftl_mul by lia. change (2 ^ 1) with 2.
    rewrite !lookup_insert. repeat case_decide; try lia; done.
Qed.

Lemma mbx_set_get x segID extID d :
  0 <= segID < me_segNum (mbx_header x) -> me_segNum (mbx_header x) < 1073741824 ->
  exists x', setLastExtentID x segID extID = (SDB_OK, x') /\
    mbx_header x' = mbx_header x /\
    (forall s, 0 <= s < me_segNum (mbx_header x) ->
       getLastExtentID x' s d = if decide (s = segID) then (SDB_OK, extID)
                                else getLastExtentID x s d) /\
    (forall s, 0 <= s < me_segNum (mbx_header x) ->
       getFirstExtentID x' s d = getFirstExtentID x s d).
Proof.
  intros Hs Hn. unfold setLastExtentID. zcase; [lia|]. eexists. split; [done|].
  unfold getLastExtentID, getFirstExtentID, mbx_at. simpl.
  split; [done|]. split; intros s Hs';
    rewrite !shiftl_mul by lia; change (2 ^ 1) with 2; rewrite !u32_id by lia;
    zcase; try lia; rewrite lookup_insert; repeat case_decide; try lia; done.
Qed.

Lemma mbx_set_first_get x segID extID d :
  0 <= segID < me_segNum (mbx_header x) -> me_segNum (mbx_header x) < 1073741824 ->
  exists x', setFirstExtentID x segID extID = (SDB_OK, x') /\
    mbx_header x' = mbx_header x /\
    (forall s, 0 <= s < me_segNum (mbx_header x) ->
       getFirstExtentID x' s d = if decide (s = segID) then (SDB_OK, extID)
                                 else getFirstExtentID x s d) /\
    (forall s, 0 <= s < me_segNum (mbx_header x) ->
       getLastExtentID x' s d = getLastExtentID x s d).
Proof.
  intros Hs Hn. unfold setFirstExtentID. zcase; [lia|]. eexists. split; [done|].
  unfold getLastExtentID, getFirstExtentID, mbx_at. simpl.
  split; [done|]. split; intros s Hs';
    rewrite !shiftl_mul by lia; change (2 ^ 1) with 2; rewrite !u32_id by lia;
    zcase; try lia; rewrite lookup_insert; repeat case_decide; try lia; done.
Qed.

Lemma me_init_get a numPages mbID segNum s d :
  0 <= s < segNum -> segNum < 1073741824 ->
  getFirstExtentID (me_init a numPages mbID segNum) s d = (SDB_OK, DMS_INVALID_EXTENT) /\
  getLastExtentID (me_init a numPages mbID segNum) s d = (SDB_OK, DMS_INVALID_EXTENT).
Proof.
  intros Hs Hn. unfold getFirstExtentID, getLastExtentID, mbx_at. simpl.
  zcase; [lia|]. rewrite !shiftl_mul by lia. change (2 ^ 1) with 2.
  rewrite !u32_id, !array_reset_at, !decide_True by lia. done.
Qed.

(** ** Properties *)

Inductive extKind := KData | KMeta | KDict | KOpt.

(** The header each kind of extent starts with, and the kind's test. *)
Definition kind_header (k : extKind) (numPages mbID : Z) : extHeader :=
  match k with
  | KData => ext_header (ext_init numPages mbID 0)
  | KMeta => me_header (mbx_header (me_init ∅ numPages mbID 0))
  | KDict => de_header (de_init ∅ numPages mbID)
  | KOpt => oe_header (oe_init ∅ numPages mbID)
  end.

Definition kind_validate (k : extKind) (h : extHeader) (mbID : Z) : bool :=
  match k with
  | KData => ext_validate (mkExtent h 0 0 0 0 0 0 0) mbID
  | KMeta => me_validate (mkMetaExtent h 0 0) mbID
  | KDict => de_validate (mkDictExtent h 0 ∅) mbID
  | KOpt => oe_validate (mkOptExtent h 0 ∅) mbID
  end.

(** An extent is accepted by [validate] exactly when it was initialised
    as that kind of extent and for that collection ([DMS_INVALID_MBID] asks
    for any): page mix-ups between data, meta, dictionary and option extents
    or between collections are always detected. *)
Theorem extent_validate_exact k k' numPages mbID mbID' :
  kind_validate k (kind_header k' numPages mbID) mbID' = true <->
  k = k' /\ (mbID' = DMS_INVALID_MBID \/ mbID' = mbID).
Proof.
  destruct k, k'; cbv -[Z.eqb DMS_INVALID_MBID]; simpl;
    repeat (zcase; simpl); naive_solver lia.
Qed.

(** The extent index of a collection is an array of independent cells:
    setting the first (last) extent of a segment is read back, changes no
    other segment and not the last (first) one, and a segment out of range is
    refused. *)
Theorem mbex_cells x segID extID s d :
  me_segNum (mbx_header x) < 1073741824 -> 0 <= segID -> 0 <= s < me_segNum (mbx_header x) ->
  (segID < me_segNum (mbx_header x) ->
   getFirstExtentID (setFirstExtentID x segID extID).2 s d =
     (if decide (s = segID) then (SDB_OK, extID) else getFirstExtentID x s d) /\
   getLastExtentID (setFirstExtentID x segID extID).2 s d = getLastExtentID x s d /\
   getLastExtentID (setLastExtentID x segID extID).2 s d =
     (if decide (s = segID) then (SDB_OK, extID) else getLastExtentID x s d) /\
   getFirstExtentID (setLastExtentID x segID extID).2 s d = getFirstExtentID x s d) /\
  (me_segNum (mbx_header x) <= segID ->
   setFirstExtentID x segID extID = (SDB_INVALIDARG, x) /\
   setLastExtentID x segID extID = (SDB_INVALIDARG, x)).
Proof.
  intros Hn Hseg Hs. split.
  - intros Hlt.
    destruct (mbx_set_get x segID extID d ltac:(lia) Hn) as (x1&->&_&L1&F1).
    destruct (mbx_set_first_get x segID extID d ltac:(lia) Hn) as (x2&->&_&F2&L2).
    simpl. split_and!; auto.
  - intros Hge. unfold setFirstExtentID, setLastExtentID. zcase; [done|lia].
Qed.

Lemma mbex_cells_witness :
  let x := me_init ∅ 1 0 4 in
  getLastExtentID (setLastExtentID x 2 77).2 2 0 = (SDB_OK, 77) /\
  getFirstExtentID (setLastExtentID x 2 77).2 2 0 = (SDB_OK, DMS_INVALID_EXTENT).
Proof.
  cbv zeta. destruct (mbex_cells (me_init ∅ 1 0 4) 2 77 2 0) as [H _];
    [simpl; lia|lia|simpl; lia|].
  destruct H as (_&_&H1&H2); [simpl; lia|]. rewrite H1, H2. split; vm_compute; reflexivity.
Defined.
