(* ===== verification/DmsMB.v ===== *)
(** * Metadata blocks, statistics and the storage header
    (src/src/dms/dmsBlockData.hpp, src/src/dms/dmsBlockData.cpp,
    src/src/include/utilUniqueID.hpp)

    [_dmsMetadataBlock] is split in two records kept under the same slot: the
    block itself and its statistics members, because the statistics on disk
    are copies of [_mbStatInfo] that [syncMemToMmap] refreshes, and nothing
    else reads them after the file is opened. *)
From S2P Require Import Prelude.
From S2P Require Import OssBase.
From S2P Require Import DmsBase.
From S2P Require Import DmsName.
From S2P Require Import DmsSMEMgr.
From Stdlib Require Import String.
#[local] Open Scope Z_scope.

(** ** Unique identifiers *)

Definition UTIL_UNIQUEID_NULL : Z := 0.
Definition UTIL_CLUNIQUEID_LOCAL : Z := 0xFFFFFFFFFFFFFFFF.
Definition UTIL_CLUNIQUEID_LOADCS : Z := 0xFFFFFFFEFFFFFFFE.
Definition UTIL_CSUNIQUEID_LOCAL : Z := 0xFFFFFFFF.
Definition UTIL_CSUNIQUEID_MAX : Z := 0xFFFFFF00.

Definition UTIL_IS_VALID_CSUNIQUEID (id : Z) : bool :=
  negb (id =? UTIL_UNIQUEID_NULL) && negb (id =? UTIL_CSUNIQUEID_LOCAL).
Definition UTIL_IS_VALID_CLUNIQUEID (id : Z) : bool :=
  negb (id =? UTIL_UNIQUEID_NULL) && negb (id =? UTIL_CLUNIQUEID_LOCAL)
  && negb (id =? UTIL_CLUNIQUEID_LOADCS).

Definition utilGetCSUniqueID (clUniqueID : Z) : Z := u32 (Z.shiftr clUniqueID 32).
Definition utilGetCLInnerID (clUniqueID : Z) : Z := u32 clUniqueID.
Definition utilBuildCLUniqueID (csUniqueID clInnerID : Z) : Z :=
  u64 (Z.lor (Z.shiftl csUniqueID 32) clInnerID).

(** ** [_dmsMetadataBlock] *)

(** The slots of [deleteListType]: 32 bytes, 64 bytes, up to 16MB. *)
Definition mb_max : nat := 20.

Record dmsMB := mkMB {
  mb_collectionName : string;
  mb_flag : Z;
  mb_blockID : Z;
  mb_firstExtentID : Z;
  mb_lastExtentID : Z;
  mb_deleteList : list dmsRecordID;
  mb_logicalID : Z;
  mb_attributes : Z;
  mb_loadFirstExtentID : Z;
  mb_loadLastExtentID : Z;
  mb_mbExExtentID : Z;
  mb_dictExtentID : Z;
  mb_newDictExtentID : Z;
  mb_dictStatPageID : Z;
  mb_dictVersion : Z;
  mb_mbOptExtentID : Z;
  mb_clUniqueID : Z
}.

(** The members marked "for stat". *)
Record dmsMBDiskStat := mkMBDiskStat {
  ds_totalRecords : Z;
  ds_totalDataPages : Z;
  ds_totalDataFreeSpace : Z;
  ds_totalOrgDataLen : Z;
  ds_totalDataLen : Z
}.

Definition diskStat_zero : dmsMBDiskStat := mkMBDiskStat 0 0 0 0 0.

(** A slot of zeroed memory. *)
Definition mb_zero : dmsMB :=
  mkMB EmptyString 0 0 0 0 (repeat (mkRID 0 0) mb_max) 0 0 0 0 0 0 0 0 0 0 0.

Definition mb_reset (old : dmsMB) (clName : option string)
    (clUniqueID mbID clLID attr : Z) : dmsMB :=
  mkMB
    (match clName with
     | Some n => str_take (Z.to_nat DMS_COLLECTION_NAME_SZ) n
     | None => EmptyString
     end)
    (if negb (DMS_INVALID_MBID =? mbID) then DMS_SET_MB_INUSE (mb_flag old)
     else DMS_SET_MB_FREE (mb_flag old))
    mbID DMS_INVALID_EXTENT DMS_INVALID_EXTENT (repeat rid_null mb_max)
    clLID attr DMS_INVALID_EXTENT DMS_INVALID_EXTENT DMS_INVALID_EXTENT
    DMS_INVALID_EXTENT DMS_INVALID_EXTENT DMS_INVALID_EXTENT 0
    DMS_INVALID_EXTENT clUniqueID.

Definition mb_with_deleteList (b : dmsMB) (l : list dmsRecordID) : dmsMB :=
  mkMB (mb_collectionName b) (mb_flag b) (mb_blockID b) (mb_firstExtentID b)
    (mb_lastExtentID b) l (mb_logicalID b) (mb_attributes b)
    (mb_loadFirstExtentID b) (mb_loadLastExtentID b) (mb_mbExExtentID b)
    (mb_dictExtentID b) (mb_newDictExtentID b) (mb_dictStatPageID b)
    (mb_dictVersion b) (mb_mbOptExtentID b) (mb_clUniqueID b).
Definition mb_with_extents (b : dmsMB) (first last : Z) : dmsMB :=
  mkMB (mb_collectionName b) (mb_flag b) (mb_blockID b) first last
    (mb_deleteList b) (mb_logicalID b) (mb_attributes b)
    (mb_loadFirstExtentID b) (mb_loadLastExtentID b) (mb_mbExExtentID b)
    (mb_dictExtentID b) (mb_newDictExtentID b) (mb_dictStatPageID b)
    (mb_dictVersion b) (mb_mbOptExtentID b) (mb_clUniqueID b).
Definition mb_with_load (b : dmsMB) (first last : Z) : dmsMB :=
  mkMB (mb_collectionName b) (mb_flag b) (mb_blockID b) (mb_firstExtentID b)
    (mb_lastExtentID b) (mb_deleteList b) (mb_logicalID b) (mb_attributes b)
    first last (mb_mbExExtentID b)
    (mb_dictExtentID b) (mb_newDictExtentID b) (mb_dictStatPageID b)
    (mb_dictVersion b) (mb_mbOptExtentID b) (mb_clUniqueID b).
Definition mb_with_ex (b : dmsMB) (mbEx mbOpt : Z) : dmsMB :=
  mkMB (mb_collectionName b) (mb_flag b) (mb_blockID b) (mb_firstExtentID b)
    (mb_lastExtentID b) (mb_deleteList b) (mb_logicalID b) (mb_attributes b)
    (mb_loadFirstExtentID b) (mb_loadLastExtentID b) mbEx
    (mb_dictExtentID b) (mb_newDictExtentID b) (mb_dictStatPageID b)
    (mb_dictVersion b) mbOpt (mb_clUniqueID b).

(** ** [_dmsMBStatInfo] *)

Record dmsMBStatInfo := mkStat {
  st_totalRecords : Z;
  st_totalDataPages : Z;
  st_totalDataFreeSpace : Z;
  st_totalOrgDataLen : Z;
  st_totalDataLen : Z;
  st_startLID : Z;
  st_flag : Z;
  st_lastWriteTick : Z;
  st_isCrash : bool
}.

Definition stat_reset : dmsMBStatInfo :=
  mkStat 0 0 0 0 0 DMS_INVALID_CLID 0 0 false.

Definition stat_with_startLID (s : dmsMBStatInfo) (v : Z) : dmsMBStatInfo :=
  mkStat (st_totalRecords s) (st_totalDataPages s) (st_totalDataFreeSpace s)
    (st_totalOrgDataLen s) (st_totalDataLen s) v (st_flag s) (st_lastWriteTick s)
    (st_isCrash s).
Definition stat_with_freeSpace (s : dmsMBStatInfo) (v : Z) : dmsMBStatInfo :=
  mkStat (st_totalRecords s) (st_totalDataPages s) v
    (st_totalOrgDataLen s) (st_totalDataLen s) (st_startLID s) (st_flag s)
    (st_lastWriteTick s) (st_isCrash s).
Definition stat_with_records (s : dmsMBStatInfo) (v : Z) : dmsMBStatInfo :=
  mkStat v (st_totalDataPages s) (st_totalDataFreeSpace s)
    (st_totalOrgDataLen s) (st_totalDataLen s) (st_startLID s) (st_flag s)
    (st_lastWriteTick s) (st_isCrash s).
Definition stat_with_lens (s : dmsMBStatInfo) (org len : Z) : dmsMBStatInfo :=
  mkStat (st_totalRecords s) (st_totalDataPages s) (st_totalDataFreeSpace s)
    org len (st_startLID s) (st_flag s) (st_lastWriteTick s) (st_isCrash s).

Definition stat_with_tick (s : dmsMBStatInfo) (v : Z) : dmsMBStatInfo :=
  mkStat (st_totalRecords s) (st_totalDataPages s) (st_totalDataFreeSpace s)
    (st_totalOrgDataLen s) (st_totalDataLen s) (st_startLID s) (st_flag s) v
    (st_isCrash s).

(** What [syncMemToMmap] leaves in the block of an in-use slot, and what
    [_onMapMeta] loads from it. *)
Definition stat_store (s : dmsMBStatInfo) : dmsMBDiskStat :=
  mkMBDiskStat (st_totalRecords s) (st_totalDataPages s) (st_totalDataFreeSpace s)
    (st_totalOrgDataLen s) (st_totalDataLen s).
Definition stat_load (s : dmsMBStatInfo) (b : dmsMB) (d : dmsMBDiskStat) : dmsMBStatInfo :=
  mkStat (ds_totalRecords d) (ds_totalDataPages d) (ds_totalDataFreeSpace d)
    (ds_totalOrgDataLen d) (ds_totalDataLen d) (mb_logicalID b) (st_flag s)
    (st_lastWriteTick s) (st_isCrash s).

(** ** Storage information and header *)

Record dmsStorageInfo := mkSI {
  si_pageSize : Z;
  si_suName : string;
  si_sequence : Z;
  si_enableSparse : bool;
  si_csUniqueID : Z
}.

Record dmsStorageUnitHeader := mkHeader {
  hd_eyeCatcher : string;
  hd_version : Z;
  hd_pageSize : Z;
  hd_storageUnitSize : Z;
  hd_name : string;
  hd_sequence : Z;
  hd_numMB : Z;
  hd_MBHWM : Z;
  hd_pageNum : Z;
  hd_csUniqueID : Z
}.

Definition DMS_SU_NAME_SZ : Z := DMS_COLLECTION_SPACE_NAME_SZ.
Definition DMS_HEADER_EYECATCHER_LEN : Z := 8.
Definition DMS_DATASU_EYECATCHER : string := "NOVADATA"%string.
Definition DMS_DATASU_CUR_VERSION : Z := 1.

Definition DMS_HEADER_SZ : Z := 65536.
Definition DMS_SME_SZ : Z := DMS_SME_LEN.
Definition DMS_MB_SIZE : Z := 1024.
Definition DMS_MME_SZ : Z := DMS_MME_SLOTS * DMS_MB_SIZE.
Definition DMS_HEADER_OFFSET : Z := 0.
Definition DMS_SME_OFFSET : Z := DMS_HEADER_OFFSET + DMS_HEADER_SZ.
Definition DMS_MME_OFFSET : Z := DMS_SME_OFFSET + DMS_SME_SZ.
Definition dataOffset : Z := DMS_MME_OFFSET + DMS_MME_SZ.

Definition initHeader (info : dmsStorageInfo) : dmsStorageUnitHeader :=
  mkHeader (str_take (Z.to_nat DMS_HEADER_EYECATCHER_LEN) DMS_DATASU_EYECATCHER)
    DMS_DATASU_CUR_VERSION (si_pageSize info)
    (u32 (dataOffset / si_pageSize info))
    (str_take (Z.to_nat DMS_SU_NAME_SZ) (si_suName info))
    (si_sequence info) 0 0 0 (si_csUniqueID info).

(** Return code and the storage information. *)
Definition checkPageSize (info : dmsStorageInfo) (h : dmsStorageUnitHeader)
    : Z * dmsStorageInfo :=
  if negb (DMS_PAGE_SIZE4K =? hd_pageSize h) && negb (DMS_PAGE_SIZE8K =? hd_pageSize h)
     && negb (DMS_PAGE_SIZE16K =? hd_pageSize h) && negb (DMS_PAGE_SIZE32K =? hd_pageSize h)
     && negb (DMS_PAGE_SIZE64K =? hd_pageSize h)
  then (SDB_INVALIDARG, info)
  else (SDB_OK,
        if negb (si_pageSize info =? hd_pageSize h)
        then mkSI (hd_pageSize h) (si_suName info) (si_sequence info)
               (si_enableSparse info) (si_csUniqueID info)
        else info).

(** The members of the storage object [_validateHeader] computes. *)
Record bdGeometry := mkBdGeo {
  g_pageSize : Z;
  g_pageSizeSquare : Z;
  g_pageNum : Z;
  g_segmentPages : Z;
  g_segmentPagesSquare : Z
}.

Definition bdGeo_zero : bdGeometry := mkBdGeo 0 0 0 0 0.

Definition strn_eqb (n : Z) (a b : string) : bool :=
  String.eqb (str_take (Z.to_nat n) a) (str_take (Z.to_nat n) b).

(** [_validateHeader]: the return code, the storage information and the
    members, as they are left on every path. *)
Definition validateHeader (info : dmsStorageInfo) (g : bdGeometry)
    (h : dmsStorageUnitHeader) : Z * dmsStorageInfo * bdGeometry :=
  if negb (strn_eqb DMS_HEADER_EYECATCHER_LEN (hd_eyeCatcher h) DMS_DATASU_EYECATCHER)
  then (SDB_INVALID_FILE_TYPE, info, g)
  else if DMS_DATASU_CUR_VERSION <? hd_version h
  then (SDB_DMS_INCOMPATIBLE_VERSION, info, g)
  else
    let '(rc, info) := checkPageSize info h in
    if negb (rc =? 0) then (rc, info, g)
    else
      let g := mkBdGeo (hd_pageSize h) (g_pageSizeSquare g) (g_pageNum g)
                 (g_segmentPages g) (g_segmentPagesSquare g) in
      let rc :=
        if negb (0 =? dataOffset mod hd_pageSize h) then SDB_SYS
        else if DMS_MAX_PG <? hd_pageNum h then SDB_SYS
        else if negb (u32 (hd_storageUnitSize h - hd_pageNum h) =? dataOffset / hd_pageSize h)
        then SDB_SYS
        else if negb (strn_eqb DMS_SU_NAME_SZ (si_suName info) (hd_name h)) then SDB_SYS
        else rc in
      if negb (rc =? 0) then (rc, info, g)
      else
        match ossIsPowerOf2 (hd_pageSize h) with
        | (true, Some square) =>
            let info :=
              if negb (si_sequence info =? hd_sequence h)
              then mkSI (si_pageSize info) (si_suName info) (hd_sequence h)
                     (si_enableSparse info) (si_csUniqueID info)
              else info in
            let segmentPages := Z.shiftr DMS_SEGMENT_SZ square in
            let g := mkBdGeo (g_pageSize g) square (hd_pageNum h) segmentPages
                       (g_segmentPagesSquare g) in
            match ossIsPowerOf2 segmentPages with
            | (true, Some sps) =>
                (SDB_OK,
                 if negb (si_csUniqueID info =? hd_csUniqueID h)
                 then mkSI (si_pageSize info) (si_suName info) (si_sequence info)
                        (si_enableSparse info) (hd_csUniqueID h)
                 else info,
                 mkBdGeo (g_pageSize g) (g_pageSizeSquare g) (g_pageNum g)
                   (g_segmentPages g) sps)
            | _ => (SDB_SYS, info, g)
            end
        | _ => (SDB_INVALIDARG, info, g)
        end.

(** ** Properties of the header *)

(** The page geometries a storage file can have. *)
Definition geometry_ok (g : bdGeometry) : Prop :=
  12 <= g_pageSizeSquare g <= 16 /\ g_pageSize g = 2 ^ g_pageSizeSquare g /\
  g_segmentPagesSquare g = 27 - g_pageSizeSquare g /\
  g_segmentPages g = 2 ^ g_segmentPagesSquare g /\
  0 <= g_pageNum g <= DMS_MAX_PG.

Definition geo_of (g : bdGeometry) : dmsGeometry :=
  mkGeo (g_segmentPages g) (g_segmentPagesSquare g).

Lemma geometry_geo_ok g : geometry_ok g -> geo_ok (geo_of g).
Proof. intros (?&?&?&?&?). split; simpl; [lia|done]. Qed.

Lemma pageSize_cases info h info' :
  checkPageSize info h = (SDB_OK, info') ->
  exists k, 12 <= k <= 16 /\ hd_pageSize h = 2 ^ k.
Proof.
  unfold checkPageSize.
  repeat match goal with
  | |- context [?a =? hd_pageSize h] =>
      destruct (Z.eqb_spec a (hd_pageSize h)) as [<-|]; simpl
  end; intros [=].
  - by exists 12.
  - by exists 13.
  - by exists 14.
  - by exists 15.
  - by exists 16.
Qed.

Lemma segmentPages_pow2 k :
  12 <= k <= 16 -> Z.shiftr DMS_SEGMENT_SZ k = 2 ^ (27 - k).
Proof.
  intros Hk. rewrite shiftr_div by lia. change DMS_SEGMENT_SZ with (2 ^ 27).
  by rewrite Z.pow_sub_r by lia.
Qed.

(** A header [_validateHeader] accepts determines a consistent geometry:
    the page size is a power of two from 4K to 64K, a segment is 128MB of
    pages, the page number is within the mask, the recorded size of the file
    is the metadata plus the data pages, and the storage information agrees
    with the header. *)
Theorem header_validate_sound info g h info' g' :
  0 <= hd_pageNum h < 4294967296 -> 0 <= hd_storageUnitSize h < 4294967296 ->
  validateHeader info g h = (SDB_OK, info', g') ->
  geometry_ok g' /\ g_pageNum g' = hd_pageNum h /\ g_pageSize g' = hd_pageSize h /\
  hd_storageUnitSize h = hd_pageNum h + dataOffset / hd_pageSize h /\
  si_pageSize info' = hd_pageSize h /\ si_sequence info' = hd_sequence h /\
  si_csUniqueID info' = hd_csUniqueID h /\ hd_version h <= DMS_DATASU_CUR_VERSION.
Proof.
  intros Hpn Hus. unfold validateHeader.
  destruct (negb (strn_eqb _ (hd_eyeCatcher h) _)); [done|].
  destruct (Z.ltb_spec DMS_DATASU_CUR_VERSION (hd_version h)); [done|].
  destruct (checkPageSize info h) as [rc1 info1] eqn:E1.
  destruct (Z.eqb_spec rc1 0) as [->|]; simpl; [|intros; simplify_eq; done].
  pose proof (pageSize_cases _ _ _ E1) as (k&Hk&Eps).
  assert (si_pageSize info1 = hd_pageSize h /\ si_sequence info1 = si_sequence info /\
    si_csUniqueID info1 = si_csUniqueID info) as (I1&I2&I3).
  { unfold checkPageSize in E1. destruct (_ && _); [done|].
    injection E1 as <-. destruct (Z.eqb_spec (si_pageSize info) (hd_pageSize h)); done. }
  destruct (negb (0 =? _)); [done|].
  destruct (Z.ltb_spec DMS_MAX_PG (hd_pageNum h)); [done|].
  destruct (Z.eqb_spec (u32 (hd_storageUnitSize h - hd_pageNum h))
              (dataOffset / hd_pageSize h)) as [Esz|]; [|done].
  destruct (negb (strn_eqb _ (si_suName info1) _)); [done|]. simpl.
  rewrite Eps, ossIsPowerOf2_pow2, segmentPages_pow2, ossIsPowerOf2_pow2 by lia.
  intros [= <- <-]. simpl. unfold geometry_ok. simpl.
  assert (hd_storageUnitSize h = hd_pageNum h + dataOffset / 2 ^ k) as ->.
  { rewrite Eps in Esz.
    assert (0 <= dataOffset / 2 ^ k < 65536).
    { assert (2 ^ 12 <= 2 ^ k) by (apply Z.pow_le_mono_r; lia).
      split; [apply Z.div_pos; [vm_compute; discriminate|lia]|].
      apply Z.div_lt_upper_bound; [lia|]. change dataOffset with 21037056. lia. }
    unfold u32 in Esz. unfold DMS_MAX_PG in *.
    destruct (decide (0 <= hd_storageUnitSize h - hd_pageNum h)).
    - rewrite Z.mod_small in Esz by lia. lia.
    - rewrite <- (Z.mod_add _ 1) in Esz by lia. rewrite Z.mod_small in Esz by lia. lia. }
  destruct (Z.eqb_spec (si_sequence info1) (hd_sequence h)); simpl;
    destruct (Z.eqb_spec (si_csUniqueID info1) (hd_csUniqueID h)); simpl;
    split_and!; try done; try lia; congruence.
Qed.

Definition info_example : dmsStorageInfo := mkSI DMS_PAGE_SIZE64K "foo" 1 false 7.

Lemma header_validate_sound_witness :
  exists g', (validateHeader info_example bdGeo_zero (initHeader info_example)).2 = g' /\
    geometry_ok g'.
Proof.
  destruct (validateHeader info_example bdGeo_zero (initHeader info_example))
    as [[rc info'] g'] eqn:E.
  exists g'. split; [reflexivity|].
  destruct (header_validate_sound info_example bdGeo_zero (initHeader info_example) info' g')
    as (H&_).
  - vm_compute. split; congruence.
  - vm_compute. split; congruence.
  - rewrite E. vm_compute in E. injection E as <- _ _. reflexivity.
  - exact H.
Defined.

Lemma str_take_idem n s : str_take n (str_take n s) = str_take n s.
Proof. revert s. induction n; intros []; simpl; try done. by rewrite IHn. Qed.

Lemma header_valid info g k :
  12 <= k <= 16 -> si_pageSize info = 2 ^ k ->
  exists g', validateHeader info g (initHeader info) = (SDB_OK, info, g') /\
    geometry_ok g' /\ g_pageNum g' = 0 /\ g_pageSize g' = 2 ^ k /\
    hd_storageUnitSize (initHeader info) * 2 ^ k = dataOffset.
Proof.
  intros Hk Hps. unfold validateHeader, checkPageSize, initHeader, strn_eqb.
  cbn [hd_eyeCatcher hd_version hd_pageSize hd_storageUnitSize hd_name hd_sequence
       hd_pageNum hd_csUniqueID].
  rewrite Hps.
  assert (negb (DMS_PAGE_SIZE4K =? 2 ^ k) && negb (DMS_PAGE_SIZE8K =? 2 ^ k)
    && negb (DMS_PAGE_SIZE16K =? 2 ^ k) && negb (DMS_PAGE_SIZE32K =? 2 ^ k)
    && negb (DMS_PAGE_SIZE64K =? 2 ^ k) = false /\ (0 =? dataOffset mod 2 ^ k) = true /\
    0 <= dataOffset / 2 ^ k < 65536 /\ dataOffset / 2 ^ k * 2 ^ k = dataOffset) as (E1&E2&Hd&Hm).
  { assert (k = 12 \/ k = 13 \/ k = 14 \/ k = 15 \/ k = 16) as Hc by lia.
    destruct Hc as [-> | [-> | [-> | [-> | ->]]]]; vm_compute; split_and!; congruence. }
  rewrite !str_take_idem, !String.eqb_refl, E1, E2, Z.eqb_refl, Z.sub_0_r.
  rewrite !(u32_id (dataOffset / 2 ^ k)), Z.eqb_refl by lia.
  change (DMS_DATASU_CUR_VERSION <? DMS_DATASU_CUR_VERSION) with false.
  change (DMS_MAX_PG <? 0) with false. change (SDB_OK =? 0) with true.
  cbn [negb]. rewrite String.eqb_refl. cbn [negb]. change (SDB_OK =? 0) with true. cbn [negb].
  rewrite ossIsPowerOf2_pow2, segmentPages_pow2, ossIsPowerOf2_pow2 by lia.
  rewrite (Z.eqb_refl (si_sequence info)). cbn [negb].
  rewrite (Z.eqb_refl (si_csUniqueID info)), !Z.eqb_refl. simpl. eexists. split; [done|]. unfold geometry_ok, DMS_MAX_PG. simpl. split_and!; try done; lia.
Qed.

(** The header written for a new storage file, with any of the five page
    sizes and any name, is accepted when the file is opened again, and the
    storage information is left as it was. *)
Theorem header_roundtrip info g k :
  12 <= k <= 16 -> si_pageSize info = 2 ^ k ->
  exists g', validateHeader info g (initHeader info) = (SDB_OK, info, g') /\
    geometry_ok g' /\ g_pageNum g' = 0.
Proof.
  intros Hk Hps. destruct (header_valid info g k Hk Hps) as (g'&?&?&?&_). by exists g'.
Qed.

Lemma header_roundtrip_witness :
  exists g', validateHeader info_example bdGeo_zero (initHeader info_example)
    = (SDB_OK, info_example, g').
Proof.
  destruct (header_roundtrip info_example bdGeo_zero 16) as (g'&E&_).
  - lia.
  - reflexivity.
  - exists g'. exact E.
Defined.

(** A collection's unique identifier packs the identifier of its space
    and its inner identifier, and both come back. *)
Theorem uniqueID_roundtrip cs inner :
  0 <= cs < 4294967296 -> 0 <= inner < 4294967296 ->
  utilGetCSUniqueID (utilBuildCLUniqueID cs inner) = cs /\
  utilGetCLInnerID (utilBuildCLUniqueID cs inner) = inner.
Proof.
  intros Hc Hi. unfold utilGetCSUniqueID, utilGetCLInnerID, utilBuildCLUniqueID.
  rewrite lor_shiftl_add by lia. change (2 ^ 32) with 4294967296.
  rewrite u64_id, shiftr_div by lia. change (2 ^ 32) with 4294967296.
  rewrite Z.div_add_l, Z.div_small by lia. unfold u32.
  rewrite Z.add_0_r, (Z.mod_small cs), (Z.add_comm (cs * _)), Z.mod_add, Z.mod_small by lia.
  done.
Qed.

Lemma uniqueID_roundtrip_witness : utilGetCSUniqueID (utilBuildCLUniqueID 621 1) = 621.
Proof. apply (uniqueID_roundtrip 621 1); lia. Defined.

