(* ===== verification/Bson.v ===== *)
(** * The part of the BSON library the storage unit uses
    (src/src/bson/bsonelement.h, src/src/bson/bson-inl.h,
    src/src/bson/bsonobjiterator.h) and the record checks of
    src/src/dms/dmsBlockData.cpp

    An object is its bytes; an element is the bytes from its type byte on.
    Reading past the end of the list gives zeros.  [BThrow] is a failed
    [massert]; [BUndef] is a step backwards in the buffer (a negative length
    in the data), which the library does not exclude. *)
From S2P Require Import Prelude.
From S2P Require Import ByteBits.
From S2P Require Import DmsRecord.

Inductive bres (A : Type) := BOk (a : A) | BThrow | BUndef.
Arguments BOk {A} _.
Arguments BThrow {A}.
Arguments BUndef {A}.

(** ** Types *)

Definition EOO : Z := 0.
Definition Object : Z := 3.
Definition BArray : Z := 4.
Definition jstOID : Z := 7.
Definition RegEx : Z := 11.

(** ** Elements *)

Definition byte (l : list Z) (i : nat) : Z := nth i l 0.

(** [(signed char)*data] *)
Definition el_type (e : list Z) : Z :=
  let b := byte e 0 in if b <? 128 then b else b - 256.

Definition el_eoo (e : list Z) : bool := el_type e =? EOO.

(** [strlen] and the bytes before the NUL. *)
Fixpoint cstr (l : list Z) : list Z :=
  match l with
  | [] => []
  | b :: l => if b =? 0 then [] else b :: cstr l
  end.

Definition el_fieldName (e : list Z) : list Z :=
  if el_eoo e then [] else cstr (drop 1 e).

Definition el_fieldNameSize (e : list Z) : Z :=
  if el_eoo e then 0 else Z.of_nat (length (cstr (drop 1 e))) + 1.

Definition el_value (e : list Z) : list Z := drop (Z.to_nat (el_fieldNameSize e + 1)) e.

Definition int_at (l : list Z) : Z := i32 (bytes_u32 (take 4 (l ++ [0; 0; 0; 0]))).

Definition el_valuestrsize (e : list Z) : Z := int_at (el_value e).
Definition el_objsize (e : list Z) : Z := int_at (el_value e).

(** The size of the value, by type. *)
Definition val_size (t : Z) (v : list Z) : bres Z :=
  if (t =? 0) || (t =? 6) || (t =? 10) || (t =? 127) || (t =? -1) then BOk 0
  else if t =? 8 then BOk 1
  else if t =? 16 then BOk 4
  else if (t =? 17) || (t =? 9) || (t =? 1) || (t =? 18) then BOk 8
  else if t =? 100 then BOk (int_at v)
  else if t =? 7 then BOk 12
  else if (t =? 14) || (t =? 13) || (t =? 2) then BOk (i32 (int_at v + 4))
  else if t =? 12 then BOk (i32 (int_at v + 4 + 12))
  else if (t =? 15) || (t =? 3) || (t =? 4) then BOk (int_at v)
  else if t =? 5 then BOk (i32 (int_at v + 4 + 1))
  else if t =? 11 then
    let len1 := Z.of_nat (length (cstr v)) in
    let p := drop (Z.to_nat (len1 + 1)) v in
    BOk (len1 + 1 + Z.of_nat (length (cstr p)) + 1)
  else BThrow.

Definition el_size (e : list Z) : bres Z :=
  if el_eoo e then BOk 1
  else
    match val_size (el_type e) (el_value e) with
    | BOk x => BOk (i32 (x + el_fieldNameSize e + 1))
    | BThrow => BThrow
    | BUndef => BUndef
    end.

Definition el_isABSONObj (e : list Z) : bool :=
  (el_type e =? Object) || (el_type e =? BArray).

(** ** Objects *)

Definition BSONObjMaxUserSize : Z := 16 * 1024 * 1024.
Definition BSONObjMaxInternalSize : Z := BSONObjMaxUserSize + 16 * 1024.

Definition objsize (o : list Z) : Z := int_at o.
Definition bson_isValid (o : list Z) : bool :=
  (0 <? objsize o) && (objsize o <=? BSONObjMaxInternalSize).

(** [BSONObj( const char * )] *)
Definition bson_obj (o : list Z) : bres (list Z) :=
  if negb (bson_isValid o) then BThrow else BOk o.

(** Visiting the elements: [pos] is what is left of the object from the
    iterator's position, [remain] the distance to its end.  [f] stops the
    loop with a result.  An element has at least one byte, so [remain] turns
    are enough. *)
Fixpoint iter_loop {A} (fuel : nat) (f : list Z -> option (bres A)) (dflt : A)
    (pos : list Z) (remain : Z) : bres A :=
  match fuel with
  | O => BOk dflt
  | S fuel =>
      if 0 <? remain then
        match el_size pos with
        | BOk sz =>
            match f pos with
            | Some r => r
            | None =>
                if sz <=? 0 then BUndef
                else iter_loop fuel f dflt (drop (Z.to_nat sz) pos) (remain - sz)
            end
        | BThrow => BThrow
        | BUndef => BUndef
        end
      else BOk dflt
  end.

(** [BSONObjIterator]: from the first element to the byte before the last. *)
Definition bson_iter {A} (f : list Z -> option (bres A)) (dflt : A) (o : list Z) : bres A :=
  if objsize o =? 0 then BOk dflt
  else iter_loop (Z.to_nat (objsize o)) f dflt (drop 4 o) (objsize o - 1 - 4).

(** [getField]; the empty element ([BSONElement()]) is one EOO byte. *)
Definition bson_getField (o name : list Z) : bres (list Z) :=
  bson_iter (fun e => if decide (el_fieldName e = name) then Some (BOk e) else None) [0] o.

(** ** Record checks *)

Definition ID_NAME : list Z := [95; 105; 100]. (* _id *)

(** [dmsIsKeyNameValid]; objects nest at most as deep as they are long. *)
Fixpoint dmsIsKeyNameValid (fuel : nat) (o : list Z) : bres bool :=
  match fuel with
  | O => BUndef
  | S fuel =>
      bson_iter (fun e =>
        if byte (el_fieldName e) 0 =? 36 (* dollar *) then Some (BOk false)
        else if existsb (Z.eqb 46) (el_fieldName e) then Some (BOk false)
        else if el_isABSONObj e then
          match bson_obj (el_value e) with
          | BOk sub =>
              match dmsIsKeyNameValid fuel sub with
              | BOk true => None
              | r => Some r
              end
          | BThrow => Some BThrow
          | BUndef => Some BUndef
          end
        else None) true o
  end.

Definition dmsIsRecordIDValid (oidEle : list Z) (allowEOO : bool) : bres bool :=
  let t := el_type oidEle in
  if t =? EOO then BOk allowEOO
  else if t =? BArray then BOk false
  else if t =? RegEx then BOk false
  else if t =? Object then
    match bson_obj (el_value oidEle) with
    | BOk sub => dmsIsKeyNameValid (length oidEle) sub
    | BThrow => BThrow
    | BUndef => BUndef
    end
  else BOk true.

(** [IDToInsert]: the [_id] element with a fresh identifier of twelve bytes. *)
Definition idToInsert (oid : list Z) : list Z := jstOID :: ID_NAME ++ [0] ++ oid.

(** The object with the element put first, as [_prepareInsertData] builds it. *)
Definition bson_prepend (e o : list Z) : list Z :=
  u32_bytes (u32 (Z.of_nat (length e) + objsize o)) ++ e ++
  take (Z.to_nat (objsize o - 4)) (drop 4 o).

(** ** Documents: what well-formed objects are *)

Record field := mkField { fd_type : Z; fd_name : list Z; fd_value : list Z }.

(** The name is a C string, and the value has the size its type gives it. *)
Record field_ok (f : field) : Prop := {
  fo_type : 1 <= fd_type f < 128;
  fo_name : Forall (fun b => 1 <= b < 256) (fd_name f);
  fo_bytes : is_bytes (fd_value f);
  fo_size : forall rest, val_size (fd_type f) (fd_value f ++ rest)
                         = BOk (Z.of_nat (length (fd_value f)))
}.

Definition enc_field (f : field) : list Z :=
  fd_type f :: fd_name f ++ [0] ++ fd_value f.

Definition enc_fields (fs : list field) : list Z := concat (map enc_field fs).

Definition enc_doc (fs : list field) : list Z :=
  u32_bytes (Z.of_nat (length (enc_fields fs)) + 5) ++ enc_fields fs ++ [0].

Definition doc_ok (fs : list field) : Prop :=
  Forall field_ok fs /\ Z.of_nat (length (enc_doc fs)) <= BSONObjMaxInternalSize.

(** *** Reading an encoded element *)

Lemma cstr_app n rest :
  Forall (fun b => 1 <= b < 256) n -> cstr (n ++ 0 :: rest) = n.
Proof.
  induction 1 as [|b n Hb _ IH]; [done|]. simpl.
  destruct (Z.eqb_spec b 0); [lia|]. by rewrite IH.
Qed.

Lemma enc_field_read f rest :
  field_ok f ->
  let e := enc_field f ++ rest in
  el_type e = fd_type f /\ el_eoo e = false /\ el_fieldName e = fd_name f /\
  el_value e = fd_value f ++ rest.
Proof.
  intros [Ht Hn Hb Hs] e. subst e.
  assert (el_type (enc_field f ++ rest) = fd_type f) as Et.
  { unfold el_type, byte. simpl. destruct (Z.ltb_spec (fd_type f) 128); lia. }
  assert (el_eoo (enc_field f ++ rest) = false) as Eo.
  { unfold el_eoo. rewrite Et. apply Z.eqb_neq. unfold EOO. lia. }
  assert (drop 1 (enc_field f ++ rest) = fd_name f ++ 0 :: fd_value f ++ rest) as Ed.
  { simpl. by rewrite drop_0, <- !(assoc_L (++)). }
  assert (cstr (drop 1 (enc_field f ++ rest)) = fd_name f) as Ec
    by (rewrite Ed; by apply cstr_app).
  split_and!; try done.
  - unfold el_fieldName. by rewrite Eo, Ec.
  - unfold el_value, el_fieldNameSize. rewrite Eo, Ec.
    replace (Z.to_nat (Z.of_nat (length (fd_name f)) + 1 + 1))
      with (S (length (fd_name f ++ [0]))) by (rewrite length_app; simpl; lia).
    replace (enc_field f ++ rest)
      with (fd_type f :: (fd_name f ++ [0]) ++ fd_value f ++ rest)
      by (unfold enc_field; simpl; by rewrite <- !(assoc_L (++))).
    simpl. by rewrite drop_app_length.
Qed.

Lemma enc_field_size f rest :
  field_ok f -> Z.of_nat (length (enc_field f)) < 2147483648 ->
  el_size (enc_field f ++ rest) = BOk (Z.of_nat (length (enc_field f))).
Proof.
  intros Hf Hl. destruct (enc_field_read f rest Hf) as (Et&Eo&En&Ev).
  unfold el_size. rewrite Eo, Et, Ev, (fo_size _ Hf).
  assert (el_fieldNameSize (enc_field f ++ rest) = Z.of_nat (length (fd_name f)) + 1) as ->.
  { unfold el_fieldNameSize. rewrite Eo. unfold el_fieldName in En. rewrite Eo in En. by rewrite En. }
  unfold enc_field in *. simpl in *. rewrite length_app in *. simpl in *.
  rewrite i32_id by lia. f_equal. lia.
Qed.

Lemma length_enc_field f : Z.of_nat (length (enc_field f)) =
  Z.of_nat (length (fd_name f)) + Z.of_nat (length (fd_value f)) + 2.
Proof. unfold enc_field. simpl. rewrite length_app. simpl. lia. Qed.

(** *** Looking a field up

    The first field with the name, or the empty element. *)
Fixpoint find_field (name : list Z) (fs : list field) : option field :=
  match fs with
  | [] => None
  | f :: fs => if decide (fd_name f = name) then Some f else find_field name fs
  end.

Lemma iter_getField name fs : forall fuel rest,
  Forall field_ok fs -> Z.of_nat (length (enc_fields fs)) < 2147483648 ->
  (length (enc_fields fs) <= fuel)%nat ->
  match find_field name fs with
  | Some f => exists rest',
      iter_loop fuel (fun e => if decide (el_fieldName e = name) then Some (BOk e) else None)
        [0] (enc_fields fs ++ rest) (Z.of_nat (length (enc_fields fs)))
      = BOk (enc_field f ++ rest')
  | None =>
      iter_loop fuel (fun e => if decide (el_fieldName e = name) then Some (BOk e) else None)
        [0] (enc_fields fs ++ rest) (Z.of_nat (length (enc_fields fs))) = BOk [0]
  end.
Proof.
  induction fs as [|f fs IH]; intros fuel rest Hok Hl Hfuel; simpl.
  { by destruct fuel. }
  apply Forall_cons in Hok as [Hf Hok].
  change (enc_fields (f :: fs)) with (enc_field f ++ enc_fields fs) in *.
  rewrite length_app in *. pose proof (length_enc_field f) as Hlen.
  destruct fuel as [|fuel]; [lia|]. rewrite <- (assoc_L (++)).
  destruct (enc_field_read f (enc_fields fs ++ rest) Hf) as (Et&Eo&En&Ev).
  pose proof (enc_field_size f (enc_fields fs ++ rest) Hf ltac:(lia)) as Es.
  assert (forall (A : Type) (g : list Z -> option (bres A)) d,
    iter_loop (S fuel) g d (enc_field f ++ enc_fields fs ++ rest)
      (Z.of_nat (length (enc_field f) + length (enc_fields fs))) =
    match g (enc_field f ++ enc_fields fs ++ rest) with
    | Some r => r
    | None => iter_loop fuel g d (enc_fields fs ++ rest) (Z.of_nat (length (enc_fields fs)))
    end) as Hstep.
  { intros A g d. cbn [iter_loop].
    destruct (Z.ltb_spec 0 (Z.of_nat (length (enc_field f) + length (enc_fields fs)))); [|lia].
    rewrite Es. destruct (Z.leb_spec (Z.of_nat (length (enc_field f))) 0); [lia|].
    rewrite Nat2Z.id, drop_app_length. destruct (g _); [done|]. f_equal. lia. }
  rewrite !Hstep, En.
  destruct (decide (fd_name f = name)); [by eexists|].
  apply IH; [done|lia|lia].
Qed.

Lemma int_at_u32 x l : 0 <= x < 2147483648 -> int_at (u32_bytes x ++ l) = x.
Proof.
  intros Hx. unfold int_at. rewrite <- (assoc_L (++)).
  change 4%nat with (length (u32_bytes x)). rewrite take_app_length.
  rewrite bytes_u32_bytes by lia. apply i32_id. lia.
Qed.

Lemma length_enc_doc fs : length (enc_doc fs) = (length (enc_fields fs) + 5)%nat.
Proof. unfold enc_doc. rewrite !length_app. simpl. lia. Qed.

Lemma objsize_doc fs :
  doc_ok fs -> objsize (enc_doc fs) = Z.of_nat (length (enc_doc fs)).
Proof.
  intros [_ Hl]. unfold BSONObjMaxInternalSize, BSONObjMaxUserSize in Hl.
  rewrite length_enc_doc in *. unfold objsize, enc_doc. rewrite int_at_u32; lia.
Qed.

Lemma getField_doc name fs :
  doc_ok fs ->
  match find_field name fs with
  | Some f => exists rest, bson_getField (enc_doc fs) name = BOk (enc_field f ++ rest)
  | None => bson_getField (enc_doc fs) name = BOk [0]
  end.
Proof.
  intros Hd. pose proof Hd as [Hok Hl]. unfold bson_getField, bson_iter.
  rewrite (objsize_doc _ Hd).
  unfold BSONObjMaxInternalSize, BSONObjMaxUserSize in Hl. rewrite length_enc_doc in *.
  destruct (Z.eqb_spec (Z.of_nat (length (enc_fields fs) + 5)) 0); [lia|].
  replace (Z.of_nat (length (enc_fields fs) + 5) - 1 - 4)
    with (Z.of_nat (length (enc_fields fs))) by lia.
  change (drop 4 (enc_doc fs)) with (drop 0 (enc_fields fs ++ [0])). rewrite drop_0.
  apply iter_getField; [done|lia|lia].
Qed.

(** *** Putting an element first *)

Lemma prepend_doc f fs :
  field_ok f -> doc_ok fs ->
  Z.of_nat (length (enc_doc fs)) + Z.of_nat (length (enc_field f)) < 2147483648 ->
  bson_prepend (enc_field f) (enc_doc fs) = enc_doc (f :: fs).
Proof.
  intros Hf Hd Hl. unfold bson_prepend. rewrite (objsize_doc _ Hd).
  rewrite u32_id by lia. change (drop 4 (enc_doc fs)) with (drop 0 (enc_fields fs ++ [0])).
  rewrite drop_0. rewrite length_enc_doc in *.
  rewrite take_ge by (rewrite length_app; simpl; lia).
  unfold enc_doc. change (enc_fields (f :: fs)) with (enc_field f ++ enc_fields fs).
  rewrite length_app, <- !(assoc_L (++)). do 2 f_equal. lia.
Qed.

Lemma oid_field_ok oid : is_bytes oid -> length oid = 12%nat ->
  field_ok (mkField jstOID ID_NAME oid) /\ idToInsert oid = enc_field (mkField jstOID ID_NAME oid).
Proof.
  intros Hb Hl. split; [|done]. split; simpl.
  - unfold jstOID. lia.
  - unfold ID_NAME. repeat constructor; lia.
  - done.
  - intros rest. rewrite Hl. reflexivity.
Qed.

(** When a record without an [_id] gets one, the merged buffer is again a
    well-formed object: its length word counts the seventeen new bytes, [_id]
    looks up the new identifier, and every other field looks up what it did. *)
Theorem oid_insert_correct oid fs name :
  is_bytes oid -> length oid = 12%nat -> doc_ok fs ->
  find_field ID_NAME fs = None ->
  let merged := bson_prepend (idToInsert oid) (enc_doc fs) in
  merged = enc_doc (mkField jstOID ID_NAME oid :: fs) /\
  objsize merged = objsize (enc_doc fs) + 17 /\
  length merged = (length (enc_doc fs) + 17)%nat /\
  find_field name (mkField jstOID ID_NAME oid :: fs) =
    if decide (name = ID_NAME) then Some (mkField jstOID ID_NAME oid)
    else find_field name fs.
Proof.
  intros Hb Hl Hd Hno merged. destruct (oid_field_ok oid Hb Hl) as [Hf E].
  pose proof Hd as [_ Hmax]. unfold BSONObjMaxInternalSize, BSONObjMaxUserSize in Hmax.
  assert (length (enc_field (mkField jstOID ID_NAME oid)) = 17%nat) as H17
    by (unfold enc_field; simpl; by rewrite Hl).
  assert (merged = enc_doc (mkField jstOID ID_NAME oid :: fs)) as Em.
  { subst merged. rewrite E. apply prepend_doc; [done|done|lia]. }
  assert (length merged = (length (enc_doc fs) + 17)%nat) as El.
  { rewrite Em, !length_enc_doc.
    change (enc_fields (mkField jstOID ID_NAME oid :: fs))
      with (enc_field (mkField jstOID ID_NAME oid) ++ enc_fields fs).
    rewrite length_app, H17. lia. }
  split_and!; [done| |done|].
  - rewrite Em, (objsize_doc fs Hd). unfold objsize, enc_doc at 1.
    rewrite Em, length_enc_doc in El. rewrite int_at_u32; lia.
  - simpl. destruct (decide (ID_NAME = name)), (decide (name = ID_NAME)); congruence.
Qed.

Lemma oid_insert_correct_witness :
  objsize (bson_prepend (idToInsert (repeat 1 12)) (enc_doc [])) = 22.
Proof.
  destruct (oid_insert_correct (repeat 1 12) [] ID_NAME) as (_&H&_).
  - simpl. repeat constructor; lia.
  - reflexivity.
  - split; [constructor|vm_compute; discriminate].
  - reflexivity.
  - rewrite H. reflexivity.
Defined.
