(* ===== verification/DmsStore.v ===== *)
(** * The storage unit: [_dmsBlockData] (src/src/dms/dmsBlockData.cpp,
    src/src/dms/dmsBlockData.hpp)

    State, memory and the monad of one session's operations.

    Mapped memory is a typed store: the data extents by their first page, the
    extent indexes ([dmsMBEx]) by theirs, and the records (used and deleted,
    one layout, DmsRecord.v) by their identifier; memory never written reads
    as zero.  That cells of a collection do not overlap, which makes the
    typed view exact, is part of the invariant (DmsCol.v, DmsRefine.v).

    An operation runs on the state of the storage unit and the context of the
    session, and ends normally, with a C++ exception, or stops (waiting for
    a latch, or in [ossPanic]).  Calls into the operating system and the
    allocator take their results from the oracle [os]. *)
From S2P Require Import Prelude.
From S2P Require Import ByteBits.
From S2P Require Import OssBase.
From S2P Require Import OssMmap.
From S2P Require Import DmsBase.
From S2P Require Import DmsName.
From S2P Require Import DmsSegmentSpace.
From S2P Require Import DmsSMEMgr.
From S2P Require Import DmsRecord.
From S2P Require Import DmsDirtyList.
From S2P Require Import DmsMBContext.
From S2P Require Import DmsExtent.
From S2P Require Import DmsMB.
From Stdlib Require Import String.
#[local] Open Scope Z_scope.

(** ** State *)

(** What no stored data depends on: the system calls made so far, the number
    of pooled contexts ([_vecContext]), the statistics copied to the mapped
    metadata blocks, the dirty list, and the extents written through accessors
    that are still in scope. *)
Record auxState := mkAux {
  ax_calls : nat;
  ax_pool : Z;
  ax_diskStat : gmap Z dmsMBDiskStat;
  ax_dirty : dmsDirtyList;
  ax_pending : list (Z * Z)
}.

(** What extending the file changes: the mapped file, [_maxSegID], the header
    and [_pageNum]. *)
Record segState := mkSegState {
  sg_file : ossMmapFile;
  sg_maxSegID : Z;
  sg_header : dmsStorageUnitHeader;
  sg_pageNum : Z
}.

Record blockData := mkBD {
  bd_info : dmsStorageInfo;
  bd_geo : bdGeometry;
  bd_dataSegID : Z;
  bd_mmeSegID : Z;
  bd_seg : segState;
  bd_smeMgr : dmsSMEMgr dmsSpaceManagementExtent;
  bd_MME : gmap Z dmsMB;
  bd_names : gmap string Z;
  bd_ids : gmap Z Z;
  bd_ext : gmap Z dmsExtent;
  bd_mbex : gmap Z dmsMBEx;
  bd_rec : gmap dmsRecordID dmsRecord;
  bd_latch : gmap Z ossSLatch;
  bd_ctx : dmsMBContext;
  bd_mbStatInfo : gmap Z dmsMBStatInfo;
  bd_aux : auxState
}.

Definition set_info (st : blockData) (v : dmsStorageInfo) : blockData :=
  mkBD v (bd_geo st) (bd_dataSegID st) (bd_mmeSegID st) (bd_seg st)
    (bd_smeMgr st) (bd_MME st) (bd_names st) (bd_ids st) (bd_ext st)
    (bd_mbex st) (bd_rec st) (bd_latch st) (bd_ctx st) (bd_mbStatInfo st)
    (bd_aux st).
Definition set_geo (st : blockData) (v : bdGeometry) : blockData :=
  mkBD (bd_info st) v (bd_dataSegID st) (bd_mmeSegID st) (bd_seg st)
    (bd_smeMgr st) (bd_MME st) (bd_names st) (bd_ids st) (bd_ext st)
    (bd_mbex st) (bd_rec st) (bd_latch st) (bd_ctx st) (bd_mbStatInfo st)
    (bd_aux st).
Definition set_segIDs (st : blockData) (dataSegID mmeSegID : Z) : blockData :=
  mkBD (bd_info st) (bd_geo st) dataSegID mmeSegID (bd_seg st)
    (bd_smeMgr st) (bd_MME st) (bd_names st) (bd_ids st) (bd_ext st)
    (bd_mbex st) (bd_rec st) (bd_latch st) (bd_ctx st) (bd_mbStatInfo st)
    (bd_aux st).
Definition set_seg (st : blockData) (v : segState) : blockData :=
  mkBD (bd_info st) (bd_geo st) (bd_dataSegID st) (bd_mmeSegID st) v
    (bd_smeMgr st) (bd_MME st) (bd_names st) (bd_ids st) (bd_ext st)
    (bd_mbex st) (bd_rec st) (bd_latch st) (bd_ctx st) (bd_mbStatInfo st)
    (bd_aux st).
Definition set_sme (st : blockData) (v : dmsSMEMgr dmsSpaceManagementExtent) : blockData :=
  mkBD (bd_info st) (bd_geo st) (bd_dataSegID st) (bd_mmeSegID st) (bd_seg st)
    v (bd_MME st) (bd_names st) (bd_ids st) (bd_ext st) (bd_mbex st)
    (bd_rec st) (bd_latch st) (bd_ctx st) (bd_mbStatInfo st) (bd_aux st).
Definition set_MME (st : blockData) (v : gmap Z dmsMB) : blockData :=
  mkBD (bd_info st) (bd_geo st) (bd_dataSegID st) (bd_mmeSegID st) (bd_seg st)
    (bd_smeMgr st) v (bd_names st) (bd_ids st) (bd_ext st) (bd_mbex st)
    (bd_rec st) (bd_latch st) (bd_ctx st) (bd_mbStatInfo st) (bd_aux st).
Definition set_names (st : blockData) (v : gmap string Z) (w : gmap Z Z) : blockData :=
  mkBD (bd_info st) (bd_geo st) (bd_dataSegID st) (bd_mmeSegID st) (bd_seg st)
    (bd_smeMgr st) (bd_MME st) v w (bd_ext st) (bd_mbex st) (bd_rec st)
    (bd_latch st) (bd_ctx st) (bd_mbStatInfo st) (bd_aux st).
Definition set_ext (st : blockData) (v : gmap Z dmsExtent) : blockData :=
  mkBD (bd_info st) (bd_geo st) (bd_dataSegID st) (bd_mmeSegID st) (bd_seg st)
    (bd_smeMgr st) (bd_MME st) (bd_names st) (bd_ids st) v (bd_mbex st)
    (bd_rec st) (bd_latch st) (bd_ctx st) (bd_mbStatInfo st) (bd_aux st).
Definition set_mbex (st : blockData) (v : gmap Z dmsMBEx) : blockData :=
  mkBD (bd_info st) (bd_geo st) (bd_dataSegID st) (bd_mmeSegID st) (bd_seg st)
    (bd_smeMgr st) (bd_MME st) (bd_names st) (bd_ids st) (bd_ext st) v
    (bd_rec st) (bd_latch st) (bd_ctx st) (bd_mbStatInfo st) (bd_aux st).
Definition set_rec (st : blockData) (v : gmap dmsRecordID dmsRecord) : blockData :=
  mkBD (bd_info st) (bd_geo st) (bd_dataSegID st) (bd_mmeSegID st) (bd_seg st)
    (bd_smeMgr st) (bd_MME st) (bd_names st) (bd_ids st) (bd_ext st)
    (bd_mbex st) v (bd_latch st) (bd_ctx st) (bd_mbStatInfo st) (bd_aux st).
Definition set_lock (st : blockData) (v : gmap Z ossSLatch) (w : dmsMBContext) : blockData :=
  mkBD (bd_info st) (bd_geo st) (bd_dataSegID st) (bd_mmeSegID st) (bd_seg st)
    (bd_smeMgr st) (bd_MME st) (bd_names st) (bd_ids st) (bd_ext st)
    (bd_mbex st) (bd_rec st) v w (bd_mbStatInfo st) (bd_aux st).
Definition set_stat (st : blockData) (v : gmap Z dmsMBStatInfo) : blockData :=
  mkBD (bd_info st) (bd_geo st) (bd_dataSegID st) (bd_mmeSegID st) (bd_seg st)
    (bd_smeMgr st) (bd_MME st) (bd_names st) (bd_ids st) (bd_ext st)
    (bd_mbex st) (bd_rec st) (bd_latch st) (bd_ctx st) v (bd_aux st).
Definition set_aux (st : blockData) (v : auxState) : blockData :=
  mkBD (bd_info st) (bd_geo st) (bd_dataSegID st) (bd_mmeSegID st) (bd_seg st)
    (bd_smeMgr st) (bd_MME st) (bd_names st) (bd_ids st) (bd_ext st)
    (bd_mbex st) (bd_rec st) (bd_latch st) (bd_ctx st) (bd_mbStatInfo st) v.

(** ** The monad *)

Inductive stopped := Waiting | Panic | Diverges.

Inductive outcome (A : Type) :=
  | Ok (a : A)
  | Throw (err : Z)
  | Stop (w : stopped).
Arguments Ok {A} _.
Arguments Throw {A} _.
Arguments Stop {A} _.

Definition M (A : Type) : Type := blockData -> outcome A * blockData.

#[export] Instance M_ret : MRet M := fun A a st => (Ok a, st).
#[export] Instance M_bind : MBind M := fun A B f m st =>
  match m st with
  | (Ok a, st) => f a st
  | (Throw e, st) => (Throw e, st)
  | (Stop w, st) => (Stop w, st)
  end.

Definition get_st : M blockData := fun st => (Ok st, st).
Definition modify (f : blockData -> blockData) : M unit := fun st => (Ok tt, f st).
Definition throw {A} (err : Z) : M A := fun st => (Throw err, st).
Definition stop {A} (w : stopped) : M A := fun st => (Stop w, st).

(** [try ... catch( std::exception )] with
    [rc = pdGetLastError() ? pdGetLastError() : SDB_SYS]. *)
Definition catch (m : M Z) : M Z := fun st =>
  match m st with
  | (Throw e, st) => (Ok (if e =? 0 then SDB_SYS else e), st)
  | r => r
  end.

Definition ax_with_calls (a : auxState) (n : nat) : auxState :=
  mkAux n (ax_pool a) (ax_diskStat a) (ax_dirty a) (ax_pending a).
Definition ax_with_disk (a : auxState) (d : gmap Z dmsMBDiskStat) : auxState :=
  mkAux (ax_calls a) (ax_pool a) d (ax_dirty a) (ax_pending a).
Definition ax_with_dirty (a : auxState) (d : dmsDirtyList) : auxState :=
  mkAux (ax_calls a) (ax_pool a) (ax_diskStat a) d (ax_pending a).
Definition ax_with_pool (a : auxState) (n : Z) : auxState :=
  mkAux (ax_calls a) n (ax_diskStat a) (ax_dirty a) (ax_pending a).
Definition ax_with_pending (a : auxState) (l : list (Z * Z)) : auxState :=
  mkAux (ax_calls a) (ax_pool a) (ax_diskStat a) (ax_dirty a) l.

Definition bd_maxSegID (st : blockData) : Z := sg_maxSegID (bd_seg st).
Definition bd_dirty (st : blockData) : dmsDirtyList := ax_dirty (bd_aux st).
Definition bd_diskStat (st : blockData) : gmap Z dmsMBDiskStat := ax_diskStat (bd_aux st).
Definition set_dirty (st : blockData) (d : dmsDirtyList) : blockData :=
  set_aux st (ax_with_dirty (bd_aux st) d).
Definition set_pending (st : blockData) (l : list (Z * Z)) : blockData :=
  set_aux st (ax_with_pending (bd_aux st) l).

Section Store.
  Context (os : nat -> Z).

(** One call whose result the code tests: a system call, or an allocation
    (0: done, anything else: the error). *)
Definition syscall : M Z :=
  st ← get_st;
  modify (fun st => set_aux st (ax_with_calls (bd_aux st) (S (ax_calls (bd_aux st)))));;
  mret (os (ax_calls (bd_aux st))).

(** *** Reading and writing memory *)

Definition ext_zero : dmsExtent := mkExtent (mkExtHeader 0 0 0 0 0 0) 0 0 0 0 0 0 0.
Definition mbex_zero : dmsMBEx := mkMBEx (mkMetaExtent (mkExtHeader 0 0 0 0 0 0) 0 0) ∅.

Definition ext_at (st : blockData) (e : Z) : dmsExtent := default ext_zero (bd_ext st !! e).
Definition mbex_at (st : blockData) (e : Z) : dmsMBEx := default mbex_zero (bd_mbex st !! e).
Definition rec_at (st : blockData) (r : dmsRecordID) : dmsRecord :=
  default rec_zero (bd_rec st !! r).
Definition mb_at (st : blockData) (mbID : Z) : dmsMB := default mb_zero (bd_MME st !! mbID).
Definition stat_at (st : blockData) (mbID : Z) : dmsMBStatInfo :=
  default stat_reset (bd_mbStatInfo st !! mbID).

Definition ext_upd (st : blockData) (e : Z) (f : dmsExtent -> dmsExtent) : blockData :=
  set_ext st (<[e := f (ext_at st e)]> (bd_ext st)).
Definition mbex_upd (st : blockData) (e : Z) (f : dmsMBEx -> dmsMBEx) : blockData :=
  set_mbex st (<[e := f (mbex_at st e)]> (bd_mbex st)).
Definition rec_upd (st : blockData) (r : dmsRecordID) (f : dmsRecord -> dmsRecord) : blockData :=
  set_rec st (<[r := f (rec_at st r)]> (bd_rec st)).
Definition mb_upd (st : blockData) (mbID : Z) (f : dmsMB -> dmsMB) : blockData :=
  set_MME st (<[mbID := f (mb_at st mbID)]> (bd_MME st)).
Definition stat_upd (st : blockData) (mbID : Z) (f : dmsMBStatInfo -> dmsMBStatInfo) : blockData :=
  set_stat st (<[mbID := f (stat_at st mbID)]> (bd_mbStatInfo st)).

Definition ext_mod (e : Z) (f : dmsExtent -> dmsExtent) : M unit :=
  modify (fun st => ext_upd st e f).
Definition mbex_mod (e : Z) (f : dmsMBEx -> dmsMBEx) : M unit :=
  modify (fun st => mbex_upd st e f).
Definition rec_mod (r : dmsRecordID) (f : dmsRecord -> dmsRecord) : M unit :=
  modify (fun st => rec_upd st r f).
Definition mb_mod (mbID : Z) (f : dmsMB -> dmsMB) : M unit :=
  modify (fun st => mb_upd st mbID f).
Definition stat_mod (mbID : Z) (f : dmsMBStatInfo -> dmsMBStatInfo) : M unit :=
  modify (fun st => stat_upd st mbID f).

(** *** Addresses *)

Definition extent2Segment (st : blockData) (extentID : Z) : Z :=
  u32 (Z.shiftr extentID (g_segmentPagesSquare (bd_geo st)) + bd_dataSegID st).
Definition extent2SegOffset (st : blockData) (extentID : Z) : Z :=
  Z.land extentID (Z.shiftl 1 (g_segmentPagesSquare (bd_geo st)) - 1).

(** [extentAddr]: [None] is the null pointer, otherwise the segment and the
    offset in it. *)
Definition extentAddr (st : blockData) (extentID : Z) : option (Z * Z) :=
  if DMS_INVALID_EXTENT =? extentID then None
  else
    let segID := extent2Segment st extentID in
    if u32 (bd_maxSegID st) <? segID then None
    else Some (segID, Z.shiftl (extent2SegOffset st extentID) (g_pageSizeSquare (bd_geo st))).

Definition ext_null (st : blockData) (extentID : Z) : bool :=
  match extentAddr st extentID with None => true | Some _ => false end.

Definition getFactor (st : blockData) : Z := 16 + 14 - g_pageSizeSquare (bd_geo st).
Definition maxSegmentNum (st : blockData) : Z :=
  Z.shiftr DMS_MAX_PG (g_segmentPagesSquare (bd_geo st)).

(** *** Dirty tracking *)

Definition syncMemToMmap : M unit :=
  modify (fun st =>
    set_aux st (ax_with_disk (bd_aux st)
      (map_imap (fun mbID mb =>
         if DMS_IS_MB_INUSE (mb_flag mb) then Some (stat_store (stat_at st mbID))
         else bd_diskStat st !! mbID) (bd_MME st)
       ∪ bd_diskStat st))).

(** [_ossMmapFile::flush]; the [msync] itself changes nothing here. *)
Definition mmap_flush (segmentID : Z) : M Z := fun st =>
  let '(rc, n) := mm_flush (ax_calls (bd_aux st)) (sg_file (bd_seg st)) segmentID in
  (Ok rc, set_aux st (ax_with_calls (bd_aux st) n)).

Definition flushSegment (segmentID : Z) : M Z :=
  st ← get_st;
  (if (0 <? bd_dataSegID st) && (bd_dataSegID st <=? segmentID)
   then modify (fun st => set_dirty st
          (dirty_cleanDirty (bd_dirty st) (u32 (segmentID - bd_dataSegID st))))
   else mret tt);;
  mmap_flush segmentID.

Definition flushMME : M Z :=
  syncMemToMmap;; st ← get_st; flushSegment (bd_mmeSegID st).

Definition onMarkHeaderInvalid (collectionID : Z) : M Z :=
  st ← get_st;
  let needSync :=
    if (0 <=? collectionID) && (collectionID <? DMS_MME_SLOTS)
    then negb (st_isCrash (stat_at st collectionID))
    else if -1 =? collectionID
    then existsb (fun p => DMS_IS_MB_INUSE (mb_flag p.2) && negb (st_isCrash (stat_at st p.1)))
           (map_to_list (bd_MME st))
    else false in
  if needSync then flushMME else mret SDB_OK.

Definition markHeaderInvalid (collectionID : Z) (isAll : bool) : M unit :=
  if isAll then onMarkHeaderInvalid (-1);; mret tt
  else if 0 <=? collectionID then onMarkHeaderInvalid collectionID;; mret tt
  else mret tt.

Definition markDirty (collectionID extentID : Z) (after : bool) : M unit :=
  st ← get_st;
  let segID := extent2Segment st extentID in
  if i32 segID <=? bd_maxSegID st then
    markHeaderInvalid collectionID false;;
    if after
    then modify (fun st => set_dirty st
           (dirty_setDirty (bd_dirty st) (u32 (segID - bd_dataSegID st))))
    else mret tt
  else mret tt.

(** *** Accessors

    [dmsExtRW::writePtr] marks its extent before the write, and the accessor
    marks it again when it goes out of scope: [ax_pending] lists the written
    accessors of the running functions, [scope] is the end of a function. *)
Definition extWritePtr (collectionID extentID : Z) (nothrow : bool) : M bool :=
  st ← get_st;
  if ext_null st extentID
  then if nothrow then mret false else throw SDB_SYS
  else
    modify (fun st => set_pending st ((collectionID, extentID) :: ax_pending (bd_aux st)));;
    markDirty collectionID extentID false;;
    mret true.

Definition extReadPtr (extentID : Z) : M unit :=
  st ← get_st; if ext_null st extentID then throw SDB_SYS else mret tt.

(** [dmsRecordRW::writePtr] and [readPtr], [len = 0] being the record's size. *)
Definition recLen (st : blockData) (rid : dmsRecordID) (len : Z) : Z :=
  if 0 =? len then rec_getSize (rec_at st rid) else len.

Definition recWritePtr (collectionID : Z) (rid : dmsRecordID) (len : Z) : M unit :=
  st ← get_st;
  if ext_null st (rid_extent rid) then throw SDB_SYS
  else if DMS_RECORD_MAX_SZ <? recLen st rid len then throw SDB_DMS_CORRUPTED_EXTENT
  else extWritePtr collectionID (rid_extent rid) false;; mret tt.

Definition recReadPtr (rid : dmsRecordID) (len : Z) : M dmsRecord :=
  st ← get_st;
  if ext_null st (rid_extent rid) then throw SDB_SYS
  else if DMS_RECORD_MAX_SZ <? recLen st rid len then throw SDB_DMS_CORRUPTED_EXTENT
  else mret (rec_at st rid).

Fixpoint markPending (l : list (Z * Z)) : M unit :=
  match l with
  | [] => mret tt
  | (c, e) :: l => markDirty c e true;; markPending l
  end.

Definition scope {A} (m : M A) : M A := fun st =>
  let old := ax_pending (bd_aux st) in
  match m (set_pending st []) with
  | (Stop w, st) => (Stop w, st)
  | (r, st) =>
      let st' := (markPending (ax_pending (bd_aux st)) st).2 in
      (r, set_pending st' old)
  end.

End Store.
