(* ===== verification/DmsInsert.v ===== *)
(** * Space for records and insertion: the operations of [_dmsBlockData]
    (src/src/dms/dmsBlockData.cpp)

    Extending the file, allocating extents, the delete lists, inserting a
    record, adding a collection.  The operations run in the monad of
    DmsStore.v, in the order the code has them; [goto error] with a return
    code is a result, [throw] is an exception. *)
From S2P Require Import Prelude.
From S2P Require Import ByteBits.
From S2P Require Import OssBase.
From S2P Require Import OssMmap.
From S2P Require Import DmsBase.
From S2P Require Import DmsName.
From S2P Require Import DmsSegmentSpace.
From S2P Require Import DmsSMEMgr.
From S2P Require Import DmsRecord.
From S2P Require Import DmsDirtyList.
From S2P Require Import DmsMBContext.
From S2P Require Import DmsExtent.
From S2P Require Import DmsMB.
From S2P Require Import Bson.
From S2P Require Import DmsStore.
From Stdlib Require Import String.
#[local] Open Scope Z_scope.

Abbreviation length := List.length.

(** How often the retry loops may run; one retry is what they need. *)
Definition retry_fuel : nat := 64.

(** ** Sizes *)

(** [UINT32] times [1.2f] and back: the product of two single-precision
    numbers, rounded to nearest (ties to even) on 24 bits, then truncated.
    [1.2f] is 10066330 / 2^23. *)
Definition rne (x e : Z) : Z :=
  let q := x / 2 ^ e in
  let r := x mod 2 ^ e in
  if 2 * r <? 2 ^ e then q
  else if 2 ^ e <? 2 * r then q + 1
  else if Z.even q then q else q + 1.

Definition f32_round (x : Z) : Z :=
  let e := Z.log2 x - 23 in
  if e <=? 0 then x else rne x e * 2 ^ e.

Definition RATIO_MANTISSA : Z := 10066330.

Definition mul_ratio (size : Z) : Z :=
  u32 (f32_round (f32_round size * RATIO_MANTISSA) / 2 ^ 23).

Definition finalRecordSize (size : Z) : Z :=
  let size := mul_ratio size in
  let size := u32 (size + DMS_RECORD_METADATA_SZ) in
  Z.min DMS_RECORD_MAX_SZ (ossAlignX size 4).

(** The slot of a size: [size - 1] in units of 32 bytes, halved to zero. *)
Fixpoint slot_loop (fuel : nat) (x slot : Z) : Z :=
  match fuel with
  | O => slot
  | S fuel => if x =? 0 then slot else slot_loop fuel (Z.shiftr x 1) (u8 (slot + 1))
  end.

Definition delete_slot (size : Z) : Z := slot_loop 32 (Z.shiftr (size - 1) 5) 0.

Section Insert.
  Context (os : nat -> Z).

(** ** The context of the session *)

Definition mb_shared (st : blockData) (mbID : Z) : mbShared :=
  mkMbShared (default latch_free (bd_latch st !! mbID))
    (mb_flag (mb_at st mbID)) (mb_logicalID (mb_at st mbID)).

Definition put_lock (mbID : Z) (s : mbShared) (c : dmsMBContext) : M unit :=
  modify (fun st => set_lock st (<[mbID := ms_latch s]> (bd_latch st)) c).

Definition ctx_mbLock (lockType : Z) : M Z :=
  st ← get_st;
  let mbID := cx_mbID (bd_ctx st) in
  match mbLock (mb_shared st mbID) (bd_ctx st) lockType with
  | None => stop Waiting
  | Some (rc, s, c) => put_lock mbID s c;; mret rc
  end.

Definition ctx_pause : M Z :=
  st ← get_st;
  let mbID := cx_mbID (bd_ctx st) in
  let '(rc, s, c) := mb_pause (mb_shared st mbID) (bd_ctx st) in
  put_lock mbID s c;; mret rc.

Definition ctx_resume : M Z :=
  st ← get_st;
  let mbID := cx_mbID (bd_ctx st) in
  match mb_resume (mb_shared st mbID) (bd_ctx st) with
  | None => stop Waiting
  | Some (rc, s, c) => put_lock mbID s c;; mret rc
  end.

Definition ctx_mbUnlock : M Z :=
  st ← get_st;
  let mbID := cx_mbID (bd_ctx st) in
  let '(rc, s, c) := mbUnlock (mb_shared st mbID) (bd_ctx st) in
  put_lock mbID s c;; mret rc.

(** ** Extending the file *)

Definition hd_with_sizes (h : dmsStorageUnitHeader) (storageUnitSize pageNum : Z) :=
  mkHeader (hd_eyeCatcher h) (hd_version h) (hd_pageSize h) storageUnitSize (hd_name h)
    (hd_sequence h) (hd_numMB h) (hd_MBHWM h) pageNum (hd_csUniqueID h).

Definition seg_with_file (s : segState) (f : ossMmapFile) : segState :=
  mkSegState f (sg_maxSegID s) (sg_header s) (sg_pageNum s).
Definition seg_with_maxSegID (s : segState) (v : Z) : segState :=
  mkSegState (sg_file s) v (sg_header s) (sg_pageNum s).
Definition seg_with_header (s : segState) (h : dmsStorageUnitHeader) (pageNum : Z) : segState :=
  mkSegState (sg_file s) (sg_maxSegID s) h pageNum.

Definition seg_mod (f : segState -> segState) : M unit :=
  modify (fun st => set_seg st (f (bd_seg st))).

Definition fileSize_mod (f : Z -> Z) : M unit :=
  seg_mod (fun s => seg_with_file s (mm_with_fileSize (sg_file s) (f (mm_fileSize (sg_file s))))).

(** [_ossMmapFile::map]. *)
Definition mmap_map (offset len : Z) : M Z := fun st =>
  let '(rc, n, f) := mm_map os (ax_calls (bd_aux st)) (sg_file (bd_seg st)) offset len in
  (Ok rc, set_aux (set_seg st (seg_with_file (bd_seg st) f)) (ax_with_calls (bd_aux st) n)).

(** [ossTruncateFile]: on success the file has the given size. *)
Definition truncateFile (size : Z) : M Z :=
  rc ← syscall os;
  (if rc =? 0 then fileSize_mod (fun _ => size) else mret tt);;
  mret rc.

(** From the label [retry] to the mapping; [fileSize] is the size to go back
    to.  A second attempt is made only after sparse extension was refused,
    and never a third. *)
Fixpoint extend_retry (fuel : nat) (numSeg fileSize : Z) : M Z :=
  match fuel with
  | O => stop Diverges
  | S fuel =>
      st ← get_st;
      let sparse := si_enableSparse (bd_info st) in
      rc ← syscall os;
      if negb (rc =? 0) then
        rc1 ← truncateFile fileSize;
        if negb (rc1 =? 0) then stop Panic
        else if (SDB_INVALIDARG =? rc) && sparse then
          modify (fun st => set_info st
            (mkSI (si_pageSize (bd_info st)) (si_suName (bd_info st))
               (si_sequence (bd_info st)) false (si_csUniqueID (bd_info st))));;
          extend_retry fuel numSeg fileSize
        else mret rc
      else
        fileSize_mod (fun size =>
          size + if sparse then DMS_SEGMENT_SZ * numSeg else u32 (DMS_SEGMENT_SZ * numSeg));;
        mret SDB_OK
  end.

(** The loop that maps the new segments and deposits them. *)
Fixpoint extend_map (n : nat) (beginExtentID fileSize : Z) : M Z :=
  match n with
  | O => mret SDB_OK
  | S n =>
      rc ← mmap_map fileSize DMS_SEGMENT_SZ;
      if negb (rc =? 0) then mret rc
      else
        seg_mod (fun s => seg_with_maxSegID s (sg_maxSegID s + 1));;
        modify (fun st => set_dirty st
          (dirty_setSize (bd_dirty st) (u32 (segmentSize (sg_file (bd_seg st)) - bd_dataSegID st))));;
        st ← get_st;
        let pages := g_segmentPages (bd_geo st) in
        seg_mod (fun s => seg_with_header s
          (hd_with_sizes (sg_header s) (u32 (hd_storageUnitSize (sg_header s) + pages))
             (hd_pageNum (sg_header s))) (sg_pageNum s));;
        alloc ← syscall os;
        st ← get_st;
        let '(rc, m) := mgr_depositASegment (alloc =? 0) (geo_of (bd_geo st))
                          (bd_smeMgr st) (i32 beginExtentID) in
        modify (fun st => set_sme st m);;
        if negb (rc =? 0) then
          seg_mod (fun s => seg_with_header s
            (hd_with_sizes (sg_header s) (u32 (hd_storageUnitSize (sg_header s) - pages))
               (hd_pageNum (sg_header s))) (sg_pageNum s));;
          stop Panic
        else
          seg_mod (fun s => 
            let h := hd_with_sizes (sg_header s) (hd_storageUnitSize (sg_header s))
                       (u32 (hd_pageNum (sg_header s) + pages)) in
            seg_with_header s h (hd_pageNum h));;
          extend_map n (u32 (beginExtentID + pages)) (fileSize + DMS_SEGMENT_SZ)
  end.

Definition extendSegments (numSeg : Z) : M Z :=
  st ← get_st;
  let beginExtentID := hd_pageNum (sg_header (bd_seg st)) in
  let endExtentID := u32 (beginExtentID + u32 (g_segmentPages (bd_geo st) * numSeg)) in
  if DMS_MAX_PG <? endExtentID then mret SDB_DMS_NOSPC
  else if existsb (fun i => negb (DMS_SME_FREE =? getBitMask (sh_SME (sm_shared (bd_smeMgr st))) i))
            (seqZ beginExtentID (endExtentID - beginExtentID))
  then mret SDB_DMS_CORRUPTED_SME
  else
    rc ← syscall os;
    if negb (rc =? 0) then mret rc
    else
      let unitSize := hd_storageUnitSize (sg_header (bd_seg st)) * g_pageSize (bd_geo st) in
      let fileSize := mm_fileSize (sg_file (bd_seg st)) in
      rc ← (if unitSize <? fileSize then truncateFile unitSize else mret SDB_OK);
      if negb (rc =? 0) then mret rc
      else
        let fileSize := Z.min unitSize fileSize in
        rc ← extend_retry 2 numSeg fileSize;
        if negb (rc =? 0) then mret rc
        else extend_map (Z.to_nat numSeg) beginExtentID fileSize.

(** ** Free pages

    [hasContext]: whether [context] is not [NULL]. *)
Fixpoint findFreeSpace_loop (fuel : nat) (numPages foundPage : Z) (hasContext : bool)
    : M (Z * Z) :=
  match fuel with
  | O => stop Diverges
  | S fuel =>
      st ← get_st;
      let '(rc, foundPage, segmentSize, m) :=
        mgr_reservePages (bd_smeMgr st) numPages foundPage in
      modify (fun st => set_sme st m);;
      if negb (rc =? 0) then mret (rc, foundPage)
      else if negb (DMS_INVALID_EXTENT =? foundPage) then mret (rc, foundPage)
      else
        st ← get_st;
        if negb (segmentSize =? mgr_segmentNum (bd_smeMgr st))
        then findFreeSpace_loop fuel numPages foundPage hasContext
        else
          rc ← (if hasContext then ctx_pause else mret SDB_OK);
          if negb (rc =? 0) then mret (rc, foundPage)
          else
            rc ← extendSegments 1;
            rc1 ← (if hasContext then ctx_resume else mret SDB_OK);
            if negb (rc =? 0) then mret (rc, foundPage)
            else if negb (rc1 =? 0) then mret (rc1, foundPage)
            else findFreeSpace_loop fuel numPages foundPage hasContext
  end.

Definition findFreeSpace (numPages : Z) (hasContext : bool) : M (Z * Z) :=
  findFreeSpace_loop retry_fuel numPages DMS_INVALID_EXTENT hasContext.

(** ** Delete lists *)

(** The two-pointer form: [extID] and [rid] are what [extAddr] and [pRecord]
    point to. *)
Definition saveDeletedRecordAt (mbID : Z) (rid : dmsRecordID) (recordSize extID : Z) : M Z :=
  rec_mod rid del_setDeleted;;
  recordSize ← (if 0 <? recordSize
                then rec_mod rid (fun r => rec_setSize r recordSize);; mret recordSize
                else st ← get_st; mret (i32 (rec_getSize (rec_at st rid))));
  rec_mod rid (fun r => rec_setMyOffset r (rid_offset rid));;
  ext_mod extID (fun e => ext_with_freeSpace e (i32 (ext_freeSpace e + recordSize)));;
  st ← get_st;
  stat_mod (mb_blockID (mb_at st mbID))
    (fun s => stat_with_freeSpace s (u64 (st_totalDataFreeSpace s + recordSize)));;
  let slot := Z.to_nat (delete_slot recordSize) in
  st ← get_st;
  rec_mod rid (fun r => del_setNextRID r
    (default rid_null (mb_deleteList (mb_at st mbID) !! slot)));;
  mb_mod mbID (fun b => mb_with_deleteList b (<[slot := rid]> (mb_deleteList b)));;
  mret SDB_OK.

Definition saveDeletedRecord (mbID : Z) (recordID : dmsRecordID) (recordSize : Z) : M Z :=
  if rid_isNull recordID then mret SDB_INVALIDARG
  else
    st ← get_st;
    let blockID := mb_blockID (mb_at st mbID) in
    scope (catch
      (extWritePtr blockID (rid_extent recordID) false;;
       recWritePtr blockID recordID DMS_DELETEDRECORD_METADATA_SZ;;
       saveDeletedRecordAt mbID recordID recordSize (rid_extent recordID))).

(** A new deleted record inside [_mapExtent2DelList]. *)
Definition mapOne (mbID extentID recordOffset size : Z) : M unit :=
  st ← get_st;
  let rid := mkRID extentID recordOffset in
  scope
    (recWritePtr (mb_blockID (mb_at st mbID)) rid DMS_DELETEDRECORD_METADATA_SZ;;
     saveDeletedRecordAt mbID rid size extentID;; mret tt).

(** The loop; it ends with [curUseableSpace] and [recordOffset]. *)
Fixpoint map_loop (fuel : nat) (mbID extentID deleteRecordSize cur off : Z) : M (Z * Z) :=
  match fuel with
  | O => mret (cur, off)
  | S fuel =>
      if DMS_MIN_DELETEDRECORD_SZ <=? cur - deleteRecordSize then
        mapOne mbID extentID off deleteRecordSize;;
        map_loop fuel mbID extentID deleteRecordSize
          (cur - deleteRecordSize) (off + deleteRecordSize)
      else mret (cur, off)
  end.

Definition mapExtent2DelList (mbID extentID : Z) : M unit :=
  st ← get_st;
  let ext := ext_at st extentID in
  if u32 (ext_freeSpace ext) <? DMS_MIN_RECORD_SZ then mret tt
  else
    let extentSize := Z.shiftl (eh_blockSize (ext_header ext)) (g_pageSizeSquare (bd_geo st)) in
    let useable := ext_freeSpace ext in
    ext_mod extentID (fun e => ext_with_freeSpace e 0);;
    let deleteRecordSize := Z.min useable DMS_RECORD_MAX_SZ in
    '(cur, off) ← map_loop (Z.to_nat (useable / deleteRecordSize)) mbID extentID
                    deleteRecordSize useable (extentSize - useable);
    '(cur, off) ←
      (if deleteRecordSize <? cur
       then mapOne mbID extentID off DMS_PAGE_SIZE4K;;
            mret (cur - DMS_PAGE_SIZE4K, off + DMS_PAGE_SIZE4K)
       else mret (cur, off));
    if 0 <? cur then mapOne mbID extentID off cur else mret tt.

(** ** The extents of a collection *)

(** The search for the last extent of the nearest used segment below. *)
Fixpoint prev_search (n : nat) (x : dmsMBEx) (tmpSegID : Z) : Z :=
  match n with
  | O => DMS_INVALID_EXTENT
  | S n =>
      let tmpSegID := tmpSegID - 1 in
      if 0 <=? tmpSegID then
        let tmpExtID := (getLastExtentID x tmpSegID DMS_INVALID_EXTENT).2 in
        if negb (DMS_INVALID_EXTENT =? tmpExtID) then tmpExtID
        else prev_search n x tmpSegID
      else DMS_INVALID_EXTENT
  end.

(** [addExtent2Meta] from the point where the predecessor is known to the
    end: [prev] is [prevExt] ([DMS_INVALID_EXTENT]: [NULL]). *)
Definition linkExtent (mbID extID prev : Z) : M unit :=
  if negb (DMS_INVALID_EXTENT =? prev) then
    st ← get_st;
    let next := ext_nextExtent (ext_at st prev) in
    (if negb (DMS_INVALID_EXTENT =? next) then
       ext_mod extID (fun e => ext_with_next e next);;
       extWritePtr mbID next false;;
       ext_mod next (fun e => ext_with_prev e extID)
     else mb_mod mbID (fun b => mb_with_extents b (mb_firstExtentID b) extID));;
    ext_mod prev (fun e => ext_with_next e extID)
  else
    st ← get_st;
    let first := mb_firstExtentID (mb_at st mbID) in
    (if negb (DMS_INVALID_EXTENT =? first) then
       ext_mod extID (fun e => ext_with_next e first);;
       extWritePtr mbID first false;;
       ext_mod first (fun e => ext_with_prev e extID)
     else mret tt);;
    mb_mod mbID (fun b => mb_with_extents b extID (mb_lastExtentID b));;
    st ← get_st;
    if DMS_INVALID_EXTENT =? mb_lastExtentID (mb_at st mbID)
    then mb_mod mbID (fun b => mb_with_extents b (mb_firstExtentID b) extID)
    else mret tt.

(** The collection is the one of the session's context; [extent] points to
    the extent [extID]. *)
Definition addExtent2Meta (extID : Z) : M Z :=
  scope (
    st ← get_st;
    let mbID := cx_mbID (bd_ctx st) in
    let segID := u32 (extent2Segment st extID - bd_dataSegID st) in
    if negb (isMBLock (bd_ctx st) EXCLUSIVE) then mret SDB_SYS
    else
      let mbExID := mb_mbExExtentID (mb_at st mbID) in
      ok ← extWritePtr mbID mbExID true;
      if negb ok then mret SDB_SYS
      else
        st ← get_st;
        if me_segNum (mbx_header (mbex_at st mbExID)) <=? segID then mret SDB_SYS
        else
          extWritePtr mbID mbExID true;;
          st ← get_st;
          let lastExtID := (getLastExtentID (mbex_at st mbExID) segID DMS_INVALID_EXTENT).2 in
          prev ←
            (if DMS_INVALID_EXTENT =? lastExtID then
               ext_mod extID (fun e =>
                 ext_with_logicID e (i32 (u32 (Z.shiftl segID (getFactor st)))));;
               mbex_mod mbExID (fun x => (setFirstExtentID x segID extID).2);;
               mbex_mod mbExID (fun x => (setLastExtentID x segID extID).2);;
               mbex_mod mbExID mbx_incUsed;;
               st ← get_st;
               let tmpExtID :=
                 if negb (DMS_INVALID_EXTENT =? mb_firstExtentID (mb_at st mbID))
                 then prev_search (Z.to_nat segID) (mbex_at st mbExID) (i32 segID)
                 else DMS_INVALID_EXTENT in
               (if negb (DMS_INVALID_EXTENT =? tmpExtID) then
                  ext_mod extID (fun e => ext_with_prev e tmpExtID);;
                  extWritePtr mbID tmpExtID false;; mret tt
                else mret tt);;
               mret tmpExtID
             else
               mbex_mod mbExID (fun x => (setLastExtentID x segID extID).2);;
               ext_mod extID (fun e => ext_with_prev e lastExtID);;
               extWritePtr mbID lastExtID false;;
               st ← get_st;
               ext_mod extID (fun e =>
                 ext_with_logicID e (i32 (ext_logicID (ext_at st lastExtID) + 1)));;
               mret lastExtID);
          linkExtent mbID extID prev;;
          mret SDB_OK).

(** The load list, when [add2LoadList]. *)
Definition addExtent2Load (mbID extID : Z) : M unit :=
  st ← get_st;
  let last := mb_loadLastExtentID (mb_at st mbID) in
  ext_mod extID (fun e => ext_with_next (ext_with_prev e last) DMS_INVALID_EXTENT);;
  (if DMS_INVALID_EXTENT =? mb_loadFirstExtentID (mb_at st mbID)
   then mb_mod mbID (fun b => mb_with_load b extID (mb_loadLastExtentID b))
   else mret tt);;
  (if negb (DMS_INVALID_EXTENT =? last)
   then extWritePtr mbID last false;;
        ext_mod last (fun e => ext_with_next e extID)
   else mret tt);;
  mb_mod mbID (fun b => mb_with_load b (mb_loadFirstExtentID b) extID).

(** Return code and [*allocExtID]. *)
Definition allocateExtent (numPages : Z) (deepInit add2LoadList : bool) : M (Z * Z) :=
  scope (
    st ← get_st;
    let mbID := cx_mbID (bd_ctx st) in
    if (g_segmentPages (bd_geo st) <? numPages) || (numPages <? 1)
    then mret (SDB_INVALIDARG, DMS_INVALID_EXTENT)
    else
      rc ← ctx_mbLock EXCLUSIVE;
      if negb (rc =? 0) then mret (rc, DMS_INVALID_EXTENT)
      else
        '(rc, extID) ← findFreeSpace numPages true;
        if negb (rc =? 0) then mret (rc, DMS_INVALID_EXTENT)
        else if DMS_INVALID_EXTENT =? extID then mret (rc, DMS_INVALID_EXTENT)
        else
          ok ← extWritePtr mbID extID true;
          if negb ok then mret (SDB_SYS, DMS_INVALID_EXTENT)
          else
            st ← get_st;
            ext_mod extID (fun _ =>
              ext_init numPages mbID (u32 (Z.shiftl numPages (g_pageSizeSquare (bd_geo st)))));;
            rc ← (if add2LoadList then addExtent2Load mbID extID;; mret SDB_OK
                  else addExtent2Meta extID);
            if negb (rc =? 0) then mret (rc, DMS_INVALID_EXTENT)
            else
              (if deepInit then mapExtent2DelList mbID extID else mret tt);;
              mret (SDB_OK, extID)).

(** ** Space for a record *)

Definition s_maxSearch : nat := 3.

(** One delete list, at most [n] entries of it: the record found, already
    unlinked and taken off the extent's free space. *)
Fixpoint search_list (n : nat) (mbID requiredSize : Z) (j : nat)
    (pre : option dmsRecordID) (found : dmsRecordID) : M (option dmsRecordID) :=
  match n with
  | O => mret None
  | S n =>
      if rid_isNull found then mret None
      else
        pRead ← recReadPtr found DMS_DELETEDRECORD_METADATA_SZ;
        if del_isDeleted pRead && (requiredSize <=? rec_getSize pRead) then
          (match pre with
           | None =>
               mb_mod mbID (fun b =>
                 mb_with_deleteList b (<[j := del_getNextRID pRead]> (mb_deleteList b)))
           | Some p =>
               recWritePtr mbID p DMS_DELETEDRECORD_METADATA_SZ;;
               rec_mod p (fun r => del_setNextRID r (del_getNextRID pRead))
           end);;
          extWritePtr mbID (rid_extent found) false;;
          ext_mod (rid_extent found)
            (fun e => ext_with_freeSpace e (i32 (ext_freeSpace e - rec_getSize pRead)));;
          mret (Some found)
        else search_list n mbID requiredSize j (Some found) (del_getNextRID pRead)
  end.

(** The lists from slot [j] on; [n] of them are left. *)
Fixpoint search_slots (n : nat) (mbID requiredSize : Z) (j : nat) : M (option dmsRecordID) :=
  match n with
  | O => mret None
  | S n =>
      st ← get_st;
      r ← search_list s_maxSearch mbID requiredSize j None
            (default rid_null (mb_deleteList (mb_at st mbID) !! j));
      match r with
      | Some rid => mret (Some rid)
      | None => search_slots n mbID requiredSize (S j)
      end
  end.

(** The number of pages of the extent that is allocated when no deleted
    record fits. *)
Definition required_pages (g : bdGeometry) (requiredSize : Z) : Z :=
  let expandSize := u32 (Z.shiftl requiredSize 4) in
  let expandSize :=
    if DMS_BEST_UP_EXTENT_SZ <? expandSize
    then if requiredSize <? DMS_BEST_UP_EXTENT_SZ then DMS_BEST_UP_EXTENT_SZ
         else requiredSize
    else expandSize in
  let reqPages := u32 (Z.shiftr (expandSize + DMS_EXTENT_METADATA_SZ + g_pageSize g - 1)
                         (g_pageSizeSquare g)) in
  let reqPages := if g_segmentPages g <? reqPages then g_segmentPages g else reqPages in
  if reqPages <? 1 then 1 else reqPages.

Fixpoint allocRecordSpace_retry (fuel : nat) (requiredSize : Z) : M (Z * dmsRecordID) :=
  match fuel with
  | O => stop Diverges
  | S fuel =>
      let slot := Z.to_nat (slot_loop 32 (Z.shiftr (u32 (requiredSize - 1)) 5) 0) in
      if (mb_max <=? slot)%nat then mret (SDB_SYS, rid_null)
      else
        st ← get_st;
        let mbID := cx_mbID (bd_ctx st) in
        r ← (fun st =>
               match scope (search_slots (mb_max - slot) mbID requiredSize slot) st with
               | (Ok r, st) => (Ok (inl r), st)
               | (Throw e, st) => (Ok (inr (if e =? 0 then SDB_SYS else e)), st)
               | (Stop w, st) => (Stop w, st)
               end) : M (option dmsRecordID + Z);
        match r with
        | inr rc => mret (rc, rid_null)
        | inl (Some rid) => mret (SDB_OK, rid)
        | inl None =>
            '(rc, _) ← allocateExtent (u16 (required_pages (bd_geo st) requiredSize)) true false;
            if negb (rc =? 0) then mret (rc, rid_null)
            else allocRecordSpace_retry fuel requiredSize
        end
  end.

Definition allocRecordSpace (requiredSize : Z) : M (Z * dmsRecordID) :=
  rc ← ctx_mbLock EXCLUSIVE;
  if negb (rc =? 0) then mret (rc, rid_null)
  else allocRecordSpace_retry retry_fuel requiredSize.

Definition allocRecordSpaceByPos : M (Z * dmsRecordID) :=
  mret (SDB_OPERATION_INCOMPATIBLE, rid_null).

(** ** Insertion *)

(** [pRecord] is the record at [rid], [extent] the extent [extID]. *)
Definition extentInsertRecord (extID : Z) (rid : dmsRecordID) (data : dmsRecordData)
    (needRecordSize : Z) (isInsert : bool) : M Z :=
    rc ← ctx_mbLock EXCLUSIVE;
    if negb (rc =? 0) then mret rc
    else
      st ← get_st;
      let mbID := cx_mbID (bd_ctx st) in
      recWritePtr mbID rid needRecordSize;;
      st ← get_st;
      let pRecord := rec_at st rid in
      let myOffset := rec_myOffset pRecord in
      if rec_getSize pRecord <? needRecordSize then mret SDB_INVALIDARG
      else if negb (rd_isCompressed data) && (rd_len data <? DMS_MIN_RECORD_DATA_SZ)
      then mret SDB_INVALIDARG
      else
        rec_mod rid rec_setNormal;;
        rec_mod rid rec_resetAttr;;
        st ← get_st;
        let size := rec_getSize (rec_at st rid) in
        rc ←
          (if DMS_MIN_RECORD_SZ <? u32 (size - needRecordSize) then
             let newRid := mkRID (rid_extent rid) (i32 (myOffset + needRecordSize)) in
             rc ← saveDeletedRecord mbID newRid (i32 (size - needRecordSize));
             if negb (rc =? 0) then mret rc
             else rec_mod rid (fun r => rec_setSize r needRecordSize);; mret SDB_OK
           else mret SDB_OK);
        if negb (rc =? 0) then mret rc
        else
          rec_mod rid (fun r => rec_setData r data);;
          rec_mod rid (fun r => rec_setNextOffset r DMS_INVALID_OFFSET);;
          rec_mod rid (fun r => rec_setPrevOffset r DMS_INVALID_OFFSET);;
          (if isInsert then
             extWritePtr mbID extID false;;
             st ← get_st;
             let offset := ext_lastRecordOffset (ext_at st extID) in
             ext_mod extID (fun e => ext_with_recs e (u32 (ext_recCount e + 1))
               (ext_firstRecordOffset e) (ext_lastRecordOffset e));;
             stat_mod mbID (fun s => stat_with_records s (u64 (st_totalRecords s + 1)));;
             (if negb (DMS_INVALID_OFFSET =? offset) then
                scope (
                  recWritePtr mbID (mkRID extID offset) DMS_RECORD_METADATA_SZ;;
                  rec_mod (mkRID extID offset) (fun r => rec_setNextOffset r myOffset);;
                  rec_mod rid (fun r => rec_setPrevOffset r offset))
              else mret tt);;
             ext_mod extID (fun e => ext_with_recs e (ext_recCount e)
               (if DMS_INVALID_OFFSET =? ext_firstRecordOffset e then myOffset
                else ext_firstRecordOffset e) myOffset)
           else mret tt);;
          stat_mod mbID (fun s => stat_with_lens s
            (u64 (st_totalOrgDataLen s + rd_orgLen data))
            (u64 (st_totalDataLen s + rd_len data)));;
          mret SDB_OK.

(** A result of the BSON library: a failed assertion is an exception without
    an error number. *)
Definition bson_lift {A} (r : bres A) : M A :=
  match r with
  | BOk a => mret a
  | BThrow => throw 0
  | BUndef => stop Diverges
  end.

(** [oid]: the identifier [OID::init] makes.  Return code and record data. *)
Definition prepareInsertData (record : list Z) (mustOID : bool) (oid : list Z)
    : M (Z * dmsRecordData) := fun st =>
  let d0 := rd_setData rd_reset record (u32 (objsize record)) UTIL_COMPRESSOR_INVALID true in
  match (ele ← bson_lift (bson_getField record ID_NAME);
         valid ← bson_lift (dmsIsRecordIDValid ele true);
         if negb valid then mret (SDB_INVALIDARG, d0)
         else if mustOID && el_eoo ele then
           rc ← syscall os;
           if negb (rc =? 0) then mret (rc, d0)
           else
             let merged := bson_prepend (idToInsert oid) record in
             mret (SDB_OK, rd_setData d0 merged
               (u32 (Z.of_nat (List.length (idToInsert oid)) + objsize record))
               UTIL_COMPRESSOR_INVALID true)
         else mret (SDB_OK, d0)) st with
  | (Throw e, st) => (Ok (if e =? 0 then SDB_SYS else e, d0), st)
  | r => r
  end.

(** [insertRecord]; the collection is the one of the session's context. *)
Definition insertRecord (record : list Z) (mustOID : bool) (position : Z) (oid : list Z) : M Z :=
  scope (catch (
    '(rc, data) ← prepareInsertData record mustOID oid;
    if negb (rc =? 0) then mret rc
    else
      bson_lift (bson_obj (default [] (rd_data data)));;
      if DMS_RECORD_USER_MAX_SZ <? rd_len data + DMS_RECORD_METADATA_SZ
      then mret SDB_DMS_RECORD_TOO_BIG
      else
        let dmsRecordSize := finalRecordSize (rd_len data) in
        '(rc, foundRID) ← (if 0 <=? position then allocRecordSpaceByPos
                           else allocRecordSpace dmsRecordSize);
        if negb (rc =? 0) then mret rc
        else
          extReadPtr (rid_extent foundRID);;
          st ← get_st;
          if negb (ext_validate (ext_at st (rid_extent foundRID)) (cx_mbID (bd_ctx st)))
          then mret SDB_SYS
          else extentInsertRecord (rid_extent foundRID) foundRID data dmsRecordSize true)).

End Insert.
