(* ===== verification/DmsSize.v ===== *)
(** * Sizes: delete slots, record sizes, extent sizes

    The arithmetic of [_saveDeletedRecord], [_finalRecordSize],
    [_mapExtent2DelList] and [_allocRecordSpace] (src/src/dms/dmsBlockData.cpp),
    apart from the state they work on. *)
From S2P Require Import Prelude.
From S2P Require Import OssBase.
From S2P Require Import DmsBase.
From S2P Require Import DmsRecord.
From S2P Require Import DmsExtent.
From S2P Require Import DmsMB.
From S2P Require Import DmsInsert.
#[local] Open Scope Z_scope.

(** ** Delete slots *)

Lemma slot_loop_spec fuel : forall x s,
  0 <= x < 2 ^ Z.of_nat fuel -> 0 <= s -> s + Z.of_nat fuel < 256 ->
  exists k, slot_loop fuel x s = s + k /\ 0 <= k <= Z.of_nat fuel /\ x < 2 ^ k /\
            (0 < k -> 2 ^ (k - 1) <= x).
Proof.
  induction fuel as [|fuel IH]; intros x s Hx Hs Hb.
  { exists 0. simpl in *. split_and!; lia. }
  simpl slot_loop. destruct (Z.eqb_spec x 0) as [->|Hne].
  { exists 0. split_and!; try lia. }
  rewrite Nat2Z.inj_succ, Z.pow_succ_r in Hx by lia.
  rewrite u8_id by lia. rewrite (shiftr_div x 1) by lia. change (2 ^ 1) with 2.
  destruct (IH (x / 2) (s + 1)) as (k&->&Hk&Hlt&Hge).
  - split; [apply Z.div_pos; lia|apply Z.div_lt_upper_bound; lia].
  - lia.
  - lia.
  - exists (k + 1). pose proof (Z.div_mod x 2 ltac:(lia)).
    pose proof (Z.mod_pos_bound x 2 ltac:(lia)).
    rewrite Z.pow_add_r by lia. replace (k + 1 - 1) with k by lia.
    split_and!; try lia. intros _. destruct (decide (k = 0)) as [->|]; [simpl; lia|].
    replace k with (k - 1 + 1) by lia. rewrite Z.pow_add_r by lia.
    assert (2 ^ (k - 1) <= x / 2) by (apply Hge; lia). lia.
Qed.

(** A slot holds the sizes above half of its bound, up to the bound. *)
Lemma delete_slot_range size :
  1 <= size <= DMS_RECORD_MAX_SZ ->
  0 <= delete_slot size < Z.of_nat mb_max /\ size <= 32 * 2 ^ delete_slot size /\
  (0 < delete_slot size -> 32 * 2 ^ (delete_slot size - 1) < size).
Proof.
  unfold DMS_RECORD_MAX_SZ, delete_slot. intros Hs.
  rewrite shiftr_div by lia. change (2 ^ 5) with 32.
  pose proof (Z.div_mod (size - 1) 32 ltac:(lia)).
  pose proof (Z.mod_pos_bound (size - 1) 32 ltac:(lia)).
  destruct (slot_loop_spec 32 ((size - 1) / 32) 0) as (k&->&Hk&Hlt&Hge).
  - split; [apply Z.div_pos; lia|apply Z.div_lt_upper_bound; lia].
  - lia.
  - simpl. lia.
  - replace (0 + k) with k by lia. change (Z.of_nat mb_max) with 20.
    assert (k < 20).
    { destruct (decide (k <= 19)); [lia|]. exfalso.
      assert (2 ^ 19 <= 2 ^ (k - 1)) by (apply Z.pow_le_mono_r; lia).
      specialize (Hge ltac:(lia)). change (2 ^ 19) with 524288 in *. lia. }
    split_and!; lia.
Qed.

(** A list beyond the slot of the size asked for holds only records that
    fit. *)
Lemma delete_slot_above req size :
  1 <= req <= DMS_RECORD_MAX_SZ -> 1 <= size <= DMS_RECORD_MAX_SZ ->
  delete_slot req < delete_slot size -> req <= size.
Proof.
  intros Hr Hs Hlt. destruct (delete_slot_range req Hr) as (Hk&Hle&_).
  destruct (delete_slot_range size Hs) as (_&_&Hge).
  assert (2 ^ delete_slot req <= 2 ^ (delete_slot size - 1)) by (apply Z.pow_le_mono_r; lia).
  specialize (Hge ltac:(lia)). lia.
Qed.

Lemma delete_slot_mono a b :
  1 <= a -> a <= b <= DMS_RECORD_MAX_SZ -> delete_slot a <= delete_slot b.
Proof.
  intros Ha Hb. destruct (decide (delete_slot a <= delete_slot b)); [done|].
  pose proof (delete_slot_above b a ltac:(lia) ltac:(lia) ltac:(lia)).
  assert (a = b) as -> by lia. lia.
Qed.

(** ** Record sizes *)

Lemma rne_error x e : 0 <= e -> 2 * Z.abs (rne x e * 2 ^ e - x) <= 2 ^ e.
Proof.
  intros He. unfold rne. pose proof (Z.div_mod x (2 ^ e) ltac:(lia)).
  pose proof (Z.mod_pos_bound x (2 ^ e) ltac:(lia)).
  destruct (Z.ltb_spec (2 * (x mod 2 ^ e)) (2 ^ e)); [lia|].
  destruct (Z.ltb_spec (2 ^ e) (2 * (x mod 2 ^ e))); [lia|]. case_match; lia.
Qed.

Lemma f32_round_error x :
  0 <= x -> 16777216 * Z.abs (f32_round x - x) <= x.
Proof.
  intros Hx. unfold f32_round. destruct (Z.leb_spec (Z.log2 x - 23) 0); [lia|].
  pose proof (rne_error x (Z.log2 x - 23) ltac:(lia)) as Hr.
  assert (2 ^ (Z.log2 x - 23) * 8388608 <= x).
  { change 8388608 with (2 ^ 23). rewrite <- Z.pow_add_r by lia.
    replace (Z.log2 x - 23 + 23) with (Z.log2 x) by lia.
    apply Z.log2_spec. destruct (decide (x = 0)) as [->|]; [simpl in *; lia|lia]. }
  lia.
Qed.

Lemma f32_round_small x : 0 <= x < 16777216 -> f32_round x = x.
Proof.
  intros Hx. unfold f32_round. destruct (Z.leb_spec (Z.log2 x - 23) 0); [done|].
  assert (Z.log2 x <= 23); [|lia].
  destruct (decide (x = 0)) as [->|]; [simpl; lia|].
  apply Z.lt_succ_r, Z.log2_lt_pow2; simpl; lia.
Qed.

Lemma mul_ratio_bounds size :
  0 <= size < 16777216 -> size <= mul_ratio size <= 2 * size.
Proof.
  intros Hs. unfold mul_ratio, RATIO_MANTISSA. rewrite (f32_round_small size) by done.
  pose proof (f32_round_error (size * 10066330) ltac:(lia)) as He.
  change (2 ^ 23) with 8388608.
  assert (size <= f32_round (size * 10066330) / 8388608 <= 2 * size) as Hd.
  { split; [apply Z.div_le_lower_bound; lia|].
    apply Z.lt_succ_r, Z.div_lt_upper_bound; lia. }
  rewrite u32_id; lia.
Qed.

Lemma finalRecordSize_bounds len :
  0 <= len <= DMS_RECORD_USER_MAX_SZ - DMS_RECORD_METADATA_SZ ->
  len + DMS_RECORD_METADATA_SZ <= finalRecordSize len <= DMS_RECORD_MAX_SZ /\
  (4 | finalRecordSize len).
Proof.
  unfold DMS_RECORD_USER_MAX_SZ, DMS_RECORD_METADATA_SZ, DMS_RECORD_MAX_SZ, finalRecordSize.
  intros Hl. pose proof (mul_ratio_bounds len ltac:(lia)).
  unfold DMS_RECORD_METADATA_SZ, DMS_RECORD_MAX_SZ.
  rewrite u32_id by lia.
  destruct (ossAlignX_spec (mul_ratio len + 16) 2) as [Ha Hd]; [lia..|].
  change (2 ^ 2) with 4 in *.
  destruct (Z.le_ge_cases 0x01000000 (ossAlignX (mul_ratio len + 16) 4)).
  - rewrite Z.min_l by lia. split; [lia|]. by exists 4194304.
  - rewrite Z.min_r by lia. split; [lia|done].
Qed.

(** The space a record is given holds its header and all of its data,
    with the overflow reserve, is a multiple of four bytes, and never exceeds
    the largest record, for every length [insertRecord] accepts. *)
Theorem finalRecordSize_fits len :
  0 <= len <= DMS_RECORD_USER_MAX_SZ - DMS_RECORD_METADATA_SZ ->
  len + DMS_RECORD_METADATA_SZ <= finalRecordSize len <= DMS_RECORD_MAX_SZ /\
  (4 | finalRecordSize len).
Proof. apply finalRecordSize_bounds. Qed.

Lemma finalRecordSize_fits_witness :
  finalRecordSize 29 = 52 /\
  (29 + DMS_RECORD_METADATA_SZ <= finalRecordSize 29 <= DMS_RECORD_MAX_SZ /\ (4 | finalRecordSize 29)).
Proof.
  split; [vm_compute; reflexivity|].
  apply (finalRecordSize_fits 29). vm_compute. split; discriminate.
Defined.

(** ** Extent sizes *)

Lemma required_pages_bounds g req :
  geometry_ok g -> 1 <= req <= DMS_RECORD_MAX_SZ ->
  let n := required_pages g req in
  1 <= n <= g_segmentPages g /\ n < 65536 /\
  req <= n * g_pageSize g - DMS_EXTENT_METADATA_SZ /\
  n * g_pageSize g - DMS_EXTENT_METADATA_SZ < DMS_RECORD_MAX_SZ + g_pageSize g.
Proof.
  intros (Hp&Hps&Hsq&Hsp&_) Hr. unfold required_pages, DMS_RECORD_MAX_SZ,
    DMS_BEST_UP_EXTENT_SZ, DMS_EXTENT_METADATA_SZ in *.
  cbv zeta. rewrite (shiftl_mul req) by lia. change (2 ^ 4) with 16.
  rewrite (u32_id (req * 16)) by lia.
  assert (exists x, (if 16 * 1024 * 1024 <? req * 16
    then if req <? 16 * 1024 * 1024 then 16 * 1024 * 1024 else req
    else req * 16) = x /\ req <= x <= 16777216) as (x&->&Hx).
  { eexists; split; [reflexivity|]. repeat zcase; lia. }
  assert (4096 <= g_pageSize g <= 65536 /\ g_segmentPages g * g_pageSize g = 134217728 /\
          2048 <= g_segmentPages g <= 32768) as (Hps'&Hmul&Hsp').
  { rewrite Hps, Hsp, Hsq. split_and!.
    - change 4096 with (2 ^ 12). apply Z.pow_le_mono_r; lia.
    - change 65536 with (2 ^ 16). apply Z.pow_le_mono_r; lia.
    - rewrite <- Z.pow_add_r by lia. by replace (27 - _ + _) with 27 by lia.
    - change 2048 with (2 ^ 11). apply Z.pow_le_mono_r; lia.
    - change 32768 with (2 ^ 15). apply Z.pow_le_mono_r; lia. }
  rewrite shiftr_div by lia. rewrite <- Hps.
  set (q := (x + 36 + g_pageSize g - 1) / g_pageSize g).
  pose proof (Z.div_mod (x + 36 + g_pageSize g - 1) (g_pageSize g) ltac:(lia)) as Hdm.
  pose proof (Z.mod_pos_bound (x + 36 + g_pageSize g - 1) (g_pageSize g) ltac:(lia)).
  fold q in Hdm.
  assert (1 <= q) by nia. assert (q <= g_segmentPages g) by nia.
  rewrite (u32_id q) by lia.
  destruct (Z.ltb_spec (g_segmentPages g) q); [lia|].
  destruct (Z.ltb_spec q 1); [lia|]. nia.
Qed.
