(* ===== verification/DmsWp.v ===== *)
(** * Reasoning about the operations of the storage unit

    [wp m Q st]: the run of [m] from [st] ends in an outcome and a state that
    satisfy [Q].  The rules follow the structure of a program.  Dirty tracking
    is a side effect nothing else depends on, so the rules for the accessors
    leave only [bd_aux] unknown. *)
From S2P Require Import Prelude.
From S2P Require Import ByteBits.
From S2P Require Import OssBase.
From S2P Require Import OssMmap.
From S2P Require Import DmsBase.
From S2P Require Import DmsName.
From S2P Require Import DmsSegmentSpace.
From S2P Require Import DmsSMEMgr.
From S2P Require Import DmsRecord.
From S2P Require Import DmsDirtyList.
From S2P Require Import DmsMBContext.
From S2P Require Import DmsExtent.
From S2P Require Import DmsMB.
From S2P Require Import Bson.
From S2P Require Import DmsStore.
From S2P Require Import DmsInsert.
#[local] Open Scope Z_scope.

Definition wp {A} (m : M A) (Q : outcome A -> blockData -> Prop) (st : blockData) : Prop :=
  Q (m st).1 (m st).2.

Create HintDb wp.
Create Rewrite HintDb upd.

Section Rules.
  Context {A B : Type}.

Lemma wp_mono (m : M A) (Q Q' : outcome A -> blockData -> Prop) st :
  wp m Q st -> (forall r st', Q r st' -> Q' r st') -> wp m Q' st.
Proof. intros H HQ. by apply HQ. Qed.

Lemma wp_ret (a : A) (Q : outcome A -> blockData -> Prop) st : Q (Ok a) st -> wp (mret a) Q st.
Proof. done. Qed.

Lemma wp_bind (m : M A) (f : A -> M B) (Q : outcome B -> blockData -> Prop) st :
  wp m (fun r st' => match r with
                     | Ok a => wp (f a) Q st'
                     | Throw e => Q (Throw e) st'
                     | Stop w => Q (Stop w) st'
                     end) st ->
  wp (m ≫= f) Q st.
Proof. unfold wp, mbind, M_bind. destruct (m st) as [[a|e|w] st']; done. Qed.

Lemma wp_modify f (Q : outcome unit -> blockData -> Prop) st :
  Q (Ok tt) (f st) -> wp (modify f) Q st.
Proof. done. Qed.

Lemma wp_get_bind (f : blockData -> M B) (Q : outcome B -> blockData -> Prop) st :
  wp (f st) Q st -> wp (get_st ≫= f) Q st.
Proof. done. Qed.

Lemma wp_ret_bind (a : A) (f : A -> M B) (Q : outcome B -> blockData -> Prop) st :
  wp (f a) Q st -> wp (mret a ≫= f) Q st.
Proof. done. Qed.

Lemma wp_modify_bind g (f : unit -> M B) (Q : outcome B -> blockData -> Prop) st :
  wp (f tt) Q (g st) -> wp (modify g ≫= f) Q st.
Proof. done. Qed.

(** A bind whose first part always ends normally. *)
Lemma wp_bind_ok (m : M A) (f : A -> M B) (P : A -> blockData -> Prop)
    (Q : outcome B -> blockData -> Prop) st :
  wp m (fun r st' => exists a, r = Ok a /\ P a st') st ->
  (forall a st', P a st' -> wp (f a) Q st') -> wp (m ≫= f) Q st.
Proof.
  intros H HQ. apply wp_bind. eapply wp_mono; [exact H|].
  intros r st' (a&->&HP). by apply HQ.
Qed.

End Rules.

(** One step of a straight-line program. *)
Ltac wp_step :=
  first
    [ apply wp_get_bind | apply wp_ret_bind
    | match goal with
      | |- wp (mbind _ (ext_mod _ _)) _ _ => apply wp_modify_bind
      | |- wp (mbind _ (rec_mod _ _)) _ _ => apply wp_modify_bind
      | |- wp (mbind _ (mbex_mod _ _)) _ _ => apply wp_modify_bind
      | |- wp (mbind _ (mb_mod _ _)) _ _ => apply wp_modify_bind
      | |- wp (mbind _ (stat_mod _ _)) _ _ => apply wp_modify_bind
      | |- wp (mbind _ (seg_mod _)) _ _ => apply wp_modify_bind
      | |- wp (mbind _ (modify _)) _ _ => apply wp_modify_bind
      | |- wp (mret _) _ _ => apply wp_ret
      end ].

(** ** Cells

    Reading a cell after a cell is written: the rewrite rules [upd]. *)

Lemma ext_at_ext_upd st e f e' :
  ext_at (ext_upd st e f) e' = if decide (e = e') then f (ext_at st e) else ext_at st e'.
Proof.
  unfold ext_upd, ext_at at 1. simpl. destruct (decide (e = e')) as [->|].
  - by rewrite lookup_insert_eq.
  - by rewrite lookup_insert_ne.
Qed.
Lemma ext_upd_upd st e f g : ext_upd (ext_upd st e f) e g = ext_upd st e (fun x => g (f x)).
Proof.
  unfold ext_upd at 1. rewrite ext_at_ext_upd, decide_True by done. unfold ext_upd.
  simpl. by rewrite insert_insert_eq.
Qed.
Lemma mbex_at_mbex_upd st e f e' :
  mbex_at (mbex_upd st e f) e' = if decide (e = e') then f (mbex_at st e) else mbex_at st e'.
Proof.
  unfold mbex_upd, mbex_at at 1. simpl. destruct (decide (e = e')) as [->|].
  - by rewrite lookup_insert_eq.
  - by rewrite lookup_insert_ne.
Qed.
Lemma mbex_upd_upd st e f g : mbex_upd (mbex_upd st e f) e g = mbex_upd st e (fun x => g (f x)).
Proof.
  unfold mbex_upd at 1. rewrite mbex_at_mbex_upd, decide_True by done. unfold mbex_upd.
  simpl. by rewrite insert_insert_eq.
Qed.
Lemma rec_at_rec_upd st r f r' :
  rec_at (rec_upd st r f) r' = if decide (r = r') then f (rec_at st r) else rec_at st r'.
Proof.
  unfold rec_upd, rec_at at 1. simpl. destruct (decide (r = r')) as [->|].
  - by rewrite lookup_insert_eq.
  - by rewrite lookup_insert_ne.
Qed.
Lemma rec_upd_upd st r f g : rec_upd (rec_upd st r f) r g = rec_upd st r (fun x => g (f x)).
Proof.
  unfold rec_upd at 1. rewrite rec_at_rec_upd, decide_True by done. unfold rec_upd.
  simpl. by rewrite insert_insert_eq.
Qed.
Lemma mb_at_mb_upd st i f i' :
  mb_at (mb_upd st i f) i' = if decide (i = i') then f (mb_at st i) else mb_at st i'.
Proof.
  unfold mb_upd, mb_at at 1. simpl. destruct (decide (i = i')) as [->|].
  - by rewrite lookup_insert_eq.
  - by rewrite lookup_insert_ne.
Qed.
Lemma mb_upd_upd st i f g : mb_upd (mb_upd st i f) i g = mb_upd st i (fun x => g (f x)).
Proof.
  unfold mb_upd at 1. rewrite mb_at_mb_upd, decide_True by done. unfold mb_upd.
  simpl. by rewrite insert_insert_eq.
Qed.
Lemma stat_at_stat_upd st i f i' :
  stat_at (stat_upd st i f) i' = if decide (i = i') then f (stat_at st i) else stat_at st i'.
Proof.
  unfold stat_upd, stat_at at 1. simpl. destruct (decide (i = i')) as [->|].
  - by rewrite lookup_insert_eq.
  - by rewrite lookup_insert_ne.
Qed.
Lemma stat_upd_upd st i f g : stat_upd (stat_upd st i f) i g = stat_upd st i (fun x => g (f x)).
Proof.
  unfold stat_upd at 1. rewrite stat_at_stat_upd, decide_True by done. unfold stat_upd.
  simpl. by rewrite insert_insert_eq.
Qed.
Lemma ext_at_mbex_upd st i f j : ext_at (mbex_upd st i f) j = ext_at st j.
Proof. done. Qed.
Lemma ext_at_rec_upd st i f j : ext_at (rec_upd st i f) j = ext_at st j.
Proof. done. Qed.
Lemma ext_at_mb_upd st i f j : ext_at (mb_upd st i f) j = ext_at st j.
Proof. done. Qed.
Lemma ext_at_stat_upd st i f j : ext_at (stat_upd st i f) j = ext_at st j.
Proof. done. Qed.
Lemma mbex_at_ext_upd st i f j : mbex_at (ext_upd st i f) j = mbex_at st j.
Proof. done. Qed.
Lemma mbex_at_rec_upd st i f j : mbex_at (rec_upd st i f) j = mbex_at st j.
Proof. done. Qed.
Lemma mbex_at_mb_upd st i f j : mbex_at (mb_upd st i f) j = mbex_at st j.
Proof. done. Qed.
Lemma mbex_at_stat_upd st i f j : mbex_at (stat_upd st i f) j = mbex_at st j.
Proof. done. Qed.
Lemma rec_at_ext_upd st i f j : rec_at (ext_upd st i f) j = rec_at st j.
Proof. done. Qed.
Lemma rec_at_mbex_upd st i f j : rec_at (mbex_upd st i f) j = rec_at st j.
Proof. done. Qed.
Lemma rec_at_mb_upd st i f j : rec_at (mb_upd st i f) j = rec_at st j.
Proof. done. Qed.
Lemma rec_at_stat_upd st i f j : rec_at (stat_upd st i f) j = rec_at st j.
Proof. done. Qed.
Lemma mb_at_ext_upd st i f j : mb_at (ext_upd st i f) j = mb_at st j.
Proof. done. Qed.
Lemma mb_at_mbex_upd st i f j : mb_at (mbex_upd st i f) j = mb_at st j.
Proof. done. Qed.
Lemma mb_at_rec_upd st i f j : mb_at (rec_upd st i f) j = mb_at st j.
Proof. done. Qed.
Lemma mb_at_stat_upd st i f j : mb_at (stat_upd st i f) j = mb_at st j.
Proof. done. Qed.
Lemma stat_at_ext_upd st i f j : stat_at (ext_upd st i f) j = stat_at st j.
Proof. done. Qed.
Lemma stat_at_mbex_upd st i f j : stat_at (mbex_upd st i f) j = stat_at st j.
Proof. done. Qed.
Lemma stat_at_rec_upd st i f j : stat_at (rec_upd st i f) j = stat_at st j.
Proof. done. Qed.
Lemma stat_at_mb_upd st i f j : stat_at (mb_upd st i f) j = stat_at st j.
Proof. done. Qed.
Lemma ext_at_set_aux st x j : ext_at (set_aux st x) j = ext_at st j.
Proof. done. Qed.
Lemma ext_null_ext_upd st i f j : ext_null (ext_upd st i f) j = ext_null st j.
Proof. done. Qed.
Lemma mbex_at_set_aux st x j : mbex_at (set_aux st x) j = mbex_at st j.
Proof. done. Qed.
Lemma ext_null_mbex_upd st i f j : ext_null (mbex_upd st i f) j = ext_null st j.
Proof. done. Qed.
Lemma rec_at_set_aux st x j : rec_at (set_aux st x) j = rec_at st j.
Proof. done. Qed.
Lemma ext_null_rec_upd st i f j : ext_null (rec_upd st i f) j = ext_null st j.
Proof. done. Qed.
Lemma mb_at_set_aux st x j : mb_at (set_aux st x) j = mb_at st j.
Proof. done. Qed.
Lemma ext_null_mb_upd st i f j : ext_null (mb_upd st i f) j = ext_null st j.
Proof. done. Qed.
Lemma stat_at_set_aux st x j : stat_at (set_aux st x) j = stat_at st j.
Proof. done. Qed.
Lemma ext_null_stat_upd st i f j : ext_null (stat_upd st i f) j = ext_null st j.
Proof. done. Qed.
Lemma ext_null_set_aux st x j : ext_null (set_aux st x) j = ext_null st j.
Proof. done. Qed.

#[export] Hint Rewrite
  ext_at_ext_upd mbex_at_mbex_upd rec_at_rec_upd mb_at_mb_upd stat_at_stat_upd
  ext_at_mbex_upd ext_at_rec_upd ext_at_mb_upd ext_at_stat_upd mbex_at_ext_upd
  mbex_at_rec_upd mbex_at_mb_upd mbex_at_stat_upd rec_at_ext_upd rec_at_mbex_upd
  rec_at_mb_upd rec_at_stat_upd mb_at_ext_upd mb_at_mbex_upd mb_at_rec_upd
  mb_at_stat_upd stat_at_ext_upd stat_at_mbex_upd stat_at_rec_upd stat_at_mb_upd
  ext_at_set_aux ext_null_ext_upd mbex_at_set_aux ext_null_mbex_upd rec_at_set_aux
  ext_null_rec_upd mb_at_set_aux ext_null_mb_upd stat_at_set_aux ext_null_stat_upd
  ext_null_set_aux : upd.

Ltac upd := autorewrite with upd in *; simpl in *.

(** ** Dirty tracking only changes [bd_aux] *)

Definition only_aux {A} (m : M A) : Prop :=
  forall st, exists a x, m st = (Ok a, set_aux st x).

Lemma set_aux_id st : set_aux st (bd_aux st) = st.
Proof. by destruct st. Qed.

Lemma only_aux_ret {A} (a : A) : only_aux (mret a : M A).
Proof. intros st. exists a, (bd_aux st). by rewrite set_aux_id. Qed.

Lemma only_aux_bind {A B} (m : M A) (f : A -> M B) :
  only_aux m -> (forall a, only_aux (f a)) -> only_aux (m ≫= f).
Proof.
  intros Hm Hf st. unfold mbind, M_bind. specialize (Hm st) as (a&x&->).
  destruct (Hf a (set_aux st x)) as (b&y&->). by exists b, y.
Qed.

Lemma only_aux_get_bind {B} (f : blockData -> M B) :
  (forall s, only_aux (f s)) -> only_aux (get_st ≫= f).
Proof. intros Hf st. apply Hf. Qed.

Lemma only_aux_modify f : (forall st, exists x, f st = set_aux st x) -> only_aux (modify f).
Proof. intros H st. destruct (H st) as [x Hx]. exists tt, x. unfold modify. by rewrite Hx. Qed.

#[local] Hint Resolve only_aux_ret : wp.

Lemma only_aux_dirty f : only_aux (modify (fun st => set_dirty st (f st))).
Proof. apply only_aux_modify. unfold set_dirty. eauto. Qed.

Lemma only_aux_flushMME : only_aux flushMME.
Proof.
  unfold flushMME. apply only_aux_bind; [apply only_aux_modify; eauto|]. intros [].
  apply only_aux_get_bind. intros s. unfold flushSegment. apply only_aux_get_bind. intros s'.
  apply only_aux_bind.
  - case_match; [apply only_aux_dirty|auto with wp].
  - intros [] st. unfold mmap_flush. case_match. eauto.
Qed.

Lemma only_aux_onMarkHeaderInvalid c : only_aux (onMarkHeaderInvalid c).
Proof.
  unfold onMarkHeaderInvalid. apply only_aux_get_bind. intros s. cbv zeta.
  match goal with |- only_aux (if ?b then flushMME else _) => destruct b end;
    auto using only_aux_flushMME with wp.
Qed.

Lemma only_aux_markDirty c e after : only_aux (markDirty c e after).
Proof.
  unfold markDirty, markHeaderInvalid. apply only_aux_get_bind. intros s. cbv zeta.
  case_match; [|auto with wp]. apply only_aux_bind.
  - case_match; [|auto with wp].
    apply only_aux_bind; auto using only_aux_onMarkHeaderInvalid with wp.
  - intros []. case_match; [apply only_aux_dirty|auto with wp].
Qed.

Lemma only_aux_markPending l : only_aux (markPending l).
Proof.
  induction l as [|[c e] l IH]; [apply only_aux_ret|].
  apply only_aux_bind; [apply only_aux_markDirty|intros; apply IH].
Qed.

(** The accessors. *)
Lemma wp_extWritePtr c e b (Q : outcome bool -> blockData -> Prop) st :
  ext_null st e = false -> (forall x, Q (Ok true) (set_aux st x)) ->
  wp (extWritePtr c e b) Q st.
Proof.
  intros Hn HQ. unfold extWritePtr. apply wp_get_bind. rewrite Hn.
  apply wp_modify_bind. unfold wp, mbind, M_bind.
  destruct (only_aux_markDirty c e false
    (set_pending st ((c, e) :: ax_pending (bd_aux st)))) as (a&x&->). apply HQ.
Qed.

Lemma wp_extReadPtr e (Q : outcome unit -> blockData -> Prop) st :
  ext_null st e = false -> Q (Ok tt) st -> wp (extReadPtr e) Q st.
Proof. intros Hn HQ. unfold extReadPtr. apply wp_get_bind. by rewrite Hn. Qed.

Lemma wp_recWritePtr c r len (Q : outcome unit -> blockData -> Prop) st :
  ext_null st (rid_extent r) = false -> recLen st r len <= DMS_RECORD_MAX_SZ ->
  (forall x, Q (Ok tt) (set_aux st x)) -> wp (recWritePtr c r len) Q st.
Proof.
  intros Hn Hl HQ. unfold recWritePtr. apply wp_get_bind. rewrite Hn.
  destruct (Z.ltb_spec DMS_RECORD_MAX_SZ (recLen st r len)); [lia|].
  apply wp_bind, wp_extWritePtr; [done|]. intros x. by apply wp_ret.
Qed.

Lemma wp_recReadPtr r len (Q : outcome dmsRecord -> blockData -> Prop) st :
  ext_null st (rid_extent r) = false -> recLen st r len <= DMS_RECORD_MAX_SZ ->
  Q (Ok (rec_at st r)) st -> wp (recReadPtr r len) Q st.
Proof.
  intros Hn Hl HQ. unfold recReadPtr. apply wp_get_bind. rewrite Hn.
  by destruct (Z.ltb_spec DMS_RECORD_MAX_SZ (recLen st r len)); [lia|].
Qed.

(** The end of a function. *)
Lemma wp_scope {A} (m : M A) (Q : outcome A -> blockData -> Prop) st :
  (forall x, wp m (fun r st' => forall y, Q r (set_aux st' y)) (set_aux st x)) ->
  wp (scope m) Q st.
Proof.
  intros H. unfold wp, scope in *. unfold set_pending at 1 2.
  match goal with |- context [m (set_aux st ?x)] => specialize (H x) end.
  destruct (m _) as [r st']; simpl in H.
  destruct (only_aux_markPending (ax_pending (bd_aux st')) st') as (a&y&Hy).
  destruct r; simpl; rewrite ?Hy; unfold set_pending; simpl; try apply H.
  specialize (H (bd_aux st')). by rewrite set_aux_id in H.
Qed.

(** [try ... catch] around code that does not throw. *)
Lemma wp_catch (m : M Z) (Q : outcome Z -> blockData -> Prop) st :
  wp m (fun r st' => match r with
                     | Throw e => Q (Ok (if e =? 0 then SDB_SYS else e)) st'
                     | _ => Q r st'
                     end) st ->
  wp (catch m) Q st.
Proof. unfold wp, catch. destruct (m st) as [[a|e|w] st']; done. Qed.
