(* ===== verification/DmsDelete.v ===== *)
(** * The delete lists of a collection

    The free chunks of a collection are the deleted records on its twenty
    singly linked lists, one per size class.  [del_ok] relates the links in
    the file to the set of free chunks; [saveDeletedRecordAt] adds a chunk,
    the search of [allocRecordSpace] takes one out. *)
From S2P Require Import Prelude.
From S2P Require Import ByteBits.
From S2P Require Import OssBase.
From S2P Require Import OssMmap.
From S2P Require Import DmsBase.
From S2P Require Import DmsName.
From S2P Require Import DmsSegmentSpace.
From S2P Require Import DmsSMEMgr.
From S2P Require Import DmsRecord.
From S2P Require Import DmsDirtyList.
From S2P Require Import DmsMBContext.
From S2P Require Import DmsExtent.
From S2P Require Import DmsMB.
From S2P Require Import Bson.
From S2P Require Import DmsStore.
From S2P Require Import DmsInsert.
From S2P Require Import DmsSize.
From S2P Require Import DmsWp.
#[local] Open Scope Z_scope.

(** ** Lists in the file *)

(** A deleted record of size [s] at [r]. *)
Record free_cell (x : dmsRecord) (r : dmsRecordID) (s : Z) : Prop := {
  fc_head : head_view x DMS_RECORD_FLAG_DELETED s;
  fc_off : rec_myOffset x = rid_offset r;
  fc_rid : rid_isNull r = false
}.

(** Following the links from [h] visits [l] and ends at a null identifier. *)
Fixpoint dchain (R : dmsRecordID -> dmsRecord) (h : dmsRecordID) (l : list dmsRecordID) : Prop :=
  match l with
  | [] => rid_isNull h = true
  | r :: l => h = r /\ rid_isNull r = false /\ dchain R (del_getNextRID (R r)) l
  end.

Definition slot_of (s : Z) : nat := Z.to_nat (delete_slot s).

(** [fm]: the free chunks with their sizes; [D]: the lists. *)
Record del_ok (R : dmsRecordID -> dmsRecord) (dl : list dmsRecordID)
    (fm : gmap dmsRecordID Z) (D : list (list dmsRecordID)) : Prop := {
  dk_len : length dl = mb_max;
  dk_lenD : length D = mb_max;
  dk_chain : forall j h l, dl !! j = Some h -> D !! j = Some l -> dchain R h l;
  dk_mem : forall j l r, D !! j = Some l -> r ∈ l ->
    exists s, fm !! r = Some s /\ slot_of s = j;
  dk_all : forall r s, fm !! r = Some s -> exists l, D !! slot_of s = Some l /\ r ∈ l;
  dk_nodup : forall j l, D !! j = Some l -> NoDup l;
  dk_cell : forall r s, fm !! r = Some s -> free_cell (R r) r s
}.

Lemma dchain_ext R R' l : forall h,
  (forall r, r ∈ l -> del_getNextRID (R' r) = del_getNextRID (R r)) ->
  dchain R h l -> dchain R' h l.
Proof.
  induction l as [|r l IH]; intros h Hext; simpl; [done|].
  intros (->&Hn&Hc). rewrite Hext by left. split_and!; try done.
  apply IH; [|done]. intros r' ?. apply Hext. by right.
Qed.

Lemma free_cell_size x r s : free_cell x r s -> 1 <= s <= DMS_RECORD_MAX_SZ.
Proof. intros [[_ _ H] _ _]. done. Qed.

Lemma slot_of_lt s : 1 <= s <= DMS_RECORD_MAX_SZ -> (slot_of s < mb_max)%nat.
Proof. intros Hs. destruct (delete_slot_range s Hs) as [H _]. unfold slot_of. lia. Qed.

Lemma slot_of_eq s : 1 <= s <= DMS_RECORD_MAX_SZ -> Z.of_nat (slot_of s) = delete_slot s.
Proof. intros Hs. destruct (delete_slot_range s Hs) as [H _]. unfold slot_of. lia. Qed.

(** Lists that do not change keep their links when other cells change. *)
Lemma del_ok_ext R R' dl fm D :
  (forall r, is_Some (fm !! r) -> R' r = R r) -> del_ok R dl fm D -> del_ok R' dl fm D.
Proof.
  intros Hext [H1 H2 H3 H4 H5 H6 H7]. split; try done.
  - intros j h l Hh Hl. eapply dchain_ext; [|by eapply H3].
    intros r Hr. destruct (H4 j l r Hl Hr) as (s&Hs&_). by rewrite Hext.
  - intros r s Hs. rewrite Hext by eauto. by apply H7.
Qed.

(** A new chunk at the head of its list. *)
Lemma del_add R R' dl fm D r s :
  del_ok R dl fm D -> fm !! r = None -> free_cell (R' r) r s ->
  (forall r', r' <> r -> R' r' = R r') ->
  del_getNextRID (R' r) = default rid_null (dl !! slot_of s) ->
  del_ok R' (<[slot_of s := r]> dl) (<[r := s]> fm)
    (<[slot_of s := r :: default [] (D !! slot_of s)]> D).
Proof.
  intros [H1 H2 H3 H4 H5 H6 H7] Hr Hc Hext Hnext.
  pose proof (free_cell_size _ _ _ Hc) as Hsz. pose proof (slot_of_lt s Hsz) as Hlt.
  destruct (lookup_lt_is_Some_2 dl (slot_of s)) as [h Hh]; [by rewrite H1|].
  destruct (lookup_lt_is_Some_2 D (slot_of s)) as [l0 Hl0]; [by rewrite H2|].
  rewrite Hl0. simpl. rewrite Hh in Hnext. simpl in Hnext.
  assert (forall j l, D !! j = Some l -> r ∉ l) as Hfresh.
  { intros j l Hl Hin. destruct (H4 j l r Hl Hin) as (s'&Hs'&_). congruence. }
  split.
  - by rewrite length_insert.
  - by rewrite length_insert.
  - intros j h' l. destruct (decide (j = slot_of s)) as [->|Hne].
    + rewrite !list_lookup_insert_eq by lia. intros [= <-] [= <-]. simpl.
      split_and!; [done|by destruct Hc|]. rewrite Hnext.
      eapply dchain_ext; [|by eapply H3]. intros r' Hr'. rewrite Hext; [done|].
      intros ->. by eapply Hfresh.
    + rewrite !list_lookup_insert_ne by done. intros Hh' Hl.
      eapply dchain_ext; [|by eapply H3]. intros r' Hr'. rewrite Hext; [done|].
      intros ->. by eapply Hfresh.
  - intros j l r'. destruct (decide (j = slot_of s)) as [->|Hne].
    + rewrite list_lookup_insert_eq by lia.
      intros [= <-] [->|Hin]%elem_of_cons.
      * exists s. by rewrite lookup_insert_eq.
      * destruct (H4 _ _ _ Hl0 Hin) as (s'&Hs'&Hsl). exists s'. split; [|done].
        rewrite lookup_insert_ne; [done|]. intros ->. congruence.
    + rewrite list_lookup_insert_ne by done. intros Hl Hin.
      destruct (H4 _ _ _ Hl Hin) as (s'&Hs'&Hsl). exists s'. split; [|done].
      rewrite lookup_insert_ne; [done|]. intros ->. congruence.
  - intros r' s'. rewrite lookup_insert_Some. intros [[<- <-]|[Hne Hs']].
    + exists (r :: l0). rewrite list_lookup_insert_eq by lia. split; [done|left].
    + destruct (H5 _ _ Hs') as (l&Hl&Hin). destruct (decide (slot_of s' = slot_of s)) as [Eq|].
      * rewrite Eq in *. simplify_eq. exists (r :: l0).
        rewrite list_lookup_insert_eq by lia. split; [done|by right].
      * exists l. by rewrite list_lookup_insert_ne.
  - intros j l. destruct (decide (j = slot_of s)) as [->|Hne].
    + rewrite list_lookup_insert_eq by lia. intros [= <-].
      apply NoDup_cons. split; [by eapply Hfresh|by eapply H6].
    + rewrite list_lookup_insert_ne by done. apply H6.
  - intros r' s'. rewrite lookup_insert_Some. intros [[<- <-]|[Hne Hs']]; [done|].
    rewrite Hext by done. by apply H7.
Qed.

(** The chain through [l1 ++ r :: l2] without [r]: the link of the
    predecessor of [r] is redirected. *)
Lemma dchain_remove R R' l1 : forall r l2 h,
  dchain R h (l1 ++ r :: l2) -> NoDup (l1 ++ r :: l2) ->
  (forall p, last l1 = Some p -> del_getNextRID (R' p) = del_getNextRID (R r)) ->
  (forall x, x ∈ l1 ++ l2 -> last l1 <> Some x -> del_getNextRID (R' x) = del_getNextRID (R x)) ->
  dchain R' (match l1 with [] => del_getNextRID (R r) | _ => h end) (l1 ++ l2).
Proof.
  induction l1 as [|a l1 IH]; intros r l2 h Hc Hnd Hp Hx; simpl in Hc.
  { simpl. destruct Hc as (->&_&Hc). eapply dchain_ext; [|done].
    intros x Hin. by apply Hx. }
  destruct Hc as (->&Hn&Hc). simpl. split_and!; try done.
  apply NoDup_cons in Hnd as [Ha Hnd].
  destruct l1 as [|b l1].
  - simpl in Hp. rewrite (Hp a) by done. simpl in Hc. destruct Hc as (_&_&Hc).
    eapply dchain_ext; [|done]. intros x Hin. apply Hx; [by right|]. simpl.
    intros [= ->]. apply Ha. simpl. by right.
  - specialize (IH r l2 _ Hc Hnd). simpl in IH |- *.
    rewrite (Hx a); [apply IH| |].
    + intros p Hl. apply Hp. done.
    + intros x Hin Hl. apply Hx; [by right|done].
    + by left.
    + intros Hl. change (a ∉ (b :: l1) ++ r :: l2) in Ha. apply Ha, elem_of_app. left. by eapply last_Some_elem_of.
Qed.

(** Taking the chunk [r] out of the list [j]. *)
Lemma del_take R R' dl (dl' : list dmsRecordID) fm D (j : nat) l1 r l2 :
  del_ok R dl fm D -> D !! j = Some (l1 ++ r :: l2) ->
  (forall x, last l1 <> Some x -> R' x = R x) ->
  (forall p, last l1 = Some p ->
     del_getNextRID (R' p) = del_getNextRID (R r) /\ forall s, free_cell (R p) p s -> free_cell (R' p) p s) ->
  dl' = (match l1 with [] => <[j := del_getNextRID (R r)]> dl | _ => dl end) ->
  del_ok R' dl' (delete r fm) (<[j := l1 ++ l2]> D).
Proof.
  intros [H1 H2 H3 H4 H5 H6 H7] Hj Hext Hp ->.
  pose proof (lookup_lt_Some _ _ _ Hj) as Hlt. rewrite H2 in Hlt.
  pose proof (H6 _ _ Hj) as Hnd.
  assert (r ∉ l1 ++ l2) as Hr.
  { rewrite <- Permutation_middle in Hnd. by apply NoDup_cons in Hnd as [? _]. }
  assert (forall i l x, D !! i = Some l -> x ∈ l -> i <> j -> last l1 <> Some x) as Hother.
  { intros i l x Hi Hx Hne E. apply last_Some_elem_of in E.
    destruct (H4 _ _ _ Hi Hx) as (s&Hs&Hsl).
    destruct (H4 _ _ x Hj) as (s'&Hs'&Hsl'); [apply elem_of_app; by left|]. congruence. }
  assert (forall i l, D !! i = Some l -> i <> j -> r ∉ l) as Hother'.
  { intros i l Hi Hne Hx. destruct (H4 _ _ _ Hi Hx) as (s&Hs&Hsl).
    destruct (H4 _ _ r Hj) as (s'&Hs'&Hsl'); [apply elem_of_app; right; left|]. congruence. }
  split.
  - case_match; rewrite ?length_insert; done.
  - by rewrite length_insert.
  - intros i h l. destruct (decide (i = j)) as [->|Hne].
    + rewrite list_lookup_insert_eq by lia. intros Hh [= <-].
      destruct (lookup_lt_is_Some_2 dl j) as [h0 Hh0]; [by rewrite H1|].
      assert (h = match l1 with [] => del_getNextRID (R r) | _ => h0 end) as ->.
      { destruct l1; [|congruence]. rewrite list_lookup_insert_eq in Hh by lia. congruence. }
      apply (dchain_remove R R').
      * by eapply H3.
      * done.
      * intros p E. by apply Hp.
      * intros x _ E. by rewrite Hext.
    + rewrite list_lookup_insert_ne by done. intros Hh Hl.
      eapply dchain_ext; [|eapply H3; [|done]].
      * intros x Hin. rewrite Hext; [done|]. by eapply Hother.
      * destruct l1; [|done]. by rewrite list_lookup_insert_ne in Hh.
  - intros i l x. destruct (decide (i = j)) as [->|Hne].
    + rewrite list_lookup_insert_eq by lia. intros [= <-] Hin.
      destruct (H4 _ _ x Hj) as (s&Hs&Hsl).
      { rewrite elem_of_app in *. rewrite elem_of_cons. tauto. }
      exists s. rewrite lookup_delete_ne; [done|]. by intros ->.
    + rewrite list_lookup_insert_ne by done. intros Hl Hin.
      destruct (H4 _ _ x Hl Hin) as (s&Hs&Hsl). exists s. rewrite lookup_delete_ne; [done|].
      intros ->. by eapply Hother'.
  - intros x s. rewrite lookup_delete_Some. intros [Hne Hs].
    destruct (H5 _ _ Hs) as (l&Hl&Hin). destruct (decide (slot_of s = j)) as [E|].
    + rewrite E in *. simplify_eq. exists (l1 ++ l2).
      rewrite list_lookup_insert_eq by lia. split; [done|].
      rewrite elem_of_app, elem_of_cons in Hin. rewrite elem_of_app. naive_solver.
    + exists l. by rewrite list_lookup_insert_ne.
  - intros i l. destruct (decide (i = j)) as [->|Hne].
    + rewrite list_lookup_insert_eq by lia. intros [= <-].
      rewrite <- Permutation_middle in Hnd. by apply NoDup_cons in Hnd as [_ ?].
    + rewrite list_lookup_insert_ne by done. apply H6.
  - intros x s. rewrite lookup_delete_Some. intros [Hne Hs].
    destruct (decide (last l1 = Some x)) as [E|E].
    + apply (Hp x E). by apply H7.
    + rewrite Hext by done. by apply H7.
Qed.

(** ** Saving a deleted record *)

Definition del_cell (x : dmsRecord) (off size : Z) (next : dmsRecordID) : dmsRecord :=
  del_setNextRID (rec_setMyOffset (rec_setSize (del_setDeleted x) size) off) next.

Lemma del_cell_free x r size next :
  rid_isNull r = false -> 1 <= size <= DMS_RECORD_MAX_SZ ->
  free_cell (del_cell x (rid_offset r) size next) r size.
Proof.
  intros Hr Hs. split; [|done|done]. unfold del_cell, del_setNextRID, rec_setMyOffset.
  pose proof (head_setSize_any (del_setDeleted x) size Hs) as [Hv Hf Hsz].
  assert (rec_getFlag (del_setDeleted x) = DMS_RECORD_FLAG_DELETED) as E.
  { unfold rec_getFlag, del_setDeleted, rec_setFlag, with_head. simpl.
    rewrite Z.land_lor_distr_l, <- Z.land_assoc. change (Z.land 4294967040 255) with 0.
    by rewrite Z.land_0_r. }
  rewrite E in Hv, Hf. by split.
Qed.

(** The state after [saveDeletedRecordAt]. *)
Definition upd_free (st : blockData) (mbID : Z) (r : dmsRecordID) (size e : Z) : blockData :=
  let b := mb_at st mbID in
  let st := rec_upd st r (fun x => del_cell x (rid_offset r) size
              (default rid_null (mb_deleteList b !! slot_of size))) in
  let st := ext_upd st e (fun x => ext_with_freeSpace x (i32 (ext_freeSpace x + size))) in
  let st := stat_upd st (mb_blockID b) (fun s => stat_with_freeSpace s
              (u64 (st_totalDataFreeSpace s + size))) in
  mb_upd st mbID (fun b => mb_with_deleteList b (<[slot_of size := r]> (mb_deleteList b))).

Lemma saveDeletedRecordAt_eq mbID r size e st :
  0 < size ->
  saveDeletedRecordAt mbID r size e st = (Ok SDB_OK, upd_free st mbID r size e).
Proof.
  intros Hs. unfold saveDeletedRecordAt, mbind, M_bind, rec_mod, ext_mod, stat_mod,
    mb_mod, modify, get_st. destruct (Z.ltb_spec 0 size); [|lia]. cbn beta iota zeta.
  f_equal. unfold upd_free. autorewrite with upd.
  change (rec_upd (stat_upd (ext_upd ?s e ?f) ?i ?g) ?r ?h)
    with (stat_upd (ext_upd (rec_upd s r h) e f) i g).
  by rewrite !rec_upd_upd.
Qed.

Lemma wp_saveDeletedRecordAt mbID r size e (Q : outcome Z -> blockData -> Prop) st :
  0 < size -> Q (Ok SDB_OK) (upd_free st mbID r size e) ->
  wp (saveDeletedRecordAt mbID r size e) Q st.
Proof. intros Hs HQ. unfold wp. by rewrite saveDeletedRecordAt_eq. Qed.

Lemma wp_mapOne mbID e off size (Q : outcome unit -> blockData -> Prop) st :
  ext_null st e = false -> 0 < size ->
  (forall x, Q (Ok tt) (set_aux (upd_free st mbID (mkRID e off) size e) x)) ->
  wp (mapOne mbID e off size) Q st.
Proof.
  intros Hn Hs HQ. unfold mapOne. apply wp_get_bind. cbv zeta. apply wp_scope. intros x.
  apply wp_bind, wp_recWritePtr; [done|vm_compute; discriminate|]. intros y.
  apply wp_bind, wp_saveDeletedRecordAt; [done|]. apply wp_ret. intros z. apply HQ.
Qed.

Lemma wp_saveDeletedRecord mbID r size (Q : outcome Z -> blockData -> Prop) st :
  rid_isNull r = false -> ext_null st (rid_extent r) = false -> 0 < size ->
  (forall x, Q (Ok SDB_OK) (set_aux (upd_free st mbID r size (rid_extent r)) x)) ->
  wp (saveDeletedRecord mbID r size) Q st.
Proof.
  intros Hr Hn Hs HQ. unfold saveDeletedRecord. rewrite Hr. apply wp_get_bind. cbv zeta.
  apply wp_scope. intros x. apply wp_catch.
  apply wp_bind, wp_extWritePtr; [done|]. intros y.
  apply wp_bind, wp_recWritePtr; [done|vm_compute; discriminate|]. intros z.
  apply wp_saveDeletedRecordAt; [done|]. intros w. apply HQ.
Qed.

(** ** Taking a deleted record *)

Definition upd_take (st : blockData) (mbID : Z) (j : nat) (pre : option dmsRecordID)
    (r : dmsRecordID) : blockData :=
  let next := del_getNextRID (rec_at st r) in
  let size := rec_getSize (rec_at st r) in
  ext_upd
    (match pre with
     | None => mb_upd st mbID (fun b => mb_with_deleteList b (<[j := next]> (mb_deleteList b)))
     | Some p => rec_upd st p (fun x => del_setNextRID x next)
     end)
    (rid_extent r) (fun e => ext_with_freeSpace e (i32 (ext_freeSpace e - size))).

Lemma free_cell_deleted x r s : free_cell x r s -> del_isDeleted x = true /\ rec_getSize x = s.
Proof.
  intros [Hv _ _]. unfold del_isDeleted, del_getFlag.
  by rewrite (head_getFlag _ _ _ Hv), (head_getSize _ _ _ Hv).
Qed.

Lemma wp_search_list n mbID req j (Q : outcome (option dmsRecordID) -> blockData -> Prop) st :
  forall l1 l2 h,
  dchain (rec_at st) h l2 ->
  (forall r, r ∈ l2 -> ext_null st (rid_extent r) = false /\ exists s, free_cell (rec_at st r) r s) ->
  (forall p, last l1 = Some p -> ext_null st (rid_extent p) = false) ->
  ((forall i r s, (i < n)%nat -> l2 !! i = Some r -> free_cell (rec_at st r) r s -> s < req) ->
   Q (Ok None) st) ->
  (forall a r b s x, l2 = a ++ r :: b -> free_cell (rec_at st r) r s -> req <= s ->
   Q (Ok (Some r)) (set_aux (upd_take st mbID j (last (l1 ++ a)) r) x)) ->
  wp (search_list n mbID req j (last l1) h) Q st.
Proof.
  induction n as [|n IH]; intros l1 l2 h Hc Hl Hp HN HS; simpl.
  { apply wp_ret, HN. lia. }
  destruct l2 as [|r l2]; simpl in Hc.
  { rewrite Hc. apply wp_ret, HN. done. }
  destruct Hc as (->&Hr&Hc). rewrite Hr.
  destruct (Hl r) as (Hn&s&Hs); [left|]. destruct (free_cell_deleted _ _ _ Hs) as [Hd Hsz].
  apply wp_bind, wp_recReadPtr; [done|vm_compute; discriminate|].
  rewrite Hd, Hsz. destruct (Z.leb_spec req s); simpl.
  - specialize (HS [] r l2 s). rewrite app_nil_r in HS.
    destruct (last l1) as [p|] eqn:El.
    + apply wp_bind, wp_bind, wp_recWritePtr; [by apply Hp|vm_compute; discriminate|]. intros x.
      apply wp_modify. apply wp_bind, wp_extWritePtr; [done|]. intros y.
      apply wp_modify_bind, wp_ret.
      specialize (HS y eq_refl Hs H). unfold upd_take in HS. rewrite Hsz in HS. exact HS.
    + apply wp_bind, wp_modify. apply wp_bind, wp_extWritePtr; [done|]. intros y.
      apply wp_modify_bind, wp_ret.
      specialize (HS y eq_refl Hs H). unfold upd_take in HS. rewrite Hsz in HS. exact HS.
  - replace (Some r) with (last (l1 ++ [r])) by apply last_snoc.
    apply (IH (l1 ++ [r]) l2); try done.
    + intros r' Hr'. apply Hl. by right.
    + intros p. rewrite last_snoc. by intros [= <-].
    + intros Hno. apply HN. intros [|i] r' s' Hi Hlk Hs'; simpl in Hlk.
      * simplify_eq. destruct (free_cell_deleted _ _ _ Hs'). lia.
      * eapply Hno; [|done..]. lia.
    + intros a r' b s' x -> Hs' Hreq. rewrite <- app_assoc. simpl.
      by apply (HS (r :: a) r' b s').
Qed.

Definition dl_at (st : blockData) (mbID : Z) : list dmsRecordID := mb_deleteList (mb_at st mbID).

Lemma wp_search_slots mbID req fm D (Q : outcome (option dmsRecordID) -> blockData -> Prop) st :
  del_ok (rec_at st) (dl_at st mbID) fm D ->
  (forall r, is_Some (fm !! r) -> ext_null st (rid_extent r) = false) ->
  forall n j, (j + n = mb_max)%nat ->
  ((forall i l k r s, (j <= i)%nat -> D !! i = Some l -> (k < s_maxSearch)%nat ->
      l !! k = Some r -> fm !! r = Some s -> s < req) -> Q (Ok None) st) ->
  (forall i l1 r l2 s x, D !! i = Some (l1 ++ r :: l2) -> fm !! r = Some s -> req <= s ->
     Q (Ok (Some r)) (set_aux (upd_take st mbID i (last l1) r) x)) ->
  wp (search_slots n mbID req j) Q st.
Proof.
  intros Hok Hadr n. induction n as [|n IH]; intros j Hj HN HS; simpl.
  { apply wp_ret, HN. intros i l k r s Hi Hl. apply lookup_lt_Some in Hl.
    rewrite (dk_lenD _ _ _ _ Hok) in Hl. lia. }
  apply wp_get_bind.
  destruct (lookup_lt_is_Some_2 (dl_at st mbID) j) as [h Hh];
    [rewrite (dk_len _ _ _ _ Hok); lia|].
  destruct (lookup_lt_is_Some_2 D j) as [l Hl]; [rewrite (dk_lenD _ _ _ _ Hok); lia|].
  unfold dl_at in Hh. rewrite Hh. simpl. apply wp_bind.
  apply (wp_search_list s_maxSearch mbID req j _ st [] l h).
  - by eapply (dk_chain _ _ _ _ Hok).
  - intros r Hr. destruct (dk_mem _ _ _ _ Hok j l r Hl Hr) as (s&Hs&_).
    split; [by apply Hadr|]. exists s. by apply (dk_cell _ _ _ _ Hok).
  - done.
  - intros Hno. apply IH; [lia| |done]. intros Hno'. apply HN.
    intros i l' k r s Hi Hl' Hk Hr Hs. destruct (decide (i = j)) as [->|].
    + simplify_eq. eapply Hno; [done..|]. by apply (dk_cell _ _ _ _ Hok).
    + eapply Hno'; [|done..]. lia.
  - intros a r b s x -> Hs Hreq. apply wp_ret. simpl.
    destruct (dk_mem _ _ _ _ Hok j _ r Hl) as (s'&Hs'&_); [apply elem_of_app; right; left|].
    apply (HS j a r b s'); [done..|].
    destruct (free_cell_deleted _ _ _ Hs). 
    destruct (free_cell_deleted _ _ _ (dk_cell _ _ _ _ Hok _ _ Hs')). lia.
Qed.

(** Any chunk of a list above the slot asked for fits, and so does the head of
    the slot's own list when it is large enough: then the search succeeds. *)
Lemma search_finds R dl fm D req r s :
  del_ok R dl fm D -> 1 <= req <= DMS_RECORD_MAX_SZ -> req <= s -> fm !! r = Some s ->
  head (default [] (D !! slot_of s)) = Some r ->
  ~ (forall i l k r s, (slot_of req <= i)%nat -> D !! i = Some l -> (k < s_maxSearch)%nat ->
      l !! k = Some r -> fm !! r = Some s -> s < req).
Proof.
  intros Hok Hreq Hle Hs Hhd Hno.
  destruct (dk_all _ _ _ _ Hok _ _ Hs) as (l&Hl&Hin). rewrite Hl in Hhd. simpl in Hhd.
  pose proof (free_cell_size _ _ _ (dk_cell _ _ _ _ Hok _ _ Hs)) as Hsz.
  assert (slot_of req <= slot_of s)%nat as Hslot.
  { pose proof (delete_slot_mono req s ltac:(lia) ltac:(lia)). unfold slot_of. lia. }
  specialize (Hno _ l 0%nat r s Hslot Hl). rewrite <- head_lookup in Hno.
  specialize (Hno ltac:(unfold s_maxSearch; lia) Hhd Hs). lia.
Qed.

Lemma upd_free_del_ok st mbID r size e fm D :
  del_ok (rec_at st) (dl_at st mbID) fm D -> fm !! r = None -> rid_isNull r = false ->
  1 <= size <= DMS_RECORD_MAX_SZ ->
  del_ok (rec_at (upd_free st mbID r size e)) (dl_at (upd_free st mbID r size e) mbID)
    (<[r := size]> fm) (<[slot_of size := r :: default [] (D !! slot_of size)]> D).
Proof.
  intros Hok Hr Hn Hs. unfold dl_at, upd_free. autorewrite with upd. rewrite decide_True by done.
  simpl. eapply del_add; [exact Hok|done| | |].
  - autorewrite with upd. rewrite decide_True by done. by apply del_cell_free.
  - intros r' Hne. autorewrite with upd. by rewrite decide_False.
  - autorewrite with upd. rewrite decide_True by done. simpl. by destruct (default _ _).
Qed.

Lemma upd_take_del_ok st mbID fm D j l1 r l2 :
  del_ok (rec_at st) (dl_at st mbID) fm D -> D !! j = Some (l1 ++ r :: l2) ->
  del_ok (rec_at (upd_take st mbID j (last l1) r)) (dl_at (upd_take st mbID j (last l1) r) mbID)
    (delete r fm) (<[j := l1 ++ l2]> D).
Proof.
  intros Hok Hj.
  assert (forall p, last l1 = Some p -> p <> r) as Hp.
  { intros p Hp ->. pose proof (dk_nodup _ _ _ _ Hok _ _ Hj) as Hnd.
    apply last_Some_elem_of in Hp. apply NoDup_app in Hnd as (_&Hd&_).
    apply (Hd r Hp). left. }
  eapply del_take; [exact Hok|done| | |]; unfold dl_at, upd_take; autorewrite with upd.
  - intros x Hx. autorewrite with upd. destruct (last l1); autorewrite with upd; [|done].
    rewrite decide_False; [done|congruence].
  - intros p Hl. autorewrite with upd. rewrite Hl. autorewrite with upd.
    rewrite decide_True by done. split; [by destruct (del_getNextRID (rec_at st r))|].
    intros s [[] ? ?]. by split.
  - destruct (last l1) eqn:El.
    + autorewrite with upd. by destruct l1.
    + apply last_None in El as ->. autorewrite with upd. by rewrite decide_True.
Qed.
