(* ===== verification/DmsView.v ===== *)
(** * What a collection stores

    The abstract view of an extent: the chunks that tile it, used or free, and
    its records in list order with their data.  [ext_ok] relates the view to
    the extent header and the records in the file.  A chunk that has been
    taken from a delete list and not yet filled is "in hand": it is used, and
    no record of the list. *)
From S2P Require Import Prelude.
From S2P Require Import ByteBits.
From S2P Require Import Links.
From S2P Require Import OssBase.
From S2P Require Import OssMmap.
From S2P Require Import DmsBase.
From S2P Require Import DmsName.
From S2P Require Import DmsSegmentSpace.
From S2P Require Import DmsSMEMgr.
From S2P Require Import DmsRecord.
From S2P Require Import DmsDirtyList.
From S2P Require Import DmsMBContext.
From S2P Require Import DmsExtent.
From S2P Require Import DmsMB.
From S2P Require Import Bson.
From S2P Require Import DmsStore.
From S2P Require Import DmsInsert.
From S2P Require Import DmsSize.
From S2P Require Import DmsWp.
From S2P Require Import DmsDelete.
#[local] Open Scope Z_scope.

(** ** Tilings *)

Record chunk := mkChunk { ck_off : Z; ck_size : Z; ck_used : bool }.

#[export] Instance chunk_eq_dec : EqDecision chunk.
Proof. solve_decision. Defined.

(** The chunks follow each other from [lo] to [hi]; each has room for its
    header. *)
Fixpoint tiling (lo hi : Z) (l : list chunk) : Prop :=
  match l with
  | [] => lo = hi
  | c :: l => ck_off c = lo /\ DMS_RECORD_METADATA_SZ <= ck_size c <= DMS_RECORD_MAX_SZ /\
              tiling (lo + ck_size c) hi l
  end.

Definition free_size (c : chunk) : Z := if ck_used c then 0 else ck_size c.
Definition free_sum (l : list chunk) : Z := sumZ (map free_size l).
Definition used_offs (l : list chunk) : list Z := map ck_off (filter (fun c => ck_used c) l).

Lemma tiling_app l1 : forall lo hi l2,
  tiling lo hi (l1 ++ l2) <-> exists mid, tiling lo mid l1 /\ tiling mid hi l2.
Proof.
  induction l1 as [|c l1 IH]; intros lo hi l2; simpl.
  - split; [intros; by exists lo|by intros (?&->&?)].
  - split.
    + intros (?&?&(mid&?&?)%IH). by exists mid.
    + intros (mid&(?&?&?)&?). split; [done|split; [done|]]. apply IH. eauto.
Qed.

Lemma tiling_le l : forall lo hi, tiling lo hi l -> lo <= hi.
Proof.
  induction l as [|c l IH]; intros lo hi; simpl; [lia|].
  intros (_&Hs&H%IH). unfold DMS_RECORD_METADATA_SZ in Hs. lia.
Qed.

Lemma tiling_bounds l : forall lo hi c,
  tiling lo hi l -> c ∈ l ->
  lo <= ck_off c /\ ck_off c + ck_size c <= hi /\
  DMS_RECORD_METADATA_SZ <= ck_size c <= DMS_RECORD_MAX_SZ.
Proof.
  induction l as [|d l IH]; intros lo hi c Ht Hc; [by apply not_elem_of_nil in Hc|].
  destruct Ht as (<-&Hs&Ht). apply elem_of_cons in Hc as [->|Hc].
  - apply tiling_le in Ht. lia.
  - destruct (IH _ _ _ Ht Hc) as (?&?&?). unfold DMS_RECORD_METADATA_SZ in *. lia.
Qed.

(** Chunks do not overlap. *)
Lemma tiling_disjoint l : forall lo hi c d,
  tiling lo hi l -> c ∈ l -> d ∈ l -> c <> d ->
  ck_off c + ck_size c <= ck_off d \/ ck_off d + ck_size d <= ck_off c.
Proof.
  induction l as [|a l IH]; intros lo hi c d Ht Hc Hd Hne; [by apply not_elem_of_nil in Hc|].
  destruct Ht as (Ha&Hs&Ht).
  apply elem_of_cons in Hc as [->|Hc]; apply elem_of_cons in Hd as [->|Hd]; try done.
  - destruct (tiling_bounds _ _ _ _ Ht Hd). lia.
  - destruct (tiling_bounds _ _ _ _ Ht Hc). lia.
  - by eapply IH.
Qed.

Lemma tiling_unique lo hi l c d :
  tiling lo hi l -> c ∈ l -> d ∈ l -> ck_off c = ck_off d -> c = d.
Proof.
  intros Ht Hc Hd E. destruct (decide (c = d)) as [|Hne]; [done|].
  pose proof (tiling_bounds _ _ _ _ Ht Hc) as (_&_&?).
  pose proof (tiling_bounds _ _ _ _ Ht Hd) as (_&_&?).
  destruct (tiling_disjoint _ _ _ _ _ Ht Hc Hd Hne); unfold DMS_RECORD_METADATA_SZ in *; lia.
Qed.

Lemma free_sum_app l1 l2 : free_sum (l1 ++ l2) = free_sum l1 + free_sum l2.
Proof. unfold free_sum. by rewrite map_app, sumZ_app. Qed.

Lemma free_sum_cons c l : free_sum (c :: l) = free_size c + free_sum l.
Proof. done. Qed.

Lemma used_offs_app l1 l2 : used_offs (l1 ++ l2) = used_offs l1 ++ used_offs l2.
Proof. unfold used_offs. by rewrite filter_app, map_app. Qed.

Lemma used_offs_cons c l :
  used_offs (c :: l) = if ck_used c then ck_off c :: used_offs l else used_offs l.
Proof. unfold used_offs. rewrite filter_cons. destruct (ck_used c) eqn:E; simpl; by repeat case_decide. Qed.

Lemma elem_of_used_offs l o : o ∈ used_offs l <-> exists s, mkChunk o s true ∈ l.
Proof.
  unfold used_offs. rewrite list_elem_of_In, in_map_iff. split.
  - intros ([o' s u]&<-&Hin%list_elem_of_In). apply list_elem_of_filter in Hin as [Hu Hin].
    simpl in *. destruct u; [|done]. by exists s.
  - intros [s Hin]. exists (mkChunk o s true). split; [done|].
    apply list_elem_of_In, list_elem_of_filter. done.
Qed.

Lemma free_sum_bound l : forall lo hi, tiling lo hi l -> 0 <= free_sum l <= hi - lo.
Proof.
  induction l as [|c l IH]; intros lo hi; simpl; [intros ->; unfold free_sum; simpl; lia|].
  intros (_&Hs&Ht). rewrite free_sum_cons. apply IH in Ht.
  unfold free_size, DMS_RECORD_METADATA_SZ in *. destruct (ck_used c); lia.
Qed.

Lemma used_offs_nodup l : forall lo hi, tiling lo hi l -> NoDup (used_offs l).
Proof.
  induction l as [|c l IH]; intros lo hi; simpl; [intros _; constructor|].
  intros (<-&Hs&Ht). rewrite used_offs_cons. destruct (ck_used c); [|by eapply IH].
  apply NoDup_cons. split; [|by eapply IH].
  intros [s Hin]%elem_of_used_offs. apply (tiling_bounds _ _ _ _ Ht) in Hin as (?&_&_).
  simpl in *. unfold DMS_RECORD_METADATA_SZ in Hs. lia.
Qed.

Lemma used_offs_count l : forall lo hi, tiling lo hi l ->
  16 * Z.of_nat (length (used_offs l)) <= hi - lo.
Proof.
  induction l as [|c l IH]; intros lo hi; simpl; [intros ->; unfold used_offs; simpl; lia|].
  intros (_&Hs&Ht%IH). rewrite used_offs_cons. unfold DMS_RECORD_METADATA_SZ in Hs.
  destruct (ck_used c); simpl length; lia.
Qed.

(** Flipping a chunk and splitting it. *)
Lemma tiling_flip lo hi l1 o s u u' l2 :
  tiling lo hi (l1 ++ mkChunk o s u :: l2) -> tiling lo hi (l1 ++ mkChunk o s u' :: l2).
Proof. rewrite !tiling_app. done. Qed.

Lemma tiling_split lo hi l1 o s u n l2 :
  tiling lo hi (l1 ++ mkChunk o s u :: l2) ->
  DMS_RECORD_METADATA_SZ <= n -> DMS_RECORD_METADATA_SZ <= s - n ->
  tiling lo hi (l1 ++ mkChunk o n true :: mkChunk (o + n) (s - n) false :: l2).
Proof.
  rewrite !tiling_app. unfold DMS_RECORD_METADATA_SZ. simpl.
  intros (mid&Hl1&->&Hs&Hl2) Hn1 Hn2. exists mid. split; [done|].
  unfold DMS_RECORD_METADATA_SZ in *. split_and!; try lia.
  by replace (mid + n + (s - n)) with (mid + s) by lia.
Qed.

(** ** Extents *)

Record extView := mkEV {
  ev_id : Z;
  ev_pages : Z;
  ev_tiles : list chunk;
  ev_recs : list (Z * list Z)
}.

(** A record of size [s] at [o] that holds the object [d]. *)
Record used_cell (x : dmsRecord) (o s : Z) (d : list Z) : Prop := {
  uc_head : exists f, head_view x f s /\ Z.land f 0x0F = DMS_RECORD_FLAG_NORMAL;
  uc_off : rec_myOffset x = o;
  uc_data : data_stored x d UTIL_COMPRESSOR_INVALID;
  uc_room : DMS_RECORD_METADATA_SZ + Z.of_nat (length d) <= s;
  uc_bson : bson_isValid d = true
}.

Lemma used_cell_next x o s d n : used_cell x o s d -> used_cell (rec_setNextOffset x n) o s d.
Proof. intros [(f&[]&Hf) H2 H3 H4 H5]. split; try done. by exists f. Qed.

(** [x] is the extent header, [R] its records by offset. *)
Record ext_ok (g : bdGeometry) (mbID : Z) (hand : list Z) (v : extView)
    (x : dmsExtent) (R : Z -> dmsRecord) : Prop := {
  xo_head : ext_header x = ext_header (ext_init (ev_pages v) mbID 0);
  xo_pages : 1 <= ev_pages v <= g_segmentPages g;
  xo_tiles : tiling DMS_EXTENT_METADATA_SZ (ev_pages v * g_pageSize g) (ev_tiles v);
  xo_free : ext_freeSpace x = free_sum (ev_tiles v);
  xo_count : ext_recCount x = Z.of_nat (length (ev_recs v));
  xo_used : used_offs (ev_tiles v) ≡ₚ hand ++ map fst (ev_recs v);
  xo_list : dlist (fun o => rec_nextOffset (R o)) (fun o => rec_previousOffset (R o))
              (ext_firstRecordOffset x) (ext_lastRecordOffset x) (map fst (ev_recs v));
  xo_cells : forall o d s, (o, d) ∈ ev_recs v -> mkChunk o s true ∈ ev_tiles v ->
    used_cell (R o) o s d
}.

Section Extents.
  Context (g : bdGeometry) (mbID : Z).

(** Other cells and the chain links of the extent do not matter. *)
Lemma ext_ok_frame hand v x x' R R' :
  ext_ok g mbID hand v x R ->
  ext_header x' = ext_header x -> ext_recCount x' = ext_recCount x ->
  ext_firstRecordOffset x' = ext_firstRecordOffset x ->
  ext_lastRecordOffset x' = ext_lastRecordOffset x -> ext_freeSpace x' = ext_freeSpace x ->
  (forall o, o ∈ map fst (ev_recs v) -> R' o = R o) ->
  ext_ok g mbID hand v x' R'.
Proof.
  intros [H1 H2 H3 H4 H5 H6 H7 H8] E1 E2 E3 E4 E5 ER. split; try congruence.
  - rewrite E3, E4. eapply dlist_ext; [|exact H7]. intros y Hy. by rewrite ER.
  - intros o d s Hr Ht. rewrite ER by (by apply (list_elem_of_fmap_2 fst _ (o, d))). by apply H8.
Qed.

(** The offsets of the records are used chunks, and each is one chunk. *)
Lemma ext_used_tile hand v x R o :
  ext_ok g mbID hand v x R -> o ∈ hand ++ map fst (ev_recs v) ->
  exists s, mkChunk o s true ∈ ev_tiles v.
Proof. intros H Ho. apply elem_of_used_offs. by rewrite (xo_used _ _ _ _ _ _ H). Qed.

Lemma ext_free_unused hand v x R o s :
  ext_ok g mbID hand v x R -> mkChunk o s false ∈ ev_tiles v ->
  o ∉ hand ++ map fst (ev_recs v).
Proof.
  intros H Hf Ho. destruct (ext_used_tile _ _ _ _ _ H Ho) as [s' Hs'].
  by pose proof (tiling_unique _ _ _ _ _ (xo_tiles _ _ _ _ _ _ H) Hf Hs' eq_refl).
Qed.

Lemma ext_off_pos hand v x R o s u :
  ext_ok g mbID hand v x R -> mkChunk o s u ∈ ev_tiles v ->
  DMS_EXTENT_METADATA_SZ <= o /\ o + s <= ev_pages v * g_pageSize g /\
  DMS_RECORD_METADATA_SZ <= s <= DMS_RECORD_MAX_SZ.
Proof. intros H Hc. by apply (tiling_bounds _ _ _ _ (xo_tiles _ _ _ _ _ _ H)) in Hc. Qed.

Lemma ext_size_bound v : geometry_ok g -> 1 <= ev_pages v <= g_segmentPages g ->
  ev_pages v * g_pageSize g <= 134217728.
Proof.
  intros (Hp&Hps&Hsq&Hsp&_) Hv.
  assert (g_segmentPages g * g_pageSize g = 134217728).
  { rewrite Hsp, Hps, Hsq, <- Z.pow_add_r by lia. by replace (27 - _ + _) with 27 by lia. }
  assert (0 < g_pageSize g) by (rewrite Hps; apply Z.pow_pos_nonneg; lia). nia.
Qed.

Lemma ext_count_bound hand v x R :
  ext_ok g mbID hand v x R -> geometry_ok g -> 0 <= ext_recCount x < 16777216.
Proof.
  intros H Hg. pose proof (used_offs_count _ _ _ (xo_tiles _ _ _ _ _ _ H)) as Hc.
  rewrite (xo_used _ _ _ _ _ _ H), length_app, length_map in Hc.
  pose proof (ext_size_bound v Hg (xo_pages _ _ _ _ _ _ H)).
  rewrite (xo_count _ _ _ _ _ _ H). unfold DMS_EXTENT_METADATA_SZ in *. lia.
Qed.

(** A free chunk is taken. *)
Lemma ext_take v x R R' l1 o s l2 :
  ext_ok g mbID [] v x R -> ev_tiles v = l1 ++ mkChunk o s false :: l2 ->
  (forall o', o' ∈ map fst (ev_recs v) -> R' o' = R o') ->
  ext_freeSpace x - s = free_sum (l1 ++ mkChunk o s true :: l2) /\
  ext_ok g mbID [o] (mkEV (ev_id v) (ev_pages v) (l1 ++ mkChunk o s true :: l2) (ev_recs v))
    (ext_with_freeSpace x (ext_freeSpace x - s)) R'.
Proof.
  intros H El HR. pose proof H as [H1 H2 H3 H4 H5 H6 H7 H8]. rewrite El in *.
  assert (o ∉ map fst (ev_recs v)) as Hno.
  { apply (ext_free_unused _ _ _ _ o s H). rewrite El. set_solver. }
  assert (ext_freeSpace x - s = free_sum (l1 ++ mkChunk o s true :: l2)) as Hfs.
  { rewrite H4, !free_sum_app, !free_sum_cons. unfold free_size. simpl. lia. }
  split; [done|]. split; simpl; try done.
  - by eapply tiling_flip.
  - rewrite used_offs_app, used_offs_cons in *. simpl in *. rewrite <- Permutation_middle.
    by constructor.
  - eapply dlist_ext; [|exact H7]. intros y Hy. by rewrite HR.
  - intros o' d s' Hr Ht. assert (o' ∈ map fst (ev_recs v)) as Ho' by (by apply (list_elem_of_fmap_2 fst _ (o', d))).
    rewrite HR by done. apply H8; [done|].
    apply elem_of_app in Ht as [?|[[= -> _]|?]%elem_of_cons]; [set_solver|done|set_solver].
Qed.

(** The chunk in hand is cut to [n] bytes. *)
Lemma ext_split v x R R' l1 o s l2 n :
  ext_ok g mbID [o] v x R -> ev_tiles v = l1 ++ mkChunk o s true :: l2 ->
  DMS_RECORD_METADATA_SZ <= n -> DMS_RECORD_METADATA_SZ <= s - n ->
  (forall o', o' ∈ map fst (ev_recs v) -> R' o' = R o') ->
  let tiles := l1 ++ mkChunk o n true :: mkChunk (o + n) (s - n) false :: l2 in
  ext_freeSpace x + (s - n) = free_sum tiles /\
  ext_ok g mbID [o] (mkEV (ev_id v) (ev_pages v) tiles (ev_recs v))
    (ext_with_freeSpace x (ext_freeSpace x + (s - n))) R'.
Proof.
  intros H El Hn Hs HR tiles. pose proof H as [H1 H2 H3 H4 H5 H6 H7 H8]. rewrite El in *.
  assert (ext_freeSpace x + (s - n) = free_sum tiles) as Hfs.
  { unfold tiles. rewrite H4, !free_sum_app, !free_sum_cons. unfold free_size. simpl. lia. }
  split; [done|]. split; simpl; try done.
  - by eapply tiling_split.
  - unfold tiles. rewrite used_offs_app, !used_offs_cons in *. done.
  - eapply dlist_ext; [|exact H7]. intros y Hy. by rewrite HR.
  - intros o' d s' Hr Ht. assert (o' ∈ map fst (ev_recs v)) as Ho' by (by apply (list_elem_of_fmap_2 fst _ (o', d))).
    rewrite HR by done. apply H8; [done|]. unfold tiles in Ht.
    apply elem_of_app in Ht as [?|[[= -> ->]|[?|?]%elem_of_cons]%elem_of_cons];
      [set_solver|exfalso|done|set_solver].
    pose proof (used_offs_nodup _ _ _ H3) as Hnd. rewrite H6 in Hnd.
    by apply NoDup_cons in Hnd as [? _].
Qed.

(** The chunk in hand becomes the last record of the extent. *)
Lemma ext_fill v x x' R R' o s d :
  ext_ok g mbID [o] v x R -> mkChunk o s true ∈ ev_tiles v ->
  let last := ext_lastRecordOffset x in
  used_cell (R' o) o s d -> rec_nextOffset (R' o) = NIL -> rec_previousOffset (R' o) = last ->
  (last <> NIL -> R' last = rec_setNextOffset (R last) o) ->
  (forall o', o' ∈ map fst (ev_recs v) -> o' <> last -> R' o' = R o') ->
  ext_header x' = ext_header x -> ext_freeSpace x' = ext_freeSpace x ->
  ext_recCount x' = ext_recCount x + 1 -> ext_lastRecordOffset x' = o ->
  ext_firstRecordOffset x' = (if decide (ext_firstRecordOffset x = NIL) then o
                              else ext_firstRecordOffset x) ->
  ext_ok g mbID [] (mkEV (ev_id v) (ev_pages v) (ev_tiles v) (ev_recs v ++ [(o, d)])) x' R'.
Proof.
  intros H Ht last Hc Hnx Hpx Hl HR E1 E2 E3 E4 E5. pose proof H as [H1 H2 H3 H4 H5 H6 H7 H8].
  pose proof (used_offs_nodup _ _ _ H3) as Hnd. rewrite H6 in Hnd.
  apply NoDup_cons in Hnd as [Hno Hnd].
  pose proof (dlist_first _ _ _ _ _ H7) as Ef. pose proof (dlist_last _ _ _ _ _ H7) as El.
  assert (forall p, list.last (map fst (ev_recs v)) = Some p ->
    p = last /\ p <> NIL /\ p ∈ map fst (ev_recs v)) as Hlast.
  { intros p Hp. rewrite Hp in El. apply last_Some_elem_of in Hp.
    split_and!; [done| |done]. by eapply lchain_not_nil; [apply (dl_next _ _ _ _ _ H7)|]. }
  assert (forall y, y ∈ map fst (ev_recs v) -> list.last (map fst (ev_recs v)) <> Some y -> R' y = R y) as HR'.
  { intros y Hy Hne. apply HR; [done|]. intros ->. unfold last in *. rewrite El in *.
    destruct (list.last (map fst (ev_recs v))) eqn:E; [done|].
    apply last_None in E. rewrite E in Hy. by apply not_elem_of_nil in Hy. }
  split; cbn [ev_id ev_pages ev_tiles ev_recs app]; try done; try congruence.
  - rewrite E3, H5, length_app. simpl. lia.
  - rewrite map_app. simpl. rewrite H6. by rewrite Permutation_app_comm.
  - rewrite map_app. simpl.
    eapply (dlist_insert _ _ _ _ _ _ _ _ (map fst (ev_recs v)) o []); rewrite ?app_nil_r;
      [exact H7|try done..].
    + destruct (ext_off_pos _ _ _ _ _ _ _ H Ht) as [? _]. unfold DMS_EXTENT_METADATA_SZ, NIL in *. lia.
    + rewrite Hpx. exact El.
    + intros p Hp. destruct (Hlast p Hp) as (->&Hn&_). by rewrite (Hl Hn).
    + intros y Hy Hne. by rewrite HR'.
    + intros y Hy _. destruct (decide (list.last (map fst (ev_recs v)) = Some y)) as [E|].
      * destruct (Hlast y E) as (->&Hn&_). by rewrite (Hl Hn).
      * by rewrite HR'.
    + rewrite E5, Ef. destruct (map fst (ev_recs v)) eqn:E; [done|].
      rewrite decide_False; [done|]. eapply lchain_not_nil; [apply (dl_next _ _ _ _ _ H7)|].
      left.
  - intros o' d' s' [Hr|[= -> ->]%list_elem_of_singleton]%elem_of_app Ht'.
    + assert (o' ∈ map fst (ev_recs v)) as Ho' by (by apply (list_elem_of_fmap_2 fst _ (o', d'))).
      destruct (decide (list.last (map fst (ev_recs v)) = Some o')) as [E|].
      * destruct (Hlast o' E) as (->&Hn&_). rewrite (Hl Hn).
        by apply used_cell_next, H8.
      * rewrite HR' by done. by apply H8.
    + pose proof (tiling_unique _ _ _ _ _ H3 Ht Ht' eq_refl). by simplify_eq.
Qed.

End Extents.
