(* ===== verification/DmsCol.v ===== *)
(** * The invariant of a collection

    A collection is its extents, in the order of their chain, the free chunks
    of all of them on the delete lists, and the index of the first and last
    extent of each segment.  [col_ok] relates this view to the cells of the
    file.  The three steps an insertion takes (a free chunk is taken, cut,
    filled) and the step that adds an extent preserve it. *)
From S2P Require Import Prelude.
From S2P Require Import ByteBits.
From S2P Require Import Links.
From S2P Require Import OssBase.
From S2P Require Import OssMmap.
From S2P Require Import DmsBase.
From S2P Require Import DmsName.
From S2P Require Import DmsSegmentSpace.
From S2P Require Import DmsSMEMgr.
From S2P Require Import DmsRecord.
From S2P Require Import DmsDirtyList.
From S2P Require Import DmsMBContext.
From S2P Require Import DmsExtent.
From S2P Require Import DmsMB.
From S2P Require Import Bson.
From S2P Require Import DmsStore.
From S2P Require Import DmsInsert.
From S2P Require Import DmsSize.
From S2P Require Import DmsWp.
From S2P Require Import DmsDelete.
From S2P Require Import DmsView.
From Stdlib Require Import Sorted.
#[local] Open Scope Z_scope.

(** ** The view *)

Record colView := mkCV {
  cv_exts : list extView;
  cv_fm : gmap dmsRecordID Z;
  cv_D : list (list dmsRecordID);
  cv_mx : Z * Z
}.

Definition cv_ids (c : colView) : list Z := map ev_id (cv_exts c).

(** The runs of pages a collection owns: its index and its extents. *)
Definition cv_runs (c : colView) : list (Z * Z) :=
  cv_mx c :: map (fun v => (ev_id v, ev_pages v)) (cv_exts c).

Definition ext_contents (v : extView) : list (dmsRecordID * list Z) :=
  map (fun p => (mkRID (ev_id v) p.1, p.2)) (ev_recs v).

(** What the collection stores, in the order a scan visits it. *)
Definition contents (c : colView) : list (dmsRecordID * list Z) :=
  concat (map ext_contents (cv_exts c)).

(** ** The invariant *)

(** The offset of the chunk in hand, when it lies in extent [e]. *)
Definition hand_in (hand : option dmsRecordID) (e : Z) : list Z :=
  match hand with
  | Some r => if decide (rid_extent r = e) then [rid_offset r] else []
  | None => []
  end.

Definition cell_of (st : blockData) (e o : Z) : dmsRecord := rec_at st (mkRID e o).

Definition ext_good (st : blockData) (mbID : Z) (hand : option dmsRecordID) (v : extView) : Prop :=
  ext_ok (bd_geo st) mbID (hand_in hand (ev_id v)) v (ext_at st (ev_id v)) (cell_of st (ev_id v)) /\
  ext_null st (ev_id v) = false.

Definition free_at (vs : list extView) (r : dmsRecordID) (s : Z) : Prop :=
  exists v, v ∈ vs /\ ev_id v = rid_extent r /\ mkChunk (rid_offset r) s false ∈ ev_tiles v.

Definition seg_of (g : bdGeometry) (e : Z) : Z := Z.shiftr e (g_segmentPagesSquare g).

Record index_ok (g : bdGeometry) (x : dmsMBEx) (ids : list Z) : Prop := {
  ix_num : me_segNum (mbx_header x) = Z.shiftr DMS_MAX_PG (g_segmentPagesSquare g);
  ix_first : forall s, 0 <= s < me_segNum (mbx_header x) ->
    getFirstExtentID x s NIL = (SDB_OK, default NIL (head (filter (fun e => seg_of g e = s) ids)));
  ix_last : forall s, 0 <= s < me_segNum (mbx_header x) ->
    getLastExtentID x s NIL = (SDB_OK, default NIL (last (filter (fun e => seg_of g e = s) ids)));
  ix_sorted : StronglySorted (fun a b => seg_of g a <= seg_of g b) ids;
  ix_range : forall e, e ∈ ids -> 0 <= e < DMS_MAX_PG
}.

Record col_ok (st : blockData) (mbID : Z) (hand : option dmsRecordID) (c : colView) : Prop := {
  co_geo : geometry_ok (bd_geo st);
  co_blk : mb_blockID (mb_at st mbID) = mbID;
  co_del : del_ok (rec_at st) (dl_at st mbID) (cv_fm c) (cv_D c);
  co_ext : Forall (ext_good st mbID hand) (cv_exts c);
  co_free : forall r s, cv_fm c !! r = Some s <-> free_at (cv_exts c) r s;
  co_chain : dlist (fun e => ext_nextExtent (ext_at st e)) (fun e => ext_prevExtent (ext_at st e))
    (mb_firstExtentID (mb_at st mbID)) (mb_lastExtentID (mb_at st mbID)) (cv_ids c);
  co_hand : forall r, hand = Some r -> exists v s f,
    v ∈ cv_exts c /\ ev_id v = rid_extent r /\ mkChunk (rid_offset r) s true ∈ ev_tiles v /\
    head_view (rec_at st r) f s /\ rec_myOffset (rec_at st r) = rid_offset r;
  co_mx : mb_mbExExtentID (mb_at st mbID) = (cv_mx c).1;
  co_mxadr : ext_null st (cv_mx c).1 = false;
  co_index : index_ok (bd_geo st) (mbex_at st (cv_mx c).1) (cv_ids c)
}.

(** ** Frames *)

(** The fields of a metadata block a change of the delete lists leaves. *)
Definition mb_same (b b' : dmsMB) : Prop :=
  mb_blockID b' = mb_blockID b /\ mb_firstExtentID b' = mb_firstExtentID b /\
  mb_lastExtentID b' = mb_lastExtentID b /\ mb_mbExExtentID b' = mb_mbExExtentID b.

Section Col.
  Context (mbID : Z).

Lemma col_ids_pos st hand c e : col_ok st mbID hand c -> e ∈ cv_ids c -> 0 <= e < DMS_MAX_PG.
Proof. intros H He. by apply (ix_range _ _ _ (co_index _ _ _ _ H)). Qed.

Lemma col_ids_nodup st hand c : col_ok st mbID hand c -> NoDup (cv_ids c).
Proof. intros H. apply (co_chain _ _ _ _ H). Qed.

Lemma cv_ids_in c v : v ∈ cv_exts c -> ev_id v ∈ cv_ids c.
Proof. intros H. by apply list_elem_of_fmap_2. Qed.

(** A free chunk lies in an extent of the collection and is no record. *)
Lemma col_free_extent st hand c r s :
  col_ok st mbID hand c -> cv_fm c !! r = Some s -> rid_extent r ∈ cv_ids c.
Proof.
  intros H (v&Hv&<-&_)%(co_free _ _ _ _ H). by apply cv_ids_in.
Qed.

Lemma same_id vs u v : NoDup (map ev_id vs) -> u ∈ vs -> v ∈ vs -> ev_id u = ev_id v -> u = v.
Proof.
  induction vs as [|w vs IH]; intros Hnd Hu Hv E; [by apply not_elem_of_nil in Hu|].
  simpl in Hnd. apply NoDup_cons in Hnd as [Hw Hnd].
  apply elem_of_cons in Hu as [->|Hu]; apply elem_of_cons in Hv as [->|Hv]; try done.
  - destruct Hw. rewrite E. by apply list_elem_of_fmap_2.
  - destruct Hw. rewrite <- E. by apply list_elem_of_fmap_2.
  - by apply IH.
Qed.

Lemma col_rec_not_free st hand c v o :
  col_ok st mbID hand c -> v ∈ cv_exts c ->
  o ∈ hand_in hand (ev_id v) ++ map fst (ev_recs v) -> cv_fm c !! mkRID (ev_id v) o = None.
Proof.
  intros H Hv Ho. destruct (cv_fm c !! _) as [s|] eqn:E; [|done]. exfalso.
  apply (co_free _ _ _ _ H) in E as (u&Hu&Eu&Hf). simpl in *.
  pose proof (same_id _ _ _ (col_ids_nodup _ _ _ H) Hu Hv Eu) as ->.
  pose proof (co_ext _ _ _ _ H) as He. rewrite Forall_forall in He. destruct (He v Hv) as [Hok _].
  by eapply ext_free_unused.
Qed.

(** Changing extent [v] into [v'], its cells and free cells. *)
Lemma col_step st st' hand hand' c vs1 v vs2 v' fm' D' :
  col_ok st mbID hand c -> cv_exts c = vs1 ++ v :: vs2 ->
  ev_id v' = ev_id v ->
  bd_geo st' = bd_geo st -> (forall e, ext_null st' e = ext_null st e) ->
  (forall e, e <> ev_id v -> ext_at st' e = ext_at st e) ->
  ext_nextExtent (ext_at st' (ev_id v)) = ext_nextExtent (ext_at st (ev_id v)) ->
  ext_prevExtent (ext_at st' (ev_id v)) = ext_prevExtent (ext_at st (ev_id v)) ->
  (forall r, rid_extent r <> ev_id v -> cv_fm c !! r = None -> rec_at st' r = rec_at st r) ->
  mb_same (mb_at st mbID) (mb_at st' mbID) ->
  (forall e, mbex_at st' e = mbex_at st e) ->
  (forall e, e <> ev_id v -> hand_in hand e = [] /\ hand_in hand' e = []) ->
  del_ok (rec_at st') (dl_at st' mbID) fm' D' ->
  ext_good st' mbID hand' v' ->
  (forall r s, fm' !! r = Some s <-> free_at (vs1 ++ v' :: vs2) r s) ->
  (forall r, hand' = Some r -> exists s f, ev_id v' = rid_extent r /\
     mkChunk (rid_offset r) s true ∈ ev_tiles v' /\
     head_view (rec_at st' r) f s /\ rec_myOffset (rec_at st' r) = rid_offset r) ->
  col_ok st' mbID hand' (mkCV (vs1 ++ v' :: vs2) fm' D' (cv_mx c)).
Proof.
  intros H Ee Eid Eg En Ex Enx Epx Er (M1&M2&M3&M4) Emx Hh Hd Hv' Hf Hhand.
  assert (cv_ids (mkCV (vs1 ++ v' :: vs2) fm' D' (cv_mx c)) = cv_ids c) as Eids.
  { unfold cv_ids. simpl. rewrite Ee, !map_app. simpl. by rewrite Eid. }
  pose proof (col_ids_nodup _ _ _ H) as Hnd.
  assert (forall u, u ∈ cv_exts c -> ev_id u <> ev_id v -> ext_good st' mbID hand' u) as Hother.
  { intros u Hu Hne. pose proof (co_ext _ _ _ _ H) as He. rewrite Forall_forall in He.
    destruct (He u Hu) as [Hok Hnull]. split; [|by rewrite En].
    destruct (Hh _ Hne) as [Ea Eb]. rewrite Eg, Eb. rewrite Ea in Hok.
    rewrite Ex by done. eapply ext_ok_frame; [exact Hok|done..|].
    intros o Ho. apply Er; [done|]. eapply col_rec_not_free; [exact H|done|].
    apply elem_of_app. by right. }
  assert (forall u, u ∈ vs1 ++ vs2 -> ev_id u <> ev_id v) as Hne.
  { intros u Hu E. unfold cv_ids in Hnd. rewrite Ee, map_app in Hnd. simpl in Hnd.
    rewrite <- Permutation_middle, <- map_app in Hnd. apply NoDup_cons in Hnd as [Hno _].
    apply Hno. rewrite <- E. by apply list_elem_of_fmap_2. }
  pose proof H as [H1 H2 H3 H4 H5 H6 H7 H8 H9 H10].
  split; rewrite ?Eids; simpl; try congruence; try done.
  - apply Forall_app. split; [|apply Forall_cons; split; [done|]]; apply Forall_forall;
      intros u Hu; apply Hother; rewrite ?Ee; try apply Hne; set_solver.
  - rewrite M2, M3. eapply dlist_ext; [|exact H6]. intros e He.
    destruct (decide (e = ev_id v)) as [->|]; [done|]. by rewrite Ex.
  - intros r E. destruct (Hhand r E) as (s&f&?&?&?&?). exists v', s, f. set_solver.
Qed.

(** ** A free chunk is taken *)

Lemma free_at_flip vs1 v vs2 l1 l2 o s r' s' :
  NoDup (map ev_id (vs1 ++ v :: vs2)) ->
  (exists lo hi, tiling lo hi (ev_tiles v)) ->
  ev_tiles v = l1 ++ mkChunk o s false :: l2 ->
  free_at (vs1 ++ mkEV (ev_id v) (ev_pages v) (l1 ++ mkChunk o s true :: l2) (ev_recs v) :: vs2) r' s'
  <-> r' <> mkRID (ev_id v) o /\ free_at (vs1 ++ v :: vs2) r' s'.
Proof.
  intros Hnd (lo&hi&Ht) El. unfold free_at. split.
  - intros (u&Hu&Eid&Hc).
    assert (u ∈ vs1 ++ vs2 \/ u = mkEV (ev_id v) (ev_pages v) (l1 ++ mkChunk o s true :: l2) (ev_recs v))
      as [Hu'| ->] by set_solver.
    + split; [|exists u; set_solver]. intros ->. simpl in Eid.
      assert (u = v) as -> by (apply (same_id (vs1 ++ v :: vs2)); set_solver).
      rewrite map_app in Hnd. simpl in Hnd. rewrite <- Permutation_middle, <- map_app in Hnd.
      apply NoDup_cons in Hnd as [Hno _]. apply Hno. by apply list_elem_of_fmap_2.
    + simpl in *. assert (mkChunk (rid_offset r') s' false ∈ ev_tiles v) as Hc'
        by (rewrite El; set_solver).
      split; [|exists v; set_solver]. intros ->. simpl in *.
      assert (mkChunk o s false ∈ ev_tiles v) as Ho by (rewrite El; set_solver).
      pose proof (tiling_unique _ _ _ _ _ Ht Ho Hc' eq_refl) as [= <-].
      assert (mkChunk o s true ∈ l1 ++ mkChunk o s true :: l2) as Ho' by set_solver.
      rewrite El in Ht. apply (tiling_flip _ _ _ _ _ _ true) in Ht.
      by pose proof (tiling_unique _ _ _ _ _ Ht Hc Ho' eq_refl).
  - intros (Hne&u&Hu&Eid&Hc).
    assert (u ∈ vs1 ++ vs2 \/ u = v) as [Hu'| ->] by set_solver; [exists u; set_solver|].
    eexists. split; [apply elem_of_app; right; left|]. simpl. split; [done|].
    rewrite El in Hc. apply elem_of_app in Hc as [?|[[= E _]|?]%elem_of_cons]; [set_solver| |set_solver].
    destruct Hne. destruct r' as [e' o']. simpl in *. by subst.
Qed.

Lemma hand_in_eq e o : hand_in (Some (mkRID e o)) e = [o].
Proof. unfold hand_in. simpl. by rewrite decide_True. Qed.

Lemma hand_in_ne r e : e <> rid_extent r -> hand_in (Some r) e = [].
Proof. intros. unfold hand_in. by rewrite decide_False. Qed.

Lemma col_take st c j l1 r l2 s :
  col_ok st mbID None c -> cv_D c !! j = Some (l1 ++ r :: l2) -> cv_fm c !! r = Some s ->
  exists vs1 v vs2 t1 t2,
    cv_exts c = vs1 ++ v :: vs2 /\ ev_id v = rid_extent r /\
    ev_tiles v = t1 ++ mkChunk (rid_offset r) s false :: t2 /\
    col_ok (upd_take st mbID j (last l1) r) mbID (Some r)
      (mkCV (vs1 ++ mkEV (ev_id v) (ev_pages v) (t1 ++ mkChunk (rid_offset r) s true :: t2)
               (ev_recs v) :: vs2)
         (delete r (cv_fm c)) (<[j := l1 ++ l2]> (cv_D c)) (cv_mx c)).
Proof.
  intros H Hj Hs. pose proof (proj1 (co_free _ _ _ _ H r s) Hs) as (v&Hv&Eid&Hc).
  apply list_elem_of_split in Hv as (vs1&vs2&Ee).
  apply list_elem_of_split in Hc as (t1&t2&El).
  exists vs1, v, vs2, t1, t2. split_and!; try done.
  pose proof (co_ext _ _ _ _ H) as He. rewrite Ee, Forall_app, Forall_cons in He.
  destruct He as (_&[Hok Hnull]&_). simpl in Hok.
  pose proof (co_del _ _ _ _ H) as Hd. pose proof (dk_cell _ _ _ _ Hd _ _ Hs) as [Hhv Hof _].
  assert (forall r', (forall p, last l1 = Some p -> r' <> p) ->
    rec_at (upd_take st mbID j (last l1) r) r' = rec_at st r') as Hrec.
  { intros r' Hr'. unfold upd_take. autorewrite with upd. destruct (last l1); autorewrite with upd; [|done].
    rewrite decide_False; [done|]. intros ->. by destruct (Hr' r'). }
  assert (forall p, last l1 = Some p -> is_Some (cv_fm c !! p) /\ p <> r) as Hp.
  { intros p Hp. pose proof (dk_nodup _ _ _ _ Hd _ _ Hj) as Hnd. apply last_Some_elem_of in Hp. split.
    - destruct (dk_mem _ _ _ _ Hd _ _ p Hj) as (?&?&_); [set_solver|]. eauto.
    - intros ->. apply NoDup_app in Hnd as (_&Hno&_). apply (Hno r Hp). left. }
  assert (mb_same (mb_at st mbID) (mb_at (upd_take st mbID j (last l1) r) mbID)) as Hmb.
  { unfold upd_take. autorewrite with upd. destruct (last l1); autorewrite with upd; [done|].
    by rewrite decide_True. }
  assert (forall e, ext_at (upd_take st mbID j (last l1) r) e =
    if decide (rid_extent r = e) then ext_with_freeSpace (ext_at st e) (i32 (ext_freeSpace (ext_at st e) - s))
    else ext_at st e) as Hext.
  { intros e. unfold upd_take. rewrite (head_getSize _ _ _ Hhv). autorewrite with upd.
    destruct (last l1); autorewrite with upd; by case_decide; subst. }
  destruct (ext_take _ _ _ _ _ (cell_of (upd_take st mbID j (last l1) r) (ev_id v)) _ _ _ _ Hok El)
    as [Hfs Hok'].
  { intros o' Ho'. apply Hrec. intros p Ep <-. destruct (Hp _ Ep) as [[sp Hsp] _].
    rewrite (col_rec_not_free _ _ _ v o' H) in Hsp; [done|rewrite Ee; set_solver|done]. }
  eapply col_step; [exact H|exact Ee|done|..].
  - by destruct (last l1).
  - intros e. unfold upd_take. autorewrite with upd. by destruct (last l1).
  - intros e Hne. rewrite Hext, decide_False; [done|]. congruence.
  - rewrite Hext. by case_decide.
  - rewrite Hext. by case_decide.
  - intros r' _ Hr'. apply Hrec. intros p Ep ->. destruct (Hp _ Ep) as [[? ?] _]. congruence.
  - done.
  - intros e. unfold upd_take. autorewrite with upd. by destruct (last l1).
  - intros e Hne. split; [done|]. apply hand_in_ne. congruence.
  - by apply upd_take_del_ok.
  - split; cbn [ev_id].
    + destruct r as [e o]. cbn [rid_extent rid_offset] in *. rewrite Eid in *. rewrite hand_in_eq.
      replace (bd_geo (upd_take st mbID j (last l1) (mkRID e o))) with (bd_geo st)
        by (by destruct (last l1)).
      rewrite Hext, decide_True by done. rewrite i32_id; [exact Hok'|].
      rewrite Hfs. pose proof (free_sum_bound _ _ _ (xo_tiles _ _ _ _ _ _ Hok')) as Hb. simpl in Hb.
      pose proof (ext_size_bound _ v (co_geo _ _ _ _ H) (xo_pages _ _ _ _ _ _ Hok)).
      unfold DMS_EXTENT_METADATA_SZ in Hb. lia.
    + unfold upd_take. autorewrite with upd. by destruct (last l1).
  - intros r' s'. rewrite lookup_delete_Some.
    rewrite free_at_flip; [| |eexists _, _; exact (xo_tiles _ _ _ _ _ _ Hok)|done].
    + rewrite (co_free _ _ _ _ H r' s'), Ee. rewrite Eid. destruct r. naive_solver.
    + rewrite <- Ee. by apply (col_ids_nodup st None).
  - intros r' [= <-]. exists s, DMS_RECORD_FLAG_DELETED. simpl. split_and!; [done|set_solver|..].
    + rewrite Hrec; [done|]. intros p Ep ->. by destruct (Hp _ Ep).
    + rewrite Hrec; [done|]. intros p Ep ->. by destruct (Hp _ Ep).
Qed.

(** ** The chunk in hand *)

Lemma col_ok_aux st hand c x : col_ok st mbID hand c -> col_ok (set_aux st x) mbID hand c.
Proof. by intros []. Qed.

Lemma col_ok_stat st hand c i f : col_ok st mbID hand c -> col_ok (stat_upd st i f) mbID hand c.
Proof. by intros []. Qed.

(** The extent of the chunk in hand. *)
Lemma col_hand st r c :
  col_ok st mbID (Some r) c -> exists vs1 v vs2 t1 s t2 f,
    cv_exts c = vs1 ++ v :: vs2 /\ ev_id v = rid_extent r /\
    ev_tiles v = t1 ++ mkChunk (rid_offset r) s true :: t2 /\
    head_view (rec_at st r) f s /\ rec_myOffset (rec_at st r) = rid_offset r /\
    ext_ok (bd_geo st) mbID [rid_offset r] v (ext_at st (ev_id v)) (cell_of st (ev_id v)) /\
    ext_null st (rid_extent r) = false /\ cv_fm c !! r = None.
Proof.
  intros H. destruct (co_hand _ _ _ _ H r eq_refl) as (v&s&f&Hv&Eid&Ht&Hh&Ho).
  pose proof (co_ext _ _ _ _ H) as He. rewrite Forall_forall in He. destruct (He v Hv) as [Hok Hn].
  assert (hand_in (Some r) (ev_id v) = [rid_offset r]) as Eh.
  { unfold hand_in. by rewrite decide_True. }
  assert (cv_fm c !! r = None) as Hfm.
  { replace r with (mkRID (ev_id v) (rid_offset r)) at 1 by (rewrite Eid; by destruct r).
    eapply col_rec_not_free; [exact H|done|]. rewrite Eh. left. }
  rewrite Eh in Hok.
  apply list_elem_of_split in Hv as (vs1&vs2&Ee). apply list_elem_of_split in Ht as (t1&t2&El).
  exists vs1, v, vs2, t1, s, t2, f. rewrite <- Eid. by split_and!.
Qed.

(** Its header may change, its size and offset stay. *)
Lemma col_hand_upd st r c f :
  col_ok st mbID (Some r) c ->
  (forall fl s, head_view (rec_at st r) fl s -> exists fl', head_view (f (rec_at st r)) fl' s) ->
  rec_myOffset (f (rec_at st r)) = rec_myOffset (rec_at st r) ->
  col_ok (rec_upd st r f) mbID (Some r) c.
Proof.
  intros H Hf Ho.
  destruct (col_hand _ _ _ H) as (vs1&v&vs2&t1&s&t2&fl&Ee&Eid&El&Hh&Hof&Hok&Hn&Hfm).
  assert (forall r', r' <> r -> rec_at (rec_upd st r f) r' = rec_at st r') as Hr.
  { intros r' Hne. autorewrite with upd. by rewrite decide_False. }
  destruct c as [exts fm D mx]. simpl in *. subst exts.
  change (mkCV (vs1 ++ v :: vs2) fm D mx) with
    (mkCV (vs1 ++ v :: vs2) fm D (cv_mx (mkCV (vs1 ++ v :: vs2) fm D mx))).
  eapply (col_step st _ _ _ _ vs1 v vs2 v); [exact H|try done..].
  - intros r' Hne _. apply Hr. intros ->. done.
  - intros e Hne. split; apply hand_in_ne; congruence.
  - eapply del_ok_ext; [|exact (co_del _ _ _ _ H)]. simpl. intros r' [s' Hs']. apply Hr. intros ->. congruence.
  - split; [|by rewrite Eid]. rewrite <- Eid in Hn.
    assert (hand_in (Some r) (ev_id v) = [rid_offset r]) as ->.
    { unfold hand_in. by rewrite decide_True. }
    eapply ext_ok_frame; [exact Hok|done..|].
    intros o Hin. unfold cell_of. apply Hr. intros <-. simpl in *.
    pose proof (used_offs_nodup _ _ _ (xo_tiles _ _ _ _ _ _ Hok)) as Hnd.
    rewrite (xo_used _ _ _ _ _ _ Hok) in Hnd. by apply NoDup_cons in Hnd as [? _].
  - apply (co_free _ _ _ _ H).
  - intros r' [= <-]. destruct (Hf _ _ Hh) as [fl' Hfl'].
    exists s, fl'. rewrite El. autorewrite with upd. rewrite decide_True by done.
    split_and!; [done|set_solver|done|congruence].
Qed.

(** The chunk in hand, of [s] bytes, is cut to [n]; the rest is freed. *)
Definition upd_split (st : blockData) (r : dmsRecordID) (s n : Z) : blockData :=
  rec_upd (upd_free st mbID (mkRID (rid_extent r) (rid_offset r + n)) (s - n) (rid_extent r)) r
    (fun x => rec_setSize x n).

Lemma free_at_split vs1 v vs2 t1 o s t2 n r' s' :
  NoDup (map ev_id (vs1 ++ v :: vs2)) -> ev_tiles v = t1 ++ mkChunk o s true :: t2 ->
  free_at (vs1 ++ mkEV (ev_id v) (ev_pages v)
             (t1 ++ mkChunk o n true :: mkChunk (o + n) (s - n) false :: t2) (ev_recs v) :: vs2) r' s'
  <-> (r' = mkRID (ev_id v) (o + n) /\ s' = s - n) \/ free_at (vs1 ++ v :: vs2) r' s'.
Proof.
  intros Hnd El. unfold free_at. split.
  - intros (u&Hu&Eid&Hc).
    apply elem_of_app in Hu as [Hu|[->|Hu]%elem_of_cons]; [right; exists u; set_solver| |right; exists u; set_solver].
    simpl in *. apply elem_of_app in Hc as [Hc|[?|[[= E1 E2]|Hc]%elem_of_cons]%elem_of_cons].
    + right. exists v. rewrite El. set_solver.
    + done.
    + left. destruct r'. simpl in *. by subst.
    + right. exists v. rewrite El. set_solver.
  - intros [[-> ->]|(u&Hu&Eid&Hc)].
    + eexists. split; [apply elem_of_app; right; left|]. simpl. set_solver.
    + apply elem_of_app in Hu as [Hu|[->|Hu]%elem_of_cons]; [exists u; set_solver| |exists u; set_solver].
      eexists. split; [apply elem_of_app; right; left|]. simpl. split; [done|].
      rewrite El in Hc. apply elem_of_app in Hc as [?|[?|?]%elem_of_cons]; set_solver.
Qed.

Lemma col_split st r c vs1 v vs2 t1 s t2 n :
  col_ok st mbID (Some r) c -> cv_exts c = vs1 ++ v :: vs2 -> ev_id v = rid_extent r ->
  ev_tiles v = t1 ++ mkChunk (rid_offset r) s true :: t2 ->
  DMS_RECORD_METADATA_SZ <= n -> DMS_RECORD_METADATA_SZ <= s - n ->
  exists fm' D',
  col_ok (upd_split st r s n) mbID (Some r)
    (mkCV (vs1 ++ mkEV (ev_id v) (ev_pages v)
             (t1 ++ mkChunk (rid_offset r) n true :: mkChunk (rid_offset r + n) (s - n) false :: t2)
             (ev_recs v) :: vs2) fm' D' (cv_mx c)).
Proof.
  intros H Ee Eid El Hn1 Hn2.
  assert (v ∈ cv_exts c) as Hv by (rewrite Ee; set_solver).
  pose proof (co_ext _ _ _ _ H) as He. rewrite Forall_forall in He. destruct (He v Hv) as [Hok Hnull].
  assert (hand_in (Some r) (ev_id v) = [rid_offset r]) as Eh.
  { unfold hand_in. by rewrite decide_True. }
  rewrite Eh in Hok.
  set (nr := mkRID (rid_extent r) (rid_offset r + n)).
  assert (mkChunk (rid_offset r) s true ∈ ev_tiles v) as Hin by (rewrite El; set_solver).
  destruct (ext_off_pos _ _ _ _ _ _ _ _ _ Hok Hin) as (Ho1&Ho2&Hs).
  unfold DMS_EXTENT_METADATA_SZ, DMS_RECORD_METADATA_SZ in Ho1, Hs, Hn1, Hn2.
  assert (forall s' u, mkChunk (rid_offset r + n) s' u ∉ ev_tiles v) as Hfresh.
  { intros s' u Hc. destruct (decide (mkChunk (rid_offset r) s true = mkChunk (rid_offset r + n) s' u))
      as [[=]|Hne]; [lia|].
    destruct (tiling_disjoint _ _ _ _ _ (xo_tiles _ _ _ _ _ _ Hok) Hin Hc Hne); simpl in *; [lia|].
    destruct (ext_off_pos _ _ _ _ _ _ _ _ _ Hok Hc) as (_&_&?). unfold DMS_RECORD_METADATA_SZ in *. lia. }
  assert (nr <> r) as Hnr.
  { unfold nr. destruct r as [e o]. simpl. intros [= E]. lia. }
  assert (cv_fm c !! nr = None) as Hfm.
  { destruct (cv_fm c !! nr) eqn:E; [|done]. apply (co_free _ _ _ _ H) in E as (u&Hu&Eu&Hc).
    simpl in *. pose proof (same_id _ _ _ (col_ids_nodup _ _ _ H) Hu Hv ltac:(congruence)) as ->.
    by apply Hfresh in Hc. }
  assert (cv_fm c !! r = None) as Hfmr.
  { replace r with (mkRID (ev_id v) (rid_offset r)) at 1 by (rewrite Eid; by destruct r).
    eapply col_rec_not_free; [exact H|done|]. rewrite Eh. left. }
  destruct (co_hand _ _ _ _ H r eq_refl) as (v0&s0&f&Hv0&Eid0&Ht0&Hh&Hof).
  pose proof (same_id _ _ _ (col_ids_nodup _ _ _ H) Hv0 Hv ltac:(congruence)) as ->.
  pose proof (tiling_unique _ _ _ _ _ (xo_tiles _ _ _ _ _ _ Hok) Ht0 Hin eq_refl) as [= ->].
  assert (0 <= rid_extent r) as Hpos.
  { rewrite <- Eid. destruct (col_ids_pos _ _ _ (ev_id v) H); [by apply cv_ids_in|lia]. }
  assert (rid_isNull nr = false) as Hnull'.
  { unfold rid_isNull, nr. simpl. unfold DMS_INVALID_EXTENT, DMS_INVALID_OFFSET.
    destruct (Z.eqb_spec (-1) (rid_extent r)); [lia|done]. }
  assert (forall r', r' <> r -> r' <> nr -> rec_at (upd_split st r s n) r' = rec_at st r') as Hrec.
  { intros r' H1 H2. unfold upd_split, upd_free. fold nr. autorewrite with upd.
    by rewrite !decide_False by done. }
  pose proof (upd_free_del_ok st mbID nr (s - n) (rid_extent r) _ _ (co_del _ _ _ _ H) Hfm Hnull'
    ltac:(unfold DMS_RECORD_MAX_SZ in *; lia)) as Hd.
  destruct (ext_split _ _ _ _ _ (cell_of (upd_split st r s n) (ev_id v)) _ _ _ _ n Hok El)
    as [Hfs Hok']; [done|done| |].
  { intros o' Ho'. apply Hrec.
    - intros <-. simpl in *. pose proof (used_offs_nodup _ _ _ (xo_tiles _ _ _ _ _ _ Hok)) as Hnd.
      rewrite (xo_used _ _ _ _ _ _ Hok) in Hnd. by apply NoDup_cons in Hnd as [? _].
    - unfold nr. intros [= _ ->].
      destruct (ext_used_tile _ _ _ _ _ _ (rid_offset r + n) Hok) as [s' Hs']; [set_solver|].
      by apply Hfresh in Hs'. }
  eexists _, _. eapply (col_step st _ _ _ _ vs1 v vs2); [exact H|exact Ee|try done..].
  - intros e Hne. unfold upd_split, upd_free. autorewrite with upd. rewrite decide_False; [done|congruence].
  - unfold upd_split, upd_free. autorewrite with upd. by rewrite Eid, decide_True.
  - unfold upd_split, upd_free. autorewrite with upd. by rewrite Eid, decide_True.
  - intros r' Hne Hr'. apply Hrec; intros ->; [by rewrite Eid in Hne|]. by rewrite Eid in Hne.
  - unfold upd_split, upd_free, mb_same. autorewrite with upd. by rewrite decide_True.
  - intros e Hne. split; apply hand_in_ne; congruence.
  - eapply del_ok_ext; [|exact Hd]. intros r' Hr'. unfold upd_split. fold nr. autorewrite with upd.
    rewrite decide_False; [done|]. intros ->. rewrite lookup_insert_ne in Hr' by done.
    rewrite Hfmr in Hr'. by destruct Hr'.
  - split; cbn [ev_id]; [|done]. rewrite Eh.
    replace (ext_at (upd_split st r s n) (ev_id v)) with
      (ext_with_freeSpace (ext_at st (ev_id v)) (ext_freeSpace (ext_at st (ev_id v)) + (s - n))).
    { exact Hok'. }
    unfold upd_split, upd_free. autorewrite with upd. rewrite decide_True by done.
    f_equal; rewrite <- Eid; [done|]. rewrite Hfs. rewrite i32_id; [done|].
    pose proof (free_sum_bound _ _ _ (xo_tiles _ _ _ _ _ _ Hok')) as Hb. simpl in Hb.
    pose proof (ext_size_bound _ v (co_geo _ _ _ _ H) (xo_pages _ _ _ _ _ _ Hok)).
    unfold DMS_EXTENT_METADATA_SZ in Hb. lia.
  - intros r' s'. rewrite free_at_split; [|rewrite <- Ee; by apply (col_ids_nodup st (Some r))|exact El].
    rewrite lookup_insert_Some, (co_free _ _ _ _ H r' s'), Ee, Eid. fold nr.
    split; [naive_solver|]. intros [[-> ->]|Hf]; [by left|]. right. split; [|done]. intros <-.
    rewrite <- Ee in Hf. apply (co_free _ _ _ _ H) in Hf. congruence.
  - intros r' [= <-]. exists n, f. split_and!; [done|set_solver|..];
      unfold upd_split, upd_free; fold nr; autorewrite with upd; rewrite decide_True by done;
      rewrite decide_False by done; [|done].
    eapply head_setSize; [done|]. unfold DMS_RECORD_MAX_SZ in *. lia.
Qed.

(** ** The chunk in hand becomes a record *)

Definition plain_data (d : list Z) : dmsRecordData :=
  mkRecData (Some d) (Z.of_nat (length d)) UTIL_COMPRESSOR_INVALID
    (Some d) (Z.of_nat (length d)).

(** The last part of [extentInsertRecord]. *)
Definition upd_fill (st : blockData) (r : dmsRecordID) (data : dmsRecordData) : blockData :=
  let e := rid_extent r in
  let o := rid_offset r in
  let lst := ext_lastRecordOffset (ext_at st e) in
  let st := rec_upd st r (fun x => rec_setPrevOffset
              (rec_setNextOffset (rec_setData x data) DMS_INVALID_OFFSET) DMS_INVALID_OFFSET) in
  let st := ext_upd st e (fun x => ext_with_recs x (u32 (ext_recCount x + 1))
              (ext_firstRecordOffset x) (ext_lastRecordOffset x)) in
  let st := stat_upd st mbID (fun s => stat_with_records s (u64 (st_totalRecords s + 1))) in
  let st := if DMS_INVALID_OFFSET =? lst then st
            else rec_upd (rec_upd st (mkRID e lst) (fun x => rec_setNextOffset x o)) r
                   (fun x => rec_setPrevOffset x lst) in
  let st := ext_upd st e (fun x => ext_with_recs x (ext_recCount x)
              (if DMS_INVALID_OFFSET =? ext_firstRecordOffset x then o
               else ext_firstRecordOffset x) o) in
  stat_upd st mbID (fun s => stat_with_lens s
    (u64 (st_totalOrgDataLen s + rd_orgLen data)) (u64 (st_totalDataLen s + rd_len data))).

Record storable (d : list Z) : Prop := {
  sd_bytes : is_bytes d;
  sd_min : DMS_MIN_RECORD_DATA_SZ <= Z.of_nat (length d);
  sd_max : Z.of_nat (length d) < DMS_RECORD_MAX_SZ;
  sd_len : bytes_u32 d = Z.of_nat (length d);
  sd_valid : bson_isValid d = true
}.

Lemma filled_cell x f o s d pv :
  storable d -> head_view x f s -> Z.land f 0x0F = DMS_RECORD_FLAG_NORMAL -> rec_myOffset x = o ->
  DMS_RECORD_METADATA_SZ + Z.of_nat (length d) <= s ->
  used_cell (rec_setPrevOffset (rec_setNextOffset (rec_setData x (plain_data d)) DMS_INVALID_OFFSET) pv)
    o s d.
Proof.
  intros [H1 H2 H3 H4 H5] Hv Hf Ho Hs.
  unfold DMS_MIN_RECORD_DATA_SZ, DMS_RECORD_MAX_SZ in *.
  destruct (setData_head x (plain_data d) f s Hv) as (f'&[]&Hf').
  pose proof (setData_plain x f s d Hv H1 ltac:(lia) ltac:(lia) H4) as Hd.
  split; try done.
  - exists f'. split; [done|congruence].
  - rewrite <- Ho. simpl. unfold rec_setData. by repeat case_match.
Qed.

Lemma upd_fill_rec st r d :
  let lst := ext_lastRecordOffset (ext_at st (rid_extent r)) in
  lst <> rid_offset r ->
  rec_at (upd_fill st r d) r =
    rec_setPrevOffset (rec_setNextOffset (rec_setData (rec_at st r) d) DMS_INVALID_OFFSET) lst /\
  (lst <> NIL -> rec_at (upd_fill st r d) (mkRID (rid_extent r) lst) =
     rec_setNextOffset (rec_at st (mkRID (rid_extent r) lst)) (rid_offset r)) /\
  (forall r', r' <> r -> r' <> mkRID (rid_extent r) lst -> rec_at (upd_fill st r d) r' = rec_at st r').
Proof.
  intros lst Hne. assert (mkRID (rid_extent r) lst <> r) as Hne'.
  { destruct r. simpl in *. congruence. }
  unfold upd_fill, DMS_INVALID_OFFSET. fold lst.
  destruct (Z.eqb_spec (-1) lst) as [E|E]; split_and!.
  - autorewrite with upd. rewrite decide_True by done. by rewrite <- E.
  - intros Hn. by destruct Hn.
  - intros r' H1 H2. autorewrite with upd. by rewrite decide_False.
  - autorewrite with upd. by repeat (case_decide; try congruence).
  - intros _. autorewrite with upd. by repeat (case_decide; try congruence).
  - intros r' H1 H2. autorewrite with upd. by repeat (rewrite decide_False by done).
Qed.

Lemma upd_fill_ext st r d e :
  ext_at (upd_fill st r d) e =
  if decide (rid_extent r = e) then
    let x := ext_at st e in
    ext_with_recs x (u32 (ext_recCount x + 1))
      (if DMS_INVALID_OFFSET =? ext_firstRecordOffset x then rid_offset r
       else ext_firstRecordOffset x) (rid_offset r)
  else ext_at st e.
Proof.
  unfold upd_fill. cbv zeta. destruct (DMS_INVALID_OFFSET =? ext_lastRecordOffset _);
    autorewrite with upd; case_decide; subst; autorewrite with upd;
    rewrite ?decide_True, ?decide_False by done; done.
Qed.

Lemma upd_fill_rest st r d :
  let st' := upd_fill st r d in
  bd_geo st' = bd_geo st /\ (forall e, ext_null st' e = ext_null st e) /\
  (forall i, mb_at st' i = mb_at st i) /\ (forall e, mbex_at st' e = mbex_at st e) /\
  dl_at st' mbID = dl_at st mbID.
Proof.
  unfold upd_fill. cbv zeta. by destruct (DMS_INVALID_OFFSET =? ext_lastRecordOffset _).
Qed.

Lemma col_fill st r c vs1 v vs2 s f d :
  col_ok st mbID (Some r) c -> cv_exts c = vs1 ++ v :: vs2 -> ev_id v = rid_extent r ->
  mkChunk (rid_offset r) s true ∈ ev_tiles v -> head_view (rec_at st r) f s ->
  Z.land f 0x0F = DMS_RECORD_FLAG_NORMAL -> storable d ->
  DMS_RECORD_METADATA_SZ + Z.of_nat (length d) <= s ->
  col_ok (upd_fill st r (plain_data d)) mbID None
    (mkCV (vs1 ++ mkEV (ev_id v) (ev_pages v) (ev_tiles v) (ev_recs v ++ [(rid_offset r, d)]) :: vs2)
       (cv_fm c) (cv_D c) (cv_mx c)).
Proof.
  intros H Ee Eid Ht Hh Hf Hd Hroom.
  destruct (co_hand _ _ _ _ H r eq_refl) as (v0&s0&f0&Hv0&Eid0&Ht0&_&Hof).
  assert (v ∈ cv_exts c) as Hv by (rewrite Ee; set_solver).
  pose proof (same_id _ _ _ (col_ids_nodup _ _ _ H) Hv0 Hv ltac:(congruence)) as ->.
  pose proof (co_ext _ _ _ _ H) as He. rewrite Forall_forall in He. destruct (He v Hv) as [Hok Hnull].
  assert (hand_in (Some r) (ev_id v) = [rid_offset r]) as Eh.
  { unfold hand_in. by rewrite decide_True. }
  rewrite Eh in Hok.
  pose proof (used_offs_nodup _ _ _ (xo_tiles _ _ _ _ _ _ Hok)) as Hnd.
  rewrite (xo_used _ _ _ _ _ _ Hok) in Hnd. apply NoDup_cons in Hnd as [Hno _].
  set (lst := ext_lastRecordOffset (ext_at st (ev_id v))).
  assert (lst = NIL \/ lst ∈ map fst (ev_recs v)) as Hl.
  { unfold lst. rewrite (dlist_last _ _ _ _ _ (xo_list _ _ _ _ _ _ Hok)).
    destruct (list.last _) as [p|] eqn:E; [right|by left]. by apply last_Some_elem_of in E. }
  destruct (ext_off_pos _ _ _ _ _ _ _ _ _ Hok Ht) as (Hpos&_&_).
  assert (lst <> rid_offset r) as Hne.
  { destruct Hl as [->|Hl]; [unfold NIL, DMS_EXTENT_METADATA_SZ in *; lia|]. by intros ->. }
  destruct (upd_fill_rec st r (plain_data d)) as (R1&R2&R3); rewrite <- ?Eid; [done|].
  fold lst in R1, R2, R3. rewrite <- Eid in R1, R2, R3. fold lst in R1, R2, R3.
  assert (forall e o, cell_of st e o = rec_at st (mkRID e o)) as Hcell by done.
  assert (r = mkRID (ev_id v) (rid_offset r)) as Er by (rewrite Eid; by destruct r).
  assert (forall r', is_Some (cv_fm c !! r') -> r' <> r /\ r' <> mkRID (ev_id v) lst) as Hfree.
  { intros r' [s' Hs']. split; intros ->.
    - rewrite Er, (col_rec_not_free _ _ _ v _ H) in Hs'; [done|done|rewrite Eh; left].
    - destruct Hl as [El|Hl].
      + apply (co_free _ _ _ _ H) in Hs' as (u&Hu&Eu&Hc). simpl in *.
        pose proof (same_id _ _ _ (col_ids_nodup _ _ _ H) Hu Hv Eu) as ->.
        destruct (ext_off_pos _ _ _ _ _ _ _ _ _ Hok Hc) as (Hp&_&_).
        rewrite El in Hp. unfold NIL, DMS_EXTENT_METADATA_SZ in *. lia.
      + rewrite (col_rec_not_free _ _ _ v _ H) in Hs'; [done|done|rewrite Eh; set_solver]. }
  destruct (upd_fill_rest st r (plain_data d)) as (G1&G2&G3&G4&G5).
  eapply (col_step st _ _ _ _ vs1 v vs2); [exact H|exact Ee|try done..].
  - intros e' Hne'. rewrite upd_fill_ext, decide_False; [done|congruence].
  - rewrite upd_fill_ext. by case_decide.
  - rewrite upd_fill_ext. by case_decide.
  - intros r' Hne' _. apply R3; intros ->; [by rewrite Eid in Hne'|done].
  - by rewrite G3.
  - intros e' Hne'. split; [|done]. apply hand_in_ne. congruence.
  - rewrite G5. eapply del_ok_ext; [|exact (co_del _ _ _ _ H)]. intros r' Hr'.
    destruct (Hfree r' Hr'). by apply R3.
  - split; cbn [ev_id]; [|by rewrite G2]. rewrite G1.
    pose proof (ext_count_bound _ _ _ _ _ _ Hok (co_geo _ _ _ _ H)) as Hcnt.
    assert (cell_of (upd_fill st r (plain_data d)) (ev_id v) (rid_offset r) =
      rec_at (upd_fill st r (plain_data d)) r) as Ecr by (unfold cell_of; by rewrite <- Er).
    eapply (ext_fill _ _ v _ _ (cell_of st (ev_id v))); [exact Hok|exact Ht|..];
      fold lst; rewrite ?Ecr, ?R1, ?upd_fill_ext, ?decide_True by done; try done.
    + by eapply filled_cell.
    + intros o' Ho' Hl'. apply R3; [|congruence]. intros <-. done.
    + simpl. rewrite u32_id; lia.
    + cbv zeta. simpl. unfold DMS_INVALID_OFFSET, NIL.
      case_decide as Ed; [by rewrite Ed|]. destruct (Z.eqb_spec (-1) (ext_firstRecordOffset (ext_at st (ev_id v)))); [congruence|done].
  - intros r' s'. rewrite (co_free _ _ _ _ H r' s'), Ee. unfold free_at. split.
    + intros (u&Hu&Eu&Hc). apply elem_of_app in Hu as [Hu|[->|Hu]%elem_of_cons];
        [exists u; set_solver| |exists u; set_solver].
      eexists. split; [apply elem_of_app; right; left|]. done.
    + intros (u&Hu&Eu&Hc). apply elem_of_app in Hu as [Hu|[->|Hu]%elem_of_cons];
        [exists u; set_solver|exists v; set_solver|exists u; set_solver].
Qed.

End Col.
