(* ===== verification/DmsSpaceOk.v ===== *)
(** * Free pages and the session's lock

    [space_ok]: the space manager, the page count of the header and the mapped
    segments agree, and the mask records exactly the runs that are held.
    Finding free space, extending the file included, keeps this and changes
    no cell of the file.  [sole]: no other session holds the latch of the
    session's collection. *)
From S2P Require Import Prelude.
From S2P Require Import ByteBits.
From S2P Require Import Links.
From S2P Require Import OssBase.
From S2P Require Import OssMmap.
From S2P Require Import DmsBase.
From S2P Require Import DmsName.
From S2P Require Import DmsSegmentSpace.
From S2P Require Import DmsSMEMgr.
From S2P Require Import DmsRecord.
From S2P Require Import DmsDirtyList.
From S2P Require Import DmsMBContext.
From S2P Require Import DmsExtent.
From S2P Require Import DmsMB.
From S2P Require Import Bson.
From S2P Require Import DmsStore.
From S2P Require Import DmsInsert.
From S2P Require Import DmsSize.
From S2P Require Import DmsWp.
#[local] Open Scope Z_scope.

(** ** The cells of the file *)

Record cells_eq (st st' : blockData) : Prop := {
  ce_geo : bd_geo st' = bd_geo st;
  ce_seg : bd_dataSegID st' = bd_dataSegID st;
  ce_MME : bd_MME st' = bd_MME st;
  ce_names : bd_names st' = bd_names st /\ bd_ids st' = bd_ids st;
  ce_ext : bd_ext st' = bd_ext st;
  ce_mbex : bd_mbex st' = bd_mbex st;
  ce_rec : bd_rec st' = bd_rec st
}.

Lemma cells_eq_refl st : cells_eq st st.
Proof. by split. Qed.

Lemma cells_eq_trans st1 st2 st3 : cells_eq st1 st2 -> cells_eq st2 st3 -> cells_eq st1 st3.
Proof. intros [? ? ? [] ? ? ?] [? ? ? [] ? ? ?]. split; try congruence. split; congruence. Qed.

#[export] Hint Resolve cells_eq_refl : wp.

Lemma cells_at st st' : cells_eq st st' ->
  (forall e, ext_at st' e = ext_at st e) /\ (forall r, rec_at st' r = rec_at st r) /\
  (forall i, mb_at st' i = mb_at st i) /\ (forall e, mbex_at st' e = mbex_at st e).
Proof.
  intros [? ? H1 _ H2 H3 H4]. unfold ext_at, rec_at, mb_at, mbex_at. by rewrite H1, H2, H3, H4.
Qed.

(** ** Space *)

Record space_ok (st : blockData) (held : list (Z * Z)) : Prop := {
  sp_geo : geometry_ok (bd_geo st);
  sp_data : 0 < bd_dataSegID st <= 16;
  sp_client : client_inv (geo_of (bd_geo st)) (bd_smeMgr st, held);
  sp_pages : hd_pageNum (sg_header (bd_seg st)) = mgr_segmentNum (bd_smeMgr st) * g_segmentPages (bd_geo st);
  sp_max : bd_maxSegID st = bd_dataSegID st - 1 + mgr_segmentNum (bd_smeMgr st);
  sp_file : segmentSize (sg_file (bd_seg st)) = bd_maxSegID st + 1
}.

Lemma segmentNum_bound st held :
  space_ok st held -> 0 <= mgr_segmentNum (bd_smeMgr st) <= 65536 /\
  mgr_segmentNum (bd_smeMgr st) * g_segmentPages (bd_geo st) <= DMS_MAX_PG /\
  2048 <= g_segmentPages (bd_geo st) <= 32768.
Proof.
  intros H. destruct (sp_geo _ _ H) as (Hp&Hps&Hsq&Hsp&_).
  pose proof (mi_max _ _ (ci_mgr _ _ (sp_client _ _ H))) as Hm. simpl in Hm.
  assert (2048 <= g_segmentPages (bd_geo st) <= 32768) as Hb.
  { rewrite Hsp, Hsq. change 2048 with (2 ^ 11). change 32768 with (2 ^ 15).
    split; apply Z.pow_le_mono_r; lia. }
  unfold mgr_segmentNum. unfold DMS_MAX_PG in *. split_and!; try lia; nia.
Qed.

(** The pages of a held run are mapped. *)
Lemma space_adr st held a n :
  space_ok st held -> (a, n) ∈ held ->
  ext_null st a = false /\ 0 <= a /\ a + n <= DMS_MAX_PG /\ 0 < n < 65536 /\
  extent2Segment st a - bd_dataSegID st = Z.shiftr a (g_segmentPagesSquare (bd_geo st)).
Proof.
  intros H Hin. destruct (segmentNum_bound _ _ H) as (Hsn&Hmax&Hsp).
  pose proof (sp_geo _ _ H) as (Hp&Hps&Hsq&Hspe&_). pose proof (sp_data _ _ H) as Hd.
  pose proof (ci_held _ _ (sp_client _ _ H)) as Hh. rewrite Forall_forall in Hh.
  destruct (Hh _ Hin) as (Hn&Ha&k&Hk1&Hk2&Hk3). simpl in *. unfold mgr_segmentNum in *.
  assert (a + n <= DMS_MAX_PG) as Hlt by nia.
  assert (a / g_segmentPages (bd_geo st) = Z.of_nat k) as Hdiv.
  { symmetry. apply Z.div_unique with (r := a - Z.of_nat k * g_segmentPages (bd_geo st)); lia. }
  assert (Z.shiftr a (g_segmentPagesSquare (bd_geo st)) = Z.of_nat k) as Hsh.
  { rewrite shiftr_div by lia. by rewrite <- Hspe. }
  unfold ext_null, extentAddr, extent2Segment. rewrite Hsh, (sp_max _ _ H).
  unfold DMS_INVALID_EXTENT, mgr_segmentNum. rewrite !u32_id by lia.
  destruct (Z.eqb_spec (-1) a); [lia|]. destruct (Z.ltb_spec (bd_dataSegID st - 1 + Z.of_nat (length (sm_segments (bd_smeMgr st)))) (Z.of_nat k + bd_dataSegID st)); [lia|].
  split_and!; try done; lia.
Qed.

(** Two held runs do not share a page. *)
Lemma held_disjoint st held h1 a n h2 b m h3 p :
  space_ok st held -> held = h1 ++ (a, n) :: h2 ++ (b, m) :: h3 ->
  in_run a n p -> in_run b m p -> False.
Proof.
  intros H -> Ha Hb. pose proof (sp_client _ _ H) as Hc.
  pose proof (ci_held _ _ Hc) as Hh. rewrite Forall_forall in Hh.
  destruct (Hh (a, n)) as (_&Hpos&_); [set_solver|]. simpl in Hpos.
  assert (0 <= p) by (unfold in_run in Ha; lia).
  pose proof (ci_owners _ _ Hc p ltac:(done)) as Ho. simpl in Ho.
  rewrite owners_app, owners_cons, owners_app, owners_cons in Ho. simpl in Ho.
  rewrite !decide_True in Ho by done.
  pose proof (owners_nonneg h1 p). pose proof (owners_nonneg h2 p). pose proof (owners_nonneg h3 p).
  destruct (bm_get_01 (sh_SME (sm_shared (bd_smeMgr st))) p ltac:(done)) as [E|E];
    simpl in E; rewrite E in Ho; unfold DMS_SME_FREE, DMS_SME_ALLOCATED in *; lia.
Qed.

(** ** The lock of the session *)

(** The session works on the collection [mbID], which exists, and no other
    session holds its latch; [t] is the mode the session holds. *)
Record sole (st : blockData) (mbID t : Z) : Prop := {
  so_id : cx_mbID (bd_ctx st) = mbID;
  so_exists : mb_exists (mb_shared st mbID) (bd_ctx st) = true;
  so_type : cx_mbLockType (bd_ctx st) = t;
  so_latch : default latch_free (bd_latch st !! mbID) =
    if decide (t = EXCLUSIVE) then mkLatch 0 true
    else if decide (t = SHARED) then mkLatch 1 false else latch_free;
  so_mode : t = EXCLUSIVE \/ t = SHARED \/ t = -1
}.

(** Only the lock differs. *)
Definition lock_only (st st' : blockData) : Prop :=
  exists l c, st' = set_lock st l c.

Lemma lock_only_cells st st' : lock_only st st' -> cells_eq st st'.
Proof. intros (l&c&->). by split. Qed.

Section Lock.
  Context (mbID : Z).

Lemma wp_ctx_mbLock_mode st t m (Q : outcome Z -> blockData -> Prop) :
  sole st mbID t -> m = EXCLUSIVE \/ m = SHARED ->
  (forall st', lock_only st st' -> sole st' mbID m -> Q (Ok SDB_OK) st') ->
  wp (ctx_mbLock m) Q st.
Proof.
  intros [Hid Hex Ht Hl Hm] Hmode HQ. unfold ctx_mbLock. apply wp_get_bind. rewrite Hid.
  unfold mb_exists in Hex. simpl in Hex. apply andb_prop in Hex as [Hu Hc].
  unfold mb_shared, mbLock, mbLock_run, mbl_enter. rewrite Hl, Ht.
  destruct Hm as [->|[->| ->]], Hmode as [->| ->]; simpl;
    try (unfold mb_pause; simpl; rewrite ?Ht; simpl; unfold mbl_check, mb_exists; simpl; rewrite Hu, Hc;
    simpl; unfold mbl_post, mb_exists; simpl; rewrite Hu, Hc; simpl).
  all: apply wp_modify_bind, wp_ret, HQ; [eexists _, _; reflexivity|];
    split; simpl; try done; try exact (andb_true_intro (conj Hu Hc));
    try (by rewrite lookup_insert_eq); by auto.
Qed.

Lemma wp_ctx_mbLock st t (Q : outcome Z -> blockData -> Prop) :
  sole st mbID t ->
  (forall st', lock_only st st' -> sole st' mbID EXCLUSIVE -> Q (Ok SDB_OK) st') ->
  wp (ctx_mbLock EXCLUSIVE) Q st.
Proof. intros H HQ. by eapply wp_ctx_mbLock_mode; [exact H|left|]. Qed.

Lemma wp_pause st (Q : outcome Z -> blockData -> Prop) :
  sole st mbID EXCLUSIVE ->
  (forall st', lock_only st st' -> sole st' mbID (-1) -> cx_resumeType (bd_ctx st') = EXCLUSIVE ->
     Q (Ok SDB_OK) st') ->
  wp ctx_pause Q st.
Proof.
  intros [Hid Hex Ht Hl Hm] HQ. unfold ctx_pause. apply wp_get_bind. rewrite Hid.
  unfold mb_pause, mbUnlock. simpl. rewrite Ht. simpl.
  apply wp_modify_bind, wp_ret, HQ; [eexists _, _; reflexivity| |done].
  split; simpl; try done; [|tauto]. rewrite lookup_insert_eq. simpl. by rewrite Hl.
Qed.

Lemma wp_resume st (Q : outcome Z -> blockData -> Prop) :
  sole st mbID (-1) -> cx_resumeType (bd_ctx st) = EXCLUSIVE ->
  (forall st', lock_only st st' -> sole st' mbID EXCLUSIVE -> Q (Ok SDB_OK) st') ->
  wp ctx_resume Q st.
Proof.
  intros [Hid Hex Ht Hl Hm] Hr HQ. unfold ctx_resume. apply wp_get_bind. rewrite Hid.
  unfold mb_exists in Hex. simpl in Hex. apply andb_prop in Hex as [Hu Hc].
  unfold mb_resume, mbLock, mbLock_run, mbl_enter, mb_shared. rewrite Hr, Hl. simpl. rewrite Ht. simpl.
  unfold mbl_check, mb_exists. simpl. rewrite Hu, Hc. simpl.
  unfold mbl_post, mb_exists. simpl. rewrite Hu, Hc. simpl.
  apply wp_modify_bind, wp_ret, HQ; [eexists _, _; reflexivity|].
  split; simpl; try done; [exact (andb_true_intro (conj Hu Hc))|by rewrite lookup_insert_eq|by left].
Qed.

(** The lock does not depend on anything but the session's context, the latch
    and the metadata block's flag and logical identifier. *)
Lemma sole_frame st st' t :
  sole st mbID t -> bd_ctx st' = bd_ctx st -> bd_latch st' = bd_latch st ->
  mb_flag (mb_at st' mbID) = mb_flag (mb_at st mbID) ->
  mb_logicalID (mb_at st' mbID) = mb_logicalID (mb_at st mbID) -> sole st' mbID t.
Proof.
  intros [H1 H2 H3 H4 H5] E1 E2 E3 E4. split; rewrite ?E1, ?E2; try done.
  unfold mb_exists, mb_shared in *. simpl in *. by rewrite E3, E4.
Qed.

End Lock.

Lemma space_ok_lock st st' held : lock_only st st' -> space_ok st held -> space_ok st' held.
Proof. intros (l&c&->) []. by split. Qed.

(** ** Extending the file *)

(** Only the space of the file and the system calls differ. *)
Record space_only (st st' : blockData) : Prop := {
  sy_cells : cells_eq st st';
  sy_ctx : bd_ctx st' = bd_ctx st;
  sy_latch : bd_latch st' = bd_latch st;
  sy_stat : bd_mbStatInfo st' = bd_mbStatInfo st
}.

Lemma space_only_refl st : space_only st st.
Proof. split; auto with wp. Qed.

Lemma space_only_trans st1 st2 st3 :
  space_only st1 st2 -> space_only st2 st3 -> space_only st1 st3.
Proof.
  intros [] []. split; try congruence. by eapply cells_eq_trans.
Qed.

Section Extend.
  Context (os : nat -> Z).

Lemma wp_syscall (Q : outcome Z -> blockData -> Prop) st :
  (forall rc x, Q (Ok rc) (set_aux st x)) -> wp (syscall os) Q st.
Proof. intros HQ. apply wp_get_bind, wp_modify_bind, wp_ret, HQ. Qed.

Lemma mm_map_segs n f offset len rc n' f' :
  0 < len -> mm_map os n f offset len = (rc, n', f') ->
  segmentSize f' = segmentSize f + (if rc =? 0 then 1 else 0).
Proof.
  intros Hl. unfold mm_map. destruct (Z.eqb_spec 0 len); [lia|].
  destruct (Z.eqb_spec (os n) 0); simpl.
  2: { intros [= <- <- <-]. destruct (Z.eqb_spec (os n) 0); lia. }
  case_match; [intros [= <- <- <-]; unfold SDB_INVALIDARG; simpl; lia|].
  destruct (ensureSpace _ _ _ _) as [[rc1 n1] f1] eqn:E.
  assert (mm_segs f1 = mm_segs f) as E1.
  { unfold ensureSpace in E. repeat case_match; simplify_eq; done. }
  destruct (Z.eqb_spec rc1 0); simpl.
  2: { intros [= <- <- <-]. unfold segmentSize. rewrite E1. destruct (Z.eqb_spec rc1 0); lia. }
  destruct (Z.eqb_spec (os n1) 0); simpl; intros [= <- <- <-]; unfold segmentSize; simpl; rewrite ?E1.
  - rewrite length_app. simpl. lia.
  - destruct (ENOMEM =? _); [simpl; lia|]. by destruct (EACCES =? _); simpl; lia.
Qed.

Lemma wp_truncateFile size (Q : outcome Z -> blockData -> Prop) st :
  (forall rc x f, segmentSize f = segmentSize (sg_file (bd_seg st)) ->
     Q (Ok rc) (set_aux (set_seg st (seg_with_file (bd_seg st) f)) x)) ->
  wp (truncateFile os size) Q st.
Proof.
  intros HQ. apply wp_bind, wp_syscall. intros rc x. apply wp_bind.
  destruct (rc =? 0).
  - apply wp_modify, wp_ret. apply (HQ rc x (mm_with_fileSize (sg_file (bd_seg st)) size)). done.
  - apply wp_ret, wp_ret. specialize (HQ rc x (sg_file (bd_seg st)) eq_refl).
    destruct st as [? ? ? ? [] ?]. exact HQ.
Qed.

(** The part of the space that is fixed while the file is resized. *)
Definition sized (st st' : blockData) : Prop :=
  space_only st st' /\ bd_smeMgr st' = bd_smeMgr st /\ bd_mmeSegID st' = bd_mmeSegID st /\
  sg_maxSegID (bd_seg st') = sg_maxSegID (bd_seg st) /\
  sg_header (bd_seg st') = sg_header (bd_seg st) /\ sg_pageNum (bd_seg st') = sg_pageNum (bd_seg st) /\
  segmentSize (sg_file (bd_seg st')) = segmentSize (sg_file (bd_seg st)).

Lemma sized_refl st : sized st st.
Proof. split_and!; done || apply space_only_refl. Qed.

Lemma sized_trans st1 st2 st3 : sized st1 st2 -> sized st2 st3 -> sized st1 st3.
Proof.
  intros (?&?&?&?&?&?&?) (?&?&?&?&?&?&?). split_and!; try congruence. by eapply space_only_trans.
Qed.

Lemma sized_aux st x : sized st (set_aux st x).
Proof. split_and!; try done; by split. Qed.

Lemma sized_file st f x : segmentSize f = segmentSize (sg_file (bd_seg st)) ->
  sized st (set_aux (set_seg st (seg_with_file (bd_seg st) f)) x).
Proof. intros. split_and!; try done; by split. Qed.

Lemma sized_space st st' held : sized st st' -> space_ok st held -> space_ok st' held.
Proof.
  intros (Hs&Hm&_&Hx&Hh&_&Hf) [H1 H2 H3 H4 H5 H6].
  pose proof (sy_cells _ _ Hs) as Hc. pose proof (ce_geo _ _ Hc). pose proof (ce_seg _ _ Hc).
  unfold bd_maxSegID in *. split; unfold bd_maxSegID; congruence.
Qed.

(** Growing the file ends after at most two attempts. *)
Lemma wp_extend_retry numSeg fileSize : forall fuel st,
  (si_enableSparse (bd_info st) = true -> fuel = 2%nat) -> (fuel = 1%nat \/ fuel = 2%nat) ->
  wp (extend_retry os fuel numSeg fileSize)
    (fun r st' => sized st st' /\ (r = Stop Panic \/ exists rc, r = Ok rc)) st.
Proof.
  intros fuel. induction fuel as [|fuel IH]; intros st Hsp Hfuel; [lia|].
  cbn [extend_retry]. apply wp_get_bind. apply wp_bind, wp_syscall. intros rc x.
  destruct (rc =? 0); simpl.
  - apply wp_modify_bind, wp_ret. split; [|eauto]. split_and!; try done; by split.
  - apply wp_bind, wp_truncateFile. intros rc1 y f Hf. simpl in Hf.
    set (st1 := set_aux _ y). assert (sized st st1) as H1 by (by apply (sized_file st f y)).
    destruct (rc1 =? 0); simpl; [|split; eauto].
    destruct ((SDB_INVALIDARG =? rc) && si_enableSparse (bd_info st)) eqn:E; [|split; eauto].
    apply andb_prop in E as [_ E]. specialize (Hsp E). injection Hsp as ->.
    apply wp_modify_bind. eapply wp_mono; [apply IH; [done|by left]|].
    intros r st' [H2 Hr]. split; [|done]. eapply sized_trans; [exact H1|].
    eapply sized_trans; [|exact H2]. split_and!; try done; by split.
Qed.

Lemma wp_mmap_map offset len (Q : outcome Z -> blockData -> Prop) st :
  0 < len ->
  (forall rc x f, segmentSize f = segmentSize (sg_file (bd_seg st)) + (if rc =? 0 then 1 else 0) ->
     Q (Ok rc) (set_aux (set_seg st (seg_with_file (bd_seg st) f)) x)) ->
  wp (mmap_map os offset len) Q st.
Proof.
  intros Hl HQ. unfold wp, mmap_map. destruct (mm_map _ _ _ _ _) as [[rc n] f] eqn:E.
  apply HQ. by eapply mm_map_segs.
Qed.

(** Mapping one new segment: it joins the space manager, or the file stays as
    it was; when the manager cannot allocate, the process stops. *)
Lemma wp_extend_map begin fileSize st held :
  space_ok st held -> begin = hd_pageNum (sg_header (bd_seg st)) ->
  begin + g_segmentPages (bd_geo st) <= DMS_MAX_PG ->
  wp (extend_map os 1 begin fileSize)
    (fun r st' => space_only st st' /\
       match r with
       | Ok rc => space_ok st' held /\
           (rc = 0 -> mgr_segmentNum (bd_smeMgr st') = mgr_segmentNum (bd_smeMgr st) + 1 /\
            sh_SME (sm_shared (bd_smeMgr st')) = sh_SME (sm_shared (bd_smeMgr st)))
       | Throw _ => False
       | Stop w => w = Panic
       end) st.
Proof.
  intros H Eb Hmax. destruct (segmentNum_bound _ _ H) as (Hsn&_&HP).
  pose proof (sp_geo _ _ H) as Hg. pose proof (geometry_geo_ok _ Hg) as Hgeo.
  pose proof (sp_pages _ _ H) as Epg. rewrite <- Eb in Epg.
  assert (0 <= begin) as Hb0 by nia.
  cbn [extend_map]. apply wp_bind, wp_mmap_map; [done|]. intros rc x f Hf.
  destruct (Z.eqb_spec rc 0) as [->|Hrc]; simpl negb; cbv iota.
  2: { apply wp_ret. destruct (Z.eqb_spec rc 0); [done|]. split; [by split|]. split; [|done].
       eapply sized_space; [|exact H]. apply (sized_file st f x). lia. }
  simpl in Hf. apply wp_modify_bind, wp_modify_bind, wp_get_bind, wp_modify_bind.
  apply wp_bind, wp_syscall. intros alloc y. apply wp_get_bind.
  change (mgr_depositASegment (alloc =? 0) ?g ?m ?b)
    with (mgr_depositASegment (alloc =? 0) (geo_of (bd_geo st)) (bd_smeMgr st) b).
  unfold DMS_MAX_PG in *. rewrite (i32_id begin) by nia.
  assert (client_inv (geo_of (bd_geo st)) (bd_smeMgr st, held)) as Hci by apply H.
  assert (begin mod geo_segmentPages (geo_of (bd_geo st)) = 0) as Hmod.
  { simpl. rewrite Epg. apply Z.mod_mul. lia. }
  destruct (Z.eqb_spec alloc 0) as [Ea|Ea].
  - destruct (mgr_depositASegment true _ _ begin) as [rc m'] eqn:E.
    pose proof (client_deposit_inv _ Hgeo _ _ _ _ _ Hci Hb0 Hmax Hmod E) as Hci'.
    apply (mgr_depositASegment_mask _ Hgeo) in E; [|apply Hci|exact Hb0|exact Hmax| |exact Hmod].
    2: { intros p Hp. eapply owners_outside; [exact Hgeo|exact Hci|..];
           unfold in_run in Hp; simpl in *; unfold mgr_segmentNum in *; nia. }
    destruct E as [(->&_&_&Hlen&Hsme&_)|(_&_&Hbad)];
      [|exfalso; apply Hbad; simpl; unfold mgr_segmentNum in *; lia].
    apply wp_modify_bind. simpl negb. cbv iota. apply wp_modify_bind, wp_ret.
    split; [by split|]. split; [|intros _; unfold mgr_segmentNum; simpl; split; [lia|done]].
    pose proof (sp_max _ _ H) as Hm. pose proof (sp_file _ _ H) as Hfl.
    unfold bd_maxSegID in *.
    split; try done; try apply H; unfold bd_maxSegID; simpl; unfold mgr_segmentNum in *; simpl; try lia.
    rewrite <- Eb, u32_id; nia.
  - assert (mgr_depositASegment false (geo_of (bd_geo st)) (bd_smeMgr st) begin
      = (SDB_OOM, bd_smeMgr st)) as ->.
    { unfold mgr_depositASegment. destruct (segment_of (geo_of (bd_geo st)) Hgeo begin) as [-> _]; [unfold DMS_MAX_PG; lia|].
      simpl. rewrite Epg, Z.div_mul by lia. unfold mgr_segmentNum. by rewrite Z.eqb_refl. }
    apply wp_modify_bind. simpl. apply wp_modify_bind. by split.
Qed.

Lemma wp_extendSegments st held :
  space_ok st held ->
  wp (extendSegments os 1)
    (fun r st' => space_only st st' /\
       match r with
       | Ok rc => space_ok st' held /\
           (rc = 0 -> mgr_segmentNum (bd_smeMgr st') = mgr_segmentNum (bd_smeMgr st) + 1 /\
            sh_SME (sm_shared (bd_smeMgr st')) = sh_SME (sm_shared (bd_smeMgr st)))
       | Throw _ => False
       | Stop w => w = Panic
       end) st.
Proof.
  intros H. destruct (segmentNum_bound _ _ H) as (Hsn&Hmx&HP).
  pose proof (sp_pages _ _ H) as Epg.
  unfold extendSegments. apply wp_get_bind. cbv zeta.
  rewrite Z.mul_1_r, (u32_id (g_segmentPages _)) by lia.
  unfold DMS_MAX_PG in Hmx. rewrite u32_id by nia.
  destruct (Z.ltb_spec DMS_MAX_PG (hd_pageNum (sg_header (bd_seg st)) + g_segmentPages (bd_geo st))).
  { apply wp_ret. split; [apply space_only_refl|by split]. }
  case_match; [apply wp_ret; split; [apply space_only_refl|by split]|].
  apply wp_bind, wp_syscall. intros rc x. set (st1 := set_aux st x).
  assert (sized st st1) as Hs1 by apply sized_aux.
  assert (forall (rc : Z) st', sized st st' -> rc <> 0 ->
    space_only st st' /\ space_ok st' held /\
     (rc = 0 -> mgr_segmentNum (bd_smeMgr st') = mgr_segmentNum (bd_smeMgr st) + 1 /\
       sh_SME (sm_shared (bd_smeMgr st')) = sh_SME (sm_shared (bd_smeMgr st)))) as Herr.
  { intros rc' st' Hs Hne. split; [apply Hs|]. split; [by eapply sized_space|done]. }
  destruct (Z.eqb_spec rc 0); simpl negb; cbv iota; [|apply wp_ret; by apply Herr].
  apply wp_bind. apply (wp_mono _ (fun r st' => sized st st' /\ exists rc, r = Ok rc)).
  { case_match; [|apply wp_ret; eauto]. apply wp_truncateFile. intros rc' y f Hf.
    split; [|eauto]. exact (sized_file st f y Hf). }
  intros r st2 [Hs2 [rc2 ->]].
  destruct (Z.eqb_spec rc2 0); simpl negb; cbv iota; [|apply wp_ret; by apply Herr].
  apply wp_bind. eapply wp_mono; [apply wp_extend_retry; [done|by right]|].
  intros r st3 [Hs3 Hr]. pose proof (sized_trans _ _ _ Hs2 Hs3) as H13.
  destruct Hr as [->|[rc3 ->]]; [split; [apply H13|done]|].
  destruct (Z.eqb_spec rc3 0); simpl negb; cbv iota; [|apply wp_ret; by apply Herr].
  pose proof H13 as (Hso&Hsm&_&_&Hhd&_&_).
  pose proof (ce_geo _ _ (sy_cells _ _ Hso)) as Eg.
  eapply wp_mono; [eapply (wp_extend_map _ _ st3 held)|].
  - by eapply sized_space.
  - by rewrite Hhd.
  - by rewrite Eg.
  - simpl. intros r st4 [Hs4 Hr]. split; [by eapply space_only_trans|].
    destruct r; try done. by rewrite Hsm in Hr.
Qed.

(** ** Finding free pages *)

Lemma space_ok_sme st held held' m' :
  space_ok st held -> client_inv (geo_of (bd_geo st)) (m', held') ->
  mgr_segmentNum m' = mgr_segmentNum (bd_smeMgr st) -> space_ok (set_sme st m') held'.
Proof.
  intros [H1 H2 H3 H4 H5 H6] Hc E. unfold bd_maxSegID in *.
  split; unfold bd_maxSegID; simpl; rewrite ?E; try done.
Qed.

Lemma reserve_space st held n found0 :
  space_ok st held -> 0 < n < 65536 ->
  exists found m', mgr_reservePages (bd_smeMgr st) n found0 = (SDB_OK, found, mgr_segmentNum m', m') /\
    ((0 <= found /\ space_ok (set_sme st m') ((found, n) :: held)) \/
     (found = DMS_INVALID_EXTENT /\ space_ok (set_sme st m') held /\
      mgr_segmentNum m' = mgr_segmentNum (bd_smeMgr st) /\
      forall a, ~ free_run (geo_of (bd_geo st)) (bd_smeMgr st) a n)).
Proof.
  intros H Hn. pose proof (geometry_geo_ok _ (sp_geo _ _ H)) as Hgeo.
  destruct (mgr_reservePages (bd_smeMgr st) n found0) as [[[rc found] sn] m'] eqn:E.
  assert (sn = mgr_segmentNum (bd_smeMgr st)) as ->.
  { unfold mgr_reservePages in E. repeat case_match; by simplify_eq. }
  pose proof (client_reserve_inv _ Hgeo _ _ _ _ _ _ _ _ (sp_client _ _ H) Hn E) as Hc.
  pose proof (ci_mgr _ _ (sp_client _ _ H)) as Hm. simpl in Hm.
  apply (mgr_reservePages_mask _ Hgeo) in E; [|done|done].
  destruct E as (->&_&Hlen&Hcase).
  assert (mgr_segmentNum m' = mgr_segmentNum (bd_smeMgr st)) as El by (unfold mgr_segmentNum; lia).
  exists found, m'. rewrite El. split; [done|].
  destruct Hcase as [(_&Hpos&_)|(->&_&_&Hno)].
  - left. split; [done|]. rewrite decide_True in Hc by (split; [done|unfold DMS_INVALID_EXTENT; lia]).
    by eapply space_ok_sme.
  - right. rewrite decide_False in Hc by naive_solver. split_and!; try done. by eapply space_ok_sme.
Qed.

(** [b]: whether the caller passes its context. *)
Definition found_post (mbID : Z) (b : bool) (st : blockData) (held : list (Z * Z)) (n : Z)
    (r : outcome (Z * Z)) (st' : blockData) : Prop :=
  cells_eq st st' /\ bd_mbStatInfo st' = bd_mbStatInfo st /\
  match r with
  | Ok (rc, found) =>
      (if b then sole st' mbID EXCLUSIVE
       else bd_ctx st' = bd_ctx st /\ bd_latch st' = bd_latch st) /\
      ((rc = SDB_OK /\ 0 <= found /\ space_ok st' ((found, n) :: held)) \/
       (rc <> SDB_OK /\ found = DMS_INVALID_EXTENT /\ space_ok st' held))
  | Throw _ => False
  | Stop w => w = Panic
  end.

Lemma sole_space_only mbID t st st' : space_only st st' -> sole st mbID t -> sole st' mbID t.
Proof.
  intros [Hc E1 E2 _] H. eapply sole_frame; [exact H|done..| |];
    by rewrite (proj1 (proj2 (proj2 (cells_at _ _ Hc)))).
Qed.

Lemma wp_found_again mbID b fuel n found0 st held a :
  space_ok st held -> 0 < n < 65536 -> (b = true -> sole st mbID EXCLUSIVE) ->
  free_run (geo_of (bd_geo st)) (bd_smeMgr st) a n ->
  wp (findFreeSpace_loop os (S fuel) n found0 b) (found_post mbID b st held n) st.
Proof.
  intros H Hn Hb Hfr. cbn [findFreeSpace_loop]. apply wp_get_bind.
  destruct (reserve_space st held n found0 H Hn) as (found&m'&->&Hcase).
  apply wp_modify_bind. simpl negb. cbv iota.
  destruct Hcase as [[Hpos Hs]|(_&_&_&Hno)]; [|by destruct (Hno a)].
  unfold DMS_INVALID_EXTENT. destruct (Z.eqb_spec (-1) found); [lia|]. simpl negb. cbv iota.
  apply wp_ret. split; [by split|]. split; [done|]. split; [|by left].
  destruct b; [|done]. eapply sole_frame; [by apply Hb|done..].
Qed.

(** A run of free pages is reserved, after one new segment when there is
    none, or an error is reported and no page is reserved. *)
Lemma wp_findFreeSpace mbID b n st held :
  space_ok st held -> 0 < n <= g_segmentPages (bd_geo st) -> (b = true -> sole st mbID EXCLUSIVE) ->
  wp (findFreeSpace os n b) (found_post mbID b st held n) st.
Proof.
  intros H Hn Hb. destruct (segmentNum_bound _ _ H) as (Hsn&_&HP).
  assert (0 < n < 65536) as Hn' by lia.
  unfold findFreeSpace. change retry_fuel with (S (S 62)). generalize 62%nat as fuel. intros fuel.
  remember (S fuel) as fuel1 eqn:Ef. cbn [findFreeSpace_loop]. subst fuel1. apply wp_get_bind.
  destruct (reserve_space st held n DMS_INVALID_EXTENT H Hn') as (found&m'&->&Hcase).
  apply wp_modify_bind. simpl negb. cbv iota. set (st1 := set_sme st m').
  assert (cells_eq st st1) as Hc1 by (by split).
  destruct Hcase as [[Hpos Hs]|(->&Hs&El&_)].
  { unfold DMS_INVALID_EXTENT. destruct (Z.eqb_spec (-1) found); [lia|]. simpl negb. cbv iota.
    apply wp_ret. split; [done|]. split; [done|]. split; [|by left].
    destruct b; [|done]. eapply sole_frame; [by apply Hb|done..]. }
  simpl negb. cbv iota. apply wp_get_bind.
  change (mgr_segmentNum (bd_smeMgr st1)) with (mgr_segmentNum m'). rewrite Z.eqb_refl.
  simpl negb. cbv iota. apply wp_bind.
  apply (wp_mono _ (fun r st2 => r = Ok SDB_OK /\ space_ok st2 held /\ cells_eq st st2 /\
    bd_mbStatInfo st2 = bd_mbStatInfo st /\
    (if b then sole st2 mbID (-1) /\ cx_resumeType (bd_ctx st2) = EXCLUSIVE
     else bd_ctx st2 = bd_ctx st /\ bd_latch st2 = bd_latch st) /\
    bd_smeMgr st2 = m')).
  { destruct b; [|by apply wp_ret].
    assert (sole st1 mbID EXCLUSIVE) as Hso1 by (eapply sole_frame; [by apply Hb|done..]).
    apply (wp_pause mbID); [exact Hso1|].
    intros st2 Hl Hso Hr. split; [done|]. split; [by eapply space_ok_lock|].
    split; [by eapply cells_eq_trans, lock_only_cells|].
    destruct Hl as (l&c&->). by split_and!. }
  intros r st2 (->&Hs2&Hc2&Hst2&Hlk&Em). simpl negb. cbv iota.
  pose proof (ce_geo _ _ Hc2) as Eg.
  apply wp_bind. eapply wp_mono; [by apply wp_extendSegments|]. cbv beta.
  intros r st3 [Hso Hr]. pose proof (cells_eq_trans _ _ _ Hc2 (sy_cells _ _ Hso)) as Hc3.
  pose proof (sy_stat _ _ Hso) as Est. rewrite Hst2 in Est.
  destruct r as [rc| |w]; [|done|by subst w].
  destruct Hr as [Hs3 Hr]. apply wp_bind.
  apply (wp_mono _ (fun r st4 => r = Ok SDB_OK /\ space_ok st4 held /\ cells_eq st st4 /\
    bd_mbStatInfo st4 = bd_mbStatInfo st /\ bd_smeMgr st4 = bd_smeMgr st3 /\
    (if b then sole st4 mbID EXCLUSIVE
     else bd_ctx st4 = bd_ctx st /\ bd_latch st4 = bd_latch st))).
  { destruct b.
    - destruct Hlk as [Hso2 Hrt]. apply (wp_resume mbID).
      + by eapply sole_space_only.
      + by rewrite (sy_ctx _ _ Hso).
      + intros st4 Hl Hso4. pose proof (lock_only_cells _ _ Hl) as Hc.
        split_and!; try done; [by eapply space_ok_lock|by eapply cells_eq_trans|..];
          by destruct Hl as (l&c&->).
    - destruct Hlk as [E1 E2]. apply wp_ret. rewrite (sy_ctx _ _ Hso), (sy_latch _ _ Hso).
      by split_and!. }
  intros r st4 (->&Hs4&Hc4&Est4&Em4&Hlk4).
  destruct (Z.eqb_spec rc 0) as [->|Hrc]; simpl negb; cbv iota.
  2: { apply wp_ret. split; [done|]. split; [done|]. split; [by destruct b|by right]. }
  destruct (Hr eq_refl) as [Enum Esme]. rewrite Em in Enum, Esme.
  pose proof (ce_geo _ _ Hc4) as Eg4.
  eapply wp_mono; [apply (wp_found_again mbID b fuel n _ st4 held
    (mgr_segmentNum m' * g_segmentPages (bd_geo st)))|]; try done.
  - intros ->. done.
  - rewrite Eg4, Em4. split.
    + exists (length (sm_segments m')). simpl. unfold mgr_segmentNum in *. split_and!; lia.
    + intros p Hp. rewrite Esme. unfold in_run in Hp.
      pose proof (geometry_geo_ok _ (sp_geo _ _ H)) as Hgeo.
      eapply (owners_outside _ Hgeo m' held); [|nia|simpl; unfold mgr_segmentNum in *; lia].
      exact (sp_client _ _ Hs).
  - intros r st5 (Hc5&Est5&Hr5). split; [by eapply cells_eq_trans|]. split; [congruence|].
    destruct r as [[rc5 f5]| |]; try done. destruct Hr5 as [Hl5 Hr5]. split; [|done].
    destruct b; [done|]. naive_solver congruence.
Qed.

End Extend.
