(* ===== verification/DmsAlloc.v ===== *)
(** * Adding an extent to a collection

    [linkExtent] and [addExtent2Meta] put a new extent at the end of its
    segment in the chain of the collection; [mapExtent2DelList] cuts it into
    deleted records; [allocateExtent] does both on pages of its own. *)
From S2P Require Import Prelude.
From S2P Require Import ByteBits.
From S2P Require Import Links.
From S2P Require Import OssBase.
From S2P Require Import OssMmap.
From S2P Require Import DmsBase.
From S2P Require Import DmsName.
From S2P Require Import DmsSegmentSpace.
From S2P Require Import DmsSMEMgr.
From S2P Require Import DmsRecord.
From S2P Require Import DmsDirtyList.
From S2P Require Import DmsMBContext.
From S2P Require Import DmsExtent.
From S2P Require Import DmsMB.
From S2P Require Import Bson.
From S2P Require Import DmsStore.
From S2P Require Import DmsInsert.
From S2P Require Import DmsSize.
From S2P Require Import DmsWp.
From S2P Require Import DmsDelete.
From S2P Require Import DmsView.
From S2P Require Import DmsCol.
From S2P Require Import DmsSpaceOk.
From Stdlib Require Import Sorted.
#[local] Open Scope Z_scope.

(** ** Changes of links

    What linking an extent leaves alone. *)

Definition ext_keeps (x x' : dmsExtent) : Prop :=
  ext_header x' = ext_header x /\ ext_recCount x' = ext_recCount x /\
  ext_firstRecordOffset x' = ext_firstRecordOffset x /\
  ext_lastRecordOffset x' = ext_lastRecordOffset x /\ ext_freeSpace x' = ext_freeSpace x.

Definition mb_keeps (b b' : dmsMB) : Prop :=
  mb_deleteList b' = mb_deleteList b /\ mb_blockID b' = mb_blockID b /\
  mb_flag b' = mb_flag b /\ mb_logicalID b' = mb_logicalID b /\
  mb_mbExExtentID b' = mb_mbExExtentID b.

Record relinked (mbID mx : Z) (st st' : blockData) : Prop := {
  rl_ext : forall y, ext_keeps (ext_at st y) (ext_at st' y);
  rl_rec : bd_rec st' = bd_rec st;
  rl_mb : mb_keeps (mb_at st mbID) (mb_at st' mbID);
  rl_mbs : forall i, i <> mbID -> mb_at st' i = mb_at st i;
  rl_mbex : forall y, y <> mx -> mbex_at st' y = mbex_at st y;
  rl_geo : bd_geo st' = bd_geo st;
  rl_dataseg : bd_dataSegID st' = bd_dataSegID st;
  rl_seg : bd_seg st' = bd_seg st;
  rl_sme : bd_smeMgr st' = bd_smeMgr st;
  rl_lock : bd_ctx st' = bd_ctx st /\ bd_latch st' = bd_latch st;
  rl_names : bd_names st' = bd_names st /\ bd_ids st' = bd_ids st
}.

Section Link.
  Context (mbID mx : Z).

Lemma relinked_refl st : relinked mbID mx st st.
Proof. by split. Qed.

Lemma relinked_trans st1 st2 st3 :
  relinked mbID mx st1 st2 -> relinked mbID mx st2 st3 -> relinked mbID mx st1 st3.
Proof.
  intros [A1 A2 A3 A4 A5 A6 A7 A8 A9 A10 A11] [B1 B2 B3 B4 B5 B6 B7 B8 B9 B10 B11].
  split; try congruence.
  - intros y. destruct (A1 y) as (?&?&?&?&?), (B1 y) as (?&?&?&?&?). unfold ext_keeps. split_and!; congruence.
  - destruct A3 as (?&?&?&?&?), B3 as (?&?&?&?&?). unfold mb_keeps. split_and!; congruence.
  - intros i Hi. rewrite B4 by done. by apply A4.
  - intros i Hi. rewrite B5 by done. by apply A5.
  - destruct A10, B10. split; congruence.
  - destruct A11, B11. split; congruence.
Qed.

Lemma relinked_ext st e f :
  (forall x, ext_keeps x (f x)) -> relinked mbID mx st (ext_upd st e f).
Proof.
  intros Hf. split; try done. intros y. autorewrite with upd. case_decide; [|done]. subst. apply Hf.
Qed.

Lemma relinked_mb st f : (forall b, mb_keeps b (f b)) -> relinked mbID mx st (mb_upd st mbID f).
Proof.
  intros Hf. split; try done; autorewrite with upd; [by rewrite decide_True|].
  intros i Hi. autorewrite with upd. by rewrite decide_False.
Qed.

Lemma relinked_mbex st f : relinked mbID mx st (mbex_upd st mx f).
Proof. split; try done. intros y Hy. autorewrite with upd. by rewrite decide_False. Qed.

Lemma relinked_aux st x : relinked mbID mx st (set_aux st x).
Proof. by split. Qed.

Lemma relinked_null st st' e : relinked mbID mx st st' -> ext_null st' e = ext_null st e.
Proof.
  intros H. unfold ext_null, extentAddr, extent2Segment, extent2SegOffset, bd_maxSegID.
  by rewrite (rl_geo _ _ _ _ H), (rl_dataseg _ _ _ _ H), (rl_seg _ _ _ _ H).
Qed.

Lemma relinked_rec st st' r : relinked mbID mx st st' -> rec_at st' r = rec_at st r.
Proof. intros H. unfold rec_at. by rewrite (rl_rec _ _ _ _ H). Qed.

Definition chain_at (st : blockData) (l : list Z) : Prop :=
  dlist (fun y => ext_nextExtent (ext_at st y)) (fun y => ext_prevExtent (ext_at st y))
    (mb_firstExtentID (mb_at st mbID)) (mb_lastExtentID (mb_at st mbID)) l.

End Link.

Ltac relink :=
  repeat first [apply relinked_refl
    | match goal with
      | |- relinked _ _ _ (ext_upd ?s _ _) => apply (relinked_trans _ _ _ s); [|by apply relinked_ext]
      | |- relinked _ _ _ (mb_upd ?s _ _) => apply (relinked_trans _ _ _ s); [|by apply relinked_mb]
      | |- relinked _ _ _ (mbex_upd ?s _ _) => apply (relinked_trans _ _ _ s); [|by apply relinked_mbex]
      | |- relinked _ _ _ (set_aux ?s _) => apply (relinked_trans _ _ _ s); [|by apply relinked_aux]
      end ].

Section Chain.
  Context (mbID mx : Z).

(** Extents outside the chain. *)
Ltac others :=
  let y := fresh "y" in let Hy := fresh "Hy" in
  intros y Hy; rewrite ?elem_of_app, ?elem_of_cons in Hy; autorewrite with upd;
  rewrite ?decide_False by (intros ->; tauto); done.

Lemma wp_linkExtent st e l1 l2 (Q : outcome unit -> blockData -> Prop) :
  chain_at mbID st (l1 ++ l2) -> e ∉ l1 ++ l2 -> e <> NIL ->
  (forall y, y ∈ l1 ++ l2 -> ext_null st y = false) ->
  ext_nextExtent (ext_at st e) = NIL -> ext_prevExtent (ext_at st e) = default NIL (last l1) ->
  (forall st', relinked mbID mx st st' -> bd_mbex st' = bd_mbex st ->
     (forall y, y ∉ l1 ++ e :: l2 -> ext_at st' y = ext_at st y) ->
     chain_at mbID st' (l1 ++ e :: l2) -> Q (Ok tt) st') ->
  wp (linkExtent mbID e (default NIL (last l1))) Q st.
Proof.
  intros Hc He Hnil Hadr Hnx Hpx HQ. pose proof (dl_nodup _ _ _ _ _ Hc) as Hnd.
  pose proof (lchain_link _ _ _ _ (dl_next _ _ _ _ _ Hc)) as Hlink.
  pose proof (dlist_last _ _ _ _ _ Hc) as Hlast.
  assert (forall y, y ∈ l1 ++ l2 -> y <> NIL) as Hnn.
  { intros y Hy. eapply lchain_not_nil; [apply (dl_next _ _ _ _ _ Hc)|done]. }
  assert (forall p, p ∈ l1 -> e <> p /\ p ∈ l1 ++ l2) as H1.
  { intros p Hp. assert (p ∈ l1 ++ l2) by (apply elem_of_app; by left). split; [by intros ->|done]. }
  assert (forall p, p ∈ l2 -> e <> p /\ p ∈ l1 ++ l2) as H2.
  { intros p Hp. assert (p ∈ l1 ++ l2) by (apply elem_of_app; by right). split; [by intros ->|done]. }
  unfold linkExtent, DMS_INVALID_EXTENT. fold NIL.
  destruct (last l1) as [p|] eqn:El1; simpl in Hlink |- *.
  - assert (p ∈ l1) as Hp by (by apply last_Some_elem_of in El1).
    destruct (H1 p Hp) as [Hep Hpin]. pose proof (Hnn p Hpin).
    destruct (Z.eqb_spec NIL p); [done|]. simpl.
    apply wp_get_bind. rewrite Hlink. destruct (head l2) as [q|] eqn:Eh2; simpl.
    + assert (q ∈ l2) as Hq by (destruct l2; simplify_eq/=; left).
      destruct (H2 q Hq) as [Heq Hqin]. pose proof (Hnn q Hqin).
      destruct (Z.eqb_spec NIL q); [done|]. simpl.
      assert (p <> q). { intros ->. apply NoDup_app in Hnd as (_&Hd&_). by eapply Hd. }
      apply wp_bind, wp_bind, wp_modify, wp_bind, wp_extWritePtr; [by apply Hadr|].
      intros x. apply wp_modify, wp_modify, HQ; [relink|done|others|].
      eapply (dlist_insert _ _ _ _ _ _ _ _ l1 e l2); try exact Hc; try done;
        intros; autorewrite with upd in *; simplify_eq;
        repeat (case_decide; subst; simpl; try done; try congruence).
      all: try (by rewrite Eh2). all: try (by destruct l1). all: by destruct l2.
    + apply wp_bind, wp_modify, wp_modify, HQ; [relink|done|others|].
      destruct l2; [|done]. rewrite ?app_nil_r in *.
      eapply (dlist_insert _ _ _ _ _ _ _ _ l1 e []); rewrite ?app_nil_r; try exact Hc; try done;
        intros; autorewrite with upd in *; simplify_eq;
        repeat (case_decide; subst; simpl; try done; try congruence).
      by destruct l1.
  - apply last_None in El1 as ->. simpl in *. apply wp_get_bind. rewrite Hlink.
    apply wp_bind. destruct (head l2) as [q|] eqn:Eh2; simpl.
    + assert (q ∈ l2) as Hq by (destruct l2; simplify_eq/=; left).
      destruct (H2 q Hq) as [Heq _]. pose proof (Hnn q Hq).
      destruct (Z.eqb_spec NIL q); [done|]. simpl.
      apply wp_bind, wp_modify, wp_bind, wp_extWritePtr; [by apply Hadr|]. intros x.
      apply wp_modify, wp_modify_bind, wp_get_bind. autorewrite with upd. rewrite decide_True by done.
      simpl. rewrite Hlast. destruct (last l2) as [t|] eqn:El2; simpl;
        [|apply last_None in El2 as ->; done].
      destruct (Z.eqb_spec NIL t); [destruct (Hnn t); [by apply last_Some_elem_of in El2|done]|].
      apply wp_ret, HQ; [relink|done|others|].
      eapply (dlist_insert _ _ _ _ _ _ _ _ [] e l2); try exact Hc; try done;
        intros; autorewrite with upd in *; simplify_eq;
        repeat (case_decide; subst; simpl; try done; try congruence).
      all: try (by rewrite Eh2). all: by destruct l2.
    + destruct l2; [|done]. apply wp_ret, wp_modify_bind, wp_get_bind.
      autorewrite with upd. rewrite decide_True by done. simpl. rewrite Hlast. simpl.
      apply wp_modify, HQ; [relink|done|others|].
      eapply (dlist_insert _ _ _ _ _ _ _ _ [] e []); try exact Hc; try done;
        intros; autorewrite with upd in *; simplify_eq;
        repeat (case_decide; subst; simpl; try done; try congruence).
Qed.

End Chain.

(** ** The index of the extents *)

Section Index.
  Context (g : bdGeometry).

Abbreviation seg := (seg_of g).
Definition in_seg (s : Z) (l : list Z) : list Z := filter (fun e => seg e = s) l.
Definition upto_seg (s : Z) (l : list Z) : list Z := filter (fun e => seg e <= s) l.
Definition after_seg (s : Z) (l : list Z) : list Z := filter (fun e => s < seg e) l.

Abbreviation by_seg := (StronglySorted (fun a b => seg a <= seg b)).

Lemma Forall_filtered (P Q : Z -> Prop) `{forall x, Decision (Q x)} l :
  Forall P l -> Forall P (filter Q l).
Proof.
  rewrite !Forall_forall. intros Hl x [_ Hx]%list_elem_of_filter. by apply Hl.
Qed.

Lemma upto_none s l : Forall (fun e => s < seg e) l -> upto_seg s l = [].
Proof.
  intros H. unfold upto_seg. induction H as [|x l Hx _ IH]; [done|].
  rewrite filter_cons, decide_False by lia. done.
Qed.

Lemma after_all s l : Forall (fun e => s < seg e) l -> after_seg s l = l.
Proof.
  intros H. unfold after_seg. induction H as [|x l Hx _ IH]; [done|].
  rewrite filter_cons, decide_True by done. by rewrite IH.
Qed.

Lemma sorted_above s x l :
  Forall (fun y => seg x <= seg y) l -> s < seg x -> Forall (fun e => s < seg e) l.
Proof. intros H Hs. eapply Forall_impl; [exact H|]. simpl. lia. Qed.

(** A sorted list is the extents up to a segment and the ones after it. *)
Lemma sorted_split s l : by_seg l -> l = upto_seg s l ++ after_seg s l.
Proof.
  induction 1 as [|x l _ IH Hx]; [done|]. unfold upto_seg, after_seg. rewrite !filter_cons.
  destruct (decide (seg x <= s)).
  - rewrite decide_False by lia. simpl. by rewrite IH at 1.
  - rewrite decide_True by lia. pose proof (sorted_above s x l Hx ltac:(lia)) as Hs.
    fold (upto_seg s l) (after_seg s l). by rewrite upto_none, after_all.
Qed.

Lemma upto_in s l : by_seg l -> upto_seg s l = upto_seg (s - 1) l ++ in_seg s l.
Proof.
  induction 1 as [|x l _ IH Hx]; [done|]. unfold upto_seg, in_seg. rewrite !filter_cons.
  fold (upto_seg s l) (upto_seg (s - 1) l) (in_seg s l).
  destruct (Z.lt_trichotomy (seg x) s) as [?|[?|?]].
  - rewrite !decide_True, decide_False by lia. simpl. by rewrite IH.
  - rewrite (decide_True (P := seg x <= s)), decide_False, decide_True by lia.
    rewrite IH, upto_none; [done|]. eapply sorted_above; [exact Hx|lia].
  - rewrite !decide_False by lia.
    rewrite IH. done.
Qed.

Lemma after_in s l : in_seg s (after_seg s l) = [].
Proof.
  induction l as [|x l IH]; [done|]. unfold after_seg. rewrite filter_cons.
  case_decide; [|done]. unfold in_seg. rewrite filter_cons, decide_False by lia. done.
Qed.

Lemma in_seg_app s l1 l2 : in_seg s (l1 ++ l2) = in_seg s l1 ++ in_seg s l2.
Proof. apply filter_app. Qed.

Lemma by_seg_insert s l e :
  by_seg l -> seg e = s -> by_seg (upto_seg s l ++ e :: after_seg s l).
Proof.
  intros H Hs. induction H as [|x l Hl IH Hx]; [by repeat constructor|].
  unfold upto_seg, after_seg. rewrite !filter_cons.
  destruct (decide (seg x <= s)).
  - rewrite decide_False by lia. simpl. constructor; [exact IH|].
    apply Forall_app. split; [|apply Forall_cons; split; [lia|]].
    + by apply Forall_filtered.
    + by apply Forall_filtered.
  - rewrite decide_True by lia. pose proof (sorted_above s x l Hx ltac:(lia)) as Hs'.
    fold (upto_seg s l) (after_seg s l). rewrite upto_none, after_all by done. simpl.
    constructor; [by constructor|]. apply Forall_cons. split; [lia|].
    eapply Forall_impl; [exact Hs'|]. simpl. lia.
Qed.

(** The search below segment [t] finds the last extent before it. *)
Lemma prev_search_spec x l : forall n t,
  by_seg l -> (forall e, e ∈ l -> 0 <= e) -> 0 <= t -> n = Z.to_nat t ->
  (forall s, 0 <= s < t -> (getLastExtentID x s NIL).2 = default NIL (last (in_seg s l))) ->
  prev_search n x t = default NIL (last (upto_seg (t - 1) l)).
Proof.
  induction n as [|n IH]; intros t Hs Hpos Ht Hn Hx; simpl.
  - assert (t = 0) as -> by lia. rewrite upto_none; [done|]. apply Forall_forall. intros e He.
    specialize (Hpos e He). unfold seg_of. pose proof (proj2 (Z.shiftr_nonneg e (g_segmentPagesSquare g)) Hpos). lia.
  - destruct (Z.leb_spec 0 (t - 1)); [|lia]. fold NIL. change DMS_INVALID_EXTENT with NIL.
    rewrite Hx by lia. rewrite upto_in by done.
    destruct (last (in_seg (t - 1) l)) as [e|] eqn:E; simpl.
    + rewrite last_app, E. assert (0 <= e).
      { apply Hpos. apply last_Some_elem_of in E. by apply list_elem_of_filter in E as [_ ?]. }
      unfold NIL. destruct (Z.eqb_spec (-1) e); [lia|done].
    + apply last_None in E as ->. rewrite app_nil_r. apply IH; try done; try lia.
      intros s ?. apply Hx. lia.
Qed.

Lemma in_seg_insert t s l e :
  by_seg l -> seg e = s ->
  in_seg t (upto_seg s l ++ e :: after_seg s l) =
  if decide (t = s) then in_seg s l ++ [e] else in_seg t l.
Proof.
  intros Hs He. rewrite in_seg_app. unfold in_seg at 2. rewrite filter_cons.
  fold (in_seg t (after_seg s l)). destruct (decide (t = s)) as [->|Hne].
  - rewrite decide_True by done. rewrite (sorted_split s l Hs) at 3.
    rewrite in_seg_app, after_in. by rewrite app_nil_r.
  - rewrite decide_False by congruence. rewrite (sorted_split s l Hs) at 3. by rewrite in_seg_app.
Qed.

Lemma index_insert x x' s l e :
  index_ok g x l -> seg e = s -> 0 <= e < DMS_MAX_PG ->
  me_segNum (mbx_header x') = me_segNum (mbx_header x) ->
  (forall t, 0 <= t < me_segNum (mbx_header x) ->
     getFirstExtentID x' t NIL =
       if decide (t = s /\ in_seg s l = []) then (SDB_OK, e) else getFirstExtentID x t NIL) ->
  (forall t, 0 <= t < me_segNum (mbx_header x) ->
     getLastExtentID x' t NIL = if decide (t = s) then (SDB_OK, e) else getLastExtentID x t NIL) ->
  index_ok g x' (upto_seg s l ++ e :: after_seg s l).
Proof.
  intros [H1 H2 H3 H4 H5] Hs He Hn Hf Hl. split.
  - congruence.
  - intros t Ht. rewrite Hn in Ht. rewrite Hf by done.
    fold (in_seg t (upto_seg s l ++ e :: after_seg s l)). rewrite in_seg_insert by done.
    destruct (decide (t = s)) as [->|Hne]; case_decide as E.
    + destruct E as [_ ->]. done.
    + rewrite H2 by done. fold (in_seg s l). destruct (in_seg s l) eqn:El; [naive_solver|done].
    + naive_solver.
    + by apply H2.
  - intros t Ht. rewrite Hn in Ht. rewrite Hl by done.
    fold (in_seg t (upto_seg s l ++ e :: after_seg s l)). rewrite in_seg_insert by done.
    case_decide; [by rewrite last_snoc|]. by apply H3.
  - by apply by_seg_insert.
  - intros y Hy. rewrite elem_of_app, elem_of_cons in Hy.
    destruct Hy as [Hy|[->|Hy]]; [|done|]; apply list_elem_of_filter in Hy as [_ Hy]; by apply H5.
Qed.

End Index.

(** The two ways [addExtent2Meta] updates the index. *)
Definition mbx_first_in (x : dmsMBEx) (s e : Z) : dmsMBEx :=
  mbx_incUsed (setLastExtentID (setFirstExtentID x s e).2 s e).2.
Definition mbx_next_in (x : dmsMBEx) (s e : Z) : dmsMBEx := (setLastExtentID x s e).2.

Lemma mbx_next_in_spec x s e :
  0 <= s < me_segNum (mbx_header x) -> me_segNum (mbx_header x) <= 65536 ->
  me_segNum (mbx_header (mbx_next_in x s e)) = me_segNum (mbx_header x) /\
  forall t, 0 <= t < me_segNum (mbx_header x) ->
    getFirstExtentID (mbx_next_in x s e) t NIL = getFirstExtentID x t NIL /\
    getLastExtentID (mbx_next_in x s e) t NIL =
      if decide (t = s) then (SDB_OK, e) else getLastExtentID x t NIL.
Proof.
  intros Hs Hn. destruct (mbx_set_get x s e NIL Hs ltac:(lia)) as (x'&E&Hh&Hl&Hf).
  unfold mbx_next_in. rewrite E. simpl. rewrite Hh. split; [done|]. intros t Ht.
  by rewrite Hf, Hl.
Qed.

Lemma mbx_first_in_spec x s e :
  0 <= s < me_segNum (mbx_header x) -> me_segNum (mbx_header x) <= 65536 ->
  me_segNum (mbx_header (mbx_first_in x s e)) = me_segNum (mbx_header x) /\
  forall t, 0 <= t < me_segNum (mbx_header x) ->
    getFirstExtentID (mbx_first_in x s e) t NIL =
      (if decide (t = s) then (SDB_OK, e) else getFirstExtentID x t NIL) /\
    getLastExtentID (mbx_first_in x s e) t NIL =
      if decide (t = s) then (SDB_OK, e) else getLastExtentID x t NIL.
Proof.
  intros Hs Hn. destruct (mbx_set_first_get x s e NIL Hs ltac:(lia)) as (x1&E1&Hh1&Hf1&Hl1).
  unfold mbx_first_in. rewrite E1. simpl snd. fold (mbx_next_in x1 s e).
  destruct (mbx_next_in_spec x1 s e) as [Hh2 H2]; [by rewrite Hh1|by rewrite Hh1|].
  change (me_segNum (mbx_header (mbx_incUsed ?y))) with (me_segNum (mbx_header y)).
  change (getFirstExtentID (mbx_incUsed ?y)) with (getFirstExtentID y).
  change (getLastExtentID (mbx_incUsed ?y)) with (getLastExtentID y).
  rewrite Hh1 in *. split; [done|]. intros t Ht. destruct (H2 t Ht) as [-> ->].
  by rewrite Hf1, Hl1.
Qed.

(** ** [addExtent2Meta] *)

Section Meta.
  Context (mbID : Z).

Lemma wp_addExtent2Meta st c e (Q : outcome Z -> blockData -> Prop) :
  let g := bd_geo st in
  let s := seg_of g e in
  let l1 := upto_seg g s (cv_ids c) in
  let l2 := after_seg g s (cv_ids c) in
  col_ok st mbID None c -> sole st mbID EXCLUSIVE -> e ∉ cv_ids c -> 0 <= e < DMS_MAX_PG ->
  extent2Segment st e - bd_dataSegID st = s ->
  ext_nextExtent (ext_at st e) = NIL -> ext_prevExtent (ext_at st e) = NIL ->
  (forall st' x, relinked mbID (cv_mx c).1 st st' ->
     (forall y, y ∉ l1 ++ e :: l2 -> ext_at st' y = ext_at st y) -> chain_at mbID st' (l1 ++ e :: l2) ->
     index_ok g (mbex_at st' (cv_mx c).1) (l1 ++ e :: l2) -> Q (Ok SDB_OK) (set_aux st' x)) ->
  wp (addExtent2Meta e) Q st.
Proof.
  intros g s l1 l2 H Hso He Hr Hseg Hnx Hpx HQ.
  pose proof (co_geo _ _ _ _ H) as (Hp&_&Hsq&Hsp&_). pose proof (co_index _ _ _ _ H) as Hix.
  pose proof (ix_sorted _ _ _ Hix) as Hsorted. pose proof (ix_num _ _ _ Hix) as Hnum.
  set (mx := (cv_mx c).1) in *. set (x0 := mbex_at st mx) in *.
  assert (0 <= s < me_segNum (mbx_header x0) /\ me_segNum (mbx_header x0) <= 65536) as [Hs Hn].
  { rewrite Hnum. unfold s, seg_of, g in *. change DMS_MAX_PG with 134217728 in *.
    rewrite !shiftr_div by lia.
    assert (2 ^ 11 <= 2 ^ g_segmentPagesSquare (bd_geo st)) by (apply Z.pow_le_mono_r; lia).
    assert (2 ^ g_segmentPagesSquare (bd_geo st) <= 2 ^ 15) by (apply Z.pow_le_mono_r; lia).
    assert (134217728 = 2 ^ (27 - g_segmentPagesSquare (bd_geo st)) * 2 ^ g_segmentPagesSquare (bd_geo st)) as Em.
    { rewrite <- Z.pow_add_r by lia. by replace (27 - _ + _) with 27 by lia. }
    split_and!; [apply Z.div_pos; lia| |].
    - apply Z.div_lt_upper_bound; [lia|]. rewrite Em, Z.div_mul by lia. lia.
    - rewrite Em, Z.div_mul by lia. change 65536 with (2 ^ 16). apply Z.pow_le_mono_r; lia. }
  assert (cv_ids c = l1 ++ l2) as Eids by (by apply sorted_split).
  assert (chain_at mbID st (l1 ++ l2)) as Hch by (rewrite <- Eids; apply H).
  assert (e <> NIL) as Hnil by (unfold NIL; lia).
  assert (forall y, y ∈ l1 ++ l2 -> ext_null st y = false) as Hadr.
  { intros y Hy. rewrite <- Eids in Hy. apply list_elem_of_In, in_map_iff in Hy as (v&<-&Hv%list_elem_of_In).
    pose proof (co_ext _ _ _ _ H) as Hx. rewrite Forall_forall in Hx. by apply Hx. }
  assert (forall y, y ∈ cv_ids c -> 0 <= y) as Hpos by (intros y Hy; apply (ix_range _ _ _ Hix) in Hy; lia).
  pose proof (co_mxadr _ _ _ _ H) as Hmx. fold mx in Hmx.
  unfold addExtent2Meta. apply wp_scope. intros a0. apply wp_get_bind. cbv zeta.
  change (extent2Segment (set_aux st a0) e) with (extent2Segment st e).
  change (bd_dataSegID (set_aux st a0)) with (bd_dataSegID st).
  change (bd_ctx (set_aux st a0)) with (bd_ctx st).
  rewrite Hseg, u32_id by lia. unfold isMBLock.
  rewrite (so_id _ _ _ Hso), (so_type _ _ _ Hso). simpl negb. cbv iota.
  autorewrite with upd. rewrite (co_mx _ _ _ _ H). fold mx.
  apply wp_bind, wp_extWritePtr; [done|]. intros a1. simpl negb. cbv iota. apply wp_get_bind.
  autorewrite with upd. fold x0. destruct (Z.leb_spec (me_segNum (mbx_header x0)) s); [lia|].
  apply wp_bind, wp_extWritePtr; [done|]. intros a2. apply wp_get_bind.
  autorewrite with upd. fold x0. change DMS_INVALID_EXTENT with NIL.
  rewrite (ix_last _ _ _ Hix) by done. simpl snd.
  change (filter (fun e0 => seg_of (bd_geo st) e0 = s) (cv_ids c)) with (in_seg g s (cv_ids c)).
  apply wp_bind.
  apply (wp_mono _ (fun r st' => r = Ok (default NIL (last l1)) /\ relinked mbID mx st st' /\
    (forall y, y <> e -> ext_at st' y = ext_at st y) /\
    ext_nextExtent (ext_at st' e) = NIL /\ ext_prevExtent (ext_at st' e) = default NIL (last l1) /\
    mb_at st' mbID = mb_at st mbID /\
    index_ok g (mbex_at st' mx) (l1 ++ e :: l2))).
  { destruct (last (in_seg g s (cv_ids c))) as [p|] eqn:El; simpl default.
    - assert (last l1 = Some p) as El1.
      { unfold l1. rewrite upto_in, last_app, El by done. done. }
      assert (p ∈ in_seg g s (cv_ids c)) as Hp' by (by apply last_Some_elem_of in El).
      assert (p ∈ cv_ids c) as Hpin by (by apply list_elem_of_filter in Hp' as [_ ?]).
      assert (p <> e) as Hpe by (by intros ->). pose proof (Hpos p Hpin).
      unfold NIL at 1. destruct (Z.eqb_spec (-1) p); [lia|].
      destruct (mbx_next_in_spec x0 s e Hs Hn) as [M1 M2].
      apply wp_modify_bind, wp_modify_bind, wp_bind, wp_extWritePtr; [apply Hadr; by rewrite <- Eids|].
      intros a3. apply wp_get_bind, wp_modify_bind, wp_ret. rewrite El1. simpl default.
      split; [done|]. split; [relink|]. autorewrite with upd.
        rewrite ?(decide_True (P := e = e)), ?(decide_True (P := mx = mx)) by done. simpl.
      split_and!; try done.
      + intros y Hy. autorewrite with upd. by rewrite ?(decide_False (P := e = y)) by congruence.
      + fold x0. fold (mbx_next_in x0 s e). eapply index_insert; [exact Hix|done|done|done| |].
        * intros t Ht. destruct (M2 t Ht) as [-> _]. rewrite decide_False; [done|].
          intros [_ E]. by rewrite E in El.
        * intros t Ht. by destruct (M2 t Ht) as [_ ->].
    - apply last_None in El. simpl.
      assert (l1 = upto_seg g (s - 1) (cv_ids c)) as El1.
      { unfold l1. by rewrite upto_in, El, app_nil_r. }
      destruct (mbx_first_in_spec x0 s e Hs Hn) as [M1 M2].
      apply wp_modify_bind, wp_modify_bind, wp_modify_bind, wp_modify_bind, wp_get_bind.
      autorewrite with upd. rewrite !decide_True by done. fold x0. fold (mbx_first_in x0 s e).
      assert (index_ok g (mbx_first_in x0 s e) (l1 ++ e :: l2)) as Hix'.
      { eapply index_insert; [exact Hix|done|done|done| |]; intros t Ht; destruct (M2 t Ht) as [E1 E2].
        - rewrite E1. destruct (decide (t = s)) as [->|Hne]; [by rewrite decide_True|].
          rewrite decide_False; [done|by intros [? _]].
        - done. }
      assert ((if negb (NIL =? mb_firstExtentID (mb_at st mbID))
        then prev_search (Z.to_nat s) (mbx_first_in x0 s e) (i32 s) else NIL)
        = default NIL (last l1)) as ->.
      { rewrite (i32_id s) by lia. pose proof (dlist_first _ _ _ _ _ Hch) as Hf.
        destruct (Z.eqb_spec NIL (mb_firstExtentID (mb_at st mbID))) as [E|E]; simpl.
        - rewrite <- E in Hf. rewrite <- Eids in Hf. destruct (cv_ids c) as [|y l] eqn:Ec.
          + unfold l1. by rewrite ?Ec.
          + simpl in Hf. assert (0 <= y) by (apply Hpos; left). unfold NIL in Hf. lia.
        - rewrite El1. apply prev_search_spec; try done; try lia.
          intros t Ht. destruct (M2 t ltac:(lia)) as [_ ->]. rewrite decide_False by lia.
          rewrite (ix_last _ _ _ Hix) by lia. done. }
      apply wp_bind. destruct (last l1) as [p|] eqn:Elp; simpl default.
      + assert (p ∈ l1) as Hp' by (by apply last_Some_elem_of in Elp).
        assert (p ∈ l1 ++ l2) as Hpin by (apply elem_of_app; by left).
        assert (p <> e) as Hpe by (intros ->; apply He; by rewrite Eids).
        assert (0 <= p) as Hp0 by (apply Hpos; by rewrite Eids).
        unfold NIL at 1. destruct (Z.eqb_spec (-1) p); [lia|]. simpl negb. cbv iota.
        apply wp_modify_bind, wp_bind, wp_extWritePtr; [by apply Hadr|]. intros a3.
        apply wp_ret, wp_ret. split; [done|]. split; [relink|].
        autorewrite with upd.
        rewrite ?(decide_True (P := e = e)), ?(decide_True (P := mx = mx)) by done. simpl.
        split_and!; try done. intros y Hy. autorewrite with upd. by rewrite ?(decide_False (P := e = y)) by congruence.
      + simpl. apply wp_ret, wp_ret. split; [done|]. split; [relink|].
        autorewrite with upd.
        rewrite ?(decide_True (P := e = e)), ?(decide_True (P := mx = mx)) by done. simpl.
        split_and!; try done. intros y Hy. autorewrite with upd. by rewrite ?(decide_False (P := e = y)) by congruence. }
  intros r st3 (->&Hrl&Hsame&Hn3&Hp3&Hmb3&Hix3).
  apply wp_bind. eapply (wp_linkExtent mbID mx st3 e l1 l2).
  - unfold chain_at. rewrite Hmb3. eapply dlist_ext; [|exact Hch]. intros y Hy. rewrite Hsame; [done|].
    intros ->. apply He. by rewrite Eids.
  - by rewrite <- Eids.
  - done.
  - intros y Hy. rewrite (relinked_null _ _ _ _ _ Hrl). by apply Hadr.
  - done.
  - done.
  - intros st4 Hrl4 Hmbex4 Hoth4 Hch4. apply wp_ret. intros y. apply HQ.
    + by eapply relinked_trans.
    + intros z Hz. rewrite Hoth4 by done. apply Hsame. intros ->. apply Hz.
      apply elem_of_app. right. left.
    + done.
    + unfold mbex_at. rewrite Hmbex4. exact Hix3.
Qed.

End Meta.

(** ** [mapExtent2DelList] *)

(** Freeing the chunks [l] (offset and size) of extent [e], one by one. *)
Definition upd_frees (st : blockData) (mbID e : Z) (l : list (Z * Z)) : blockData :=
  fold_left (fun st p => upd_free st mbID (mkRID e p.1) p.2 e) l st.

Definition frees_fm (fm : gmap dmsRecordID Z) (e : Z) (l : list (Z * Z)) : gmap dmsRecordID Z :=
  fold_left (fun m p => <[mkRID e p.1 := p.2]> m) l fm.
Definition frees_D (D : list (list dmsRecordID)) (e : Z) (l : list (Z * Z)) : list (list dmsRecordID) :=
  fold_left (fun D p => <[slot_of p.2 := mkRID e p.1 :: default [] (D !! slot_of p.2)]> D) l D.

Definition free_chunk (p : Z * Z) : chunk := mkChunk p.1 p.2 false.

Section Map.
  Context (mbID e : Z).

Lemma upd_frees_aux l : forall st x, upd_frees (set_aux st x) mbID e l = set_aux (upd_frees st mbID e l) x.
Proof. induction l as [|p l IH]; intros st x; [done|]. simpl. rewrite <- IH. done. Qed.

Lemma upd_frees_app st l1 l2 : upd_frees st mbID e (l1 ++ l2) = upd_frees (upd_frees st mbID e l1) mbID e l2.
Proof. apply fold_left_app. Qed.

Lemma upd_frees_null l : forall st y, ext_null (upd_frees st mbID e l) y = ext_null st y.
Proof. induction l as [|p l IH]; intros st y; [done|]. simpl. by rewrite IH. Qed.

Lemma frees_lookup l : forall fm r s,
  (forall p, p ∈ l -> fm !! mkRID e p.1 = None) -> NoDup (map fst l) ->
  frees_fm fm e l !! r = Some s <-> fm !! r = Some s \/ (rid_extent r = e /\ (rid_offset r, s) ∈ l).
Proof.
  induction l as [|[o z] l IH]; intros fm r s Hno Hnd; simpl.
  { split; [by left|]. intros [?|[_ Hx]]; [done|]. by apply not_elem_of_nil in Hx. }
  apply NoDup_cons in Hnd as [Hoz Hnd]. simpl in Hoz.
  assert (forall p, p ∈ l -> p.1 <> o) as Hne.
  { intros p Hp E. apply Hoz. rewrite <- E. by apply list_elem_of_fmap_2. }
  rewrite IH; [|intros p Hp|done].
  2: { rewrite lookup_insert_ne; [apply Hno; by right|]. intros [= E]. by apply (Hne p Hp). }
  rewrite lookup_insert_Some, elem_of_cons. destruct r as [re ro]. simpl.
  pose proof (Hno (o, z) ltac:(left)) as Hz. simpl in Hz. split.
  - intros [[[[= <- <-] <-]|[? ?]]|[? ?]]; [right; split; [done|by left]|by left|right; split; [done|by right]].
  - intros [Hf|[-> [[= -> ->]|Hin]]].
    + left. right. split; [|done]. intros [= <- <-]. congruence.
    + left. by left.
    + right. done.
Qed.

Lemma upd_frees_del_ok l : forall st fm D,
  del_ok (rec_at st) (dl_at st mbID) fm D -> 0 <= e ->
  (forall p, p ∈ l -> fm !! mkRID e p.1 = None /\ 1 <= p.2 <= DMS_RECORD_MAX_SZ) ->
  NoDup (map fst l) ->
  del_ok (rec_at (upd_frees st mbID e l)) (dl_at (upd_frees st mbID e l) mbID)
    (frees_fm fm e l) (frees_D D e l).
Proof.
  induction l as [|[o z] l IH]; intros st fm D Hd He Hl Hnd; [done|]. simpl.
  apply NoDup_cons in Hnd as [Hoz Hnd]. destruct (Hl (o, z)) as [Hz Hs]; [left|]. simpl in *.
  apply IH; try done.
  - apply upd_free_del_ok; try done. unfold rid_isNull, DMS_INVALID_EXTENT, DMS_INVALID_OFFSET. simpl.
    destruct (Z.eqb_spec (-1) e); [lia|done].
  - intros p Hp. destruct (Hl p) as [H1 H2]; [by right|]. split; [|done].
    rewrite lookup_insert_ne; [done|]. intros [= E]. apply Hoz. rewrite E. by apply list_elem_of_fmap_2.
Qed.

(** Other cells. *)
Lemma upd_frees_rest l : forall st,
  let st' := upd_frees st mbID e l in
  (forall y, y <> e -> ext_at st' y = ext_at st y) /\
  (forall r, rid_extent r <> e -> rec_at st' r = rec_at st r) /\
  mb_same (mb_at st mbID) (mb_at st' mbID) /\
  mb_flag (mb_at st' mbID) = mb_flag (mb_at st mbID) /\
  mb_logicalID (mb_at st' mbID) = mb_logicalID (mb_at st mbID) /\
  (forall i, i <> mbID -> mb_at st' i = mb_at st i) /\
  bd_mbex st' = bd_mbex st /\ bd_geo st' = bd_geo st /\ bd_dataSegID st' = bd_dataSegID st /\
  bd_seg st' = bd_seg st /\ bd_smeMgr st' = bd_smeMgr st /\ bd_ctx st' = bd_ctx st /\
  bd_latch st' = bd_latch st /\ bd_names st' = bd_names st /\ bd_ids st' = bd_ids st.
Proof.
  induction l as [|p l IH]; intros st; [by split_and!|]. simpl.
  destruct (IH (upd_free st mbID (mkRID e p.1) p.2 e))
    as (I1&I2&(I3a&I3b&I3c&I3d)&I4&I5&I6&I7&I8&I9&I10&I11&I12&I13&I14&I15). split_and!; try done.
  - intros y Hy. rewrite I1 by done. unfold upd_free. autorewrite with upd. by rewrite decide_False by done.
  - intros r Hr. rewrite I2 by done. unfold upd_free. autorewrite with upd.
    rewrite decide_False; [done|]. by intros <-.
  - unfold mb_same. rewrite I3a, I3b, I3c, I3d. unfold upd_free. autorewrite with upd. by rewrite decide_True.
  - rewrite I4. unfold upd_free. autorewrite with upd. by rewrite decide_True.
  - rewrite I5. unfold upd_free. autorewrite with upd. by rewrite decide_True.
  - intros i Hi. rewrite I6 by done. unfold upd_free. autorewrite with upd. by rewrite decide_False.
Qed.

Lemma upd_frees_ext l : forall st,
  0 <= ext_freeSpace (ext_at st e) -> Forall (fun p => 0 <= p.2) l ->
  ext_freeSpace (ext_at st e) + free_sum (map free_chunk l) < 2147483648 ->
  ext_at (upd_frees st mbID e l) e =
  ext_with_freeSpace (ext_at st e) (ext_freeSpace (ext_at st e) + free_sum (map free_chunk l)).
Proof.
  induction l as [|p l IH]; intros st Hp Hl Hb; simpl.
  { unfold free_sum. simpl. rewrite Z.add_0_r. by destruct (ext_at st e). }
  apply Forall_cons in Hl as [Hp2 Hl]. simpl in Hb. rewrite free_sum_cons in *.
  unfold free_size, free_chunk in *. simpl in *. fold (free_sum (map (fun p => mkChunk p.1 p.2 false) l)) in *.
  assert (0 <= free_sum (map free_chunk l)) as Hs.
  { clear -Hl. induction Hl as [|q l Hq _ IH]; [done|]. simpl. rewrite free_sum_cons. unfold free_size.
    simpl. lia. }
  unfold free_chunk in Hs.
  assert (ext_at (upd_free st mbID (mkRID e p.1) p.2 e) e =
    ext_with_freeSpace (ext_at st e) (ext_freeSpace (ext_at st e) + p.2)) as E.
  { unfold upd_free. autorewrite with upd. rewrite decide_True by done. by rewrite i32_id by lia. }
  rewrite IH; rewrite ?E; simpl; try done; try lia. f_equal. lia.
Qed.

(** [k] chunks of [z] bytes from [off] on. *)
Fixpoint equal_chunks (k : nat) (off z : Z) : list (Z * Z) :=
  match k with
  | O => []
  | S k => (off, z) :: equal_chunks k (off + z) z
  end.

Lemma wp_map_loop z (Q : outcome (Z * Z) -> blockData -> Prop) : forall fuel st cur off,
  0 < z -> ext_null st e = false ->
  (forall k x, (k <= fuel)%nat ->
     (k = fuel \/ cur - Z.of_nat k * z - z < DMS_MIN_DELETEDRECORD_SZ) ->
     (k = 0%nat \/ DMS_MIN_DELETEDRECORD_SZ <= cur - Z.of_nat k * z) ->
     Q (Ok (cur - Z.of_nat k * z, off + Z.of_nat k * z))
       (set_aux (upd_frees st mbID e (equal_chunks k off z)) x)) ->
  wp (map_loop fuel mbID e z cur off) Q st.
Proof.
  induction fuel as [|fuel IH]; intros st cur off Hz Hn HQ; simpl.
  - apply wp_ret. specialize (HQ 0%nat (bd_aux st) ltac:(lia) ltac:(by left) ltac:(by left)).
    simpl in HQ. rewrite set_aux_id in HQ. rewrite Z.sub_0_r, Z.add_0_r in HQ. exact HQ.
  - destruct (Z.leb_spec DMS_MIN_DELETEDRECORD_SZ (cur - z)).
    + apply wp_bind, wp_mapOne; [done|done|]. intros x.
      apply IH; [done|done|]. intros k y Hk H1 H2.
      specialize (HQ (S k) y ltac:(lia)). rewrite upd_frees_aux.
      replace (cur - z - Z.of_nat k * z) with (cur - Z.of_nat (S k) * z) in * by lia.
      replace (off + z + Z.of_nat k * z) with (off + Z.of_nat (S k) * z) by lia.
      apply HQ.
      * destruct H1; [left; lia|by right].
      * right. destruct H2 as [->|]; [|done]. lia.
    + apply wp_ret. specialize (HQ 0%nat (bd_aux st) ltac:(lia) ltac:(right; lia) ltac:(by left)).
      simpl in HQ. rewrite set_aux_id in HQ. rewrite Z.sub_0_r, Z.add_0_r in HQ. exact HQ.
Qed.

Lemma equal_chunks_tiling k : forall off z,
  DMS_RECORD_METADATA_SZ <= z <= DMS_RECORD_MAX_SZ ->
  tiling off (off + Z.of_nat k * z) (map free_chunk (equal_chunks k off z)).
Proof.
  induction k as [|k IH]; intros off z Hz; simpl; [lia|].
  split_and!; try done; try lia.
  replace (off + Z.of_nat (S k) * z) with (off + z + Z.of_nat k * z) by lia. by apply IH.
Qed.

(** How an extent with [F] free bytes from [lo] on is cut. *)
Record map_plan (lo F : Z) (l : list (Z * Z)) : Prop := {
  mp_tiles : tiling lo (lo + F) (map free_chunk l);
  mp_one : F <= DMS_RECORD_MAX_SZ -> l = [(lo, F)];
  mp_two : DMS_RECORD_MAX_SZ + DMS_MIN_DELETEDRECORD_SZ <= F <= DMS_RECORD_MAX_SZ + 0x800000 ->
    l = [(lo, DMS_RECORD_MAX_SZ); (lo + DMS_RECORD_MAX_SZ, F - DMS_RECORD_MAX_SZ)]
}.

Lemma wp_mapExtent2DelList st (Q : outcome unit -> blockData -> Prop) :
  let F := ext_freeSpace (ext_at st e) in
  let lo := Z.shiftl (eh_blockSize (ext_header (ext_at st e))) (g_pageSizeSquare (bd_geo st)) - F in
  ext_null st e = false -> DMS_MIN_RECORD_SZ <= F < 2147483648 ->
  (forall l x, map_plan lo F l ->
     Q (Ok tt) (set_aux (upd_frees (ext_upd st e (fun y => ext_with_freeSpace y 0)) mbID e l) x)) ->
  wp (mapExtent2DelList mbID e) Q st.
Proof.
  intros F lo Hn HF HQ. unfold mapExtent2DelList. apply wp_get_bind. cbv zeta. fold F.
  change DMS_MIN_RECORD_SZ with 36 in *. rewrite u32_id by lia.
  destruct (Z.ltb_spec F 36); [lia|]. fold lo.
  apply wp_modify_bind. set (st0 := ext_upd st e _) in *.
  set (z := Z.min F DMS_RECORD_MAX_SZ).
  assert (36 <= z <= DMS_RECORD_MAX_SZ) as Hz by (unfold z, DMS_RECORD_MAX_SZ; lia).
  assert (z = F \/ z = DMS_RECORD_MAX_SZ /\ DMS_RECORD_MAX_SZ < F) as Hz' by (unfold z; lia).
  pose proof (Z.div_mod F z ltac:(lia)) as Hdm. pose proof (Z.mod_pos_bound F z ltac:(lia)) as Hmod.
  pose proof (Z.div_pos F z ltac:(lia) ltac:(lia)) as Hq.
  apply wp_bind, wp_map_loop; [lia|done|]. change DMS_MIN_DELETEDRECORD_SZ with 36 in *.
  intros k x Hk Hstop Hcur. set (cur := F - Z.of_nat k * z) in *.
  assert (0 < cur < z + 36) as Hc.
  { split; [destruct Hcur; subst; unfold cur; lia|]. destruct Hstop as [->|]; unfold cur; [|lia].
    rewrite Z2Nat.id by lia. lia. }
  assert (cur <= F) by (unfold cur; nia).
  pose proof (equal_chunks_tiling k lo z ltac:(unfold DMS_RECORD_METADATA_SZ; lia)) as Ht.
  assert (F <= DMS_RECORD_MAX_SZ -> k = 0%nat) as Hk0.
  { intros HF'. assert (z = F) by (unfold z; lia). destruct k as [|k]; [done|]. exfalso.
    destruct Hcur; [lia|]. unfold cur in *. nia. }
  assert (DMS_RECORD_MAX_SZ + 36 <= F <= DMS_RECORD_MAX_SZ + 0x800000 -> k = 1%nat) as Hk1.
  { unfold DMS_RECORD_MAX_SZ in *. intros HF'. destruct Hz' as [|[Ez _]]; [lia|]. unfold cur in *.
    destruct k as [|[|k]]; [lia|done|]. exfalso. destruct Hcur; [lia|]. nia. }
  apply wp_bind. destruct (Z.ltb_spec z cur).
  - assert (z = DMS_RECORD_MAX_SZ) as Ez by (destruct Hz' as [|[? _]]; [lia|done]).
    apply wp_bind, wp_mapOne; [by rewrite ext_null_set_aux, upd_frees_null|done|]. intros y.
    apply wp_ret. unfold DMS_PAGE_SIZE4K, DMS_RECORD_MAX_SZ in *.
    destruct (Z.ltb_spec 0 (cur - 4096)); [|lia].
    apply wp_mapOne; [|lia|].
    { rewrite ext_null_set_aux. unfold upd_free. autorewrite with upd. by rewrite upd_frees_null. }
    intros w. specialize (HQ (equal_chunks k lo z ++
      [(lo + Z.of_nat k * z, 4096); (lo + Z.of_nat k * z + 4096, cur - 4096)]) w).
    rewrite upd_frees_app in HQ. apply HQ. split.
    + rewrite map_app, tiling_app. eexists. split; [exact Ht|]. simpl.
      unfold DMS_RECORD_METADATA_SZ, DMS_RECORD_MAX_SZ. split_and!; try done; lia.
    + unfold DMS_RECORD_MAX_SZ. lia.
    + intros HF'. specialize (Hk1 HF'). unfold DMS_RECORD_MAX_SZ in HF'. subst k. unfold cur in *. lia.
  - apply wp_ret. destruct (Z.ltb_spec 0 cur); [|lia].
    apply wp_mapOne; [by rewrite ext_null_set_aux, upd_frees_null|lia|]. intros w.
    specialize (HQ (equal_chunks k lo z ++ [(lo + Z.of_nat k * z, cur)]) w).
    rewrite upd_frees_app in HQ. apply HQ. split.
    + rewrite map_app, tiling_app. eexists. split; [exact Ht|]. simpl.
      unfold DMS_RECORD_METADATA_SZ. split_and!; try done; try lia.
    + intros HF'. specialize (Hk0 HF'). subst k. simpl. unfold cur. repeat f_equal; lia.
    + intros HF'. specialize (Hk1 HF'). subst k. simpl. unfold cur, DMS_RECORD_MAX_SZ in *.
      destruct Hz' as [|[-> _]]; [lia|]. repeat f_equal; lia.
Qed.

End Map.

(** ** The collection with the new extent *)

(** A collection whose cells are the same. *)
Lemma col_ok_same mbID hand st st' c :
  col_ok st mbID hand c ->
  (forall e, e ∈ cv_ids c -> ext_at st' e = ext_at st e) ->
  (forall r, rid_extent r ∈ cv_ids c -> rec_at st' r = rec_at st r) ->
  mb_at st' mbID = mb_at st mbID -> mbex_at st' (cv_mx c).1 = mbex_at st (cv_mx c).1 ->
  bd_geo st' = bd_geo st ->
  (forall e, e ∈ cv_ids c \/ e = (cv_mx c).1 -> ext_null st' e = false) ->
  col_ok st' mbID hand c.
Proof.
  intros H He Hr Hb Hx Hg Hn. pose proof H as [H1 H2 H3 H4 H5 H6 H7 H8 H9 H10].
  split; rewrite ?Hg, ?Hb, ?Hx; try done.
  - unfold dl_at. rewrite Hb. eapply del_ok_ext; [|exact H3]. intros r [s Hs]. apply Hr.
    by eapply col_free_extent.
  - rewrite Forall_forall in *. intros v Hv. destruct (H4 v Hv) as [Hok Hnull].
    pose proof (cv_ids_in c v Hv) as Hid. split; [|apply Hn; by left]. rewrite Hg, He by done.
    eapply ext_ok_frame; [exact Hok|done..|]. intros o _. by apply Hr.
  - eapply dlist_ext; [|exact H6]. intros y Hy. by rewrite He.
  - intros r E. destruct (H7 r E) as (v&s&f&Hv&Eid&Ht&Hh&Ho). exists v, s, f.
    rewrite Hr; [done|]. rewrite <- Eid. by apply cv_ids_in.
  - apply Hn. by right.
Qed.

Section Add.
  Context (mbID : Z).

Definition new_ext (e n : Z) (l : list (Z * Z)) : extView := mkEV e n (map free_chunk l) [].

Lemma free_tiles_used l : used_offs (map free_chunk l) = [].
Proof. induction l as [|p l IH]; [done|]. simpl. by rewrite used_offs_cons. Qed.

Lemma free_tiles_in l o s u : mkChunk o s u ∈ map free_chunk l <-> u = false /\ (o, s) ∈ l.
Proof.
  rewrite list_elem_of_In, in_map_iff. split.
  - intros ([o' s']&[= <- <- <-]&Hin%list_elem_of_In). done.
  - intros [-> Hin]. exists (o, s). split; [done|]. by apply list_elem_of_In.
Qed.

Lemma tiles_offs_nodup l : forall lo hi, tiling lo hi (map free_chunk l) -> NoDup (map fst l).
Proof.
  induction l as [|p l IH]; intros lo hi; simpl; [constructor|].
  intros (<-&Hs&Ht). apply NoDup_cons. split; [|by eapply IH].
  intros Hin. apply list_elem_of_In, in_map_iff in Hin as ([o s]&E&Hin%list_elem_of_In). simpl in E. subst o.
  assert (mkChunk p.1 s false ∈ map free_chunk l) as Hc by (by apply free_tiles_in).
  apply (tiling_bounds _ _ _ _ Ht) in Hc as (Hb&_&_). simpl in *. unfold DMS_RECORD_METADATA_SZ in Hs. lia.
Qed.

Lemma col_add st3 st4 c e n l vs1 vs2 x :
  let size := n * g_pageSize (bd_geo st3) in
  let st5 := set_aux (upd_frees (ext_upd st4 e (fun y => ext_with_freeSpace y 0)) mbID e l) x in
  col_ok st3 mbID None c -> e ∉ cv_ids c -> 0 <= e -> ext_null st3 e = false ->
  1 <= n <= g_segmentPages (bd_geo st3) ->
  ext_at st3 e = ext_init n mbID size ->
  relinked mbID (cv_mx c).1 st3 st4 ->
  cv_exts c = vs1 ++ vs2 ->
  chain_at mbID st4 (map ev_id vs1 ++ e :: map ev_id vs2) ->
  index_ok (bd_geo st3) (mbex_at st4 (cv_mx c).1) (map ev_id vs1 ++ e :: map ev_id vs2) ->
  tiling DMS_EXTENT_METADATA_SZ size (map free_chunk l) ->
  col_ok st5 mbID None
    (mkCV (vs1 ++ new_ext e n l :: vs2) (frees_fm (cv_fm c) e l) (frees_D (cv_D c) e l) (cv_mx c)).
Proof.
  intros size st5 H He Hpos Hnull Hn Hinit Hrl Ee Hch Hix Ht.
  set (st4' := ext_upd st4 e (fun y => ext_with_freeSpace y 0)) in *.
  pose proof H as [H1 H2 H3 H4 H5 H6 H7 H8 H9 H10].
  destruct (upd_frees_rest mbID e l st4') as (R1&R2&(R3a&R3b&R3c&R3d)&_&_&_&R7&R8&R9&R10&_).
  assert (forall y, ext_null st5 y = ext_null st3 y) as Hnul.
  { intros y. unfold st5. rewrite ext_null_set_aux, upd_frees_null. unfold st4'. autorewrite with upd.
    by apply (relinked_null _ _ _ _ _ Hrl). }
  assert (forall y, y <> e -> ext_at st5 y = ext_at st4 y) as Hext.
  { intros y Hy. unfold st5. autorewrite with upd. rewrite R1 by done. unfold st4'. autorewrite with upd.
    by rewrite decide_False by done. }
  assert (forall r, rid_extent r <> e -> rec_at st5 r = rec_at st3 r) as Hrec.
  { intros r Hr. unfold st5. autorewrite with upd. rewrite R2 by done. unfold st4'. autorewrite with upd.
    by apply (relinked_rec _ _ _ _ _ Hrl). }
  assert (bd_geo st5 = bd_geo st3) as Hgeo by (etransitivity; [exact R8|apply Hrl]).
  assert (Forall (fun p => 0 <= p.2) l) as Hl0.
  { apply Forall_forall. intros [o s] Hp. assert (mkChunk o s false ∈ map free_chunk l) as Hc by (by apply free_tiles_in).
    apply (tiling_bounds _ _ _ _ Ht) in Hc as (_&_&Hb). simpl in *. unfold DMS_RECORD_METADATA_SZ in Hb. lia. }
  pose proof (free_sum_bound _ _ _ Ht) as Hsum.
  assert (size <= 134217728) as Hsz by (apply (ext_size_bound (bd_geo st3) (new_ext e n l) H1 Hn)).
  destruct (rl_ext _ _ _ _ Hrl e) as (E1&E2&E3&E4&E5). rewrite Hinit in E1, E2, E3, E4, E5.
  assert (ext_at st4' e = ext_with_freeSpace (ext_at st4 e) 0) as E4'.
  { unfold st4'. autorewrite with upd. by rewrite decide_True. }
  assert (ext_at st5 e = ext_with_freeSpace (ext_at st4 e) (free_sum (map free_chunk l))) as Hexte.
  { unfold st5. autorewrite with upd. rewrite upd_frees_ext; rewrite ?E4'; simpl; try done; try lia.
    unfold DMS_EXTENT_METADATA_SZ in Hsum. lia. }
  destruct (rl_mb _ _ _ _ Hrl) as (M1&M2&_&_&M5).
  assert (forall p, p ∈ l -> cv_fm c !! mkRID e p.1 = None /\ 1 <= p.2 <= DMS_RECORD_MAX_SZ) as Hl.
  { intros [o s] Hp. split.
    - destruct (cv_fm c !! _) eqn:Ef; [|done]. eapply col_free_extent in Ef; [|exact H]. done.
    - assert (mkChunk o s false ∈ map free_chunk l) as Hc by (by apply free_tiles_in).
      apply (tiling_bounds _ _ _ _ Ht) in Hc as (_&_&Hb). simpl in *. unfold DMS_RECORD_METADATA_SZ in Hb. lia. }
  pose proof (tiles_offs_nodup _ _ _ Ht) as Hnd.
  split; cbn [cv_exts cv_fm cv_D cv_mx]; rewrite ?Hgeo; try done.
  - change (mb_at st5 mbID) with (mb_at (upd_frees st4' mbID e l) mbID). rewrite R3a.
    change (mb_at st4' mbID) with (mb_at st4 mbID). congruence.
  - apply upd_frees_del_ok; try done. change (rec_at st4') with (rec_at st4).
    change (dl_at st4' mbID) with (dl_at st4 mbID). unfold dl_at. rewrite M1.
    eapply del_ok_ext; [|exact H3]. intros r _. by apply (relinked_rec _ _ _ _ _ Hrl).
  - assert (forall u, u ∈ cv_exts c -> ext_good st5 mbID None u) as Hold.
    { intros u Hu. rewrite Forall_forall in H4. destruct (H4 u Hu) as [Hok Hnu].
      assert (ev_id u <> e) as Hne by (intros <-; apply He; by apply cv_ids_in).
      split; [|by rewrite Hnul]. rewrite Hgeo, Hext by done.
      destruct (rl_ext _ _ _ _ Hrl (ev_id u)) as (?&?&?&?&?).
      eapply ext_ok_frame; [exact Hok|done..|]. intros o _. by apply Hrec. }
    apply Forall_app. split; [|apply Forall_cons; split]; [| |].
    + apply Forall_forall. intros u Hu. apply Hold. rewrite Ee. set_solver.
    + split; [|simpl; by rewrite Hnul]. rewrite Hgeo. cbn [ev_id new_ext]. rewrite Hexte.
      split; cbn [ev_pages ev_tiles ev_recs new_ext]; simpl; try done.
      * by rewrite free_tiles_used.
      * rewrite E3, E4. split; [done|done|constructor].
      * intros o d s' Hx. by apply not_elem_of_nil in Hx.
    + apply Forall_forall. intros u Hu. apply Hold. rewrite Ee. set_solver.
  - intros r s. rewrite frees_lookup; [|by apply Hl|done]. rewrite H5, Ee.
    unfold free_at. split.
    + intros [(u&Hu&Eu&Hc)|[Er Hin]].
      * exists u. set_solver.
      * exists (new_ext e n l). split; [set_solver|]. split; [done|]. simpl. by apply free_tiles_in.
    + intros (u&Hu&Eu&Hc). rewrite elem_of_app, elem_of_cons in Hu.
      destruct Hu as [Hu|[->|Hu]]; [left; exists u; set_solver| |left; exists u; set_solver].
      right. simpl in *. by apply free_tiles_in in Hc as [_ ?].
  - unfold cv_ids. simpl. rewrite map_app. simpl.
    change (mb_at st5 mbID) with (mb_at (upd_frees st4' mbID e l) mbID). rewrite R3b, R3c.
    change (mb_at st4' mbID) with (mb_at st4 mbID).
    eapply dlist_ext; [|exact Hch]. intros y _.
    destruct (decide (y = e)) as [->|Hne]; [by rewrite Hexte|by rewrite Hext].
  - change (mb_at st5 mbID) with (mb_at (upd_frees st4' mbID e l) mbID). rewrite R3d.
    change (mb_at st4' mbID) with (mb_at st4 mbID). congruence.
  - by rewrite Hnul.
  - unfold cv_ids. simpl. rewrite map_app. simpl.
    replace (mbex_at st5 (cv_mx c).1) with (mbex_at st4 (cv_mx c).1); [done|].
    unfold mbex_at. simpl. by rewrite R7.
Qed.

End Add.
