(* ===== verification/DmsInsertOk.v ===== *)
(** * Insertion is correct

    Allocating an extent, finding space for a record and inserting it, against
    the view of the collection: the result is an error and the same contents,
    or the contents with the record added. *)
From S2P Require Import Prelude.
From S2P Require Import ByteBits.
From S2P Require Import Links.
From S2P Require Import OssBase.
From S2P Require Import OssMmap.
From S2P Require Import DmsBase.
From S2P Require Import DmsName.
From S2P Require Import DmsSegmentSpace.
From S2P Require Import DmsSMEMgr.
From S2P Require Import DmsRecord.
From S2P Require Import DmsDirtyList.
From S2P Require Import DmsMBContext.
From S2P Require Import DmsExtent.
From S2P Require Import DmsMB.
From S2P Require Import Bson.
From S2P Require Import DmsStore.
From S2P Require Import DmsInsert.
From S2P Require Import DmsSize.
From S2P Require Import DmsWp.
From S2P Require Import DmsDelete.
From S2P Require Import DmsView.
From S2P Require Import DmsCol.
From S2P Require Import DmsSpaceOk.
From S2P Require Import DmsAlloc.
#[local] Open Scope Z_scope.

(** ** Frames and ownership *)

(** Outside collection [mbID], its index [mx] and the extents [E] nothing
    changes. *)
Record frame (mbID mx : Z) (E : list Z) (st st' : blockData) : Prop := {
  fr_ext : forall y, y ∉ E -> ext_at st' y = ext_at st y;
  fr_rec : forall r, rid_extent r ∉ E -> rec_at st' r = rec_at st r;
  fr_mb : forall i, i <> mbID -> mb_at st' i = mb_at st i;
  fr_mbex : forall y, y <> mx -> mbex_at st' y = mbex_at st y;
  fr_geo : bd_geo st' = bd_geo st;
  fr_dataseg : bd_dataSegID st' = bd_dataSegID st;
  fr_names : bd_names st' = bd_names st /\ bd_ids st' = bd_ids st
}.

Lemma frame_cells mbID mx E st st' : cells_eq st st' -> frame mbID mx E st st'.
Proof.
  intros H. destruct (cells_at _ _ H) as (H1&H2&H3&H4). destruct H. split; intros; auto.
Qed.

Lemma frame_trans mbID mx E E' st1 st2 st3 :
  E ⊆ E' -> frame mbID mx E st1 st2 -> frame mbID mx E' st2 st3 -> frame mbID mx E' st1 st3.
Proof.
  intros HE [A1 A2 A3 A4 A5 A6 [A7 A8]] [B1 B2 B3 B4 B5 B6 [B7 B8]].
  split; try congruence; [| | | |split; congruence]; intros; rewrite ?B1, ?B2, ?B3, ?B4 by done; auto.
Qed.

Lemma frame_refl mbID mx E st : frame mbID mx E st st.
Proof. by split. Qed.

Lemma frame_ext_upd mbID mx E st e f : e ∈ E -> frame mbID mx E st (ext_upd st e f).
Proof.
  intros He. split; try done. intros y Hy. autorewrite with upd. rewrite decide_False; [done|]. by intros ->.
Qed.

Lemma frame_rec_upd mbID mx E st r f : rid_extent r ∈ E -> frame mbID mx E st (rec_upd st r f).
Proof.
  intros He. split; try done. intros y Hy. autorewrite with upd. rewrite decide_False; [done|]. by intros ->.
Qed.

Lemma frame_mb_upd mbID mx E st f : frame mbID mx E st (mb_upd st mbID f).
Proof. split; try done. intros i Hi. autorewrite with upd. by rewrite decide_False. Qed.

Lemma frame_stat_upd mbID mx E st i f : frame mbID mx E st (stat_upd st i f).
Proof. by split. Qed.

Lemma frame_aux mbID mx E st x : frame mbID mx E st (set_aux st x).
Proof. by split. Qed.

Ltac framed :=
  repeat first [apply frame_refl
    | match goal with
      | |- frame _ _ _ _ (ext_upd ?s _ _) => eapply (frame_trans _ _ _ _ _ s); [done| |apply frame_ext_upd]
      | |- frame _ _ _ _ (rec_upd ?s _ _) => eapply (frame_trans _ _ _ _ _ s); [done| |apply frame_rec_upd]
      | |- frame _ _ _ _ (mb_upd ?s _ _) => eapply (frame_trans _ _ _ _ _ s); [done| |apply frame_mb_upd]
      | |- frame _ _ _ _ (stat_upd ?s _ _) => eapply (frame_trans _ _ _ _ _ s); [done| |apply frame_stat_upd]
      | |- frame _ _ _ _ (set_aux ?s _) => eapply (frame_trans _ _ _ _ _ s); [done| |apply frame_aux]
      end ].

Lemma frame_relinked mbID mx E st st' :
  relinked mbID mx st st' -> (forall y, y ∉ E -> ext_at st' y = ext_at st y) ->
  frame mbID mx E st st'.
Proof.
  intros H He. split; try apply H; try done. intros r _. by eapply relinked_rec.
Qed.

(** The runs of the collection are among the held ones. *)
Definition owns (held : list (Z * Z)) (c : colView) : Prop := cv_runs c ⊆+ held.

Lemma owns_in held c r : owns held c -> r ∈ cv_runs c -> r ∈ held.
Proof. intros H Hr. by eapply elem_of_submseteq. Qed.

Lemma owns_cons held c r : owns held c -> owns (r :: held) c.
Proof. unfold owns. intros H. by apply submseteq_cons. Qed.

(** A newly reserved run starts outside every held one. *)
Lemma reserved_fresh st e n held a m :
  space_ok st ((e, n) :: held) -> (a, m) ∈ held -> ~ in_run a m e.
Proof.
  intros H Hin Hrun. apply list_elem_of_split in Hin as (h1&h2&->).
  destruct (space_adr _ _ e n H) as (_&_&_&Hn&_); [left|].
  eapply (held_disjoint _ _ [] e n h1 a m h2 e); [exact H|done| |done]. unfold in_run. lia.
Qed.

Lemma owns_adr st held c e :
  space_ok st held -> owns held c -> e ∈ cv_ids c \/ e = (cv_mx c).1 -> ext_null st e = false.
Proof.
  intros H Ho He. assert (exists n, (e, n) ∈ held) as [n Hn].
  { destruct He as [He| ->].
    - apply list_elem_of_In, in_map_iff in He as (v&<-&Hv%list_elem_of_In). exists (ev_pages v).
      eapply owns_in; [exact Ho|]. right. by apply (list_elem_of_fmap_2 (fun v => (ev_id v, ev_pages v))).
    - exists (cv_mx c).2. eapply owns_in; [exact Ho|]. rewrite <- surjective_pairing. left. }
  by destruct (space_adr _ _ _ _ H Hn).
Qed.

Lemma reserved_not_in st e n held c :
  space_ok st ((e, n) :: held) -> owns held c -> Forall (fun r => 0 < r.2) (cv_runs c) ->
  e ∉ cv_ids c /\ e <> (cv_mx c).1.
Proof.
  intros H Ho Hp. rewrite Forall_forall in Hp.
  assert (forall a m, (a, m) ∈ cv_runs c -> e <> a) as Hne.
  { intros a m Hin ->. apply (reserved_fresh _ _ _ _ _ _ H (owns_in _ _ _ Ho Hin)).
    specialize (Hp _ Hin). simpl in Hp. unfold in_run. lia. }
  split.
  - intros He. apply list_elem_of_In, in_map_iff in He as (v&Ev&Hv%list_elem_of_In).
    eapply (Hne (ev_id v) (ev_pages v)); [|done]. right.
    by apply (list_elem_of_fmap_2 (fun v => (ev_id v, ev_pages v))).
  - eapply (Hne _ (cv_mx c).2). rewrite <- surjective_pairing. left.
Qed.

Lemma held_pos st held c :
  space_ok st held -> owns held c -> Forall (fun r => 0 < r.2) (cv_runs c).
Proof.
  intros H Ho. apply Forall_forall. intros [a m] Hr. apply (owns_in _ _ _ Ho) in Hr.
  destruct (space_adr _ _ _ _ H Hr) as (_&_&_&?&_). simpl. lia.
Qed.

(** ** [allocateExtent] *)

(** The view with a new extent, [l] its chunks. *)
Definition added (g : bdGeometry) (c : colView) (e n : Z) (l : list (Z * Z)) (c' : colView) : Prop :=
  exists vs1 vs2, cv_exts c = vs1 ++ vs2 /\ cv_exts c' = vs1 ++ new_ext e n l :: vs2 /\
    cv_fm c' = frees_fm (cv_fm c) e l /\ cv_D c' = frees_D (cv_D c) e l /\ cv_mx c' = cv_mx c /\
    map_plan DMS_EXTENT_METADATA_SZ (n * g_pageSize g - DMS_EXTENT_METADATA_SZ) l.

Section Allocate.
  Context (os : nat -> Z) (mbID : Z).

Definition alloc_post (st : blockData) (held : list (Z * Z)) (c : colView) (n : Z)
    (r : outcome (Z * Z)) (st' : blockData) : Prop :=
  match r with
  | Ok (rc, e) =>
      sole st' mbID EXCLUSIVE /\
      ((rc <> SDB_OK /\ space_ok st' held /\ cells_eq st st') \/
       (rc = SDB_OK /\ space_ok st' ((e, n) :: held) /\ e ∉ cv_ids c /\
        frame mbID (cv_mx c).1 (e :: cv_ids c) st st' /\
        exists l c', added (bd_geo st) c e n l c' /\ col_ok st' mbID None c'))
  | Throw _ => False
  | Stop w => w = Panic
  end.

Lemma space_ok_cells st st' held :
  space_ok st held -> bd_geo st' = bd_geo st -> bd_dataSegID st' = bd_dataSegID st ->
  bd_seg st' = bd_seg st -> bd_smeMgr st' = bd_smeMgr st -> space_ok st' held.
Proof.
  intros [H1 H2 H3 H4 H5 H6] E1 E2 E3 E4. unfold bd_maxSegID in *.
  split; unfold bd_maxSegID; congruence.
Qed.

Lemma sole_aux st t x : sole st mbID t -> sole (set_aux st x) mbID t.
Proof. intros H. by eapply sole_frame. Qed.

Lemma space_ok_aux st held x : space_ok st held -> space_ok (set_aux st x) held.
Proof. intros H. by eapply space_ok_cells. Qed.

Lemma ext_init_space n mb size :
  DMS_EXTENT_METADATA_SZ <= size < 2147483648 ->
  ext_freeSpace (ext_init n mb size) = size - DMS_EXTENT_METADATA_SZ.
Proof. intros H. simpl. unfold DMS_EXTENT_METADATA_SZ in *. rewrite u32_id, i32_id; lia. Qed.

Lemma col_cells hand st st' c held :
  col_ok st mbID hand c -> cells_eq st st' -> space_ok st' held -> owns held c ->
  col_ok st' mbID hand c.
Proof.
  intros H Hc Hs Ho. destruct (cells_at _ _ Hc) as (C1&C2&C3&C4).
  eapply col_ok_same; [exact H|auto..|apply Hc|]. intros e He. by eapply owns_adr.
Qed.

Lemma wp_allocateExtent n t st held c :
  col_ok st mbID None c -> space_ok st held -> owns held c -> sole st mbID t ->
  1 <= n <= g_segmentPages (bd_geo st) ->
  wp (allocateExtent os n true false) (alloc_post st held c n) st.
Proof.
  intros H Hs Ho Hso Hn. pose proof (co_geo _ _ _ _ H) as (Hp&Hps&Hsq&Hsp&_).
  unfold allocateExtent. apply wp_scope. intros a0. apply wp_get_bind. cbv zeta.
  cbn [bd_ctx bd_geo set_aux]. rewrite (so_id _ _ _ Hso).
  destruct (Z.ltb_spec (g_segmentPages (bd_geo st)) n); [lia|].
  destruct (Z.ltb_spec n 1); [lia|]. simpl orb. cbv iota.
  apply wp_bind. eapply (wp_ctx_mbLock mbID); [by apply sole_aux|].
  intros st1 Hl1 Hso1. simpl negb. cbv iota.
  assert (cells_eq st st1) as Hc1.
  { eapply (cells_eq_trans _ (set_aux st a0)); [by split|by apply lock_only_cells]. }
  assert (space_ok st1 held) as Hs1 by (eapply space_ok_lock; [exact Hl1|by apply space_ok_aux]).
  apply wp_bind. eapply wp_mono.
  { apply (wp_findFreeSpace os mbID true n st1 held); [done| |done].
    rewrite (ce_geo _ _ Hc1). lia. }
  intros r st2 (Hc12&_&Hr). pose proof (cells_eq_trans _ _ _ Hc1 Hc12) as Hc2.
  destruct r as [[rc e]| |w]; [|done|by subst]. destruct Hr as [Hso2 Hr].
  destruct (Z.eqb_spec rc 0) as [->|Hrc]; simpl negb; cbv iota.
  2: { apply wp_ret. intros y. destruct Hr as [(->&_)|(_&_&Hs2)]; [done|].
       split; [by apply sole_aux|]. left. split; [done|]. split; [by apply space_ok_aux|].
       eapply cells_eq_trans; [exact Hc2|]. by split. }
  destruct Hr as [(_&Hpos&Hs2)|[? _]]; [|done].
  unfold DMS_INVALID_EXTENT at 1. destruct (Z.eqb_spec (-1) e); [lia|].
  destruct (space_adr _ _ e n Hs2) as (Hnull&_&Hmax&Hn16&Hseg); [left|].
  destruct (reserved_not_in _ _ _ _ _ Hs2 Ho (held_pos _ _ _ Hs Ho)) as [Hnin Hnmx].
  apply wp_bind, wp_extWritePtr; [done|]. intros a1. simpl negb. cbv iota.
  apply wp_get_bind. cbn [bd_geo set_aux]. rewrite (ce_geo _ _ Hc2).
  set (size := n * g_pageSize (bd_geo st)).
  assert (u32 (Z.shiftl n (g_pageSizeSquare (bd_geo st))) = size) as ->.
  { rewrite shiftl_mul by lia. rewrite <- Hps. fold size. apply u32_id.
    pose proof (ext_size_bound (bd_geo st) (new_ext e n []) (co_geo _ _ _ _ H) Hn) as Hb. simpl in Hb.
    fold size in Hb. assert (0 < g_pageSize (bd_geo st)) by (rewrite Hps; apply Z.pow_pos_nonneg; lia).
    unfold size in *. nia. }
  apply wp_modify_bind. set (st3 := ext_upd (set_aux st2 a1) e _).
  destruct (cells_at _ _ Hc2) as (C1&C2&C3&C4).
  assert (col_ok st3 mbID None c) as Hcol3.
  { eapply col_ok_same; [exact H|..].
    - intros y Hy. unfold st3. autorewrite with upd. rewrite decide_False; [apply C1|]. by intros ->.
    - intros y _. apply C2.
    - apply C3.
    - apply C4.
    - apply Hc2.
    - intros y Hy. unfold st3. autorewrite with upd. eapply owns_adr; [exact Hs2| |exact Hy].
      by apply owns_cons. }
  assert (ext_at st3 e = ext_init n mbID size) as Hinit.
  { unfold st3. autorewrite with upd. by rewrite decide_True. }
  assert (bd_geo st3 = bd_geo st) as Hg3 by apply Hc2.
  assert (sole st3 mbID EXCLUSIVE) as Hso3 by (by eapply sole_frame).
  set (s := seg_of (bd_geo st3) e).
  destruct (map_eq_app ev_id (cv_exts c) (upto_seg (bd_geo st3) s (cv_ids c)) (after_seg (bd_geo st3) s (cv_ids c)))
    as (vs1&vs2&Ee&Ev1&Ev2).
  { apply (sorted_split (bd_geo st3) s). apply (ix_sorted _ _ _ (co_index _ _ _ _ Hcol3)). }
  apply wp_bind. eapply (wp_addExtent2Meta mbID st3 c e); try done.
  - lia.
  - by rewrite Hinit.
  - by rewrite Hinit.
  - fold s. rewrite <- Ev1, <- Ev2. intros st4 a4 Hrl Hoth Hch Hix. simpl negb. cbv iota.
    destruct (rl_ext _ _ _ _ Hrl e) as (X1&_&_&_&X5). rewrite Hinit in X1, X5.
    pose proof (ext_size_bound (bd_geo st) (new_ext e n []) (co_geo _ _ _ _ H) Hn) as Hb. simpl in Hb.
    fold size in Hb.
    assert (4096 <= size) as Hb'.
    { assert (2 ^ 12 <= g_pageSize (bd_geo st)) by (rewrite Hps; apply Z.pow_le_mono_r; lia).
      unfold size. nia. }
    rewrite ext_init_space in X5 by (unfold DMS_EXTENT_METADATA_SZ; lia).
    assert (bd_geo st4 = bd_geo st) as Hg4 by (etransitivity; [apply Hrl|done]).
    apply wp_bind. eapply (wp_mapExtent2DelList mbID e).
    + autorewrite with upd. rewrite (relinked_null _ _ _ _ _ Hrl). done.
    + autorewrite with upd. rewrite X5. unfold DMS_EXTENT_METADATA_SZ, DMS_MIN_RECORD_SZ,
        DMS_MIN_DELETEDRECORD_SZ, DMS_DELETEDRECORD_METADATA_SZ. lia.
    + autorewrite with upd. rewrite X5, X1. cbn [bd_geo set_aux]. rewrite Hg4.
      cbn [eh_blockSize ext_header ext_init]. rewrite shiftl_mul by lia. rewrite <- Hps. fold size.
      replace (size - (size - DMS_EXTENT_METADATA_SZ)) with DMS_EXTENT_METADATA_SZ by lia.
      intros l a5 Hplan. apply wp_ret. intros a6.
      assert (tiling DMS_EXTENT_METADATA_SZ (n * g_pageSize (bd_geo st3)) (map free_chunk l)) as Ht.
      { rewrite Hg3. fold size. pose proof (mp_tiles _ _ _ Hplan) as Ht.
        replace (DMS_EXTENT_METADATA_SZ + (size - DMS_EXTENT_METADATA_SZ)) with size in Ht by lia. done. }
      pose proof (col_add mbID st3 st4 c e n l vs1 vs2 a6 Hcol3 Hnin Hpos Hnull
        ltac:(by rewrite Hg3) ltac:(by rewrite Hg3) Hrl Ee Hch Hix Ht) as Hcol5.
      change (ext_upd (set_aux st4 a4) e ?f) with (set_aux (ext_upd st4 e f) a4).
      rewrite upd_frees_aux.
      destruct (upd_frees_rest mbID e l (ext_upd st4 e (fun y => ext_with_freeSpace y 0)))
        as (R1&R2&_&R4&R5&R6&R7&R8&R9&R10&R11&R12&R13&R14&R15).
      destruct (rl_mb _ _ _ _ Hrl) as (_&_&M3&M4&_). destruct (rl_lock _ _ _ _ Hrl) as [L1 L2].
      destruct (rl_names _ _ _ _ Hrl) as [N1 N2]. destruct (ce_names _ _ Hc2) as [N3 N4].
      split.
      { eapply (sole_frame mbID st3); [done|..]; simpl; rewrite ?R12, ?R13; try done.
        - rewrite !mb_at_set_aux. rewrite R4. done.
        - rewrite !mb_at_set_aux. rewrite R5. done. }
      right. split; [done|]. split.
      { eapply (space_ok_cells st2); [exact Hs2|..]; simpl; rewrite ?R8, ?R9, ?R10, ?R11; simpl.
        - by rewrite Hg4, (ce_geo _ _ Hc2).
        - by rewrite (rl_dataseg _ _ _ _ Hrl).
        - by rewrite (rl_seg _ _ _ _ Hrl).
        - by rewrite (rl_sme _ _ _ _ Hrl). }
      split; [done|]. split.
      { split; simpl.
        - intros y Hy. rewrite !ext_at_set_aux. apply not_elem_of_cons in Hy as [Hy1 Hy2].
          rewrite R1 by done. autorewrite with upd. rewrite decide_False by congruence.
          rewrite Hoth.
          + unfold st3. autorewrite with upd. rewrite decide_False by congruence. apply C1.
          + rewrite Ev1, Ev2. intros Hin. rewrite elem_of_app, elem_of_cons in Hin.
            destruct Hin as [Hin|[->|Hin]]; [|done|]; apply list_elem_of_filter in Hin as [_ Hin]; done.
        - intros r Hr. rewrite !rec_at_set_aux.
          apply not_elem_of_cons in Hr as [Hr1 Hr2]. rewrite R2 by done. autorewrite with upd.
          rewrite (relinked_rec _ _ _ _ _ Hrl). apply C2.
        - intros i Hi. rewrite !mb_at_set_aux. rewrite R6 by done.
          autorewrite with upd. rewrite (rl_mbs _ _ _ _ Hrl) by done. apply C3.
        - intros y Hy. unfold mbex_at. simpl. rewrite R7. simpl. fold (mbex_at st4 y).
          rewrite (rl_mbex _ _ _ _ Hrl) by done. apply C4.
        - by rewrite R8.
        - rewrite R9. simpl. rewrite (rl_dataseg _ _ _ _ Hrl). apply Hc2.
        - rewrite R14, R15. simpl. rewrite N1, N2. done. }
      eexists l, _. split; [|exact Hcol5]. exists vs1, vs2. split_and!; try done.
Qed.

End Allocate.

(** ** [allocRecordSpace] *)

(** The collection has grown from [c] to [c'] on pages of its own. *)
Definition grows (held : list (Z * Z)) (c : colView) (held' : list (Z * Z)) (c' : colView) : Prop :=
  forall rest, held ≡ₚ rest ++ cv_runs c -> held' ≡ₚ rest ++ cv_runs c'.

Lemma grows_trans h1 c1 h2 c2 h3 c3 : grows h1 c1 h2 c2 -> grows h2 c2 h3 c3 -> grows h1 c1 h3 c3.
Proof. intros H1 H2 rest Hr. by apply H2, H1. Qed.

Lemma grows_same held c c' : cv_runs c' = cv_runs c -> grows held c held c'.
Proof. intros E rest Hr. by rewrite E. Qed.

Lemma owns_perm held c : owns held c <-> exists rest, held ≡ₚ rest ++ cv_runs c.
Proof.
  unfold owns. split.
  - intros [k Hk]%submseteq_Permutation. exists k. by rewrite Hk, Permutation_app_comm.
  - intros [k ->]. by apply submseteq_inserts_l.
Qed.

Lemma grows_owns h1 c1 h2 c2 : grows h1 c1 h2 c2 -> owns h1 c1 -> owns h2 c2.
Proof. intros H [rest Hr]%owns_perm. apply owns_perm. exists rest. by apply H. Qed.

Lemma contents_mid vs1 v vs2 fm D mx :
  contents (mkCV (vs1 ++ v :: vs2) fm D mx) =
  concat (map ext_contents vs1) ++ ext_contents v ++ concat (map ext_contents vs2).
Proof. unfold contents. simpl. rewrite map_app, concat_app. done. Qed.

Lemma added_grows g c e n l c' held :
  added g c e n l c' -> grows held c ((e, n) :: held) c' /\ contents c' = contents c /\
    cv_ids c ⊆ cv_ids c' /\ e ∈ cv_ids c'.
Proof.
  intros (vs1&vs2&E1&E2&E3&E4&E5&_). split_and!.
  - intros rest Hr. rewrite Hr. unfold cv_runs. rewrite E5, E1, E2, !map_app. simpl. solve_Permutation.
  - destruct c as [ex fm D mx], c' as [ex' fm' D' mx']. simpl in *. subst.
    rewrite contents_mid. unfold contents. simpl. by rewrite map_app, concat_app.
  - unfold cv_ids. rewrite E1, E2, !map_app. simpl. set_solver.
  - unfold cv_ids. rewrite E2, map_app. simpl. set_solver.
Qed.

(** A chunk of at least [req] bytes heads its list. *)
Definition has_fit (c : colView) (req : Z) : Prop :=
  exists r s, cv_fm c !! r = Some s /\ req <= s /\ head (default [] (cv_D c !! slot_of s)) = Some r.

(** A new extent for a record of [req] bytes has a chunk that fits. *)
Lemma added_fit g c e n l c' req :
  added g c e n l c' -> geometry_ok g -> length (cv_D c) = mb_max -> 1 <= req <= DMS_RECORD_MAX_SZ ->
  n = required_pages g req -> (forall o, cv_fm c !! mkRID e o = None) -> has_fit c' req.
Proof.
  intros (vs1&vs2&_&_&E3&E4&_&Hplan) Hg Hlen Hreq -> Hno.
  destruct (required_pages_bounds g req Hg Hreq) as (Hn&_&Hfit&Hmax).
  destruct Hg as (Hp&Hps&_). set (n := required_pages g req) in *.
  set (F := n * g_pageSize g - DMS_EXTENT_METADATA_SZ) in *.
  assert (2 ^ 12 <= g_pageSize g <= 2 ^ 16) as Hpb.
  { rewrite Hps. split; apply Z.pow_le_mono_r; lia. }
  unfold DMS_RECORD_MAX_SZ in *. change (2 ^ 12) with 4096 in *. change (2 ^ 16) with 65536 in *.
  destruct (Z.le_gt_cases F 16777216) as [HF|HF].
  - rewrite (mp_one _ _ _ Hplan HF) in *. exists (mkRID e DMS_EXTENT_METADATA_SZ), F.
    rewrite E3, E4. simpl. rewrite lookup_insert_eq. split_and!; [done|lia|].
    rewrite list_lookup_insert_eq; [done|]. rewrite Hlen. apply slot_of_lt. unfold DMS_RECORD_MAX_SZ. lia.
  - assert (16777216 + 36 <= F <= 16777216 + 8388608) as HF2.
    { split; [|lia]. assert (g_pageSize g | 16777216) as [k Hk].
      { rewrite Hps. exists (2 ^ (24 - g_pageSizeSquare g)). rewrite <- Z.pow_add_r by lia.
        by replace (24 - _ + _) with 24 by lia. }
      unfold F, DMS_EXTENT_METADATA_SZ in *. assert (k < n) by (apply (Z.mul_lt_mono_pos_r (g_pageSize g)); lia).
      assert ((k + 1) * g_pageSize g <= n * g_pageSize g) by (apply Z.mul_le_mono_nonneg_r; lia). lia. }
    rewrite (mp_two _ _ _ Hplan HF2) in *. unfold DMS_RECORD_MAX_SZ in *.
    exists (mkRID e DMS_EXTENT_METADATA_SZ), 16777216. rewrite E3, E4. simpl.
    assert (slot_of 16777216 <> slot_of (F - 16777216)) as Hslot.
    { assert (delete_slot (F - 16777216) <= delete_slot 8388608)
        by (apply delete_slot_mono; unfold DMS_RECORD_MAX_SZ; lia).
      unfold slot_of. change (delete_slot 16777216) with 19. change (delete_slot 8388608) with 18 in *.
      destruct (delete_slot_range (F - 16777216)) as [Hr _]; [unfold DMS_RECORD_MAX_SZ; lia|]. lia. }
    rewrite lookup_insert_ne by (unfold DMS_EXTENT_METADATA_SZ; intros [= ?]).
    rewrite lookup_insert_eq, list_lookup_insert_ne by done. split_and!; [done|lia|].
    rewrite list_lookup_insert_eq; [done|]. rewrite Hlen. apply slot_of_lt. unfold DMS_RECORD_MAX_SZ. lia.
Qed.

Section RecordSpace.
  Context (os : nat -> Z) (mbID : Z).

(** What the steps of an insertion establish: the collection is [c'] with
    [hand], and nothing else changed. *)
Record stepped (st : blockData) (held : list (Z * Z)) (c : colView) (hand : option dmsRecordID)
    (st' : blockData) (c' : colView) : Prop := {
  sd_sole : sole st' mbID EXCLUSIVE;
  sd_col : col_ok st' mbID hand c';
  sd_mx : cv_mx c' = cv_mx c;
  sd_ids : cv_ids c ⊆ cv_ids c';
  sd_frame : frame mbID (cv_mx c).1 (cv_ids c') st st';
  sd_space : exists held', space_ok st' held' /\ grows held c held' c'
}.

Lemma stepped_trans st held c hand st' held' c' hand' st'' c'' :
  stepped st held c hand st' c' -> grows held c held' c' ->
  stepped st' held' c' hand' st'' c'' -> stepped st held c hand' st'' c''.
Proof.
  intros [A1 A2 A3 A4 A5 _] Hg [B1 B2 B3 B4 B5 (h2&B6&B7)].
  split; try done; [congruence|set_solver| |].
  - eapply frame_trans; [exact B4|exact A5|]. by rewrite A3 in B5.
  - exists h2. split; [done|]. by eapply grows_trans.
Qed.

(** The chunk in hand has at least [req] bytes. *)
Definition hand_room (c : colView) (r : dmsRecordID) (req : Z) : Prop :=
  exists v s, v ∈ cv_exts c /\ ev_id v = rid_extent r /\
    mkChunk (rid_offset r) s true ∈ ev_tiles v /\ req <= s.

(** Space, lock and frame when only cells of the collection change. *)
Lemma stepped_cells st held c hand st' c' :
  space_ok st held -> sole st mbID EXCLUSIVE -> col_ok st' mbID hand c' ->
  cv_runs c' = cv_runs c -> frame mbID (cv_mx c).1 (cv_ids c) st st' ->
  bd_seg st' = bd_seg st -> bd_smeMgr st' = bd_smeMgr st ->
  bd_ctx st' = bd_ctx st -> bd_latch st' = bd_latch st ->
  mb_flag (mb_at st' mbID) = mb_flag (mb_at st mbID) ->
  mb_logicalID (mb_at st' mbID) = mb_logicalID (mb_at st mbID) ->
  stepped st held c hand st' c'.
Proof.
  intros Hs Hso Hc Hr Hf E1 E2 E3 E4 E5 E6.
  assert (cv_ids c' = cv_ids c) as Ei.
  { unfold cv_runs in Hr. injection Hr as _ Hr. unfold cv_ids.
    transitivity (map fst (map (fun v => (ev_id v, ev_pages v)) (cv_exts c'))); [by rewrite map_map|].
    rewrite Hr. by rewrite map_map. }
  split; rewrite ?Ei; try done.
  - by eapply sole_frame.
  - by injection Hr.
  - exists held. split; [|by apply grows_same]. eapply space_ok_cells; [exact Hs|..]; try done; apply Hf.
Qed.

Lemma take_stepped st held c j l1 r l2 s x :
  col_ok st mbID None c -> space_ok st held -> sole st mbID EXCLUSIVE ->
  cv_D c !! j = Some (l1 ++ r :: l2) -> cv_fm c !! r = Some s ->
  exists c', stepped st held c (Some r) (set_aux (upd_take st mbID j (last l1) r) x) c' /\
    contents c' = contents c /\ hand_room c' r s.
Proof.
  intros H Hs Hso Hj Hf.
  destruct (col_take mbID st c j l1 r l2 s H Hj Hf) as (vs1&v&vs2&t1&t2&Ee&Eid&El&Hcol).
  match type of Hcol with col_ok _ _ _ ?c' => exists c' end. split; [|split].
  - apply stepped_cells; try done.
    + by apply col_ok_aux.
    + unfold cv_runs. simpl. rewrite Ee, !map_app. done.
    + assert (rid_extent r ∈ cv_ids c) as Hr by (by eapply col_free_extent).
      unfold upd_take. destruct (last l1) as [p|] eqn:Ep; framed; try done.
      destruct (dk_mem _ _ _ _ (co_del _ _ _ _ H) _ _ p Hj) as (sp&Hsp&_).
      { apply last_Some_elem_of in Ep. set_solver. }
      by eapply col_free_extent.
    + by destruct (last l1).
    + by destruct (last l1).
    + by destruct (last l1).
    + by destruct (last l1).
    + unfold upd_take. autorewrite with upd. destruct (last l1); autorewrite with upd; [done|].
      by rewrite decide_True.
    + unfold upd_take. autorewrite with upd. destruct (last l1); autorewrite with upd; [done|].
      by rewrite decide_True.
  - destruct c as [ex fm D mx]. simpl in *. subst ex. by rewrite !contents_mid.
  - eexists _, s. simpl. split; [apply elem_of_app; right; left|]. simpl. split; [done|]. set_solver.
Qed.

(** The search either takes a chunk that is large enough, or no list has one
    at its head. *)
Lemma wp_search st held c req :
  col_ok st mbID None c -> space_ok st held -> sole st mbID EXCLUSIVE ->
  1 <= req <= DMS_RECORD_MAX_SZ ->
  wp (scope (search_slots (mb_max - slot_of req) mbID req (slot_of req)))
    (fun r st' => match r with
     | Ok (Some rid) => exists c', stepped st held c (Some rid) st' c' /\
         contents c' = contents c /\ hand_room c' rid req
     | Ok None => (exists x, st' = set_aux st x) /\ ~ has_fit c req
     | _ => False
     end) st.
Proof.
  intros H Hs Hso Hreq. apply wp_scope. intros x.
  pose proof (slot_of_lt req Hreq) as Hlt.
  eapply (wp_search_slots mbID req (cv_fm c) (cv_D c)).
  - exact (co_del _ _ _ _ H).
  - intros r [s Hr]. autorewrite with upd. pose proof (col_free_extent _ _ _ _ _ _ H Hr) as Hin.
    apply list_elem_of_In, in_map_iff in Hin as (v&<-&Hv%list_elem_of_In).
    pose proof (co_ext _ _ _ _ H) as He. rewrite Forall_forall in He. by apply He.
  - lia.
  - intros Hno y. split; [by exists y|]. intros (r&s&Hf&Hle&Hhd).
    eapply search_finds; [exact (co_del _ _ _ _ H)|exact Hreq|exact Hle|exact Hf|exact Hhd|exact Hno].
  - intros i l1 r l2 s y Hi Hf Hle z.
    destruct (take_stepped st held c i l1 r l2 s z H Hs Hso Hi Hf) as (c'&H1&H2&(v&s'&H3&H4&H5&H6)).
    exists c'. split; [|split; [done|]].
    + destruct (last l1); exact H1.
    + exists v, s'. split_and!; try done. lia.
Qed.

Definition space_post (st : blockData) (held : list (Z * Z)) (c : colView) (req : Z)
    (r : outcome (Z * dmsRecordID)) (st' : blockData) : Prop :=
  match r with
  | Ok (rc, rid) => exists c', contents c' = contents c /\
      if decide (rc = SDB_OK)
      then stepped st held c (Some rid) st' c' /\ hand_room c' rid req
      else stepped st held c None st' c'
  | Throw _ => False
  | Stop w => w = Panic
  end.

Lemma slot_request req : 1 <= req <= DMS_RECORD_MAX_SZ ->
  Z.to_nat (slot_loop 32 (Z.shiftr (u32 (req - 1)) 5) 0) = slot_of req.
Proof. unfold DMS_RECORD_MAX_SZ. intros H. unfold slot_of, delete_slot. by rewrite u32_id by lia. Qed.

(** One round of the retry loop: a chunk is taken, or the next round runs on
    the collection with one more extent. *)
Lemma wp_retry_round fuel st held c req (Q : outcome (Z * dmsRecordID) -> blockData -> Prop) :
  col_ok st mbID None c -> space_ok st held -> owns held c -> sole st mbID EXCLUSIVE ->
  1 <= req <= DMS_RECORD_MAX_SZ ->
  (forall r st', space_post st held c req r st' -> Q r st') ->
  (~ has_fit c req -> forall st' held' c',
     stepped st held c None st' c' -> space_ok st' held' -> grows held c held' c' ->
     contents c' = contents c -> has_fit c' req ->
     wp (allocRecordSpace_retry os fuel req) Q st') ->
  wp (allocRecordSpace_retry os (S fuel) req) Q st.
Proof.
  intros H Hs Ho Hso Hreq HQ Hnext. cbn [allocRecordSpace_retry]. rewrite slot_request by done.
  pose proof (slot_of_lt req Hreq) as Hlt. destruct (Nat.leb_spec mb_max (slot_of req)); [lia|].
  apply wp_get_bind. rewrite (so_id _ _ _ Hso). apply wp_bind.
  pose proof (wp_search st held c req H Hs Hso Hreq) as Hsearch. unfold wp in Hsearch |- *.
  destruct (scope _ st) as [[[rid|]| |] st1]; simpl in Hsearch |- *; try done.
  { apply HQ. destruct Hsearch as (c'&H1&H2&H3). exists c'. split; [done|]. by rewrite decide_True. }
  destruct Hsearch as [[x ->] Hno]. apply wp_bind.
  pose proof (co_geo _ _ _ _ H) as Hg.
  destruct (required_pages_bounds (bd_geo st) req Hg Hreq) as (Hn&Hn16&_).
  unfold u16. rewrite Z.mod_small by lia.
  eapply wp_mono.
  { apply (wp_allocateExtent os mbID (required_pages (bd_geo st) req) EXCLUSIVE (set_aux st x) held c); try done.
    - by apply col_ok_aux.
    - by apply space_ok_aux.
    - by apply sole_aux. }
  intros r st2 Hr. destruct r as [[rc e]| |w]; [|done|by apply HQ]. cbn [alloc_post] in Hr.
  destruct Hr as [Hso2 [(Hrc&Hs2&Hc2)|(->&Hs2&He&Hf2&l&c'&Hadd&Hcol')]].
  - destruct (Z.eqb_spec rc 0); [done|]. simpl negb. cbv iota. apply wp_ret, HQ.
    exists c. split; [done|]. rewrite decide_False by done.
    split; try done.
    + eapply col_cells; [exact H| |exact Hs2|exact Ho]. eapply cells_eq_trans; [|exact Hc2]. by split.
    + apply frame_cells. eapply cells_eq_trans; [|exact Hc2]. by split.
    + exists held. split; [done|]. by apply grows_same.
  - simpl negb. cbv iota. destruct (added_grows _ _ _ _ _ _ held Hadd) as (Hgr&Hcont&Hids&Hein).
    apply (Hnext Hno st2 ((e, required_pages (bd_geo st) req) :: held) c'); try done.
    + split; try done.
      * by destruct Hadd as (?&?&?&?&?&?&?&?).
      * eapply (frame_trans _ _ (e :: cv_ids c) _ _ st2); [set_solver| |apply frame_refl].
        eapply frame_trans; [|apply frame_aux|exact Hf2]. done.
      * eauto.
    + eapply added_fit; [exact Hadd|exact Hg| |exact Hreq|done|].
      * apply (co_del _ _ _ _ H).
      * intros o. destruct (cv_fm c !! _) eqn:Ef; [|done]. by eapply col_free_extent in Ef; [|exact H].
Qed.

(** Two rounds are enough: the extent that the first one adds has room. *)
Lemma wp_retry_twice fuel st held c req :
  col_ok st mbID None c -> space_ok st held -> owns held c -> sole st mbID EXCLUSIVE ->
  1 <= req <= DMS_RECORD_MAX_SZ ->
  wp (allocRecordSpace_retry os (S (S fuel)) req) (space_post st held c req) st.
Proof.
  intros H Hs Ho Hso Hreq. apply (wp_retry_round _ st held c); try done.
  intros _ st2 held2 c2 Hstep Hs2 Hgr Hcont Hfit.
  apply (wp_retry_round _ st2 held2 c2); try done; try apply Hstep.
  - by eapply grows_owns.
  - intros r st3 Hr. destruct r as [[rc rid]| |]; try done.
    destruct Hr as (c3&Hc3&Hx). exists c3. split; [congruence|].
    case_decide; [|by eapply stepped_trans]. destruct Hx. split; [by eapply stepped_trans|done].
Qed.

(** More fuel changes nothing once the loop has ended. *)
Lemma retry_step req f1 f2 :
  (forall st, (allocRecordSpace_retry os f2 req st).1 <> Stop Diverges ->
     allocRecordSpace_retry os f1 req st = allocRecordSpace_retry os f2 req st) ->
  forall st, (allocRecordSpace_retry os (S f2) req st).1 <> Stop Diverges ->
    allocRecordSpace_retry os (S f1) req st = allocRecordSpace_retry os (S f2) req st.
Proof.
  intros IH st. cbn [allocRecordSpace_retry]. destruct (_ <=? _)%nat; [done|].
  unfold mbind, M_bind, get_st. destruct (scope _ st) as [[[rid|]| |] st1]; try done.
  destruct (allocateExtent _ _ _ _ _) as [[[rc e]| |] st2]; try done.
  destruct (negb (rc =? 0)); [done|]. apply IH.
Qed.

Lemma retry_more req fuel : forall st,
  (allocRecordSpace_retry os fuel req st).1 <> Stop Diverges ->
  allocRecordSpace_retry os (S fuel) req st = allocRecordSpace_retry os fuel req st.
Proof. induction fuel as [|fuel IH]; [done|]. by apply retry_step. Qed.

Lemma wp_allocRecordSpace st held c req t :
  col_ok st mbID None c -> space_ok st held -> owns held c -> sole st mbID t ->
  1 <= req <= DMS_RECORD_MAX_SZ ->
  wp (allocRecordSpace os req) (space_post st held c req) st.
Proof.
  intros H Hs Ho Hso Hreq. unfold allocRecordSpace.
  apply wp_bind, (wp_ctx_mbLock mbID st t); [done|]. intros st1 Hl Hso1. simpl negb. cbv iota.
  pose proof (lock_only_cells _ _ Hl) as Hc1. pose proof (space_ok_lock _ _ _ Hl Hs) as Hs1.
  pose proof (col_cells mbID _ _ _ _ _ H Hc1 Hs1 Ho) as H1.
  assert (forall hand st' c', stepped st1 held c hand st' c' -> stepped st held c hand st' c') as Hback.
  { intros hand st' c' [A1 A2 A3 A4 A5 A6]. split; try done.
    eapply (frame_trans _ _ (cv_ids c)); [exact A4|by apply frame_cells|exact A5]. }
  eapply wp_mono; [change retry_fuel with (S (S 62)); by apply (wp_retry_twice _ st1 held c)|].
  intros [[rc rid]| |] st'; try done. intros (c'&Hc'&Hx). exists c'. split; [done|].
  case_decide; [|by apply Hback]. destruct Hx. split; [by apply Hback|done].
Qed.

End RecordSpace.

(** ** [extentInsertRecord] *)

Lemma normal_head x f s : head_view x f s -> exists f',
  head_view (rec_resetAttr (rec_setNormal x)) f' s /\ Z.land f' 0x0F = DMS_RECORD_FLAG_NORMAL.
Proof.
  intros Hv. destruct (head_state x f s DMS_RECORD_FLAG_NORMAL Hv) as (S1&_&_&Hv1);
    [unfold DMS_RECORD_FLAG_NORMAL; lia|].
  destruct (head_unattr _ _ _ 0xF0 Hv1) as (_&S2&_&Hv2); [lia|].
  eexists. split; [exact Hv2|]. unfold rec_getState in S2 at 1.
  rewrite (head_getFlag _ _ _ Hv2) in S2. rewrite S2. exact S1.
Qed.

(** The contents of the collection with the record [r] added. *)
Definition inserted (c : colView) (r : dmsRecordID) (d : list Z) (c' : colView) : Prop :=
  r ∉ map fst (contents c) /\
  exists l1 l2, contents c = l1 ++ l2 /\ contents c' = l1 ++ (r, d) :: l2.

Section ExtentInsert.
  Context (mbID : Z).

Lemma hand_not_stored st c r : col_ok st mbID (Some r) c -> r ∉ map fst (contents c).
Proof.
  intros H Hin. apply list_elem_of_In, in_map_iff in Hin as ([r' d]&E&Hin). simpl in E. subst r'.
  unfold contents in Hin. apply in_concat in Hin as (l&Hl&Hin).
  apply in_map_iff in Hl as (u&<-&Hu%list_elem_of_In). unfold ext_contents in Hin.
  apply in_map_iff in Hin as ([o d']&[= <- <-]&Hin%list_elem_of_In).
  destruct (col_hand _ _ _ _ H) as (vs1&v&vs2&t1&s&t2&f&Ee&Eid&El&_&_&Hok&_). simpl in *.
  assert (u = v) as ->.
  { apply (same_id (cv_exts c)); [apply (col_ids_nodup _ _ _ _ H)|done|rewrite Ee; set_solver|done]. }
  pose proof (used_offs_nodup _ _ _ (xo_tiles _ _ _ _ _ _ Hok)) as Hnd.
  rewrite (xo_used _ _ _ _ _ _ Hok) in Hnd. apply NoDup_cons in Hnd as [Hno _]. apply Hno.
  by apply (list_elem_of_fmap_2 fst _ (o, d')).
Qed.

Lemma fill_stepped st held c r f s v d x :
  col_ok st mbID (Some r) c -> space_ok st held -> sole st mbID EXCLUSIVE ->
  v ∈ cv_exts c -> ev_id v = rid_extent r -> mkChunk (rid_offset r) s true ∈ ev_tiles v ->
  head_view (rec_at st r) f s -> Z.land f 0x0F = DMS_RECORD_FLAG_NORMAL -> storable d ->
  DMS_RECORD_METADATA_SZ + Z.of_nat (length d) <= s ->
  exists c', stepped mbID st held c None (set_aux (upd_fill mbID st r (plain_data d)) x) c' /\
    inserted c r d c'.
Proof.
  intros H Hs Hso Hv Eid Ht Hh Hf Hd Hroom.
  pose proof (hand_not_stored _ _ _ H) as Hns.
  apply list_elem_of_split in Hv as (vs1&vs2&Ee).
  pose proof (col_fill mbID st r c vs1 v vs2 s f d H Ee Eid Ht Hh Hf Hd Hroom) as Hcol.
  match type of Hcol with col_ok _ _ _ ?c' => exists c' end. split.
  - destruct (upd_fill_rest mbID st r (plain_data d)) as (_&_&G3&_).
    assert (rid_extent r ∈ cv_ids c) as Hr.
    { rewrite <- Eid. apply cv_ids_in. rewrite Ee. set_solver. }
    apply stepped_cells; try done.
    + by apply col_ok_aux.
    + unfold cv_runs. simpl. rewrite Ee, !map_app. done.
    + unfold upd_fill. cbv zeta. destruct (DMS_INVALID_OFFSET =? _); by framed.
    + unfold upd_fill. cbv zeta. by destruct (DMS_INVALID_OFFSET =? _).
    + unfold upd_fill. cbv zeta. by destruct (DMS_INVALID_OFFSET =? _).
    + unfold upd_fill. cbv zeta. by destruct (DMS_INVALID_OFFSET =? _).
    + unfold upd_fill. cbv zeta. by destruct (DMS_INVALID_OFFSET =? _).
    + rewrite mb_at_set_aux. by rewrite G3.
    + rewrite mb_at_set_aux. by rewrite G3.
  - split; [done|]. destruct c as [ex fm D mx]. simpl in *. subst ex. rewrite !contents_mid.
    exists (concat (map ext_contents vs1) ++ ext_contents v), (concat (map ext_contents vs2)).
    rewrite <- app_assoc. split; [done|]. unfold ext_contents at 2. simpl. rewrite map_app. simpl.
    fold (ext_contents v). rewrite <- !app_assoc.
    replace (mkRID (ev_id v) (rid_offset r)) with r by (rewrite Eid; by destruct r). done.
Qed.

Lemma hand_stepped st held c r g x :
  col_ok st mbID (Some r) c -> space_ok st held -> sole st mbID EXCLUSIVE ->
  (forall fl s, head_view (rec_at st r) fl s -> exists fl', head_view (g (rec_at st r)) fl' s) ->
  rec_myOffset (g (rec_at st r)) = rec_myOffset (rec_at st r) ->
  stepped mbID st held c (Some r) (set_aux (rec_upd st r g) x) c.
Proof.
  intros H Hs Hso Hg Ho. apply stepped_cells; try done.
  - by apply col_ok_aux, col_hand_upd.
  - destruct (col_hand _ _ _ _ H) as (vs1&v&vs2&_&_&_&_&Ee&Eid&_).
    framed. rewrite <- Eid. apply cv_ids_in. rewrite Ee. set_solver.
Qed.

Lemma split_stepped st held c r v s n f x :
  col_ok st mbID (Some r) c -> space_ok st held -> sole st mbID EXCLUSIVE ->
  v ∈ cv_exts c -> ev_id v = rid_extent r -> mkChunk (rid_offset r) s true ∈ ev_tiles v ->
  head_view (rec_at st r) f s ->
  DMS_RECORD_METADATA_SZ <= n -> DMS_RECORD_METADATA_SZ <= s - n ->
  exists c' v', stepped mbID st held c (Some r) (set_aux (upd_split mbID st r s n) x) c' /\
    contents c' = contents c /\ cv_runs c' = cv_runs c /\
    v' ∈ cv_exts c' /\ ev_id v' = rid_extent r /\
    mkChunk (rid_offset r) n true ∈ ev_tiles v' /\
    head_view (rec_at (upd_split mbID st r s n) r) f n.
Proof.
  intros H Hs Hso Hv Eid Ht Hh Hn1 Hn2.
  assert (rid_extent r ∈ cv_ids c) as Hr by (rewrite <- Eid; by apply cv_ids_in).
  apply list_elem_of_split in Hv as (vs1&vs2&Ee). 
  pose proof (co_ext _ _ _ _ H) as He. rewrite Ee, Forall_app, Forall_cons in He.
  destruct He as (_&[Hok _]&_). destruct (ext_off_pos _ _ _ _ _ _ _ _ _ Hok Ht) as (_&_&Hsz).
  apply list_elem_of_split in Ht as (t1&t2&El).
  destruct (col_split mbID st r c vs1 v vs2 t1 s t2 n H Ee Eid El Hn1 Hn2) as (fm'&D'&Hcol).
  match type of Hcol with col_ok _ _ _ ?c' => exists c' end. eexists. split_and!.
  - apply stepped_cells; try done.
    + by apply col_ok_aux.
    + unfold cv_runs. simpl. rewrite Ee, !map_app. done.
    + unfold upd_split, upd_free. cbv zeta. by framed.
    + unfold upd_split, upd_free. cbv zeta. autorewrite with upd. by rewrite decide_True.
    + unfold upd_split, upd_free. cbv zeta. autorewrite with upd. by rewrite decide_True.
  - destruct c as [ex fm D mx]. simpl in *. subst ex. by rewrite !contents_mid.
  - unfold cv_runs. simpl. rewrite Ee, !map_app. done.
  - simpl. apply elem_of_app. right. left.
  - done.
  - simpl. set_solver.
  - unfold upd_split, upd_free. cbv zeta. autorewrite with upd. rewrite decide_True by done.
    unfold DMS_RECORD_METADATA_SZ in *. rewrite decide_False.
    + eapply head_setSize; [done|]. lia.
    + destruct r as [e o]. simpl. intros [= E]. lia.
Qed.

End ExtentInsert.

Section InsertRecord.
  Context (os : nat -> Z) (mbID : Z).

(** The part of [extentInsertRecord] after the chunk is cut. *)
Definition fill_record (extID : Z) (rid : dmsRecordID) (data : dmsRecordData) (myOffset : Z) : M Z :=
  rec_mod rid (fun r => rec_setData r data);;
  rec_mod rid (fun r => rec_setNextOffset r DMS_INVALID_OFFSET);;
  rec_mod rid (fun r => rec_setPrevOffset r DMS_INVALID_OFFSET);;
  (extWritePtr mbID extID false;;
   st ← get_st;
   let offset := ext_lastRecordOffset (ext_at st extID) in
   ext_mod extID (fun e => ext_with_recs e (u32 (ext_recCount e + 1))
     (ext_firstRecordOffset e) (ext_lastRecordOffset e));;
   stat_mod mbID (fun s => stat_with_records s (u64 (st_totalRecords s + 1)));;
   (if negb (DMS_INVALID_OFFSET =? offset) then
      scope (
        recWritePtr mbID (mkRID extID offset) DMS_RECORD_METADATA_SZ;;
        rec_mod (mkRID extID offset) (fun r => rec_setNextOffset r myOffset);;
        rec_mod rid (fun r => rec_setPrevOffset r offset))
    else mret tt);;
   ext_mod extID (fun e => ext_with_recs e (ext_recCount e)
     (if DMS_INVALID_OFFSET =? ext_firstRecordOffset e then myOffset
      else ext_firstRecordOffset e) myOffset));;
  stat_mod mbID (fun s => stat_with_lens s
    (u64 (st_totalOrgDataLen s + rd_orgLen data))
    (u64 (st_totalDataLen s + rd_len data)));;
  mret SDB_OK.

Lemma wp_fill_record rid data st (Q : outcome Z -> blockData -> Prop) :
  ext_null st (rid_extent rid) = false ->
  (forall x, Q (Ok SDB_OK) (set_aux (upd_fill mbID st rid data) x)) ->
  wp (fill_record (rid_extent rid) rid data (rid_offset rid)) Q st.
Proof.
  intros Hn HQ. unfold fill_record. do 3 apply wp_modify_bind.
  apply wp_bind, wp_bind, wp_extWritePtr; [done|]. intros a. apply wp_get_bind. cbv zeta.
  autorewrite with upd. apply wp_modify_bind, wp_modify_bind.
  assert (forall st', rec_upd (rec_upd (rec_upd st' rid (fun r => rec_setData r data)) rid
     (fun r => rec_setNextOffset r DMS_INVALID_OFFSET)) rid
     (fun r => rec_setPrevOffset r DMS_INVALID_OFFSET) =
     rec_upd st' rid (fun x => rec_setPrevOffset
       (rec_setNextOffset (rec_setData x data) DMS_INVALID_OFFSET) DMS_INVALID_OFFSET)) as E.
  { intros st'. by rewrite !rec_upd_upd. }
  rewrite E. unfold upd_fill in HQ. cbv zeta in HQ.
  destruct (DMS_INVALID_OFFSET =? ext_lastRecordOffset (ext_at st (rid_extent rid))); simpl negb; cbv iota.
  - apply wp_bind, wp_ret, wp_modify, wp_modify_bind, wp_ret. apply HQ.
  - apply wp_bind, wp_scope. intros b.
    apply wp_bind, wp_recWritePtr; [done|vm_compute; discriminate|]. intros b'.
    apply wp_modify_bind, wp_modify. intros b''. apply wp_modify, wp_modify_bind, wp_ret. apply HQ.
Qed.

Lemma wp_extentInsertRecord st held c r need d :
  col_ok st mbID (Some r) c -> space_ok st held -> owns held c -> sole st mbID EXCLUSIVE ->
  hand_room c r need -> storable d -> DMS_RECORD_METADATA_SZ + Z.of_nat (length d) <= need ->
  wp (extentInsertRecord (rid_extent r) r (plain_data d) need true)
    (fun o st' => o = Ok SDB_OK /\ exists c', stepped mbID st held c None st' c' /\ inserted c r d c') st.
Proof.
  intros H Hs Ho Hso (v&s&Hv&Eid&Ht&Hle) Hd Hroom. unfold extentInsertRecord.
  apply wp_bind, (wp_ctx_mbLock mbID st EXCLUSIVE); [done|]. intros st1 Hl Hso1. simpl negb. cbv iota.
  pose proof (lock_only_cells _ _ Hl) as Hc1. pose proof (space_ok_lock _ _ _ Hl Hs) as Hs1.
  pose proof (col_cells mbID _ _ _ _ _ H Hc1 Hs1 Ho) as H1.
  assert (stepped mbID st held c (Some r) st1 c) as Hstep1.
  { split; try done; [by apply frame_cells|]. exists held. split; [done|]. by apply grows_same. }
  assert (forall held c, grows held c held c) as Hgr by (intros; by apply grows_same).
  apply wp_get_bind. cbv zeta. rewrite (so_id _ _ _ Hso1).
  destruct (col_hand _ _ _ _ H1) as (vs1&v0&vs2&t1&s0&t2&f&Ee&Eid0&El&Hh&Hof&Hok&Hn&_).
  assert (v0 ∈ cv_exts c) as Hv0 by (rewrite Ee; set_solver).
  pose proof (same_id _ _ _ (col_ids_nodup _ _ _ _ H) Hv Hv0 ltac:(congruence)) as <-.
  assert (s0 = s) as ->.
  { assert (mkChunk (rid_offset r) s0 true ∈ ev_tiles v) as Ht0 by (rewrite El; set_solver).
    by pose proof (tiling_unique _ _ _ _ _ (xo_tiles _ _ _ _ _ _ Hok) Ht Ht0 eq_refl) as [= ->]. }
  destruct (ext_off_pos _ _ _ _ _ _ _ _ _ Hok Ht) as (Hoff&Hend&Hsz).
  pose proof (ext_size_bound _ v (co_geo _ _ _ _ H1) (xo_pages _ _ _ _ _ _ Hok)) as Hbig.
  pose proof Hd as [D1 D2 D3 D4 D5].
  unfold DMS_EXTENT_METADATA_SZ, DMS_RECORD_METADATA_SZ, DMS_RECORD_MAX_SZ, DMS_MIN_RECORD_DATA_SZ in *.
  apply wp_bind, wp_recWritePtr; [done| |].
  { unfold recLen, DMS_RECORD_MAX_SZ. destruct (Z.eqb_spec 0 need); lia. }
  intros a. apply wp_get_bind. cbv zeta. autorewrite with upd. rewrite (head_getSize _ _ _ Hh), Hof.
  destruct (Z.ltb_spec s need); [lia|].
  change (rd_isCompressed (plain_data d)) with false. change (rd_len (plain_data d)) with (Z.of_nat (length d)).
  unfold DMS_MIN_RECORD_DATA_SZ. destruct (Z.ltb_spec (Z.of_nat (length d)) 5); [lia|]. simpl andb. cbv iota.
  apply wp_modify_bind, wp_modify_bind, wp_get_bind. cbv zeta.
  rewrite rec_upd_upd. set (norm := fun x => rec_resetAttr (rec_setNormal x)).
  change (rec_upd (set_aux st1 a) r _) with (set_aux (rec_upd st1 r norm) a).
  destruct (normal_head _ _ _ Hh) as (f'&Hh'&Hf'). fold (norm (rec_at st1 r)) in Hh'.
  set (st2 := set_aux (rec_upd st1 r norm) a).
  assert (stepped mbID st1 held c (Some r) st2 c) as Hstep2.
  { apply hand_stepped; try done. intros fl z Hz. destruct (normal_head _ _ _ Hz) as (?&?&_). eauto. }
  assert (rec_at st2 r = norm (rec_at st1 r)) as E2.
  { unfold st2. autorewrite with upd. by rewrite decide_True. }
  rewrite E2, (head_getSize _ _ _ Hh').
  assert (space_ok st2 held) as Hs2 by (by eapply space_ok_cells).
  assert (ext_null st2 (rid_extent r) = false) as Hn2 by exact Hn.
  apply wp_bind.
  apply (wp_mono _ (fun o st3 => o = Ok SDB_OK /\ exists c3 v3 s3,
    stepped mbID st2 held c (Some r) st3 c3 /\ space_ok st3 held /\ grows held c held c3 /\
    contents c3 = contents c /\
    v3 ∈ cv_exts c3 /\ ev_id v3 = rid_extent r /\ mkChunk (rid_offset r) s3 true ∈ ev_tiles v3 /\
    need <= s3 /\ head_view (rec_at st3 r) f' s3 /\ ext_null st3 (rid_extent r) = false)).
  { rewrite (u32_id (s - need)) by lia.
    destruct (Z.ltb_spec DMS_MIN_RECORD_SZ (s - need)) as [Hsp|_].
    - change DMS_MIN_RECORD_SZ with 36 in Hsp.
      rewrite (i32_id (s - need)), (i32_id (rid_offset r + need)) by lia.
      assert (0 <= rid_extent r) as Hpos.
      { rewrite <- Eid. destruct (col_ids_pos _ _ _ _ (ev_id v) H); [by apply cv_ids_in|lia]. }
      apply wp_bind, wp_saveDeletedRecord; [|done|lia|].
      { unfold rid_isNull, DMS_INVALID_EXTENT. simpl. destruct (Z.eqb_spec (-1) (rid_extent r)); [lia|done]. }
      intros b. simpl negb. cbv iota. apply wp_modify_bind, wp_ret. split; [done|].
      destruct (split_stepped mbID st2 held c r v s need f' b) as (c3&v3&S1&S2&S2'&S3&S4&S5&S6);
        rewrite ?E2; try done; try (unfold DMS_RECORD_METADATA_SZ; lia); [apply Hstep2|apply Hstep2|].
      exists c3, v3, need. split_and!; try done; try lia.
      + by eapply space_ok_cells.
      + by apply grows_same.
    - apply wp_ret. split; [done|]. exists c, v, s. rewrite E2. split_and!; try done.
      apply stepped_cells; try done; try apply Hstep2; apply frame_refl. }
  intros o st3 (->&c3&v3&s3&Hstep3&Hs3&Hg3&Hct&Hv3&Eid3&Ht3&Hle3&Hh3&Hn3). simpl negb. cbv iota.
  eapply (wp_fill_record r (plain_data d) st3); [done|]. intros x. split; [done|].
  destruct (fill_stepped mbID st3 held c3 r f' s3 v3 d x) as (c4&Hstep4&Hins); try done;
    [apply Hstep3|apply Hstep3|unfold DMS_RECORD_METADATA_SZ; lia|].
  exists c4. split.
  - eapply stepped_trans; [|exact Hg3|exact Hstep4].
    eapply stepped_trans; [|by apply Hgr|exact Hstep3].
    by eapply stepped_trans; [|by apply Hgr|exact Hstep2].
  - unfold inserted in *. by rewrite Hct in Hins.
Qed.

End InsertRecord.
