(* ===== verification/DmsInsertRecord.v ===== *)
(** * [insertRecord] is correct

    The whole of [insertRecord]: preparing the document, choosing the size,
    finding space and storing the record. *)
From S2P Require Import Prelude.
From S2P Require Import ByteBits.
From S2P Require Import Links.
From S2P Require Import OssBase.
From S2P Require Import OssMmap.
From S2P Require Import DmsBase.
From S2P Require Import DmsName.
From S2P Require Import DmsSegmentSpace.
From S2P Require Import DmsSMEMgr.
From S2P Require Import DmsRecord.
From S2P Require Import DmsDirtyList.
From S2P Require Import DmsMBContext.
From S2P Require Import DmsExtent.
From S2P Require Import DmsMB.
From S2P Require Import Bson.
From S2P Require Import DmsStore.
From S2P Require Import DmsInsert.
From S2P Require Import DmsSize.
From S2P Require Import DmsWp.
From S2P Require Import DmsDelete.
From S2P Require Import DmsView.
From S2P Require Import DmsCol.
From S2P Require Import DmsSpaceOk.
From S2P Require Import DmsAlloc.
From S2P Require Import DmsInsertOk.
#[local] Open Scope Z_scope.

Section InsertDoc.
Context (os : nat -> Z) (mbID : Z).


(** The document that is stored: the given one, or the one with a new [_id]. *)
Definition stored_doc (fs : list field) (mustOID : bool) (oid : list Z) : list field :=
  if mustOID && bool_decide (find_field ID_NAME fs = None)
  then mkField jstOID ID_NAME oid :: fs else fs.

Definition insert_post (st : blockData) (held : list (Z * Z)) (c : colView) (d : list Z)
    (o : outcome Z) (st' : blockData) : Prop :=
  match o with
  | Ok rc =>
      if decide (rc = SDB_OK)
      then exists c' r, stepped mbID st held c None st' c' /\ inserted c r d c'
      else exists c', contents c' = contents c /\
        (stepped mbID st held c None st' c' \/ (c' = c /\ exists x, st' = set_aux st x))
  | Throw _ => False
  | Stop w => w = Panic
  end.

(** The test of the record's [_id] ends. *)
Definition id_checked (fs : list field) : Prop :=
  match find_field ID_NAME fs with
  | None => True
  | Some f => forall rest, dmsIsRecordIDValid (enc_field f ++ rest) true <> BUndef
  end.

Lemma wp_prepareInsertData fs mustOID oid st (Q : outcome (Z * dmsRecordData) -> blockData -> Prop) :
  doc_ok fs -> is_bytes oid -> length oid = 12%nat -> id_checked fs ->
  (forall rc d x, rc <> SDB_OK -> Q (Ok (rc, d)) (set_aux st x)) ->
  (forall x, Q (Ok (SDB_OK, plain_data (enc_doc (stored_doc fs mustOID oid)))) (set_aux st x)) ->
  wp (prepareInsertData os (enc_doc fs) mustOID oid) Q st.
Proof.
  intros Hd Hb Hl Hid Herr HQ. pose proof (objsize_doc _ Hd) as Hos. pose proof Hd as [_ Hmax].
  unfold BSONObjMaxInternalSize, BSONObjMaxUserSize in Hmax.
  pose proof (getField_doc ID_NAME fs Hd) as Hget. unfold id_checked in Hid.
  assert (Q (Ok (SDB_OK, plain_data (enc_doc fs))) st ->
    Q (Ok (SDB_OK, rd_setData rd_reset (enc_doc fs) (u32 (objsize (enc_doc fs))) UTIL_COMPRESSOR_INVALID true)) st) as HQ0.
  { rewrite Hos, u32_id by lia. done. }
  assert (forall a : outcome (Z * dmsRecordData), (forall x, Q a (set_aux st x)) -> Q a st) as Hst.
  { intros a Ha. specialize (Ha (bd_aux st)). by rewrite set_aux_id in Ha. }
  unfold wp, prepareInsertData. cbv zeta. unfold stored_doc in HQ.
  destruct (find_field ID_NAME fs) as [f|] eqn:Ef.
  - destruct Hget as [rest ->]. rewrite bool_decide_false, andb_false_r in HQ by done.
    specialize (Hid rest). remember (enc_field f ++ rest) as e eqn:Ee.
    unfold mbind, M_bind, bson_lift, mret, M_ret. simpl.
    destruct (dmsIsRecordIDValid _ _) as [[]| |]; simpl; try done.
    + assert (el_eoo e = false) as ->.
      { subst e. eapply enc_field_read. clear -Hd Ef. destruct Hd as [Hd _].
        induction Hd as [|g gs Hg _ IH]; [done|]. simpl in Ef. case_decide; [by simplify_eq|by apply IH]. }
      rewrite andb_false_r. simpl. by apply HQ0, Hst.
    + apply Hst. intros x. by apply Herr.
    + apply Hst. intros x. by apply Herr.
  - rewrite Hget. rewrite bool_decide_true, andb_true_r in HQ by done.
    unfold mbind, M_bind, bson_lift, mret, M_ret. simpl. rewrite andb_true_r.
    destruct mustOID; simpl; [|by apply HQ0, Hst].
    match goal with |- context [if negb (?a =? 0) then _ else _] => destruct (Z.eqb_spec a 0) end; simpl.
    2: { by apply Herr. }
    destruct (oid_field_ok oid Hb Hl) as [Hf E]. change (jstOID :: ID_NAME ++ [0] ++ oid) with (idToInsert oid).
    rewrite E.
    assert (length (enc_field (mkField jstOID ID_NAME oid)) = 17%nat) as H17
      by (unfold enc_field; simpl; by rewrite Hl).
    rewrite prepend_doc by (done || lia).
    assert (length (enc_doc (mkField jstOID ID_NAME oid :: fs)) = (length (enc_doc fs) + 17)%nat) as El.
    { rewrite !length_enc_doc. change (enc_fields (mkField jstOID ID_NAME oid :: fs))
        with (enc_field (mkField jstOID ID_NAME oid) ++ enc_fields fs). rewrite length_app, H17. lia. }
    rewrite Hos. rewrite Hl, !u32_id by lia.
    replace (Z.of_nat 17 + Z.of_nat (length (enc_doc fs)))
      with (Z.of_nat (length (enc_doc (mkField jstOID ID_NAME oid :: fs)))) by lia.
    apply HQ.
Qed.

(** *** What is stored *)

Lemma u32_bytes_ok x : 0 <= x < 4294967296 -> is_bytes (u32_bytes x).
Proof. intros Hx. unfold u32_bytes. repeat constructor; apply Z.mod_pos_bound; lia. Qed.

Lemma enc_fields_bytes fs : Forall field_ok fs -> is_bytes (enc_fields fs).
Proof.
  intros H. induction H as [|f fs Hf _ IH]; [constructor|].
  change (enc_fields (f :: fs)) with (enc_field f ++ enc_fields fs). apply Forall_app. split; [|done].
  destruct Hf as [H1 H2 H3 _]. unfold enc_field. constructor; [lia|].
  apply Forall_app. split; [eapply Forall_impl; [exact H2|]; simpl; lia|].
  constructor; [lia|done].
Qed.

Lemma doc_storable fs :
  Forall field_ok fs ->
  Z.of_nat (length (enc_doc fs)) + DMS_RECORD_METADATA_SZ <= DMS_RECORD_USER_MAX_SZ ->
  storable (enc_doc fs).
Proof.
  intros Hf. unfold DMS_RECORD_USER_MAX_SZ, DMS_RECORD_METADATA_SZ, DMS_RECORD_MAX_SZ. intros Hl.
  assert (doc_ok fs) as Hd.
  { split; [done|]. unfold BSONObjMaxInternalSize, BSONObjMaxUserSize. lia. }
  pose proof (objsize_doc _ Hd) as Hos. rewrite length_enc_doc in *.
  split; rewrite ?length_enc_doc.
  - unfold enc_doc. apply Forall_app. split; [apply u32_bytes_ok; lia|].
    apply Forall_app. split; [by apply enc_fields_bytes|]. constructor; [lia|constructor].
  - unfold DMS_MIN_RECORD_DATA_SZ. lia.
  - unfold DMS_RECORD_MAX_SZ. lia.
  - unfold enc_doc. rewrite bytes_u32_app by (simpl; lia). rewrite bytes_u32_bytes; lia.
  - unfold bson_isValid. rewrite Hos. unfold BSONObjMaxInternalSize, BSONObjMaxUserSize.
    apply andb_true_intro. split; [apply Z.ltb_lt; lia|apply Z.leb_le; lia].
Qed.

Lemma stored_doc_fields fs mustOID oid :
  Forall field_ok fs -> is_bytes oid -> length oid = 12%nat -> Forall field_ok (stored_doc fs mustOID oid).
Proof.
  intros Hf Hb Hl. unfold stored_doc. destruct (mustOID && _); [|done].
  constructor; [|done]. by apply oid_field_ok.
Qed.

#[local] Arguments insert_post : simpl never.

Lemma stepped_from_aux st held c hand st' c' x y :
  stepped mbID (set_aux st x) held c hand st' c' -> stepped mbID st held c hand (set_aux st' y) c'.
Proof.
  intros [A1 A2 A3 A4 A5 (h2&A6&A7)]. split; try done.
  - by apply sole_aux.
  - by apply col_ok_aux.
  - eapply frame_trans; [|apply (frame_aux _ _ (cv_ids c') _ x)|]; [done|].
    eapply frame_trans; [|exact A5|apply frame_aux]. done.
  - exists h2. split; [by apply space_ok_aux|done].
Qed.

Lemma insert_post_aux st held c d o st' x y :
  insert_post (set_aux st x) held c d o st' -> insert_post st held c d o (set_aux st' y).
Proof.
  unfold insert_post. destruct o as [rc| |w]; [|done..].
  case_decide.
  - intros (c'&r&Hs&Hi). exists c', r. split; [by eapply stepped_from_aux|done].
  - intros (c'&Hc&Hor). exists c'. split; [done|]. destruct Hor as [Hs|(->&z&->)].
    + left. by eapply stepped_from_aux.
    + right. split; [done|]. by exists y.
Qed.

(** The extent of a reserved record. *)
Lemma room_validate st hand c r req :
  col_ok st mbID hand c -> hand_room c r req -> ext_validate (ext_at st (rid_extent r)) mbID = true.
Proof.
  intros Hc (v&s&Hv&Hid&_&_). pose proof (co_ext _ _ _ _ Hc) as HF. rewrite Forall_forall in HF.
  destruct (HF v Hv) as [Hx _]. rewrite <- Hid. unfold ext_validate. rewrite (xo_head _ _ _ _ _ _ Hx).
  unfold eh_validate, ext_init. simpl. by rewrite Z.eqb_refl, andb_false_r.
Qed.

Lemma room_adr st hand c r req :
  col_ok st mbID hand c -> hand_room c r req -> ext_null st (rid_extent r) = false.
Proof.
  intros Hc (v&s&Hv&<-&_&_). pose proof (co_ext _ _ _ _ Hc) as HF. rewrite Forall_forall in HF.
  by destruct (HF v Hv).
Qed.

(** Inserting a well-formed document: either an error, and the collection has
    the records it had, or one more record, the document that was given (with
    a new [_id] where one is due). *)
Lemma wp_insertRecord fs mustOID position oid st held c t :
  col_ok st mbID None c -> space_ok st held -> owns held c -> sole st mbID t ->
  doc_ok fs -> is_bytes oid -> length oid = 12%nat -> id_checked fs ->
  wp (insertRecord os (enc_doc fs) mustOID position oid)
    (insert_post st held c (enc_doc (stored_doc fs mustOID oid))) st.
Proof.
  intros Hc Hs Hw Hso Hd Hb Hl Hid. unfold insertRecord.
  set (d := enc_doc (stored_doc fs mustOID oid)).
  assert (forall rc st' x, rc <> SDB_OK -> st' = set_aux st x -> insert_post st held c d (Ok rc) st') as Herr.
  { intros rc st' x Hrc ->. unfold insert_post. rewrite decide_False by done. exists c. split; [done|]. right. eauto. }
  apply wp_scope. intros x0. apply wp_catch.
  apply wp_bind. eapply wp_prepareInsertData; try done.
  { intros rc d' x Hrc. cbv beta iota. unfold SDB_OK in *. destruct (Z.eqb_spec rc 0); [done|].
    apply wp_ret. intros y. by eapply Herr. }
  intros x1. fold d. cbv beta iota. change (negb (SDB_OK =? 0)) with false. cbv iota.
  change (default [] (rd_data (plain_data d))) with d. change (rd_len (plain_data d)) with (Z.of_nat (length d)).
  apply wp_bind. unfold bson_lift, bson_obj.
  destruct (bson_isValid d) eqn:Hv; simpl negb; cbv iota.
  2: { unfold wp. simpl. intros y. by eapply Herr. }
  apply wp_ret. unfold mbind.
  destruct (Z.ltb_spec DMS_RECORD_USER_MAX_SZ (Z.of_nat (length d) + DMS_RECORD_METADATA_SZ)).
  { apply wp_ret. intros y. by eapply Herr. }
  cbv zeta. set (need := finalRecordSize (Z.of_nat (length d))).
  assert (storable d) as Hst.
  { apply doc_storable; [|done]. by apply stored_doc_fields; [apply Hd|..]. }
  destruct (finalRecordSize_bounds (Z.of_nat (length d))) as [[Hn1 Hn2] _].
  { unfold DMS_RECORD_METADATA_SZ in *. lia. } fold need in Hn1, Hn2.
  destruct (0 <=? position).
  { apply wp_bind, wp_ret. simpl. intros y. by eapply Herr. }
  apply wp_bind.
  eapply wp_mono.
  { apply (wp_allocRecordSpace os mbID _ held c need t);
      [by apply col_ok_aux, col_ok_aux|by apply space_ok_aux, space_ok_aux|done|by apply sole_aux, sole_aux|].
    unfold DMS_RECORD_METADATA_SZ in *. lia. }
  intros [[rc r]|e|w] st1; simpl; [|done|].
  2: { by intros ->. }
  intros (c1&Hct&Hpost). unfold SDB_OK in Hpost. case_decide as Hrc.
  - subst rc. simpl negb. cbv iota. destruct Hpost as [Hstep Hroom].
    pose proof Hstep as [B1 B2 B3 B4 B5 (h2&B6&B7)].
    assert (owns h2 c1) as Hw1 by (by eapply grows_owns).
    apply wp_bind, wp_extReadPtr; [by eapply room_adr|]. apply wp_get_bind.
    rewrite (so_id _ _ _ B1), (room_validate _ _ _ _ _ B2 Hroom). simpl negb. cbv iota.
    eapply wp_mono; [apply (wp_extentInsertRecord mbID st1 h2 c1 r need d); try done|].
    + unfold DMS_RECORD_METADATA_SZ in *. lia.
    + intros o st2 (->&c2&Hstep2&Hins) y. unfold insert_post, SDB_OK. rewrite decide_True by done.
      exists c2, r. split.
      * eapply stepped_from_aux, stepped_trans; [exact Hstep|exact B7|exact Hstep2].
      * unfold inserted in *. by rewrite <- Hct.
  - destruct (Z.eqb_spec rc 0); [done|]. simpl. apply wp_ret. intros y. unfold insert_post, SDB_OK.
    rewrite decide_False by done. exists c1. split; [done|]. left. by eapply stepped_from_aux.
Qed.

End InsertDoc.
