(* ===== verification/DmsRefine.v ===== *)
(** * The storage unit refines a map from collections to records

    The abstract state of a storage unit maps each collection to the records
    it holds, in the order a scan meets them.  [store_ok] ties the concrete
    state to it; [insertRecord] refines the abstract insertion. *)
From S2P Require Import Prelude.
From S2P Require Import ByteBits.
From S2P Require Import Links.
From S2P Require Import OssBase.
From S2P Require Import OssMmap.
From S2P Require Import DmsBase.
From S2P Require Import DmsName.
From S2P Require Import DmsSegmentSpace.
From S2P Require Import DmsSMEMgr.
From S2P Require Import DmsRecord.
From S2P Require Import DmsDirtyList.
From S2P Require Import DmsMBContext.
From S2P Require Import DmsExtent.
From S2P Require Import DmsMB.
From S2P Require Import Bson.
From S2P Require Import DmsStore.
From S2P Require Import DmsInsert.
From S2P Require Import DmsWp.
From S2P Require Import DmsDelete.
From S2P Require Import DmsView.
From S2P Require Import DmsCol.
From S2P Require Import DmsSpaceOk.
From S2P Require Import DmsAlloc.
From S2P Require Import DmsInsertOk.
From S2P Require Import DmsInsertRecord.
#[local] Open Scope Z_scope.

(** ** The abstract storage unit *)

Abbreviation absStore := (gmap Z (list (dmsRecordID * list Z))).

(** One record more in one collection, under an identifier that was free. *)
Definition spec_insert (A : absStore) (mbID : Z) (r : dmsRecordID) (d : list Z) (A' : absStore) : Prop :=
  exists l1 l2, A !! mbID = Some (l1 ++ l2) /\ r ∉ map fst (l1 ++ l2) /\
    A' = <[mbID := l1 ++ (r, d) :: l2]> A.

(** ** Several collections *)

Definition all_runs (cvs : gmap Z colView) : list (Z * Z) :=
  concat (map (fun p => cv_runs p.2) (map_to_list cvs)).

Lemma runs_delete cvs i c :
  cvs !! i = Some c -> all_runs cvs ≡ₚ cv_runs c ++ all_runs (delete i cvs).
Proof.
  intros H. unfold all_runs.
  change (cv_runs c ++ _) with (concat (map (fun p : Z * colView => cv_runs p.2) ((i, c) :: map_to_list (delete i cvs)))).
  by rewrite (map_to_list_delete _ _ _ H).
Qed.

Lemma runs_insert cvs i c :
  all_runs (<[i := c]> cvs) ≡ₚ cv_runs c ++ all_runs (delete i cvs).
Proof.
  rewrite (runs_delete (<[i := c]> cvs) i c) by apply lookup_insert_eq.
  by rewrite delete_insert_eq.
Qed.

Lemma runs_new cvs i c : cvs !! i = None -> all_runs (<[i := c]> cvs) ≡ₚ cv_runs c ++ all_runs cvs.
Proof. intros H. rewrite runs_insert. by rewrite delete_id. Qed.

(** The runs that are held start at different pages. *)
Lemma held_nodup st held : space_ok st held -> NoDup (map fst held).
Proof.
  intros H.
  assert (forall h1 h, held = h1 ++ h -> NoDup (map fst h)) as Hgen.
  { intros h1 h. revert h1. induction h as [|[a n] h IH]; intros h1 E; simpl; [constructor|].
    constructor; [|apply (IH (h1 ++ [(a, n)])); by rewrite <- app_assoc].
    intros Hin. apply list_elem_of_fmap in Hin as ([b m]&Hab&Hin). simpl in Hab. subst b.
    apply list_elem_of_split in Hin as (h2&h3&->).
    destruct (space_adr _ _ a n H) as (_&_&_&Hn&_); [set_solver|].
    destruct (space_adr _ _ a m H) as (_&_&_&Hm&_); [set_solver|].
    eapply (held_disjoint _ _ h1 a n h2 a m h3 a); [exact H|done|..]; unfold in_run; lia. }
  by apply (Hgen []).
Qed.

Lemma runs_disjoint st held A B e :
  space_ok st held -> held ≡ₚ A ++ B -> e ∈ map fst A -> e ∈ map fst B -> False.
Proof.
  intros H HP Ha Hb. apply held_nodup in H.
  assert (NoDup (map fst (A ++ B))) as Hn by (by rewrite <- HP).
  rewrite map_app in Hn. apply NoDup_app in Hn as (_&Hd&_). by eapply Hd.
Qed.

(** ** The invariant *)

(** A collection's slot in the metadata extent is in use. *)
Definition slot_ok (st : blockData) (i : Z) : Prop :=
  0 <= i < DMS_MME_SLOTS /\ DMS_IS_MB_INUSE (mb_flag (mb_at st i)) = true.

(** The space manager serves the storage unit, every collection is in order
    and has its slot, and no page is held twice: [rest] is what no collection
    has. *)
Definition store_held (st : blockData) (cvs : gmap Z colView) (held rest : list (Z * Z)) : Prop :=
  space_ok st held /\ held ≡ₚ rest ++ all_runs cvs /\
  forall i c, cvs !! i = Some c -> col_ok st i None c /\ slot_ok st i.

Definition store_ok (st : blockData) (A : absStore) : Prop :=
  exists cvs held rest, store_held st cvs held rest /\ A = contents <$> cvs.

Lemma cv_runs_ids c e : e ∈ map fst (cv_runs c) <-> e ∈ cv_ids c \/ e = (cv_mx c).1.
Proof.
  unfold cv_runs, cv_ids. cbn [map]. rewrite elem_of_cons, map_map. simpl. tauto.
Qed.

Lemma sole_inuse st i t : sole st i t -> DMS_IS_MB_INUSE (mb_flag (mb_at st i)) = true.
Proof. intros [_ H _ _ _]. by apply andb_prop in H as [H _]. Qed.

(** A step of one collection leaves the others alone. *)
Lemma store_step st cvs held rest i c st' c' :
  store_held st cvs held rest -> cvs !! i = Some c ->
  stepped i st held c None st' c' ->
  exists held', store_held st' (<[i := c']> cvs) held' rest.
Proof.
  intros (Hs&HP&Hc) Hi [B1 B2 B3 B4 B5 (h2&B6&B7)]. exists h2.
  assert (h2 ≡ₚ (rest ++ all_runs (delete i cvs)) ++ cv_runs c') as HP2.
  { apply B7. rewrite HP, (runs_delete _ _ _ Hi). solve_Permutation. }
  split; [done|]. split.
  { rewrite HP2, runs_insert. solve_Permutation. }
  intros j cj Hj. destruct (decide (j = i)) as [->|Hij].
  { rewrite lookup_insert_eq in Hj. simplify_eq. split; [done|]. split; [apply (Hc _ _ Hi)|].
    by eapply sole_inuse. }
  rewrite lookup_insert_ne in Hj by done.
  assert (delete i cvs !! j = Some cj) as Hj' by (by rewrite lookup_delete_ne).
  assert (forall e, e ∈ map fst (cv_runs cj) -> e ∉ map fst (cv_runs c')) as Hd.
  { intros e He He'. eapply runs_disjoint; [exact B6|exact HP2| |exact He'].
    rewrite map_app. apply elem_of_app. right. rewrite (runs_delete _ _ _ Hj'), map_app.
    apply elem_of_app. by left. }
  assert (forall e, e ∈ cv_ids cj -> e ∉ cv_ids c') as Hd1.
  { intros e He He'. eapply (Hd e); apply cv_runs_ids; by left. }
  destruct (Hc _ _ Hj) as [Hcj [Hsl Huse]]. split; [|split; [done|]; by rewrite (fr_mb _ _ _ _ _ B5)].
  eapply col_ok_same; [exact Hcj| | | | | |].
  - intros e He. by apply B5, Hd1.
  - intros r Hr. by apply B5, Hd1.
  - by apply B5.
  - apply B5. rewrite <- B3. intros E. eapply (Hd (cv_mx cj).1); apply cv_runs_ids; [by right|].
    right. done.
  - apply B5.
  - intros e He. eapply (owns_adr _ h2 cj); [done| |done]. unfold owns.
    rewrite HP2, (runs_delete _ _ _ Hj'). rewrite <- app_assoc.
    apply submseteq_inserts_l. rewrite <- app_assoc. apply submseteq_inserts_r. done.
Qed.

Lemma store_same st cvs held rest i c st' c' :
  store_held st cvs held rest -> cvs !! i = Some c -> contents c' = contents c ->
  stepped i st held c None st' c' -> store_ok st' (contents <$> cvs).
Proof.
  intros H Hi Hct Hstep. destruct (store_step _ _ _ _ _ _ _ _ H Hi Hstep) as [h2 H2].
  exists (<[i := c']> cvs), h2, rest. split; [done|]. rewrite fmap_insert, Hct.
  symmetry. apply insert_id. by rewrite lookup_fmap, Hi.
Qed.

(** What a caller of [insertRecord] may rely on. *)
Definition insert_refined (A : absStore) (mbID : Z) (d : list Z)
    (res : outcome Z * blockData) : Prop :=
  let '(o, st') := res in
  match o with
  | Ok rc =>
      (exists t, sole st' mbID t) /\
      if decide (rc = SDB_OK)
      then exists r A', spec_insert A mbID r d A' /\ store_ok st' A'
      else store_ok st' A
  | Throw _ => False
  | Stop w => w = Panic
  end.

Lemma store_aux st cvs held rest x :
  store_held st cvs held rest -> store_held (set_aux st x) cvs held rest.
Proof.
  intros (Hs&HP&Hc). split; [by apply space_ok_aux|]. split; [done|].
  intros i c Hi. destruct (Hc _ _ Hi). split; [by apply col_ok_aux|done].
Qed.

Lemma store_owns cvs held rest i c :
  held ≡ₚ rest ++ all_runs cvs -> cvs !! i = Some c -> owns held c.
Proof.
  intros HP Hi. unfold owns. rewrite HP, (runs_delete _ _ _ Hi).
  apply submseteq_inserts_l, submseteq_inserts_r. done.
Qed.

Lemma insert_ok os st A mbID t fs mustOID position oid :
  store_ok st A -> is_Some (A !! mbID) -> sole st mbID t ->
  doc_ok fs -> is_bytes oid -> length oid = 12%nat -> id_checked fs ->
  insert_refined A mbID (enc_doc (stored_doc fs mustOID oid))
    (insertRecord os (enc_doc fs) mustOID position oid st).
Proof.
  intros (cvs&held&rest&H&->) Hin Hso Hd Hb Hl Hid.
  rewrite lookup_fmap, fmap_is_Some in Hin. destruct Hin as [c Hi].
  pose proof H as (Hs&HP&Hc).
  pose proof (wp_insertRecord os mbID fs mustOID position oid st held c t (proj1 (Hc _ _ Hi)) Hs
    (store_owns _ _ _ _ _ HP Hi) Hso Hd Hb Hl Hid) as Hwp.
  unfold wp in Hwp. destruct (insertRecord _ _ _ _ _ _) as [[rc|e|w] st']; [|done..].
  unfold insert_post in Hwp. simpl in Hwp. unfold insert_refined. case_decide.
  - destruct Hwp as (c'&r&Hstep&Hr&l1&l2&E1&E2).
    split; [eexists; apply Hstep|].
    exists r, (contents <$> <[mbID := c']> cvs). split.
    + exists l1, l2. rewrite lookup_fmap, Hi. simpl. rewrite <- E1. split; [done|]. split; [done|].
      by rewrite fmap_insert, E2.
    + destruct (store_step _ _ _ _ _ _ _ _ H Hi Hstep) as [h2 H2]. by eexists _, h2, rest.
  - destruct Hwp as (c'&Hct&[Hstep|(->&x&->)]).
    + split; [eexists; apply Hstep|]. by eapply store_same.
    + split; [exists t; by apply sole_aux|]. exists cvs, held, rest. split; [by apply store_aux|done].
Qed.

(** C1: [insertRecord] refines the abstract insertion, whatever the operating
    system answers, in a storage unit of any number of collections: it ends;
    when it reports success exactly the document it was given (with the new
    [_id] where one is due) is in that collection, under an identifier no
    other record had, and when it reports an error every collection has the
    records it had; the other collections, the chains, the delete lists, the
    index and the ownership of pages stay in order; no exception leaves it. *)
Theorem insert_refines os st A mbID t fs mustOID position oid :
  store_ok st A -> is_Some (A !! mbID) -> sole st mbID t ->
  doc_ok fs -> is_bytes oid -> length oid = 12%nat -> id_checked fs ->
  insert_refined A mbID (enc_doc (stored_doc fs mustOID oid))
    (insertRecord os (enc_doc fs) mustOID position oid st).
Proof. apply insert_ok. Qed.

(** C28: The search for space ends: in a storage unit that is in order the
    retry loop of [_allocRecordSpace] goes round at most twice, because the
    extent that its first round adds has room for the record; and more fuel
    would not change its result. *)
Theorem allocRecordSpace_terminates os st A mbID req n :
  store_ok st A -> is_Some (A !! mbID) -> sole st mbID EXCLUSIVE -> 1 <= req <= DMS_RECORD_MAX_SZ ->
  allocRecordSpace_retry os (2 + n) req st = allocRecordSpace_retry os 2 req st /\
  ((exists res, (allocRecordSpace_retry os 2 req st).1 = Ok res) \/
   (allocRecordSpace_retry os 2 req st).1 = Stop Panic).
Proof.
  intros (cvs&held&rest&(Hs&HP&Hc)&->) Hin Hso Hreq.
  rewrite lookup_fmap, fmap_is_Some in Hin. destruct Hin as [c Hi]. destruct (Hc _ _ Hi) as [Hci _].
  pose proof (fun m => wp_retry_twice os mbID m st held c req Hci Hs (store_owns _ _ _ _ _ HP Hi) Hso Hreq) as H.
  split.
  - induction n as [|n IH]; [done|]. rewrite <- IH. apply (retry_more os req (2 + n)). specialize (H n).
    unfold wp in H. intros E. change (2 + n)%nat with (S (S n)) in E. rewrite E in H. done.
  - specialize (H 0%nat). unfold wp in H. destruct (allocRecordSpace_retry os 2 req st) as [[res|e|w] st'].
    + left. by exists res.
    + done.
    + right. simpl in *. by subst w.
Qed.

(** C27: [_findFreeSpace] for a caller without a context, whatever the
    operating system answers: it ends; on success the pages it returns were
    held by nobody, lie in one segment that is mapped, and belong to the
    caller from now on, while every other run stays with its owner; on an
    error no page changes hands.  The file may have grown in both cases; the
    extents and records are untouched. *)
Theorem findFreeSpace_correct os n st held :
  space_ok st held -> 0 < n <= g_segmentPages (bd_geo st) ->
  let '(o, st') := findFreeSpace os n false st in
  match o with
  | Ok (rc, found) =>
      cells_eq st st' /\
      (rc = SDB_OK /\ space_ok st' ((found, n) :: held) /\ ext_null st' found = false /\
         (forall p, in_run found n p -> owners held p = 0) \/
       rc <> SDB_OK /\ found = DMS_INVALID_EXTENT /\ space_ok st' held)
  | Throw _ => False
  | Stop w => w = Panic
  end.
Proof.
  intros Hs Hn. pose proof (wp_findFreeSpace os 0 false n st held Hs Hn ltac:(done)) as H. unfold wp in H.
  destruct (findFreeSpace os n false st) as [[[rc found]|e|w] st']; destruct H as (Hc&_&H); [|done..].
  destruct H as [_ [(->&Hf&Hs')|H]]; (split; [done|]); [left|by right].
  destruct (space_adr _ _ found n Hs') as (Ha&_); [left|]. split_and!; try done.
  intros p Hp. assert (0 <= p) as H0 by (unfold in_run in Hp; lia).
  pose proof (ci_owners _ _ (sp_client _ _ Hs') p H0) as Ho. cbn [fst snd] in Ho.
  rewrite owners_cons in Ho. cbn [fst snd] in Ho. rewrite decide_True in Ho by done.
  pose proof (owners_nonneg held p).
  destruct (bm_get_01 (sh_SME (sm_shared (bd_smeMgr st'))) p H0) as [E|E]; cbn in E; rewrite E in Ho;
    unfold DMS_SME_FREE, DMS_SME_ALLOCATED in *; lia.
Qed.
