(* ===== verification/DmsCollection.v ===== *)
(** * Collections, contexts and the storage unit's life cycle: the rest of
    [_dmsBlockData] (src/src/dms/dmsBlockData.cpp, dmsBlockData.hpp) and
    [_dmsBlockUnit] (src/src/dms/dmsBlockUnit.cpp)

    The metadata latch and the context latch are not part of the state: a
    session's critical sections are the atomic steps of the model.  The fields
    of the state that are mapped from the file hold the file's content before
    it is opened. *)
From S2P Require Import Prelude.
From S2P Require Import ByteBits.
From S2P Require Import OssBase.
From S2P Require Import OssMmap.
From S2P Require Import DmsBase.
From S2P Require Import DmsName.
From S2P Require Import DmsSegmentSpace.
From S2P Require Import DmsSMEMgr.
From S2P Require Import DmsRecord.
From S2P Require Import DmsDirtyList.
From S2P Require Import DmsMBContext.
From S2P Require Import DmsExtent.
From S2P Require Import DmsMB.
From S2P Require Import Bson.
From S2P Require Import DmsStore.
From S2P Require Import DmsInsert.
From Stdlib Require Import String.
#[local] Open Scope Z_scope.

Definition DMS_CONTEXT_MAX_SIZE : Z := 2000.
Definition OSS_MAX_PATHSIZE : Z := 4096.

Definition aux_mod (f : auxState -> auxState) : M unit :=
  modify (fun st => set_aux st (f (bd_aux st))).

(** ** Lookup *)

Definition collectionNameLookup (st : blockData) (name : string) : Z :=
  default DMS_INVALID_MBID (bd_names st !! name).

Definition collectionIdLookup (st : blockData) (clUniqueID : Z) : Z :=
  if UTIL_IS_VALID_CLUNIQUEID clUniqueID
  then default DMS_INVALID_MBID (bd_ids st !! clUniqueID)
  else DMS_INVALID_MBID.

Definition collectionInsert (name : string) (mbID clUniqueID : Z) : M unit :=
  modify (fun st => set_names st (<[name := mbID]> (bd_names st))
    (if UTIL_IS_VALID_CLUNIQUEID clUniqueID
     then <[clUniqueID := mbID]> (bd_ids st) else bd_ids st)).

Definition releaseSpace (pageStart numPages : Z) : M Z :=
  st ← get_st;
  let '(rc, m) := mgr_releasePages (geo_of (bd_geo st)) (bd_smeMgr st) pageStart (u16 numPages) in
  modify (fun st => set_sme st m);;
  mret rc.

Section Collection.
  Context (os : nat -> Z).

(** ** Contexts *)

(** The session's context after the call; a pooled context was reset when it
    was released, so it is like a new one. *)
Definition releaseMBContext : M unit :=
  ctx_mbUnlock;;
  modify (fun st => set_lock st (bd_latch st) ctx_reset);;
  aux_mod (fun a => if ax_pool a <? DMS_CONTEXT_MAX_SIZE
                    then ax_with_pool a (ax_pool a + 1) else a).

Definition getMBContext (mbID clLID startLID lockType : Z) : M Z :=
  if DMS_MME_SLOTS <=? mbID then mret SDB_INVALIDARG
  else
    st ← get_st;
    let clLID := if DMS_INVALID_CLID =? clLID then mb_logicalID (mb_at st mbID) else clLID in
    let startLID := if DMS_INVALID_CLID =? startLID then st_startLID (stat_at st mbID)
                    else startLID in
    rc ← (if 0 <? ax_pool (bd_aux st)
          then aux_mod (fun a => ax_with_pool a (ax_pool a - 1));; mret SDB_OK
          else syscall os);
    if negb (rc =? 0) then mret SDB_OOM
    else
      modify (fun st => set_lock st (bd_latch st) (mkMBContext clLID startLID mbID (-1) (-1)));;
      if valid_mode lockType then
        rc ← ctx_mbLock lockType;
        if negb (rc =? 0) then releaseMBContext;; mret rc else mret SDB_OK
      else mret SDB_OK.

Definition getMBContextByName (name : string) (lockType : Z) : M Z :=
  st ← get_st;
  let mbID := collectionNameLookup st name in
  if DMS_INVALID_MBID =? mbID then mret SDB_DMS_NOTEXIST
  else getMBContext mbID (mb_logicalID (mb_at st mbID)) (st_startLID (stat_at st mbID)) lockType.

(** ** Flushing the metadata *)

Fixpoint flushMeta_loop (n : nat) (i : Z) (except : list Z) (rc : Z) : M Z :=
  match n with
  | O => mret rc
  | S n =>
      if bool_decide (i ∈ except) then flushMeta_loop n (i + 1) except rc
      else
        rcTmp ← mmap_flush i;
        flushMeta_loop n (i + 1) except
          (if negb (rcTmp =? 0) && (SDB_OK =? rc) then rcTmp else rc)
  end.

Definition flushMeta (except : list Z) : M Z :=
  syncMemToMmap;;
  st ← get_st;
  flushMeta_loop (Z.to_nat (bd_dataSegID st)) 0 except SDB_OK.

(** ** [addCollection] *)

Definition hd_with_mb (h : dmsStorageUnitHeader) (numMB mbhwm : Z) :=
  mkHeader (hd_eyeCatcher h) (hd_version h) (hd_pageSize h) (hd_storageUnitSize h) (hd_name h)
    (hd_sequence h) numMB mbhwm (hd_pageNum h) (hd_csUniqueID h).

Definition header_mod (f : dmsStorageUnitHeader -> dmsStorageUnitHeader) : M unit :=
  seg_mod (fun s => seg_with_header s (f (sg_header s)) (sg_pageNum s)).

Definition free_slot (st : blockData) : Z :=
  default DMS_INVALID_MBID
    (head (filter (fun i => DMS_IS_MB_FREE (mb_flag (mb_at st i))) (seqZ 0 DMS_MME_SLOTS))).

(** From the metadata latch to its release: return code, the collection and
    its logical identifier, and what is left in [mbExExtent]. *)
Definition registerCollection (name : string) (clUniqueID attributes segNum mbExSize mbEx : Z)
    : M (Z * Z * Z * Z) :=
  st ← get_st;
  if negb (DMS_INVALID_MBID =? collectionNameLookup st name)
  then mret (SDB_DMS_EXIST, DMS_INVALID_MBID, DMS_INVALID_CLID, mbEx)
  else if negb (DMS_INVALID_MBID =? collectionIdLookup st clUniqueID)
  then mret (SDB_DMS_UNIQUEID_CONFLICT, DMS_INVALID_MBID, DMS_INVALID_CLID, mbEx)
  else if DMS_MME_SLOTS <=? hd_numMB (sg_header (bd_seg st))
  then mret (SDB_DMS_NOSPC, DMS_INVALID_MBID, DMS_INVALID_CLID, mbEx)
  else
    let newID := free_slot st in
    if DMS_INVALID_MBID =? newID
    then mret (SDB_SYS, newID, DMS_INVALID_CLID, mbEx)
    else
      let logicalID := hd_MBHWM (sg_header (bd_seg st)) in
      header_mod (fun h => hd_with_mb h (hd_numMB h) (u32 (hd_MBHWM h + 1)));;
      mb_mod newID (fun b => mb_reset b (Some name) clUniqueID newID logicalID attributes);;
      aux_mod (fun a => ax_with_disk a (<[newID := diskStat_zero]> (ax_diskStat a)));;
      stat_mod newID (fun _ => stat_with_startLID stat_reset logicalID);;
      header_mod (fun h => hd_with_mb h (u32 (hd_numMB h + 1)) (hd_MBHWM h));;
      collectionInsert name newID clUniqueID;;
      ok ← extWritePtr newID mbEx true;
      if negb ok then mret (SDB_SYS, newID, logicalID, mbEx)
      else
        mbex_mod mbEx (fun x => me_init (mbx_array x) mbExSize newID segNum);;
        mb_mod newID (fun b => mb_with_ex b mbEx DMS_INVALID_EXTENT);;
        mret (SDB_OK, newID, logicalID, DMS_INVALID_EXTENT).

(** Return code, collection and logical identifier. *)
Definition addCollection (name : string) (clUniqueID attributes initPages : Z)
    (sysCollection : bool) : M (Z * Z * Z) :=
  scope (
    st ← get_st;
    let segNum := Z.shiftr DMS_MAX_PG (g_segmentPagesSquare (bd_geo st)) in
    let mbExSize := u32 (Z.shiftr (u32 (Z.shiftl segNum 3)) (g_pageSizeSquare (bd_geo st)) + 1) in
    '(rc, newID, logicalID, mbEx, locked) ←
      (let rc := dmsCheckCLName name sysCollection in
       if negb (rc =? 0)
       then mret (rc, DMS_INVALID_MBID, DMS_INVALID_CLID, DMS_INVALID_EXTENT, false)
       else
         '(rc, mbEx) ← findFreeSpace os (u16 mbExSize) false;
         if negb (rc =? 0)
         then mret (rc, DMS_INVALID_MBID, DMS_INVALID_CLID, mbEx, false)
         else
           '(rc, newID, logicalID, mbEx) ←
             registerCollection name clUniqueID attributes segNum mbExSize mbEx;
           if negb (rc =? 0) then mret (rc, newID, logicalID, mbEx, false)
           else
             rc ← getMBContext newID logicalID logicalID EXCLUSIVE;
             if negb (rc =? 0) then mret (rc, newID, logicalID, mbEx, false)
             else if negb (0 =? initPages) then
               '(rc, _) ← allocateExtent os initPages true false;
               mret (rc, newID, logicalID, mbEx, true)
             else mret (SDB_OK, newID, logicalID, mbEx, true));
    (if negb (rc =? 0) && negb (DMS_INVALID_EXTENT =? mbEx)
     then releaseSpace mbEx mbExSize;; mret tt else mret tt);;
    (if locked : bool then releaseMBContext else mret tt);;
    (if SDB_OK =? rc then flushMeta [];; mret tt else mret tt);;
    mret (rc, newID, logicalID)).

(** ** Reading a record *)

Definition extractData (rid : dmsRecordID) : M (Z * dmsRecordData) :=
  pRecord ← recReadPtr rid 0;
  st ← get_st;
  if negb (isMBLockAny (bd_ctx st)) then mret (SDB_SYS, rd_reset)
  else
    pRecord ← (if rec_isOvf pRecord then recReadPtr (rec_getOvfRID pRecord) 0
               else mret pRecord);
    let len := rec_getDataLength pRecord in
    mret (SDB_OK, rd_setData rd_reset (rec_getData pRecord (Z.to_nat len)) len
                    UTIL_COMPRESSOR_INVALID true).

(** ** Opening *)

Definition mb_clear (b : dmsMB) : dmsMB :=
  mb_reset b None UTIL_UNIQUEID_NULL DMS_INVALID_MBID DMS_INVALID_CLID 0.

Definition initializeMME : M unit :=
  modify (fun st => set_MME st
    (foldr (fun i m => <[i := mb_clear (default mb_zero (m !! i))]> m) ∅
       (seqZ 0 DMS_MME_SLOTS)));;
  aux_mod (fun a => ax_with_disk a ∅).

(** [_writeFile]: [ossWrite] answers with a return code and the number of
    bytes written.  A write that never gets anywhere repeats for ever. *)
Fixpoint writeFile (fuel : nat) (needWrite : Z) : M Z :=
  match fuel with
  | O => stop Diverges
  | S fuel =>
      if 0 <? needWrite then
        rc ← syscall os;
        written ← syscall os;
        if negb (rc =? 0) && negb (SDB_INTERRUPT =? rc) then mret rc
        else
          fileSize_mod (fun size => size + written);;
          writeFile fuel (needWrite - written)
      else mret SDB_OK
  end.

Definition onCreate : M Z :=
  alloc ← syscall os;
  if negb (alloc =? 0) then mret SDB_OOM
  else
    initializeMME;;
    writeFile retry_fuel DMS_MME_SZ.

Definition initializeStorageUnit : M Z :=
  rc ← syscall os;
  if negb (rc =? 0) then mret rc
  else
    alloc ← syscall os;
    if negb (alloc =? 0) then mret SDB_OOM
    else
      modify (fun st => set_seg st (seg_with_header (bd_seg st) (initHeader (bd_info st))
                                      (sg_pageNum (bd_seg st))));;
      rc ← writeFile retry_fuel DMS_HEADER_SZ;
      if negb (rc =? 0) then mret rc
      else
        alloc ← syscall os;
        if negb (alloc =? 0) then mret SDB_OOM
        else
          modify (fun st => set_sme st (mgr_new sme_new));;
          rc ← writeFile retry_fuel DMS_SME_SZ;
          if negb (rc =? 0) then mret rc else onCreate.

(** [_onMapMeta]: the slots in order. *)
Definition mapMeta_slot (i : Z) : M unit :=
  st ← get_st;
  let b := mb_at st i in
  stat_mod i (fun s => stat_with_tick s (u64 (Z.lnot 0)));;
  if DMS_IS_MB_INUSE (mb_flag b) then
    collectionInsert (mb_collectionName b) i (mb_clUniqueID b);;
    stat_mod i (fun s => stat_load s b (default diskStat_zero (bd_diskStat st !! i)))
  else mret tt.

Fixpoint mapMeta_slots (l : list Z) : M unit :=
  match l with
  | [] => mret tt
  | i :: l => mapMeta_slot i;; mapMeta_slots l
  end.

Definition onMapMeta : M Z :=
  modify (fun st => set_segIDs st (bd_dataSegID st) (segmentSize (sg_file (bd_seg st))));;
  rc ← mmap_map os DMS_MME_OFFSET DMS_MME_SZ;
  if negb (rc =? 0) then mret rc
  else mapMeta_slots (seqZ 0 DMS_MME_SLOTS);; mret SDB_OK.

(** Return code and size. *)
Definition mmap_size : M (Z * Z) := fun st =>
  let '(rc, size, n) := mm_size os (ax_calls (bd_aux st)) (sg_file (bd_seg st)) in
  (Ok (rc, size), set_aux st (ax_with_calls (bd_aux st) n)).

(** The checks of the file's length. *)
Definition openSize (fileSize : Z) : M (Z * Z) :=
  '(rc, fileSize) ←
    (if negb ((fileSize - dataOffset) mod DMS_SEGMENT_SZ =? 0) then
       rc ← truncateFile os ((fileSize - dataOffset) / DMS_SEGMENT_SZ * DMS_SEGMENT_SZ + dataOffset);
       if negb (rc =? 0) then mret (rc, fileSize) else mmap_size
     else mret (SDB_OK, fileSize));
  if negb (rc =? 0) then mret (rc, fileSize)
  else
    st ← get_st;
    let rightSize := hd_storageUnitSize (sg_header (bd_seg st)) * g_pageSize (bd_geo st) in
    if rightSize <? fileSize then
      rc ← truncateFile os rightSize;
      if negb (rc =? 0) then mret (rc, fileSize) else mmap_size
    else if fileSize <? rightSize then
      rc ← syscall os;
      (if rc =? 0 then fileSize_mod (fun size => size + (rightSize - fileSize)) else mret tt);;
      if negb (rc =? 0) then mret (rc, fileSize) else mmap_size
    else mret (SDB_OK, fileSize).

(** Mapping the data segments; [n] is how many are left. *)
Fixpoint openMap (n : nat) (currentOffset : Z) : M Z :=
  match n with
  | O => mret SDB_OK
  | S n =>
      rc ← mmap_map os currentOffset DMS_SEGMENT_SZ;
      if negb (rc =? 0) then mret rc else openMap n (currentOffset + DMS_SEGMENT_SZ)
  end.

Definition openData (fileSize : Z) : M Z :=
  modify (fun st => set_segIDs st (segmentSize (sg_file (bd_seg st))) (bd_mmeSegID st));;
  rc ← openMap (Z.to_nat (((fileSize - dataOffset) + DMS_SEGMENT_SZ - 1) / DMS_SEGMENT_SZ)) dataOffset;
  if negb (rc =? 0) then mret rc
  else
    seg_mod (fun s => seg_with_maxSegID s (segmentSize (sg_file s) - 1));;
    alloc ← syscall os;
    st ← get_st;
    let '(rc, d) := dirty_init (alloc =? 0) (bd_dirty st) (maxSegmentNum st) in
    modify (fun st => set_dirty st d);;
    if negb (rc =? 0) then mret rc
    else
      modify (fun st => set_dirty st (dirty_setSize (bd_dirty st)
        (u32 (segmentSize (sg_file (bd_seg st)) - bd_dataSegID st))));;
      mret SDB_OK.

(** The size of the file, brand new files being initialised first. *)
Definition openNew (createNew : bool) : M (Z * Z) :=
  '(rc, fileSize) ← mmap_size;
  if negb (rc =? 0) then mret (rc, fileSize)
  else if 0 =? fileSize then
    if negb createNew then mret (SDB_DMS_INVALID_SU, fileSize)
    else
      rc ← initializeStorageUnit;
      if negb (rc =? 0) then mret (rc, fileSize) else mmap_size
  else mret (SDB_OK, fileSize).

Definition openMeta : M Z :=
  rc ← mmap_map os DMS_HEADER_OFFSET DMS_HEADER_SZ;
  if negb (rc =? 0) then mret rc
  else
    st ← get_st;
    let '(rc, info, geo) := validateHeader (bd_info st) (bd_geo st) (sg_header (bd_seg st)) in
    modify (fun st => set_geo (set_info st info) geo);;
    modify (fun st => set_seg st (seg_with_header (bd_seg st) (sg_header (bd_seg st))
                                    (g_pageNum geo)));;
    if negb (rc =? 0) then mret rc
    else
      rc ← mmap_map os DMS_SME_OFFSET DMS_SME_SZ;
      if negb (rc =? 0) then mret rc
      else
        alloc ← syscall os;
        st ← get_st;
        let '(rc, m) := mgr_init (fun _ => alloc =? 0) (geo_of (bd_geo st))
                          (sg_pageNum (bd_seg st)) (sh_SME (sm_shared (bd_smeMgr st))) in
        modify (fun st => set_sme st m);;
        if negb (rc =? 0) then mret rc else onMapMeta.

(** [openStorage]; the result of building the path comes from the caller. *)
Definition openStorage (pathOK createNew : bool) : M Z :=
  rc ←
    (if negb pathOK then mret SDB_INVALIDARG
     else
       rc ← (fun st =>
               let '(rc, n, f) := mm_open os (ax_calls (bd_aux st)) (sg_file (bd_seg st)) in
               (Ok rc, set_aux (set_seg st (seg_with_file (bd_seg st) f))
                         (ax_with_calls (bd_aux st) n))) : M Z;
       if negb (rc =? 0) then mret rc
       else
         '(rc, fileSize) ← openNew createNew;
         if negb (rc =? 0) then mret rc
         else if fileSize <? dataOffset then mret SDB_DMS_INVALID_SU
         else
           rc ← openMeta;
           if negb (rc =? 0) then mret rc
           else
             '(rc, fileSize) ← openSize fileSize;
             if negb (rc =? 0) then mret rc else openData fileSize);
  (if negb (rc =? 0)
   then seg_mod (fun s => seg_with_file s (mm_close (sg_file s)))
   else mret tt);;
  mret rc.

(** ** [_dmsBlockUnit::insertRecord] *)

(** [name = None]: the caller passes the session's context. *)
Definition unit_insertRecord (name : option string) (record : list Z) (mustOID : bool)
    (position : Z) (oid : list Z) : M Z :=
  match name with
  | None => insertRecord os record mustOID position oid
  | Some name =>
      rc ← getMBContextByName name (-1);
      if negb (rc =? 0) then mret rc
      else
        rc ← insertRecord os record mustOID position oid;
        releaseMBContext;;
        mret rc
  end.

End Collection.
