(* ===== verification/DmsSession.v ===== *)
(** * Sessions touch the latch of their own collection only

    A generic account of computations that preserve a relation between the
    state before and after, and its use: every operation of the insertion
    path leaves the latches of other collections, the names and the
    identifier of the session's collection as they are. *)
From S2P Require Import Prelude.
From S2P Require Import ByteBits.
From S2P Require Import OssBase.
From S2P Require Import OssMmap.
From S2P Require Import DmsBase.
From S2P Require Import DmsName.
From S2P Require Import DmsSegmentSpace.
From S2P Require Import DmsSMEMgr.
From S2P Require Import DmsRecord.
From S2P Require Import DmsDirtyList.
From S2P Require Import DmsMBContext.
From S2P Require Import DmsExtent.
From S2P Require Import DmsMB.
From S2P Require Import Bson.
From S2P Require Import DmsStore.
From S2P Require Import DmsInsert.
From S2P Require Import DmsWp.
From S2P Require Import DmsCollection.
#[local] Open Scope Z_scope.

(** ** Computations that preserve a preorder *)

Section Pres.
  Context (R : blockData -> blockData -> Prop) `{!PreOrder R}.

Definition pres {A} (m : M A) : Prop := forall st, R st (m st).2.

Lemma pres_ret {A} (a : A) : pres (mret a : M A).
Proof. intros st. reflexivity. Qed.

Lemma pres_stop {A} w : pres (stop w : M A).
Proof. intros st. reflexivity. Qed.

Lemma pres_throw {A} e : pres (throw e : M A).
Proof. intros st. reflexivity. Qed.

Lemma pres_bind {A B} (m : M A) (f : A -> M B) : pres m -> (forall a, pres (f a)) -> pres (m ≫= f).
Proof.
  intros Hm Hf st. unfold mbind, M_bind. specialize (Hm st). destruct (m st) as [[a|e|w] st']; simpl in *; try done.
  etrans; [exact Hm|]. apply Hf.
Qed.

(** The continuation may rely on the state it read. *)
Lemma pres_get_bind {B} (f : blockData -> M B) : (forall st, R st (f st st).2) -> pres (get_st ≫= f).
Proof. intros Hf st. apply Hf. Qed.

Lemma pres_modify f : (forall st, R st (f st)) -> pres (modify f).
Proof. intros H st. apply H. Qed.

Lemma pres_aux {A} (m : M A) : only_aux m -> (forall st x, R st (set_aux st x)) -> pres m.
Proof. intros H Hx st. destruct (H st) as (a&x&->). apply Hx. Qed.

Lemma pres_catch m : pres m -> pres (catch m).
Proof. intros H st. unfold catch. specialize (H st). by destruct (m st) as [[a|e|w] st']. Qed.

Lemma pres_scope {A} (m : M A) : (forall st x, R st (set_aux st x)) -> pres m -> pres (scope m).
Proof.
  intros Hx H st. unfold scope. specialize (H (set_pending st [])).
  assert (R st (set_pending st [])) as H0 by apply Hx.
  destruct (m _) as [o st']; simpl in H.
  destruct (only_aux_markPending (ax_pending (bd_aux st')) st') as (a&y&Hy).
  assert (R st st') as H1 by (etrans; [exact H0|exact H]).
  destruct o; simpl; rewrite ?Hy; try done;
    (etrans; [exact H1|]; etrans; [apply (Hx st' y)|apply Hx]).
Qed.

End Pres.

(** ** The relation *)

Record own_latch (st st' : blockData) : Prop := {
  ol_id : cx_mbID (bd_ctx st') = cx_mbID (bd_ctx st);
  ol_latch : forall j, j <> cx_mbID (bd_ctx st) -> bd_latch st' !! j = bd_latch st !! j;
  ol_names : bd_names st' = bd_names st
}.

#[export] Instance own_latch_preorder : PreOrder own_latch.
Proof.
  split.
  - by intros st.
  - intros st1 st2 st3 [A1 A2 A3] [B1 B2 B3]. split; [congruence| |congruence].
    intros j Hj. rewrite B2 by congruence. by apply A2.
Qed.

Abbreviation keeps := (pres own_latch).

Lemma own_aux st x : own_latch st (set_aux st x).
Proof. by split. Qed.

(** The context of a lock operation stays that of the same collection. *)
Lemma mbLock_id s c m b f rc s' c' : mbLock_run s c m b f = Some (rc, s', c') -> cx_mbID c' = cx_mbID c.
Proof.
  unfold mbLock_run, mbl_enter, mb_pause, mbUnlock, mbl_post.
  intros H. repeat case_match; simplify_eq; try done.
Qed.

Lemma keeps_put st s c : cx_mbID c = cx_mbID (bd_ctx st) ->
  own_latch st (set_lock st (<[cx_mbID (bd_ctx st) := ms_latch s]> (bd_latch st)) c).
Proof. intros E. split; [done| |done]. intros j Hj. simpl. by rewrite lookup_insert_ne. Qed.

(** ** The operations *)

Create HintDb keeps.

Lemma keeps_get : keeps get_st.
Proof. by intros st. Qed.

Ltac keep1 :=
  first
    [ solve [eauto with keeps nocore]
    | apply pres_ret; apply _
    | apply pres_stop; apply _
    | apply pres_throw; apply _
    | apply pres_bind; [apply _| |intro]
    | apply pres_modify; intros; by split
    | apply pres_catch
    | apply pres_scope; [apply _|apply own_aux|]
    | match goal with
      | |- pres _ (match ?x with _ => _ end) => destruct x
      end ].
Ltac keep := cbv zeta; repeat (keep1; cbv zeta).

#[export] Hint Resolve keeps_get : keeps.

Section Ops.
  Context (os : nat -> Z).

Lemma keeps_lock (f : Z -> mbShared -> dmsMBContext -> option (Z * mbShared * dmsMBContext)) :
  (forall i s c rc s' c', f i s c = Some (rc, s', c') -> cx_mbID c' = cx_mbID c) ->
  keeps (st ← get_st;
         match f (cx_mbID (bd_ctx st)) (mb_shared st (cx_mbID (bd_ctx st))) (bd_ctx st) with
         | None => stop Waiting
         | Some (rc, s, c) => put_lock (cx_mbID (bd_ctx st)) s c;; mret rc
         end).
Proof.
  intros H. apply pres_get_bind. intros st.
  destruct (f _ _ _) as [[[rc s] c]|] eqn:E; [|done]. apply H in E. by apply keeps_put.
Qed.

Lemma keeps_ctx_mbLock m : keeps (ctx_mbLock m).
Proof. apply (keeps_lock (fun _ s c => mbLock s c m)). intros i s c rc s' c'. apply mbLock_id. Qed.

Lemma keeps_ctx_resume : keeps ctx_resume.
Proof.
  apply (keeps_lock (fun _ => mb_resume)). intros i s c rc s' c'. unfold mb_resume.
  case_match; [|by intros [= <- <- <-]]. intros E. by apply mbLock_id in E.
Qed.

Lemma keeps_ctx_pause : keeps ctx_pause.
Proof.
  apply pres_get_bind. intros st. cbv zeta. destruct (mb_pause _ _) as [[rc s] c] eqn:E.
  apply keeps_put. unfold mb_pause, mbUnlock in E. repeat case_match; by simplify_eq.
Qed.

Lemma keeps_ctx_mbUnlock : keeps ctx_mbUnlock.
Proof.
  apply pres_get_bind. intros st. cbv zeta. destruct (mbUnlock _ _) as [[rc s] c] eqn:E.
  apply keeps_put. unfold mbUnlock in E. repeat case_match; by simplify_eq.
Qed.

Lemma keeps_syscall : keeps (syscall os).
Proof. unfold syscall. keep. Qed.

Lemma keeps_mod f : (forall st, own_latch st (f st)) -> keeps (modify f).
Proof. apply pres_modify. Qed.

#[local] Hint Resolve keeps_ctx_mbLock keeps_ctx_resume keeps_ctx_pause keeps_ctx_mbUnlock
  keeps_syscall : keeps.

Lemma keeps_markDirty c e after : keeps (markDirty c e after).
Proof. apply pres_aux; [apply only_aux_markDirty|apply own_aux]. Qed.
#[local] Hint Resolve keeps_markDirty : keeps.

Lemma keeps_extWritePtr c e b : keeps (extWritePtr c e b).
Proof. unfold extWritePtr. keep. Qed.
#[local] Hint Resolve keeps_extWritePtr : keeps.

Lemma keeps_extReadPtr e : keeps (extReadPtr e).
Proof. unfold extReadPtr. keep. Qed.
Lemma keeps_recWritePtr c r len : keeps (recWritePtr c r len).
Proof. unfold recWritePtr. keep. Qed.
Lemma keeps_recReadPtr r len : keeps (recReadPtr r len).
Proof. unfold recReadPtr. keep. Qed.
Lemma keeps_mmap_map off len : keeps (mmap_map os off len).
Proof. intros st. unfold mmap_map. destruct (mm_map _ _ _ _ _) as [[rc n] f]. by split. Qed.
Lemma keeps_truncateFile size : keeps (truncateFile os size).
Proof. unfold truncateFile, fileSize_mod, seg_mod. keep. Qed.
#[local] Hint Resolve keeps_extReadPtr keeps_recWritePtr keeps_recReadPtr keeps_mmap_map
  keeps_truncateFile : keeps.

(** Extending the file and finding free pages. *)

Lemma keeps_extend_retry fuel : forall n size, keeps (extend_retry os fuel n size).
Proof. induction fuel as [|fuel IH]; intros n size; cbn [extend_retry]; unfold fileSize_mod, seg_mod; keep. Qed.
Lemma keeps_extend_map n : forall b size, keeps (extend_map os n b size).
Proof. induction n as [|n IH]; intros b size; cbn [extend_map]; unfold seg_mod; keep. Qed.
#[local] Hint Resolve keeps_extend_retry keeps_extend_map : keeps.
Lemma keeps_extendSegments n : keeps (extendSegments os n).
Proof. unfold extendSegments. keep. Qed.
#[local] Hint Resolve keeps_extendSegments : keeps.
Lemma keeps_findFreeSpace_loop fuel : forall n found b, keeps (findFreeSpace_loop os fuel n found b).
Proof. induction fuel as [|fuel IH]; intros n found b; cbn [findFreeSpace_loop]; keep. Qed.
#[local] Hint Resolve keeps_findFreeSpace_loop : keeps.

(** Delete lists and extents. *)

Lemma keeps_saveDeletedRecordAt i r n e : keeps (saveDeletedRecordAt i r n e).
Proof. unfold saveDeletedRecordAt, rec_mod, ext_mod, stat_mod, mb_mod. keep. Qed.
#[local] Hint Resolve keeps_saveDeletedRecordAt : keeps.
Lemma keeps_saveDeletedRecord i r n : keeps (saveDeletedRecord i r n).
Proof. unfold saveDeletedRecord. keep. Qed.
Lemma keeps_mapOne i e o n : keeps (mapOne i e o n).
Proof. unfold mapOne. keep. Qed.
#[local] Hint Resolve keeps_saveDeletedRecord keeps_mapOne : keeps.
Lemma keeps_map_loop fuel : forall i e n cur off, keeps (map_loop fuel i e n cur off).
Proof. induction fuel as [|fuel IH]; intros; cbn [map_loop]; keep. Qed.
#[local] Hint Resolve keeps_map_loop : keeps.
Lemma keeps_mapExtent2DelList i e : keeps (mapExtent2DelList i e).
Proof. unfold mapExtent2DelList, ext_mod. keep. Qed.
Lemma keeps_linkExtent i e p : keeps (linkExtent i e p).
Proof. unfold linkExtent, ext_mod, mb_mod. keep. Qed.
#[local] Hint Resolve keeps_mapExtent2DelList keeps_linkExtent : keeps.
Lemma keeps_addExtent2Meta e : keeps (addExtent2Meta e).
Proof. unfold addExtent2Meta, ext_mod, mb_mod, mbex_mod, stat_mod. keep. Qed.
Lemma keeps_addExtent2Load i e : keeps (addExtent2Load i e).
Proof. unfold addExtent2Load, ext_mod, mb_mod, mbex_mod, stat_mod. keep. Qed.
#[local] Hint Resolve keeps_addExtent2Meta keeps_addExtent2Load : keeps.
Lemma keeps_allocateExtent n d l : keeps (allocateExtent os n d l).
Proof. unfold allocateExtent, findFreeSpace, ext_mod. keep. Qed.
#[local] Hint Resolve keeps_allocateExtent : keeps.

(** Space for a record, and the record. *)

Lemma keeps_search_list n : forall i req j p r, keeps (search_list n i req j p r).
Proof. induction n as [|n IH]; intros; cbn [search_list]; unfold rec_mod, mb_mod; keep. Qed.
#[local] Hint Resolve keeps_search_list : keeps.
Lemma keeps_search_slots n : forall i req j, keeps (search_slots n i req j).
Proof. induction n as [|n IH]; intros; cbn [search_slots]; keep. Qed.
#[local] Hint Resolve keeps_search_slots : keeps.

Lemma keeps_allocRecordSpace_retry fuel : forall req, keeps (allocRecordSpace_retry os fuel req).
Proof.
  induction fuel as [|fuel IH]; intros req; cbn [allocRecordSpace_retry]; keep.
  intros st. pose proof (keeps_search_slots (mb_max - Z.to_nat (slot_loop 32 (Z.shiftr (u32 (req - 1)) 5) 0))
    (cx_mbID (bd_ctx a)) req (Z.to_nat (slot_loop 32 (Z.shiftr (u32 (req - 1)) 5) 0))) as H.
  apply (pres_scope own_latch _ own_aux) in H. specialize (H st). by destruct (scope _ st) as [[?|?|?] st'].
Qed.
#[local] Hint Resolve keeps_allocRecordSpace_retry : keeps.
Lemma keeps_allocRecordSpace req : keeps (allocRecordSpace os req).
Proof. unfold allocRecordSpace. keep. Qed.
Lemma keeps_extentInsertRecord e r d n b : keeps (extentInsertRecord e r d n b).
Proof. unfold extentInsertRecord, rec_mod, ext_mod, mb_mod, stat_mod. keep. Qed.
Lemma keeps_bson_lift {A} (r : bres A) : keeps (bson_lift r).
Proof. unfold bson_lift. keep. Qed.
#[local] Hint Resolve keeps_allocRecordSpace keeps_extentInsertRecord keeps_bson_lift : keeps.
Lemma keeps_prepareInsertData d m oid : keeps (prepareInsertData os d m oid).
Proof.
  intros st. unfold prepareInsertData. cbv zeta.
  match goal with |- own_latch st (match ?m st with _ => _ end).2 => assert (keeps m) as H by keep end.
  specialize (H st). match type of H with own_latch st (?m st).2 => by destruct (m st) as [[?|?|?] st'] end.
Qed.
#[local] Hint Resolve keeps_prepareInsertData : keeps.

(** The whole of [insertRecord]. *)
Lemma keeps_insertRecord d m p oid : keeps (insertRecord os d m p oid).
Proof. unfold insertRecord, allocRecordSpaceByPos. keep. Qed.

End Ops.

#[export] Hint Resolve keeps_ctx_mbLock keeps_ctx_resume keeps_ctx_pause keeps_ctx_mbUnlock
  keeps_syscall keeps_markDirty keeps_extWritePtr keeps_extReadPtr keeps_recWritePtr
  keeps_recReadPtr keeps_findFreeSpace_loop keeps_saveDeletedRecord keeps_allocateExtent
  keeps_search_slots keeps_insertRecord : keeps.

(** ** Latches *)

Definition latch_at (st : blockData) (i : Z) : ossSLatch := default latch_free (bd_latch st !! i).

(** Latches that nobody held are held by nobody afterwards; [but i]: latch [i]
    apart. *)
Definition frees_but (i : Z) (st st' : blockData) : Prop :=
  forall j, j <> i -> latch_at st j = latch_free -> latch_at st' j = latch_free.
Definition frees_kept (st st' : blockData) : Prop :=
  forall j, latch_at st j = latch_free -> latch_at st' j = latch_free.

Lemma frees_same st st' : bd_latch st' = bd_latch st -> frees_kept st st'.
Proof. intros E j. unfold latch_at. by rewrite E. Qed.

Lemma frees_trans st1 st2 st3 : frees_kept st1 st2 -> frees_kept st2 st3 -> frees_kept st1 st3.
Proof. intros H1 H2 j Hj. auto. Qed.

Lemma frees_kept_but i st1 st2 : frees_kept st1 st2 -> frees_but i st1 st2.
Proof. intros H j _. apply H. Qed.

Lemma frees_but_trans i st1 st2 st3 : frees_but i st1 st2 -> frees_but i st2 st3 -> frees_but i st1 st3.
Proof. intros H1 H2 j Hj Hl. by apply H2, H1. Qed.

Lemma frees_but_all i st1 st2 : frees_but i st1 st2 -> latch_at st2 i = latch_free -> frees_kept st1 st2.
Proof. intros H Hi j Hj. destruct (decide (j = i)) as [->|]; [done|by apply H]. Qed.

Lemma own_frees i st st' : own_latch st st' -> cx_mbID (bd_ctx st) = i -> frees_but i st st'.
Proof. intros [_ H _] <- j Hj. unfold latch_at. by rewrite H. Qed.

(** What is preserved may be used beside a specification. *)
Lemma wp_keeps {A} (m : M A) (Q : outcome A -> blockData -> Prop) st :
  keeps m -> wp m Q st -> wp m (fun o st' => Q o st' /\ own_latch st st') st.
Proof. intros Hk H. unfold wp in *. split; [done|apply Hk]. Qed.
