(* ===== verification/DmsCreateOk.v ===== *)
(** * Creating a collection is correct

    [addCollection] against the abstract storage unit: an empty collection in
    a slot that was free, or no change. *)
From S2P Require Import Prelude.
From S2P Require Import ByteBits.
From S2P Require Import Links.
From S2P Require Import OssBase.
From S2P Require Import OssMmap.
From S2P Require Import DmsBase.
From S2P Require Import DmsName.
From S2P Require Import DmsSegmentSpace.
From S2P Require Import DmsSMEMgr.
From S2P Require Import DmsRecord.
From S2P Require Import DmsDirtyList.
From S2P Require Import DmsMBContext.
From S2P Require Import DmsExtent.
From S2P Require Import DmsMB.
From S2P Require Import Bson.
From S2P Require Import DmsStore.
From S2P Require Import DmsInsert.
From S2P Require Import DmsWp.
From S2P Require Import DmsDelete.
From S2P Require Import DmsView.
From S2P Require Import DmsCol.
From S2P Require Import DmsSpaceOk.
From S2P Require Import DmsAlloc.
From S2P Require Import DmsInsertOk.
From S2P Require Import DmsInsertRecord.
From S2P Require Import DmsRefine.
From S2P Require Import DmsCollection.
From S2P Require Import DmsSession.
From Stdlib Require Import String.
#[local] Open Scope Z_scope.

(** ** The view of an empty collection *)

Definition emptyView (mx : Z * Z) : colView :=
  {| cv_exts := []; cv_fm := ∅; cv_D := repeat [] mb_max; cv_mx := mx |}.

Lemma del_ok_empty R : del_ok R (repeat rid_null mb_max) ∅ (repeat [] mb_max).
Proof.
  split; try by rewrite repeat_length.
  - intros j h l Hh Hl. apply list_elem_of_lookup_2, list_elem_of_In, repeat_spec in Hh.
    apply list_elem_of_lookup_2, list_elem_of_In, repeat_spec in Hl. by subst.
  - intros j l r Hl. apply list_elem_of_lookup_2, list_elem_of_In, repeat_spec in Hl. subst l. set_solver.
  - intros r s Hr. by rewrite lookup_empty in Hr.
  - intros j l Hl. apply list_elem_of_lookup_2, list_elem_of_In, repeat_spec in Hl. subst l. constructor.
  - intros r s Hr. by rewrite lookup_empty in Hr.
Qed.

(** The slot after [addCollection] filled it. *)
Definition new_mb (old : dmsMB) (name : string) (clUniqueID i lid attributes e : Z) : dmsMB :=
  mb_with_ex (mb_reset old (Some name) clUniqueID i lid attributes) e DMS_INVALID_EXTENT.

Lemma index_ok_empty g a n i :
  geometry_ok g -> index_ok g (me_init a n i (Z.shiftr DMS_MAX_PG (g_segmentPagesSquare g))) [].
Proof.
  intros (Hp&_&Hsq&_&_).
  assert (Z.shiftr DMS_MAX_PG (g_segmentPagesSquare g) < 1073741824).
  { rewrite Z.shiftr_div_pow2 by lia.
    apply Z.div_lt_upper_bound; [apply Z.pow_pos_nonneg; lia|]. unfold DMS_MAX_PG.
    pose proof (Z.pow_pos_nonneg 2 (g_segmentPagesSquare g) ltac:(lia) ltac:(lia)). lia. }
  split; try done.
  - intros s Hs. by apply me_init_get.
  - intros s Hs. by apply me_init_get.
  - constructor.
  - intros e He. by apply not_elem_of_nil in He.
Qed.

Lemma new_col_ok st old name u i lid attr e n a :
  geometry_ok (bd_geo st) -> mb_at st i = new_mb old name u i lid attr e ->
  mbex_at st e = me_init a n i (Z.shiftr DMS_MAX_PG (g_segmentPagesSquare (bd_geo st))) ->
  ext_null st e = false -> col_ok st i None (emptyView (e, n)).
Proof.
  intros Hg Hmb Hmx Hn. split; unfold dl_at; rewrite ?Hmb; try done.
  - apply del_ok_empty.
  - intros r s. simpl. rewrite lookup_empty. split; [done|].
    intros (v&Hv&_). by apply not_elem_of_nil in Hv.
  - split; [done..|constructor].
  - cbn [emptyView cv_mx fst]. rewrite Hmx. by apply index_ok_empty.
Qed.

(** ** Registration *)

(** What the slot of [i] and the metadata extent [e] of [n] pages become;
    nothing else of the collections changes. *)
Record registered (st : blockData) (name : string) (u attr i lid e n : Z) (st' : blockData) : Prop := {
  rg_mb : mb_at st' i = new_mb (mb_at st i) name u i lid attr e;
  rg_mbex : exists a, mbex_at st' e = me_init a n i (Z.shiftr DMS_MAX_PG (g_segmentPagesSquare (bd_geo st)));
  rg_frame : frame i e [] st (set_names st' (bd_names st) (bd_ids st));
  rg_names : bd_names st' = <[name := i]> (bd_names st);
  rg_seg : segmentSize (sg_file (bd_seg st')) = segmentSize (sg_file (bd_seg st)) /\
    hd_pageNum (sg_header (bd_seg st')) = hd_pageNum (sg_header (bd_seg st)) /\
    sg_maxSegID (bd_seg st') = sg_maxSegID (bd_seg st);
  rg_sme : bd_smeMgr st' = bd_smeMgr st;
  rg_lock : bd_ctx st' = bd_ctx st /\ bd_latch st' = bd_latch st
}.

Lemma free_slot_spec st :
  free_slot st <> DMS_INVALID_MBID ->
  0 <= free_slot st < DMS_MME_SLOTS /\ mb_flag (mb_at st (free_slot st)) = DMS_MB_FLAG_FREE.
Proof.
  unfold free_slot. destruct (filter _ _) as [|i l] eqn:E; [done|]. intros _. simpl. unfold id.
  assert (i ∈ filter (fun i => DMS_IS_MB_FREE (mb_flag (mb_at st i))) (seqZ 0 DMS_MME_SLOTS)) as Hi
    by (rewrite E; left).
  apply list_elem_of_filter in Hi as [Hf Hi]. apply elem_of_seqZ in Hi. split; [lia|].
  unfold DMS_IS_MB_FREE in Hf. apply Is_true_true in Hf. by apply Z.eqb_eq in Hf as <-.
Qed.

Lemma registered_intro st st' name u attr i lid e n a (M1 := <[i := mb_reset (mb_at st i) (Some name) u i lid attr]> (bd_MME st)) :
  bd_MME st' = <[i := mb_with_ex (default mb_zero (M1 !! i)) e DMS_INVALID_EXTENT]> M1 ->
  bd_mbex st' = <[e := me_init a n i (Z.shiftr DMS_MAX_PG (g_segmentPagesSquare (bd_geo st)))]> (bd_mbex st) ->
  bd_ext st' = bd_ext st -> bd_rec st' = bd_rec st -> bd_geo st' = bd_geo st ->
  bd_dataSegID st' = bd_dataSegID st -> bd_names st' = <[name := i]> (bd_names st) ->
  sg_file (bd_seg st') = sg_file (bd_seg st) ->
  hd_pageNum (sg_header (bd_seg st')) = hd_pageNum (sg_header (bd_seg st)) ->
  sg_maxSegID (bd_seg st') = sg_maxSegID (bd_seg st) ->
  bd_smeMgr st' = bd_smeMgr st -> bd_ctx st' = bd_ctx st -> bd_latch st' = bd_latch st ->
  registered st name u attr i lid e n st'.
Proof.
  intros E1 E2 E3 E4 E5 E6 E7 E8 E9 E10 E11 E12 E13. subst M1. split; try done.
  - unfold mb_at at 1. by rewrite E1, lookup_insert_eq, lookup_insert_eq.
  - exists a. unfold mbex_at. by rewrite E2, lookup_insert_eq.
  - split; try done; unfold ext_at, rec_at, mb_at, mbex_at; cbn [set_names bd_ext bd_rec bd_MME bd_mbex].
    + intros y _. by rewrite E3.
    + intros r _. by rewrite E4.
    + intros j Hj. by rewrite E1, !lookup_insert_ne.
    + intros y Hy. by rewrite E2, lookup_insert_ne.
  - by rewrite E8.
Qed.

(** A step by step account of the state, which the kernel checks quickly. *)
Lemma wp_modify_as {B} g (f : unit -> M B) (Q : outcome B -> blockData -> Prop) st :
  (forall st', st' = g st -> wp (f tt) Q st') -> wp (modify g ≫= f) Q st.
Proof. intros H. apply wp_modify_bind. by apply H. Qed.

Ltac lazy_proj :=
  cbn [mb_upd mbex_upd stat_upd set_MME set_mbex set_stat set_seg set_aux set_names mb_at
       bd_info bd_geo bd_dataSegID bd_mmeSegID bd_seg bd_smeMgr bd_MME bd_names bd_ids bd_ext bd_mbex
       bd_rec bd_latch bd_ctx bd_mbStatInfo bd_aux seg_with_header sg_file sg_header sg_maxSegID
       hd_with_mb hd_pageNum].

Lemma wp_registerCollection st name u attr n e (Q : outcome (Z * Z * Z * Z) -> blockData -> Prop) :
  ext_null st e = false ->
  (forall rc i lid, rc <> SDB_OK -> Q (Ok (rc, i, lid, e)) st) ->
  (forall i lid st', 0 <= i < DMS_MME_SLOTS -> mb_flag (mb_at st i) = DMS_MB_FLAG_FREE ->
     collectionNameLookup st name = DMS_INVALID_MBID ->
     registered st name u attr i lid e n st' ->
     Q (Ok (SDB_OK, i, lid, DMS_INVALID_EXTENT)) st') ->
  wp (registerCollection name u attr (Z.shiftr DMS_MAX_PG (g_segmentPagesSquare (bd_geo st))) n e) Q st.
Proof.
  intros Hn Herr HQ. unfold registerCollection. apply wp_get_bind.
  destruct (Z.eqb_spec DMS_INVALID_MBID (collectionNameLookup st name)) as [En|_]; cbn [negb];
    [|apply wp_ret; by apply Herr].
  destruct (_ =? _); cbn [negb]; [|apply wp_ret; by apply Herr].
  destruct (_ <=? _); [apply wp_ret; by apply Herr|]. cbv zeta.
  destruct (Z.eqb_spec DMS_INVALID_MBID (free_slot st)) as [_|Hfree]; [apply wp_ret; by apply Herr|].
  destruct (free_slot_spec st) as [Hi Hf]; [congruence|]. set (i := free_slot st) in *.
  set (lid := hd_MBHWM (sg_header (bd_seg st))).
  apply wp_modify_as. intros st1 E1. apply wp_modify_as. intros st2 E2.
  apply wp_modify_as. intros st3 E3. apply wp_modify_as. intros st4 E4.
  apply wp_modify_as. intros st5 E5. apply wp_modify_as. intros st6 E6.
  apply wp_bind, wp_extWritePtr.
  { rewrite <- Hn. unfold ext_null, extentAddr, extent2Segment, extent2SegOffset, bd_maxSegID.
    by rewrite E6, E5, E4, E3, E2, E1. }
  intros x. remember (set_aux st6 x) as st7 eqn:E7. cbn [negb].
  apply wp_modify_as. intros st8 E8. apply wp_modify_as. intros st9 E9. apply wp_ret. apply HQ; try done.
  apply (registered_intro st st9 name u attr i lid e n (mbx_array (mbex_at st7 e)));
    (rewrite E9; lazy_proj; rewrite E8; lazy_proj; rewrite E7; lazy_proj; rewrite E6; lazy_proj;
     rewrite E5; lazy_proj; rewrite E4; lazy_proj; rewrite E3; lazy_proj; rewrite E2; lazy_proj;
     rewrite E1; lazy_proj; reflexivity).
Qed.

(** ** The new collection in the storage unit *)

Lemma free_not_used st cvs held rest i :
  store_held st cvs held rest -> mb_flag (mb_at st i) = DMS_MB_FLAG_FREE -> cvs !! i = None.
Proof.
  intros (_&_&Hc) Hf. destruct (cvs !! i) as [c|] eqn:E; [|done].
  destruct (Hc _ _ E) as [_ [_ Hu]]. by rewrite Hf in Hu.
Qed.

Lemma store_reserved st st' cvs held rest e n :
  store_held st cvs held rest -> cells_eq st st' -> space_ok st' ((e, n) :: held) ->
  store_held st' cvs ((e, n) :: held) ((e, n) :: rest).
Proof.
  intros (Hs&HP&Hc) Hce Hs'. split; [done|]. split; [by rewrite HP|].
  intros i c Hi. destruct (Hc _ _ Hi) as [Hci Hsl].
  assert (owns ((e, n) :: held) c) as Ho.
  { apply submseteq_cons. by eapply store_owns. }
  split; [by eapply col_cells|]. unfold slot_ok, mb_at. by rewrite (ce_MME _ _ Hce).
Qed.

Lemma store_cells st st' cvs held rest :
  store_held st cvs held rest -> cells_eq st st' -> space_ok st' held -> store_held st' cvs held rest.
Proof.
  intros (Hs&HP&Hc) Hce Hs'. split; [done|]. split; [done|].
  intros i c Hi. destruct (Hc _ _ Hi) as [Hci Hsl].
  split; [eapply col_cells; [done..|by eapply store_owns]|]. unfold slot_ok, mb_at. by rewrite (ce_MME _ _ Hce).
Qed.

Lemma registered_space st st' name u attr i lid e n held :
  registered st name u attr i lid e n st' -> space_ok st held -> space_ok st' held.
Proof.
  intros [_ _ F _ (S1&S2&S3) E1 _] [H1 H2 H3 H4 H5 H6].
  pose proof (fr_geo _ _ _ _ _ F) as Eg. pose proof (fr_dataseg _ _ _ _ _ F) as Ed. simpl in Eg, Ed.
  split; unfold bd_maxSegID in *; rewrite ?Eg, ?Ed, ?E1, ?S1, ?S2, ?S3; done.
Qed.

Lemma store_registered st st' name u attr i lid e n cvs held rest :
  store_held st cvs held ((e, n) :: rest) ->
  0 <= i < DMS_MME_SLOTS -> mb_flag (mb_at st i) = DMS_MB_FLAG_FREE ->
  registered st name u attr i lid e n st' ->
  store_held st' (<[i := emptyView (e, n)]> cvs) held rest.
Proof.
  intros Hst Hi Hf Hr. pose proof Hst as (Hs&HP&Hc). pose proof (free_not_used _ _ _ _ _ Hst Hf) as Hnew.
  pose proof (registered_space _ _ _ _ _ _ _ _ _ _ Hr Hs) as Hs'.
  destruct Hr as [R1 [a R2] F R3 R4 R5 R6]. pose proof (fr_geo _ _ _ _ _ F) as Eg. simpl in Eg.
  assert (held ≡ₚ rest ++ all_runs (<[i := emptyView (e, n)]> cvs)) as HP'.
  { rewrite HP, runs_new by done. unfold cv_runs at 1. simpl. solve_Permutation. }
  split; [done|]. split; [done|]. intros j c Hj. destruct (decide (j = i)) as [->|Hij].
  - rewrite lookup_insert_eq in Hj. injection Hj as <-. split.
    + eapply new_col_ok; [apply Hs'|exact R1|rewrite Eg; exact R2|].
      destruct (space_adr _ _ e n Hs') as (Ha&_); [|done]. rewrite HP. set_solver.
    + split; [done|]. rewrite R1. unfold new_mb, mb_reset. cbn [mb_with_ex mb_flag]. rewrite Hf.
      destruct (Z.eqb_spec DMS_INVALID_MBID i); [unfold DMS_INVALID_MBID, DMS_MME_SLOTS in *; lia|done].
  - rewrite lookup_insert_ne in Hj by done. destruct (Hc _ _ Hj) as [Hcj [Hsl Hu]].
    pose proof (fr_mb _ _ _ _ _ F j Hij) as Emb.
    change (mb_at (set_names st' _ _) j) with (mb_at st' j) in Emb.
    split; [|by split; [|rewrite Emb]].
    assert (forall e', e' ∈ map fst (cv_runs c) -> e' <> e) as Hd.
    { intros e' He' ->. eapply (runs_disjoint _ _ ((e, n) :: rest) (all_runs cvs) e Hs HP); [left|].
      rewrite (runs_delete _ _ _ Hj), map_app. apply elem_of_app. by left. }
    eapply col_ok_same; [exact Hcj| | |done| |done|].
    + intros y _. apply F. apply not_elem_of_nil.
    + intros r _. apply F. apply not_elem_of_nil.
    + apply F. apply Hd, cv_runs_ids. by right.
    + intros y Hy. eapply (owns_adr _ held c); [done| |done].
      eapply (store_owns _ held rest); [exact HP'|]. by rewrite lookup_insert_ne.
Qed.

(** The extent that [addCollection] allocates at once. *)
Lemma alloc_stepped mbID st held c n rc e st' :
  col_ok st mbID None c -> owns held c -> alloc_post mbID st held c n (Ok (rc, e)) st' ->
  exists c', contents c' = contents c /\ stepped mbID st held c None st' c'.
Proof.
  intros Hc Ho [Hso [(Hrc&Hs&Hce)|(->&Hs&He&Hf&l&c'&Hadd&Hcol)]].
  - exists c. split; [done|]. split; try done; [by eapply col_cells|by apply frame_cells|].
    exists held. split; [done|]. by apply grows_same.
  - destruct (added_grows _ _ _ _ _ _ held Hadd) as (Hgr&Hcont&Hids&Hein).
    exists c'. split; [done|]. split; try done; [by destruct Hadd as (?&?&?&?&?&?&?&?)| |eauto].
    eapply (frame_trans _ _ (e :: cv_ids c) _ _ st'); [set_solver|exact Hf|apply frame_refl].
Qed.

(** ** Contexts *)

(** Only the session's context, the latches and the bookkeeping differ. *)
Definition sess_only (st st' : blockData) : Prop :=
  exists l c x, st' = set_aux (set_lock st l c) x.

Lemma sess_aux st x : sess_only st (set_aux st x).
Proof. exists (bd_latch st), (bd_ctx st), x. by destruct st. Qed.

Lemma sess_lock st st' : lock_only st st' -> sess_only st st'.
Proof. intros (l&c&->). exists l, c, (bd_aux st). by destruct st. Qed.

Lemma sess_trans st1 st2 st3 : sess_only st1 st2 -> sess_only st2 st3 -> sess_only st1 st3.
Proof. intros (l&c&x&->) (l'&c'&x'&->). by exists l', c', x'. Qed.

Lemma sess_store st st' cvs held rest :
  sess_only st st' -> store_held st cvs held rest -> store_held st' cvs held rest.
Proof.
  intros (l&c&x&->) H. eapply store_cells; [exact H|by split|]. apply space_ok_aux.
  eapply space_ok_lock; [by eexists _, _|]. apply H.
Qed.

Lemma sess_names st st' : sess_only st st' -> bd_names st' = bd_names st.
Proof. by intros (l&c&x&->). Qed.

Lemma wp_lock_own i t m st :
  sole st i t -> m = EXCLUSIVE \/ m = SHARED ->
  wp (ctx_mbLock m) (fun o st' => (o = Ok SDB_OK /\ lock_only st st' /\ sole st' i m) /\ own_latch st st') st.
Proof.
  intros Hso Hm. apply wp_keeps; [apply keeps_ctx_mbLock|]. by eapply wp_ctx_mbLock_mode.
Qed.

Lemma wp_getMBContext os st i clLID startLID lockType (Q : outcome Z -> blockData -> Prop) :
  i < DMS_MME_SLOTS -> clLID = mb_logicalID (mb_at st i) \/ clLID = DMS_INVALID_CLID ->
  DMS_IS_MB_INUSE (mb_flag (mb_at st i)) = true ->
  default latch_free (bd_latch st !! i) = latch_free ->
  lockType = EXCLUSIVE \/ lockType = SHARED \/ lockType = -1 ->
  (forall st', sess_only st st' -> bd_latch st' = bd_latch st -> Q (Ok SDB_OOM) st') ->
  (forall st', sess_only st st' -> sole st' i lockType -> frees_but i st st' -> Q (Ok SDB_OK) st') ->
  wp (getMBContext os i clLID startLID lockType) Q st.
Proof.
  intros Hi Hlid Hu Hl Hm Hoom HQ. unfold getMBContext.
  destruct (Z.leb_spec DMS_MME_SLOTS i); [lia|]. apply wp_get_bind. cbv zeta.
  set (lid := if DMS_INVALID_CLID =? clLID then _ else clLID).
  assert (lid = mb_logicalID (mb_at st i)) as Elid.
  { unfold lid. destruct (Z.eqb_spec DMS_INVALID_CLID clLID); [done|]. by destruct Hlid as [->| ->]. }
  apply wp_bind. apply (wp_mono _ (fun o st1 => exists rc x, o = Ok rc /\ st1 = set_aux st x)).
  { destruct (0 <? _).
    - apply wp_modify_bind, wp_ret. by eexists _, _.
    - apply wp_syscall. intros rc x. by eexists _, _. }
  intros o st1 (rc&x&->&->). destruct (Z.eqb_spec rc 0) as [->|]; cbn [negb].
  2: { apply wp_ret, Hoom; [apply sess_aux|done]. }
  apply wp_modify_bind. match goal with |- wp _ _ ?s => set (st2 := s) end.
  assert (sess_only st st2) as H2 by (by eexists _, _, _).
  assert (sole st2 i (-1)) as Hso.
  { split; try done; [|by right; right]. unfold mb_exists, mb_shared, st2. cbn. rewrite Elid.
    apply andb_true_intro. split; [exact Hu|]. apply Z.eqb_refl. }
  destruct Hm as [->|[->| ->]].
  3: { apply wp_ret. apply HQ; [done..|]. apply frees_kept_but. by apply frees_same. }
  all: change (valid_mode _) with true; cbv iota; apply wp_bind;
    (eapply wp_mono; [eapply wp_lock_own; [exact Hso|by auto]|]);
    intros o st3 [(->&Hl3&Hso3) Hown]; change (negb (SDB_OK =? 0)) with false; apply wp_ret, HQ;
    [eapply sess_trans; [exact H2|by apply sess_lock]|exact Hso3|];
    apply (frees_but_trans _ _ st2); [apply frees_kept_but; by apply frees_same|by apply own_frees].
Qed.

Lemma wp_releaseMBContext i t st (Q : outcome unit -> blockData -> Prop) :
  sole st i t ->
  (forall st', sess_only st st' -> frees_but i st st' -> latch_at st' i = latch_free -> Q (Ok tt) st') ->
  wp releaseMBContext Q st.
Proof.
  intros [Hid _ Ht Hl Hm] HQ. unfold releaseMBContext. apply wp_bind. unfold ctx_mbUnlock. apply wp_get_bind.
  rewrite Hid. cbv zeta. destruct (mbUnlock _ _) as [[rc s] c] eqn:E.
  apply wp_modify_bind, wp_ret, wp_modify_bind.
  unfold aux_mod. apply wp_modify. apply HQ; [by eexists _, _, _| |].
  - intros j Hj. unfold latch_at. simpl. by rewrite lookup_insert_ne.
  - unfold latch_at. simpl. rewrite lookup_insert_eq. simpl. unfold id.
    unfold mbUnlock, mb_shared in E. rewrite Ht, Hl in E.
    destruct Hm as [->|[->| ->]]; simpl in E; by injection E as <- <- <-.
Qed.

Lemma only_aux_mmap_flush i : only_aux (mmap_flush i).
Proof. intros st. unfold mmap_flush. case_match. eauto. Qed.

Lemma only_aux_flushMeta except : only_aux (flushMeta except).
Proof.
  unfold flushMeta. apply only_aux_bind; [apply only_aux_modify; eauto|]. intros [].
  apply only_aux_get_bind. intros s. generalize SDB_OK, 0. induction (Z.to_nat _) as [|n IH]; intros rc i.
  - apply only_aux_ret.
  - cbn [flushMeta_loop]. case_match; [done|]. apply only_aux_bind; [apply only_aux_mmap_flush|]. intros a. apply IH.
Qed.

Lemma releasePages_segments geo (m : dmsSMEMgr dmsSpaceManagementExtent) a n rc m' :
  mgr_releasePages geo m a n = (rc, m') -> mgr_segmentNum m' = mgr_segmentNum m.
Proof.
  unfold mgr_releasePages, mgr_segmentNum. repeat case_match; intros [= <- <-]; simpl; try done;
    by rewrite length_insert.
Qed.

(** Giving back the run that was just reserved. *)
Lemma wp_releaseSpace st cvs held rest e n (Q : outcome Z -> blockData -> Prop) :
  store_held st cvs ((e, n) :: held) ((e, n) :: rest) ->
  (forall st', store_held st' cvs held rest -> bd_names st' = bd_names st -> bd_latch st' = bd_latch st ->
     Q (Ok SDB_OK) st') ->
  wp (releaseSpace e n) Q st.
Proof.
  intros (Hs&HP&Hc) HQ. unfold releaseSpace. apply wp_get_bind.
  destruct (space_adr _ _ e n Hs) as (_&_&_&Hn&_); [left|].
  unfold u16. rewrite (Z.mod_small n) by lia.
  destruct (mgr_releasePages _ _ _ _) as [rc m] eqn:E.
  pose proof (sp_client _ _ Hs) as Hcl.
  destruct (client_release_ok _ (geometry_geo_ok _ (sp_geo _ _ Hs)) (bd_smeMgr st) [] e n held rc m Hcl E) as [-> Hcl'].
  apply releasePages_segments in E. apply wp_modify_bind, wp_ret, HQ; [|done|done].
  assert (space_ok (set_sme st m) held) as Hs'.
  { destruct Hs as [H1 H2 _ H4 H5 H6]. split; try done; cbn; by rewrite E. }
  split; [done|]. assert (held ≡ₚ rest ++ all_runs cvs) as HP' by (by eapply Permutation_cons_inv).
  split; [done|]. intros i c Hi. destruct (Hc _ _ Hi). split; [|done].
  eapply col_cells; [done|by split|exact Hs'|by eapply store_owns].
Qed.

(** ** [addCollection] *)

Lemma mbExSize_9 g : geometry_ok g ->
  u32 (Z.shiftr (u32 (Z.shiftl (Z.shiftr DMS_MAX_PG (g_segmentPagesSquare g)) 3)) (g_pageSizeSquare g) + 1) = 9.
Proof.
  intros (Hp&_&->&_&_). assert (g_pageSizeSquare g ∈ [12; 13; 14; 15; 16]) as Hin.
  { rewrite !elem_of_cons. lia. }
  set (p := g_pageSizeSquare g) in *. clearbody p. clear Hp.
  repeat (apply elem_of_cons in Hin as [->|Hin]; [vm_compute; reflexivity|]). by apply not_elem_of_nil in Hin.
Qed.

(** The collections of a storage unit are [cvs], and the pages in use are
    theirs and those of [rest]. *)
Definition store_with (st : blockData) (cvs : gmap Z colView) (rest : list (Z * Z)) : Prop :=
  exists held, store_held st cvs held rest.

Lemma store_with_ok st cvs rest : store_with st cvs rest -> store_ok st (contents <$> cvs).
Proof. intros [held H]. by exists cvs, held, rest. Qed.

(** Collection [i] was added, empty: the others are what they were, with their
    pages. *)
Definition created (st : blockData) (cvs : gmap Z colView) (rest : list (Z * Z)) (name : string)
    (i : Z) (c : colView) (st' : blockData) : Prop :=
  cvs !! i = None /\ contents c = [] /\ store_with st' (<[i := c]> cvs) rest /\
  bd_names st' = <[name := i]> (bd_names st).

(** Nothing was added, and no page is in use that was not. *)
Definition kept (st : blockData) (cvs : gmap Z colView) (rest : list (Z * Z)) (st' : blockData) : Prop :=
  store_with st' cvs rest /\ bd_names st' = bd_names st.

(** The bit of a page in the mask of the space manager. *)
Definition page_bit (st : blockData) (p : Z) : Z := getBitMask (sh_SME (sm_shared (bd_smeMgr st))) p.

(** The pages in use are those that were and those of the runs [l]. *)
Definition pages_taken (st st' : blockData) (l : list (Z * Z)) : Prop :=
  forall p, 0 <= p -> page_bit st' p = owners l p + page_bit st p.

Lemma owners_perm l l' p : l ≡ₚ l' -> owners l p = owners l' p.
Proof.
  intros H. unfold owners. induction H as [|x l l' _ IH|x y l|l1 l2 l3 _ IH1 _ IH2]; simpl in *; lia.
Qed.

Lemma pages_of_store st cvs rest st' cvs' l :
  store_with st cvs rest -> store_with st' cvs' rest -> all_runs cvs' ≡ₚ l ++ all_runs cvs ->
  pages_taken st st' l.
Proof.
  intros (h&Hs&HP&_) (h'&Hs'&HP'&_) Hr p Hp. unfold page_bit.
  pose proof (ci_owners _ _ (sp_client _ _ Hs) p Hp) as E. pose proof (ci_owners _ _ (sp_client _ _ Hs') p Hp) as E'.
  simpl in E, E'. rewrite <- E, <- E', (owners_perm _ _ p HP), (owners_perm _ _ p HP'), !owners_app, (owners_perm _ _ p Hr),
    owners_app. lia.
Qed.

Section Add.
Context (os : nat -> Z) (st0 : blockData) (cvs : gmap Z colView) (rest : list (Z * Z)) (name : string).

(** Before the cleanup at the end: nothing was added and the run of the
    metadata extent, if it is there, goes back; or the collection is there. *)
Definition adding (o : outcome (Z * Z * Z * Z * bool)) (st : blockData) : Prop :=
  match o with
  | Ok (rc, i, _, mbEx, locked) =>
      (if locked : bool then frees_but i st0 st /\ sole st i EXCLUSIVE else frees_kept st0 st) /\
      ((rc <> SDB_OK /\ mbEx = DMS_INVALID_EXTENT /\ locked = false /\ kept st0 cvs rest st) \/
      (rc <> SDB_OK /\ 0 <= mbEx /\ locked = false /\ bd_names st = bd_names st0 /\
       exists held, store_held st cvs ((mbEx, 9) :: held) ((mbEx, 9) :: rest)) \/
      (collectionNameLookup st0 name = DMS_INVALID_MBID /\ mbEx = DMS_INVALID_EXTENT /\
       exists c, created st0 cvs rest name i c st))
  | Throw _ => False
  | Stop w => w = Panic
  end.

Definition finished (o : outcome (Z * Z * Z)) (st : blockData) : Prop :=
  match o with
  | Ok (rc, i, _) =>
      frees_kept st0 st /\
      ((rc <> SDB_OK /\ kept st0 cvs rest st) \/
       (collectionNameLookup st0 name = DMS_INVALID_MBID /\ exists c, created st0 cvs rest name i c st))
  | Throw _ => False
  | Stop w => w = Panic
  end.

Lemma kept_sess st st' : sess_only st st' -> kept st0 cvs rest st -> kept st0 cvs rest st'.
Proof.
  intros H [(held&Hst) Hn]. split; [|by rewrite (sess_names _ _ H)]. exists held. by eapply sess_store.
Qed.

Lemma created_sess i c st st' :
  sess_only st st' -> created st0 cvs rest name i c st -> created st0 cvs rest name i c st'.
Proof.
  intros H (Hi&Hc&(held&Hst)&Hn). do 2 (split; [done|]). split; [|by rewrite (sess_names _ _ H)].
  exists held. by eapply sess_store.
Qed.

(** The two ways it ends, while the latch may still be held. *)
Definition ended (rc i : Z) (st : blockData) : Prop :=
  (rc <> SDB_OK /\ kept st0 cvs rest st) \/
  (collectionNameLookup st0 name = DMS_INVALID_MBID /\ exists c, created st0 cvs rest name i c st).

Lemma ended_sess rc i st st' : sess_only st st' -> ended rc i st -> ended rc i st'.
Proof.
  intros H [[? ?]|(? & c & ?)]; [left|right]; (split; [done|]); [by eapply kept_sess|exists c; by eapply created_sess].
Qed.

Lemma finished_aux o st x : finished o st -> finished o (set_aux st x).
Proof.
  destruct o as [[[rc i] lid]| |]; [|done..]. intros [Hl H]. split; [by eapply frees_trans, frees_same|].
  eapply ended_sess; [apply sess_aux|exact H].
Qed.

(** The end of [addCollection]. *)
Lemma wp_add_end rc i lid mbEx locked st :
  adding (Ok (rc, i, lid, mbEx, locked)) st ->
  wp ((if negb (rc =? 0) && negb (DMS_INVALID_EXTENT =? mbEx)
       then releaseSpace mbEx 9;; mret tt else mret tt);;
      (if locked : bool then releaseMBContext else mret tt);;
      (if SDB_OK =? rc then flushMeta [];; mret tt else mret tt);;
      mret (rc, i, lid)) finished st.
Proof.
  intros [Hl H].
  apply (wp_bind_ok _ _ (fun _ st1 => ended rc i st1 /\
    (if locked then frees_but i st0 st1 /\ sole st1 i EXCLUSIVE else frees_kept st0 st1))).
  { destruct H as [(Hrc&->&->&H)|[(Hrc&Hpos&->&Hn&held&Hst)|(Hn&->&H)]].
    - rewrite andb_false_r. apply wp_ret. exists tt. split; [done|]. split; [by left|done].
    - destruct (Z.eqb_spec rc 0); [done|]. destruct (Z.eqb_spec DMS_INVALID_EXTENT mbEx) as [E|_];
        [unfold DMS_INVALID_EXTENT in E; lia|]. cbn [negb andb].
      apply wp_bind. eapply wp_releaseSpace; [exact Hst|]. intros st1 Hst1 Hn1 Hl1. apply wp_ret.
      exists tt. split; [done|]. split; [left|by eapply frees_trans, frees_same].
      split; [done|]. split; [|congruence]. by exists held.
    - rewrite andb_false_r. apply wp_ret. exists tt. split; [done|]. split; [by right|done]. }
  intros [] st1 [H1 Hl1]. apply (wp_bind_ok _ _ (fun _ st2 => ended rc i st2 /\ frees_kept st0 st2)).
  { destruct locked; [|apply wp_ret; by exists tt]. destruct Hl1 as [Hl1 Hso].
    eapply wp_releaseMBContext; [exact Hso|]. intros st2 H2 Hb Hi. exists tt. split; [done|].
    split; [by eapply ended_sess|]. eapply frees_but_all; [by eapply frees_but_trans|done]. }
  intros [] st2 [H2 Hl2]. apply (wp_bind_ok _ _ (fun _ st3 => ended rc i st3 /\ frees_kept st0 st3)).
  { destruct (SDB_OK =? rc); [|apply wp_ret; by exists tt].
    destruct (only_aux_flushMeta [] st2) as (a&x&E). apply wp_bind. unfold wp. rewrite E. cbn [fst snd].
    exists tt. split; [done|]. split; [eapply ended_sess; [apply sess_aux|exact H2]|].
    by eapply frees_trans, frees_same. }
  intros [] st3 [H3 Hl3]. apply wp_ret. split; [done|exact H3].
Qed.

(** [allocateExtent] for whatever number of pages: the records stay. *)
Lemma wp_alloc_any i st cv held c n :
  store_held st cv held rest -> cv !! i = Some c -> sole st i EXCLUSIVE ->
  wp (allocateExtent os n true false)
    (fun o st' => match o with
                  | Ok _ => (exists c', contents c' = contents c /\ store_with st' (<[i := c']> cv) rest) /\
                      bd_names st' = bd_names st /\
                      sole st' i EXCLUSIVE /\ frees_but i st st'
                  | Throw _ => False
                  | Stop w => w = Panic
                  end) st.
Proof.
  intros Hst Hi Hso. pose proof Hst as (Hs&HP&Hc). destruct (Hc _ _ Hi) as [Hci _].
  destruct (decide (1 <= n <= g_segmentPages (bd_geo st))) as [Hn|Hn].
  - eapply wp_mono; [apply wp_keeps; [apply keeps_allocateExtent|];
      apply (wp_allocateExtent os i n EXCLUSIVE st held c); try done; by eapply store_owns|].
    intros [[rc e]| |] st' [Hpost Hown]; [|done..].
    destruct (alloc_stepped _ _ _ _ _ _ _ _ Hci (store_owns _ _ _ _ _ HP Hi) Hpost) as (c'&Hct&Hstep).
    split; [exists c'; split; [done|]; destruct (store_step _ _ _ _ _ _ _ _ Hst Hi Hstep) as [h2 H2]; by exists h2|].
    split; [apply (sd_frame _ _ _ _ _ _ _ Hstep)|].
    split; [apply Hstep|]. apply own_frees; [done|apply Hso].
  - unfold allocateExtent. apply wp_scope. intros x. apply wp_get_bind. cbv zeta.
    change (bd_geo (set_aux st x)) with (bd_geo st).
    destruct (Z.ltb_spec (g_segmentPages (bd_geo st)) n), (Z.ltb_spec n 1); try lia; cbn [orb];
      apply wp_ret; intros y;
      (split; [exists c; split; [done|]; rewrite insert_id by done; exists held; by apply store_aux, store_aux|]);
      (split; [done|]); (split; [by apply sole_aux, sole_aux|by apply frees_kept_but, frees_same]).
Qed.

Lemma wp_addCollection u attributes initPages sysCollection :
  store_with st0 cvs rest ->
  (forall i, mb_flag (mb_at st0 i) = DMS_MB_FLAG_FREE -> latch_at st0 i = latch_free) ->
  wp (addCollection os name u attributes initPages sysCollection) finished st0.
Proof.
  intros (held&Hst) Hlatch. unfold addCollection. apply wp_scope. intros x0.
  apply (store_aux _ _ _ _ x0) in Hst. apply wp_get_bind. cbv zeta.
  pose proof Hst as (Hs0&HP0&Hc0).
  pose proof (sp_geo _ _ Hs0) as Hg. rewrite (mbExSize_9 _ Hg).
  set (segNum := Z.shiftr _ _).
  apply (wp_mono _ finished).
  2: { intros o st' H y. by apply finished_aux. }
  apply wp_bind. apply (wp_mono _ adding).
  2: { intros [[[[[rc i] lid] mbEx] locked]| |] st'; [|done..]. apply wp_add_end. }
  destruct (Z.eqb_spec (dmsCheckCLName name sysCollection) 0) as [_|Hname]; cbn [negb].
  2: { apply wp_ret. split; [by apply frees_same|]. left. do 3 (split; [done|]). split; [by exists held|done]. }
  apply wp_bind. eapply wp_mono.
  { apply (wp_findFreeSpace os 0 false 9 _ held); [done| |done].
    destruct Hg as (Hp&_&Hsq&Hsp&_). rewrite Hsp, Hsq.
    pose proof (Z.pow_le_mono_r 2 11 (27 - g_pageSizeSquare (bd_geo (set_aux st0 x0))) ltac:(lia) ltac:(lia)). lia. }
  intros o st1 (Hce&_&Hr). destruct o as [[rc e]| |w]; [|done|done].
  destruct Hr as ([Ectx Elat]&Hr). destruct (Z.eqb_spec rc 0) as [->|Hrc]; cbn [negb].
  2: { apply wp_ret. split; [by apply frees_same|]. left.
       destruct Hr as [(?&_)|(_&->&Hs1)]; [done|]. do 3 (split; [done|]).
       split; [|by rewrite (proj1 (ce_names _ _ Hce))].
       exists held. by eapply store_cells. }
  destruct Hr as [(_&He&Hs1)|(?&_)]; [|done].
  pose proof (store_reserved _ _ _ _ _ _ _ Hst Hce Hs1) as Hst1.
  apply wp_bind. replace segNum with (Z.shiftr DMS_MAX_PG (g_segmentPagesSquare (bd_geo st1)))
    by (by rewrite (ce_geo _ _ Hce)).
  apply wp_registerCollection.
  { destruct (space_adr _ _ e 9 Hs1) as (?&_); [left|done]. }
  { intros rc i lid Hrc. destruct (Z.eqb_spec rc 0); [done|]. cbn [negb]. apply wp_ret.
    split; [by apply frees_same|]. right. left. do 3 (split; [done|]). split; [by rewrite (proj1 (ce_names _ _ Hce))|]. by exists held. }
  intros i lid st2 Hi Hfree Hnone Hreg. change (negb (SDB_OK =? 0)) with false. cbv iota.
  pose proof (store_registered _ _ _ _ _ _ _ _ _ _ _ _ Hst1 Hi Hfree Hreg) as Hst2.
  destruct Hreg as [R1 _ _ R3 _ _ [R6 R7]]. rewrite (proj1 (ce_names _ _ Hce)) in R3.
  set (c0 := emptyView (e, 9)) in *. set (cvs2 := <[i := c0]> cvs) in *.
  assert (collectionNameLookup st0 name = DMS_INVALID_MBID) as Hnone0.
  { unfold collectionNameLookup in *. by rewrite (proj1 (ce_names _ _ Hce)) in Hnone. }
  assert (forall c st', contents c = [] -> store_with st' (<[i := c]> cvs) rest -> bd_names st' = bd_names st2 ->
    created st0 cvs rest name i c st') as Hcr.
  { intros c st' Hct Hok Hn'. split_and!; [|done|done|by rewrite Hn', R3].
    by rewrite (free_not_used _ _ _ _ _ Hst1 Hfree). }
  assert (forall rc lid (locked : bool) c st', contents c = [] -> store_with st' (<[i := c]> cvs) rest ->
    bd_names st' = bd_names st2 ->
    (if locked then frees_but i st0 st' /\ sole st' i EXCLUSIVE else frees_kept st0 st') ->
    adding (Ok (rc, i, lid, DMS_INVALID_EXTENT, locked)) st') as Hdone.
  { intros rc' lid' locked c st' Hct Hok Hn' Hl'. split; [done|]. right. right. do 2 (split; [done|]).
    exists c. by apply Hcr. }
  assert (frees_kept st0 st2) as Hl2 by (apply frees_same; rewrite R7; exact Elat).
  clear Hcr Hnone. pose proof Hst2 as (Hs2&HP2&Hc2).
  destruct (Hc2 i c0) as [Hci [_ Huse]]; [apply lookup_insert_eq|].
  apply wp_bind, wp_getMBContext; try done; [lia|by left; rewrite R1| |by left| |].
  { rewrite R7, Elat. apply Hlatch. rewrite <- Hfree. unfold mb_at. by rewrite (ce_MME _ _ Hce). }
  { intros st3 Hse Hl3. change (negb (SDB_OOM =? 0)) with true. cbv iota. apply wp_ret.
    apply (Hdone _ _ _ c0); [done| |by apply sess_names|by eapply frees_trans, frees_same].
    exists ((e, 9) :: held). by eapply sess_store. }
  intros st3 Hse Hso3 Hl3. change (negb (SDB_OK =? 0)) with false. cbv iota.
  assert (frees_but i st0 st3) as Hl03 by (by eapply frees_but_trans; [apply frees_kept_but|]).
  pose proof (sess_store _ _ _ _ _ Hse Hst2) as Hst3. pose proof (sess_names _ _ Hse) as Hn3.
  destruct (0 =? initPages); cbn [negb].
  { apply wp_ret. apply (Hdone _ _ _ c0); [done| |done|done]. by exists ((e, 9) :: held). }
  apply wp_bind. eapply wp_mono; [eapply (wp_alloc_any i st3 cvs2 _ c0); [exact Hst3|apply lookup_insert_eq|exact Hso3]|].
  intros o st4 Ho. destruct o as [[rc e']| |]; [|done|done]. destruct Ho as ((c'&Hc'&Hok)&Hn4&Hso4&Hl4). apply wp_ret.
  unfold cvs2 in Hok. rewrite insert_insert_eq in Hok.
  apply (Hdone _ _ _ c'); [done|done|congruence|]. split; [by eapply frees_but_trans|done].
Qed.

End Add.

(** What a caller of [addCollection] may rely on. *)
Definition added (st : blockData) (cvs : gmap Z colView) (rest : list (Z * Z)) (name : string)
    (i : Z) (st' : blockData) : Prop :=
  collectionNameLookup st name = DMS_INVALID_MBID /\
  exists c, created st cvs rest name i c st' /\ pages_taken st st' (cv_runs c).

Definition add_refined (st : blockData) (cvs : gmap Z colView) (rest : list (Z * Z)) (name : string)
    (res : outcome (Z * Z * Z) * blockData) : Prop :=
  let '(o, st') := res in
  match o with
  | Ok (rc, i, _) =>
      (exists A', store_ok st' A' /\
         (A' = contents <$> cvs \/ A' = <[i := []]> (contents <$> cvs))) /\
      if decide (rc = SDB_OK) then added st cvs rest name i st'
      else (kept st cvs rest st' /\ pages_taken st st' []) \/ added st cvs rest name i st'
  | Throw _ => False
  | Stop w => w = Panic
  end.

Lemma created_pages st cvs rest name i c st' :
  store_with st cvs rest -> created st cvs rest name i c st' -> pages_taken st st' (cv_runs c).
Proof.
  intros Hst (Hi&_&Hst'&_). eapply pages_of_store; [done|done|]. by apply runs_new.
Qed.

(** C7: [addCollection] refines adding an empty collection.  On success the
    name was free and there is one more collection, empty, in a slot that held
    none; the other collections are what they were, with their records and
    pages, and the pages that have become used are those of the new collection.
    On an error nothing is added and just the pages that were in use are in use
    (the pages of the metadata extent have gone back), or the collection is
    there all the same (when the error comes after its registration).  It ends,
    and lets no exception out. *)
Theorem addCollection_refines os st cvs rest name u attributes initPages sysCollection :
  store_with st cvs rest ->
  (forall i, mb_flag (mb_at st i) = DMS_MB_FLAG_FREE -> latch_at st i = latch_free) ->
  add_refined st cvs rest name (addCollection os name u attributes initPages sysCollection st).
Proof.
  intros Hst Hl. pose proof (wp_addCollection os st cvs rest name u attributes initPages sysCollection Hst Hl) as H.
  unfold wp in H. destruct (addCollection _ _ _ _ _ _ _) as [[[[rc i] lid]| |w] st']; cbn [fst snd finished] in H;
    [|done..]. unfold add_refined. destruct H as [_ [[Hrc Hk]|(Hn&c&Hc)]].
  - split; [exists (contents <$> cvs); split; [by apply store_with_ok with rest, Hk|by left]|].
    rewrite decide_False by done. left. split; [done|]. eapply pages_of_store; [done|apply Hk|done].
  - assert (added st cvs rest name i st') as Ha.
    { split; [done|]. exists c. split; [done|]. by eapply created_pages. }
    split; [|case_decide; [done|by right]]. exists (<[i := []]> (contents <$> cvs)). split; [|by right].
    destruct Hc as (_&E&Hst'&_). apply store_with_ok in Hst'. by rewrite fmap_insert, E in Hst'.
Qed.
