(* ===== verification/DmsOpenOk.v ===== *)
(** * Opening a new file establishes the invariant

    [openStorage] on an empty file writes the header, an empty space
    management extent and free metadata blocks, and maps them; when it
    reports success the storage unit is in order and has no collection. *)
From S2P Require Import Prelude.
From S2P Require Import ByteBits.
From S2P Require Import OssBase.
From S2P Require Import OssMmap.
From S2P Require Import DmsBase.
From S2P Require Import DmsName.
From S2P Require Import DmsSegmentSpace.
From S2P Require Import DmsSMEMgr.
From S2P Require Import DmsRecord.
From S2P Require Import DmsDirtyList.
From S2P Require Import DmsMBContext.
From S2P Require Import DmsExtent.
From S2P Require Import DmsMB.
From S2P Require Import Bson.
From S2P Require Import DmsStore.
From S2P Require Import DmsInsert.
From S2P Require Import DmsWp.
From S2P Require Import DmsDelete.
From S2P Require Import DmsView.
From S2P Require Import DmsCol.
From S2P Require Import DmsSpaceOk.
From S2P Require Import DmsRefine.
From S2P Require Import DmsCollection.
From S2P Require Import DmsSession.
#[local] Open Scope Z_scope.

Section Open.
Context (os : nat -> Z) (st0 : blockData).

(** The stages of opening: what matters of the state, with [n] segments mapped. *)
Record opening (n : Z) (st : blockData) : Prop := {
  op_info : bd_info st = bd_info st0;
  op_names : bd_names st = bd_names st0;
  op_latch : bd_latch st = bd_latch st0;
  op_segs : segmentSize (sg_file (bd_seg st)) = n
}.

(** What a new file holds. *)
Record blank (st : blockData) : Prop := {
  bl_free : forall i, mb_flag (mb_at st i) = DMS_MB_FLAG_FREE;
  bl_header : sg_header (bd_seg st) = initHeader (bd_info st0);
  bl_sme : sh_SME (sm_shared (bd_smeMgr st)) = sme_new
}.

(** Results that matter only on success. *)
Definition done1 (P : blockData -> Prop) (o : outcome Z) (st : blockData) : Prop :=
  match o with Ok rc => rc = SDB_OK -> P st | _ => True end.
Definition done2 (P : Z -> blockData -> Prop) (o : outcome (Z * Z)) (st : blockData) : Prop :=
  match o with Ok (rc, size) => rc = SDB_OK -> P size st | _ => True end.

(** A step whose failure ends the function. *)
Lemma wp_step1 {B} (m : M Z) (f : Z -> M B) (P : blockData -> Prop) (Q : outcome B -> blockData -> Prop) st :
  wp m (done1 P) st -> (forall w st', Q (Stop w) st') -> (forall e st', Q (Throw e) st') ->
  (forall rc st', rc <> SDB_OK -> wp (f rc) Q st') -> (forall st', P st' -> wp (f SDB_OK) Q st') ->
  wp (m ≫= f) Q st.
Proof.
  intros H Hs Ht He Hok. apply wp_bind. eapply wp_mono; [exact H|]. intros [rc|e|w] st'; simpl; [|done..].
  intros HP. destruct (decide (rc = SDB_OK)) as [->|]; [by apply Hok, HP|by apply He].
Qed.

Lemma wp_step2 {B} (m : M (Z * Z)) (f : Z * Z -> M B) (P : Z -> blockData -> Prop)
    (Q : outcome B -> blockData -> Prop) st :
  wp m (done2 P) st -> (forall w st', Q (Stop w) st') -> (forall e st', Q (Throw e) st') ->
  (forall rc s st', rc <> SDB_OK -> wp (f (rc, s)) Q st') -> (forall s st', P s st' -> wp (f (SDB_OK, s)) Q st') ->
  wp (m ≫= f) Q st.
Proof.
  intros H Hs Ht He Hok. apply wp_bind. eapply wp_mono; [exact H|]. intros [[rc s]|e|w] st'; simpl; [|done..].
  intros HP. destruct (decide (rc = SDB_OK)) as [->|]; [by apply Hok, HP|by apply He].
Qed.

Lemma blank_file st f x : blank st -> blank (set_aux (set_seg st (seg_with_file (bd_seg st) f)) x).
Proof. intros [H1 H2 H3]. by split. Qed.

Lemma wp_writeFile fuel : forall need n st (P : blockData -> Prop),
  opening n st -> P st ->
  (forall st f x, P st -> P (set_aux (set_seg st (seg_with_file (bd_seg st) f)) x)) ->
  wp (writeFile os fuel need) (done1 (fun st' => opening n st' /\ P st')) st.
Proof.
  induction fuel as [|fuel IH]; intros need n st P Ho HP Hf; [done|]. cbn [writeFile].
  destruct (0 <? need); [|by apply wp_ret].
  apply wp_bind, wp_syscall. intros rc x. apply wp_bind, wp_syscall. intros written y.
  destruct (_ && _) eqn:Erc.
  { apply wp_ret. intros ->. by apply andb_prop in Erc as [? _]. }
  apply wp_modify_bind. destruct Ho as [O1 O2 O3 O4]. apply IH; [by split| |done].
  match goal with |- P ?s => change (P (set_aux (set_seg st (seg_with_file (bd_seg st)
    (mm_with_fileSize (sg_file (bd_seg st)) (mm_fileSize (sg_file (bd_seg st)) + written)))) (bd_aux s))) end.
  by apply Hf.
Qed.

(** The metadata blocks of a new file. *)
Lemma cleared_free (l : list Z) i :
  mb_flag (default mb_zero
    (foldr (fun i m => <[i := mb_clear (default mb_zero (m !! i))]> m) (∅ : gmap Z dmsMB) l !! i))
  = DMS_MB_FLAG_FREE.
Proof.
  induction l as [|j l IH]; simpl; [by rewrite lookup_empty|].
  destruct (decide (j = i)) as [->|]; [by rewrite lookup_insert_eq|by rewrite lookup_insert_ne].
Qed.

Lemma wp_call {B} (f : Z -> M B) (Q : outcome B -> blockData -> Prop) n st (P : blockData -> Prop) :
  opening n st -> P st -> (forall st x, P st -> P (set_aux st x)) ->
  (forall rc st', opening n st' -> P st' -> wp (f rc) Q st') -> wp (syscall os ≫= f) Q st.
Proof.
  intros [O1 O2 O3 O4] HP Hx Hf. apply wp_bind, wp_syscall. intros rc x. apply Hf; [by split|by apply Hx].
Qed.

Lemma wp_initializeStorageUnit st :
  opening 0 st -> wp (initializeStorageUnit os) (done1 (fun st' => opening 0 st' /\ blank st')) st.
Proof.
  intros Ho. unfold initializeStorageUnit.
  apply (wp_call _ _ 0 st (fun _ => True)); [done..|]. intros rc st1 Ho1 _.
  destruct (Z.eqb_spec rc 0) as [->|]; cbn [negb]; [|by apply wp_ret].
  apply (wp_call _ _ 0 st1 (fun _ => True)); [done..|]. intros rc st2 Ho2 _.
  destruct (Z.eqb_spec rc 0) as [->|]; cbn [negb]; [|by apply wp_ret].
  apply wp_modify_bind.
  set (P1 := fun st => sg_header (bd_seg st) = initHeader (bd_info st0)).
  eapply wp_step1; [apply (wp_writeFile _ _ 0 _ P1)|done|done|..].
  { by destruct Ho2 as [O1 O2 O3 O4]. }
  { unfold P1. simpl. by rewrite (op_info _ _ Ho2). }
  { done. }
  { intros rc st' Hrc. destruct (Z.eqb_spec rc 0); [done|]. by apply wp_ret. }
  intros st3 [Ho3 Hp3]. simpl negb. cbv iota.
  apply (wp_call _ _ 0 st3 P1); [done..|]. intros rc st4 Ho4 Hp4.
  destruct (Z.eqb_spec rc 0) as [->|]; cbn [negb]; [|by apply wp_ret].
  apply wp_modify_bind.
  set (P2 := fun st => P1 st /\ sh_SME (sm_shared (bd_smeMgr st)) = sme_new).
  eapply wp_step1; [apply (wp_writeFile _ _ 0 _ P2)|done|done|..].
  { by destruct Ho4 as [O1 O2 O3 O4]. }
  { by split. }
  { done. }
  { intros rc st' Hrc. destruct (Z.eqb_spec rc 0); [done|]. by apply wp_ret. }
  intros st5 [Ho5 Hp5]. simpl negb. cbv iota. unfold onCreate.
  apply (wp_call _ _ 0 st5 P2); [done..|]. intros rc st6 Ho6 Hp6.
  destruct (Z.eqb_spec rc 0) as [->|]; cbn [negb]; [|by apply wp_ret].
  apply wp_bind. unfold initializeMME. apply wp_modify_bind. unfold aux_mod. apply wp_modify.
  apply wp_writeFile.
  - by destruct Ho6 as [O1 O2 O3 O4].
  - destruct Hp6 as [Hp6 Hsme]. split; [|done..]. intros i. apply cleared_free.
  - intros. by apply blank_file.
Qed.

Lemma wp_mmap_size (Q : outcome (Z * Z) -> blockData -> Prop) st :
  (forall rc x, Q (Ok (rc, if rc =? 0 then mm_fileSize (sg_file (bd_seg st)) else 0)) (set_aux st x)) ->
  wp (mmap_size os) Q st.
Proof. intros H. unfold wp, mmap_size, mm_size. apply H. Qed.

Lemma wp_openNew st :
  opening 0 st -> mm_fileSize (sg_file (bd_seg st)) = 0 ->
  wp (openNew os true) (done2 (fun _ st' => opening 0 st' /\ blank st')) st.
Proof.
  intros Ho Hz. unfold openNew. apply wp_bind, wp_mmap_size. intros rc x.
  destruct (Z.eqb_spec rc 0) as [->|Hrc]; [|by apply wp_ret].
  simpl negb. cbv iota. rewrite Hz. simpl (0 =? 0). cbv iota. simpl negb. cbv iota.
  eapply wp_step1; [apply wp_initializeStorageUnit|done|done|..].
  { by destruct Ho as [O1 O2 O3 O4]. }
  { intros rc st' Hne. destruct (Z.eqb_spec rc 0); [done|]. by apply wp_ret. }
  intros st2 [[O1 O2 O3 O4] [B1 B2 B3]]. simpl negb. cbv iota. apply wp_mmap_size. by intros rc y _.
Qed.

(** After the metadata is mapped. *)
Record mapped (st : blockData) : Prop := {
  mp_geo : geometry_ok (bd_geo st);
  mp_mgr : bd_smeMgr st = mgr_new sme_new;
  mp_size : hd_storageUnitSize (sg_header (bd_seg st)) * g_pageSize (bd_geo st) = dataOffset
}.

Lemma wp_map_step {B} off len (f : Z -> M B) (Q : outcome B -> blockData -> Prop) n st :
  0 < len -> opening n st -> blank st ->
  (forall rc st', rc <> SDB_OK -> wp (f rc) Q st') ->
  (forall st' f' x, st' = set_aux (set_seg st (seg_with_file (bd_seg st) f')) x ->
     opening (n + 1) st' -> blank st' -> wp (f SDB_OK) Q st') ->
  wp (mmap_map os off len ≫= f) Q st.
Proof.
  intros Hl [O1 O2 O3 O4] Hb He Hok. apply wp_bind, wp_mmap_map; [done|]. intros rc x f' Hf.
  destruct (Z.eqb_spec rc 0) as [->|Hrc]; [|by apply He].
  eapply Hok; [done| |by apply blank_file]. split; try done. simpl. lia.
Qed.

Lemma wp_mapMeta_slots l : forall n st,
  opening n st -> blank st ->
  wp (mapMeta_slots l) (fun o st' => o = Ok tt /\ exists v, st' = set_stat st v) st.
Proof.
  induction l as [|i l IH]; intros n st Ho Hb.
  - apply wp_ret. split; [done|]. exists (bd_mbStatInfo st). by destruct st.
  - cbn [mapMeta_slots]. apply wp_bind. unfold mapMeta_slot. apply wp_get_bind. cbv zeta.
    apply wp_modify_bind. rewrite (bl_free _ Hb i). simpl. apply wp_ret.
    eapply wp_mono; [apply (IH n)|].
    + by destruct Ho as [O1 O2 O3 O4].
    + by destruct Hb as [B1 B2 B3].
    + intros o st' [-> [v ->]]. split; [done|]. by exists v.
Qed.

Lemma wp_openMeta k st :
  12 <= k <= 16 -> si_pageSize (bd_info st0) = 2 ^ k -> opening 0 st -> blank st ->
  wp (openMeta os) (done1 (fun st' => opening 3 st' /\ blank st' /\ mapped st')) st.
Proof.
  intros Hk Hps Ho Hb. unfold openMeta.
  eapply wp_map_step; [done|exact Ho|exact Hb|..].
  { intros rc st' Hne. destruct (Z.eqb_spec rc 0); [done|]. by apply wp_ret. }
  intros st1 f1 x1 _ Ho1 Hb1. simpl negb. cbv iota. apply wp_get_bind.
  rewrite (op_info _ _ Ho1), (bl_header _ Hb1).
  destruct (header_valid (bd_info st0) (bd_geo st1) k Hk Hps) as (g'&->&Hg&Hpn&Hpz&Hsz).
  apply wp_modify_bind, wp_modify_bind. simpl negb. cbv iota.
  match goal with |- wp _ _ ?s => set (st2 := s) end.
  assert (opening 1 st2) as Ho2 by (by destruct Ho1 as [O1 O2 O3 O4]).
  assert (blank st2) as Hb2 by (destruct Hb1 as [B1 B2 B3]; split; [exact B1|by rewrite <- B2|exact B3]).
  eapply (wp_map_step _ _ _ _ 1); [done|exact Ho2|exact Hb2|..].
  { intros rc st' Hne. destruct (Z.eqb_spec rc 0); [done|]. by apply wp_ret. }
  intros st3 f3 x3 E3 Ho3 Hb3. simpl negb. cbv iota.
  apply wp_bind, wp_syscall. intros alloc x4. apply wp_get_bind. cbn [bd_geo set_aux bd_seg bd_smeMgr].
  assert (bd_geo st3 = g') as Eg by (by rewrite E3).
  assert (sg_pageNum (bd_seg st3) = 0) as Epn by (by rewrite E3; simpl).
  rewrite Epn, (bl_sme _ Hb3).
  change (mgr_init (fun _ => alloc =? 0) (geo_of (bd_geo st3)) 0 sme_new) with (SDB_OK, mgr_new sme_new).
  apply wp_modify_bind. simpl negb. cbv iota. unfold onMapMeta. apply wp_modify_bind.
  match goal with |- wp _ _ ?s => set (st4 := s) end.
  assert (opening 2 st4) as Ho4 by (by destruct Ho3 as [O1 O2 O3 O4]).
  assert (blank st4) as Hb4 by (by destruct Hb3 as [B1 B2 B3]).
  eapply (wp_map_step _ _ _ _ 2); [done|exact Ho4|exact Hb4|..].
  { intros rc st' Hne. destruct (Z.eqb_spec rc 0); [done|]. by apply wp_ret. }
  intros st5 f5 x5 E5 Ho5 Hb5. simpl negb. cbv iota.
  apply wp_bind. eapply wp_mono; [by eapply wp_mapMeta_slots|]. intros o st6 [-> [v ->]].
  apply wp_ret. intros _. split_and!.
  - by destruct Ho5 as [O1 O2 O3 O4].
  - by destruct Hb5 as [B1 B2 B3].
  - split; cbn [set_stat bd_geo bd_smeMgr bd_seg].
    + rewrite E5. unfold st4. simpl. by rewrite Eg.
    + by rewrite E5.
    + rewrite (bl_header _ Hb5). rewrite E5. unfold st4. simpl (bd_geo _). rewrite Eg, Hpz. exact Hsz.
Qed.

Record meta (st : blockData) : Prop := {
  mt_open : opening 3 st;
  mt_blank : blank st;
  mt_mapped : mapped st
}.

Lemma meta_aux st x : meta st -> meta (set_aux st x).
Proof. intros [[O1 O2 O3 O4] [B1 B2 B3] [M1 M2 M3]]. by split. Qed.

Lemma meta_size st size x :
  meta st ->
  meta (set_aux (set_seg st (seg_with_file (bd_seg st) (mm_with_fileSize (sg_file (bd_seg st)) size))) x).
Proof. intros [[O1 O2 O3 O4] [B1 B2 B3] [M1 M2 M3]]. by split. Qed.

(** The file has the given size after a truncation that succeeds. *)
Lemma wp_truncate_meta size st :
  meta st ->
  wp (truncateFile os size) (done1 (fun st' => meta st' /\ mm_fileSize (sg_file (bd_seg st')) = size)) st.
Proof.
  intros Hm. unfold truncateFile. apply wp_bind, wp_syscall. intros rc x.
  destruct (Z.eqb_spec rc 0) as [->|Hrc].
  - apply wp_modify_bind, wp_ret. intros _. split; [|done].
    apply (meta_size st size (ax_with_calls (bd_aux st) (S (ax_calls (bd_aux st))))) in Hm as Hm'.
    destruct Hm as [[O1 O2 O3 O4] [B1 B2 B3] [M1 M2 M3]]. by split.
  - apply wp_bind, wp_ret, wp_ret. done.
Qed.

Lemma wp_resize size st (P : Z -> Prop) (d : Z) :
  meta st -> P size ->
  wp (rc ← truncateFile os size; if negb (rc =? 0) then mret (rc, d) else mmap_size os)
    (done2 (fun s st' => P s /\ meta st')) st.
Proof.
  intros Hm HP. eapply wp_step1; [by apply wp_truncate_meta|done|done|..].
  { intros rc st' Hne. destruct (Z.eqb_spec rc 0); [done|]. by apply wp_ret. }
  intros st1 [Hm1 E1]. simpl negb. cbv iota. apply wp_mmap_size. intros rc x ->. simpl. rewrite E1.
  split; [done|by apply meta_aux].
Qed.

Lemma wp_openSize size st :
  dataOffset <= size -> meta st ->
  wp (openSize os size) (done2 (fun s st' => s = dataOffset /\ meta st')) st.
Proof.
  intros Hs Hm. unfold openSize.
  eapply (wp_step2 _ _ (fun s st' => dataOffset <= s /\ meta st')); [|done|done|..].
  { destruct (_ =? 0); cbn [negb]; [by apply wp_ret|]. apply wp_resize; [done|].
    pose proof (Z.div_pos (size - dataOffset) DMS_SEGMENT_SZ ltac:(lia) ltac:(done)).
    unfold DMS_SEGMENT_SZ in *. lia. }
  { intros rc s st' Hne. destruct (Z.eqb_spec rc 0); [done|]. by apply wp_ret. }
  intros s st1 [Hs1 Hm1]. simpl negb. cbv iota. apply wp_get_bind. cbv zeta.
  rewrite (mp_size _ (mt_mapped _ Hm1)).
  destruct (Z.ltb_spec dataOffset s); [by apply wp_resize|].
  destruct (Z.ltb_spec s dataOffset); [lia|]. apply wp_ret. intros _. split; [lia|done].
Qed.

(** No data segment is mapped. *)
Lemma wp_openData st :
  meta st ->
  wp (openData os dataOffset) (done1 (fun st' => space_ok st' [] /\ blank st' /\
     bd_names st' = bd_names st0 /\ bd_latch st' = bd_latch st0)) st.
Proof.
  intros [[O1 O2 O3 O4] [B1 B2 B3] [M1 M2 M3]]. unfold openData. apply wp_modify_bind.
  change (Z.to_nat ((dataOffset - dataOffset + DMS_SEGMENT_SZ - 1) / DMS_SEGMENT_SZ)) with 0%nat.
  apply wp_bind, wp_ret. simpl negb. cbv iota. apply wp_modify_bind.
  apply wp_bind, wp_syscall. intros alloc x. apply wp_get_bind.
  destruct (dirty_init _ _ _) as [rc d]. apply wp_modify_bind.
  destruct (Z.eqb_spec rc 0) as [->|]; cbn [negb]; [|by apply wp_ret].
  apply wp_modify_bind, wp_ret. intros _. split_and!; try done.
  split; simpl; try done.
  - rewrite O4. lia.
  - rewrite M2. eapply (client_inv_reachable _ (geometry_geo_ok _ M1) 0); [done|done|].
    exists (mgr_new sme_new). split; [reflexivity|apply rtc_refl].
  - rewrite B2, M2. done.
  - unfold bd_maxSegID. simpl. rewrite M2. unfold mgr_segmentNum. simpl. lia.
  - unfold bd_maxSegID. simpl. lia.
Qed.

End Open.

Lemma open_new_ok os st k st' :
  12 <= k <= 16 -> si_pageSize (bd_info st) = 2 ^ k ->
  mm_fileSize (sg_file (bd_seg st)) = 0 -> mm_segs (sg_file (bd_seg st)) = [] ->
  openStorage os true true st = (Ok SDB_OK, st') ->
  store_ok st' ∅ /\ bd_names st' = bd_names st /\ bd_latch st' = bd_latch st /\
  forall i, mb_flag (mb_at st' i) = DMS_MB_FLAG_FREE.
Proof.
  intros Hk Hps Hsz Hsegs E.
  assert (wp (openStorage os true true) (done1 (fun st' => space_ok st' [] /\ blank st st' /\
    bd_names st' = bd_names st /\ bd_latch st' = bd_latch st)) st) as Hwp; [clear E st'|].
  { unfold openStorage. simpl negb. cbv iota.
    eapply (wp_step1 _ _ (fun st' => space_ok st' [] /\ blank st st' /\
      bd_names st' = bd_names st /\ bd_latch st' = bd_latch st)); [|done|done|..].
    - apply wp_bind. unfold wp at 1, mm_open. cbn [fst snd].
      destruct (Z.eqb_spec (os (ax_calls (bd_aux st))) 0) as [->|Hne]; cbn [negb]; [|by apply wp_ret].
      eapply (wp_step2 _ _ (fun _ st' => opening st 0 st' /\ blank st st')); [|done|done|..].
      { apply wp_openNew; [|exact Hsz]. split; try done. unfold segmentSize. simpl. by rewrite Hsegs. }
      { intros rc s st' Hne. destruct (Z.eqb_spec rc 0); [done|]. by apply wp_ret. }
      intros size st1 [Ho1 Hb1]. simpl negb. cbv iota.
      destruct (Z.ltb_spec size dataOffset); [by apply wp_ret|].
      eapply wp_step1; [by eapply wp_openMeta|done|done|..].
      { intros rc st' Hne. destruct (Z.eqb_spec rc 0); [done|]. by apply wp_ret. }
      intros st2 (Ho2&Hb2&Hm2). simpl negb. cbv iota.
      eapply wp_step2; [apply (wp_openSize os st); [done|by split]|done|done|..].
      { intros rc s st' Hne. destruct (Z.eqb_spec rc 0); [done|]. by apply wp_ret. }
      intros s st3 [-> Hm3]. simpl negb. cbv iota. by apply wp_openData.
    - intros rc st' Hne. destruct (Z.eqb_spec rc 0); [done|]. simpl. by apply wp_modify_bind, wp_ret.
    - intros st' H. change (negb (SDB_OK =? 0)) with false. cbv iota. apply wp_bind, wp_ret, wp_ret. by intros _. }
  unfold wp in Hwp. rewrite E in Hwp. destruct (Hwp eq_refl) as (Hs&[Hf _ _]&Hn&Hl). split; [|done].
  exists ∅, [], []. split; [|by rewrite fmap_empty]. split; [done|]. split; [done|]. intros i c Hi.
  by rewrite lookup_empty in Hi.
Qed.

(** C8: Opening an empty file as a new storage unit, one that knows no
    collection and whose latches nobody holds, with any of the five page sizes
    and whatever the operating system answers: when it reports success the
    invariant holds, the storage unit has no collection and no name, every slot
    is free and no latch is held. *)
Theorem openStorage_new os st k st' :
  12 <= k <= 16 -> si_pageSize (bd_info st) = 2 ^ k ->
  mm_fileSize (sg_file (bd_seg st)) = 0 -> mm_segs (sg_file (bd_seg st)) = [] ->
  bd_names st = ∅ -> (forall i, latch_at st i = latch_free) ->
  openStorage os true true st = (Ok SDB_OK, st') ->
  store_ok st' ∅ /\ bd_names st' = ∅ /\ (forall i, latch_at st' i = latch_free) /\
  forall i, mb_flag (mb_at st' i) = DMS_MB_FLAG_FREE.
Proof.
  intros Hk Hps Hsz Hsegs Hn Hl E. destruct (open_new_ok os st k st' Hk Hps Hsz Hsegs E) as (Hst&Hn'&Hl'&Hf).
  split_and!; [done|congruence| |done]. intros i. rewrite <- (Hl i). unfold latch_at. by rewrite Hl'.
Qed.
