(* ===== verification/DmsHistory.v ===== *)
(** * Histories of a storage unit

    Inserting by name as [_dmsBlockUnit] does it, and sequences of operations:
    every history of collections added and records inserted is one of the
    abstract storage unit. *)
From S2P Require Import Prelude.
From S2P Require Import ByteBits.
From S2P Require Import Links.
From S2P Require Import OssBase.
From S2P Require Import OssMmap.
From S2P Require Import DmsBase.
From S2P Require Import DmsName.
From S2P Require Import DmsSegmentSpace.
From S2P Require Import DmsSMEMgr.
From S2P Require Import DmsRecord.
From S2P Require Import DmsDirtyList.
From S2P Require Import DmsMBContext.
From S2P Require Import DmsExtent.
From S2P Require Import DmsMB.
From S2P Require Import Bson.
From S2P Require Import DmsStore.
From S2P Require Import DmsInsert.
From S2P Require Import DmsWp.
From S2P Require Import DmsDelete.
From S2P Require Import DmsView.
From S2P Require Import DmsCol.
From S2P Require Import DmsSpaceOk.
From S2P Require Import DmsAlloc.
From S2P Require Import DmsInsertOk.
From S2P Require Import DmsInsertRecord.
From S2P Require Import DmsRefine.
From S2P Require Import DmsCollection.
From S2P Require Import DmsSession.
From S2P Require Import DmsCreateOk.
From S2P Require Import DmsOpenOk.
From Stdlib Require Import String.
#[local] Open Scope Z_scope.

(** ** Between the operations *)

(** No session holds a latch, and the names are those of collections. *)
Record db_ok (st : blockData) (A : absStore) : Prop := {
  db_store : store_ok st A;
  db_idle : forall i, latch_at st i = latch_free;
  db_names : forall n i, bd_names st !! n = Some i -> is_Some (A !! i)
}.

Lemma store_ok_slot st A i : store_ok st A -> is_Some (A !! i) ->
  0 <= i < DMS_MME_SLOTS /\ DMS_IS_MB_INUSE (mb_flag (mb_at st i)) = true.
Proof.
  intros (cvs&held&rest&(_&_&Hc)&->) Hi. rewrite lookup_fmap, fmap_is_Some in Hi. destruct Hi as [c Hi].
  by destruct (Hc _ _ Hi) as [_ Hs].
Qed.

Lemma store_ok_sess st st' A : sess_only st st' -> store_ok st A -> store_ok st' A.
Proof.
  intros H (cvs&held&rest&Hst&->). exists cvs, held, rest. split; [by eapply sess_store|done].
Qed.

(** ** [_dmsBlockUnit::insertRecord] *)

Definition unit_post (st : blockData) (A : absStore) (name : string) (d : list Z)
    (o : outcome Z) (st' : blockData) : Prop :=
  match o with
  | Ok rc =>
      match bd_names st !! name with
      | None => rc = SDB_DMS_NOTEXIST /\ st' = st
      | Some i =>
          bd_names st' = bd_names st /\ (forall j, latch_at st' j = latch_free) /\
          if decide (rc = SDB_OK)
          then exists r A', spec_insert A i r d A' /\ store_ok st' A'
          else store_ok st' A
      end
  | Throw _ => False
  | Stop w => w = Panic
  end.

Lemma wp_unit_insertRecord os st A name fs mustOID position oid :
  db_ok st A -> doc_ok fs -> is_bytes oid -> List.length oid = 12%nat -> id_checked fs ->
  wp (unit_insertRecord os (Some name) (enc_doc fs) mustOID position oid)
    (unit_post st A name (enc_doc (stored_doc fs mustOID oid))) st.
Proof.
  intros [Hst Hidle Hnames] Hd Hb Hl Hid. unfold unit_insertRecord, getMBContextByName.
  apply wp_bind, wp_get_bind. cbv zeta. unfold unit_post, collectionNameLookup.
  destruct (bd_names st !! name) as [i|] eqn:En; cbn [default from_option].
  2: { apply wp_ret. change (negb (SDB_DMS_NOTEXIST =? 0)) with true. by apply wp_ret. }
  pose proof (Hnames _ _ En) as HAi. destruct (store_ok_slot _ _ _ Hst HAi) as [Hi Hu]. unfold id.
  destruct (Z.eqb_spec DMS_INVALID_MBID i) as [E|_]; [unfold DMS_INVALID_MBID, DMS_MME_SLOTS in *; lia|].
  apply wp_getMBContext; [lia|by left|done|apply Hidle|by right; right|..].
  { intros st1 Hse Hl1. change (negb (SDB_OOM =? 0)) with true. apply wp_ret.
    split; [by apply sess_names|]. split; [intros j; unfold latch_at; rewrite Hl1; apply Hidle|].
    by eapply store_ok_sess. }
  intros st1 Hse Hso1 Hl1. change (negb (SDB_OK =? 0)) with false. cbv iota.
  pose proof (store_ok_sess _ _ _ Hse Hst) as Hst1.
  pose proof (insert_ok os st1 A i (-1) fs mustOID position oid Hst1 HAi Hso1 Hd Hb Hl Hid) as Hins.
  pose proof (keeps_insertRecord os (enc_doc fs) mustOID position oid st1) as Hown.
  apply wp_bind. unfold wp at 1. destruct (insertRecord _ _ _ _ _ _) as [[rc|e|w] st2]; cbn [fst snd] in *; [|done..].
  destruct Hins as [[t Hso2] Hins]. apply wp_bind.
  eapply wp_releaseMBContext; [exact Hso2|]. intros st3 Hse3 Hl3 Hfree. apply wp_ret.
  split.
  { rewrite (sess_names _ _ Hse3), (ol_names _ _ Hown). by apply sess_names. }
  split.
  { assert (frees_kept st st3) as Hk; [|intros j; apply Hk, Hidle].
    eapply frees_but_all; [|exact Hfree]. eapply frees_but_trans; [exact Hl1|].
    eapply frees_but_trans; [|exact Hl3]. by eapply own_frees; [exact Hown|apply Hso1]. }
  case_decide; [|by eapply store_ok_sess].
  destruct Hins as (r&A'&Hs&Hst'). exists r, A'. split; [done|by eapply store_ok_sess].
Qed.

(** C6: Inserting by name refines the abstract insertion: a name that is not
    there is refused and nothing changes; otherwise the document goes to the
    collection of that name and to no other, or an error is reported and every
    record is where it was.  The context is released: no latch stays held. *)
Theorem unit_insertRecord_refines os st A name fs mustOID position oid :
  db_ok st A -> doc_ok fs -> is_bytes oid -> List.length oid = 12%nat -> id_checked fs ->
  let '(o, st') := unit_insertRecord os (Some name) (enc_doc fs) mustOID position oid st in
  unit_post st A name (enc_doc (stored_doc fs mustOID oid)) o st'.
Proof.
  intros H Hd Hb Hl Hid. pose proof (wp_unit_insertRecord os st A name fs mustOID position oid H Hd Hb Hl Hid) as Hwp.
  unfold wp in Hwp. by destruct (unit_insertRecord _ _ _ _ _ _ _).
Qed.

(** ** Histories *)

(** One operation of a client, whatever its result. *)
Inductive db_step (os : nat -> Z) : blockData -> blockData -> Prop :=
  | step_add st name clUniqueID attributes initPages sysCollection res st' :
      addCollection os name clUniqueID attributes initPages sysCollection st = (Ok res, st') ->
      db_step os st st'
  | step_insert st name fs mustOID position oid rc st' :
      doc_ok fs -> is_bytes oid -> List.length oid = 12%nat -> id_checked fs ->
      unit_insertRecord os (Some name) (enc_doc fs) mustOID position oid st = (Ok rc, st') ->
      db_step os st st'.

(** One operation of the abstract storage unit. *)
Inductive abs_step : absStore -> absStore -> Prop :=
  | abs_skip A : abs_step A A
  | abs_add A i : A !! i = None -> abs_step A (<[i := []]> A)
  | abs_insert A i r d A' : spec_insert A i r d A' -> abs_step A A'.

Lemma spec_insert_dom A i r d A' j : spec_insert A i r d A' -> is_Some (A !! j) -> is_Some (A' !! j).
Proof.
  intros (l1&l2&_&_&->) Hj. destruct (decide (i = j)) as [->|]; [by rewrite lookup_insert_eq|].
  by rewrite lookup_insert_ne.
Qed.

(** Adding a collection between operations. *)
Lemma add_db os st A name u attr pages sys rc i lid st' :
  db_ok st A -> addCollection os name u attr pages sys st = (Ok (rc, i, lid), st') ->
  exists A', db_ok st' A' /\ (rc <> SDB_OK /\ A' = A \/ A !! i = None /\ A' = <[i := []]> A).
Proof.
  intros [Hst Hidle Hnames] E.
  destruct Hst as (cvs&held&rest&Hst&EA).
  pose proof (wp_addCollection os st cvs rest name u attr pages sys (ex_intro _ held Hst) (fun i _ => Hidle i)) as H.
  unfold wp in H. rewrite E in H. cbn [fst snd] in H.
  assert (Hfr : frees_kept st st' /\ ((rc <> SDB_OK /\ store_ok st' A /\ bd_names st' = bd_names st) \/
    (A !! i = None /\ store_ok st' (<[i := []]> A) /\ bd_names st' = <[name := i]> (bd_names st)))).
  { destruct H as [Hfr [[Hrc [Hst' Hn']]|[_ (c&Hi&Hc&Hst'&Hn')]]]; (split; [done|]).
    - left. split_and!; try done. rewrite EA. by eapply store_with_ok.
    - right. split_and!; try done; [by rewrite EA, lookup_fmap, Hi|]. apply store_with_ok in Hst'.
      by rewrite fmap_insert, Hc, <- EA in Hst'. }
  destruct Hfr as [Hfr [(Hrc&Hst'&Hn')|(Hi&Hst'&Hn')]].
  - exists A. split; [|by left]. split; [done|intros j; by apply Hfr|]. intros n j. rewrite Hn'. apply Hnames.
  - exists (<[i := []]> A). split; [|by right]. split; [done|intros j; by apply Hfr|].
    intros n j. rewrite Hn'. destruct (decide (i = j)) as [->|Hij]; [by rewrite lookup_insert_eq|].
    rewrite (lookup_insert_ne A) by done. destruct (decide (name = n)) as [->|].
    + rewrite lookup_insert_eq. by intros [= ->].
    + rewrite lookup_insert_ne by done. apply Hnames.
Qed.

Lemma open_db os st k st' :
  12 <= k <= 16 -> si_pageSize (bd_info st) = 2 ^ k ->
  mm_fileSize (sg_file (bd_seg st)) = 0 -> mm_segs (sg_file (bd_seg st)) = [] ->
  bd_names st = ∅ -> bd_latch st = ∅ ->
  openStorage os true true st = (Ok SDB_OK, st') -> db_ok st' ∅.
Proof.
  intros Hk Hps Hsz Hsegs Hn Hl E.
  destruct (open_new_ok os st k st' Hk Hps Hsz Hsegs E) as (Hst&Hn1&Hl1&_).
  split; [done| |].
  - intros i. unfold latch_at. by rewrite Hl1, Hl, lookup_empty.
  - intros n i Hi. by rewrite Hn1, Hn, lookup_empty in Hi.
Qed.

(** A session that got its context. *)
Lemma context_db os st A name i m st' :
  db_ok st A -> bd_names st !! name = Some i -> m = EXCLUSIVE \/ m = SHARED \/ m = -1 ->
  getMBContextByName os name m st = (Ok SDB_OK, st') -> store_ok st' A /\ sole st' i m.
Proof.
  intros [Hst Hidle Hnames] En Hm E. destruct (store_ok_slot _ _ _ Hst (Hnames _ _ En)) as [Hi Hu].
  assert (wp (getMBContextByName os name m) (fun o st' => o = Ok SDB_OK -> store_ok st' A /\ sole st' i m) st) as H.
  { unfold getMBContextByName, collectionNameLookup. apply wp_get_bind. rewrite En. cbn [default from_option]. unfold id.
    destruct (Z.eqb_spec DMS_INVALID_MBID i); [unfold DMS_INVALID_MBID, DMS_MME_SLOTS in *; lia|].
    apply wp_getMBContext; [lia|by left|done|apply Hidle|done|done|].
    intros st1 Hse Hso _ _. split; [by eapply store_ok_sess|done]. }
  unfold wp in H. rewrite E in H. by apply H.
Qed.

(** Every step of the storage unit is one of the abstract one. *)
Lemma db_step_sim os st A st' :
  db_ok st A -> db_step os st st' -> exists A', abs_step A A' /\ db_ok st' A'.
Proof.
  intros Hdb Hstep.
  destruct Hstep as [st name u attr pages sys [[rc i] lid] st' E|st name fs mustOID position oid rc st' Hd Hb Hl Hid E].
  - destruct (add_db _ _ _ _ _ _ _ _ _ _ _ _ Hdb E) as (A'&Hdb'&[[_ ->]|[Hi ->]]); eexists; (split; [|exact Hdb']);
      by constructor.
  - pose proof Hdb as [Hst Hidle Hnames].
    pose proof (wp_unit_insertRecord os st A name fs mustOID position oid Hdb Hd Hb Hl Hid) as H.
    unfold wp in H. rewrite E in H. simpl in H. destruct (bd_names st !! name) as [i|] eqn:En.
    2: { destruct H as [_ ->]. exists A. split; [constructor|done]. }
    destruct H as (Hn'&Hidle'&H). case_decide.
    + destruct H as (r&A'&Hs&Hst'). exists A'. split; [by econstructor|]. split; [done..|].
      intros n j Hj. rewrite Hn' in Hj. eapply spec_insert_dom; [exact Hs|by eapply Hnames].
    + exists A. split; [constructor|]. split; [done..|]. intros n j. rewrite Hn'. apply Hnames.
Qed.

Lemma db_history os st A st' :
  db_ok st A -> rtc (db_step os) st st' -> exists A', rtc abs_step A A' /\ db_ok st' A'.
Proof.
  intros Hdb Hr. revert A Hdb. induction Hr as [st|st1 st2 st3 Hs _ IH]; intros A Hdb.
  - exists A. split; [apply rtc_refl|done].
  - destruct (db_step_sim _ _ _ _ Hdb Hs) as (A1&Ha&H1). destruct (IH A1 H1) as (A2&Hr2&H2).
    exists A2. split; [by eapply rtc_l|done].
Qed.

(** C2: Whatever a client does with a new storage unit - collections added,
    records inserted, operations that fail on the way, whatever the operating
    system answers - every state it reaches satisfies the invariant and is a
    state of the abstract storage unit that the same kinds of operations reach
    from the empty one. *)
Theorem history_refines os st k st1 st2 :
  12 <= k <= 16 -> si_pageSize (bd_info st) = 2 ^ k ->
  mm_fileSize (sg_file (bd_seg st)) = 0 -> mm_segs (sg_file (bd_seg st)) = [] ->
  bd_names st = ∅ -> bd_latch st = ∅ ->
  openStorage os true true st = (Ok SDB_OK, st1) -> rtc (db_step os) st1 st2 ->
  exists A, rtc abs_step ∅ A /\ db_ok st2 A.
Proof.
  intros Hk Hps Hsz Hsegs Hn Hl E. apply db_history. by eapply (open_db os st k).
Qed.

Lemma abs_step_keeps A A' i l :
  abs_step A A' -> A !! i = Some l -> exists l', A' !! i = Some l' /\ sublist l l'.
Proof.
  intros H Hi. destruct H as [A|A j Hj|A j r d A' (l1&l2&E&_&->)].
  - by exists l.
  - exists l. split; [|done]. rewrite lookup_insert_ne; [done|]. by intros ->; rewrite Hj in Hi.
  - destruct (decide (j = i)) as [->|]; [|exists l; split; [by rewrite lookup_insert_ne|done]].
    rewrite Hi in E. injection E as ->. exists (l1 ++ (r, d) :: l2). split; [by rewrite lookup_insert_eq|].
    apply sublist_app; [done|]. by apply sublist_cons.
Qed.

Lemma abs_history_keeps A A' i l :
  rtc abs_step A A' -> A !! i = Some l -> exists l', A' !! i = Some l' /\ sublist l l'.
Proof.
  intros Ha. revert l. induction Ha as [A|A1 A2 A3 Hs _ IH]; intros l Hi; [by exists l|].
  destruct (abs_step_keeps _ _ _ _ Hs Hi) as (l1&H1&Hl1). destruct (IH _ H1) as (l2&H2&Hl2).
  exists l2. split; [done|by etrans].
Qed.

(** C3: No record is ever lost or changed: whatever operations follow, with
    whatever results, a collection still holds the records it held, with
    their identifiers and data and in their order. *)
Theorem records_kept os st A st' i l :
  db_ok st A -> A !! i = Some l -> rtc (db_step os) st st' ->
  exists A' l', db_ok st' A' /\ A' !! i = Some l' /\ sublist l l'.
Proof.
  intros Hdb Hi Hr. destruct (db_history _ _ _ _ Hdb Hr) as (A'&Ha&Hdb').
  exists A'. destruct (abs_history_keeps _ _ _ _ Ha Hi) as (l'&?&?). by exists l'.
Qed.
