(* ===== verification/DmsScanner.v ===== *)
(** * Scanning a collection: [_dmsRecordGenerator], [_dmsScanner],
    [_dmsExtScanner] (src/src/dms/dmsScanner.cpp, src/src/dms/dmsScanner.hpp)

    A scanner is a record of its members; its operations run in the monad of
    DmsStore.v on the storage unit it points to.  The pointers into the
    mapped file are what they point at: the extent by its number, the record
    by its identifier. *)
From S2P Require Import Prelude.
From S2P Require Import ByteBits.
From S2P Require Import OssBase.
From S2P Require Import OssMmap.
From S2P Require Import DmsBase.
From S2P Require Import DmsName.
From S2P Require Import DmsSegmentSpace.
From S2P Require Import DmsSMEMgr.
From S2P Require Import DmsRecord.
From S2P Require Import DmsDirtyList.
From S2P Require Import DmsMBContext.
From S2P Require Import DmsExtent.
From S2P Require Import DmsMB.
From S2P Require Import Bson.
From S2P Require Import DmsStore.
From S2P Require Import DmsInsert.
From S2P Require Import DmsCollection.
#[local] Open Scope Z_scope.

(** ** [_dmsRecordGenerator] *)

Record dmsRecordGenerator := mkGen {
  gen_dataPtr : option (list Z);
  gen_src : list Z;
  gen_index : Z;
  gen_totalNum : Z;
  gen_validNum : Z
}.

Definition gen_new : dmsRecordGenerator := mkGen None [] 0 0 0.

Definition gen_resetValue (g : dmsRecordGenerator) (src : list Z) : Z * dmsRecordGenerator :=
  (SDB_OK, mkGen (gen_dataPtr g) src 0 1 1).

Definition gen_getNext (g : dmsRecordGenerator) : Z * list Z * dmsRecordGenerator :=
  (SDB_OK, gen_src g,
   mkGen (gen_dataPtr g) (gen_src g) (u32 (gen_index g + 1)) (gen_totalNum g)
     (u32 (gen_validNum g - 1))).

Definition gen_hasNext (g : dmsRecordGenerator) : bool := 0 <? gen_validNum g.

Definition gen_setDataPtr (g : dmsRecordGenerator) (p : option (list Z)) : dmsRecordGenerator :=
  mkGen p (gen_src g) (gen_index g) (gen_totalNum g) (gen_validNum g).

(** ** [_dmsExtScannerBase] *)

Inductive DMS_ACCESS_TYPE :=
  | DMS_ACCESS_TYPE_NULL
  | DMS_ACCESS_TYPE_QUERY
  | DMS_ACCESS_TYPE_FETCH
  | DMS_ACCESS_TYPE_INSERT
  | DMS_ACCESS_TYPE_UPDATE
  | DMS_ACCESS_TYPE_DELETE
  | DMS_ACCESS_TYPE_TRUNCATE
  | DMS_ACCESS_TYPE_CRT_INDEX
  | DMS_ACCESS_TYPE_DROP_INDEX
  | DMS_ACCESS_TYPE_CRT_DICT
  | DMS_ACCESS_TYPE_POP.

Definition DMS_IS_WRITE_OPR (t : DMS_ACCESS_TYPE) : bool :=
  match t with
  | DMS_ACCESS_TYPE_UPDATE | DMS_ACCESS_TYPE_DELETE | DMS_ACCESS_TYPE_INSERT => true
  | _ => false
  end.

Record dmsExtScanner := mkScan {
  sc_mbLockType : Z;
  sc_maxRecords : Z;
  sc_skipNum : Z;
  sc_extent : option Z;
  sc_curRID : dmsRecordID;
  sc_next : Z;
  sc_firstRun : bool
}.

Definition scan_new (curExtentID : Z) (accessType : DMS_ACCESS_TYPE)
    (maxRecords skipNum : Z) : dmsExtScanner :=
  mkScan (if DMS_IS_WRITE_OPR accessType then EXCLUSIVE else SHARED) maxRecords skipNum
    None (mkRID curExtentID DMS_INVALID_OFFSET) DMS_INVALID_OFFSET true.

Definition scan_isReadOnly (s : dmsExtScanner) : bool := SHARED =? sc_mbLockType s.

Definition scan_with_offset (s : dmsExtScanner) (off : Z) : dmsExtScanner :=
  mkScan (sc_mbLockType s) (sc_maxRecords s) (sc_skipNum s) (sc_extent s)
    (mkRID (rid_extent (sc_curRID s)) off) (sc_next s) (sc_firstRun s).

Definition scan_with_nums (s : dmsExtScanner) (maxRecords skipNum : Z) : dmsExtScanner :=
  mkScan (sc_mbLockType s) maxRecords skipNum (sc_extent s) (sc_curRID s) (sc_next s)
    (sc_firstRun s).

Definition scan_with_next (s : dmsExtScanner) (next : Z) : dmsExtScanner :=
  mkScan (sc_mbLockType s) (sc_maxRecords s) (sc_skipNum s) (sc_extent s) (sc_curRID s) next
    (sc_firstRun s).

Definition scan_stop (s : dmsExtScanner) : dmsExtScanner :=
  scan_with_offset (scan_with_next s DMS_INVALID_OFFSET) DMS_INVALID_OFFSET.

Definition nextExtentID (st : blockData) (s : dmsExtScanner) : Z :=
  match sc_extent s with
  | Some e => ext_nextExtent (ext_at st e)
  | None => DMS_INVALID_EXTENT
  end.

Definition stepToNextExtent (s : dmsExtScanner) : M (Z * dmsExtScanner) :=
  st ← get_st;
  if negb (0 =? sc_maxRecords s) && negb (DMS_INVALID_EXTENT =? nextExtentID st s)
  then mret (SDB_OK,
             mkScan (sc_mbLockType s) (sc_maxRecords s) (sc_skipNum s) (sc_extent s)
               (mkRID (nextExtentID st s) (rid_offset (sc_curRID s))) (sc_next s) true)
  else mret (SDB_DMS_EOC, s).

(** ** [_dmsExtScanner] *)

Definition firstInit (s : dmsExtScanner) : M (Z * dmsExtScanner) :=
  st ← get_st;
  let e := rid_extent (sc_curRID s) in
  if ext_null st e
  then mret (SDB_INVALIDARG,
             mkScan (sc_mbLockType s) (sc_maxRecords s) (sc_skipNum s) None (sc_curRID s)
               (sc_next s) (sc_firstRun s))
  else
    let s := mkScan (sc_mbLockType s) (sc_maxRecords s) (sc_skipNum s) (Some e) (sc_curRID s)
               (sc_next s) (sc_firstRun s) in
    rc ← (if negb (isMBLock (bd_ctx st) (sc_mbLockType s)) then ctx_mbLock (sc_mbLockType s)
          else mret SDB_OK);
    if negb (rc =? 0) then mret (rc, s)
    else
      st ← get_st;
      if negb (ext_validate (ext_at st e) (cx_mbID (bd_ctx st))) then mret (SDB_SYS, s)
      else
        mret (SDB_OK, mkScan (sc_mbLockType s) (sc_maxRecords s) (sc_skipNum s) (Some e)
                        (sc_curRID s) (ext_firstRecordOffset (ext_at st e)) false).

(** The error exit. *)
Definition fetch_error (rc : Z) (s : dmsExtScanner) (g : dmsRecordGenerator)
    : Z * dmsRecordID * dmsExtScanner * dmsRecordGenerator :=
  (rc, rid_null, scan_with_offset s DMS_INVALID_OFFSET, gen_setDataPtr g None).

(** The loop: every turn but the last one skips a record, so [skipNum + 1]
    turns are enough. *)
Fixpoint fetch_loop (fuel : nat) (s : dmsExtScanner) (g : dmsRecordGenerator)
    : M (Z * dmsRecordID * dmsExtScanner * dmsRecordGenerator) :=
  match fuel with
  | O => stop Diverges
  | S fuel =>
      if negb (DMS_INVALID_OFFSET =? sc_next s) && negb (0 =? sc_maxRecords s) then
        let s := scan_with_offset s (sc_next s) in
        r ← recReadPtr (sc_curRID s) 0;
        let s := scan_with_next s (rec_nextOffset r) in
        '(rc, recordData) ← extractData (sc_curRID s);
        if negb (rc =? 0) then mret (fetch_error rc s g)
        else
          let g := gen_setDataPtr g (rd_data recordData) in
          match bson_obj (default [] (rd_data recordData)) with
          | BOk obj =>
              let g := (gen_resetValue g obj).2 in
              if 0 <? sc_skipNum s
              then fetch_loop fuel (scan_with_nums s (sc_maxRecords s) (sc_skipNum s - 1)) g
              else
                mret (SDB_OK, sc_curRID s,
                      scan_with_nums s
                        (if 0 <? sc_maxRecords s then sc_maxRecords s - 1 else sc_maxRecords s)
                        (sc_skipNum s), g)
          | _ => mret (fetch_error SDB_SYS s g)
          end
      else mret (fetch_error SDB_DMS_EOC s g)
  end.

Definition fetchNext (s : dmsExtScanner) (g : dmsRecordGenerator)
    : M (Z * dmsRecordID * dmsExtScanner * dmsRecordGenerator) :=
  fetch_loop (S (Z.to_nat (sc_skipNum s))) s g.

Definition advance (s : dmsExtScanner) (g : dmsRecordGenerator)
    : M (Z * dmsRecordID * dmsExtScanner * dmsRecordGenerator) :=
  '(rc, s) ← (if sc_firstRun s then firstInit s else mret (SDB_OK, s));
  if negb (rc =? 0)
  then mret (rc, rid_null, scan_with_offset s DMS_INVALID_OFFSET, g)
  else
    '(rc, rid, s, g) ← fetchNext s g;
    if negb (rc =? 0)
    then mret (rc, rid_null, scan_with_offset s DMS_INVALID_OFFSET, g)
    else mret (rc, rid, s, g).

(** ** A client: every record from the scanner's position on *)

Fixpoint scan_all (fuel : nat) (s : dmsExtScanner) : M (Z * list (dmsRecordID * list Z)) :=
  match fuel with
  | O => stop Diverges
  | S fuel =>
      '(rc, rid, s, g) ← advance s gen_new;
      if rc =? 0 then
        '(rc, l) ← scan_all fuel s;
        mret (rc, (rid, (gen_getNext g).1.2) :: l)
      else if SDB_DMS_EOC =? rc then
        '(rc, s) ← stepToNextExtent s;
        if rc =? 0 then scan_all fuel s else mret (rc, [])
      else mret (rc, [])
  end.
