(* ===== verification/DmsScanOk.v ===== *)
(** * A scan returns the contents

    A scanner started at a collection's first extent returns the records of
    the collection's view, in order, less the ones it skips and up to the
    number asked for. *)
From S2P Require Import Prelude.
From S2P Require Import ByteBits.
From S2P Require Import Links.
From S2P Require Import OssBase.
From S2P Require Import OssMmap.
From S2P Require Import DmsBase.
From S2P Require Import DmsName.
From S2P Require Import DmsSegmentSpace.
From S2P Require Import DmsSMEMgr.
From S2P Require Import DmsRecord.
From S2P Require Import DmsDirtyList.
From S2P Require Import DmsMBContext.
From S2P Require Import DmsExtent.
From S2P Require Import DmsMB.
From S2P Require Import Bson.
From S2P Require Import DmsStore.
From S2P Require Import DmsInsert.
From S2P Require Import DmsWp.
From S2P Require Import DmsDelete.
From S2P Require Import DmsView.
From S2P Require Import DmsCol.
From S2P Require Import DmsSpaceOk.
From S2P Require Import DmsAlloc.
From S2P Require Import DmsInsertOk.
From S2P Require Import DmsInsertRecord.
From S2P Require Import DmsRefine.
From S2P Require Import DmsCollection.
From S2P Require Import DmsScanner.
#[local] Open Scope Z_scope.

(** ** One record *)

Section Scan.
Context (mbID : Z).

Lemma read_record st v o d :
  ext_good st mbID None v -> geometry_ok (bd_geo st) -> (o, d) ∈ ev_recs v ->
  isMBLockAny (bd_ctx st) = true ->
  recReadPtr (mkRID (ev_id v) o) 0 st = (Ok (rec_at st (mkRID (ev_id v) o)), st) /\
  extractData (mkRID (ev_id v) o) st =
    (Ok (SDB_OK, rd_setData rd_reset d (Z.of_nat (length d)) UTIL_COMPRESSOR_INVALID true), st) /\
  bson_obj d = BOk d /\ o <> NIL.
Proof.
  intros [Hok Hn] Hg Hin Hlk.
  destruct (ext_used_tile _ _ _ _ _ _ o Hok) as [s Hs].
  { apply elem_of_app. right. change o with (o, d).1. by apply list_elem_of_fmap_2. }
  destruct (xo_cells _ _ _ _ _ _ Hok _ _ _ Hin Hs) as [(f&Hh&Hf) _ (Hd1&Hd2&Hd3) _ Hb].
  destruct (ext_off_pos _ _ _ _ _ _ _ _ _ Hok Hs) as (Ho&_&Hsz).
  unfold cell_of in *.
  assert (recReadPtr (mkRID (ev_id v) o) 0 st = (Ok (rec_at st (mkRID (ev_id v) o)), st)) as Hread.
  { unfold recReadPtr, mbind, M_bind, get_st. cbn [rid_extent]. rewrite Hn.
    unfold recLen. simpl (0 =? 0). cbv iota. rewrite (head_getSize _ _ _ Hh).
    by destruct (Z.ltb_spec DMS_RECORD_MAX_SZ s); [lia|]. }
  split; [done|]. split_and!.
  - unfold extractData. unfold mbind at 1, M_bind at 1. rewrite Hread.
    unfold mbind at 1, M_bind at 1, get_st. rewrite Hlk. simpl negb. cbv iota.
    assert (rec_isOvf (rec_at st (mkRID (ev_id v) o)) = false) as ->.
    { unfold rec_isOvf, rec_getState. rewrite (head_getFlag _ _ _ Hh), Hf. done. }
    unfold mbind, M_bind, mret, M_ret. rewrite Hd1, Nat2Z.id, Hd2. done.
  - unfold bson_obj. by rewrite Hb.
  - unfold DMS_EXTENT_METADATA_SZ, NIL in *. lia.
Qed.

(** ** One extent *)

Definition limit {A} (m : Z) (l : list A) : list A :=
  if m <? 0 then l else take (Z.to_nat m) l.

(** The scanner is before the records [rs] of extent [v]. *)
Record scan_at (st : blockData) (v : extView) (s : dmsExtScanner) (rs : list (Z * list Z)) : Prop := {
  sa_ext : sc_extent s = Some (ev_id v);
  sa_rid : rid_extent (sc_curRID s) = ev_id v;
  sa_in : rs ⊆ ev_recs v;
  sa_next : lchain (fun o => rec_nextOffset (rec_at st (mkRID (ev_id v) o))) (sc_next s) (map fst rs);
  sa_run : sc_firstRun s = false;
  sa_skip : 0 <= sc_skipNum s
}.

Definition lower (m : Z) : Z := if 0 <? m then m - 1 else m.

(** What [fetchNext] answers. *)
Definition fetched (st : blockData) (v : extView) (s : dmsExtScanner) (rs : list (Z * list Z))
    (res : Z * dmsRecordID * dmsExtScanner * dmsRecordGenerator) : Prop :=
  let '(rc, rid, s', g) := res in
  sc_mbLockType s' = sc_mbLockType s /\ sc_extent s' = Some (ev_id v) /\
  match (if 0 =? sc_maxRecords s then [] else drop (Z.to_nat (sc_skipNum s)) rs) with
  | [] => rc = SDB_DMS_EOC /\ sc_maxRecords s' = sc_maxRecords s /\
      (sc_maxRecords s <> 0 -> sc_skipNum s' = sc_skipNum s - Z.of_nat (length rs))
  | (o, d) :: rs' => rc = SDB_OK /\ rid = mkRID (ev_id v) o /\ gen_src g = d /\
      scan_at st v s' rs' /\ sc_skipNum s' = 0 /\ sc_maxRecords s' = lower (sc_maxRecords s)
  end.

Lemma fetch_loop_ok st v :
  ext_good st mbID None v -> geometry_ok (bd_geo st) -> isMBLockAny (bd_ctx st) = true ->
  forall fuel s g rs, scan_at st v s rs -> (Z.to_nat (sc_skipNum s) < fuel)%nat ->
  exists res, fetch_loop fuel s g st = (Ok res, st) /\ fetched st v s rs res.
Proof.
  intros Hv Hg Hlk. induction fuel as [|fuel IH]; intros s g rs [A1 A2 A3 A4 A5 A6] Hf; [lia|].
  cbn [fetch_loop]. unfold fetched.
  destruct (Z.eqb_spec 0 (sc_maxRecords s)) as [Em|Em]; [rewrite andb_false_r|rewrite andb_true_r]; cbv iota.
  { eexists. split; [reflexivity|]. split_and!; simpl; try done. }
  destruct rs as [|[o d] rs].
  { simpl in A4. rewrite A4. simpl. eexists. split; [reflexivity|]. simpl. rewrite drop_nil.
    split_and!; try done. intros _. lia. }
  destruct A4 as (En&Hn&A4). cbn [fst] in *. rewrite En.
  destruct (read_record st v o d Hv Hg) as (R1&R2&R3&_); [apply A3; left|done|].
  change DMS_INVALID_OFFSET with NIL. destruct (Z.eqb_spec NIL o); [done|]. cbn [negb]. cbv iota zeta.
  cbn [scan_with_offset sc_curRID]. rewrite A2. unfold mbind at 1, M_bind at 1. rewrite R1.
  unfold mbind at 1, M_bind at 1. cbn [scan_with_next scan_with_offset sc_curRID rid_extent]. rewrite A2, R2. change (negb (SDB_OK =? 0)) with false. cbv iota beta.
  change (default [] (rd_data _)) with d. rewrite R3.
  change (sc_skipNum (scan_with_next _ _)) with (sc_skipNum s).
  destruct (Z.ltb_spec 0 (sc_skipNum s)).
  - match goal with |- exists res, fetch_loop fuel ?s1 ?g1 st = _ /\ _ => destruct (IH s1 g1 rs) as (res&E&Hres) end; [split; simpl; try done; [|lia]|simpl; lia|].
    + intros x Hx. apply A3. by right.
    + exists res. split; [exact E|]. destruct res as [[[rc rid] s'] g']. unfold fetched in Hres. simpl in Hres.
      destruct (Z.eqb_spec 0 (sc_maxRecords s)); [done|].
      replace (Z.to_nat (sc_skipNum s)) with (S (Z.to_nat (sc_skipNum s - 1))) by lia. simpl.
      destruct (drop _ rs) as [|[o' d'] rs']; [|done].
      destruct Hres as (B1&B2&B3&B4&B5). split_and!; try done. intros Hm. rewrite (B5 Hm). lia.
  - replace (Z.to_nat (sc_skipNum s)) with 0%nat by lia. rewrite drop_0.
    eexists. split; [reflexivity|]. simpl. split_and!; try done; [|lia].
    split; simpl; try done. intros x Hx. apply A3. by right.
Qed.

(** ** The first call in an extent *)

Definition scan_mode (s : dmsExtScanner) : Prop :=
  sc_mbLockType s = EXCLUSIVE \/ sc_mbLockType s = SHARED.

Lemma sole_locked st m : sole st mbID m -> m = EXCLUSIVE \/ m = SHARED -> isMBLockAny (bd_ctx st) = true.
Proof. intros H Hm. unfold isMBLockAny. rewrite (so_type _ _ _ H). by destruct Hm as [-> | ->]. Qed.

Lemma col_ok_lock st st' c : lock_only st st' -> col_ok st mbID None c -> col_ok st' mbID None c.
Proof.
  intros (l&x&->) H. eapply col_ok_same; [exact H|done..|]. intros e [He| ->]; [|apply H].
  apply list_elem_of_fmap in He as (v&->&Hv). pose proof (co_ext _ _ _ _ H) as HF.
  rewrite Forall_forall in HF. by destruct (HF v Hv).
Qed.

Lemma firstInit_ok st t c v s :
  col_ok st mbID None c -> sole st mbID t -> scan_mode s -> v ∈ cv_exts c ->
  rid_extent (sc_curRID s) = ev_id v -> 0 <= sc_skipNum s ->
  exists s' st', firstInit s st = (Ok (SDB_OK, s'), st') /\
    lock_only st st' /\ (t = sc_mbLockType s -> st' = st) /\ sole st' mbID (sc_mbLockType s) /\
    scan_at st' v s' (ev_recs v) /\ sc_mbLockType s' = sc_mbLockType s /\
    sc_maxRecords s' = sc_maxRecords s /\ sc_skipNum s' = sc_skipNum s.
Proof.
  intros Hc Hso Hm Hv Hr Hsk.
  assert (exists st', (if negb (isMBLock (bd_ctx st) (sc_mbLockType s)) then ctx_mbLock (sc_mbLockType s)
          else mret SDB_OK) st = (Ok SDB_OK, st') /\ lock_only st st' /\ (t = sc_mbLockType s -> st' = st) /\
          sole st' mbID (sc_mbLockType s)) as (st'&E&Hl&Hsame&Hso').
  { unfold isMBLock. rewrite (so_type _ _ _ Hso). destruct (Z.eqb_spec (sc_mbLockType s) t) as [Et|Et]; cbn [negb].
    - exists st. split_and!; try done; [|by rewrite Et]. exists (bd_latch st), (bd_ctx st). by destruct st.
    - assert (wp (ctx_mbLock (sc_mbLockType s)) (fun o st' => o = Ok SDB_OK /\ lock_only st st' /\
        sole st' mbID (sc_mbLockType s)) st) as Hwp.
      { eapply wp_ctx_mbLock_mode; [exact Hso|done|]. by intros st' ? ?. }
      unfold wp in Hwp. destruct (ctx_mbLock _ st) as [o st'']. cbn [fst snd] in Hwp. destruct Hwp as (->&?&?).
      exists st''. split_and!; try done. }
  pose proof (co_ext _ _ _ _ Hc) as HF. rewrite Forall_forall in HF. destruct (HF v Hv) as [Hok Hn].
  eexists _, st'. split.
  { unfold firstInit. unfold mbind at 1, M_bind at 1, get_st. rewrite Hr, Hn.
    unfold mbind at 1, M_bind at 1. cbn [sc_mbLockType]. rewrite E. simpl (negb (SDB_OK =? 0)). cbv iota.
    unfold mbind at 1, M_bind at 1, get_st. rewrite (so_id _ _ _ Hso').
    assert (ext_validate (ext_at st' (ev_id v)) mbID = true) as ->.
    { destruct Hl as (l&x&->). unfold ext_validate. change (ext_at (set_lock _ _ _) (ev_id v)) with (ext_at st (ev_id v)).
      rewrite (xo_head _ _ _ _ _ _ Hok). unfold eh_validate, ext_init. simpl. by rewrite Z.eqb_refl, andb_false_r. }
    reflexivity. }
  split_and!; try done. split; simpl; try done.
  destruct Hl as (l&x&->). apply (xo_list _ _ _ _ _ _ Hok).
Qed.

(** ** The whole scan *)

Definition at_ext (v : extView) (p : Z * list Z) : dmsRecordID * list Z := (mkRID (ev_id v) p.1, p.2).

Definition todo (vs : list extView) : nat := list_sum (map (fun v => S (length (ev_recs v))) vs).

Lemma limit_cons {A} m (a : A) l : m <> 0 -> -1 <= m -> limit m (a :: l) = a :: limit (lower m) l.
Proof.
  intros Hm H1. unfold limit, lower. destruct (Z.ltb_spec m 0), (Z.ltb_spec 0 m); try lia.
  - by destruct (Z.ltb_spec m 0); [|lia].
  - destruct (Z.ltb_spec (m - 1) 0); [lia|].
    by replace (Z.to_nat m) with (S (Z.to_nat (m - 1))) by lia.
Qed.

Lemma limit_0 {A} (l : list A) : limit 0 l = [].
Proof. done. Qed.

(** A call on a scanner that enters an extent is a call on the initialised one. *)
Lemma scan_all_first fuel s s' st st' :
  sc_firstRun s = true -> firstInit s st = (Ok (SDB_OK, s'), st') -> sc_firstRun s' = false ->
  scan_all (S fuel) s st = scan_all (S fuel) s' st'.
Proof.
  intros Hf E Hf'. cbn [scan_all]. unfold mbind at 1, M_bind at 1. unfold mbind at 5, M_bind at 5.
  f_equal. unfold advance. rewrite Hf, Hf'. unfold mbind, M_bind. rewrite E. done.
Qed.

Lemma scan_chain st c l1 v vs :
  col_ok st mbID None c -> cv_exts c = l1 ++ v :: vs ->
  ext_nextExtent (ext_at st (ev_id v)) = default NIL (head (map ev_id vs)).
Proof.
  intros Hc El. pose proof (co_chain _ _ _ _ Hc) as [Hch _]. unfold cv_ids in Hch.
  rewrite El, map_app in Hch. cbn [map] in Hch.
  change (map ev_id l1 ++ ev_id v :: map ev_id vs) with (map ev_id l1 ++ [ev_id v] ++ map ev_id vs) in Hch.
  rewrite app_assoc in Hch. apply lchain_app in Hch. rewrite last_snoc in Hch. by apply lchain_head in Hch.
Qed.

Lemma scan_all_ok st c :
  col_ok st mbID None c ->
  forall fuel l1 v vs s rs, cv_exts c = l1 ++ v :: vs -> scan_at st v s rs ->
  scan_mode s -> sole st mbID (sc_mbLockType s) -> -1 <= sc_maxRecords s ->
  (length rs + todo vs < fuel)%nat ->
  scan_all fuel s st =
    (Ok (SDB_DMS_EOC, limit (sc_maxRecords s)
       (drop (Z.to_nat (sc_skipNum s)) (map (at_ext v) rs ++ concat (map ext_contents vs)))), st).
Proof.
  intros Hc. induction fuel as [|fuel IH]; intros l1 v vs s rs El Hat Hm Hso Hmax Hf; [lia|].
  assert (v ∈ cv_exts c) as Hv by (rewrite El; set_solver).
  pose proof (co_ext _ _ _ _ Hc) as HF. rewrite Forall_forall in HF.
  destruct (fetch_loop_ok st v (HF v Hv) (co_geo _ _ _ _ Hc) (sole_locked _ _ Hso Hm)
    (S (Z.to_nat (sc_skipNum s))) s gen_new rs Hat) as ([[[rc rid] s'] g]&E&Hm'&He'&Hres); [lia|].
  cbn [scan_all]. unfold mbind at 1, M_bind at 1.
  assert (advance s gen_new st = (if negb (rc =? 0)
    then (Ok (rc, rid_null, scan_with_offset s' DMS_INVALID_OFFSET, g), st) else (Ok (rc, rid, s', g), st))) as ->.
  { unfold advance. rewrite (sa_run _ _ _ _ Hat). unfold mbind, M_bind, mret, M_ret.
    simpl (negb (SDB_OK =? 0)). cbv iota beta. unfold fetchNext. rewrite E. by destruct (negb _). }
  pose proof (sa_skip _ _ _ _ Hat) as Hsk.
  set (f := at_ext v). set (Y := concat (map ext_contents vs)).
  destruct (if 0 =? sc_maxRecords s then [] else drop (Z.to_nat (sc_skipNum s)) rs) as [|[o d] rs'] eqn:Ed.
  - destruct Hres as (->&Em&Esk). simpl (negb (SDB_DMS_EOC =? 0)). cbv iota beta.
    change (SDB_DMS_EOC =? 0) with false. change (SDB_DMS_EOC =? SDB_DMS_EOC) with true. cbv iota.
    unfold mbind at 1, M_bind at 1, stepToNextExtent. unfold mbind at 1, M_bind at 1, get_st.
    unfold nextExtentID. cbn [scan_with_offset sc_maxRecords sc_extent]. rewrite Em, He'.
    destruct (Z.eqb_spec 0 (sc_maxRecords s)) as [E0|E0]; cbn [negb andb].
    { unfold mret, M_ret. change (SDB_DMS_EOC =? 0) with false. cbv iota beta. by rewrite <- E0, limit_0. }
    rewrite (scan_chain _ _ _ _ _ Hc El).
    assert (length rs <= Z.to_nat (sc_skipNum s))%nat as Hlen.
    { apply (f_equal length) in Ed. rewrite length_drop in Ed. simpl in Ed. lia. }
    rewrite drop_app, (drop_ge (map f rs)) by (by rewrite length_map). rewrite length_map. cbn [app].
    destruct vs as [|v2 vs]; simpl (head _); cbn [default from_option].
    { change (DMS_INVALID_EXTENT =? NIL) with true. cbn [negb]. unfold mret, M_ret.
      change (SDB_DMS_EOC =? 0) with false. cbv iota beta. unfold Y. simpl. rewrite drop_nil.
      unfold limit. destruct (_ <? _); [done|]. by rewrite take_nil. }
    assert (v2 ∈ cv_exts c) as Hv2 by (rewrite El; set_solver).
    cbn [map head default from_option]. unfold id. destruct (Z.eqb_spec DMS_INVALID_EXTENT (ev_id v2)) as [Eb|_].
    { destruct (col_ids_pos _ _ _ _ (ev_id v2) Hc) as [? _]; [by apply cv_ids_in|].
      unfold DMS_INVALID_EXTENT in Eb. lia. }
    cbn [negb]. unfold mret, M_ret. change (SDB_OK =? 0) with true. cbv iota beta.
    match goal with |- scan_all fuel ?s2 st = _ => destruct (firstInit_ok st (sc_mbLockType s) c v2 s2)
      as (s3&st3&E3&_&Est&Hso3&Hat3&M3&X3&K3) end; simpl; try done; [by rewrite Hm'|rewrite Esk by done; lia|].
    rewrite Est in * by done. clear Est.
    change (todo (v2 :: vs)) with (S (length (ev_recs v2)) + todo vs)%nat in Hf.
    destruct fuel as [|fuel]; [lia|].
    rewrite (scan_all_first fuel _ s3 st st); [|done|exact E3|apply Hat3].
    cbn [sc_mbLockType sc_maxRecords sc_skipNum scan_with_offset] in M3, X3, K3, Hso3.
    rewrite (IH (l1 ++ [v]) v2 vs s3 (ev_recs v2)); try done.
    + rewrite X3, K3, Esk by done.
      replace (Z.to_nat (sc_skipNum s - Z.of_nat (length rs))) with (Z.to_nat (sc_skipNum s) - length rs)%nat by lia.
      done.
    + by rewrite <- app_assoc.
    + unfold scan_mode. by rewrite M3, Hm'.
    + by rewrite M3.
    + by rewrite X3.
    + lia.
  - destruct (Z.eqb_spec 0 (sc_maxRecords s)) as [E0|E0]; [done|].
    destruct Hres as (->&->&<-&Hat'&Esk&Em). change (SDB_OK =? 0) with true. cbn [negb]. cbv iota beta.
    change (SDB_OK =? 0) with true. cbv iota. unfold mbind at 1, M_bind at 1.
    assert (length rs' < length rs)%nat as Hlen.
    { apply (f_equal length) in Ed. rewrite length_drop in Ed. simpl in Ed. lia. }
    rewrite (IH l1 v vs s' rs' El Hat'); try done.
    2: { unfold scan_mode. by rewrite Hm'. }
    2: { by rewrite Hm'. }
    2: { rewrite Em. unfold lower. destruct (Z.ltb_spec 0 (sc_maxRecords s)); lia. }
    2: { lia. }
    unfold mret, M_ret. rewrite Em, Esk. change (Z.to_nat 0) with 0%nat. rewrite drop_0.
    rewrite drop_app_le by (rewrite length_map; apply (f_equal length) in Ed;
      rewrite length_drop in Ed; simpl in Ed; lia).
    unfold f. rewrite skipn_map, Ed. cbn [map app]. by rewrite limit_cons.
Qed.

End Scan.

Lemma store_lock st st' A : lock_only st st' -> store_ok st A -> store_ok st' A.
Proof.
  intros Hl (cvs&held&rest&(Hs&HP&Hc)&->). exists cvs, held, rest. split; [|done].
  split; [by eapply space_ok_lock|]. split; [done|]. intros i c Hi. destruct (Hc _ _ Hi) as [Hci Hsl].
  split; [by eapply col_ok_lock|]. by destruct Hl as (l&x&->).
Qed.

Lemma scan_ok st A mbID t accessType maxRecords skipNum l :
  store_ok st A -> A !! mbID = Some l -> sole st mbID t -> 0 <= skipNum -> -1 <= maxRecords ->
  exists n rc st',
    (forall fuel, (n <= fuel)%nat ->
       scan_all fuel (scan_new (mb_firstExtentID (mb_at st mbID)) accessType maxRecords skipNum) st
       = (Ok (rc, limit maxRecords (drop (Z.to_nat skipNum) l)), st')) /\
    (rc = SDB_DMS_EOC \/ rc = SDB_INVALIDARG /\ l = []) /\
    lock_only st st' /\ store_ok st' A.
Proof.
  intros Hst HA Hso Hsk Hmax. pose proof Hst as (cvs&held&rest&(Hs&HP&Hc)&->).
  rewrite lookup_fmap in HA. destruct (cvs !! mbID) as [c|] eqn:Hi; [|done]. simpl in HA. injection HA as <-.
  apply Hc in Hi as [Hci _]. clear Hc. rename Hci into Hc. pose proof (dlist_first _ _ _ _ _ (co_chain _ _ _ _ Hc)) as Hfirst.
  unfold contents, cv_ids in *. destruct (cv_exts c) as [|v vs] eqn:El.
  - simpl in Hfirst. exists 1%nat, SDB_INVALIDARG, st. split.
    + intros [|fuel] Hf; [lia|]. cbn [scan_all]. unfold mbind at 1, M_bind at 1, advance.
      cbn [scan_new sc_firstRun]. unfold mbind at 1, M_bind at 1, firstInit.
      unfold mbind at 1, M_bind at 1, get_st. cbn [sc_curRID rid_extent].
      rewrite Hfirst. change (ext_null st NIL) with true. cbv iota. unfold mret, M_ret.
      change (SDB_INVALIDARG =? 0) with false. cbn [negb]. cbv iota beta.
      change (SDB_INVALIDARG =? 0) with false. change (SDB_DMS_EOC =? SDB_INVALIDARG) with false.
      cbv iota. simpl. rewrite drop_nil. unfold limit. destruct (_ <? _); [done|]. by rewrite take_nil.
    + split; [by right|]. split; [|done]. exists (bd_latch st), (bd_ctx st). by destruct st.
  - simpl in Hfirst. set (s := scan_new _ accessType maxRecords skipNum).
    assert (scan_mode s) as Hm by (unfold scan_mode, s; simpl; destruct (DMS_IS_WRITE_OPR _); auto).
    destruct (firstInit_ok mbID st t c v s) as (s'&st'&E&Hl&_&Hso'&Hat&M'&X'&K'); try done.
    { rewrite El. left. }
    exists (S (length (ev_recs v) + todo vs)), SDB_DMS_EOC, st'. split.
    + intros [|fuel] Hf; [lia|]. rewrite (scan_all_first fuel s s' st st'); [|done|exact E|apply Hat].
      rewrite (scan_all_ok mbID st' c) with (l1 := []) (v := v) (vs := vs) (rs := ev_recs v); try done.
      * by rewrite X', K'.
      * by eapply col_ok_lock.
      * unfold scan_mode. by rewrite M'.
      * by rewrite M'.
      * by rewrite X'.
    + split; [by left|]. split; [done|]. by eapply store_lock.
Qed.

(** C5: Scanning a collection from its first extent, as [_dmsExtScanner] does
    it for a caller that advances until the end of the collection, ends and
    returns every record of the collection exactly once, in order: all of
    them, or what is left of them after the skipped ones and up to the number
    asked for.  It changes nothing but the session's lock. *)
Theorem scan_refines st A mbID t accessType maxRecords skipNum l :
  store_ok st A -> A !! mbID = Some l -> sole st mbID t -> 0 <= skipNum -> -1 <= maxRecords ->
  exists n rc st',
    (forall fuel, (n <= fuel)%nat ->
       scan_all fuel (scan_new (mb_firstExtentID (mb_at st mbID)) accessType maxRecords skipNum) st
       = (Ok (rc, limit maxRecords (drop (Z.to_nat skipNum) l)), st')) /\
    (rc = SDB_DMS_EOC \/ rc = SDB_INVALIDARG /\ l = []) /\
    lock_only st st' /\ store_ok st' A.
Proof. apply scan_ok. Qed.

(** C4: What was inserted is found: after a successful [insertRecord] a scan
    of the collection returns all the records it held before and the new
    document, once, and in the same order otherwise. *)
Theorem insert_then_scan os st A mbID t fs mustOID position oid l st' :
  store_ok st A -> A !! mbID = Some l -> sole st mbID t ->
  doc_ok fs -> is_bytes oid -> length oid = 12%nat -> id_checked fs ->
  insertRecord os (enc_doc fs) mustOID position oid st = (Ok SDB_OK, st') ->
  exists n r l1 l2, l = l1 ++ l2 /\ r ∉ map fst l /\
    forall fuel, (n <= fuel)%nat ->
      (scan_all fuel (scan_new (mb_firstExtentID (mb_at st' mbID)) DMS_ACCESS_TYPE_QUERY (-1) 0) st').1
      = Ok (SDB_DMS_EOC, l1 ++ (r, enc_doc (stored_doc fs mustOID oid)) :: l2).
Proof.
  intros Hst HA Hso Hd Hb Hl Hid E.
  pose proof (insert_ok os st A mbID t fs mustOID position oid Hst ltac:(by eexists) Hso Hd Hb Hl Hid) as H.
  rewrite E in H. simpl in H. destruct H as [[t' Hso'] (r&A'&(l1&l2&E1&Hr&->)&Hst')].
  rewrite HA in E1. injection E1 as ->.
  destruct (scan_ok st' _ mbID t' DMS_ACCESS_TYPE_QUERY (-1) 0 _ Hst' (lookup_insert_eq _ _ _) Hso')
    as (n&rc&st''&Hscan&Hrc&_); [done..|].
  exists n, r, l1, l2. split_and!; try done. intros fuel Hf. rewrite (Hscan fuel Hf). cbn [fst].
  destruct Hrc as [-> |[_ E2]]; [done|]. by apply app_nil in E2 as [_ ?].
Qed.
