(* ===== verification/DmsExample.v ===== *)
(** * A run of a storage unit

    A new file is opened, a collection added and a document inserted, with the
    definitions evaluated: the theorems about histories at a concrete input. *)
From S2P Require Import Prelude.
From S2P Require Import ByteBits.
From S2P Require Import Links.
From S2P Require Import OssBase.
From S2P Require Import OssMmap.
From S2P Require Import DmsBase.
From S2P Require Import DmsName.
From S2P Require Import DmsSegmentSpace.
From S2P Require Import DmsSMEMgr.
From S2P Require Import DmsRecord.
From S2P Require Import DmsDirtyList.
From S2P Require Import DmsMBContext.
From S2P Require Import DmsExtent.
From S2P Require Import DmsMB.
From S2P Require Import Bson.
From S2P Require Import DmsStore.
From S2P Require Import DmsInsert.
From S2P Require Import DmsWp.
From S2P Require Import DmsDelete.
From S2P Require Import DmsView.
From S2P Require Import DmsCol.
From S2P Require Import DmsSpaceOk.
From S2P Require Import DmsAlloc.
From S2P Require Import DmsInsertOk.
From S2P Require Import DmsInsertRecord.
From S2P Require Import DmsRefine.
From S2P Require Import DmsCollection.
From S2P Require Import DmsSession.
From S2P Require Import DmsCreateOk.
From S2P Require Import DmsOpenOk.
From S2P Require Import DmsHistory.
From S2P Require Import DmsScanner.
From S2P Require Import DmsScanOk.
From Stdlib Require Import String.
#[local] Open Scope Z_scope.

(** Operating systems that grant everything; while the file is created three
    of the answers are the numbers of bytes written to it. *)
Definition ex_yes (n : nat) : Z := 0.
Definition ex_os (n : nat) : Z :=
  match n with
  | 5%nat => DMS_HEADER_SZ
  | 8%nat => DMS_SME_SZ
  | 11%nat => DMS_MME_SZ
  | _ => 0
  end.

Definition ex_info : dmsStorageInfo := mkSI 4096 "foo" 0 false 1.
Definition ex_aux : auxState := mkAux 0 0 ∅ dirty_new [].

(** Before it is opened: an empty file. *)
Definition ex_new : blockData :=
  mkBD ex_info bdGeo_zero 0 0 (mkSegState (mm_new 0) 0 (initHeader ex_info) 0)
    (mgr_new sme_new) ∅ ∅ ∅ ∅ ∅ ∅ ∅ ctx_reset ∅ ex_aux.
Definition ex_opened : blockData := (openStorage ex_os true true ex_new).2.

(** A storage unit with one free data segment. *)
Definition ex_geo : bdGeometry := mkBdGeo 4096 12 32768 32768 15.
Definition ex_mgr : dmsSMEMgr dmsSpaceManagementExtent :=
  (mgr_depositASegment true (geo_of ex_geo) (mgr_new sme_new) 0).2.
Definition ex_header : dmsStorageUnitHeader :=
  mkHeader DMS_DATASU_EYECATCHER DMS_DATASU_CUR_VERSION 4096 (dataOffset / 4096 + 32768) "foo" 0 0 0 32768 1.
Definition ex_file : ossMmapFile :=
  mkMmap true (dataOffset + DMS_SEGMENT_SZ) (repeat (mkMapSeg 4096 0) 4) 4 0.
Definition ex_base : blockData :=
  mkBD ex_info ex_geo 3 2 (mkSegState ex_file 3 ex_header 32768) ex_mgr
    ∅ ∅ ∅ ∅ ∅ ∅ ∅ ctx_reset ∅ ex_aux.

Definition ex_added : blockData := (addCollection ex_yes "bar" 1 0 0 false ex_base).2.
Definition ex_context (lockType : Z) : blockData := (getMBContextByName ex_yes "bar" lockType ex_added).2.

Definition ex_doc : list field := [mkField 16 [97] [42; 0; 0; 0]].
Definition ex_oid : list Z := repeat 7 12.
Definition ex_stored : list Z := enc_doc (stored_doc ex_doc true ex_oid).
Definition ex_inserted : blockData :=
  (insertRecord ex_yes (enc_doc ex_doc) true (-1) ex_oid (ex_context (-1))).2.
Definition ex_A : absStore := <[0 := []]> ∅.

Lemma result_eq {A} (m : M A) st o : (m st).1 = o -> m st = (o, (m st).2).
Proof. intros <-. apply surjective_pairing. Qed.

Lemma ex_open_eq : openStorage ex_os true true ex_new = (Ok SDB_OK, ex_opened).
Proof. unfold ex_opened. apply (result_eq (openStorage ex_os true true) ex_new). vm_compute. reflexivity. Qed.

Lemma ex_geometry : geometry_ok ex_geo.
Proof. unfold geometry_ok, ex_geo. simpl. split_and!; (reflexivity || lia || done). Qed.

Lemma ex_client : client_inv (geo_of ex_geo) (ex_mgr, []).
Proof.
  assert (geo_ok (geo_of ex_geo)) as Hg by (apply geometry_geo_ok, ex_geometry).
  unfold ex_mgr. destruct (mgr_depositASegment true (geo_of ex_geo) (mgr_new sme_new) 0) as [rc m] eqn:E.
  eapply (client_deposit_inv _ Hg (mgr_new sme_new) [] 0); [|lia|done|done|exact E].
  apply (client_inv_reachable _ Hg 0); [done|done|]. exists (mgr_new sme_new). split; [reflexivity|apply rtc_refl].
Qed.

Lemma ex_base_db : db_ok ex_base ∅.
Proof.
  split.
  - exists ∅, [], []. split; [|by rewrite fmap_empty]. split; [|split; [done|]].
    + split; [exact ex_geometry|simpl; lia|exact ex_client|reflexivity..].
    + intros i c Hi. by rewrite lookup_empty in Hi.
  - intros i. unfold latch_at. simpl. by rewrite lookup_empty.
  - intros n i Hi. simpl in Hi. by rewrite lookup_empty in Hi.
Qed.

Lemma ex_add_eq : addCollection ex_yes "bar" 1 0 0 false ex_base = (Ok (SDB_OK, 0, 0), ex_added).
Proof.
  unfold ex_added. apply (result_eq (addCollection ex_yes "bar" 1 0 0 false) ex_base). vm_compute. reflexivity.
Qed.

Lemma ex_added_db : db_ok ex_added ex_A.
Proof.
  destruct (add_db _ _ _ _ _ _ _ _ _ _ _ _ ex_base_db ex_add_eq) as (A'&H&[[Hrc _]|[_ ->]]); [|exact H].
  destruct (Hrc eq_refl).
Qed.

Lemma ex_name : bd_names ex_added !! "bar"%string = Some 0.
Proof. vm_compute. reflexivity. Qed.

Lemma ex_context_ok m : m = EXCLUSIVE \/ m = -1 -> store_ok (ex_context m) ex_A /\ sole (ex_context m) 0 m.
Proof.
  intros Hm. apply (context_db ex_yes ex_added ex_A "bar" 0 m (ex_context m) ex_added_db ex_name); [tauto|].
  unfold ex_context. apply (result_eq (getMBContextByName ex_yes "bar" m) ex_added).
  destruct Hm as [-> | ->]; vm_compute; reflexivity.
Qed.

Lemma ex_doc_ok : doc_ok ex_doc.
Proof.
  split; [|vm_compute; discriminate]. constructor; [|constructor].
  split; simpl; [lia|repeat constructor; lia|repeat constructor; lia|reflexivity].
Qed.

Lemma ex_oid_ok : is_bytes ex_oid.
Proof. repeat constructor; lia. Qed.

Lemma ex_insert_eq :
  insertRecord ex_yes (enc_doc ex_doc) true (-1) ex_oid (ex_context (-1)) = (Ok SDB_OK, ex_inserted).
Proof.
  unfold ex_inserted. apply (result_eq (insertRecord ex_yes (enc_doc ex_doc) true (-1) ex_oid) (ex_context (-1))).
  vm_compute. reflexivity.
Qed.

(** The only record of an abstract storage unit that had none. *)
Lemma ex_insert_spec r d A' : spec_insert ex_A 0 r d A' -> A' = <[0 := [(r, d)]]> ex_A.
Proof.
  intros (l1&l2&E&_&->). unfold ex_A in E. rewrite lookup_insert_eq in E. injection E as E.
  symmetry in E. by apply app_nil in E as [-> ->].
Qed.

Lemma ex_inserted_ok :
  exists r t, store_ok ex_inserted (<[0 := [(r, ex_stored)]]> ex_A) /\ sole ex_inserted 0 t.
Proof.
  destruct (ex_context_ok (-1)) as [Hst Hso]; [by right|].
  pose proof (insert_ok ex_yes (ex_context (-1)) ex_A 0 (-1) ex_doc true (-1) ex_oid Hst
    ltac:(by exists []) Hso ex_doc_ok ex_oid_ok eq_refl I) as H.
  rewrite ex_insert_eq in H. destruct H as [[t Ht] H]. rewrite decide_True in H by reflexivity.
  destruct H as (r&A'&Hs&Hst'). apply ex_insert_spec in Hs. subst A'. by exists r, t.
Qed.

Definition ex_unit (st : blockData) : blockData :=
  (unit_insertRecord ex_yes (Some "bar"%string) (enc_doc ex_doc) true (-1) ex_oid st).2.

Lemma ex_unit_step st :
  (unit_insertRecord ex_yes (Some "bar"%string) (enc_doc ex_doc) true (-1) ex_oid st).1 = Ok SDB_OK ->
  db_step ex_yes st (ex_unit st).
Proof.
  intros E. apply (step_insert ex_yes st "bar" ex_doc true (-1) ex_oid SDB_OK);
    [exact ex_doc_ok|exact ex_oid_ok|reflexivity|exact I|].
  by apply (result_eq (unit_insertRecord ex_yes (Some "bar"%string) (enc_doc ex_doc) true (-1) ex_oid) st).
Qed.

Lemma ex_unit_db st :
  db_ok st ex_A -> bd_names st !! "bar"%string = Some 0 ->
  (unit_insertRecord ex_yes (Some "bar"%string) (enc_doc ex_doc) true (-1) ex_oid st).1 = Ok SDB_OK ->
  exists r, db_ok (ex_unit st) (<[0 := [(r, ex_stored)]]> ex_A).
Proof.
  intros Hdb Hname E.
  pose proof (wp_unit_insertRecord ex_yes st ex_A "bar" ex_doc true (-1) ex_oid Hdb ex_doc_ok ex_oid_ok eq_refl I) as H.
  unfold wp in H. rewrite E in H. unfold unit_post in H. rewrite Hname in H. destruct H as (Hn&Hidle&H).
  rewrite decide_True in H by reflexivity. destruct H as (r&A&Hs&Hst). apply ex_insert_spec in Hs. subst A.
  exists r. split; [exact Hst|exact Hidle|]. intros n i Hi. unfold ex_unit in Hi. rewrite Hn in Hi.
  apply (db_names _ _ Hdb) in Hi.
  destruct (decide (0 = i)) as [<-|]; [by rewrite lookup_insert_eq|by rewrite lookup_insert_ne].
Qed.

Lemma ex_unit_1 : db_step ex_yes ex_added (ex_unit ex_added).
Proof. apply ex_unit_step. vm_compute. reflexivity. Qed.

Lemma ex_unit_2 : db_step ex_yes (ex_unit ex_added) (ex_unit (ex_unit ex_added)).
Proof. apply ex_unit_step. vm_compute. reflexivity. Qed.

(** ** Witnesses *)

Lemma insert_refines_witness :
  (insertRecord ex_yes (enc_doc ex_doc) true (-1) ex_oid (ex_context (-1))).1 = Ok SDB_OK /\
  insert_refined ex_A 0 ex_stored (insertRecord ex_yes (enc_doc ex_doc) true (-1) ex_oid (ex_context (-1))).
Proof.
  split; [vm_compute; reflexivity|].
  destruct (ex_context_ok (-1)) as [Hst Hso]; [by right|].
  apply (insert_refines ex_yes (ex_context (-1)) ex_A 0 (-1) ex_doc true (-1) ex_oid);
    [exact Hst|by exists []|exact Hso|exact ex_doc_ok|exact ex_oid_ok|reflexivity|exact I].
Defined.

Lemma allocRecordSpace_terminates_witness :
  allocRecordSpace_retry ex_yes 9 52 (ex_context EXCLUSIVE) = allocRecordSpace_retry ex_yes 2 52 (ex_context EXCLUSIVE).
Proof.
  destruct (ex_context_ok EXCLUSIVE) as [Hst Hso]; [by left|].
  apply (allocRecordSpace_terminates ex_yes (ex_context EXCLUSIVE) ex_A 0 52 7);
    [exact Hst|by exists []|exact Hso|unfold DMS_RECORD_MAX_SZ; lia].
Defined.

Lemma findFreeSpace_correct_witness :
  exists held, (findFreeSpace ex_yes 4 false ex_added).1 = Ok (SDB_OK, 9) /\
    forall p, in_run 9 4 p -> owners held p = 0.
Proof.
  destruct ex_added_db as [(cvs&held&rest&(Hs&_)&_) _ _]. exists held.
  assert ((findFreeSpace ex_yes 4 false ex_added).1 = Ok (SDB_OK, 9)) as E by (vm_compute; reflexivity).
  assert (g_segmentPages (bd_geo ex_added) = 32768) as Eg by (vm_compute; reflexivity).
  split; [exact E|].
  pose proof (findFreeSpace_correct ex_yes 4 ex_added held Hs ltac:(rewrite Eg; lia)) as H.
  destruct (findFreeSpace ex_yes 4 false ex_added) as [o st']. cbn [fst] in E. subst o.
  destruct H as [_ [(_&_&_&H)|(Hrc&_)]]; [exact H|]. destruct (Hrc eq_refl).
Defined.

Lemma openStorage_new_witness :
  store_ok ex_opened ∅ /\ (forall i, latch_at ex_opened i = latch_free).
Proof.
  destruct (openStorage_new ex_os ex_new 12 ex_opened) as (H & _ & Hl & _);
    [lia|reflexivity..|intros i; reflexivity|exact ex_open_eq|]. split; [exact H|exact Hl].
Defined.

Lemma addCollection_refines_witness :
  exists rest i lid st', store_with ex_base ∅ rest /\
    addCollection ex_yes "bar" 1 0 0 false ex_base = (Ok (SDB_OK, i, lid), st') /\
    added ex_base ∅ rest "bar" i st'.
Proof.
  destruct (db_store _ _ ex_base_db) as (cvs & held & rest & Hst & E).
  symmetry in E. apply fmap_empty_inv in E. subst cvs. exists rest.
  assert (store_with ex_base ∅ rest) as Hw by (exists held; exact Hst).
  pose proof (addCollection_refines ex_yes ex_base ∅ rest "bar" 1 0 0 false Hw
    (fun i _ => db_idle _ _ ex_base_db i)) as H.
  assert (exists i lid, (addCollection ex_yes "bar" 1 0 0 false ex_base).1 = Ok (SDB_OK, i, lid)) as (i & lid & Er)
    by (eexists _, _; vm_compute; reflexivity).
  destruct (addCollection ex_yes "bar" 1 0 0 false ex_base) as [o st'] eqn:Ea. cbn [fst] in Er. subst o.
  exists i, lid, st'. destruct H as [_ H]. rewrite decide_True in H by reflexivity.
  split; [exact Hw|]. split; [reflexivity|exact H].
Defined.

Lemma unit_insertRecord_refines_witness :
  exists rc st', unit_insertRecord ex_yes (Some "bar"%string) (enc_doc ex_doc) true (-1) ex_oid ex_added = (Ok rc, st') /\
    rc = SDB_OK /\ unit_post ex_added ex_A "bar" ex_stored (Ok rc) st'.
Proof.
  pose proof (unit_insertRecord_refines ex_yes ex_added ex_A "bar" ex_doc true (-1) ex_oid ex_added_db
    ex_doc_ok ex_oid_ok eq_refl I) as H.
  assert ((unit_insertRecord ex_yes (Some "bar"%string) (enc_doc ex_doc) true (-1) ex_oid ex_added).1 = Ok SDB_OK) as E
    by (vm_compute; reflexivity).
  destruct (unit_insertRecord _ _ _ _ _ _ ex_added) as [o st']. cbn [fst] in E. subst o.
  exists SDB_OK, st'. split; [reflexivity|]. split; [reflexivity|exact H].
Defined.

(** An operation that is refused: a collection without a name. *)
Definition ex_refused : blockData := (addCollection ex_os "" 1 0 0 false ex_opened).2.

Lemma ex_refused_step : db_step ex_os ex_opened ex_refused.
Proof.
  apply (step_add ex_os ex_opened "" 1 0 0 false (SDB_INVALIDARG, DMS_INVALID_MBID, DMS_INVALID_CLID)).
  unfold ex_refused. apply (result_eq (addCollection ex_os "" 1 0 0 false) ex_opened). vm_compute. reflexivity.
Qed.

Lemma history_refines_witness : exists A, rtc abs_step ∅ A /\ db_ok ex_refused A.
Proof.
  apply (history_refines ex_os ex_new 12 ex_opened ex_refused); [lia|reflexivity..|exact ex_open_eq|].
  apply rtc_once. exact ex_refused_step.
Defined.

Lemma records_kept_witness :
  exists A r A' l', db_ok (ex_unit ex_added) A /\ A !! 0 = Some [(r, ex_stored)] /\
    db_ok (ex_unit (ex_unit ex_added)) A' /\ A' !! 0 = Some l' /\ sublist [(r, ex_stored)] l'.
Proof.
  destruct (ex_unit_db ex_added ex_added_db ex_name ltac:(vm_compute; reflexivity)) as [r Hdb].
  destruct (records_kept ex_yes (ex_unit ex_added) (<[0 := [(r, ex_stored)]]> ex_A) (ex_unit (ex_unit ex_added)) 0
    [(r, ex_stored)] Hdb (lookup_insert_eq _ _ _) (rtc_once _ _ ex_unit_2)) as (A'&l'&H1&H2&H3).
  exists (<[0 := [(r, ex_stored)]]> ex_A), r, A', l'. split; [exact Hdb|]. split; [apply lookup_insert_eq|].
  split; [exact H1|]. split; [exact H2|exact H3].
Defined.

Lemma scan_refines_witness :
  exists n r rc st', forall fuel, (n <= fuel)%nat ->
    scan_all fuel (scan_new (mb_firstExtentID (mb_at ex_inserted 0)) DMS_ACCESS_TYPE_QUERY (-1) 0) ex_inserted
    = (Ok (rc, [(r, ex_stored)]), st').
Proof.
  destruct ex_inserted_ok as (r&t&Hst&Hso).
  destruct (scan_refines ex_inserted _ 0 t DMS_ACCESS_TYPE_QUERY (-1) 0 [(r, ex_stored)] Hst
    (lookup_insert_eq _ _ _) Hso) as (n&rc&st'&H&_); [lia|lia|].
  exists n, r, rc, st'. exact H.
Defined.

Lemma insert_then_scan_witness :
  exists n r, forall fuel, (n <= fuel)%nat ->
    (scan_all fuel (scan_new (mb_firstExtentID (mb_at ex_inserted 0)) DMS_ACCESS_TYPE_QUERY (-1) 0) ex_inserted).1
    = Ok (SDB_DMS_EOC, [(r, ex_stored)]).
Proof.
  destruct (ex_context_ok (-1)) as [Hst Hso]; [by right|].
  destruct (insert_then_scan ex_yes (ex_context (-1)) ex_A 0 (-1) ex_doc true (-1) ex_oid [] ex_inserted Hst
    (lookup_insert_eq _ _ _) Hso ex_doc_ok ex_oid_ok eq_refl I ex_insert_eq) as (n&r&l1&l2&E&_&H).
  symmetry in E. apply app_nil in E as [-> ->]. exists n, r. exact H.
Defined.
