(* ===== verification/OssMem.v ===== *)
(** * Memory blocks (src/src/oss/ossMem.c)

    The blocks the program owns are a set of addresses; [0] is [NULL].  What
    the C library's allocator answers is an argument: [None] when it has no
    memory, or the address of a block that is not live.  Releasing an address
    that is not a live block is undefined, and the result is [None]. *)
From S2P Require Import Prelude.

Abbreviation blocks := (gset Z).

Definition NULL : Z := 0.

(** [ossMemAlloc]: no block of size 0 exists. *)
Definition ossMemAlloc (size : Z) (os : option Z) (h : blocks) : Z * blocks :=
  if size =? 0 then (NULL, h)
  else match os with
       | Some p => (p, {[p]} ∪ h)
       | None => (NULL, h)
       end.

(** [ossMemRealloc]: the block may move; when it fails the old one stays. *)
Definition ossMemRealloc (pOld size : Z) (os : option Z) (h : blocks)
    : option (Z * blocks) :=
  if size =? 0 then Some (NULL, h)
  else if negb (pOld =? NULL) && negb (bool_decide (pOld ∈ h)) then None
  else match os with
       | Some p => Some (p, {[p]} ∪ (if pOld =? NULL then h else h ∖ {[pOld]}))
       | None => Some (NULL, h)
       end.

Definition ossMemFree (p : Z) (h : blocks) : option blocks :=
  if p =? NULL then Some h
  else if bool_decide (p ∈ h) then Some (h ∖ {[p]}) else None.

(** Releasing a list of blocks, in order. *)
Fixpoint free_all (ps : list Z) (h : blocks) : option blocks :=
  match ps with
  | [] => Some h
  | p :: ps => h ← ossMemFree p h; free_all ps h
  end.

(** The answers the allocator may give. *)
Definition fresh_block (os : option Z) (h : blocks) : Prop :=
  match os with Some p => p <> NULL /\ p ∉ h | None => True end.

Definition realloc_block (pOld : Z) (os : option Z) (h : blocks) : Prop :=
  match os with Some p => p <> NULL /\ (p = pOld \/ p ∉ h) | None => True end.

#[global] Instance fresh_block_dec os h : Decision (fresh_block os h).
Proof. destruct os; apply _. Defined.

#[global] Instance realloc_block_dec p os h : Decision (realloc_block p os h).
Proof. destruct os; apply _. Defined.

(** A set of addresses as a list of distinct live blocks. *)
Definition blocks_ok (ps : list Z) (h : blocks) : Prop :=
  NoDup ps /\ Forall (fun p => p <> NULL /\ p ∈ h) ps.

Lemma ossMemFree_live p h : p <> NULL -> p ∈ h -> ossMemFree p h = Some (h ∖ {[p]}).
Proof.
  intros Hp Hin. unfold ossMemFree. destruct (Z.eqb_spec p NULL); [done|].
  by rewrite bool_decide_eq_true_2.
Qed.

Lemma blocks_ok_cons p ps h :
  blocks_ok (p :: ps) h <-> p <> NULL /\ p ∈ h /\ blocks_ok ps (h ∖ {[p]}).
Proof.
  unfold blocks_ok. rewrite NoDup_cons, Forall_cons, !Forall_forall. split.
  - intros [[Hn Hd] [[? ?] Hf]]. split_and!; try done. intros q Hq.
    destruct (Hf q Hq). split; [done|]. apply elem_of_difference. split; [done|].
    intros ->%elem_of_singleton. done.
  - intros (Hp & Hin & Hd & Hf). split_and!; try done.
    + intros Hp'. destruct (Hf p Hp') as [_ H]. apply elem_of_difference in H as [_ H].
      by apply H, elem_of_singleton.
    + intros q Hq. destruct (Hf q Hq) as [? H]. by apply elem_of_difference in H as [? _].
Qed.

(** Releasing distinct live blocks never fails and releases just them. *)
Lemma free_all_ok ps h :
  blocks_ok ps h -> free_all ps h = Some (h ∖ list_to_set ps).
Proof.
  revert h. induction ps as [|p ps IH]; intros h Hok; simpl.
  { f_equal. set_solver. }
  apply blocks_ok_cons in Hok as (Hp & Hin & Hok).
  rewrite ossMemFree_live by done. simpl. rewrite IH by done. f_equal. set_solver.
Qed.

Lemma free_all_app ps qs h :
  free_all (ps ++ qs) h = (free_all ps h ≫= free_all qs).
Proof.
  revert h. induction ps as [|p ps IH]; intros h; simpl; [done|].
  destruct (ossMemFree p h); simpl; [apply IH|done].
Qed.

Lemma blocks_ok_perm ps qs h : ps ≡ₚ qs -> blocks_ok ps h -> blocks_ok qs h.
Proof. intros Hp [Hd Hf]. split; by rewrite <- Hp. Qed.

Lemma blocks_ok_app ps qs h :
  blocks_ok (ps ++ qs) h <->
  blocks_ok ps h /\ blocks_ok qs h /\ (forall p, p ∈ ps -> p ∉ qs).
Proof.
  unfold blocks_ok. rewrite NoDup_app, Forall_app. naive_solver.
Qed.

Lemma blocks_ok_mono ps h h' :
  blocks_ok ps h -> (forall p, p ∈ ps -> p ∈ h -> p ∈ h') -> blocks_ok ps h'.
Proof.
  intros [Hd Hf] Hin. split; [done|]. rewrite Forall_forall in *.
  intros p Hp. destruct (Hf p Hp). auto.
Qed.

#[global] Instance blocks_ok_proper : Proper ((≡ₚ) ==> eq ==> iff) blocks_ok.
Proof.
  intros ps qs Hp h ? <-. split; apply blocks_ok_perm; [done|by symmetry].
Qed.
