(* ===== verification/PmdBase.v ===== *)
(** * Executors: event, memory, status and entry point types
    (src/src/include/pmdDef.hpp, src/src/pmd/pmdEPFactory.cpp)

    An executor (EDU) is a thread with a control block.  Its type selects the
    entry point it runs, which the factory of entry points holds.  A
    [std::map] is a [gmap] iterated through [std_keys], its keys in order. *)
From S2P Require Import Prelude.
From S2P Require Import DmsName.
From stdpp Require Import sorting.
From Stdlib Require Import Ascii String.
#[local] Open Scope Z_scope.

(** ** Iteration of a [std::map] *)

Definition std_keys {A} (m : gmap Z A) : list Z := merge_sort Z.le (elements (dom m)).

Lemma elem_of_std_keys {A} (m : gmap Z A) k : k ∈ std_keys m <-> is_Some (m !! k).
Proof.
  unfold std_keys. rewrite merge_sort_Permutation.
  by rewrite elem_of_elements, elem_of_dom.
Qed.

Lemma std_keys_NoDup {A} (m : gmap Z A) : NoDup (std_keys m).
Proof. unfold std_keys. rewrite merge_sort_Permutation. apply NoDup_elements. Qed.

Lemma std_keys_sorted {A} (m : gmap Z A) : StronglySorted Z.le (std_keys m).
Proof. apply StronglySorted_merge_sort; [|intros x y; lia]. intros x y z ??. lia. Qed.

Lemma std_keys_perm {A} (m : gmap Z A) : std_keys m ≡ₚ elements (dom m).
Proof. apply merge_sort_Permutation. Qed.

(** [begin()]: the least key. *)
Lemma std_keys_head {A} (m : gmap Z A) k :
  head (std_keys m) = Some k -> is_Some (m !! k) /\ forall j, is_Some (m !! j) -> k <= j.
Proof.
  intros Hh. destruct (std_keys m) as [|k' l] eqn:E; [done|]. injection Hh as ->.
  split.
  - apply elem_of_std_keys. rewrite E. left.
  - intros j Hj%elem_of_std_keys. rewrite E in Hj.
    pose proof (std_keys_sorted m) as Hs. rewrite E in Hs.
    apply StronglySorted_inv in Hs as [_ Hs]. rewrite Forall_forall in Hs.
    apply elem_of_cons in Hj as [->|Hj]; [lia|auto].
Qed.

Lemma std_keys_head_None {A} (m : gmap Z A) : head (std_keys m) = None <-> m = ∅.
Proof.
  split.
  - intros Hh. apply map_eq. intros k. rewrite lookup_empty.
    destruct (m !! k) eqn:E; [|done].
    assert (k ∈ std_keys m) as Hk by (apply elem_of_std_keys; eauto).
    destruct (std_keys m); [by apply not_elem_of_nil in Hk|done].
  - intros ->. done.
Qed.

(** ** Types of pmdDef.hpp *)

Inductive pmdEDUEventTypes :=
  | PMD_EDU_EVENT_NONE
  | PMD_EDU_EVENT_TERM
  | PMD_EDU_EVENT_RESUME
  | PMD_EDU_EVENT_MSG
  | PMD_EDU_EVENT_TIMEOUT.

#[global] Instance event_type_eq_dec : EqDecision pmdEDUEventTypes.
Proof. solve_decision. Defined.

Inductive pmdEDUMemTypes := PMD_EDU_MEM_NONE | PMD_EDU_MEM_ALLOC | PMD_EDU_MEM_SELF.

#[global] Instance mem_type_eq_dec : EqDecision pmdEDUMemTypes.
Proof. solve_decision. Defined.

Record pmdEDUEvent := mkEvent {
  ev_eventType : pmdEDUEventTypes;
  ev_userData : Z;
  ev_dataMemType : pmdEDUMemTypes;
  ev_Data : Z
}.

#[global] Instance event_eq_dec : EqDecision pmdEDUEvent.
Proof. solve_decision. Defined.

(** The constructor with its default arguments. *)
Definition event_of (type : pmdEDUEventTypes) : pmdEDUEvent :=
  mkEvent type 0 PMD_EDU_MEM_NONE 0.

Inductive PMD_EDU_STATUS :=
  | PMD_EDU_CREATING
  | PMD_EDU_RUNNING
  | PMD_EDU_WAITING
  | PMD_EDU_IDLE
  | PMD_EDU_UNKNOW.

#[global] Instance status_eq_dec : EqDecision PMD_EDU_STATUS.
Proof. solve_decision. Defined.

Definition PMD_IS_EDU_CREATING (x : PMD_EDU_STATUS) : bool :=
  bool_decide (x = PMD_EDU_CREATING).
Definition PMD_IS_EDU_RUNNING (x : PMD_EDU_STATUS) : bool :=
  bool_decide (x = PMD_EDU_RUNNING).
Definition PMD_IS_EDU_WAITING (x : PMD_EDU_STATUS) : bool :=
  bool_decide (x = PMD_EDU_WAITING).

Definition PMD_INVALID_EDUID : Z := 0.
Definition PMD_EDU_MIN : Z := 0.
Definition PMD_EDU_TYPE_MAIN : Z := 1.

(** The value of the enumerator [PMD_EDU_UNKNOW], which [returnEDU] stores
    as a type. *)
Definition status_code (s : PMD_EDU_STATUS) : Z :=
  match s with
  | PMD_EDU_CREATING => 0
  | PMD_EDU_RUNNING => 1
  | PMD_EDU_WAITING => 2
  | PMD_EDU_IDLE => 3
  | PMD_EDU_UNKNOW => 4
  end.

Definition pmdGetEDUStatusDesp (status : PMD_EDU_STATUS) : string :=
  match status with
  | PMD_EDU_CREATING => "Creating"
  | PMD_EDU_RUNNING => "Running"
  | PMD_EDU_WAITING => "Waiting"
  | PMD_EDU_IDLE => "Idle"
  | PMD_EDU_UNKNOW => "Unknown"
  end.

(** ** Entry points *)

(** [strcasecmp] in the C locale: the first difference after both sides are
    put in lower case; a string ends at its NUL. *)
Definition ascii_lower (c : ascii) : Z :=
  let n := Z.of_nat (nat_of_ascii c) in
  if (65 <=? n) && (n <=? 90) then n + 32 else n.

Fixpoint ossStrcasecmp (s t : string) : Z :=
  match s, t with
  | EmptyString, EmptyString => 0
  | EmptyString, String c _ => 0 - ascii_lower c
  | String c _, EmptyString => ascii_lower c
  | String c s, String d t =>
      if ascii_lower c =? ascii_lower d
      then if ascii_lower c =? 0 then 0 else ossStrcasecmp s t
      else ascii_lower c - ascii_lower d
  end.

Record pmdEPItem := mkEPItem {
  ep_type : Z;
  ep_pFunc : Z;
  ep_isSystem : bool;
  ep_name : string
}.

Definition isPoolable (i : pmdEPItem) : bool := negb (ep_isSystem i).

Abbreviation pmdEPFactory := (gmap Z pmdEPItem).

Definition getItem (f : pmdEPFactory) (type : Z) : option pmdEPItem := f !! type.

(** The loop of [getItemByName] over the items in the order of their types. *)
Fixpoint by_name_loop (f : pmdEPFactory) (ks : list Z) (name : string)
    : option pmdEPItem :=
  match ks with
  | [] => None
  | k :: ks =>
      match f !! k with
      | Some i => if 0 =? ossStrcasecmp name (ep_name i) then Some i
                  else by_name_loop f ks name
      | None => by_name_loop f ks name
      end
  end.

Definition getItemByName (f : pmdEPFactory) (name : string) : option pmdEPItem :=
  by_name_loop f (std_keys f) name.

Definition regItem (f : pmdEPFactory) (type : Z) (isSystem : bool) (pFunc : Z)
    (pName : option string) : Z * pmdEPFactory :=
  match pName with
  | None => (SDB_SYS, f)
  | Some name =>
      if pFunc =? 0 then (SDB_SYS, f)
      else match getItem f type, getItemByName f name with
           | None, None => (SDB_OK, <[type := mkEPItem type pFunc isSystem name]> f)
           | _, _ => (SDB_SYS, f)
           end
  end.

Definition ep_isSystemType (f : pmdEPFactory) (type : Z) : bool :=
  match getItem f type with Some i => ep_isSystem i | None => false end.
Definition ep_isSystemName (f : pmdEPFactory) (name : string) : bool :=
  match getItemByName f name with Some i => ep_isSystem i | None => false end.
Definition type2Name (f : pmdEPFactory) (type : Z) : string :=
  match getItem f type with Some i => ep_name i | None => "Unknow" end.
Definition name2Type (f : pmdEPFactory) (name : string) : Z :=
  match getItemByName f name with Some i => ep_type i | None => -1 end.
Definition getEntry (f : pmdEPFactory) (type : Z) : Z :=
  match getItem f type with Some i => ep_pFunc i | None => 0 end.
Definition getEntryByName (f : pmdEPFactory) (name : string) : Z :=
  match getItemByName f name with Some i => ep_pFunc i | None => 0 end.

(** The factories registrations build. *)
Inductive ep_built : pmdEPFactory -> Prop :=
  | ep_built_empty : ep_built ∅
  | ep_built_reg f type isSystem pFunc pName :
      ep_built f -> ep_built (regItem f type isSystem pFunc pName).2.

(** An item is stored under its type, has an entry point, and no two have
    names that differ only in case. *)
Definition ep_ok (f : pmdEPFactory) : Prop :=
  (forall t i, f !! t = Some i -> ep_type i = t /\ ep_pFunc i <> 0) /\
  (forall t t' i i', f !! t = Some i -> f !! t' = Some i' ->
    ossStrcasecmp (ep_name i) (ep_name i') = 0 -> t = t').

Lemma ossStrcasecmp_refl s : ossStrcasecmp s s = 0.
Proof.
  induction s as [|c s IH]; simpl; [done|]. rewrite Z.eqb_refl. by zcase.
Qed.

Lemma ossStrcasecmp_sym s : forall t, ossStrcasecmp s t = 0 -> ossStrcasecmp t s = 0.
Proof.
  induction s as [|c s IH]; intros [|d t]; simpl; try lia.
  rewrite (Z.eqb_sym (ascii_lower d)).
  destruct (Z.eqb_spec (ascii_lower c) (ascii_lower d)) as [->|]; [|lia].
  zcase; [done|apply IH].
Qed.

Lemma ossStrcasecmp_trans s : forall t u,
  ossStrcasecmp s t = 0 -> ossStrcasecmp t u = 0 -> ossStrcasecmp s u = 0.
Proof.
  induction s as [|c s IH]; intros [|d t] [|e u]; simpl; try lia.
  all: repeat zcase; try lia. eauto.
Qed.

Lemma by_name_loop_spec f ks name :
  match by_name_loop f ks name with
  | Some i => exists k, k ∈ ks /\ f !! k = Some i /\ ossStrcasecmp name (ep_name i) = 0
  | None => forall k i, k ∈ ks -> f !! k = Some i -> ossStrcasecmp name (ep_name i) <> 0
  end.
Proof.
  induction ks as [|k ks IH]; simpl.
  { intros k i H. by apply not_elem_of_nil in H. }
  destruct (f !! k) as [i|] eqn:E.
  - destruct (Z.eqb_spec 0 (ossStrcasecmp name (ep_name i))) as [Hc|Hc].
    + exists k. split_and!; [left|done|done].
    + destruct (by_name_loop f ks name) as [j|].
      * destruct IH as (k'&?&?&?). exists k'. split_and!; [by right|done|done].
      * intros k' j [->|Hk]%elem_of_cons Hj; [|by eauto].
        rewrite E in Hj. injection Hj as <-. lia.
  - destruct (by_name_loop f ks name) as [j|].
    + destruct IH as (k'&?&?&?). exists k'. split_and!; [by right|done|done].
    + intros k' j [->|Hk]%elem_of_cons Hj; [congruence|by eauto].
Qed.

Lemma getItemByName_spec f name :
  match getItemByName f name with
  | Some i => exists k, f !! k = Some i /\ ossStrcasecmp name (ep_name i) = 0
  | None => forall k i, f !! k = Some i -> ossStrcasecmp name (ep_name i) <> 0
  end.
Proof.
  unfold getItemByName. pose proof (by_name_loop_spec f (std_keys f) name) as H.
  destruct (by_name_loop f _ name) as [i|].
  - destruct H as (k&_&?&?). eauto.
  - intros k i Hk. apply (H k); [|done]. apply elem_of_std_keys. eauto.
Qed.

Lemma regItem_ok f type isSystem pFunc pName :
  ep_ok f -> ep_ok (regItem f type isSystem pFunc pName).2.
Proof.
  intros [H1 H2]. unfold regItem. destruct pName as [name|]; [|done].
  destruct (Z.eqb_spec pFunc 0) as [|Hp]; [done|].
  destruct (getItem f type) eqn:E; [done|].
  pose proof (getItemByName_spec f name) as Hn.
  destruct (getItemByName f name); [done|]. simpl. split.
  - intros t i. rewrite lookup_insert_Some. intros [[<- <-]|[_ Ht]]; [done|eauto].
  - intros t t' i i'. rewrite !lookup_insert_Some.
    intros [[<- <-]|[Hd Ht]] [[<- <-]|[Hd' Ht']] Hc; simpl in Hc; try done; [| |eauto].
    + destruct (Hn _ _ Ht' Hc).
    + apply ossStrcasecmp_sym in Hc. destruct (Hn _ _ Ht Hc).
Qed.

Lemma ep_built_ok f : ep_built f -> ep_ok f.
Proof.
  induction 1 as [|f type isSystem pFunc pName _ IH]; [|by apply regItem_ok].
  split; intros *; rewrite lookup_empty; done.
Qed.

(** In every factory that registrations build, types and names translate
    into each other: the name of a registered type, in any case, gives that
    type back with its entry point, and every type found by a name is
    registered under it. *)
Theorem epfactory_roundtrip f :
  ep_built f ->
  (forall t i name, getItem f t = Some i ->
     ossStrcasecmp name (type2Name f t) = 0 ->
     name2Type f name = t /\ getEntryByName f name = getEntry f t /\
     getEntry f t <> 0 /\ ep_isSystemName f name = ep_isSystemType f t) /\
  (forall name i, getItemByName f name = Some i ->
     getItem f (name2Type f name) = Some i /\
     ossStrcasecmp name (type2Name f (name2Type f name)) = 0).
Proof.
  intros Hb. destruct (ep_built_ok _ Hb) as [H1 H2]. split.
  - intros t i name Hi. unfold type2Name, getItem, name2Type, getEntryByName, getEntry,
      ep_isSystemName, ep_isSystemType, getItem in *. rewrite Hi. intros Hc.
    pose proof (getItemByName_spec f name) as Hn.
    destruct (getItemByName f name) as [j|]; [|destruct (Hn _ _ Hi Hc)].
    destruct Hn as (k & Hj & Hcj).
    assert (k = t) as ->.
    { eapply H2; [done..|]. eapply ossStrcasecmp_trans; [|done].
      by apply ossStrcasecmp_sym. }
    rewrite Hi in Hj. injection Hj as <-. destruct (H1 _ _ Hi) as [<- ?]. done.
  - intros name i Hi. pose proof (getItemByName_spec f name) as Hn.
    unfold name2Type, type2Name, getItem. rewrite Hi in *. destruct Hn as (k & Hk & Hc).
    destruct (H1 _ _ Hk) as [-> _]. by rewrite Hk.
Qed.

Definition ep_example : pmdEPFactory :=
  (regItem (regItem ∅ 2 true 100 (Some "IOService"%string)).2 3 false 200
     (Some "CBMain"%string)).2.

Lemma epfactory_roundtrip_witness :
  ep_built ep_example /\ name2Type ep_example "cbmain" = 3.
Proof.
  assert (ep_built ep_example) as H by (apply ep_built_reg, ep_built_reg, ep_built_empty).
  split; [exact H|].
  exact (proj1 (proj1 (epfactory_roundtrip ep_example H) 3
    (mkEPItem 3 200 false "CBMain") "cbmain"%string
    ltac:(reflexivity) ltac:(vm_compute; reflexivity))).
Defined.
