(* ===== verification/PmdEDU.v ===== *)
(** * The control block of an executor: [_pmdEDUCB]
    (src/src/pmd/pmdEDU.hpp, src/src/pmd/pmdEDU.cpp), its event queue
    ([ossQueue], src/src/include/ossQueue.hpp) and [pmdEduEventRelase]
    (src/src/pmd/pmdTool.cpp)

    Addresses are numbers and the live blocks a set (OssMem.v); an operation
    that releases memory returns [None] where it would release a block that
    is not live.  What malloc answers is an argument. *)
From S2P Require Import Prelude.
From S2P Require Import DmsName.
From S2P Require Import OssMem.
From S2P Require Import PmdBase.
From Stdlib Require Import Ascii String.
#[local] Open Scope Z_scope.

Definition EDU_MEM_ALIGMENT_SIZE : Z := 1024.
Definition EDU_MAX_CATCH_SIZE : Z := 16 * 1024 * 1024.
Definition PMD_EDU_NAME_LENGTH : Z := 512.
Definition PMD_EDU_ERROR_BUFF_SIZE : Z := 1024.
Definition PMD_EDU_CTRL_INTERRUPTED : Z := 1.
Definition PMD_EDU_CTRL_DISCONNECTED : Z := 2.
Definition PMD_EDU_CTRL_FORCED : Z := 4.

(** The macro at type [UINT32]. *)
Definition ossRoundUpToMultipleX (x y : Z) : Z :=
  u32 (u32 (x + (y - 1)) - u32 (x + (y - 1)) mod y).

(** ** Buffers

    [_catchMap] is a multimap from lengths to addresses, kept in the order of
    the lengths with the newest of equal ones last; [_allocMap] maps the
    addresses handed out to their lengths. *)
Record eduBuffs := mkBuffs {
  bf_catchMap : list (Z * Z);
  bf_allocMap : gmap Z Z;
  bf_totalCatchSize : Z;
  bf_totalMemSize : Z
}.

Definition buffs_new : eduBuffs := mkBuffs [] ∅ 0 0.

Fixpoint catch_insert (len p : Z) (l : list (Z * Z)) : list (Z * Z) :=
  match l with
  | [] => [(len, p)]
  | (k, q) :: l' => if len <? k then (len, p) :: l else (k, q) :: catch_insert len p l'
  end.

(** [lower_bound] and the erasure of what it finds: the first entry whose
    length is not below [len], and the others. *)
Fixpoint catch_take (len : Z) (l : list (Z * Z)) : option (Z * Z * list (Z * Z)) :=
  match l with
  | [] => None
  | (k, q) :: l =>
      if k <? len
      then match catch_take len l with
           | Some (e, l) => Some (e, (k, q) :: l)
           | None => None
           end
      else Some ((k, q), l)
  end.

Definition allocFromCatch (b : eduBuffs) (len : Z) : option (Z * Z * eduBuffs) :=
  match catch_take len (bf_catchMap b) with
  | Some ((tmpLen, p), l) =>
      Some (p, tmpLen,
        mkBuffs l (<[p := tmpLen]> (bf_allocMap b))
          (i64 (bf_totalCatchSize b - tmpLen)) (bf_totalMemSize b))
  | None => None
  end.

(** [allocBuff]: return code, [*ppBuff], what is stored through [pRealSize]. *)
Definition allocBuff (b : eduBuffs) (h : blocks) (len : Z) (os : option Z)
    : Z * Z * option Z * eduBuffs * blocks :=
  match (if len <=? bf_totalCatchSize b then allocFromCatch b len else None) with
  | Some (p, realLen, b) => (SDB_OK, p, Some realLen, b, h)
  | None =>
      let len := ossRoundUpToMultipleX len EDU_MEM_ALIGMENT_SIZE in
      let '(p, h) := ossMemAlloc len os h in
      if p =? NULL then (SDB_OOM, p, None, b, h)
      else (SDB_OK, p, Some len,
            mkBuffs (bf_catchMap b) (<[p := len]> (bf_allocMap b))
              (bf_totalCatchSize b) (i64 (bf_totalMemSize b + len)), h)
  end.

(** The loop that trims the cache; an empty cache has no first entry. *)
Fixpoint reorg_loop (l : list (Z * Z)) (tc tm : Z) (h : blocks)
    : option (list (Z * Z) * Z * Z * blocks) :=
  if EDU_MAX_CATCH_SIZE <? tc then
    match l with
    | [] => None
    | (k, p) :: l =>
        h ← ossMemFree p h;
        reorg_loop l (i64 (tc - k)) (i64 (tm - k)) h
    end
  else Some (l, tc, tm, h).

Definition releaseBuff (b : eduBuffs) (h : blocks) (p : Z) : option (eduBuffs * blocks) :=
  match bf_allocMap b !! p with
  | None => h ← ossMemFree p h; Some (b, h)
  | Some len =>
      let buffLen := i32 len in
      let am := delete p (bf_allocMap b) in
      if EDU_MAX_CATCH_SIZE <? u32 buffLen then
        h ← ossMemFree p h;
        Some (mkBuffs (bf_catchMap b) am (bf_totalCatchSize b)
                (i64 (bf_totalMemSize b - buffLen)), h)
      else
        '(l, tc, tm, h) ←
          reorg_loop (catch_insert (u32 buffLen) p (bf_catchMap b))
            (i64 (bf_totalCatchSize b + buffLen)) (bf_totalMemSize b) h;
        Some (mkBuffs l am tc tm, h)
  end.

(** [reallocBuff]: return code, [*ppBuff], what is stored through [pRealSize]. *)
Definition reallocBuff (b : eduBuffs) (h : blocks) (len p : Z) (os : option Z)
    : option (Z * Z * option Z * eduBuffs * blocks) :=
  let error rc b h :=
    if p =? NULL then Some (rc, NULL, None, b, h)
    else '(b, h) ← releaseBuff b h p; Some (rc, NULL, Some 0, b, h) in
  match bf_allocMap b !! p, negb (p =? NULL) with
  | None, true => error SDB_SYS b h
  | o, _ =>
      let oldLen := default 0 o in
      if len <=? oldLen then Some (SDB_OK, p, o, b, h)
      else
        let len := ossRoundUpToMultipleX len EDU_MEM_ALIGMENT_SIZE in
        '(q, h) ← ossMemRealloc p len os h;
        if q =? NULL then error SDB_OOM b h
        else
          let am := if p =? q then bf_allocMap b else delete p (bf_allocMap b) in
          Some (SDB_OK, q, Some len,
            mkBuffs (bf_catchMap b) (<[q := len]> am) (bf_totalCatchSize b)
              (i64 (bf_totalMemSize b + u32 (len - oldLen))), h)
  end.

Definition restore_one (b : eduBuffs) (e : Z * Z) : eduBuffs :=
  mkBuffs (catch_insert e.1 e.2 (bf_catchMap b)) (bf_allocMap b)
    (i64 (bf_totalCatchSize b + e.1)) (i64 (bf_totalMemSize b + e.1)).

(** [restoreBuffs]: the control block and the map it empties. *)
Definition restoreBuffs (b : eduBuffs) (catchMap : list (Z * Z))
    : eduBuffs * list (Z * Z) :=
  (foldl restore_one b catchMap, []).

Fixpoint release_each (ps : list Z) (b : eduBuffs) (h : blocks)
    : option (eduBuffs * blocks) :=
  match ps with
  | [] => Some (b, h)
  | p :: ps => '(b, h) ← releaseBuff b h p; release_each ps b h
  end.

Definition saveBuffs (b : eduBuffs) (h : blocks) (catchMap : list (Z * Z))
    : option (eduBuffs * blocks * list (Z * Z)) :=
  '(b, h) ← release_each (std_keys (bf_allocMap b)) b h;
  let n := sumZ (map fst (bf_catchMap b)) in
  Some (mkBuffs [] ∅ (i64 (bf_totalCatchSize b - n)) (i64 (bf_totalMemSize b - n)), h,
        foldl (fun m e => catch_insert e.1 e.2 m) catchMap (bf_catchMap b)).

(** ** The control block *)

(** What the executor reads of a session: its client, if it has one, with
    whether it is closed and whether it is interrupted. *)
Record pmdClient := mkClient { cl_closed : bool; cl_interrupted : bool }.

Record pmdEDUCB := mkEDUCB {
  cb_eduID : Z;
  cb_tid : Z;
  cb_threadID : Z;
  cb_status : PMD_EDU_STATUS;
  cb_eduType : Z;
  cb_isLocked : bool;
  cb_ctrlFlag : Z;
  cb_processEventCount : Z;
  cb_name : string;
  cb_session : option (option pmdClient);
  cb_queue : list pmdEDUEvent;
  cb_buffs : eduBuffs;
  cb_errorBuff : Z;
  cb_errorInfo : string;
  cb_alignedMem : Z;
  cb_alignedMemSize : Z
}.

Definition set_cb_id (c : pmdEDUCB) (x : Z) : pmdEDUCB :=
  let 'mkEDUCB _ a b d e f g i j k l m n o p q := c in
  mkEDUCB x a b d e f g i j k l m n o p q.
Definition set_cb_thread (c : pmdEDUCB) (tid threadID : Z) : pmdEDUCB :=
  let 'mkEDUCB z _ _ d e f g i j k l m n o p q := c in
  mkEDUCB z tid threadID d e f g i j k l m n o p q.
Definition set_cb_status (c : pmdEDUCB) (x : PMD_EDU_STATUS) : pmdEDUCB :=
  let 'mkEDUCB z a b _ e f g i j k l m n o p q := c in
  mkEDUCB z a b x e f g i j k l m n o p q.
Definition set_cb_type (c : pmdEDUCB) (x : Z) : pmdEDUCB :=
  let 'mkEDUCB z a b d _ f g i j k l m n o p q := c in
  mkEDUCB z a b d x f g i j k l m n o p q.
Definition set_cb_lock (c : pmdEDUCB) (x : bool) : pmdEDUCB :=
  let 'mkEDUCB z a b d e _ g i j k l m n o p q := c in
  mkEDUCB z a b d e x g i j k l m n o p q.
Definition set_cb_ctrl (c : pmdEDUCB) (x : Z) : pmdEDUCB :=
  let 'mkEDUCB z a b d e f _ i j k l m n o p q := c in
  mkEDUCB z a b d e f x i j k l m n o p q.
Definition set_cb_count (c : pmdEDUCB) (x : Z) : pmdEDUCB :=
  let 'mkEDUCB z a b d e f g _ j k l m n o p q := c in
  mkEDUCB z a b d e f g x j k l m n o p q.
Definition set_cb_name (c : pmdEDUCB) (x : string) : pmdEDUCB :=
  let 'mkEDUCB z a b d e f g i _ k l m n o p q := c in
  mkEDUCB z a b d e f g i x k l m n o p q.
Definition set_cb_session (c : pmdEDUCB) (x : option (option pmdClient)) : pmdEDUCB :=
  let 'mkEDUCB z a b d e f g i j _ l m n o p q := c in
  mkEDUCB z a b d e f g i j x l m n o p q.
Definition set_cb_queue (c : pmdEDUCB) (x : list pmdEDUEvent) : pmdEDUCB :=
  let 'mkEDUCB z a b d e f g i j k _ m n o p q := c in
  mkEDUCB z a b d e f g i j k x m n o p q.
Definition set_cb_buffs (c : pmdEDUCB) (x : eduBuffs) : pmdEDUCB :=
  let 'mkEDUCB z a b d e f g i j k l _ n o p q := c in
  mkEDUCB z a b d e f g i j k l x n o p q.
Definition set_cb_info (c : pmdEDUCB) (x : string) : pmdEDUCB :=
  let 'mkEDUCB z a b d e f g i j k l m n _ p q := c in
  mkEDUCB z a b d e f g i j k l m n x p q.
Definition set_cb_error (c : pmdEDUCB) (x : Z) : pmdEDUCB :=
  let 'mkEDUCB z a b d e f g i j k l m _ o p q := c in
  mkEDUCB z a b d e f g i j k l m x o p q.
Definition set_cb_aligned (c : pmdEDUCB) (mem size : Z) : pmdEDUCB :=
  let 'mkEDUCB z a b d e f g i j k l m n o _ _ := c in
  mkEDUCB z a b d e f g i j k l m n o mem size.

(** The constructor, with malloc's answer for the error buffer. *)
Definition pmdEDUCB_new (type : Z) (os : option Z) (h : blocks) : pmdEDUCB * blocks :=
  let '(p, h) := ossMemAlloc (PMD_EDU_ERROR_BUFF_SIZE + 1) os h in
  (mkEDUCB PMD_INVALID_EDUID 0 0 PMD_EDU_UNKNOW type false 0 0 "" None [] buffs_new
     p "" NULL 0, h).

(** *** Control flags *)

Definition interrupt (c : pmdEDUCB) : pmdEDUCB :=
  set_cb_ctrl c (Z.lor (cb_ctrlFlag c) PMD_EDU_CTRL_INTERRUPTED).

Definition postEvent (c : pmdEDUCB) (e : pmdEDUEvent) : pmdEDUCB :=
  set_cb_queue c (cb_queue c ++ [e]).

Definition disconnect (c : pmdEDUCB) : pmdEDUCB :=
  let c := interrupt c in
  let c := set_cb_ctrl c (Z.lor (cb_ctrlFlag c) PMD_EDU_CTRL_DISCONNECTED) in
  postEvent c (event_of PMD_EDU_EVENT_TERM).

Definition force (c : pmdEDUCB) : pmdEDUCB :=
  let c := disconnect c in
  set_cb_ctrl c (Z.lor (cb_ctrlFlag c) PMD_EDU_CTRL_FORCED).

Definition resetInterrupt (c : pmdEDUCB) : pmdEDUCB :=
  set_cb_ctrl c (Z.land (cb_ctrlFlag c) (Z.lnot PMD_EDU_CTRL_INTERRUPTED)).

Definition resetDisconnect (c : pmdEDUCB) : pmdEDUCB :=
  let c := resetInterrupt c in
  set_cb_ctrl c (Z.land (cb_ctrlFlag c) (Z.lnot PMD_EDU_CTRL_DISCONNECTED)).

Definition flag_set (c : pmdEDUCB) (f : Z) : bool := negb (Z.land (cb_ctrlFlag c) f =? 0).

(** [isInterrupted] records what it learns from the client. *)
Definition isInterrupted (c : pmdEDUCB) : bool * pmdEDUCB :=
  if flag_set c PMD_EDU_CTRL_INTERRUPTED then (true, c)
  else match cb_session c with
       | Some (Some client) =>
           if cl_closed client then
             (true, set_cb_ctrl c (Z.lor (cb_ctrlFlag c)
                (Z.lor PMD_EDU_CTRL_INTERRUPTED PMD_EDU_CTRL_DISCONNECTED)))
           else if cl_interrupted client then
             (true, set_cb_ctrl c (Z.lor (cb_ctrlFlag c) PMD_EDU_CTRL_INTERRUPTED))
           else (false, c)
       | _ => (false, c)
       end.

Definition isDisconnected (c : pmdEDUCB) : bool := flag_set c PMD_EDU_CTRL_DISCONNECTED.
Definition isForced (c : pmdEDUCB) : bool := flag_set c PMD_EDU_CTRL_FORCED.

Definition incEventCount (c : pmdEDUCB) (step : Z) : pmdEDUCB :=
  set_cb_count c (u64 (cb_processEventCount c + step)).

Definition getQueSize (c : pmdEDUCB) : Z := u32 (Z.of_nat (List.length (cb_queue c))).

Definition attachSession (c : pmdEDUCB) (s : option pmdClient) : pmdEDUCB :=
  set_cb_session c (Some s).
Definition detachSession (c : pmdEDUCB) : pmdEDUCB := set_cb_session c None.

Definition setName (c : pmdEDUCB) (name : string) : pmdEDUCB :=
  set_cb_name c (str_take (Z.to_nat PMD_EDU_NAME_LENGTH) name).

(** *** Error text.  [text]: what [format] and its arguments print. *)

Definition getInfo (c : pmdEDUCB) : option string :=
  if cb_errorBuff c =? NULL then None
  else match cb_errorInfo c with EmptyString => None | s => Some s end.

Definition resetInfo (c : pmdEDUCB) : pmdEDUCB :=
  if cb_errorBuff c =? NULL then c else set_cb_info c "".

Definition printInfo (c : pmdEDUCB) (text : string) : Z * pmdEDUCB :=
  match getInfo c with
  | Some _ => (SDB_OK, c)
  | None =>
      if cb_errorBuff c =? NULL then (SDB_INVALIDARG, c)
      else (SDB_OK, set_cb_info c (str_take (Z.to_nat (PMD_EDU_ERROR_BUFF_SIZE - 1)) text))
  end.

Definition resetForLoopOnce (c : pmdEDUCB) : pmdEDUCB := resetInfo (resetInterrupt c).

(** *** Aligned memory *)

Definition OSS_FILE_DIRECT_IO_ALIGNMENT : Z := 512.

(** [getAlignedBuff]: the address and what is stored through [pRealSize]. *)
Definition getAlignedBuff (c : pmdEDUCB) (h : blocks) (size : Z) (os : option Z)
    : option (Z * Z * pmdEDUCB * blocks) :=
  '(c, h) ←
    (if cb_alignedMemSize c <? size then
       h ← ossMemFree (cb_alignedMem c) h;
       let size := ossRoundUpToMultipleX size OSS_FILE_DIRECT_IO_ALIGNMENT in
       match os with
       | Some p => Some (set_cb_aligned c p size, {[p]} ∪ h)
       | None => Some (set_cb_aligned c NULL
                   (if cb_alignedMem c =? NULL then cb_alignedMemSize c else 0), h)
       end
     else Some (c, h));
  Some (cb_alignedMem c, cb_alignedMemSize c, c, h).

Definition releaseAlignedBuff (c : pmdEDUCB) (h : blocks) : option (pmdEDUCB * blocks) :=
  if cb_alignedMem c =? NULL then Some (c, h)
  else h ← ossMemFree (cb_alignedMem c) h; Some (set_cb_aligned c NULL 0, h).

(** *** Events *)

(** [pmdEduEventRelase]: the event afterwards, the buffers and the blocks. *)
Definition pmdEduEventRelase (e : pmdEDUEvent) (b : eduBuffs) (h : blocks)
    : option (pmdEDUEvent * eduBuffs * blocks) :=
  if ev_Data e =? NULL then Some (e, b, h)
  else
    let e' := mkEvent (ev_eventType e) (ev_userData e) (ev_dataMemType e) NULL in
    match ev_dataMemType e with
    | PMD_EDU_MEM_NONE => Some (e, b, h)
    | PMD_EDU_MEM_ALLOC => h ← ossMemFree (ev_Data e) h; Some (e', b, h)
    | PMD_EDU_MEM_SELF => '(b, h) ← releaseBuff b h (ev_Data e); Some (e', b, h)
    end.

(** [clear]'s loop over the queue. *)
Fixpoint drain (q : list pmdEDUEvent) (b : eduBuffs) (h : blocks)
    : option (eduBuffs * blocks) :=
  match q with
  | [] => Some (b, h)
  | e :: q => '(_, b, h) ← pmdEduEventRelase e b h; drain q b h
  end.

Definition edu_clear (c : pmdEDUCB) (h : blocks) : option (pmdEDUCB * blocks) :=
  '(b, h) ← drain (cb_queue c) (cb_buffs c) h;
  let c := set_cb_lock (set_cb_name (set_cb_count (set_cb_queue c []) 0) "") false in
  let c := set_cb_ctrl c 0 in
  '(c, h) ← releaseAlignedBuff c h;
  h ← free_all (map snd (bf_catchMap b)) h;
  let nc := sumZ (map fst (bf_catchMap b)) in
  let as_ := std_keys (bf_allocMap b) in
  h ← free_all as_ h;
  let na := sumZ (map (fun p => default 0 (bf_allocMap b !! p)) as_) in
  Some (set_cb_buffs c (mkBuffs [] ∅ (i64 (bf_totalCatchSize b - nc))
          (i64 (bf_totalMemSize b - nc - na))), h).

(** The destructor. *)
Definition pmdEDUCB_delete (c : pmdEDUCB) (h : blocks) : option blocks :=
  h ← ossMemFree (cb_errorBuff c) h;
  '(_, h) ← edu_clear (set_cb_error c NULL) h;
  Some h.

(** [waitEvent]: [arrived] are the events other threads push before the wait
    ends.  [None]: the wait does not end. *)
Definition waitEvent (c : pmdEDUCB) (arrived : list pmdEDUEvent) (millsec : Z)
    (resetStat : bool) : option (option pmdEDUEvent * pmdEDUCB) :=
  let c := if resetStat && negb (bool_decide (cb_status c = PMD_EDU_IDLE))
           then set_cb_status c PMD_EDU_WAITING else c in
  match cb_queue c ++ arrived with
  | [] => if millsec <? 0 then None else Some (None, c)
  | e :: q =>
      let c := incEventCount (set_cb_queue c q) 1 in
      Some (Some e,
        if bool_decide (ev_eventType e = PMD_EDU_EVENT_TERM)
        then set_cb_ctrl c (Z.lor (cb_ctrlFlag c)
               (Z.lor PMD_EDU_CTRL_DISCONNECTED PMD_EDU_CTRL_INTERRUPTED))
        else if resetStat then set_cb_status c PMD_EDU_RUNNING else c)
  end.

(** The loop of the [waitEvent] that waits for one type of event;
    [arr] are the events that arrive during each of its waits, [tmp] the
    events set aside.  [None]: the loop goes on after [arr]. *)
Fixpoint wait_type_loop (arr : list (list pmdEDUEvent)) (c : pmdEDUCB)
    (type : pmdEDUEventTypes) (millsec : Z) (resetStat : bool) (tmp : list pmdEDUEvent)
    : option (option pmdEDUEvent * pmdEDUCB * list pmdEDUEvent) :=
  let '(intr, c) := isInterrupted c in
  if intr then Some (None, c, tmp)
  else match arr with
  | [] => None
  | a :: arr =>
      let waitTime := if millsec <? 1000 then millsec else 1000 in
      '(o, c) ← waitEvent c a waitTime resetStat;
      match o with
      | None =>
          let millsec := millsec - waitTime in
          if millsec <=? 0 then Some (None, c, tmp)
          else wait_type_loop arr c type millsec resetStat tmp
      | Some e =>
          if bool_decide (type = ev_eventType e) then Some (Some e, c, tmp)
          else wait_type_loop arr
                 (set_cb_count c (u64 (cb_processEventCount c - 1)))
                 type millsec resetStat (tmp ++ [e])
      end
  end.

Definition waitEventType (c : pmdEDUCB) (arr : list (list pmdEDUEvent))
    (type : pmdEDUEventTypes) (millsec : Z) (resetStat : bool)
    : option (option pmdEDUEvent * pmdEDUCB) :=
  let millsec := if millsec <? 0 then 2147483647 else millsec in
  '(o, c, tmp) ← wait_type_loop arr c type millsec resetStat [];
  Some (o, set_cb_queue c (cb_queue c ++ tmp)).
