(* ===== verification/PmdEDUOk.v ===== *)
(** * The buffers of an executor are accounted for

    The blocks a control block owns, the invariant that relates its maps and
    totals to them, and what each operation of PmdEDU.v does with them: no
    block is released twice, none is lost, and blocks of others are not
    touched. *)
From S2P Require Import Prelude.
From S2P Require Import OssMem.
From S2P Require Import PmdBase.
From S2P Require Import PmdEDU.
From Stdlib Require Import Sorted.
From stdpp Require Import sorting.
#[local] Open Scope Z_scope.

(** ** Signed 64-bit totals *)

Lemma i64_add_l x y : i64 (i64 x + y) = i64 (x + y).
Proof.
  destruct (i64_congr x) as [k ->]. unfold i64.
  replace (x + k * 18446744073709551616 + y + 9223372036854775808)
    with (x + y + 9223372036854775808 + k * 18446744073709551616) by lia.
  by rewrite Z_mod_plus_full.
Qed.

Lemma i64_sub_l x y : i64 (i64 x - y) = i64 (x - y).
Proof. rewrite <- !Z.add_opp_r. apply i64_add_l. Qed.

(** ** The cache *)

Lemma catch_insert_perm len p l : catch_insert len p l ≡ₚ (len, p) :: l.
Proof.
  induction l as [|[k q] l IH]; simpl; [done|]. zcase; [done|].
  rewrite IH. apply Permutation_swap.
Qed.

Definition by_length (l : list (Z * Z)) : Prop := StronglySorted Z.le (map fst l).

Lemma catch_insert_sorted len p l : by_length l -> by_length (catch_insert len p l).
Proof.
  unfold by_length. induction l as [|[k q] l IH]; simpl; intros Hs; [by repeat constructor|].
  apply StronglySorted_inv in Hs as [Hs Hf]. zcase; simpl.
  - constructor; [by constructor|]. constructor; [lia|].
    eapply Forall_impl; [done|]. simpl. lia.
  - constructor; [by apply IH|]. rewrite catch_insert_perm. simpl. by constructor.
Qed.

(** The entry taken is the smallest that is large enough; there is none when
    all are too small. *)
Lemma catch_take_spec len l :
  by_length l ->
  match catch_take len l with
  | Some (e, l') =>
      l ≡ₚ e :: l' /\ by_length l' /\ len <= e.1 /\
      (forall e', e' ∈ l -> len <= e'.1 -> e.1 <= e'.1)
  | None => forall e', e' ∈ l -> e'.1 < len
  end.
Proof.
  unfold by_length. induction l as [|[k q] l IH]; simpl; intros Hs.
  { intros e' H. by apply not_elem_of_nil in H. }
  apply StronglySorted_inv in Hs as [Hs Hf]. specialize (IH Hs). zcase.
  - destruct (catch_take len l) as [[e l']|].
    + destruct IH as (Hp & Hs' & Hle & Hmin). split_and!; [| |done|].
      * rewrite Hp. apply Permutation_swap.
      * simpl. constructor; [done|]. rewrite Hp in Hf. simpl in Hf.
        by apply Forall_cons in Hf as [_ Hf].
      * intros e' [->|He']%elem_of_cons; simpl; [lia|auto].
    + intros e' [->|He']%elem_of_cons; simpl; [lia|auto].
  - split_and!; [done|done|simpl; lia|].
    intros e' [->|He']%elem_of_cons Hl; simpl; [lia|].
    rewrite Forall_forall in Hf. apply (Hf e'.1). by apply list_elem_of_fmap_2.
Qed.

Definition sum_len (l : list (Z * Z)) : Z := sumZ (map fst l).

Lemma sumZ_perm l l' : l ≡ₚ l' -> sumZ l = sumZ l'.
Proof. induction 1; simpl; lia. Qed.

#[global] Instance sum_len_proper : Proper ((≡ₚ) ==> eq) sum_len.
Proof. intros l l' H. apply sumZ_perm. by rewrite H. Qed.

(** ** The handed out buffers *)

Definition sum_alloc (m : gmap Z Z) : Z :=
  sumZ (map (fun p => default 0 (m !! p)) (std_keys m)).

Lemma std_keys_insert {A} (m : gmap Z A) k v :
  m !! k = None -> std_keys (<[k := v]> m) ≡ₚ k :: std_keys m.
Proof.
  intros Hk. rewrite !std_keys_perm, dom_insert.
  apply elements_union_singleton. by rewrite not_elem_of_dom.
Qed.

Lemma std_keys_delete {A} (m : gmap Z A) k v :
  m !! k = Some v -> std_keys m ≡ₚ k :: std_keys (delete k m).
Proof.
  intros Hk. rewrite <- (insert_delete_id m k v Hk) at 1.
  apply std_keys_insert, lookup_delete_eq.
Qed.

Lemma std_keys_overwrite {A} (m : gmap Z A) k v w :
  m !! k = Some v -> std_keys (<[k := w]> m) ≡ₚ std_keys m.
Proof.
  intros Hk. rewrite !std_keys_perm.
  rewrite dom_insert_lookup_L; [done|eauto].
Qed.

Lemma sum_alloc_insert m p v :
  m !! p = None -> sum_alloc (<[p := v]> m) = v + sum_alloc m.
Proof.
  intros Hp. unfold sum_alloc. rewrite (sumZ_perm _ _ (Permutation_map _ (std_keys_insert m p v Hp))).
  simpl. rewrite lookup_insert_eq. simpl. f_equal. f_equal.
  apply map_ext_in. intros q Hq%list_elem_of_In%elem_of_std_keys.
  rewrite lookup_insert_ne; [done|]. intros <-. rewrite Hp in Hq. by destruct Hq.
Qed.

Lemma sum_alloc_delete m p v :
  m !! p = Some v -> sum_alloc (delete p m) = sum_alloc m - v.
Proof.
  intros Hp. rewrite <- (insert_delete_id m p v Hp) at 2.
  rewrite sum_alloc_insert by apply lookup_delete_eq. lia.
Qed.

Lemma sum_alloc_empty : sum_alloc ∅ = 0.
Proof. reflexivity. Qed.

(** ** Ownership and the invariant *)

Definition buf_owned (b : eduBuffs) : list Z :=
  map snd (bf_catchMap b) ++ std_keys (bf_allocMap b).

Definition len_ok (n : Z) : Prop := 0 <= n < 2147483648.
Definition catch_ok (l : list (Z * Z)) : Prop :=
  by_length l /\ Forall (fun e => 0 <= e.1 <= EDU_MAX_CATCH_SIZE) l /\
  sum_len l < 4611686018427387904.

(** The maps and totals without the blocks. *)
Record buf_sums (b : eduBuffs) : Prop := mkBufSums {
  bs_catch : catch_ok (bf_catchMap b);
  bs_alloc : map_Forall (fun _ n => len_ok n) (bf_allocMap b);
  bs_totalCatch : bf_totalCatchSize b = sum_len (bf_catchMap b);
  bs_totalMem : bf_totalMemSize b =
    i64 (sum_len (bf_catchMap b) + sum_alloc (bf_allocMap b))
}.

Definition buf_inv (b : eduBuffs) (h : blocks) : Prop :=
  buf_sums b /\ blocks_ok (buf_owned b) h.

(** The blocks of others. *)
Definition foreign (ps : list Z) (h : blocks) : blocks := h ∖ list_to_set ps.

Lemma elem_of_foreign x ps h : x ∈ foreign ps h <-> x ∈ h /\ x ∉ ps.
Proof. unfold foreign. rewrite elem_of_difference, elem_of_list_to_set. done. Qed.

Lemma foreign_perm ps qs h : ps ≡ₚ qs -> foreign ps h = foreign qs h.
Proof. intros H. unfold foreign. by rewrite (list_to_set_perm_L _ _ H). Qed.

#[global] Instance foreign_proper : Proper ((≡ₚ) ==> eq ==> eq) foreign.
Proof. intros ps qs Hp h ? <-. by apply foreign_perm. Qed.

Lemma buf_new_inv h : buf_inv buffs_new h.
Proof.
  split; [|split; by constructor].
  split; simpl; [|apply map_Forall_empty|done|done].
  split_and!; [constructor|constructor|done].
Qed.

(** ** Releasing *)

Lemma foreign_free p ps h : foreign ps (h ∖ {[p]}) = foreign (p :: ps) h.
Proof. unfold foreign. set_solver. Qed.

Lemma sum_len_nonneg l :
  Forall (fun e => 0 <= e.1 <= EDU_MAX_CATCH_SIZE) l -> 0 <= sum_len l.
Proof. unfold sum_len. induction 1; simpl; lia. Qed.

(** The trimming loop stops within the bound, releasing the smallest buffers;
    it never looks for the first entry of an empty cache. *)
Lemma reorg_loop_ok l A qs : forall h,
  catch_ok l -> blocks_ok (map snd l ++ qs) h ->
  exists l' h',
    reorg_loop l (sum_len l) (i64 (sum_len l + A)) h =
      Some (l', sum_len l', i64 (sum_len l' + A), h') /\
    l' `suffix_of` l /\ sum_len l' <= EDU_MAX_CATCH_SIZE /\
    blocks_ok (map snd l' ++ qs) h' /\
    foreign (map snd l' ++ qs) h' = foreign (map snd l ++ qs) h.
Proof.
  induction l as [|[k p] l IH]; intros h (Hs & Hf & Hb) Hok; simpl reorg_loop.
  { destruct (Z.ltb_spec EDU_MAX_CATCH_SIZE (sum_len [])); [done|].
    exists [], h. split_and!; done. }
  pose proof (sum_len_nonneg _ Hf) as Hn.
  destruct (Z.ltb_spec EDU_MAX_CATCH_SIZE (sum_len ((k, p) :: l))) as [Hlt|Hge].
  - apply StronglySorted_inv in Hs as [Hs _]. apply Forall_cons in Hf as [Hk Hf].
    simpl in Hok, Hk. apply blocks_ok_cons in Hok as (Hp & Hin & Hok).
    pose proof (sum_len_nonneg _ Hf). unfold sum_len in Hb, Hn |- *. simpl in *.
    fold (sum_len l) in *. rewrite ossMemFree_live by done. simpl.
    replace (i64 (k + sum_len l - k)) with (sum_len l) by (rewrite i64_id; lia).
    rewrite i64_sub_l. replace (k + sum_len l + A - k) with (sum_len l + A) by lia.
    destruct (IH (h ∖ {[p]})) as (l' & h' & -> & Hsuf & Hle & Hok' & Hfo);
      [unfold catch_ok; split_and!; [done|done|lia]|done|].
    exists l', h'. split_and!; try done; [by apply suffix_cons_r|].
    by rewrite Hfo, foreign_free.
  - exists ((k, p) :: l), h. split_and!; done.
Qed.

Lemma catch_ok_insert len p l :
  0 <= len <= EDU_MAX_CATCH_SIZE -> catch_ok l ->
  sum_len l + len < 4611686018427387904 -> catch_ok (catch_insert len p l).
Proof.
  intros Hl (Hs & Hf & Hb) Hsum. unfold catch_ok. split_and!.
  - by apply catch_insert_sorted.
  - rewrite catch_insert_perm. by constructor.
  - rewrite catch_insert_perm. unfold sum_len in *. simpl. lia.
Qed.

Lemma catch_ok_suffix l l' : l' `suffix_of` l -> catch_ok l -> catch_ok l'.
Proof.
  intros [k ->] (Hs & Hf & Hb). unfold by_length in *.
  rewrite map_app in Hs. apply StronglySorted_app in Hs as (_ & _ & Hs).
  apply Forall_app in Hf as [Hf1 Hf]. pose proof (sum_len_nonneg _ Hf1) as Hn.
  unfold catch_ok. split_and!; try done. unfold sum_len in *. rewrite map_app, sumZ_app in Hb. lia.
Qed.

(** How much cache a release may find: the trimming keeps the sum low. *)
Definition roomy (b : eduBuffs) : Prop :=
  sum_len (bf_catchMap b) + EDU_MAX_CATCH_SIZE < 4611686018427387904.

(** What it leaves. *)
Definition tight (b : eduBuffs) : Prop := sum_len (bf_catchMap b) <= EDU_MAX_CATCH_SIZE.

Lemma tight_roomy b : tight b -> roomy b.
Proof. unfold tight, roomy, EDU_MAX_CATCH_SIZE. lia. Qed.

Lemma releaseBuff_ok b h p n qs :
  buf_sums b -> roomy b -> blocks_ok (buf_owned b ++ qs) h ->
  bf_allocMap b !! p = Some n ->
  exists b' h',
    releaseBuff b h p = Some (b', h') /\ buf_sums b' /\ roomy b' /\
    bf_allocMap b' = delete p (bf_allocMap b) /\
    blocks_ok (buf_owned b' ++ qs) h' /\
    foreign (buf_owned b' ++ qs) h' = foreign (buf_owned b ++ qs) h /\
    (tight b -> tight b').
Proof.
  intros [Hc Ha Htc Htm] Hr Hok Hp. unfold releaseBuff, buf_owned in *. rewrite Hp.
  assert (len_ok n) as Hn by by apply (Ha p).
  unfold len_ok in Hn. rewrite (i32_id n), (u32_id n) by lia.
  assert (map snd (bf_catchMap b) ++ std_keys (bf_allocMap b) ++ qs ≡ₚ
          p :: map snd (bf_catchMap b) ++ std_keys (delete p (bf_allocMap b)) ++ qs) as Hperm.
  { rewrite (std_keys_delete _ _ _ Hp). symmetry. apply Permutation_middle. }
  rewrite <- app_assoc in Hok. rewrite Hperm in Hok.
  rewrite <- app_assoc, (foreign_perm _ _ _ Hperm).
  assert (map_Forall (fun _ n => len_ok n) (delete p (bf_allocMap b))) as Ha'
    by by apply map_Forall_delete.
  destruct (Z.ltb_spec EDU_MAX_CATCH_SIZE n) as [Hbig|Hsmall].
  - apply blocks_ok_cons in Hok as (Hp0 & Hin & Hok).
    rewrite ossMemFree_live by done. simpl.
    eexists _, _. split; [done|]. simpl. rewrite <- app_assoc. split_and!; try done.
    + split; simpl; try done. rewrite Htm, i64_sub_l, (sum_alloc_delete _ _ _ Hp). f_equal. lia.
    + by rewrite foreign_free.
  - set (am := delete p (bf_allocMap b)) in *.
    set (l := catch_insert n p (bf_catchMap b)).
    assert (catch_ok l) as Hcl by (apply catch_ok_insert; [lia|done|unfold roomy in Hr; lia]).
    assert (sum_len l = n + sum_len (bf_catchMap b)) as Hsl.
    { unfold l. rewrite catch_insert_perm. done. }
    destruct Hc as (Hs & Hf & Hb). pose proof (sum_len_nonneg _ Hf).
    destruct (reorg_loop_ok l (sum_alloc am) (std_keys am ++ qs) h Hcl)
      as (l' & h' & Heq & Hsuf & Hle & Hok' & Hfo).
    { unfold l. rewrite catch_insert_perm. done. }
    replace (i64 (bf_totalCatchSize b + n)) with (sum_len l)
      by (unfold roomy in Hr; rewrite Htc, i64_id by lia; lia).
    replace (bf_totalMemSize b) with (i64 (sum_len l + sum_alloc am)).
    2:{ rewrite Htm, Hsl. unfold am. rewrite (sum_alloc_delete _ _ _ Hp). f_equal. lia. }
    rewrite Heq. simpl. eexists _, _. split; [done|]. simpl.
    rewrite <- app_assoc. split_and!; try done.
    + split; simpl; try done. by eapply catch_ok_suffix.
    + unfold roomy. simpl. unfold EDU_MAX_CATCH_SIZE in *. lia.
    + rewrite Hfo. apply foreign_perm. unfold l. by rewrite catch_insert_perm.
Qed.

(** ** Allocating *)

Lemma round_up_1024 x :
  0 <= x <= 4294966272 ->
  let r := ossRoundUpToMultipleX x EDU_MEM_ALIGMENT_SIZE in
  x <= r < x + 1024 /\ r mod 1024 = 0.
Proof.
  intros Hx. unfold ossRoundUpToMultipleX, EDU_MEM_ALIGMENT_SIZE.
  rewrite (u32_id (x + (1024 - 1))) by lia.
  pose proof (Z.mod_pos_bound (x + (1024 - 1)) 1024).
  rewrite u32_id by lia. split; [lia|].
  rewrite Zminus_mod_idemp_r, Z.sub_diag. done.
Qed.

Lemma round_up_0 : ossRoundUpToMultipleX 0 EDU_MEM_ALIGMENT_SIZE = 0.
Proof. reflexivity. Qed.

Lemma blocks_ok_fresh p ps h :
  p <> NULL -> p ∉ h -> blocks_ok ps h ->
  blocks_ok (p :: ps) ({[p]} ∪ h) /\ foreign (p :: ps) ({[p]} ∪ h) = foreign ps h /\ p ∉ ps.
Proof.
  intros Hp Hn [Hd Hf]. rewrite Forall_forall in Hf.
  assert (p ∉ ps) by (intros H; destruct (Hf p H); done).
  split_and!; [|unfold foreign; set_solver|done].
  split; [by constructor|]. apply Forall_forall. intros q [->|Hq]%elem_of_cons.
  - set_solver.
  - destruct (Hf q Hq). set_solver.
Qed.

Lemma owned_alloc_fresh b qs p n :
  bf_allocMap b !! p = None ->
  (map snd (bf_catchMap b) ++ std_keys (<[p := n]> (bf_allocMap b))) ++ qs ≡ₚ
  p :: buf_owned b ++ qs.
Proof.
  intros Hp. unfold buf_owned. rewrite (std_keys_insert _ _ _ Hp), <- !app_assoc.
  symmetry. apply Permutation_middle.
Qed.

Lemma not_owned_not_alloc b p : p ∉ buf_owned b -> bf_allocMap b !! p = None.
Proof.
  unfold buf_owned. rewrite not_elem_of_app, elem_of_std_keys. intros [_ H].
  by apply eq_None_not_Some.
Qed.

(** A new buffer: at least as long as asked for, and new to the executor. *)
Definition alloc_grants (b b' : eduBuffs) (len p : Z) (real : option Z) : Prop :=
  exists n, real = Some n /\ len <= n /\ p <> NULL /\ bf_allocMap b !! p = None /\
    bf_allocMap b' = <[p := n]> (bf_allocMap b).

Lemma allocFromCatch_ok b h len qs p n b' :
  buf_sums b -> roomy b -> blocks_ok (buf_owned b ++ qs) h -> 0 <= len ->
  allocFromCatch b len = Some (p, n, b') ->
  buf_sums b' /\ roomy b' /\ (tight b -> tight b') /\
  buf_owned b' ++ qs ≡ₚ buf_owned b ++ qs /\
  alloc_grants b b' len p (Some n).
Proof.
  intros [Hc Ha Htc Htm] Hr Hok Hlen. unfold allocFromCatch.
  pose proof (catch_take_spec len (bf_catchMap b) (proj1 Hc)) as Hct.
  destruct (catch_take len (bf_catchMap b)) as [[[n' q] l]|]; [|done].
  intros [= <- <- <-]. destruct Hct as (Hperm & Hsl & Hle & _). simpl in Hle.
  destruct Hc as (Hs & Hf & Hb). rewrite Hperm in Hf. apply Forall_cons in Hf as [Hn Hf].
  simpl in Hn. pose proof (sum_len_nonneg _ Hf) as Hnl.
  assert (sum_len (bf_catchMap b) = n' + sum_len l) as Hsum by by rewrite Hperm.
  assert (buf_owned b ++ qs ≡ₚ q :: map snd l ++ std_keys (bf_allocMap b) ++ qs) as Hown.
  { unfold buf_owned. rewrite Hperm, <- app_assoc. done. }
  rewrite Hown in Hok. pose proof (proj1 Hok) as Hd. apply blocks_ok_cons in Hok as (Hq0 & _ & _).
  apply NoDup_cons in Hd as [Hd _]. rewrite !not_elem_of_app, elem_of_std_keys in Hd.
  assert (bf_allocMap b !! q = None) as Hq by (apply eq_None_not_Some; tauto).
  unfold roomy in *. split_and!.
  - split; simpl.
    + unfold catch_ok. split_and!; [done|done|lia].
    + apply map_Forall_insert_2; [|done]. unfold len_ok, EDU_MAX_CATCH_SIZE in *. lia.
    + rewrite Htc, i64_id; lia.
    + rewrite Htm, (sum_alloc_insert _ _ _ Hq). f_equal. lia.
  - simpl. lia.
  - unfold tight. simpl. lia.
  - rewrite Hown. unfold buf_owned. simpl. rewrite (std_keys_insert _ _ _ Hq), <- !app_assoc.
    symmetry. apply Permutation_middle.
  - exists n'. split_and!; done.
Qed.

Lemma allocBuff_ok b h len os qs rc p real b' h' :
  buf_sums b -> roomy b -> blocks_ok (buf_owned b ++ qs) h -> fresh_block os h ->
  0 <= len <= 2147482624 ->
  allocBuff b h len os = (rc, p, real, b', h') ->
  buf_sums b' /\ roomy b' /\ (tight b -> tight b') /\ blocks_ok (buf_owned b' ++ qs) h' /\
  foreign (buf_owned b' ++ qs) h' = foreign (buf_owned b ++ qs) h /\
  (rc = SDB_OK /\ alloc_grants b b' len p real \/
   rc = SDB_OOM /\ p = NULL /\ real = None /\ b' = b /\ h' = h).
Proof.
  intros Hb Hr Hok Hfr Hlen. unfold allocBuff.
  destruct (if len <=? bf_totalCatchSize b then allocFromCatch b len else None)
    as [[[q rl] b1]|] eqn:E.
  - destruct (len <=? bf_totalCatchSize b); [|done]. intros [= <- <- <- <- <-].
    destruct (allocFromCatch_ok _ _ _ _ _ _ _ Hb Hr Hok (proj1 Hlen) E) as (?&?&?&Hp&?).
    rewrite Hp. split_and!; try done. by left.
  - clear E. pose proof (round_up_1024 len ltac:(lia)) as [Hru _].
    set (r := ossRoundUpToMultipleX len EDU_MEM_ALIGMENT_SIZE) in *. unfold ossMemAlloc.
    destruct (r =? 0). { intros [= <- <- <- <- <-]. split_and!; try done. by right. }
    destruct os as [q|]; [|intros [= <- <- <- <- <-]; split_and!; try done; by right].
    destruct Hfr as [Hq0 Hqh]. destruct (Z.eqb_spec q NULL); [done|].
    intros [= <- <- <- <- <-].
    destruct (blocks_ok_fresh _ _ _ Hq0 Hqh Hok) as (Hok' & Hfo & Hni).
    rewrite not_elem_of_app in Hni. destruct Hni as [Hni _].
    apply not_owned_not_alloc in Hni. destruct Hb as [Hc Ha Htc Htm].
    unfold buf_owned at 1 2. simpl. rewrite (owned_alloc_fresh _ _ _ _ Hni).
    split_and!; try done.
    + split; simpl; try done.
      * apply map_Forall_insert_2; [|done]. unfold len_ok. lia.
      * rewrite Htm, i64_add_l, (sum_alloc_insert _ _ _ Hni). f_equal. lia.
    + left. split; [done|]. exists r. split_and!; try done. lia.
Qed.

(** ** Growing *)

Lemma owned_null b qs h : blocks_ok (buf_owned b ++ qs) h -> bf_allocMap b !! NULL = None.
Proof.
  intros [_ Hf]. apply not_owned_not_alloc. intros Hin. rewrite Forall_forall in Hf.
  destruct (Hf NULL) as [? _]; [|done]. apply elem_of_app. by left.
Qed.

(** The new block replaces the old one. *)
Lemma owned_realloc b qs h p q n v :
  blocks_ok (buf_owned b ++ qs) h -> q <> NULL -> (q = p \/ q ∉ h) ->
  bf_allocMap b !! p = Some v ->
  let am := delete p (bf_allocMap b) in
  let ps := (map snd (bf_catchMap b) ++ std_keys (<[q := n]> am)) ++ qs in
  am !! q = None /\ blocks_ok ps ({[q]} ∪ (h ∖ {[p]})) /\
  foreign ps ({[q]} ∪ (h ∖ {[p]})) = foreign (buf_owned b ++ qs) h.
Proof.
  intros Hok Hq0 Hq Hv am ps.
  assert (buf_owned b ++ qs ≡ₚ p :: map snd (bf_catchMap b) ++ std_keys am ++ qs) as Hperm.
  { unfold buf_owned, am. rewrite (std_keys_delete _ _ _ Hv), <- app_assoc.
    symmetry. apply Permutation_middle. }
  rewrite Hperm in Hok |- *. apply blocks_ok_cons in Hok as (Hp0 & Hin & Hok).
  assert (q ∉ h ∖ {[p]}) as Hqh by set_solver.
  destruct (blocks_ok_fresh _ _ _ Hq0 Hqh Hok) as (Hok' & Hfo & Hni).
  rewrite !not_elem_of_app, elem_of_std_keys in Hni. destruct Hni as (_ & Hni & _).
  assert (am !! q = None) as Hqn by by apply eq_None_not_Some.
  assert (ps ≡ₚ q :: map snd (bf_catchMap b) ++ std_keys am ++ qs) as Hps.
  { unfold ps. rewrite (std_keys_insert _ _ _ Hqn), <- app_assoc.
    symmetry. apply Permutation_middle. }
  rewrite Hps. split_and!; try done. by rewrite Hfo, foreign_free.
Qed.

Definition realloc_grants (b b' : eduBuffs) (len p q : Z) (real : option Z) : Prop :=
  exists n, real = Some n /\ len <= n /\ q <> NULL /\
    bf_allocMap b' = <[q := n]> (delete p (bf_allocMap b)).

Lemma reallocBuff_ok b h len p os qs :
  buf_sums b -> roomy b -> blocks_ok (buf_owned b ++ qs) h -> realloc_block p os h ->
  0 <= len <= 2147482624 -> is_Some (bf_allocMap b !! p) ->
  exists rc q real b' h',
    reallocBuff b h len p os = Some (rc, q, real, b', h') /\
    buf_sums b' /\ roomy b' /\ (tight b -> tight b') /\ blocks_ok (buf_owned b' ++ qs) h' /\
    foreign (buf_owned b' ++ qs) h' = foreign (buf_owned b ++ qs) h /\
    (rc = SDB_OK /\ realloc_grants b b' len p q real \/
     rc = SDB_OOM /\ q = NULL /\ real = Some 0 /\
       bf_allocMap b' = delete p (bf_allocMap b)).
Proof.
  intros Hb Hr Hok Hos Hlen [v Hv]. pose proof Hb as [Hc Ha Htc Htm].
  assert (p <> NULL) as Hp0.
  { intros ->. rewrite (owned_null _ _ _ Hok) in Hv. done. }
  assert (len_ok v) as Hvl by by apply (Ha p). unfold len_ok in Hvl.
  assert (p ∈ h) as Hph.
  { destruct Hok as [_ Hf]. rewrite Forall_forall in Hf. apply Hf, elem_of_app. left.
    apply elem_of_app. right. apply elem_of_std_keys. eauto. }
  unfold reallocBuff. rewrite Hv. simpl default.
  destruct (Z.eqb_spec p NULL) as [|_]; [done|]. cbn [negb].
  destruct (Z.leb_spec len v) as [Hle|Hgt].
  { eexists _, _, _, _, _. split; [done|]. split_and!; try done. left. split; [done|].
    exists v. split_and!; try done. by rewrite insert_delete_id. }
  pose proof (round_up_1024 len ltac:(lia)) as [Hru _].
  set (r := ossRoundUpToMultipleX len EDU_MEM_ALIGMENT_SIZE) in *. unfold ossMemRealloc.
  destruct (Z.eqb_spec r 0) as [|_]; [lia|]. destruct (Z.eqb_spec p NULL) as [|_]; [done|].
  rewrite bool_decide_eq_true_2 by done. cbn [negb andb].
  destruct os as [q|]; simpl.
  - destruct Hos as [Hq0 Hq]. destruct (Z.eqb_spec q NULL) as [|_]; [done|].
    destruct (owned_realloc b qs h p q r v Hok Hq0 Hq Hv) as (Hqn & Hok' & Hfo).
    assert (<[q := r]> (if p =? q then bf_allocMap b else delete p (bf_allocMap b)) =
            <[q := r]> (delete p (bf_allocMap b))) as Heq.
    { destruct (Z.eqb_spec p q) as [->|]; [by rewrite insert_delete_eq|done]. }
    rewrite Heq. eexists _, _, _, _, _. split; [done|]. unfold buf_owned at 1 2. simpl.
    split_and!; try done.
    + split; simpl; try done.
      * apply map_Forall_insert_2; [unfold len_ok; lia|]. by apply map_Forall_delete.
      * rewrite Htm, (u32_id (r - v)), i64_add_l, (sum_alloc_insert _ _ _ Hqn),
          (sum_alloc_delete _ _ _ Hv) by lia. f_equal. lia.
    + left. split; [done|]. exists r. split_and!; try done. lia.
  - destruct (releaseBuff_ok b h p v qs Hb Hr Hok Hv) as (b' & h' & -> & ? & ? & ? & ? & ? & ?).
    simpl. eexists _, _, _, _, _. split; [done|]. split_and!; try done. by right.
Qed.

(** Growing [NULL] is allocating a block of its own. *)
Lemma reallocBuff_null b h len os qs :
  buf_sums b -> roomy b -> blocks_ok (buf_owned b ++ qs) h -> fresh_block os h ->
  0 < len <= 2147482624 ->
  exists rc q real b' h',
    reallocBuff b h len NULL os = Some (rc, q, real, b', h') /\
    buf_sums b' /\ roomy b' /\ (tight b -> tight b') /\ blocks_ok (buf_owned b' ++ qs) h' /\
    foreign (buf_owned b' ++ qs) h' = foreign (buf_owned b ++ qs) h /\
    (rc = SDB_OK /\ alloc_grants b b' len q real \/
     rc = SDB_OOM /\ q = NULL /\ real = None /\ b' = b /\ h' = h).
Proof.
  intros Hb Hr Hok Hos Hlen. pose proof Hb as [Hc Ha Htc Htm].
  pose proof (owned_null _ _ _ Hok) as Hv. unfold reallocBuff. rewrite Hv. simpl.
  destruct (Z.leb_spec len 0) as [|_]; [lia|].
  pose proof (round_up_1024 len ltac:(lia)) as [Hru _].
  set (r := ossRoundUpToMultipleX len EDU_MEM_ALIGMENT_SIZE) in *. unfold ossMemRealloc.
  destruct (Z.eqb_spec r 0) as [|_]; [lia|]. simpl. destruct os as [q|]; simpl.
  - destruct Hos as [Hq0 Hqh].
    destruct (blocks_ok_fresh _ _ _ Hq0 Hqh Hok) as (Hok' & Hfo & Hni).
    rewrite not_elem_of_app in Hni. destruct Hni as [Hni%not_owned_not_alloc _].
    destruct (Z.eqb_spec q NULL) as [|_]; [done|].
    assert (<[q := r]> (if NULL =? q then bf_allocMap b else delete NULL (bf_allocMap b)) =
            <[q := r]> (bf_allocMap b)) as ->.
    { destruct (Z.eqb_spec NULL q); [done|]. by rewrite delete_id. }
    eexists _, _, _, _, _. split; [done|]. unfold buf_owned at 1 2. simpl.
    rewrite (owned_alloc_fresh _ _ _ _ Hni). split_and!; try done.
    + split; simpl; try done.
      * apply map_Forall_insert_2; [unfold len_ok; lia|done].
      * rewrite Htm, u32_id, i64_add_l, (sum_alloc_insert _ _ _ Hni) by lia. f_equal. lia.
    + left. split; [done|]. exists r. split_and!; try done. lia.
  - eexists _, _, _, _, _. split; [done|]. split_and!; try done. by right.
Qed.

(** ** Passing the cache on *)

Lemma release_each_ok ps qs : forall b h,
  buf_sums b -> roomy b -> blocks_ok (buf_owned b ++ qs) h ->
  NoDup ps -> (forall p, p ∈ ps -> is_Some (bf_allocMap b !! p)) ->
  exists b' h',
    release_each ps b h = Some (b', h') /\ buf_sums b' /\ roomy b' /\
    (forall p, bf_allocMap b' !! p =
       if decide (p ∈ ps) then None else bf_allocMap b !! p) /\
    blocks_ok (buf_owned b' ++ qs) h' /\
    foreign (buf_owned b' ++ qs) h' = foreign (buf_owned b ++ qs) h.
Proof.
  induction ps as [|p ps IH]; intros b h Hb Hr Hok Hnd Hps; simpl.
  { exists b, h. split_and!; done. }
  apply NoDup_cons in Hnd as [Hp Hnd]. destruct (Hps p ltac:(left)) as [v Hv].
  destruct (releaseBuff_ok b h p v qs Hb Hr Hok Hv)
    as (b1 & h1 & -> & Hb1 & Hr1 & Ha1 & Hok1 & Hf1 & _). simpl.
  destruct (IH b1 h1 Hb1 Hr1 Hok1 Hnd) as (b2 & h2 & -> & Hb2 & Hr2 & Ha2 & Hok2 & Hf2).
  { intros q Hq. rewrite Ha1, lookup_delete_ne by (intros ->; done). apply Hps. by right. }
  exists b2, h2. split_and!; try done; [|by rewrite Hf2].
  intros q. rewrite Ha2, Ha1. destruct (decide (q = p)) as [->|Hne].
  - rewrite lookup_delete_eq, (decide_True (P := p ∈ p :: ps)) by left. by destruct (decide _).
  - rewrite lookup_delete_ne by done.
    destruct (decide (q ∈ ps)), (decide (q ∈ p :: ps)) as [|Hn]; try done; set_solver.
Qed.

Lemma release_all_ok b h qs :
  buf_sums b -> roomy b -> blocks_ok (buf_owned b ++ qs) h ->
  exists b' h',
    release_each (std_keys (bf_allocMap b)) b h = Some (b', h') /\ buf_sums b' /\ roomy b' /\
    bf_allocMap b' = ∅ /\ blocks_ok (map snd (bf_catchMap b') ++ qs) h' /\
    foreign (map snd (bf_catchMap b') ++ qs) h' = foreign (buf_owned b ++ qs) h.
Proof.
  intros Hb Hr Hok.
  destruct (release_each_ok (std_keys (bf_allocMap b)) qs b h Hb Hr Hok (std_keys_NoDup _))
    as (b' & h' & -> & Hb' & Hr' & Ha & Hok' & Hf).
  { intros p. by rewrite elem_of_std_keys. }
  assert (bf_allocMap b' = ∅) as He.
  { apply map_eq. intros p. rewrite Ha, lookup_empty. destruct (decide _) as [|Hn]; [done|].
    rewrite elem_of_std_keys in Hn. by apply eq_None_not_Some. }
  unfold buf_owned in Hok', Hf. rewrite He in Hok', Hf.
  change (std_keys ∅) with (@nil Z) in Hok', Hf. rewrite app_nil_r in Hok', Hf.
  exists b', h'. split_and!; done.
Qed.

(** Inserting in order rebuilds a cache as it was. *)
Lemma catch_insert_last len p l :
  Forall (fun e => e.1 <= len) l -> catch_insert len p l = l ++ [(len, p)].
Proof.
  induction 1 as [|[k q] l Hk Hl IH]; simpl in *; [done|].
  destruct (Z.ltb_spec len k); [lia|]. by rewrite IH.
Qed.

Lemma by_length_snoc l e l2 : by_length (l ++ e :: l2) -> Forall (fun x => x.1 <= e.1) l.
Proof.
  unfold by_length. rewrite map_app. intros H. apply StronglySorted_app in H as (H & _ & _).
  apply Forall_forall. intros x Hx. apply (H x.1 e.1); simpl; [|left].
  by apply list_elem_of_fmap_2.
Qed.

Lemma catch_rebuild l : forall l0,
  by_length (l0 ++ l) -> foldl (fun m e => catch_insert e.1 e.2 m) l0 l = l0 ++ l.
Proof.
  induction l as [|[k p] l IH]; intros l0 Hs; simpl; [by rewrite app_nil_r|].
  rewrite catch_insert_last by by apply (by_length_snoc l0 (k, p) l).
  rewrite IH; by rewrite <- app_assoc.
Qed.

Lemma restore_maps l : forall b x,
  bf_totalMemSize b = i64 x ->
  bf_catchMap (foldl restore_one b l) =
    foldl (fun m e => catch_insert e.1 e.2 m) (bf_catchMap b) l /\
  bf_allocMap (foldl restore_one b l) = bf_allocMap b /\
  bf_totalMemSize (foldl restore_one b l) = i64 (x + sum_len l).
Proof.
  induction l as [|e l IH]; intros b x Hx; simpl.
  { unfold sum_len. simpl. by rewrite Z.add_0_r. }
  destruct (IH (restore_one b e) (x + e.1)) as (-> & -> & ->).
  { simpl. by rewrite Hx, i64_add_l. }
  split_and!; try done. f_equal. unfold sum_len. simpl. lia.
Qed.

Lemma restore_totalCatch l : forall b,
  0 <= bf_totalCatchSize b -> Forall (fun e => 0 <= e.1 <= EDU_MAX_CATCH_SIZE) l ->
  bf_totalCatchSize b + sum_len l < 4611686018427387904 ->
  bf_totalCatchSize (foldl restore_one b l) = bf_totalCatchSize b + sum_len l.
Proof.
  induction l as [|e l IH]; intros b Hb Hf Hs; simpl.
  { unfold sum_len. simpl. lia. }
  apply Forall_cons in Hf as [He Hf]. pose proof (sum_len_nonneg _ Hf).
  unfold sum_len in Hs. simpl in Hs. fold (sum_len l) in Hs.
  rewrite IH; simpl; rewrite ?i64_id by lia; [|lia|done|lia].
  unfold sum_len. simpl. lia.
Qed.

Lemma saveBuffs_ok b h qs :
  buf_sums b -> roomy b -> blocks_ok (buf_owned b ++ qs) h ->
  exists m h', saveBuffs b h [] = Some (buffs_new, h', m) /\
    catch_ok m /\ blocks_ok (map snd m ++ qs) h' /\
    foreign (map snd m ++ qs) h' = foreign (buf_owned b ++ qs) h.
Proof.
  intros Hb Hr Hok. unfold saveBuffs.
  destruct (release_all_ok b h qs Hb Hr Hok)
    as (b1 & h1 & -> & [Hc Ha Htc Htm] & Hr1 & He & Hok1 & Hf). simpl.
  rewrite catch_rebuild by by destruct Hc. simpl.
  exists (bf_catchMap b1), h1. split; [|done]. rewrite Htc, Htm, He. unfold sum_len.
  rewrite i64_sub_l, sum_alloc_empty, Z.add_0_r, Z.sub_diag. done.
Qed.

Lemma restoreBuffs_ok b m :
  buf_sums b -> catch_ok m ->
  sum_len (bf_catchMap b) + sum_len m < 4611686018427387904 ->
  let b' := (restoreBuffs b m).1 in
  buf_sums b' /\ bf_allocMap b' = bf_allocMap b /\
  bf_catchMap b' ≡ₚ bf_catchMap b ++ m.
Proof.
  intros [Hc Ha Htc Htm] Hm Hsum b'. destruct Hc as (Hs & Hf & Hb), Hm as (Hs' & Hf' & Hb').
  pose proof (sum_len_nonneg _ Hf).
  destruct (restore_maps m b _ Htm) as (H1 & H2 & H3).
  pose proof (restore_totalCatch m b ltac:(lia) Hf' ltac:(lia)) as H4.
  assert (forall l l0, foldl (fun m e => catch_insert e.1 e.2 m) l0 l ≡ₚ l0 ++ l) as Hperm.
  { clear. induction l as [|[k p] l IH]; intros l0; simpl; [by rewrite app_nil_r|].
    rewrite IH, catch_insert_perm. apply (Permutation_middle l0 l (k, p)). }
  assert (forall l l0, by_length l0 ->
    by_length (foldl (fun m e => catch_insert e.1 e.2 m) l0 l)) as Hsort.
  { clear. induction l as [|[k p] l IH]; intros l0 Hs; simpl; [done|].
    by apply IH, catch_insert_sorted. }
  unfold b', restoreBuffs. simpl. rewrite H1, H2. split_and!; [|done|apply Hperm].
  split; rewrite ?H1, ?H2, ?H3, ?H4; try done.
  - unfold catch_ok. split_and!; [by apply Hsort|rewrite Hperm; by apply Forall_app|].
    rewrite Hperm. unfold sum_len in *. by rewrite map_app, sumZ_app.
  - rewrite Hperm, Htc. unfold sum_len. by rewrite map_app, sumZ_app.
  - rewrite Hperm. f_equal. unfold sum_len. rewrite map_app, sumZ_app. lia.
Qed.

(** An executor that saves its buffers keeps none and owes nothing, and the
    executor that restores them has the same cache, in the same order, with
    its totals; no block is lost or released twice, and other blocks stay. *)
Theorem edu_buffers_handover b h :
  buf_inv b h -> roomy b ->
  exists m h', saveBuffs b h [] = Some (buffs_new, h', m) /\
    let '(b', m') := restoreBuffs buffs_new m in
    m' = [] /\ bf_catchMap b' = m /\ bf_allocMap b' = ∅ /\ buf_inv b' h' /\
    foreign (buf_owned b') h' = foreign (buf_owned b) h.
Proof.
  intros [Hb Hok] Hr. destruct (saveBuffs_ok b h [] Hb Hr) as (m & h' & -> & Hm & Hok' & Hfo).
  { by rewrite app_nil_r. }
  rewrite !app_nil_r in *. exists m, h'. split; [done|]. simpl.
  destruct (restore_maps m buffs_new 0 eq_refl) as (H1 & H2 & H3).
  assert (bf_catchMap (foldl restore_one buffs_new m) = m) as Hcm.
  { rewrite H1. simpl. by rewrite catch_rebuild by by destruct Hm. }
  destruct (restoreBuffs_ok buffs_new m (proj1 (buf_new_inv h)) Hm) as (Hs & _ & _).
  { destruct Hm as (_ & _ & ?). done. }
  assert (buf_owned (foldl restore_one buffs_new m) = map snd m) as Hown.
  { unfold buf_owned. rewrite Hcm, H2. simpl. by rewrite app_nil_r. }
  split_and!; try done; rewrite ?Hown; try done. split; [done|]. by rewrite Hown.
Qed.

Lemma edu_buffers_handover_witness :
  exists m h', saveBuffs (mkBuffs [(1024, 16)] {[8 := 2048]} 1024 3072) {[8; 16; 48]} [] =
    Some (buffs_new, h', m) /\ bf_catchMap (restoreBuffs buffs_new m).1 = m.
Proof.
  destruct (edu_buffers_handover (mkBuffs [(1024, 16)] {[8 := 2048]} 1024 3072) {[8; 16; 48]})
    as (m & h' & E & Hm).
  - split.
    + split; simpl; [|by apply map_Forall_singleton|done|done].
      split; [|split]; [repeat constructor| |done].
      repeat constructor; simpl; unfold EDU_MAX_CATCH_SIZE; lia.
    + split; apply (bool_decide_unpack _); vm_compute; exact I.
  - reflexivity.
  - exists m, h'. split; [exact E|]. destruct (restoreBuffs buffs_new m) as [b' m'].
    exact (proj1 (proj2 Hm)).
Defined.

(** ** Any sequence of buffer operations *)

Inductive buf_op :=
  | OpAlloc (len : Z) (os : option Z)
  | OpRealloc (len p : Z) (os : option Z)
  | OpRelease (p : Z).

Definition buf_exec (o : buf_op) (b : eduBuffs) (h : blocks) : option (eduBuffs * blocks) :=
  match o with
  | OpAlloc len os => let '(_, b, h) := allocBuff b h len os in Some (b, h)
  | OpRealloc len p os => '(_, b, h) ← reallocBuff b h len p os; Some (b, h)
  | OpRelease p => releaseBuff b h p
  end.

(** Lengths that stay below 2 GB when they are rounded, releases and growth of
    buffers that are handed out, and an allocator that answers with new blocks. *)
Definition buf_legal (o : buf_op) (b : eduBuffs) (h : blocks) : Prop :=
  match o with
  | OpAlloc len os => 0 <= len <= 2147482624 /\ fresh_block os h
  | OpRealloc len p os =>
      0 <= len <= 2147482624 /\ realloc_block p os h /\ is_Some (bf_allocMap b !! p)
  | OpRelease p => is_Some (bf_allocMap b !! p)
  end.

Fixpoint buf_run (ops : list buf_op) (b : eduBuffs) (h : blocks) : option (eduBuffs * blocks) :=
  match ops with
  | [] => Some (b, h)
  | o :: ops => '(b, h) ← buf_exec o b h; buf_run ops b h
  end.

Fixpoint legal_run (ops : list buf_op) (b : eduBuffs) (h : blocks) : Prop :=
  match ops with
  | [] => True
  | o :: ops =>
      buf_legal o b h /\
      match buf_exec o b h with Some (b, h) => legal_run ops b h | None => True end
  end.

#[global] Instance buf_legal_dec o b h : Decision (buf_legal o b h).
Proof. destruct o; apply _. Defined.

#[global] Instance legal_run_dec ops b h : Decision (legal_run ops b h).
Proof.
  revert b h. induction ops as [|o ops IH]; intros b h; simpl; [apply _|].
  destruct (buf_exec o b h) as [[b' h']|]; apply _.
Defined.

Lemma buf_exec_ok o b h qs :
  buf_sums b -> tight b -> blocks_ok (buf_owned b ++ qs) h -> buf_legal o b h ->
  exists b' h', buf_exec o b h = Some (b', h') /\ buf_sums b' /\ tight b' /\
    blocks_ok (buf_owned b' ++ qs) h' /\
    foreign (buf_owned b' ++ qs) h' = foreign (buf_owned b ++ qs) h.
Proof.
  intros Hb Ht Hok. pose proof (tight_roomy _ Ht) as Hr. destruct o as [len os|len p os|p]; simpl.
  - intros [Hl Hf]. destruct (allocBuff b h len os) as [[[[rc p] real] b'] h'] eqn:E.
    destruct (allocBuff_ok _ _ _ _ _ _ _ _ _ _ Hb Hr Hok Hf Hl E) as (?&?&?&?&?&_).
    exists b', h'. split_and!; auto.
  - intros (Hl & Hf & Hp).
    destruct (reallocBuff_ok _ _ _ _ _ _ Hb Hr Hok Hf Hl Hp)
      as (rc&q&real&b'&h'&->&?&?&?&?&?&_).
    exists b', h'. split_and!; auto.
  - intros [v Hv]. destruct (releaseBuff_ok _ _ _ _ _ Hb Hr Hok Hv) as (b'&h'&->&?&?&?&?&?&?).
    exists b', h'. split_and!; auto.
Qed.

Lemma buf_run_ok ops : forall b h qs,
  buf_sums b -> tight b -> blocks_ok (buf_owned b ++ qs) h -> legal_run ops b h ->
  exists b' h', buf_run ops b h = Some (b', h') /\ buf_sums b' /\ tight b' /\
    blocks_ok (buf_owned b' ++ qs) h' /\
    foreign (buf_owned b' ++ qs) h' = foreign (buf_owned b ++ qs) h.
Proof.
  induction ops as [|o ops IH]; intros b h qs Hb Ht Hok; simpl.
  { intros _. exists b, h. done. }
  intros [Hl Hrun]. destruct (buf_exec_ok _ _ _ _ Hb Ht Hok Hl) as (b1&h1&E&Hb1&Ht1&Hok1&Hf1).
  rewrite E in *. simpl. destruct (IH b1 h1 qs Hb1 Ht1 Hok1 Hrun) as (b2&h2&->&?&?&?&Hf2).
  exists b2, h2. split_and!; try done. by rewrite Hf2.
Qed.

(** C36: Whatever sequence of allocations of at most 2147482624 bytes, and of
    reallocations to at most as many bytes and releases of buffers that it was
    handed and has not given back, an executor performs, whatever malloc answers
    ([legal_run]; from 2147482625 bytes on the rounded length is no longer a
    positive 32-bit integer, and [releaseBuff_2GB] shows a total that is wrong):
    no block is released twice or while it
    is not live, the two maps and the two totals agree with the live buffers,
    the cache stays within 16 MB, and the blocks of others are untouched. *)
Theorem edu_buffers_accounted ops h :
  legal_run ops buffs_new h ->
  exists b h', buf_run ops buffs_new h = Some (b, h') /\ buf_inv b h' /\
    0 <= bf_totalCatchSize b <= EDU_MAX_CATCH_SIZE /\
    bf_totalMemSize b = i64 (sum_len (bf_catchMap b) + sum_alloc (bf_allocMap b)) /\
    foreign (buf_owned b) h' = h.
Proof.
  intros Hl. destruct (buf_new_inv h) as [Hb Hok].
  destruct (buf_run_ok ops buffs_new h [] Hb) as (b & h' & -> & Hb' & Ht & Hok' & Hf); try done.
  rewrite app_nil_r in *. exists b, h'. pose proof Hb' as [Hc _ Htc Htm]. split_and!; try done.
  - rewrite Htc. destruct Hc as (_ & Hc & _). by apply sum_len_nonneg.
  - rewrite Htc. done.
  - rewrite Hf. unfold foreign. simpl. set_solver.
Qed.

Lemma edu_buffers_accounted_witness :
  exists b h', buf_run [OpAlloc 100 (Some 8); OpAlloc 5000 (Some 16); OpRelease 8;
      OpAlloc 200 None; OpRealloc 9000 16 (Some 24)] buffs_new ∅ = Some (b, h') /\
    bf_totalMemSize b = 1024 + 9216 /\ h' = {[24; 8]}.
Proof.
  destruct (edu_buffers_accounted
    [OpAlloc 100 (Some 8); OpAlloc 5000 (Some 16); OpRelease 8;
     OpAlloc 200 None; OpRealloc 9000 16 (Some 24)] ∅) as (b & h' & E & _).
  { apply (bool_decide_unpack _). vm_compute. exact I. }
  exists b, h'. split; [exact E|]. vm_compute in E. injection E as <- <-. by split.
Defined.

(** [releaseBuff] keeps the length in a signed variable, so that the total of
    an executor that has released a buffer of 2 GB is off by 4 GB. *)
Lemma releaseBuff_2GB p :
  p <> NULL ->
  exists b h, buf_run [OpAlloc 2147483648 (Some p); OpRelease p] buffs_new ∅ = Some (b, h) /\
    bf_allocMap b = ∅ /\ bf_catchMap b = [] /\ bf_totalMemSize b = 4294967296.
Proof.
  intros Hp. simpl. unfold allocBuff. simpl. destruct (Z.eqb_spec p NULL) as [|_]; [done|].
  unfold releaseBuff. simpl. rewrite lookup_insert_eq.
  change (i32 (ossRoundUpToMultipleX 2147483648 EDU_MEM_ALIGMENT_SIZE)) with (-2147483648).
  change (EDU_MAX_CATCH_SIZE <? u32 (-2147483648)) with true. cbn iota.
  rewrite ossMemFree_live by (done || set_solver). simpl. eexists _, _. split; [done|]. simpl.
  split_and!; try done. by rewrite delete_insert_id.
Qed.
