(* ===== verification/PmdEDUClear.v ===== *)
(** * Clearing and deleting a control block, waiting for an event

    [clear] and the destructor release just the blocks a control block owns,
    each once; the waits keep the events they do not return. *)
From S2P Require Import Prelude.
From S2P Require Import OssMem.
From S2P Require Import PmdBase.
From S2P Require Import PmdEDU.
From S2P Require Import PmdEDUOk.
From Stdlib Require Import String.
#[local] Open Scope Z_scope.

(** ** Clearing and deleting a control block *)

Definition opt_block (p : Z) : list Z := if p =? NULL then [] else [p].

Definition data_of (t : pmdEDUMemTypes) (q : list pmdEDUEvent) : list Z :=
  flat_map (fun e => if bool_decide (ev_dataMemType e = t) then opt_block (ev_Data e) else []) q.

Definition cb_other (c : pmdEDUCB) : list Z :=
  data_of PMD_EDU_MEM_ALLOC (cb_queue c) ++ opt_block (cb_alignedMem c).

Definition cb_owned (c : pmdEDUCB) : list Z :=
  buf_owned (cb_buffs c) ++ cb_other c ++ opt_block (cb_errorBuff c).

(** A control block whose memory is in order: its blocks are live and
    distinct, and the events that carry one of its own buffers carry
    different ones. *)
Record cb_mem_ok (c : pmdEDUCB) (h : blocks) : Prop := mkCbMemOk {
  cm_sums : buf_sums (cb_buffs c);
  cm_roomy : roomy (cb_buffs c);
  cm_blocks : blocks_ok (cb_owned c) h;
  cm_self : NoDup (data_of PMD_EDU_MEM_SELF (cb_queue c));
  cm_self_alloc : forall p, p ∈ data_of PMD_EDU_MEM_SELF (cb_queue c) ->
    is_Some (bf_allocMap (cb_buffs c) !! p);
  cm_aligned : cb_alignedMem c = NULL -> cb_alignedMemSize c = 0
}.

Lemma pmdEduEventRelase_ok e b h qs :
  buf_sums b -> roomy b ->
  blocks_ok (buf_owned b ++ data_of PMD_EDU_MEM_ALLOC [e] ++ qs) h ->
  (forall p, p ∈ data_of PMD_EDU_MEM_SELF [e] -> is_Some (bf_allocMap b !! p)) ->
  exists e' b' h', pmdEduEventRelase e b h = Some (e', b', h') /\
    buf_sums b' /\ roomy b' /\ blocks_ok (buf_owned b' ++ qs) h' /\
    foreign (buf_owned b' ++ qs) h' =
      foreign (buf_owned b ++ data_of PMD_EDU_MEM_ALLOC [e] ++ qs) h /\
    (forall p, p ∉ data_of PMD_EDU_MEM_SELF [e] ->
       bf_allocMap b' !! p = bf_allocMap b !! p).
Proof.
  intros Hb Hr Hok Hs. unfold pmdEduEventRelase, data_of, opt_block in *. simpl in *.
  destruct (Z.eqb_spec (ev_Data e) NULL) as [Hd|Hd].
  { eexists _, _, _. split; [done|]. by destruct (bool_decide _). }
  destruct (ev_dataMemType e) eqn:Et; simpl in *.
  - eexists _, _, _. split; [done|]. done.
  - rewrite <- Permutation_middle in Hok. apply blocks_ok_cons in Hok as (?&?&?).
    rewrite ossMemFree_live by done. simpl. eexists _, _, _. split; [done|].
    split_and!; try done. by rewrite foreign_free, Permutation_middle.
  - destruct (Hs (ev_Data e)) as [v Hv]; [by left|].
    destruct (releaseBuff_ok b h (ev_Data e) v qs Hb Hr Hok Hv)
      as (b' & h' & -> & ? & ? & Ha & ? & ? & _). simpl.
    eexists _, _, _. split; [done|]. split_and!; try done.
    intros p Hp. rewrite Ha, lookup_delete_ne; [done|]. set_solver.
Qed.

Lemma data_of_cons t e q : data_of t (e :: q) = data_of t [e] ++ data_of t q.
Proof. unfold data_of. simpl. by rewrite app_nil_r. Qed.

Lemma drain_ok q : forall b h qs,
  buf_sums b -> roomy b ->
  blocks_ok (buf_owned b ++ data_of PMD_EDU_MEM_ALLOC q ++ qs) h ->
  NoDup (data_of PMD_EDU_MEM_SELF q) ->
  (forall p, p ∈ data_of PMD_EDU_MEM_SELF q -> is_Some (bf_allocMap b !! p)) ->
  exists b' h', drain q b h = Some (b', h') /\
    buf_sums b' /\ roomy b' /\ blocks_ok (buf_owned b' ++ qs) h' /\
    foreign (buf_owned b' ++ qs) h' =
      foreign (buf_owned b ++ data_of PMD_EDU_MEM_ALLOC q ++ qs) h.
Proof.
  induction q as [|e q IH]; intros b h qs Hb Hr Hok Hnd Hs.
  { exists b, h. done. }
  rewrite (data_of_cons PMD_EDU_MEM_ALLOC e q), <- app_assoc in *.
  rewrite (data_of_cons PMD_EDU_MEM_SELF e q) in *.
  apply NoDup_app in Hnd as (Hnd1 & Hnd2 & Hnd). rename Hnd2 into Hdis.
  destruct (pmdEduEventRelase_ok e b h (data_of PMD_EDU_MEM_ALLOC q ++ qs) Hb Hr Hok)
    as (e' & b1 & h1 & Heq & Hb1 & Hr1 & Hok1 & Hf1 & Ha1).
  { intros p Hp. apply Hs, elem_of_app. by left. }
  simpl drain. rewrite Heq. simpl.
  destruct (IH b1 h1 qs Hb1 Hr1 Hok1 Hnd) as (b2 & h2 & -> & Hb2 & Hr2 & Hok2 & Hf2).
  { intros p Hp. rewrite Ha1; [|intros Hp1; by apply (Hdis p)].
    apply Hs, elem_of_app. by right. }
  exists b2, h2. split_and!; try done. by rewrite Hf2.
Qed.

(** What [clear] makes of a control block. *)
Definition cleared (c : pmdEDUCB) : pmdEDUCB :=
  mkEDUCB (cb_eduID c) (cb_tid c) (cb_threadID c) (cb_status c) (cb_eduType c) false 0 0 ""
    (cb_session c) [] buffs_new (cb_errorBuff c) (cb_errorInfo c) NULL 0.

Lemma releaseAlignedBuff_ok c h qs :
  blocks_ok (opt_block (cb_alignedMem c) ++ qs) h ->
  (cb_alignedMem c = NULL -> cb_alignedMemSize c = 0) ->
  exists h', releaseAlignedBuff c h = Some (set_cb_aligned c NULL 0, h') /\
    blocks_ok qs h' /\ foreign qs h' = foreign (opt_block (cb_alignedMem c) ++ qs) h.
Proof.
  intros Hok Hz. unfold releaseAlignedBuff, opt_block in *.
  destruct (Z.eqb_spec (cb_alignedMem c) NULL) as [E|E].
  - exists h. split_and!; try done. specialize (Hz E). destruct c; simpl in *. by subst.
  - simpl in Hok. apply blocks_ok_cons in Hok as (?&?&?).
    rewrite ossMemFree_live by done. simpl. eexists. split; [done|]. split; [done|].
    by rewrite foreign_free.
Qed.

Lemma free_all_frame ps qs h :
  blocks_ok (ps ++ qs) h ->
  exists h', free_all ps h = Some h' /\ blocks_ok qs h' /\
    foreign qs h' = foreign (ps ++ qs) h.
Proof.
  intros Hok. apply blocks_ok_app in Hok as (Hp & Hq & Hd).
  rewrite free_all_ok by done. eexists. split; [done|]. split.
  - eapply blocks_ok_mono; [done|]. intros p Hpq Hh. apply elem_of_difference.
    split; [done|]. rewrite elem_of_list_to_set. intros Hpp. by apply (Hd p).
  - unfold foreign. rewrite list_to_set_app_L. set_solver.
Qed.

Lemma edu_clear_ok c h :
  cb_mem_ok c h ->
  exists h', edu_clear c h = Some (cleared c, h') /\
    blocks_ok (opt_block (cb_errorBuff c)) h' /\
    foreign (opt_block (cb_errorBuff c)) h' = foreign (cb_owned c) h.
Proof.
  intros [Hb Hr Hok Hs Hsa Hal]. unfold edu_clear, cb_owned, cb_other in *.
  rewrite <- app_assoc in *.
  destruct (drain_ok (cb_queue c) (cb_buffs c) h _ Hb Hr Hok Hs Hsa)
    as (b & h1 & -> & [Hc Ha Htc Htm] & Hr1 & Hok1 & Hf1). simpl.
  rewrite <- Hf1. clear Hf1 Hok Hs Hsa Hb Hr.
  set (c1 := set_cb_ctrl (set_cb_lock (set_cb_name (set_cb_count (set_cb_queue c []) 0) "") false) 0).
  assert (cb_alignedMem c1 = cb_alignedMem c /\ cb_alignedMemSize c1 = cb_alignedMemSize c)
    as [E1 E2] by (unfold c1; by destruct c).
  set (rest := map snd (bf_catchMap b) ++ std_keys (bf_allocMap b) ++ opt_block (cb_errorBuff c)).
  assert (buf_owned b ++ opt_block (cb_alignedMem c) ++ opt_block (cb_errorBuff c) ≡ₚ
          opt_block (cb_alignedMem c) ++ rest) as Hperm.
  { unfold rest, buf_owned. rewrite !app_assoc. apply Permutation_app_tail.
    rewrite <- (app_assoc (opt_block _)). apply Permutation_app_comm. }
  rewrite Hperm in Hok1. rewrite (foreign_perm _ _ h1 Hperm). clear Hperm. rewrite <- E1 in *. rewrite <- E2 in Hal.
  destruct (releaseAlignedBuff_ok c1 h1 rest Hok1 Hal) as (h2 & -> & Hok2 & <-). simpl.
  subst rest.
  destruct (free_all_frame _ _ _ Hok2) as (h3 & -> & Hok3 & <-). simpl.
  destruct (free_all_frame _ _ _ Hok3) as (h4 & -> & Hok4 & <-). simpl.
  exists h4. split_and!; [|done|done].
  rewrite Htc, Htm. fold (sum_len (bf_catchMap b)) (sum_alloc (bf_allocMap b)).
  rewrite Z.sub_diag, <- Z.sub_add_distr, i64_sub_l, Z.sub_diag.
  unfold c1. destruct c; reflexivity.
Qed.

Lemma cleared_mem_ok c h : blocks_ok (opt_block (cb_errorBuff c)) h -> cb_mem_ok (cleared c) h.
Proof.
  intros Hok. destruct (buf_new_inv h) as [Hb _]. split; simpl; try done; [constructor|].
  intros p Hp. by apply not_elem_of_nil in Hp.
Qed.

Lemma edu_delete_ok c h :
  cb_mem_ok c h -> pmdEDUCB_delete c h = Some (foreign (cb_owned c) h).
Proof.
  intros [Hb Hr Hok Hs Hsa Hal]. unfold pmdEDUCB_delete.
  assert (cb_owned c ≡ₚ opt_block (cb_errorBuff c) ++ cb_owned (set_cb_error c NULL)) as Hperm.
  { destruct c. unfold cb_owned. simpl. change (opt_block NULL) with (@nil Z).
    rewrite app_nil_r, (app_assoc (buf_owned _)). apply Permutation_app_comm. }
  rewrite Hperm in Hok |- *.
  assert (exists h', ossMemFree (cb_errorBuff c) h = Some h' /\
    blocks_ok (cb_owned (set_cb_error c NULL)) h' /\
    foreign (cb_owned (set_cb_error c NULL)) h' =
    foreign (opt_block (cb_errorBuff c) ++ cb_owned (set_cb_error c NULL)) h)
    as (h' & -> & Hok' & Hf).
  { unfold opt_block in *. destruct (Z.eqb_spec (cb_errorBuff c) NULL) as [E|E].
    - exists h. unfold ossMemFree. by rewrite E.
    - simpl in Hok. apply blocks_ok_cons in Hok as (?&?&?). rewrite ossMemFree_live by done.
      eexists. split; [done|]. split; [done|]. by rewrite foreign_free. }
  simpl. destruct (edu_clear_ok (set_cb_error c NULL) h') as (h2 & -> & _ & Hf2).
  { destruct c. split; done. }
  simpl. f_equal. rewrite <- Hf, <- Hf2. destruct c. unfold foreign. simpl. set_solver.
Qed.

(** C35: Deleting a control block releases every block it owns - its buffers in
    use and in the cache, the data its pending events carry, its aligned
    memory and its error text - each exactly once, and no other. *)
Theorem edu_delete_releases_all c h :
  cb_mem_ok c h -> pmdEDUCB_delete c h = Some (foreign (cb_owned c) h).
Proof. apply edu_delete_ok. Qed.

Definition cb_example : pmdEDUCB :=
  mkEDUCB 7 0 0 PMD_EDU_WAITING 3 false 0 0 "" None
    [mkEvent PMD_EDU_EVENT_MSG 0 PMD_EDU_MEM_ALLOC 40;
     mkEvent PMD_EDU_EVENT_MSG 0 PMD_EDU_MEM_SELF 8]
    (mkBuffs [(1024, 16)] {[8 := 2048]} 1024 3072) 24 "" 32 512.

Lemma edu_delete_releases_all_witness :
  pmdEDUCB_delete cb_example {[8; 16; 24; 32; 40; 48]} = Some {[48]}.
Proof.
  rewrite (edu_delete_releases_all cb_example).
  { reflexivity. }
  split; simpl.
  - split; simpl; [|by apply map_Forall_singleton|done|done].
    split; [|split]; [repeat constructor| |done].
    repeat constructor; simpl; unfold EDU_MAX_CATCH_SIZE; lia.
  - done.
  - split; [apply (bool_decide_unpack _); vm_compute; exact I|].
    apply (bool_decide_unpack _); vm_compute; exact I.
  - apply NoDup_singleton.
  - intros p Hp. apply list_elem_of_singleton in Hp as ->. by eexists.
  - done.
Defined.

(** ** Waiting for an event of one type *)

Lemma isInterrupted_queue c : cb_queue (isInterrupted c).2 = cb_queue c.
Proof.
  unfold isInterrupted. destruct (flag_set c _); [done|].
  destruct (cb_session c) as [[[cl it]|]|]; simpl; try done.
  destruct cl; [by destruct c|]. destruct it; by destruct c.
Qed.

Lemma waitEvent_queue c a ms rs o c' :
  waitEvent c a ms rs = Some (o, c') -> cb_queue c ++ a = option_list o ++ cb_queue c'.
Proof.
  unfold waitEvent.
  assert (forall s, cb_queue (set_cb_status c s) = cb_queue c) as Hq by by destruct c.
  set (c1 := if rs && _ then _ else c).
  assert (cb_queue c1 = cb_queue c) as -> by (unfold c1; destruct (rs && _); auto).
  destruct (cb_queue c ++ a) as [|e q] eqn:E.
  - destruct (ms <? 0); [done|]. intros [= <- <-]. simpl.
    apply app_eq_nil in E as [E _]. unfold c1. destruct (rs && _); rewrite ?Hq; done.
  - clearbody c1. intros [= <- <-]. simpl. f_equal. destruct (bool_decide _); [by destruct c1|].
    destruct rs; by destruct c1.
Qed.

Lemma wait_type_loop_keeps type rs arr : forall c ms tmp o c' tmp',
  wait_type_loop arr c type ms rs tmp = Some (o, c', tmp') ->
  (forall e, o = Some e -> ev_eventType e = type) /\
  exists used rest, arr = used ++ rest /\
    tmp ++ cb_queue c ++ mjoin used ≡ₚ option_list o ++ cb_queue c' ++ tmp'.
Proof.
  induction arr as [|a arr IH]; intros c ms tmp o c' tmp'; simpl.
  all: pose proof (isInterrupted_queue c) as Hq;
    destruct (isInterrupted c) as [intr c1]; simpl in Hq; rewrite <- Hq.
  all: destruct intr; [intros [= <- <- <-]; split; [done|]; exists [];
    eexists; split; [done|]; simpl; rewrite app_nil_r; apply Permutation_app_comm|].
  { done. }
  destruct (waitEvent c1 a _ rs) as [[oe c2]|] eqn:E; [|done]. simpl.
  apply waitEvent_queue in E. destruct oe as [e|]; simpl in E.
  - destruct (bool_decide_reflect (type = ev_eventType e)) as [Ht|Ht].
    + intros [= <- <- <-]. split; [intros ? [= <-]; done|]. exists [a], arr. split; [done|].
      simpl. rewrite app_nil_r, E. rewrite Permutation_app_comm. done.
    + intros H. apply IH in H as [Ho (used & rest & -> & Hp)]. split; [done|].
      exists (a :: used), rest. split; [done|]. rewrite <- Hp.
      replace (cb_queue (set_cb_count c2 (u64 (cb_processEventCount c2 - 1))))
        with (cb_queue c2) by by destruct c2.
      simpl. rewrite (app_assoc (cb_queue c1)), E, <- !app_assoc. done.
  - destruct (ms - _ <=? 0).
    + intros [= <- <- <-]. split; [done|]. exists [a], arr. split; [done|]. simpl.
      rewrite app_nil_r, E. apply Permutation_app_comm.
    + intros H. apply IH in H as [Ho (used & rest & -> & Hp)]. split; [done|].
      exists (a :: used), rest. split; [done|]. rewrite <- Hp. simpl.
      by rewrite (app_assoc (cb_queue c1)), E.
Qed.

(** With nothing more arriving, the loop ends: each wait takes an event off
    the queue or uses up waiting time. *)
Lemma wait_type_loop_ends type rs arr : forall c ms tmp,
  0 <= ms -> Forall (fun a => a = []) arr ->
  Z.of_nat (List.length (cb_queue c)) + ms / 1000 < Z.of_nat (List.length arr) ->
  is_Some (wait_type_loop arr c type ms rs tmp).
Proof.
  induction arr as [|a arr IH]; intros c ms tmp Hms Hf Hlen; simpl.
  { simpl in Hlen. pose proof (Z.div_pos ms 1000). lia. }
  apply Forall_cons in Hf as [-> Hf].
  pose proof (isInterrupted_queue c) as Hq. destruct (isInterrupted c) as [intr c1].
  simpl in Hq. rewrite <- Hq in Hlen. destruct intr; [by eexists|].
  set (wt := if ms <? 1000 then ms else 1000).
  assert (0 <= wt) by (unfold wt; zcase; lia).
  destruct (waitEvent c1 [] wt rs) as [[oe c2]|] eqn:E.
  2:{ exfalso. unfold waitEvent in E. destruct (_ ++ []); [|done].
      destruct (Z.ltb_spec wt 0); [lia|done]. }
  simpl. apply waitEvent_queue in E. rewrite app_nil_r in E. rewrite E in Hlen.
  simpl length in Hlen. destruct oe as [e|]; simpl in Hlen.
  - destruct (bool_decide _); [by eexists|]. apply IH; try done.
    destruct c2; simpl in *; lia.
  - destruct (Z.leb_spec (ms - wt) 0) as [Hle|Hgt]; [by eexists|]. apply IH; try done; [lia|].
    unfold wt in *. destruct (Z.ltb_spec ms 1000); [lia|].
    assert ((ms - 1000) / 1000 = ms / 1000 - 1) by
      (replace (ms - 1000) with (ms + (-1) * 1000) by lia; rewrite Z.div_add; lia). lia.
Qed.

(** The wait for one type of event loses no event: the queue and what
    arrives during the wait are, up to order, the event returned and the
    queue afterwards, and the event returned has the type asked for; and when
    nothing more arrives it returns, after at most one wait per event in the
    queue and one per second of waiting time. *)
Theorem edu_wait_type_keeps_events c arr type ms rs :
  (forall o c', waitEventType c arr type ms rs = Some (o, c') ->
    (forall e, o = Some e -> ev_eventType e = type) /\
    exists used rest, arr = used ++ rest /\
      cb_queue c ++ mjoin used ≡ₚ option_list o ++ cb_queue c') /\
  (Forall (fun a => a = []) arr ->
   Z.of_nat (List.length (cb_queue c)) + (if ms <? 0 then 2147483647 else ms) / 1000 <
     Z.of_nat (List.length arr) ->
   is_Some (waitEventType c arr type ms rs)).
Proof.
  unfold waitEventType. set (ms1 := if ms <? 0 then _ else ms).
  split.
  - intros o c'. destruct (wait_type_loop arr c type ms1 rs []) as [[[o1 c1] tmp]|] eqn:E; [|done].
    simpl. intros [= <- <-]. apply wait_type_loop_keeps in E as [Ho (used & rest & -> & Hp)].
    split; [done|]. exists used, rest. split; [done|]. simpl in Hp. rewrite Hp. by destruct c1.
  - intros Hf Hl. assert (0 <= ms1) by (unfold ms1; zcase; lia).
    destruct (wait_type_loop_ends type rs arr c ms1 [] ltac:(lia) Hf Hl) as [[[o1 c1] tmp] ->].
    by eexists.
Qed.

Lemma edu_wait_type_keeps_events_witness :
  exists c', waitEventType (postEvent cb_example (event_of PMD_EDU_EVENT_TIMEOUT))
    [[]; []; []; []] PMD_EDU_EVENT_TIMEOUT 10 true =
    Some (Some (event_of PMD_EDU_EVENT_TIMEOUT), c') /\
    cb_queue c' ≡ₚ cb_queue cb_example.
Proof.
  pose proof (edu_wait_type_keeps_events
    (postEvent cb_example (event_of PMD_EDU_EVENT_TIMEOUT)) [[]; []; []; []]
    PMD_EDU_EVENT_TIMEOUT 10 true) as [Hk Hr].
  destruct Hr as [[o c'] E]; [by repeat constructor|vm_compute; reflexivity|].
  destruct (Hk o c' E) as [_ _]. exists c'. rewrite E.
  vm_compute in E. injection E as <- <-. split; reflexivity.
Defined.
