(* ===== verification/PmdEDUMgr.v ===== *)
(** * The executor manager: [_pmdEDUMgr] (src/src/pmd/pmdEDUMgr.cpp)

    The manager keeps control blocks by address in two maps, those in use
    ([_mapRuns]) and those of the pool ([_mapIdles]).  The control blocks are
    a shared store: a pointer is an address, and using an address with no
    control block is undefined ([None]).  One definition is one section under
    the latch, or one function where it has a single section; PmdEDURun.v
    interleaves them.  The factory of entry points [f] does not change after
    start-up. *)
From S2P Require Import Prelude.
From S2P Require Import OssMem.
From S2P Require Import PmdBase.
From S2P Require Import PmdEDU.
From Stdlib Require Import String.
#[local] Open Scope Z_scope.

Definition SDB_EDU_INVAL_STATUS : Z := -12.
Definition SDB_QUIESCED : Z := -14.
Definition SDB_PMD_SESSION_NOT_EXIST : Z := -62.
Definition SDB_PMD_FORCE_SYSTEM_EDU : Z := -63.

Definition PMD_EDU_SYSTEM : Z := 1.
Definition PMD_EDU_USER : Z := 2.
Definition PMD_EDU_ALL : Z := Z.lor PMD_EDU_SYSTEM PMD_EDU_USER.
Definition OSS_ONE_SEC : Z := 1000.
Definition PMD_EDU_IDLE_MAX_TIME : Z := 1800 * OSS_ONE_SEC.
Definition PMD_EDU_IDLE_LOW_TIME : Z := 10 * OSS_ONE_SEC.
Definition PMD_EDU_IDLE_LOW_SIZE : Z := 10.

Record pmdEDUMgr := mkMgr {
  mg_EDUID : Z;
  mg_runs : gmap Z Z;
  mg_idles : gmap Z Z;
  mg_tid2edu : gmap Z Z;
  mg_system : gmap Z (gset Z);
  mg_isDestroyed : bool;
  mg_isQuiesced : bool;
  mg_maxPooled : Z;
  mg_monitor : bool;
  mg_ioServices : list Z
}.

(** The manager, the control blocks by address, the live memory blocks. *)
Record world := mkWorld { w_mgr : pmdEDUMgr; w_cbs : gmap Z pmdEDUCB; w_mem : blocks }.

Definition with_maps (m : pmdEDUMgr) (runs idles : gmap Z Z) : pmdEDUMgr :=
  mkMgr (mg_EDUID m) runs idles (mg_tid2edu m) (mg_system m) (mg_isDestroyed m)
    (mg_isQuiesced m) (mg_maxPooled m) (mg_monitor m) (mg_ioServices m).
Definition with_index (m : pmdEDUMgr) (tids : gmap Z Z) (sys : gmap Z (gset Z)) : pmdEDUMgr :=
  mkMgr (mg_EDUID m) (mg_runs m) (mg_idles m) tids sys (mg_isDestroyed m)
    (mg_isQuiesced m) (mg_maxPooled m) (mg_monitor m) (mg_ioServices m).
Definition with_next (m : pmdEDUMgr) (n : Z) : pmdEDUMgr :=
  mkMgr n (mg_runs m) (mg_idles m) (mg_tid2edu m) (mg_system m) (mg_isDestroyed m)
    (mg_isQuiesced m) (mg_maxPooled m) (mg_monitor m) (mg_ioServices m).
Definition with_flags (m : pmdEDUMgr) (destroyed quiesced : bool) (pooled : Z)
    (monitor : bool) (ios : list Z) : pmdEDUMgr :=
  mkMgr (mg_EDUID m) (mg_runs m) (mg_idles m) (mg_tid2edu m) (mg_system m) destroyed
    quiesced pooled monitor ios.

Definition PMD_MAX_POOLED_EDU_DFT : Z := 10.

Definition pmdEDUMgr_new : pmdEDUMgr :=
  mkMgr 1 ∅ ∅ ∅ ∅ false false PMD_MAX_POOLED_EDU_DFT false [].

Definition set_mgr (w : world) (m : pmdEDUMgr) : world := mkWorld m (w_cbs w) (w_mem w).
Definition set_cb (w : world) (p : Z) (c : pmdEDUCB) : world :=
  mkWorld (w_mgr w) (<[p := c]> (w_cbs w)) (w_mem w).

(** ** IO services *)

Definition addIOService (m : pmdEDUMgr) (s : Z) : pmdEDUMgr :=
  with_flags m (mg_isDestroyed m) (mg_isQuiesced m) (mg_maxPooled m) (mg_monitor m)
    (mg_ioServices m ++ [s]).

Fixpoint erase_first (s : Z) (l : list Z) : list Z :=
  match l with
  | [] => []
  | x :: l => if x =? s then l else x :: erase_first s l
  end.

Definition delIOSerivce (m : pmdEDUMgr) (s : Z) : pmdEDUMgr :=
  with_flags m (mg_isDestroyed m) (mg_isQuiesced m) (mg_maxPooled m) (mg_monitor m)
    (erase_first s (mg_ioServices m)).

Definition countIOService (m : pmdEDUMgr) : Z := u32 (Z.of_nat (List.length (mg_ioServices m))).

(** ** Flags *)

Definition setDestroyed (m : pmdEDUMgr) (b : bool) : pmdEDUMgr :=
  with_flags m b (mg_isQuiesced m) (mg_maxPooled m) (mg_monitor m) (mg_ioServices m).
Definition setQuiesced (m : pmdEDUMgr) (b : bool) : pmdEDUMgr :=
  with_flags m (mg_isDestroyed m) b (mg_maxPooled m) (mg_monitor m) (mg_ioServices m).
Definition setMaxPooledEDU (m : pmdEDUMgr) (n : Z) : pmdEDUMgr :=
  with_flags m (mg_isDestroyed m) (mg_isQuiesced m) n (mg_monitor m) (mg_ioServices m).
Definition signalMonitor (m : pmdEDUMgr) : pmdEDUMgr :=
  with_flags m (mg_isDestroyed m) (mg_isQuiesced m) (mg_maxPooled m) true (mg_ioServices m).

(** ** The map of system executors *)

Definition addToSystem (sys : gmap Z (gset Z)) (type id : Z) : gmap Z (gset Z) :=
  match sys !! type with
  | Some s => <[type := s ∪ {[id]}]> sys
  | None => <[type := {[id]}]> sys
  end.

Definition removeFromSystem (sys : gmap Z (gset Z)) (type id : Z) : gmap Z (gset Z) :=
  match sys !! type with
  | Some s =>
      let s := s ∖ {[id]} in
      if decide (s = ∅) then delete type sys else <[type := s]> sys
  | None => sys
  end.

(** [_systemSize]: of one type, or of all when it is -1. *)
Definition systemSize (sys : gmap Z (gset Z)) (type : Z) : Z :=
  if negb (-1 =? type)
  then match sys !! type with Some s => u32 (Z.of_nat (size s)) | None => 0 end
  else foldl (fun n t => u32 (n + Z.of_nat (size (default ∅ (sys !! t))))) 0 (std_keys sys).

Definition getFirstSystemEDU (m : pmdEDUMgr) (type : Z) : Z :=
  match mg_system m !! type with
  | Some s => default PMD_INVALID_EDUID (head (std_keys (gset_to_gmap tt s)))
  | None => PMD_INVALID_EDUID
  end.

Definition getSystemEDU (m : pmdEDUMgr) (type : Z) : gset Z := default ∅ (mg_system m !! type).

(** ** Sizes *)

Definition sizeRun (m : pmdEDUMgr) : Z := u32 (Z.of_nat (size (mg_runs m))).
Definition sizeIdle (m : pmdEDUMgr) : Z := u32 (Z.of_nat (size (mg_idles m))).
Definition sizeSystem (m : pmdEDUMgr) : Z := systemSize (mg_system m) (-1).
Definition sizeAll (m : pmdEDUMgr) : Z :=
  u32 (Z.of_nat (size (mg_runs m)) + Z.of_nat (size (mg_idles m))).

Definition calIdleLowSize (runSize sysSize poolSize : Z) : Z :=
  if (0 <? poolSize) && (runSize <? u32 (poolSize + sysSize)) then
    let poolSize := u32 (poolSize + sysSize) in
    if PMD_EDU_IDLE_LOW_SIZE <? u32 (poolSize - runSize) then PMD_EDU_IDLE_LOW_SIZE
    else u32 (poolSize - runSize)
  else 0.

(** ** Lookup *)

Definition getPtrByID (m : pmdEDUMgr) (id : Z) : option Z :=
  match mg_runs m !! id with Some p => Some p | None => mg_idles m !! id end.

(** [getEDU]: the control block of a thread. *)
Definition getPtrByTid (m : pmdEDUMgr) (tid : Z) : option Z :=
  id ← mg_tid2edu m !! tid; getPtrByID m id.

Definition getEDUTypeByID (w : world) (id : Z) : option Z :=
  match getPtrByID (w_mgr w) id with
  | None => Some PMD_EDU_MIN
  | Some p => c ← w_cbs w !! p; Some (cb_eduType c)
  end.

Definition isSystemEDU (w : world) (id : Z) : option bool :=
  match getPtrByID (w_mgr w) id with
  | None => Some false
  | Some p =>
      c ← w_cbs w !! p;
      Some (match mg_system (w_mgr w) !! cb_eduType c with
            | Some s => bool_decide (id ∈ s)
            | None => false
            end)
  end.

(** The control blocks of a map, in order: what the loops that read them all
    (dumps, thread identifiers, counts) dereference. *)
Fixpoint deref_all (ps : list Z) (cbs : gmap Z pmdEDUCB) : option (list pmdEDUCB) :=
  match ps with
  | [] => Some []
  | p :: ps => c ← cbs !! p; l ← deref_all ps cbs; Some (c :: l)
  end.

Definition map_ptrs (m : gmap Z Z) : list Z := omap (fun k => m !! k) (std_keys m).

Definition sizeByType (w : world) (type : Z) : option Z :=
  l ← deref_all (map_ptrs (mg_runs (w_mgr w))) (w_cbs w);
  Some (u32 (Z.of_nat (List.length (filter (fun c => cb_eduType c = type) l)))).

Definition sizeWithSession (w : world) : option Z :=
  l ← deref_all (map_ptrs (mg_runs (w_mgr w))) (w_cbs w);
  Some (u32 (Z.of_nat (List.length (filter (fun c => cb_session c <> None) l)))).

Definition dumpAbnormalEDU (w : world) : option Z :=
  l ← deref_all (map_ptrs (mg_runs (w_mgr w))) (w_cbs w);
  l' ← deref_all (map_ptrs (mg_idles (w_mgr w))) (w_cbs w);
  Some (u32 (Z.of_nat (List.length l) + Z.of_nat (List.length l'))).

Section factory.
Context (f : pmdEPFactory).

Definition isSystemCB (c : pmdEDUCB) : bool := ep_isSystemType f (cb_eduType c).

(** ** Control of user executors *)

(** The three functions look an executor up alike and then act on it. *)
Definition user_op (act : pmdEDUCB -> pmdEDUCB) (w : world) (id : Z) : option (Z * world) :=
  match mg_runs (w_mgr w) !! id with
  | Some p =>
      c ← w_cbs w !! p;
      if isSystemCB c || cb_isLocked c then Some (SDB_PMD_FORCE_SYSTEM_EDU, w)
      else Some (SDB_OK, set_cb w p (act c))
  | None =>
      match mg_idles (w_mgr w) !! id with
      | Some p => c ← w_cbs w !! p; Some (SDB_OK, set_cb w p (act c))
      | None => Some (SDB_PMD_SESSION_NOT_EXIST, w)
      end
  end.

Definition forceUserEDU : world -> Z -> option (Z * world) := user_op force.
Definition interruptUserEDU : world -> Z -> option (Z * world) := user_op interrupt.
Definition disconnectUserEDU : world -> Z -> option (Z * world) := user_op disconnect.

Definition postEDUPost (w : world) (id : Z) (e : pmdEDUEvent) : option (Z * world) :=
  match getPtrByID (w_mgr w) id with
  | None => Some (SDB_PMD_SESSION_NOT_EXIST, w)
  | Some p => c ← w_cbs w !! p; Some (SDB_OK, set_cb w p (postEvent c e))
  end.

Definition has_prop (property flag : Z) : bool := negb (Z.land flag property =? 0).

Definition run_selected (property : Z) (c : pmdEDUCB) : bool :=
  (has_prop property PMD_EDU_SYSTEM && isSystemCB c) ||
  (has_prop property PMD_EDU_USER && negb (isSystemCB c)).

Fixpoint force_loop (sel : pmdEDUCB -> bool) (ps : list Z) (cbs : gmap Z pmdEDUCB)
    : option (gmap Z pmdEDUCB) :=
  match ps with
  | [] => Some cbs
  | p :: ps =>
      c ← cbs !! p;
      force_loop sel ps (if sel c then <[p := force c]> cbs else cbs)
  end.

Definition forceEDUs (w : world) (property : Z) : option world :=
  cbs ← force_loop (run_selected property) (map_ptrs (mg_runs (w_mgr w))) (w_cbs w);
  cbs ← force_loop (fun _ => has_prop property PMD_EDU_USER)
          (map_ptrs (mg_idles (w_mgr w))) cbs;
  Some (mkWorld (w_mgr w) cbs (w_mem w)).

Definition getEDUCount (w : world) (property : Z) : option Z :=
  l ← deref_all (map_ptrs (mg_runs (w_mgr w))) (w_cbs w);
  Some (u32 (Z.of_nat (List.length (filter (fun c => run_selected property c = true) l)) +
             if has_prop property PMD_EDU_USER
             then Z.of_nat (size (mg_idles (w_mgr w))) else 0)).

(** ** Status *)

Definition waitEDU (c : pmdEDUCB) : Z * pmdEDUCB :=
  if PMD_IS_EDU_WAITING (cb_status c) then (SDB_OK, c)
  else if negb (PMD_IS_EDU_RUNNING (cb_status c)) && negb (PMD_IS_EDU_CREATING (cb_status c))
  then (SDB_EDU_INVAL_STATUS, c)
  else (SDB_OK, set_cb_status c PMD_EDU_WAITING).

Definition activateEDU (c : pmdEDUCB) : Z * pmdEDUCB :=
  if PMD_IS_EDU_RUNNING (cb_status c) then (SDB_OK, c)
  else if negb (PMD_IS_EDU_WAITING (cb_status c)) && negb (PMD_IS_EDU_CREATING (cb_status c))
  then (SDB_EDU_INVAL_STATUS, c)
  else (SDB_OK, set_cb_status c PMD_EDU_RUNNING).

(** The functions that take an identifier. *)
Definition status_by_id (op : pmdEDUCB -> Z * pmdEDUCB) (w : world) (id : Z)
    : option (Z * world) :=
  match mg_runs (w_mgr w) !! id with
  | Some p => c ← w_cbs w !! p; let '(rc, c) := op c in Some (rc, set_cb w p c)
  | None => Some (SDB_SYS, w)
  end.

Definition waitEDUById := status_by_id waitEDU.
Definition activateEDUById := status_by_id activateEDU.

Definition lockEDU (c : pmdEDUCB) : pmdEDUCB := set_cb_lock c true.
Definition unlockEDU (c : pmdEDUCB) : pmdEDUCB := set_cb_lock c false.

Definition setEDU (m : pmdEDUMgr) (tid id : Z) : pmdEDUMgr :=
  with_index m (<[tid := id]> (mg_tid2edu m)) (mg_system m).

(** ** Taking executors out of the maps *)

(** The loop that erases the first entry of an executor in [_mapTid2Edu]. *)
Fixpoint erase_tid (tids : list Z) (m : gmap Z Z) (id : Z) : gmap Z Z :=
  match tids with
  | [] => m
  | t :: tids =>
      match m !! t with
      | Some id' => if id' =? id then delete t m else erase_tid tids m id
      | None => erase_tid tids m id
      end
  end.

Definition postDestoryEDU (m : pmdEDUMgr) (c : pmdEDUCB) : pmdEDUMgr :=
  with_index m (erase_tid (std_keys (mg_tid2edu m)) (mg_tid2edu m) (cb_eduID c))
    (removeFromSystem (mg_system m) (cb_eduType c) (cb_eduID c)).

(** [forceDestory] up to its second latch: whether to go on. *)
Definition forceDestory_decide (w : world) (p idleTime : Z) : option bool :=
  c ← w_cbs w !! p;
  if (idleTime <=? PMD_EDU_IDLE_LOW_TIME) || PMD_IS_EDU_CREATING (cb_status c)
  then Some false
  else
    let m := w_mgr w in
    let maxPool := mg_maxPooled m in
    let idleLowSize := calIdleLowSize (sizeRun m) (sizeSystem m) maxPool in
    if sizeIdle m <? idleLowSize then Some false
    else if (u32 (u32 (sizeRun m + sizeIdle m) - sizeSystem m) <=? maxPool) &&
            (idleTime <=? PMD_EDU_IDLE_MAX_TIME) then Some false
    else Some true.

(** Its section under the latch: whether the control block was taken out, and
    is then deleted. *)
Definition forceDestory_erase (w : world) (p : Z) : option (bool * world) :=
  c ← w_cbs w !! p;
  let m := w_mgr w in
  let id := cb_eduID c in
  match mg_idles m !! id with
  | Some _ =>
      Some (true, set_mgr w (postDestoryEDU (with_maps m (mg_runs m) (delete id (mg_idles m))) c))
  | None =>
      match mg_runs m !! id with
      | Some _ =>
          if PMD_IS_EDU_CREATING (cb_status c) then Some (false, w)
          else Some (true, set_mgr w
                 (postDestoryEDU (with_maps m (delete id (mg_runs m)) (mg_idles m)) c))
      | None => Some (false, w)
      end
  end.

(** [SDB_OSS_DEL cb]. *)
Definition delete_cb (w : world) (p : Z) : option world :=
  c ← w_cbs w !! p;
  h ← pmdEDUCB_delete c (w_mem w);
  Some (mkWorld (w_mgr w) (delete p (w_cbs w)) h).

Definition forceDestory (w : world) (p idleTime : Z) : option (bool * world) :=
  go ← forceDestory_decide w p idleTime;
  if go : bool then
    '(destroyed, w) ← forceDestory_erase w p;
    if destroyed : bool then w ← delete_cb w p; Some (true, w) else Some (false, w)
  else Some (false, w).

(** [returnEDU] under the latch: whether the control block is to be deleted
    once the latch is released. *)
Definition returnEDU_latched (w : world) (p : Z) : option (bool * world) :=
  c ← w_cbs w !! p;
  let m := w_mgr w in
  let id := cb_eduID c in
  if PMD_IS_EDU_CREATING (cb_status c) then Some (false, w)
  else
    let toDestory :=
      isForced c || mg_isDestroyed m || cb_isLocked c || (0 =? mg_maxPooled m) ||
      match getItem f (cb_eduType c) with Some i => negb (isPoolable i) | None => true end in
    let '(toDestory, c, m) :=
      match mg_runs m !! id with
      | Some _ =>
          if toDestory then (true, c, with_maps m (delete id (mg_runs m)) (mg_idles m))
          else (false, set_cb_type (set_cb_status c PMD_EDU_IDLE) (status_code PMD_EDU_UNKNOW),
                with_maps m (delete id (mg_runs m)) (<[id := p]> (mg_idles m)))
      | None =>
          match mg_idles m !! id with
          | Some _ =>
              if toDestory then (true, c, with_maps m (mg_runs m) (delete id (mg_idles m)))
              else (false, c, m)
          | None => (true, c, m)
          end
      end in
    if toDestory : bool then Some (true, set_mgr w (postDestoryEDU m c))
    else
      '(c, h) ← edu_clear c (w_mem w);
      Some (false, mkWorld m (<[p := c]> (w_cbs w)) h).

Definition returnEDU (w : world) (p : Z) : option (bool * world) :=
  '(destroyed, w) ← returnEDU_latched w p;
  if destroyed : bool then w ← delete_cb w p; Some (true, w) else Some (false, w).

Definition findAndRemove (w : world) (id : Z) : option (option Z * world) :=
  let m := w_mgr w in
  match mg_idles m !! id with
  | Some p =>
      c ← w_cbs w !! p;
      Some (Some p, set_mgr w (postDestoryEDU (with_maps m (mg_runs m) (delete id (mg_idles m))) c))
  | None =>
      match mg_runs m !! id with
      | Some p =>
          c ← w_cbs w !! p;
          Some (Some p, set_mgr w
            (postDestoryEDU (with_maps m (delete id (mg_runs m)) (mg_idles m)) c))
      | None => Some (None, w)
      end
  end.

(** ** Starting executors *)

Definition getFromPool (w : world) (type : Z) : option (option Z * world) :=
  let m := w_mgr w in
  '(o, w) ←
    match head (std_keys (mg_idles m)) with
    | Some id =>
        p ← mg_idles m !! id;
        c ← w_cbs w !! p;
        Some (Some p, mkWorld
          (with_maps m (<[cb_eduID c := p]> (mg_runs m)) (delete id (mg_idles m)))
          (<[p := set_cb_status (set_cb_type c type) PMD_EDU_CREATING]> (w_cbs w)) (w_mem w))
    | None => Some (None, w)
    end;
  let m := w_mgr w in
  if sizeIdle m <? calIdleLowSize (sizeRun m) (sizeSystem m) (mg_maxPooled m)
  then Some (o, set_mgr w (signalMonitor m))
  else Some (o, w).

(** What [startEDU] does with a control block of the pool, once it is clear. *)
Definition startEDU_post (c : pmdEDUCB) (initName : option string) (args : Z) : pmdEDUCB :=
  let c := match initName with Some n => setName c n | None => c end in
  postEvent c (mkEvent PMD_EDU_EVENT_RESUME 0 PMD_EDU_MEM_NONE args).

(** The new control block and its section under the latch: [createNewEDU] ... *)
Definition createNewEDU_insert (w : world) (p type : Z) (isSystem : bool) (arg : Z)
    (initName : option string) (os : option Z) : Z * world :=
  let '(c, h) := pmdEDUCB_new type os (w_mem w) in
  let c := set_cb_status c PMD_EDU_CREATING in
  let c := match initName with Some n => setName c n | None => c end in
  let m := w_mgr w in
  let newID := mg_EDUID m in
  let c := postEvent (set_cb_id c newID)
             (mkEvent PMD_EDU_EVENT_RESUME 0 PMD_EDU_MEM_NONE arg) in
  let m := with_maps (with_next m (u64 (newID + 1))) (<[newID := p]> (mg_runs m)) (mg_idles m) in
  let m := if isSystem then with_index m (mg_tid2edu m) (addToSystem (mg_system m) type newID)
           else m in
  (newID, mkWorld m (<[p := c]> (w_cbs w)) h).

(** ... and [createIdleEDU]. *)
Definition createIdleEDU_insert (w : world) (p : Z) (os : option Z) : Z * world :=
  let '(c, h) := pmdEDUCB_new PMD_EDU_MIN os (w_mem w) in
  let c := set_cb_status c PMD_EDU_IDLE in
  let m := w_mgr w in
  let newID := mg_EDUID m in
  let m := with_maps (with_next m (u64 (newID + 1))) (mg_runs m) (<[newID := p]> (mg_idles m)) in
  (newID, mkWorld m (<[p := set_cb_id c newID]> (w_cbs w)) h).

(** The section under the latch when the thread could not be created. *)
Definition createNewEDU_undo (m : pmdEDUMgr) (type id : Z) (isSystem : bool) : pmdEDUMgr :=
  let m := with_maps m (delete id (mg_runs m)) (mg_idles m) in
  if isSystem then with_index m (mg_tid2edu m) (removeFromSystem (mg_system m) type id) else m.

Definition createIdleEDU_undo (m : pmdEDUMgr) (id : Z) : pmdEDUMgr :=
  with_maps m (mg_runs m) (delete id (mg_idles m)).

End factory.
