(* ===== verification/PmdEDURun.v ===== *)
(** * Executors at run time: the threads of [_pmdEDUMgr] interleaved
    (src/src/pmd/pmdEDUMgr.cpp)

    A configuration is the shared state with, for each control block, where
    its thread stands in [pmdEDUEntryPoint], and where each caller stands in
    [startEDU] and [createNewEDU] / [createIdleEDU].  A step is one section
    under the latch, or one access to a control block outside it.  The result
    of a step is [None] where the code would use a control block that was
    deleted, release a block twice, or call an entry point that does not
    exist.  [st_throw] is the entry point that ends with an exception.  The
    rules of [step] say what the operating system and the callers of the public
    functions may do. *)
From S2P Require Import Prelude.
From S2P Require Import OssMem.
From S2P Require Import PmdBase.
From S2P Require Import PmdEDU.
From S2P Require Import PmdEDUOk.
From S2P Require Import PmdEDUClear.
From S2P Require Import PmdEDUMgr.
From Stdlib Require Import String.
#[local] Open Scope Z_scope.

(** Where the thread of a control block stands in [pmdEDUEntryPoint]. *)
Inductive eduThread :=
  | ETStart
  | ETLoop (idleTime : Z)
  | ETIdle (idleTime : Z)
  | ETErase (idleTime : Z)
  | ETDelete
  | ETGot (e : pmdEDUEvent)
  | ETRun (e : pmdEDUEvent)
  | ETRelease (e : pmdEDUEvent)
  | ETReturn.

(** Where a caller stands: in [startEDU] with a control block of the pool,
    before and after it is cleared; in a creation, before the thread exists,
    and after that failed. *)
Inductive eduClient :=
  | CLGot (p : Z) (initName : option string) (args : Z)
  | CLClear (p : Z) (initName : option string) (args : Z)
  | CLNew (p id type : Z) (isSystem isIdle : bool)
  | CLFailed (p id type : Z) (isSystem isIdle : bool)
  | CLUndo (id type : Z) (isSystem isIdle : bool).

Record config := mkConfig {
  g_w : world;
  g_threads : gmap Z eduThread;
  g_clients : gmap Z eduClient
}.

Definition set_world (g : config) (w : world) : config :=
  mkConfig w (g_threads g) (g_clients g).
Definition set_thread (g : config) (w : world) (p : Z) (t : eduThread) : config :=
  mkConfig w (<[p := t]> (g_threads g)) (g_clients g).

(** The event a thread has taken off the queue and not yet released, and the
    control block as if it were still there: its data is still owned. *)
Definition held_events (t : option eduThread) : list pmdEDUEvent :=
  match t with
  | Some (ETGot e) | Some (ETRun e) | Some (ETRelease e) => [e]
  | _ => []
  end.

Definition full_cb (t : option eduThread) (c : pmdEDUCB) : pmdEDUCB :=
  set_cb_queue c (held_events t ++ cb_queue c).

(** ** The thread of an executor: [pmdEDUEntryPointWrapper] and
    [pmdEDUEntryPoint] *)

Section steps.
Context (f : pmdEPFactory).

(** Registering the thread; [tid] is the operating system's identifier. *)
Definition edu_attach (w : world) (p tid threadID : Z) : option world :=
  c ← w_cbs w !! p;
  Some (mkWorld (setEDU (w_mgr w) tid (cb_eduID c))
          (<[p := set_cb_thread c tid threadID]> (w_cbs w)) (w_mem w)).

(** [waitEvent] for one second. *)
Definition edu_wait (w : world) (p idleTime : Z) : option (world * eduThread) :=
  c ← w_cbs w !! p;
  '(o, c) ← waitEvent c [] OSS_ONE_SEC false;
  Some (set_cb w p c,
        match o with
        | Some e => ETGot e
        | None => ETIdle (u32 (idleTime + OSS_ONE_SEC))
        end).

(** What follows the receipt of an event, up to the entry point: calling an
    entry point that is not registered is undefined. *)
Definition edu_dispatch (w : world) (p : Z) (e : pmdEDUEvent) : option (world * eduThread) :=
  c ← w_cbs w !! p;
  match ev_eventType e with
  | PMD_EDU_EVENT_RESUME =>
      i ← getItem f (cb_eduType c);
      if ep_pFunc i =? 0 then None
      else Some (set_cb w p (waitEDU c).2, ETRun e)
  | _ => Some (w, ETRelease e)
  end.

(** The entry point has returned. *)
Definition edu_done (w : world) (p : Z) : option world :=
  c ← w_cbs w !! p; Some (set_cb w p (waitEDU c).2).

Definition edu_release (w : world) (p : Z) (e : pmdEDUEvent) : option world :=
  c ← w_cbs w !! p;
  '(_, b, h) ← pmdEduEventRelase e (cb_buffs c) (w_mem w);
  Some (mkWorld (w_mgr w) (<[p := set_cb_buffs c b]> (w_cbs w)) h).

(** What an entry point may do to the control block of its own thread: change
    its status between running and waiting, take events off its queue, use
    its buffers, lock and unlock itself.  It keeps its memory in order ([t]:
    its thread, which holds the event it was started with), and it does not
    resume itself. *)
Record edu_may (t : option eduThread) (c c' : pmdEDUCB) (h h' : blocks) : Prop := mkMay {
  may_id : cb_eduID c' = cb_eduID c;
  may_type : cb_eduType c' = cb_eduType c;
  may_status : cb_status c' = PMD_EDU_RUNNING \/ cb_status c' = PMD_EDU_WAITING;
  may_resume : Forall (fun e => ev_eventType e <> PMD_EDU_EVENT_RESUME) (cb_queue c');
  may_mem : cb_mem_ok (full_cb t c') h';
  may_foreign : foreign (cb_owned (full_cb t c')) h' = foreign (cb_owned (full_cb t c)) h
}.

(** ** Callers *)

(** [startEDU] clears a control block of the pool ... *)
Definition start_clear (w : world) (p : Z) : option world :=
  c ← w_cbs w !! p;
  '(c, h) ← edu_clear c (w_mem w);
  Some (mkWorld (w_mgr w) (<[p := c]> (w_cbs w)) h).

(** ... and posts the resume event. *)
Definition start_post (w : world) (p : Z) (initName : option string) (args : Z) : option world :=
  c ← w_cbs w !! p; Some (set_cb w p (startEDU_post c initName args)).

Definition undo_create (m : pmdEDUMgr) (id type : Z) (isSystem isIdle : bool) : pmdEDUMgr :=
  if isIdle then createIdleEDU_undo m id else createNewEDU_undo m type id isSystem.

(** What may go wrong around the manager: creating a thread fails
    ([ru_threadFails]); [activateEDU] and [waitEDU] are called with the
    identifier of an executor that is still being created ([ru_earlyStatus]);
    [postEDUPost] is called with any event at all ([ru_anyEvent]). *)
Record eduRules := mkRules {
  ru_threadFails : bool;
  ru_earlyStatus : bool;
  ru_anyEvent : bool
}.

(** None of them. *)
Definition orderly : eduRules := mkRules false false false.

(** The executor with an identifier is not one that is being created. *)
Definition not_creating (g : config) (id : Z) : Prop :=
  forall p c, mg_runs (w_mgr (g_w g)) !! id = Some p -> w_cbs (g_w g) !! p = Some c ->
    cb_status c <> PMD_EDU_CREATING.

(** Events that others post: not a resume event, and data that is a block
    nobody owns. *)
Definition post_legal (g : config) (e : pmdEDUEvent) : Prop :=
  ev_eventType e <> PMD_EDU_EVENT_RESUME /\ ev_dataMemType e <> PMD_EDU_MEM_SELF /\
  (ev_dataMemType e = PMD_EDU_MEM_ALLOC -> ev_Data e <> NULL ->
   ev_Data e ∈ w_mem (g_w g) /\
   forall p c, w_cbs (g_w g) !! p = Some c ->
     ev_Data e ∉ cb_owned (full_cb (g_threads g !! p) c)).

(** ** Steps *)

Inductive step (r : eduRules) (g : config) : option config -> Prop :=
  (** the thread of an executor *)
  | st_attach p tid threadID :
      g_threads g !! p = Some ETStart -> mg_tid2edu (w_mgr (g_w g)) !! tid = None ->
      step r g (w ← edu_attach (g_w g) p tid threadID; Some (set_thread g w p (ETLoop 0)))
  | st_wait p idle :
      g_threads g !! p = Some (ETLoop idle) ->
      step r g ('(w, t) ← edu_wait (g_w g) p idle; Some (set_thread g w p t))
  | st_decide p idle :
      g_threads g !! p = Some (ETIdle idle) ->
      step r g (go ← forceDestory_decide (g_w g) p idle;
                    Some (set_thread g (g_w g) p (if go : bool then ETErase idle else ETLoop idle)))
  | st_erase p idle :
      g_threads g !! p = Some (ETErase idle) ->
      step r g ('(d, w) ← forceDestory_erase (g_w g) p;
                    Some (set_thread g w p (if d : bool then ETDelete else ETLoop idle)))
  | st_delete p :
      g_threads g !! p = Some ETDelete ->
      step r g (w ← delete_cb (g_w g) p;
                    Some (mkConfig w (delete p (g_threads g)) (g_clients g)))
  | st_dispatch p e :
      g_threads g !! p = Some (ETGot e) ->
      step r g ('(w, t) ← edu_dispatch (g_w g) p e; Some (set_thread g w p t))
  | st_body p e c c' h' :
      g_threads g !! p = Some (ETRun e) -> w_cbs (g_w g) !! p = Some c ->
      edu_may (Some (ETRun e)) c c' (w_mem (g_w g)) h' ->
      step r g (Some (set_world g (mkWorld (w_mgr (g_w g)) (<[p := c']> (w_cbs (g_w g))) h')))
  | st_done p e :
      g_threads g !! p = Some (ETRun e) ->
      step r g (w ← edu_done (g_w g) p; Some (set_thread g w p (ETRelease e)))
  | st_throw p e c :
      g_threads g !! p = Some (ETRun e) -> w_cbs (g_w g) !! p = Some c ->
      step r g ('(o, w) ← findAndRemove (g_w g) (cb_eduID c);
                    Some (mkConfig w
                      (match o with
                       | Some p => <[p := ETDelete]> (g_threads g)
                       | None => delete p (g_threads g)
                       end) (g_clients g)))
  | st_release p e :
      g_threads g !! p = Some (ETRelease e) ->
      step r g (w ← edu_release (g_w g) p e; Some (set_thread g w p ETReturn))
  | st_return p :
      g_threads g !! p = Some ETReturn ->
      step r g ('(d, w) ← returnEDU_latched f (g_w g) p;
                    Some (set_thread g w p (if d : bool then ETDelete else ETLoop 0)))
  (** callers of [startEDU] *)
  | st_pool k type initName args i :
      g_clients g !! k = None -> getItem f type = Some i -> ep_pFunc i <> 0 ->
      ep_isSystem i = false ->
      step r g ('(o, w) ← getFromPool (g_w g) type;
                    Some (match o with
                          | Some p => mkConfig w (g_threads g)
                                        (<[k := CLGot p initName args]> (g_clients g))
                          | None => set_world g w
                          end))
  | st_clear k p initName args :
      g_clients g !! k = Some (CLGot p initName args) ->
      step r g (w ← start_clear (g_w g) p;
                    Some (mkConfig w (g_threads g) (<[k := CLClear p initName args]> (g_clients g))))
  | st_post k p initName args :
      g_clients g !! k = Some (CLClear p initName args) ->
      step r g (w ← start_post (g_w g) p initName args;
                    Some (mkConfig w (g_threads g) (delete k (g_clients g))))
  (** creation *)
  | st_new k p type i initName args os :
      g_clients g !! k = None -> w_cbs (g_w g) !! p = None ->
      getItem f type = Some i -> ep_pFunc i <> 0 -> fresh_block os (w_mem (g_w g)) ->
      mg_EDUID (w_mgr (g_w g)) < 18446744073709551615 ->
      step r g (let '(id, w) := createNewEDU_insert (g_w g) p type (ep_isSystem i) args
                                      initName os in
                    Some (mkConfig w (g_threads g)
                      (<[k := CLNew p id type (ep_isSystem i) false]> (g_clients g))))
  | st_newidle k p os :
      g_clients g !! k = None -> w_cbs (g_w g) !! p = None ->
      fresh_block os (w_mem (g_w g)) -> mg_EDUID (w_mgr (g_w g)) < 18446744073709551615 ->
      step r g (let '(id, w) := createIdleEDU_insert (g_w g) p os in
                    Some (mkConfig w (g_threads g)
                      (<[k := CLNew p id PMD_EDU_MIN false true]> (g_clients g))))
  | st_thread k p id type isSystem isIdle :
      g_clients g !! k = Some (CLNew p id type isSystem isIdle) ->
      step r g (Some (mkConfig (g_w g) (<[p := ETStart]> (g_threads g))
                            (delete k (g_clients g))))
  | st_thread_fails k p id type isSystem isIdle :
      ru_threadFails r = true -> g_clients g !! k = Some (CLNew p id type isSystem isIdle) ->
      step r g (Some (mkConfig (g_w g) (g_threads g)
                            (<[k := CLFailed p id type isSystem isIdle]> (g_clients g))))
  | st_fail_delete k p id type isSystem isIdle :
      g_clients g !! k = Some (CLFailed p id type isSystem isIdle) ->
      step r g (w ← delete_cb (g_w g) p;
                    Some (mkConfig w (g_threads g)
                            (<[k := CLUndo id type isSystem isIdle]> (g_clients g))))
  | st_fail_undo k id type isSystem isIdle :
      g_clients g !! k = Some (CLUndo id type isSystem isIdle) ->
      step r g (Some (mkConfig (set_mgr (g_w g)
                              (undo_create (w_mgr (g_w g)) id type isSystem isIdle))
                            (g_threads g) (delete k (g_clients g))))
  (** control by others *)
  | st_user act id :
      act = force \/ act = interrupt \/ act = disconnect ->
      step r g ('(_, w) ← user_op f act (g_w g) id; Some (set_world g w))
  | st_force_all property :
      step r g (w ← forceEDUs f (g_w g) property; Some (set_world g w))
  | st_status op id :
      op = waitEDU \/ op = activateEDU -> ru_earlyStatus r = true \/ not_creating g id ->
      step r g ('(_, w) ← status_by_id op (g_w g) id; Some (set_world g w))
  | st_event id e :
      ru_anyEvent r = true \/ post_legal g e ->
      step r g ('(_, w) ← postEDUPost (g_w g) id e; Some (set_world g w))
  | st_read :
      step r g (_ ← dumpAbnormalEDU (g_w g); Some g)
  | st_flags m' :
      m' = with_flags (w_mgr (g_w g)) (mg_isDestroyed m') (mg_isQuiesced m') (mg_maxPooled m')
             (mg_monitor m') (mg_ioServices m') ->
      step r g (Some (set_world g (set_mgr (g_w g) m'))).

(** The manager after [init], which gives the first identifier to the main
    executor. *)
Definition config_init (h : blocks) : config :=
  mkConfig (mkWorld (with_next pmdEDUMgr_new 2) ∅ h) ∅ ∅.

Inductive edu_reachable (r : eduRules) (h : blocks) : config -> Prop :=
  | er_init : edu_reachable r h (config_init h)
  | er_step g g' :
      edu_reachable r h g -> step r g (Some g') -> edu_reachable r h g'.

End steps.
