(* ===== verification/PmdEDURunOk.v ===== *)
(** * The invariant of the executors at run time

    Where a control block is (in use, in the pool, taken out), its status, the
    resume events that are on their way to it, the callers that are starting
    it and the place of its thread determine each other ([local_ok]); every
    step of PmdEDURun.v changes them together. *)
From S2P Require Import Prelude.
From S2P Require Import OssMem.
From S2P Require Import PmdBase.
From S2P Require Import PmdEDU.
From S2P Require Import PmdEDUOk.
From S2P Require Import PmdEDUClear.
From S2P Require Import PmdEDUMgr.
From S2P Require Import PmdEDURun.
From Stdlib Require Import String.
#[local] Open Scope Z_scope.

(** ** The invariant *)

Inductive place := InRuns | InIdles | Out.

Definition place_of (m : pmdEDUMgr) (p : Z) (c : pmdEDUCB) : place :=
  if decide (mg_runs m !! cb_eduID c = Some p) then InRuns
  else if decide (mg_idles m !! cb_eduID c = Some p) then InIdles else Out.

(** Resume events the thread has not yet acted on. *)
Definition is_resume (e : pmdEDUEvent) : Prop := ev_eventType e = PMD_EDU_EVENT_RESUME.

Definition pending (t : option eduThread) : list pmdEDUEvent :=
  match t with Some (ETGot e) => [e] | _ => [] end.

Definition resumes (t : option eduThread) (c : pmdEDUCB) : nat :=
  List.length (filter is_resume (pending t ++ cb_queue c)).

(** Callers of [startEDU] that have taken a control block from the pool. *)
Definition starter_of (cl : eduClient) : option Z :=
  match cl with CLGot p _ _ | CLClear p _ _ => Some p | _ => None end.

Definition starters (K : gmap Z eduClient) (p : Z) : nat :=
  size (filter (fun kc => starter_of kc.2 = Some p) K).

(** Threads that are not in an entry point, and threads that are in it or have
    come back from it and not yet handed their executor back. *)
Definition calm (t : option eduThread) : Prop :=
  match t with Some (ETRun _) | Some ETDelete => False | _ => True end.
Definition busy (t : option eduThread) : Prop :=
  match t with Some (ETRun _) | Some (ETRelease _) | Some ETReturn => True | _ => False end.

Definition no_self (t : option eduThread) (c : pmdEDUCB) : Prop :=
  data_of PMD_EDU_MEM_SELF (cb_queue (full_cb t c)) = [].

Section invariant.
Context (f : pmdEPFactory).

Definition registered (c : pmdEDUCB) : Prop :=
  exists i, getItem f (cb_eduType c) = Some i /\ ep_pFunc i <> 0.

Inductive local_ok (t : option eduThread) (c : pmdEDUCB) (n : nat) : place -> Prop :=
  | lo_out : t = Some ETDelete -> n = O -> local_ok t c n Out
  | lo_idle :
      cb_status c = PMD_EDU_IDLE -> resumes t c = O -> n = O -> calm t -> no_self t c ->
      local_ok t c n InIdles
  | lo_creating :
      cb_status c = PMD_EDU_CREATING -> (resumes t c + n = 1)%nat -> calm t -> no_self t c ->
      registered c -> (n = 1%nat -> isSystemCB f c = false) -> local_ok t c n InRuns
  | lo_active :
      cb_status c = PMD_EDU_RUNNING \/ cb_status c = PMD_EDU_WAITING ->
      resumes t c = O -> n = O -> busy t -> registered c -> local_ok t c n InRuns.

(** The maps hold live control blocks under their identifiers. *)
Record maps_ok (m : pmdEDUMgr) (C : gmap Z pmdEDUCB) : Prop := mkMapsOk {
  mo_runs : forall id p, mg_runs m !! id = Some p -> exists c, C !! p = Some c /\ cb_eduID c = id;
  mo_idles : forall id p, mg_idles m !! id = Some p -> exists c, C !! p = Some c /\ cb_eduID c = id;
  mo_disj : forall id, is_Some (mg_runs m !! id) -> mg_idles m !! id = None;
  mo_ids : forall p c, C !! p = Some c -> 0 < cb_eduID c < mg_EDUID m;
  mo_inj : forall p q c d, C !! p = Some c -> C !! q = Some d ->
    cb_eduID c = cb_eduID d -> p = q;
  mo_next : 0 < mg_EDUID m
}.

(** The system map lists just the executors in use whose type is a system
    type; the thread map lists executors of the two maps, each once. *)
Definition system_run (m : pmdEDUMgr) (C : gmap Z pmdEDUCB) (t id : Z) : Prop :=
  exists p c, mg_runs m !! id = Some p /\ C !! p = Some c /\ cb_eduType c = t /\
    isSystemCB f c = true.

Record index_ok (m : pmdEDUMgr) (C : gmap Z pmdEDUCB) : Prop := mkIndexOk {
  ix_system : forall t id, id ∈ getSystemEDU m t <-> system_run m C t id;
  ix_nonempty : forall t s, mg_system m !! t = Some s -> s <> ∅;
  ix_tid : forall tid id, mg_tid2edu m !! tid = Some id -> is_Some (getPtrByID m id);
  ix_tid_inj : forall tid tid' id, mg_tid2edu m !! tid = Some id ->
    mg_tid2edu m !! tid' = Some id -> tid = tid'
}.

(** An executor is in the thread map from when its thread has registered. *)
Definition attached (m : pmdEDUMgr) (C : gmap Z pmdEDUCB) (T : gmap Z eduThread) : Prop :=
  forall tid id, mg_tid2edu m !! tid = Some id ->
    exists p c t, C !! p = Some c /\ cb_eduID c = id /\ T !! p = Some t /\ t <> ETStart.

(** Threads and callers name live control blocks. *)
Record roles_ok (C : gmap Z pmdEDUCB) (T : gmap Z eduThread) (K : gmap Z eduClient) : Prop :=
  mkRolesOk {
  rl_thread : forall p t, T !! p = Some t -> is_Some (C !! p);
  rl_cb : forall p c, C !! p = Some c -> T !! p = None ->
    exists k id ty s i, K !! k = Some (CLNew p id ty s i);
  rl_starter : forall k cl p, K !! k = Some cl -> starter_of cl = Some p -> is_Some (C !! p);
  rl_new : forall k p id ty s i, K !! k = Some (CLNew p id ty s i) ->
    is_Some (C !! p) /\ T !! p = None;
  rl_new_inj : forall k k' p id ty s i id' ty' s' i', K !! k = Some (CLNew p id ty s i) ->
    K !! k' = Some (CLNew p id' ty' s' i') -> k = k';
  rl_fails : forall k cl, K !! k = Some cl ->
    match cl with CLFailed _ _ _ _ _ | CLUndo _ _ _ _ => False | _ => True end
}.

(** The memory of each control block is in order, and no block has two
    owners. *)
Record mem_ok (C : gmap Z pmdEDUCB) (T : gmap Z eduThread) (h : blocks) : Prop := mkMemOk {
  me_cb : forall p c, C !! p = Some c -> cb_mem_ok (full_cb (T !! p) c) h;
  me_disj : forall p q c d x, C !! p = Some c -> C !! q = Some d -> p <> q ->
    x ∈ cb_owned (full_cb (T !! p) c) -> x ∉ cb_owned (full_cb (T !! q) d)
}.

Definition local_all (m : pmdEDUMgr) (C : gmap Z pmdEDUCB) (T : gmap Z eduThread)
    (K : gmap Z eduClient) : Prop :=
  forall p c, C !! p = Some c -> local_ok (T !! p) c (starters K p) (place_of m p c).

Record config_ok (g : config) : Prop := mkConfigOk {
  ok_maps : maps_ok (w_mgr (g_w g)) (w_cbs (g_w g));
  ok_index : index_ok (w_mgr (g_w g)) (w_cbs (g_w g));
  ok_attached : attached (w_mgr (g_w g)) (w_cbs (g_w g)) (g_threads g);
  ok_roles : roles_ok (w_cbs (g_w g)) (g_threads g) (g_clients g);
  ok_mem : mem_ok (w_cbs (g_w g)) (g_threads g) (w_mem (g_w g));
  ok_local : local_all (w_mgr (g_w g)) (w_cbs (g_w g)) (g_threads g) (g_clients g)
}.

Lemma config_init_ok h : config_ok (config_init h).
Proof.
  split; [split|split|intros tid id|split|split|intros p c]; simpl; intros *; unfold getSystemEDU; simpl;
    rewrite ?lookup_empty; try done.
  split; [done|]. intros (p & c & H & _). simpl in H. by rewrite lookup_empty in H.
Qed.

(** ** Changing one control block in place

    [C'], [T'] and the starters differ from [C], [T] at [p0] only, and the
    maps at the identifier of [p0] only. *)

Definition maps_off (id0 : Z) (m m' : pmdEDUMgr) : Prop :=
  mg_EDUID m' = mg_EDUID m /\
  forall id, id <> id0 -> mg_runs m' !! id = mg_runs m !! id /\
                          mg_idles m' !! id = mg_idles m !! id.

Lemma place_of_off id0 m m' p c :
  maps_off id0 m m' -> cb_eduID c <> id0 -> place_of m' p c = place_of m p c.
Proof. intros [_ H] Hne. unfold place_of. by destruct (H _ Hne) as [-> ->]. Qed.

Lemma update_maps m m' C p0 c0 c1 :
  maps_ok m C -> C !! p0 = Some c0 -> cb_eduID c1 = cb_eduID c0 ->
  maps_off (cb_eduID c0) m m' ->
  (forall p, mg_runs m' !! cb_eduID c0 = Some p -> p = p0 /\ mg_idles m' !! cb_eduID c0 = None) ->
  (forall p, mg_idles m' !! cb_eduID c0 = Some p -> p = p0) ->
  maps_ok m' (<[p0 := c1]> C).
Proof.
  intros [Hr Hi Hd Hid Hinj Hnx] H0 Hsame [Hn Hoff] Hr0 Hi0. split; [| | | | |by rewrite Hn].
  - intros id p Hp. destruct (decide (id = cb_eduID c0)) as [->|Hne].
    + destruct (Hr0 _ Hp) as [-> _]. exists c1. by rewrite lookup_insert_eq.
    + rewrite (proj1 (Hoff _ Hne)) in Hp. destruct (Hr _ _ Hp) as (c & Hc & <-).
      exists c. rewrite lookup_insert_ne; [done|]. intros <-. congruence.
  - intros id p Hp. destruct (decide (id = cb_eduID c0)) as [->|Hne].
    + rewrite (Hi0 _ Hp). exists c1. by rewrite lookup_insert_eq.
    + rewrite (proj2 (Hoff _ Hne)) in Hp. destruct (Hi _ _ Hp) as (c & Hc & <-).
      exists c. rewrite lookup_insert_ne; [done|]. intros <-. congruence.
  - intros id [p Hp]. destruct (decide (id = cb_eduID c0)) as [->|Hne].
    + by destruct (Hr0 _ Hp).
    + destruct (Hoff _ Hne) as [Hx Hy]. rewrite Hy. apply Hd. rewrite <- Hx. eauto.
  - intros p c. rewrite Hn. rewrite lookup_insert_Some. intros [[<- <-]|[_ Hc]]; [|eauto].
    rewrite Hsame. eauto.
  - intros p q c d. rewrite !lookup_insert_Some.
    intros [[<- <-]|[? Hc]] [[<- <-]|[? Hq]] He; try done.
    + rewrite Hsame in He. by eapply Hinj.
    + rewrite Hsame in He. by eapply Hinj.
    + by eapply Hinj.
Qed.

Lemma update_local m m' C T T' K K' p0 c0 c1 :
  maps_ok m C -> local_all m C T K -> C !! p0 = Some c0 -> cb_eduID c1 = cb_eduID c0 ->
  maps_off (cb_eduID c0) m m' ->
  (forall p, p <> p0 -> T' !! p = T !! p) ->
  (forall p, p <> p0 -> starters K' p = starters K p) ->
  local_ok (T' !! p0) c1 (starters K' p0) (place_of m' p0 c1) ->
  local_all m' (<[p0 := c1]> C) T' K'.
Proof.
  intros Hm Hl H0 Hsame Hoff HT HK H1 p c. rewrite lookup_insert_Some.
  intros [[<- <-]|[Hne Hc]]; [done|]. rewrite HT, HK by done.
  rewrite (place_of_off _ _ _ _ _ Hoff); [by apply Hl|].
  intros He. apply Hne. symmetry. by eapply (mo_inj _ _ Hm).
Qed.

Lemma update_mem C T T' h h' p0 c0 c1 :
  mem_ok C T h -> C !! p0 = Some c0 ->
  (forall p, p <> p0 -> T' !! p = T !! p) ->
  cb_mem_ok (full_cb (T' !! p0) c1) h' ->
  foreign (cb_owned (full_cb (T !! p0) c0)) h ⊆ foreign (cb_owned (full_cb (T' !! p0) c1)) h' ->
  mem_ok (<[p0 := c1]> C) T' h'.
Proof.
  intros [Hc Hd] H0 HT H1 Hsub.
  assert (forall q d x, C !! q = Some d -> q <> p0 -> x ∈ cb_owned (full_cb (T !! q) d) ->
    x ∈ h' /\ x ∉ cb_owned (full_cb (T' !! p0) c1)) as Hother.
  { intros q d x Hq Hne Hx.
    assert (x ∈ foreign (cb_owned (full_cb (T !! p0) c0)) h) as Hf.
    { apply elem_of_foreign. split; [|by eapply Hd].
      pose proof (cm_blocks _ _ (Hc _ _ Hq)) as [_ Hf]. rewrite Forall_forall in Hf.
      by apply Hf. }
    apply Hsub in Hf. by apply elem_of_foreign in Hf. }
  split.
  - intros p c. rewrite lookup_insert_Some. intros [[<- <-]|[Hne Hp]]; [done|].
    rewrite HT by done. destruct (Hc _ _ Hp) as [? ? Hb ? ? ?]. split; try done.
    eapply blocks_ok_mono; [done|]. intros x Hx _. by destruct (Hother p c x).
  - intros p q c d x. rewrite !lookup_insert_Some.
    intros [[<- <-]|[Hn Hp]] [[<- <-]|[Hn' Hq]] Hpq; try done.
    + intros Hx Hx'. rewrite HT in Hx' by done. by destruct (Hother q d x).
    + rewrite HT by done. intros Hx. by destruct (Hother p c x).
    + rewrite !HT by done. by eapply Hd.
Qed.


(** A change of the control block at [p0] with the maps at its identifier. *)
Lemma cb_step_ok g m' c0 c1 h' T' K' p0 :
  config_ok g -> w_cbs (g_w g) !! p0 = Some c0 -> cb_eduID c1 = cb_eduID c0 ->
  maps_off (cb_eduID c0) (w_mgr (g_w g)) m' ->
  (forall p, mg_runs m' !! cb_eduID c0 = Some p -> p = p0 /\ mg_idles m' !! cb_eduID c0 = None) ->
  (forall p, mg_idles m' !! cb_eduID c0 = Some p -> p = p0) ->
  (forall p, p <> p0 -> T' !! p = g_threads g !! p) ->
  (forall p, p <> p0 -> starters K' p = starters (g_clients g) p) ->
  index_ok m' (<[p0 := c1]> (w_cbs (g_w g))) ->
  attached m' (<[p0 := c1]> (w_cbs (g_w g))) T' ->
  roles_ok (<[p0 := c1]> (w_cbs (g_w g))) T' K' ->
  cb_mem_ok (full_cb (T' !! p0) c1) h' ->
  foreign (cb_owned (full_cb (g_threads g !! p0) c0)) (w_mem (g_w g)) ⊆
    foreign (cb_owned (full_cb (T' !! p0) c1)) h' ->
  local_ok (T' !! p0) c1 (starters K' p0) (place_of m' p0 c1) ->
  config_ok (mkConfig (mkWorld m' (<[p0 := c1]> (w_cbs (g_w g))) h') T' K').
Proof.
  intros [Hm Hx Hat Hr Hme Hl] H0 Hid Hoff Hr0 Hi0 HT HK Hx' Hat' Hro Hmem Hfo Hlo.
  split; simpl; try done.
  - by eapply update_maps.
  - by eapply update_mem.
  - by eapply update_local.
Qed.

Lemma maps_same m C p0 c0 :
  maps_ok m C -> C !! p0 = Some c0 ->
  maps_off (cb_eduID c0) m m /\
  (forall p, mg_runs m !! cb_eduID c0 = Some p -> p = p0 /\ mg_idles m !! cb_eduID c0 = None) /\
  (forall p, mg_idles m !! cb_eduID c0 = Some p -> p = p0).
Proof.
  intros Hm H0. split; [done|]. split.
  - intros p Hp. split; [|apply (mo_disj _ _ Hm); eauto].
    destruct (mo_runs _ _ Hm _ _ Hp) as (c & Hc & He). by eapply (mo_inj _ _ Hm).
  - intros p Hp. destruct (mo_idles _ _ Hm _ _ Hp) as (c & Hc & He).
    by eapply (mo_inj _ _ Hm).
Qed.

(** *** The indexes *)

Lemma index_same m C p0 c0 c1 :
  index_ok m C -> C !! p0 = Some c0 ->
  isSystemCB f c1 = isSystemCB f c0 ->
  (isSystemCB f c0 = true -> cb_eduType c1 = cb_eduType c0) ->
  index_ok m (<[p0 := c1]> C).
Proof.
  intros [Hs Hne Ht Hti] H0 Hsys Hty. split; try done. intros t id. rewrite Hs.
  unfold system_run. split.
  - intros (p & c & Hr & Hc & <- & Hsc). exists p.
    destruct (decide (p = p0)) as [->|Hn].
    + rewrite H0 in Hc. injection Hc as <-. exists c1. rewrite lookup_insert_eq.
      split_and!; try done; [auto|congruence].
    + exists c. by rewrite lookup_insert_ne.
  - intros (p & c & Hr & Hc & <- & Hsc). exists p.
    apply lookup_insert_Some in Hc as [[<- <-]|[Hn Hc]].
    + exists c0. rewrite Hsys in Hsc. rewrite Hty by done. done.
    + by exists c.
Qed.

Lemma system_run_off m m' C C' p0 id0 t id :
  (forall id, id <> id0 -> mg_runs m' !! id = mg_runs m !! id) ->
  (forall p, p <> p0 -> C' !! p = C !! p) ->
  (forall id, mg_runs m !! id = Some p0 -> id = id0) ->
  id <> id0 -> system_run m' C' t id <-> system_run m C t id.
Proof.
  intros Hr Hc Hp Hne. unfold system_run. rewrite Hr by done.
  split; intros (p & c & H1 & H2 & H3); exists p, c;
    (assert (p <> p0) by (intros ->; by apply Hne, Hp)); rewrite Hc in *; done.
Qed.

Lemma index_change m m' C C' p0 id0 :
  index_ok m C ->
  (forall id, id <> id0 -> mg_runs m' !! id = mg_runs m !! id) ->
  (forall p, p <> p0 -> C' !! p = C !! p) ->
  (forall id, mg_runs m !! id = Some p0 -> id = id0) ->
  (forall t id, id <> id0 -> id ∈ getSystemEDU m' t <-> id ∈ getSystemEDU m t) ->
  (forall t, id0 ∈ getSystemEDU m' t <-> system_run m' C' t id0) ->
  (forall t s, mg_system m' !! t = Some s -> s <> ∅) ->
  (forall tid id, mg_tid2edu m' !! tid = Some id -> is_Some (getPtrByID m' id)) ->
  (forall tid tid' id, mg_tid2edu m' !! tid = Some id ->
    mg_tid2edu m' !! tid' = Some id -> tid = tid') ->
  index_ok m' C'.
Proof.
  intros Hx Hr Hc Hp Hs Hs0 Hne Ht Hti. split; try done. intros t id.
  destruct (decide (id = id0)) as [->|Hn]; [done|].
  rewrite Hs by done. rewrite (ix_system _ _ Hx). symmetry. by eapply system_run_off.
Qed.

Lemma elem_addToSystem sys ty i t id :
  id ∈ default ∅ (addToSystem sys ty i !! t) <->
  id ∈ default ∅ (sys !! t) \/ (t = ty /\ id = i).
Proof.
  unfold addToSystem. destruct (sys !! ty) as [s|] eqn:E;
    (destruct (decide (t = ty)) as [->|Hn];
     [rewrite lookup_insert_eq, ?E|rewrite lookup_insert_ne by done]); simpl; set_solver.
Qed.

Lemma elem_removeFromSystem sys ty i t id :
  id ∈ default ∅ (removeFromSystem sys ty i !! t) <->
  id ∈ default ∅ (sys !! t) /\ ~ (t = ty /\ id = i).
Proof.
  unfold removeFromSystem. destruct (sys !! ty) as [s|] eqn:E.
  - destruct (decide (s ∖ {[i]} = ∅)) as [He|He]; destruct (decide (t = ty)) as [->|Hn].
    + rewrite lookup_delete_eq, E. simpl. set_solver.
    + rewrite lookup_delete_ne by done. naive_solver.
    + rewrite lookup_insert_eq, E. simpl. set_solver.
    + rewrite lookup_insert_ne by done. naive_solver.
  - split; [|naive_solver]. intros H. split; [done|]. intros [-> ->]. by rewrite E in H.
Qed.

Lemma removeFromSystem_nonempty sys ty i :
  (forall t s, sys !! t = Some s -> s <> ∅) ->
  forall t s, removeFromSystem sys ty i !! t = Some s -> s <> ∅.
Proof.
  intros H t s. unfold removeFromSystem. destruct (sys !! ty) as [s0|]; [|eauto].
  destruct (decide _).
  - rewrite lookup_delete_Some. naive_solver.
  - rewrite lookup_insert_Some. naive_solver.
Qed.

Lemma addToSystem_nonempty sys ty i :
  (forall t s, sys !! t = Some s -> s <> ∅) ->
  forall t s, addToSystem sys ty i !! t = Some s -> s <> ∅.
Proof.
  intros H t s. unfold addToSystem.
  destruct (sys !! ty) as [s0|]; rewrite lookup_insert_Some; intros [[<- <-]|[? ?]]; [set_solver|eauto|set_solver|eauto].
Qed.

(** The loop over the thread map finds the entry of the executor wherever it
    is. *)
Lemma erase_tid_spec ks : forall M id t,
  (forall a b i, M !! a = Some i -> M !! b = Some i -> a = b) ->
  (forall a, M !! a = Some id -> a ∈ ks) ->
  erase_tid ks M id !! t = if decide (M !! t = Some id) then None else M !! t.
Proof.
  induction ks as [|k ks IH]; intros M id t Hinj Hin; simpl.
  { destruct (decide _) as [E|]; [|done]. by apply Hin, not_elem_of_nil in E. }
  assert (M !! k <> Some id -> forall a, M !! a = Some id -> a ∈ ks) as Hks.
  { intros Hk a Ha. specialize (Hin a Ha). apply elem_of_cons in Hin as [->|]; [congruence|done]. }
  destruct (M !! k) as [i|] eqn:E.
  - destruct (Z.eqb_spec i id) as [->|Hn].
    + destruct (decide (t = k)) as [->|Htk].
      * by rewrite lookup_delete_eq, E, decide_True.
      * rewrite lookup_delete_ne by done.
        destruct (decide _) as [E2|]; [|done]. destruct Htk. by eapply Hinj.
    + apply IH; [done|]. apply Hks. congruence.
  - apply IH; [done|]. by apply Hks.
Qed.


(** *** Memory of a control block and its held event *)

Lemma full_cb_nil c t : held_events t = [] -> full_cb t c = c.
Proof. intros H. unfold full_cb. rewrite H. by destruct c. Qed.

Lemma cb_owned_full t c :
  cb_owned (full_cb t c) ≡ₚ data_of PMD_EDU_MEM_ALLOC (held_events t) ++ cb_owned c.
Proof.
  unfold cb_owned, cb_other, full_cb, data_of. destruct c; simpl.
  rewrite flat_map_app, <- !app_assoc. apply Permutation_app_swap_app.
Qed.

Lemma self_data_full t c :
  data_of PMD_EDU_MEM_SELF (cb_queue (full_cb t c)) =
  data_of PMD_EDU_MEM_SELF (held_events t) ++ data_of PMD_EDU_MEM_SELF (cb_queue c).
Proof. unfold full_cb, data_of. destruct c; simpl. by rewrite flat_map_app. Qed.

(** Forgetting the held event. *)
Lemma mem_drop_held t c h :
  cb_mem_ok (full_cb t c) h ->
  cb_mem_ok c h /\ foreign (cb_owned (full_cb t c)) h ⊆ foreign (cb_owned c) h.
Proof.
  intros [Hs Hr Hb Hself Hsa Hal]. rewrite cb_owned_full in Hb |- *.
  rewrite self_data_full in *. apply NoDup_app in Hself as (_ & _ & Hself).
  apply blocks_ok_app in Hb as (_ & Hb & _). split.
  - destruct c; split; try done. intros q Hq. apply Hsa, elem_of_app. by right.
  - intros x. rewrite !elem_of_foreign, elem_of_app. tauto.
Qed.

(** *** Taking a control block out of the maps *)

Definition erased (m : pmdEDUMgr) (c : pmdEDUCB) : pmdEDUMgr :=
  postDestoryEDU (with_maps m (delete (cb_eduID c) (mg_runs m)) (delete (cb_eduID c) (mg_idles m))) c.

Lemma erased_from_runs m C c p :
  maps_ok m C -> mg_runs m !! cb_eduID c = Some p ->
  postDestoryEDU (with_maps m (delete (cb_eduID c) (mg_runs m)) (mg_idles m)) c = erased m c.
Proof.
  intros Hm Hp. unfold erased. by rewrite (delete_id (mg_idles m))
    by (apply (mo_disj _ _ Hm); eauto).
Qed.

Lemma erased_from_idles m C c p :
  maps_ok m C -> mg_idles m !! cb_eduID c = Some p ->
  postDestoryEDU (with_maps m (mg_runs m) (delete (cb_eduID c) (mg_idles m))) c = erased m c.
Proof.
  intros Hm Hp. unfold erased. rewrite (delete_id (mg_runs m)); [done|].
  destruct (mg_runs m !! cb_eduID c) eqn:E; [|done].
  rewrite (mo_disj _ _ Hm) in Hp; [done|eauto].
Qed.

Lemma erased_index m C p0 c0 :
  maps_ok m C -> index_ok m C -> C !! p0 = Some c0 -> index_ok (erased m c0) C.
Proof.
  intros Hm Hx H0. pose proof Hx as [Hs Hne Ht Hti].
  assert (forall tid, mg_tid2edu (erased m c0) !! tid =
    if decide (mg_tid2edu m !! tid = Some (cb_eduID c0)) then None else mg_tid2edu m !! tid) as Htid.
  { intros tid. apply erase_tid_spec; [done|]. intros a Ha. apply elem_of_std_keys. eauto. }
  eapply (index_change m _ C C p0 (cb_eduID c0)); try done; unfold getSystemEDU; simpl.
  - intros id Hid. by rewrite lookup_delete_ne.
  - intros id Hid. destruct (mo_runs _ _ Hm _ _ Hid) as (c & Hc & <-). congruence.
  - intros t id Hid. rewrite elem_removeFromSystem. naive_solver.
  - intros t. rewrite elem_removeFromSystem. fold (getSystemEDU m t). rewrite Hs. split.
    + intros [(p & c & Hp & Hc & <- & _) Hn]. destruct Hn. split; [|done].
      destruct (mo_runs _ _ Hm _ _ Hp) as (c' & Hc' & He).
      assert (p = p0) as -> by by eapply (mo_inj _ _ Hm). congruence.
    + intros (p & c & Hp & _). simpl in Hp. by rewrite lookup_delete_eq in Hp.
  - by apply removeFromSystem_nonempty.
  - intros tid id. rewrite Htid. destruct (decide _) as [|Hn]; [done|]. intros Hid.
    destruct (Ht _ _ Hid) as [q Hq]. unfold getPtrByID in *. simpl.
    rewrite !lookup_delete_ne by congruence. eauto.
  - intros tid tid' id. rewrite !Htid.
    destruct (decide _); [done|]. destruct (decide _); [done|]. eauto.
Qed.

Lemma roles_cb C T K p c :
  roles_ok C T K -> is_Some (C !! p) -> roles_ok (<[p := c]> C) T K.
Proof.
  intros [H1 H2 H3 H4 H5 H6] Hp.
  assert (forall q, is_Some (C !! q) -> is_Some (<[p := c]> C !! q)) as Hi.
  { intros q Hq. destruct (decide (p = q)) as [->|]; [rewrite lookup_insert_eq; by eexists|].
    by rewrite lookup_insert_ne. }
  split; eauto.
  - intros q d. rewrite lookup_insert_Some. intros [[<- _]|[_ Hq]] Ht; [|eauto].
    destruct Hp. eauto.
  - intros k q id ty s i Hk. destruct (H4 _ _ _ _ _ _ Hk). auto.
Qed.

(** Roles when a thread moves on. *)
Lemma roles_thread C T K p c t t' :
  roles_ok C T K -> T !! p = Some t -> roles_ok (<[p := c]> C) (<[p := t']> T) K.
Proof.
  intros [H1 H2 H3 H4 H5 H6] Hp. split.
  - intros q u. rewrite lookup_insert_Some. intros [[<- _]|[Hn Hq]].
    + rewrite lookup_insert_eq. by eexists.
    + rewrite lookup_insert_ne by done. eauto.
  - intros q d. rewrite lookup_insert_Some, lookup_insert_None.
    intros [[<- <-]|[Hn Hq]] [Hq' Hn']; [done|]. eauto.
  - intros k cl q Hk Hs. destruct (decide (p = q)) as [->|]; [rewrite lookup_insert_eq; by eexists|].
    rewrite lookup_insert_ne by done. eauto.
  - intros k q id ty s i Hk. destruct (H4 _ _ _ _ _ _ Hk) as [Hc Hn].
    assert (p <> q) by congruence. by rewrite !lookup_insert_ne.
  - done.
  - done.
Qed.

Lemma attached_mono m m' C C' T T' :
  attached m C T ->
  (forall tid id, mg_tid2edu m' !! tid = Some id -> mg_tid2edu m !! tid = Some id) ->
  (forall p c t, C !! p = Some c -> T !! p = Some t -> t <> ETStart ->
     is_Some (mg_runs m' !! cb_eduID c) \/ is_Some (mg_idles m' !! cb_eduID c) ->
     exists c' t', C' !! p = Some c' /\ cb_eduID c' = cb_eduID c /\ T' !! p = Some t' /\
       t' <> ETStart) ->
  (forall tid id, mg_tid2edu m' !! tid = Some id -> is_Some (getPtrByID m' id)) ->
  attached m' C' T'.
Proof.
  intros Ha Ht Hp Hm tid id Hid. destruct (Ha _ _ (Ht _ _ Hid)) as (p & c & t & Hc & He & Htp & Hn).
  destruct (Hp p c t Hc Htp Hn) as (c' & t' & ? & ? & ? & ?).
  { rewrite He. destruct (Hm _ _ Hid) as [q Hq]. unfold getPtrByID in Hq.
    destruct (mg_runs m' !! id); [left|right]; eauto. }
  exists p, c', t'. split_and!; try done. congruence.
Qed.

(** The thread keeps its place in the thread map when it moves on. *)
Lemma attached_thread m C T p c c' t t' :
  attached m C T -> C !! p = Some c -> T !! p = Some t -> cb_eduID c' = cb_eduID c ->
  t' <> ETStart -> attached m (<[p := c']> C) (<[p := t']> T).
Proof.
  intros Ha Hc Ht Hid Hn tid id Htid. destruct (Ha _ _ Htid) as (q & d & u & Hd & He & Hu & Hnu).
  destruct (decide (q = p)) as [->|Hne].
  - exists p, c', t'. rewrite !lookup_insert_eq. split_and!; try done. congruence.
  - exists q, d, u. rewrite !lookup_insert_ne by done. done.
Qed.

Lemma attached_cb m C T p c c' :
  attached m C T -> C !! p = Some c -> cb_eduID c' = cb_eduID c -> attached m (<[p := c']> C) T.
Proof.
  intros Ha Hc Hid tid id Htid. destruct (Ha _ _ Htid) as (q & d & u & Hd & He & Hu & Hnu).
  destruct (decide (q = p)) as [->|Hne].
  - exists p, c', u. rewrite lookup_insert_eq. split_and!; try done. congruence.
  - exists q, d, u. by rewrite lookup_insert_ne by done.
Qed.

(** The thread of [p] moves to [t'] and changes its control block and the
    memory, the maps stay. *)
Lemma thread_moves g p t t' c c' h' :
  config_ok g -> g_threads g !! p = Some t -> w_cbs (g_w g) !! p = Some c ->
  cb_eduID c' = cb_eduID c -> cb_eduType c' = cb_eduType c -> t' <> ETStart ->
  cb_mem_ok (full_cb (Some t') c') h' ->
  foreign (cb_owned (full_cb (Some t) c)) (w_mem (g_w g)) ⊆
    foreign (cb_owned (full_cb (Some t') c')) h' ->
  local_ok (Some t') c' (starters (g_clients g) p) (place_of (w_mgr (g_w g)) p c) ->
  config_ok (set_thread g (mkWorld (w_mgr (g_w g)) (<[p := c']> (w_cbs (g_w g))) h') p t').
Proof.
  intros Hg Ht Hc Hid Hty Hn Hmem Hfo Hlo.
  destruct (maps_same _ _ _ _ (ok_maps _ Hg) Hc) as (H1 & H2 & H3).
  apply (cb_step_ok g _ c); simpl; rewrite ?lookup_insert_eq; try done.
  - intros q Hq. by rewrite lookup_insert_ne.
  - apply (index_same _ _ _ c); [apply Hg|done|unfold isSystemCB; by rewrite Hty|done].
  - by eapply attached_thread; [apply Hg|..].
  - by eapply roles_thread; [apply Hg|].
  - by rewrite Ht.
  - unfold place_of. rewrite Hid. done.
Qed.

(** The control block of [p] changes, nothing else does. *)
Lemma cb_changes g p c c' h' :
  config_ok g -> w_cbs (g_w g) !! p = Some c ->
  cb_eduID c' = cb_eduID c -> cb_eduType c' = cb_eduType c ->
  cb_mem_ok (full_cb (g_threads g !! p) c') h' ->
  foreign (cb_owned (full_cb (g_threads g !! p) c)) (w_mem (g_w g)) ⊆
    foreign (cb_owned (full_cb (g_threads g !! p) c')) h' ->
  local_ok (g_threads g !! p) c' (starters (g_clients g) p) (place_of (w_mgr (g_w g)) p c) ->
  config_ok (set_world g (mkWorld (w_mgr (g_w g)) (<[p := c']> (w_cbs (g_w g))) h')).
Proof.
  intros Hg Hc Hid Hty Hmem Hfo Hlo.
  destruct (maps_same _ _ _ _ (ok_maps _ Hg) Hc) as (H1 & H2 & H3).
  apply (cb_step_ok g _ c); try done.
  - apply (index_same _ _ _ c); [apply Hg|done|unfold isSystemCB; by rewrite Hty|done].
  - by eapply attached_cb; [apply Hg|..].
  - apply roles_cb; [apply Hg|eauto].
  - unfold place_of. rewrite Hid. done.
Qed.

(** *** Steps of a thread without a change of the maps *)

(** What [local_ok] looks at. *)
Lemma local_move t t' c c' n pl :
  local_ok t c n pl -> cb_status c' = cb_status c -> cb_eduType c' = cb_eduType c ->
  (t <> Some ETDelete -> resumes t' c' = resumes t c) ->
  (no_self t c -> no_self t' c') -> (calm t -> calm t') -> (busy t -> busy t') ->
  (t = Some ETDelete -> t' = Some ETDelete) -> local_ok t' c' n pl.
Proof.
  intros Hl Hs Hty Hr Hns Hc Hb Hd.
  assert (registered c -> registered c') as Hreg by (unfold registered; by rewrite Hty).
  assert (isSystemCB f c' = isSystemCB f c) as Hsys by (unfold isSystemCB; by rewrite Hty).
  destruct Hl as [-> ->| | |H1 H2 H3 H4 H5].
  - apply lo_out; auto.
  - apply lo_idle; auto; [congruence|]. rewrite Hr; [done|]. by intros ->.
  - apply lo_creating; auto; [congruence| |rewrite Hsys; auto]. rewrite Hr; [done|]. by intros ->.
  - apply lo_active; auto; [by rewrite Hs|]. rewrite Hr; [done|]. by intros ->.
Qed.

Lemma mem_cong t t' c c' h :
  cb_buffs c' = cb_buffs c -> cb_alignedMem c' = cb_alignedMem c ->
  cb_alignedMemSize c' = cb_alignedMemSize c -> cb_errorBuff c' = cb_errorBuff c ->
  held_events t' ++ cb_queue c' = held_events t ++ cb_queue c ->
  cb_mem_ok (full_cb t c) h ->
  cb_mem_ok (full_cb t' c') h /\ cb_owned (full_cb t' c') = cb_owned (full_cb t c).
Proof.
  intros Hb Ha Has He Hq [H1 H2 H3 H4 H5 H6].
  assert (cb_owned (full_cb t' c') = cb_owned (full_cb t c)) as Ho.
  { unfold cb_owned, cb_other, full_cb. destruct c, c'; simpl in *. by rewrite Hq, Hb, Ha, He. }
  split; [|done]. rewrite <- Ho in H3. destruct c, c'; simpl in *. unfold full_cb in *.
  simpl in *. rewrite Hq in *. subst. by split.
Qed.

End invariant.
