(* ===== verification/PmdEDUSteps.v ===== *)
(** * Every step of the executors is defined and keeps the invariant

    One lemma per step of PmdEDURun.v, for steps in which the creation of a
    thread does not fail. *)
From S2P Require Import Prelude.
From S2P Require Import OssMem.
From S2P Require Import PmdBase.
From S2P Require Import PmdEDU.
From S2P Require Import PmdEDUOk.
From S2P Require Import PmdEDUClear.
From S2P Require Import PmdEDUMgr.
From S2P Require Import PmdEDURun.
From S2P Require Import PmdEDURunOk.
From Stdlib Require Import String.
#[local] Open Scope Z_scope.

Definition step_safe (f : pmdEPFactory) (r : option config) : Prop :=
  exists g', r = Some g' /\ config_ok f g'.

Section steps.
Context (f : pmdEPFactory) (g : config) (Hg : config_ok f g).

Abbreviation m := (w_mgr (g_w g)).
Abbreviation C := (w_cbs (g_w g)).
Abbreviation T := (g_threads g).
Abbreviation K := (g_clients g).

Lemma thread_cb p t : T !! p = Some t -> exists c, C !! p = Some c.
Proof. apply (rl_thread _ _ _ (ok_roles _ _ Hg)). Qed.

Lemma thread_local p t c :
  T !! p = Some t -> C !! p = Some c ->
  local_ok f (Some t) c (starters K p) (place_of m p c) /\
  cb_mem_ok (full_cb (Some t) c) (w_mem (g_w g)).
Proof.
  intros Ht Hc. pose proof (ok_local _ _ Hg _ _ Hc). pose proof (me_cb _ _ _ (ok_mem _ _ Hg) _ _ Hc).
  by rewrite Ht in *.
Qed.

Lemma world_eta : mkWorld m C (w_mem (g_w g)) = g_w g.
Proof. by destruct (g_w g). Qed.

(** *** Registering *)

Lemma place_cases p c :
  C !! p = Some c ->
  (place_of m p c = InRuns /\ mg_runs m !! cb_eduID c = Some p) \/
  (place_of m p c = InIdles /\ mg_idles m !! cb_eduID c = Some p /\
   mg_runs m !! cb_eduID c = None) \/
  (place_of m p c = Out /\ mg_runs m !! cb_eduID c = None /\ mg_idles m !! cb_eduID c = None).
Proof.
  intros Hc. destruct (maps_same _ _ _ _ (ok_maps _ _ Hg) Hc) as (_ & H2 & H3).
  unfold place_of. destruct (decide (mg_runs m !! _ = _)) as [E|E]; [by left|right].
  assert (mg_runs m !! cb_eduID c = None) as Hr.
  { destruct (mg_runs m !! cb_eduID c) as [q|]; [|done]. destruct (H2 q eq_refl) as [-> _]. done. }
  destruct (decide (mg_idles m !! _ = _)) as [E2|E2]; [by left|right]. split_and!; try done.
  destruct (mg_idles m !! cb_eduID c) as [q|]; [|done]. by rewrite (H3 q eq_refl) in E2.
Qed.

Lemma placed_ptr p c :
  C !! p = Some c -> place_of m p c <> Out -> getPtrByID m (cb_eduID c) = Some p.
Proof.
  intros Hc Hp. unfold getPtrByID.
  destruct (place_cases p c Hc) as [[_ ->]|[(_ & -> & ->)|(? & _)]]; done.
Qed.

Lemma attach_ok p tid threadID :
  T !! p = Some ETStart -> mg_tid2edu m !! tid = None ->
  step_safe f (w ← edu_attach (g_w g) p tid threadID; Some (set_thread g w p (ETLoop 0))).
Proof.
  intros Ht Htid. destruct (thread_cb _ _ Ht) as [c Hc]. unfold edu_attach. rewrite Hc. simpl.
  eexists. split; [done|]. destruct (thread_local _ _ _ Ht Hc) as [Hl Hm].
  destruct (maps_same _ _ _ _ (ok_maps _ _ Hg) Hc) as (H1 & H2 & H3).
  set (c' := set_cb_thread c tid threadID).
  assert (cb_eduID c' = cb_eduID c) as Hid by by destruct c.
  assert (cb_eduType c' = cb_eduType c) as Hty by by destruct c.
  destruct (mem_cong (Some ETStart) (Some (ETLoop 0)) c c' (w_mem (g_w g))) as [Hm' Ho];
    try (by destruct c).
  assert (forall a, mg_tid2edu m !! a = Some (cb_eduID c) -> False) as Hno.
  { intros a Ha. destruct (ok_attached _ _ Hg _ _ Ha) as (q & d & u & Hd & He & Hu & Hn).
    assert (q = p) as -> by by eapply (mo_inj _ _ (ok_maps _ _ Hg)). congruence. }
  pose proof (index_same f m C p c c' (ok_index _ _ Hg) Hc
    ltac:(unfold isSystemCB; by rewrite Hty) ltac:(done)) as [Hs Hne Hti Hinj].
  apply (cb_step_ok f g _ c); try done; simpl; rewrite ?lookup_insert_eq; try done.
  - intros q Hq. by rewrite lookup_insert_ne.
  - split; try done; simpl.
    + intros a id. rewrite lookup_insert_Some. intros [[<- <-]|[_ Ha]]; [|eauto].
      eexists. apply (placed_ptr _ _ Hc). intros E. rewrite E in Hl. by inversion Hl.
    + intros a b id. rewrite !lookup_insert_Some.
      intros [[<- <-]|[_ Ha]] [[<- E]|[_ Hb]]; try done; [by destruct (Hno b)| |eauto].
      subst id. by destruct (Hno a).
  - intros a id. simpl. rewrite lookup_insert_Some. intros [[<- <-]|[_ Ha]].
    + exists p, c', (ETLoop 0). by rewrite !lookup_insert_eq.
    + by eapply (attached_thread m C T p c c' ETStart); [apply Hg|..|exact Ha].
  - by eapply roles_thread; [apply Hg|].
  - by rewrite Ht, Ho.
  - replace (place_of _ p c') with (place_of m p c) by (unfold place_of; by rewrite Hid).
    eapply (local_move f (Some ETStart)); try done; try (by destruct c).
Qed.

(** *** Waiting and idling *)

Lemma wait_ok p idle :
  T !! p = Some (ETLoop idle) ->
  step_safe f ('(w, t) ← edu_wait (g_w g) p idle; Some (set_thread g w p t)).
Proof.
  intros Ht. destruct (thread_cb _ _ Ht) as [c Hc]. unfold edu_wait. rewrite Hc. simpl.
  destruct (thread_local _ _ _ Ht Hc) as [Hl Hm]. unfold waitEvent. simpl andb. cbn iota.
  rewrite app_nil_r. destruct (cb_queue c) as [|e q] eqn:Eq; simpl; eexists; (split; [done|]).
  - unfold set_cb. eapply thread_moves; try done. by eapply local_move.
  - set (c' := if bool_decide _ then _ else _).
    assert (cb_eduID c' = cb_eduID c /\ cb_eduType c' = cb_eduType c /\
      cb_status c' = cb_status c /\ cb_queue c' = q /\ cb_buffs c' = cb_buffs c /\
      cb_alignedMem c' = cb_alignedMem c /\ cb_alignedMemSize c' = cb_alignedMemSize c /\
      cb_errorBuff c' = cb_errorBuff c) as (Hid & Hty & Hst & Hqq & ? & ? & ? & ?).
    { unfold c'. destruct (bool_decide _); by destruct c. }
    destruct (mem_cong (Some (ETLoop idle)) (Some (ETGot e)) c c' (w_mem (g_w g)))
      as [Hm' Ho]; try done; [by rewrite Hqq, Eq|].
    unfold set_cb. eapply thread_moves; try done; [by rewrite Ho|].
    eapply (local_move f (Some (ETLoop idle))); try done.
    + intros _. unfold resumes. by rewrite Hqq, Eq.
    + unfold no_self, full_cb. simpl. destruct c, c'; simpl in *. by subst.
Qed.

Lemma thread_same p t t' c :
  T !! p = Some t -> C !! p = Some c -> t' <> ETStart -> held_events (Some t') = held_events (Some t) ->
  local_ok f (Some t') c (starters K p) (place_of m p c) ->
  config_ok f (set_thread g (g_w g) p t').
Proof.
  intros Ht Hc Hn Hh Hl. destruct (thread_local _ _ _ Ht Hc) as [_ Hm].
  assert (full_cb (Some t') c = full_cb (Some t) c) as E by (unfold full_cb; by rewrite Hh).
  assert (config_ok f (set_thread g (mkWorld m (<[p := c]> C) (w_mem (g_w g))) p t')) as H.
  { eapply thread_moves; try done; by rewrite E. }
  by rewrite insert_id, world_eta in H.
Qed.

Lemma decide_ok p idle :
  T !! p = Some (ETIdle idle) ->
  step_safe f (go ← forceDestory_decide (g_w g) p idle;
    Some (set_thread g (g_w g) p (if go : bool then ETErase idle else ETLoop idle))).
Proof.
  intros Ht. destruct (thread_cb _ _ Ht) as [c Hc]. destruct (thread_local _ _ _ Ht Hc) as [Hl _].
  assert (exists b, forceDestory_decide (g_w g) p idle = Some b) as [b ->].
  { unfold forceDestory_decide. rewrite Hc. simpl. repeat destruct (_ && _ || _) || destruct (_ || _).
    1: by eexists. all: repeat (destruct (_ <? _) || destruct (_ && _)); by eexists. }
  simpl. eexists. split; [done|].
  destruct b; (eapply thread_same; [done|done|done|done|]); by eapply local_move.
Qed.

(** *** Taking out and deleting *)

Lemma starters_zero K' p k cl :
  starters K' p = O -> K' !! k = Some cl -> starter_of cl <> Some p.
Proof.
  unfold starters. intros Hs Hk Hst. apply map_size_empty_inv in Hs.
  assert (filter (fun kc => starter_of kc.2 = Some p) K' !! k = Some cl) as H.
  { by apply map_lookup_filter_Some. }
  rewrite Hs in H. by rewrite lookup_empty in H.
Qed.

Lemma take_out p t c :
  T !! p = Some t -> C !! p = Some c -> starters K p = O ->
  config_ok f (set_thread g (set_mgr (g_w g) (erased m c)) p ETDelete).
Proof.
  intros Ht Hc Hn. destruct (thread_local _ _ _ Ht Hc) as [_ Hm].
  destruct (mem_drop_held _ _ _ Hm) as [Hm' Hfo].
  assert (config_ok f (mkConfig (mkWorld (erased m c) (<[p := c]> C) (w_mem (g_w g)))
    (<[p := ETDelete]> T) K)) as H.
  { pose proof (erased_index f m C p c (ok_maps _ _ Hg) (ok_index _ _ Hg) Hc) as Hx.
    apply (cb_step_ok f g _ c); simpl; rewrite ?lookup_insert_eq; try done.
    - split; [done|]. intros id Hid. simpl. by rewrite !lookup_delete_ne.
    - intros q. by rewrite lookup_delete_eq.
    - intros q. by rewrite lookup_delete_eq.
    - intros q Hq. by rewrite lookup_insert_ne.
    - by rewrite insert_id.
    - rewrite insert_id by done. eapply attached_mono; [apply Hg| | |apply Hx].
      + intros tid id. simpl. rewrite erase_tid_spec; [by destruct (decide _)|apply Hg|].
        intros a Ha. apply elem_of_std_keys. eauto.
      + intros q d u Hd Hu Hnu _. destruct (decide (q = p)) as [->|].
        * exists d, ETDelete. by rewrite lookup_insert_eq.
        * exists d, u. by rewrite lookup_insert_ne.
    - by eapply roles_thread; [apply Hg|].
    - by rewrite full_cb_nil.
    - rewrite Ht, (full_cb_nil c (Some ETDelete)) by done. done.
    - unfold place_of. simpl. rewrite !lookup_delete_eq. by apply lo_out. }
  by rewrite insert_id in H.
Qed.

Lemma erase_ok p idle :
  T !! p = Some (ETErase idle) ->
  step_safe f ('(d, w) ← forceDestory_erase (g_w g) p;
    Some (set_thread g w p (if d : bool then ETDelete else ETLoop idle))).
Proof.
  intros Ht. destruct (thread_cb _ _ Ht) as [c Hc]. destruct (thread_local _ _ _ Ht Hc) as [Hl _].
  unfold forceDestory_erase. rewrite Hc. simpl.
  destruct (place_cases p c Hc) as [[Hp Hr]|[(Hp & Hi & Hr)|(Hp & Hi & Hr)]].
  - rewrite (mo_disj _ _ (ok_maps _ _ Hg)) by eauto. rewrite Hr, Hp in *.
    inversion Hl as [| |Hst|? ? ? Hb]; subst; [|by destruct Hb].
    unfold PMD_IS_EDU_CREATING. rewrite bool_decide_eq_true_2 by done. simpl.
    eexists. split; [done|]. eapply thread_same; [done|done|done|done|]. rewrite Hp.
    by eapply local_move.
  - rewrite Hi. simpl. rewrite (erased_from_idles _ _ _ _ (ok_maps _ _ Hg) Hi).
    eexists. split; [done|]. eapply take_out; [done..|]. rewrite Hp in Hl. by inversion Hl.
  - rewrite Hp in Hl. by inversion Hl.
Qed.

Lemma delete_ok p :
  T !! p = Some ETDelete ->
  step_safe f (w ← delete_cb (g_w g) p; Some (mkConfig w (delete p T) K)).
Proof.
  intros Ht. destruct (thread_cb _ _ Ht) as [c Hc]. destruct (thread_local _ _ _ Ht Hc) as [Hl Hm].
  rewrite full_cb_nil in Hm by done. unfold delete_cb. rewrite Hc. simpl.
  rewrite (edu_delete_ok _ _ Hm). simpl. eexists. split; [done|].
  pose proof Hg as [[Hr Hi Hd Hid Hinj Hnx] Hx Hat [R1 R2 R3 R4 R5 R6] [M1 M2] Hlo].
  assert (place_of m p c = Out /\ starters K p = O) as [Hout Hn].
  { inversion Hl as [|? ? ? Hb|? ? Hb|? ? ? Hb]; subst; try done; by destruct Hb. }
  destruct (place_cases p c Hc) as [[E _]|[(E & _)|(_ & Hr0 & Hi0)]]; [congruence|congruence|].
  assert (forall id q, mg_runs m !! id = Some q -> q <> p) as Hrp.
  { intros id q Hq ->. destruct (Hr _ _ Hq) as (d & Hd' & <-). congruence. }
  assert (forall id q, mg_idles m !! id = Some q -> q <> p) as Hip.
  { intros id q Hq ->. destruct (Hi _ _ Hq) as (d & Hd' & <-). congruence. }
  assert (forall q d, delete p C !! q = Some d -> q <> p /\ C !! q = Some d) as HC.
  { intros q d. rewrite lookup_delete_Some. intros [? ?]. by split. }
  assert (forall q, q <> p -> delete p C !! q = C !! q) as HC'
    by (intros; by rewrite lookup_delete_ne).
  assert (forall q, q <> p -> delete p T !! q = T !! q) as HT
    by (intros; by rewrite lookup_delete_ne).
  split; simpl.
  - split; try done.
    + intros id q Hq. rewrite HC' by eauto. eauto.
    + intros id q Hq. rewrite HC' by eauto. eauto.
    + intros q d [_ Hq]%HC. eauto.
    + intros q r d e [_ Hq]%HC [_ Hr']%HC. eauto.
  - destruct Hx as [Hs Hne Hti Htinj]. split; try done. intros t id. rewrite Hs.
    unfold system_run. split; intros (q & d & Hq & Hd' & H); exists q, d.
    + rewrite HC' by eauto. done.
    + by apply HC in Hd' as [_ Hd'].
  - eapply attached_mono; [done|done| |apply Hx]. intros q d u Hd' Hu Hnu Hpl.
    assert (q <> p).
    { intros ->. rewrite Hc in Hd'. injection Hd' as <-.
      destruct Hpl as [[? E]|[? E]]; congruence. }
    exists d, u. rewrite HC', HT by done. done.
  - split; try done.
    + intros q u Hq. apply lookup_delete_Some in Hq as [Hne Hq]. rewrite HC' by done. eauto.
    + intros q d [Hne Hq]%HC Hq'. rewrite HT in Hq' by done. eauto.
    + intros k cl q Hk Hs. rewrite HC'; [eauto|]. intros ->. by eapply starters_zero.
    + intros k q id ty s i Hk. destruct (R4 _ _ _ _ _ _ Hk) as [H1 H2].
      assert (q <> p) by congruence. by rewrite HC', HT.
  - split.
    + intros q d [Hne Hq]%HC. rewrite HT by done. destruct (M1 _ _ Hq) as [? ? Hb ? ? ?].
      split; try done. eapply blocks_ok_mono; [done|]. intros x Hx' Hh.
      apply elem_of_foreign. split; [done|]. intros Hxc.
      eapply (M2 p q c d x); try done. rewrite Ht. by rewrite full_cb_nil.
    + intros q r d e x [Hne Hq]%HC [Hne' Hr']%HC. rewrite !HT by done. eauto.
  - intros q d [Hne Hq]%HC. rewrite HT by done. eauto.
Qed.


(** *** Events and entry points *)

Lemma status_mem t t' c s h :
  held_events t' = held_events t ->
  cb_mem_ok (full_cb t c) h ->
  cb_mem_ok (full_cb t' (set_cb_status c s)) h /\
  cb_owned (full_cb t' (set_cb_status c s)) = cb_owned (full_cb t c).
Proof. intros Hh Hm. apply mem_cong; rewrite ?Hh; by destruct c. Qed.

Lemma resumes_got e c :
  is_resume e -> resumes (Some (ETGot e)) c = S (resumes (Some (ETRun e)) c).
Proof. intros H. unfold resumes. simpl. by rewrite filter_cons_True. Qed.

Lemma no_resumes q :
  Forall (fun e => ev_eventType e <> PMD_EDU_EVENT_RESUME) q -> filter is_resume q = [].
Proof. induction 1; [done|]. by rewrite filter_cons_False. Qed.

Lemma dispatch_ok p e :
  T !! p = Some (ETGot e) ->
  step_safe f ('(w, t) ← edu_dispatch f (g_w g) p e; Some (set_thread g w p t)).
Proof.
  intros Ht. destruct (thread_cb _ _ Ht) as [c Hc]. destruct (thread_local _ _ _ Ht Hc) as [Hl Hm].
  unfold edu_dispatch. rewrite Hc. simpl.
  destruct (decide (is_resume e)) as [He|He].
  - pose proof (resumes_got e c He) as Hres. rewrite He.
    inversion Hl as [|? Hz|Hst Hz _ _ Hreg _ Hpl|? Hz]; subst; try done; [congruence|].
    destruct Hreg as (i & Hi & Hf). rewrite Hi. simpl.
    destruct (Z.eqb_spec (ep_pFunc i) 0); [done|]. simpl.
    assert ((waitEDU c).2 = set_cb_status c PMD_EDU_WAITING) as ->.
    { unfold waitEDU, PMD_IS_EDU_WAITING, PMD_IS_EDU_RUNNING, PMD_IS_EDU_CREATING. by rewrite Hst. }
    destruct (status_mem (Some (ETGot e)) (Some (ETRun e)) c PMD_EDU_WAITING _ eq_refl Hm) as [Hm' Ho].
    eexists. split; [done|]. unfold set_cb.
    eapply thread_moves; try done; try (by destruct c); try (by rewrite Ho). rewrite <- Hpl.
    apply lo_active; [right; by destruct c| |lia|done|by exists i; destruct c].
    replace (resumes _ _) with (resumes (Some (ETRun e)) c) by by destruct c. lia.
  - assert (resumes (Some (ETRelease e)) c = resumes (Some (ETGot e)) c) as Hres.
    { unfold resumes. simpl. by rewrite filter_cons_False. }
    assert (config_ok f (set_thread g (g_w g) p (ETRelease e))) as H.
    { eapply thread_same; [done|done|done|done|]. by eapply (local_move f (Some (ETGot e))). }
    unfold is_resume in He. destruct (ev_eventType e); try done; eexists; by split.
Qed.

Lemma run_active p e c :
  T !! p = Some (ETRun e) -> C !! p = Some c ->
  place_of m p c = InRuns /\ starters K p = O /\ registered f c /\
  (cb_status c = PMD_EDU_RUNNING \/ cb_status c = PMD_EDU_WAITING) /\
  resumes (Some (ETRun e)) c = O /\ cb_mem_ok (full_cb (Some (ETRun e)) c) (w_mem (g_w g)).
Proof.
  intros Ht Hc. destruct (thread_local _ _ _ Ht Hc) as [Hl Hm].
  inversion Hl as [|? ? ? Hb|? ? Hb|]; subst; try done; by destruct Hb.
Qed.

Lemma body_ok p e c c' h' :
  T !! p = Some (ETRun e) -> C !! p = Some c ->
  edu_may (Some (ETRun e)) c c' (w_mem (g_w g)) h' ->
  step_safe f (Some (set_world g (mkWorld m (<[p := c']> C) h'))).
Proof.
  intros Ht Hc [Hid Hty Hst Hres Hme Hfo]. destruct (run_active _ _ _ Ht Hc) as (Hp & Hn & Hreg & _).
  eexists. split; [done|]. eapply cb_changes; try done; rewrite ?Ht; [done|by rewrite Hfo|].
  rewrite Hp. apply lo_active; try done.
  - unfold resumes. simpl. by rewrite no_resumes.
  - destruct Hreg as (i & Hi & Hf). exists i. by rewrite Hty.
Qed.

Lemma waitEDU_active c :
  cb_status c = PMD_EDU_RUNNING \/ cb_status c = PMD_EDU_WAITING ->
  (waitEDU c).2 = set_cb_status c PMD_EDU_WAITING.
Proof.
  unfold waitEDU, PMD_IS_EDU_WAITING, PMD_IS_EDU_RUNNING.
  intros [E|E]; rewrite E; simpl; [done|]. destruct c; simpl in *. by subst.
Qed.

Lemma done_ok p e :
  T !! p = Some (ETRun e) ->
  step_safe f (w ← edu_done (g_w g) p; Some (set_thread g w p (ETRelease e))).
Proof.
  intros Ht. destruct (thread_cb _ _ Ht) as [c Hc]. unfold edu_done. rewrite Hc. simpl.
  destruct (run_active _ _ _ Ht Hc) as (Hp & Hn & Hreg & Hst & Hres & Hm).
  rewrite waitEDU_active by done.
  destruct (status_mem (Some (ETRun e)) (Some (ETRelease e)) c PMD_EDU_WAITING _ eq_refl Hm) as [Hm' Ho].
  eexists. split; [done|]. unfold set_cb.
  eapply thread_moves; try done; try (by destruct c); try (by rewrite Ho). rewrite Hp.
  apply lo_active; try done; [right; by destruct c|by destruct c|].
  destruct Hreg as (i & ? & ?). exists i. by destruct c.
Qed.

Lemma throw_ok p e c :
  T !! p = Some (ETRun e) -> C !! p = Some c ->
  step_safe f ('(o, w) ← findAndRemove (g_w g) (cb_eduID c);
    Some (mkConfig w (match o with
                      | Some p => <[p := ETDelete]> T
                      | None => delete p T
                      end) K)).
Proof.
  intros Ht Hc. destruct (run_active _ _ _ Ht Hc) as (Hp & Hn & _).
  destruct (place_cases p c Hc) as [[_ Hr]|[(E & _)|(E & _)]]; [|congruence|congruence].
  unfold findAndRemove. rewrite (mo_disj _ _ (ok_maps _ _ Hg)) by eauto. rewrite Hr, Hc. simpl.
  rewrite (erased_from_runs _ _ _ _ (ok_maps _ _ Hg) Hr). eexists. split; [done|].
  by eapply take_out.
Qed.

Lemma release_ok p e :
  T !! p = Some (ETRelease e) ->
  step_safe f (w ← edu_release (g_w g) p e; Some (set_thread g w p ETReturn)).
Proof.
  intros Ht. destruct (thread_cb _ _ Ht) as [c Hc]. destruct (thread_local _ _ _ Ht Hc) as [Hl Hm].
  unfold edu_release. rewrite Hc. simpl. pose proof (mem_drop_held _ _ _ Hm) as [Hd _].
  destruct Hm as [Hs Hr Hb Hself Hsa Hal].
  rewrite cb_owned_full in Hb. rewrite self_data_full in Hself, Hsa.
  change (held_events (Some (ETRelease e))) with [e] in Hb, Hself, Hsa.
  assert (cb_buffs (full_cb (Some (ETRelease e)) c) = cb_buffs c) as Eb by by destruct c.
  rewrite Eb in *. set (qs := cb_other c ++ opt_block (cb_errorBuff c)).
  assert (data_of PMD_EDU_MEM_ALLOC [e] ++ cb_owned c ≡ₚ
    buf_owned (cb_buffs c) ++ data_of PMD_EDU_MEM_ALLOC [e] ++ qs) as Hperm.
  { unfold cb_owned, qs. apply Permutation_app_swap_app. }
  rewrite Hperm in Hb. apply NoDup_app in Hself as (_ & Hdis & Hself).
  destruct (pmdEduEventRelase_ok e (cb_buffs c) (w_mem (g_w g)) qs Hs Hr Hb)
    as (e' & b' & h' & -> & Hs' & Hr' & Hb' & Hfo & Ha).
  { intros x Hx. apply Hsa, elem_of_app. by left. }
  simpl. eexists. split; [done|].
  assert (cb_owned (set_cb_buffs c b') = buf_owned b' ++ qs) as Eo by by destruct c.
  eapply thread_moves; try done; try (by destruct c).
  - rewrite full_cb_nil by done. destruct Hd. destruct c; simpl in *. split; try done.
    simpl. intros x Hx. rewrite Ha; [|intros Hx'; by apply (Hdis x)]. auto.
  - rewrite (full_cb_nil (set_cb_buffs c b')) by done. rewrite Eo, Hfo, cb_owned_full.
    change (held_events (Some (ETRelease e))) with [e]. by rewrite Hperm.
  - eapply (local_move f (Some (ETRelease e))); try done; try (by destruct c).
    unfold no_self. rewrite !self_data_full. intros Hns.
    apply app_eq_nil in Hns as [_ Hns]. by destruct c.
Qed.


(** *** Returning to the pool *)

(** What is left of a control block that is cleared. *)
Lemma clear_mem t t' c h :
  held_events t' = held_events t -> data_of PMD_EDU_MEM_SELF (held_events t) = [] ->
  cb_mem_ok (full_cb t c) h ->
  exists h', edu_clear c h = Some (cleared c, h') /\
    cb_mem_ok (full_cb t' (cleared c)) h' /\
    foreign (cb_owned (full_cb t c)) h ⊆ foreign (cb_owned (full_cb t' (cleared c))) h'.
Proof.
  intros Hh Hns Hm. destruct (mem_drop_held _ _ _ Hm) as [Hd _].
  destruct (edu_clear_ok c h Hd) as (h' & -> & Hb & Hfo). exists h'. split; [done|].
  pose proof (cm_blocks _ _ Hm) as Hfull. rewrite cb_owned_full in Hfull.
  set (D := data_of PMD_EDU_MEM_ALLOC (held_events t)) in *.
  apply blocks_ok_app in Hfull as (HD & HC' & Hdis).
  assert (forall x, x ∈ D -> x ∈ h' /\ x ∉ opt_block (cb_errorBuff c)) as HDh.
  { intros x Hx. apply elem_of_foreign. rewrite Hfo. apply elem_of_foreign.
    destruct HD as [_ HF]. rewrite Forall_forall in HF. split; [by apply HF|auto]. }
  assert (cb_owned (full_cb t' (cleared c)) ≡ₚ D ++ opt_block (cb_errorBuff c)) as Ho.
  { rewrite cb_owned_full, Hh. done. }
  split.
  - destruct (buf_new_inv h') as [Hs _].
    split; rewrite ?self_data_full, ?Hh, ?Hns; simpl; try done; [|constructor|].
    + rewrite Ho. apply blocks_ok_app. split_and!; [|done|].
      * eapply blocks_ok_mono; [done|]. intros x Hx _. by apply HDh.
      * intros x Hx. by apply HDh.
    + intros x Hx. by apply not_elem_of_nil in Hx.
  - intros x. rewrite Ho, cb_owned_full, !elem_of_foreign, !elem_of_app. fold D. intros [Hx Hn].
    assert (x ∈ foreign (opt_block (cb_errorBuff c)) h') as Hf.
    { rewrite Hfo. apply elem_of_foreign. tauto. }
    apply elem_of_foreign in Hf. tauto.
Qed.

Lemma pool_return p c (Ht : T !! p = Some ETReturn) (Hc : C !! p = Some c) :
  mg_runs m !! cb_eduID c = Some p -> isSystemCB f c = false -> starters K p = O ->
  let c1 := set_cb_type (set_cb_status c PMD_EDU_IDLE) (status_code PMD_EDU_UNKNOW) in
  let m1 := with_maps m (delete (cb_eduID c) (mg_runs m)) (<[cb_eduID c := p]> (mg_idles m)) in
  exists h', edu_clear c1 (w_mem (g_w g)) = Some (cleared c1, h') /\
    config_ok f (set_thread g (mkWorld m1 (<[p := cleared c1]> C) h') p (ETLoop 0)).
Proof.
  intros Hr Hsys Hn c1 m1. destruct (thread_local _ _ _ Ht Hc) as [_ Hm].
  assert (cb_mem_ok (full_cb (Some ETReturn) c1) (w_mem (g_w g)) /\
          cb_owned (full_cb (Some ETReturn) c1) = cb_owned (full_cb (Some ETReturn) c)) as [Hm1 Ho1].
  { apply mem_cong; try (by destruct c); done. }
  destruct (clear_mem (Some ETReturn) (Some (ETLoop 0)) c1 _ eq_refl eq_refl Hm1)
    as (h' & -> & Hm' & Hfo).
  exists h'. split; [done|].
  assert (cb_eduID (cleared c1) = cb_eduID c) as Hid by by destruct c.
  assert (forall id, mg_runs m !! id = Some p -> id = cb_eduID c) as Huniq.
  { intros id Hp. destruct (mo_runs _ _ (ok_maps _ _ Hg) _ _ Hp) as (d & Hd & <-). congruence. }
  apply (cb_step_ok f g m1 c); simpl; rewrite ?lookup_insert_eq; try done.
  - split; [done|]. intros id Hne. simpl. by rewrite lookup_delete_ne, lookup_insert_ne.
  - intros q. by rewrite lookup_delete_eq.
  - intros q Hq. by injection Hq as <-.
  - intros q Hq. by rewrite lookup_insert_ne.
  - pose proof (ok_index _ _ Hg) as Hx.
    eapply (index_change f m m1 C _ p (cb_eduID c)); try apply Hx; simpl; try done.
    + intros id Hne. by rewrite lookup_delete_ne.
    + intros q Hq. by rewrite lookup_insert_ne.
    + intros t. change (getSystemEDU m1 t) with (getSystemEDU m t). rewrite (ix_system _ _ _ Hx).
      split; intros (q & d & Hq & Hd & _ & Hs).
      * rewrite Hr in Hq. injection Hq as <-. congruence.
      * simpl in Hq. by rewrite lookup_delete_eq in Hq.
    + intros tid id Hid'. destruct (ix_tid _ _ _ Hx _ _ Hid') as [q Hq]. unfold getPtrByID in *.
      simpl. destruct (decide (id = cb_eduID c)) as [->|Hne].
      * rewrite lookup_delete_eq, lookup_insert_eq. by eexists.
      * rewrite lookup_delete_ne, lookup_insert_ne by done. by eexists.
  - apply (attached_thread m C T p c (cleared c1) ETReturn (ETLoop 0)); try done. apply Hg.
  - by eapply roles_thread; [apply Hg|].
  - by rewrite Ht, <- Ho1.
  - unfold place_of. rewrite Hid. simpl. rewrite lookup_delete_eq, lookup_insert_eq. simpl.
    rewrite decide_True by done. apply lo_idle; try done. by destruct c.
Qed.

Lemma return_ok p :
  T !! p = Some ETReturn ->
  step_safe f ('(d, w) ← returnEDU_latched f (g_w g) p;
    Some (set_thread g w p (if d : bool then ETDelete else ETLoop 0))).
Proof.
  intros Ht. destruct (thread_cb _ _ Ht) as [c Hc]. destruct (thread_local _ _ _ Ht Hc) as [Hl Hm].
  unfold returnEDU_latched. rewrite Hc. simpl. unfold PMD_IS_EDU_CREATING.
  set (td := _ || match getItem f _ with Some i => _ | None => _ end).
  destruct (place_cases p c Hc) as [[Hp Hr]|[(Hp & Hi & Hr)|(Hp & Hi & Hr)]]; rewrite Hp in Hl;
    inversion Hl as [|Hst _ Hn|Hst Hres Hca Hns Hreg Hsy|Hst Hz Hn]; subst; try done.
  - rewrite bool_decide_eq_true_2 by done. simpl. eexists. split; [done|].
    eapply thread_same; [done|done|done|done|]. rewrite Hp. by apply lo_creating.
  - rewrite bool_decide_eq_false_2 by (destruct Hst as [E|E]; by rewrite E). rewrite Hr.
    destruct td eqn:Etd; simpl.
    + rewrite (erased_from_runs _ _ _ _ (ok_maps _ _ Hg) Hr). eexists. split; [done|].
      by eapply take_out.
    + assert (isSystemCB f c = false) as Hsys.
      { unfold td in Etd. apply orb_false_iff in Etd as [_ Etd]. unfold isSystemCB, ep_isSystemType.
        unfold isPoolable in Etd. destruct (getItem f (cb_eduType c)); [|done].
        by rewrite negb_involutive in Etd. }
      destruct (pool_return p c Ht Hc Hr Hsys Hn) as (h' & E & Hok).
      simpl status_code in E. rewrite E. simpl. eexists. by split.
  - rewrite bool_decide_eq_false_2 by by rewrite Hst. rewrite Hr, Hi.
    destruct td; simpl.
    + rewrite (erased_from_idles _ _ _ _ (ok_maps _ _ Hg) Hi). eexists. split; [done|].
      by eapply take_out.
    + destruct (clear_mem (Some ETReturn) (Some (ETLoop 0)) c _ eq_refl eq_refl Hm)
        as (h' & -> & Hm' & Hfo). simpl. eexists. split; [done|].
      eapply thread_moves; try done. rewrite Hp. by apply lo_idle.
Qed.


(** *** Callers of [startEDU] *)

Lemma starters_insert K' k cl p :
  K' !! k = None ->
  starters (<[k := cl]> K') p =
    ((if decide (starter_of cl = Some p) then 1 else 0) + starters K' p)%nat.
Proof.
  intros Hk. unfold starters. destruct (decide (starter_of cl = Some p)) as [E|E].
  - rewrite map_filter_insert_True by done. rewrite map_size_insert_None; [done|].
    rewrite map_lookup_filter_None. by left.
  - rewrite map_filter_insert_False by done. by rewrite delete_id.
Qed.

Lemma starters_delete K' k cl p :
  K' !! k = Some cl ->
  starters K' p =
    ((if decide (starter_of cl = Some p) then 1 else 0) + starters (delete k K') p)%nat.
Proof.
  intros Hk. rewrite <- (insert_delete_id K' k cl Hk) at 1.
  apply starters_insert, lookup_delete_eq.
Qed.

Lemma starters_replace K' k cl cl' p :
  K' !! k = Some cl -> starter_of cl' = starter_of cl ->
  starters (<[k := cl']> K') p = starters K' p.
Proof.
  intros Hk Hs. rewrite (starters_delete K' k cl p Hk), <- insert_delete_eq.
  rewrite starters_insert by apply lookup_delete_eq. by rewrite Hs.
Qed.

Definition is_new (cl : eduClient) : bool :=
  match cl with CLNew _ _ _ _ _ => true | _ => false end.

Lemma roles_client C' T' K' k cl p :
  roles_ok C' T' K' -> (forall cl0, K' !! k = Some cl0 -> is_new cl0 = false) ->
  starter_of cl = Some p -> is_Some (C' !! p) -> roles_ok C' T' (<[k := cl]> K').
Proof.
  intros [H1 H2 H3 H4 H5 H6] Hk Hs Hp.
  assert (forall k' q id ty s i, <[k := cl]> K' !! k' = Some (CLNew q id ty s i) ->
    K' !! k' = Some (CLNew q id ty s i)) as Hnew.
  { intros k' q id ty s i. rewrite lookup_insert_Some. intros [[_ E]|[_ ?]]; [by subst cl|done]. }
  split; [done| | | | |].
  - intros q c Hc Ht. destruct (H2 _ _ Hc Ht) as (k' & id & ty & s & i & Hk').
    exists k', id, ty, s, i. rewrite lookup_insert_ne; [done|]. intros <-.
    by apply Hk in Hk'.
  - intros k' cl' q. rewrite lookup_insert_Some. intros [[<- <-]|[_ Hk']] Hq; [|by eapply H3].
    rewrite Hs in Hq. by injection Hq as <-.
  - intros k' q id ty s i Hk'. by apply (H4 k' q id ty s i), Hnew.
  - intros k1 k2 q id ty s i id' ty' s' i' E1 E2. apply (H5 k1 k2 q id ty s i id' ty' s' i'); by apply Hnew.
  - intros k' cl'. rewrite lookup_insert_Some. intros [[<- <-]|[_ Hk']]; [by destruct cl|by eapply H6].
Qed.

Lemma roles_drop C' T' K' k cl :
  roles_ok C' T' K' -> K' !! k = Some cl -> is_new cl = false ->
  roles_ok C' T' (delete k K').
Proof.
  intros [H1 H2 H3 H4 H5 H6] Hk Hn.
  assert (forall k' cl', delete k K' !! k' = Some cl' -> K' !! k' = Some cl') as Hsub.
  { intros k' cl'. rewrite lookup_delete_Some. tauto. }
  split; [done| |intros k' cl' q Hk'; by eapply H3, Hsub|
          intros k' q id ty s i Hk'; by apply (H4 k' q id ty s i), Hsub| |
          intros k' cl' Hk'; by eapply H6, Hsub].
  - intros q c Hc Ht. destruct (H2 _ _ Hc Ht) as (k' & id & ty & s & i & Hk').
    exists k', id, ty, s, i. rewrite lookup_delete_ne; [done|]. intros <-.
    rewrite Hk in Hk'. injection Hk' as ->. done.
  - intros k1 k2 q id ty s i id' ty' s' i' E1 E2. apply (H5 k1 k2 q id ty s i id' ty' s' i'); by apply Hsub.
Qed.

(** The flags are not part of the invariant. *)
Lemma flags_ok m' :
  m' = with_flags m (mg_isDestroyed m') (mg_isQuiesced m') (mg_maxPooled m')
         (mg_monitor m') (mg_ioServices m') ->
  config_ok f (set_world g (set_mgr (g_w g) m')).
Proof.
  intros ->. destruct Hg as [[? ? ? ? ? ?] [? ? ? ?] Ha Hr Hme Hl].
  split; simpl; try done; split; done.
Qed.

Lemma pool_take id p c type i k initName args :
  mg_idles m !! id = Some p -> C !! p = Some c ->
  K !! k = None -> getItem f type = Some i -> ep_pFunc i <> 0 -> ep_isSystem i = false ->
  config_ok f (mkConfig (mkWorld
    (with_maps m (<[cb_eduID c := p]> (mg_runs m)) (delete id (mg_idles m)))
    (<[p := set_cb_status (set_cb_type c type) PMD_EDU_CREATING]> C) (w_mem (g_w g)))
    T (<[k := CLGot p initName args]> K)).
Proof.
  intros Hi Hc Hk Hit Hf Hs. pose proof (ok_maps _ _ Hg) as Hm.
  destruct (mo_idles _ _ Hm _ _ Hi) as (d & Hd & <-). rewrite Hc in Hd. injection Hd as <-.
  set (c' := set_cb_status (set_cb_type c type) PMD_EDU_CREATING).
  assert (cb_eduID c' = cb_eduID c) as Hid by by destruct c.
  assert (isSystemCB f c' = false) as Hsys.
  { unfold isSystemCB, ep_isSystemType. replace (cb_eduType c') with type by by destruct c.
    by rewrite Hit. }
  pose proof (ok_local _ _ Hg _ _ Hc) as Hl.
  pose proof (me_cb _ _ _ (ok_mem _ _ Hg) _ _ Hc) as Hmem.
  destruct (mem_cong (T !! p) (T !! p) c c' (w_mem (g_w g))) as [Hm' Ho]; try (by destruct c).
  destruct (place_cases p c Hc) as [[E Hr]|[(Hp & _ & Hr)|(E & _ & Hr)]]; [|rewrite Hp in Hl|congruence].
  { rewrite (mo_disj _ _ Hm) in Hi; [done|eauto]. }
  inversion Hl as [|Hst Hz Hn Hca Hns| |]; subst.
  assert (forall q, mg_runs m !! q = Some p -> False) as Hnr.
  { intros q Hq. destruct (mo_runs _ _ Hm _ _ Hq) as (d & Hd & <-). congruence. }
  apply (cb_step_ok f g _ c); simpl; rewrite ?lookup_insert_eq; try done.
  - split; [done|]. intros q Hq. simpl. by rewrite lookup_delete_ne, lookup_insert_ne.
  - intros q [= <-]. by rewrite lookup_delete_eq.
  - intros q. by rewrite lookup_delete_eq.
  - intros q Hq. rewrite starters_insert by done. simpl. rewrite decide_False by congruence. done.
  - pose proof (ok_index _ _ Hg) as Hx.
    eapply (index_change f m _ C _ p (cb_eduID c)); try apply Hx; simpl; try done.
    + intros q Hq. by rewrite lookup_insert_ne.
    + intros q Hq. by rewrite lookup_insert_ne.
    + intros q Hq. by destruct (Hnr q).
    + intros t. change (getSystemEDU _ t) with (getSystemEDU m t). rewrite (ix_system _ _ _ Hx).
      split; intros (q & d & Hq & Hd & _ & Hss); [congruence|].
      simpl in Hq. rewrite lookup_insert_eq in Hq. injection Hq as <-.
      rewrite lookup_insert_eq in Hd. congruence.
    + intros tid q Hid'. destruct (ix_tid _ _ _ Hx _ _ Hid') as [r Hq]. unfold getPtrByID in *.
      simpl. destruct (decide (q = cb_eduID c)) as [->|Hne].
      * rewrite lookup_insert_eq. by eexists.
      * rewrite lookup_delete_ne, lookup_insert_ne by done. by eexists.
  - apply (attached_cb m C T p c c'); [apply Hg|done|done].
  - eapply roles_client; [by apply roles_cb; [apply Hg|eauto]|by rewrite Hk|done|].
    rewrite lookup_insert_eq. by eexists.
  - by rewrite Ho.
  - unfold place_of. rewrite Hid. simpl. rewrite lookup_insert_eq, decide_True by done.
    rewrite starters_insert by done. simpl. rewrite decide_True, Hn by done.
    assert (resumes (T !! p) c' = resumes (T !! p) c) as Er by by destruct c.
    apply lo_creating; [by destruct c|rewrite Er, Hz; done|done| | |done].
    + unfold no_self, full_cb in *. by destruct c.
    + exists i. by destruct c.
Qed.

End steps.
