(* ===== verification/PmdEDUCalls.v ===== *)
(** * Every step of the executors is defined and keeps the invariant:
    callers of [startEDU], creation, and control by others *)
From S2P Require Import Prelude.
From S2P Require Import OssMem.
From S2P Require Import PmdBase.
From S2P Require Import PmdEDU.
From S2P Require Import PmdEDUOk.
From S2P Require Import PmdEDUClear.
From S2P Require Import PmdEDUMgr.
From S2P Require Import PmdEDURun.
From S2P Require Import PmdEDURunOk.
From S2P Require Import PmdEDUSteps.
From Stdlib Require Import String.
#[local] Open Scope Z_scope.

(** ** Changes that others make: events without data, and control flags *)

Record quiet (c c' : pmdEDUCB) : Prop := mkQuiet {
  qt_id : cb_eduID c' = cb_eduID c;
  qt_type : cb_eduType c' = cb_eduType c;
  qt_status : cb_status c' = cb_status c;
  qt_buffs : cb_buffs c' = cb_buffs c;
  qt_mem : cb_alignedMem c' = cb_alignedMem c;
  qt_size : cb_alignedMemSize c' = cb_alignedMemSize c;
  qt_error : cb_errorBuff c' = cb_errorBuff c;
  qt_queue : exists q, cb_queue c' = cb_queue c ++ q /\
    Forall (fun e => ~ is_resume e /\ ev_dataMemType e = PMD_EDU_MEM_NONE) q
}.

Lemma quiet_interrupt c : quiet c (interrupt c).
Proof. destruct c. split; try done. exists []. simpl. by rewrite app_nil_r. Qed.

Lemma quiet_disconnect c : quiet c (disconnect c).
Proof.
  destruct c. split; try done. exists [event_of PMD_EDU_EVENT_TERM]. split; [done|].
  by repeat constructor.
Qed.

Lemma quiet_force c : quiet c (force c).
Proof.
  destruct c. split; try done. exists [event_of PMD_EDU_EVENT_TERM]. split; [done|].
  by repeat constructor.
Qed.

Lemma data_of_app t q q' : data_of t (q ++ q') = data_of t q ++ data_of t q'.
Proof. apply flat_map_app. Qed.

Lemma data_of_none t q :
  t <> PMD_EDU_MEM_NONE -> Forall (fun e => ev_dataMemType e = PMD_EDU_MEM_NONE) q -> data_of t q = [].
Proof.
  intros Ht. induction 1 as [|e q He Hq IH]; [done|]. rewrite data_of_cons, IH.
  unfold data_of. simpl. rewrite He, bool_decide_eq_false_2; [done|]. congruence.
Qed.

(** An event without data at the end of the queue changes no ownership. *)
Lemma mem_append t c c' q h :
  cb_buffs c' = cb_buffs c -> cb_alignedMem c' = cb_alignedMem c ->
  cb_alignedMemSize c' = cb_alignedMemSize c -> cb_errorBuff c' = cb_errorBuff c ->
  cb_queue c' = cb_queue c ++ q ->
  Forall (fun e => ev_dataMemType e = PMD_EDU_MEM_NONE) q ->
  cb_mem_ok (full_cb t c) h ->
  cb_mem_ok (full_cb t c') h /\ cb_owned (full_cb t c') = cb_owned (full_cb t c) /\
  (no_self t c -> no_self t c').
Proof.
  intros Hb Ha Has He Hq Hn Hm.
  assert (forall ty, ty <> PMD_EDU_MEM_NONE ->
    data_of ty (held_events t ++ cb_queue c') = data_of ty (held_events t ++ cb_queue c)) as Hd.
  { intros ty Hty. rewrite Hq, !data_of_app, (data_of_none ty q) by done. by rewrite app_nil_r. }
  assert (cb_owned (full_cb t c') = cb_owned (full_cb t c)) as Ho.
  { unfold cb_owned, cb_other, full_cb. pose proof (Hd PMD_EDU_MEM_ALLOC ltac:(done)) as E.
    destruct c, c'; simpl in *. by rewrite E, Hb, Ha, He. }
  pose proof (Hd PMD_EDU_MEM_SELF ltac:(done)) as Es. split_and!; [|done|].
  - destruct Hm as [H1 H2 H3 H4 H5 H6]. rewrite <- Ho in H3.
    destruct c, c'; unfold full_cb in *; simpl in *. subst. split; simpl; rewrite ?Es; try done.
  - unfold no_self, full_cb. destruct c, c'; simpl in *. by rewrite Es.
Qed.

Lemma resumes_append t c c' q :
  cb_queue c' = cb_queue c ++ q ->
  resumes t c' = (resumes t c + List.length (filter is_resume q))%nat.
Proof.
  intros Hq. unfold resumes. rewrite Hq, !filter_app, !length_app. lia.
Qed.

Lemma perm_lift {A} (a b d e : list A) : a ++ b ++ d ++ e ≡ₚ d ++ a ++ b ++ e.
Proof. rewrite !(app_assoc a b). apply Permutation_app_swap_app. Qed.

Section calls.
Context (f : pmdEPFactory) (g : config) (Hg : config_ok f g).

Abbreviation m := (w_mgr (g_w g)).
Abbreviation C := (w_cbs (g_w g)).
Abbreviation T := (g_threads g).
Abbreviation K := (g_clients g).

Lemma pool_ok k type initName args i :
  K !! k = None -> getItem f type = Some i -> ep_pFunc i <> 0 -> ep_isSystem i = false ->
  step_safe f ('(o, w) ← getFromPool (g_w g) type;
    Some (match o with
          | Some p => mkConfig w T (<[k := CLGot p initName args]> K)
          | None => set_world g w
          end)).
Proof.
  intros Hk Hi Hf Hs. unfold getFromPool.
  destruct (head (std_keys (mg_idles m))) as [id|] eqn:E; simpl.
  - apply std_keys_head in E as [[p Hp] _]. rewrite Hp. simpl.
    destruct (mo_idles _ _ (ok_maps _ _ Hg) _ _ Hp) as (c & Hc & _). rewrite Hc. simpl.
    pose proof (pool_take f g Hg id p c type i k initName args Hp Hc Hk Hi Hf Hs) as Hok.
    destruct (_ <? _); simpl; eexists; (split; [done|]); [|exact Hok].
    exact (flags_ok f _ Hok _ eq_refl).
  - destruct (_ <? _); simpl; eexists; (split; [done|]).
    + by apply flags_ok.
    + by destruct g.
Qed.

Lemma starters_pos k cl p : K !! k = Some cl -> starter_of cl = Some p -> starters K p <> O.
Proof. intros Hk Hs Hn. by eapply starters_zero. Qed.

(** A control block a caller of [startEDU] has taken: it is in use, being
    created, and no resume event is on its way. *)
Lemma starter_local k cl p :
  K !! k = Some cl -> starter_of cl = Some p ->
  exists c, C !! p = Some c /\ starters K p = 1%nat /\ place_of m p c = InRuns /\
    cb_status c = PMD_EDU_CREATING /\ resumes (T !! p) c = O /\ calm (T !! p) /\
    no_self (T !! p) c /\ registered f c /\ isSystemCB f c = false /\
    cb_mem_ok (full_cb (T !! p) c) (w_mem (g_w g)).
Proof.
  intros Hk Hs. destruct (rl_starter _ _ _ (ok_roles _ _ Hg) _ _ _ Hk Hs) as [c Hc].
  pose proof (starters_pos _ _ _ Hk Hs) as Hn. pose proof (ok_local _ _ Hg _ _ Hc) as Hl.
  exists c. inversion Hl as [| |Hst Hres Hca Hns Hreg Hsys Hp|]; try congruence.
  assert (starters K p = 1%nat) as E1 by lia. assert (resumes (T !! p) c = O) by lia.
  split_and!; auto. apply Hg. done.
Qed.

Lemma clear_ok k p initName args :
  K !! k = Some (CLGot p initName args) ->
  step_safe f (w ← start_clear (g_w g) p;
    Some (mkConfig w T (<[k := CLClear p initName args]> K))).
Proof.
  intros Hk. destruct (starter_local k _ p Hk eq_refl)
    as (c & Hc & Hn & Hp & Hst & Hres & Hca & Hns & Hreg & Hsys & Hm).
  unfold start_clear. rewrite Hc. simpl.
  assert (data_of PMD_EDU_MEM_SELF (held_events (T !! p)) = []) as Hself.
  { unfold no_self in Hns. rewrite self_data_full in Hns. by apply app_eq_nil in Hns as [? _]. }
  destruct (clear_mem (T !! p) (T !! p) c _ eq_refl Hself Hm) as (h' & -> & Hm' & Hfo). simpl.
  eexists. split; [done|].
  destruct (maps_same _ _ _ _ (ok_maps _ _ Hg) Hc) as (Hs1 & Hs2 & Hs3).
  apply (cb_step_ok f g _ c); try done.
  - intros q Hq. by eapply starters_replace.
  - apply (index_same _ _ _ _ c); [apply Hg|done..].
  - by eapply attached_cb; [apply Hg|..].
  - eapply (roles_client _ _ _ _ _ p); [by apply roles_cb; [apply Hg|eauto]| |done|].
    + intros cl0 E. rewrite Hk in E. by injection E as <-.
    + rewrite lookup_insert_eq. by eexists.
  - rewrite (starters_replace K k _ _ p Hk) by done. rewrite Hn.
    replace (place_of _ p (cleared c)) with InRuns.
    apply lo_creating; try done; [|by unfold no_self; rewrite self_data_full, Hself].
    unfold resumes in Hres |- *. simpl. rewrite filter_app, length_app in Hres.
    rewrite app_nil_r. lia.
Qed.

Lemma post_ok k p initName args :
  K !! k = Some (CLClear p initName args) ->
  step_safe f (w ← start_post (g_w g) p initName args; Some (mkConfig w T (delete k K))).
Proof.
  intros Hk. destruct (starter_local k _ p Hk eq_refl)
    as (c & Hc & Hn & Hp & Hst & Hres & Hca & Hns & Hreg & Hsys & Hm).
  unfold start_post. rewrite Hc. simpl. eexists. split; [done|].
  set (e := mkEvent PMD_EDU_EVENT_RESUME 0 PMD_EDU_MEM_NONE args).
  set (c' := startEDU_post c initName args).
  assert (cb_eduID c' = cb_eduID c /\ cb_eduType c' = cb_eduType c /\
    cb_status c' = cb_status c /\ cb_queue c' = cb_queue c ++ [e] /\ cb_buffs c' = cb_buffs c /\
    cb_alignedMem c' = cb_alignedMem c /\ cb_alignedMemSize c' = cb_alignedMemSize c /\
    cb_errorBuff c' = cb_errorBuff c) as (Hid & Hty & Hst' & Hq & ? & ? & ? & ?).
  { unfold c'. destruct initName; by destruct c. }
  destruct (mem_append (T !! p) c c' [e] (w_mem (g_w g))) as (Hm' & Ho & Hns'); try done;
    [by repeat constructor|].
  destruct (maps_same _ _ _ _ (ok_maps _ _ Hg) Hc) as (Hs1 & Hs2 & Hs3).
  apply (cb_step_ok f g _ c); try done.
  - intros q Hne. rewrite (starters_delete K k _ q Hk). simpl. by rewrite decide_False by congruence.
  - apply (index_same _ _ _ _ c); [apply Hg|done|unfold isSystemCB; by rewrite Hty|done].
  - by eapply attached_cb; [apply Hg|..].
  - eapply roles_drop; [by apply roles_cb; [apply Hg|eauto]|done|done].
  - by rewrite Ho.
  - replace (place_of _ p c') with InRuns by (rewrite <- Hp; unfold place_of; by rewrite Hid).
    rewrite (starters_delete K k _ p Hk) in Hn. simpl in Hn. rewrite decide_True in Hn by done.
    apply lo_creating; try done; auto.
    + congruence.
    + rewrite (resumes_append _ c c' [e]), Hres by done. simpl. lia.
    + destruct Hreg as (i & ? & ?). exists i. by rewrite Hty.
    + lia.
Qed.

(** *** Control by others *)

Lemma quiet_ok p c c' :
  C !! p = Some c -> quiet c c' -> config_ok f (set_world g (set_cb (g_w g) p c')).
Proof.
  intros Hc [Hid Hty Hst Hb Ha Has He (q & Hq & Hf)].
  pose proof (me_cb _ _ _ (ok_mem _ _ Hg) _ _ Hc) as Hm.
  destruct (mem_append (T !! p) c c' q (w_mem (g_w g))) as (Hm' & Ho & Hns); try done.
  { eapply Forall_impl; [done|]. by intros e [_ ?]. }
  eapply cb_changes; try done; [by rewrite Ho|].
  eapply (local_move f (T !! p) (T !! p) c c'); try done; [by apply Hg|].
  intros _. rewrite (resumes_append _ c c' q), no_resumes; [simpl; lia| |done].
  eapply Forall_impl; [done|]. by intros e [? _].
Qed.

Lemma user_ok act id :
  act = force \/ act = interrupt \/ act = disconnect ->
  step_safe f ('(_, w) ← user_op f act (g_w g) id; Some (set_world g w)).
Proof.
  intros Hact. assert (forall c, quiet c (act c)) as Hq.
  { intros c. destruct Hact as [->|[->| ->]];
      auto using quiet_force, quiet_interrupt, quiet_disconnect. }
  assert (config_ok f (set_world g (g_w g))) as Hsame by by destruct g.
  unfold user_op. destruct (mg_runs m !! id) as [p|] eqn:Er.
  - destruct (mo_runs _ _ (ok_maps _ _ Hg) _ _ Er) as (c & Hc & _). rewrite Hc. simpl.
    destruct (_ || _); simpl; eexists; (split; [done|]); [done|]. by eapply quiet_ok.
  - destruct (mg_idles m !! id) as [p|] eqn:Ei; simpl; [|eexists; by split].
    destruct (mo_idles _ _ (ok_maps _ _ Hg) _ _ Ei) as (c & Hc & _). rewrite Hc. simpl.
    eexists. split; [done|]. by eapply quiet_ok.
Qed.


Lemma map_ptrs_live (M : gmap Z Z) :
  (forall id p, M !! id = Some p -> exists c, C !! p = Some c /\ cb_eduID c = id) ->
  Forall (fun p => is_Some (C !! p)) (map_ptrs M).
Proof.
  intros H. apply Forall_forall. intros p Hp. unfold map_ptrs in Hp.
  apply list_elem_of_omap in Hp as (id & _ & Hid). destruct (H _ _ Hid) as (c & Hc & _). eauto.
Qed.

Lemma deref_all_ok ps : Forall (fun p => is_Some (C !! p)) ps -> is_Some (deref_all ps C).
Proof.
  induction 1 as [|p ps [c Hc] _ [l IH]]; simpl; [by eexists|]. rewrite Hc. simpl. rewrite IH.
  by eexists.
Qed.

Lemma read_ok : step_safe f (_ ← dumpAbnormalEDU (g_w g); Some g).
Proof.
  unfold dumpAbnormalEDU. pose proof (ok_maps _ _ Hg) as Hm.
  destruct (deref_all_ok _ (map_ptrs_live _ (mo_runs _ _ Hm))) as [l ->]. simpl.
  destruct (deref_all_ok _ (map_ptrs_live _ (mo_idles _ _ Hm))) as [l' ->]. simpl.
  eexists. by split.
Qed.

(** [waitEDU] and [activateEDU] change the status of an executor that runs or
    waits to one of the two, and nothing else. *)
Lemma status_op_active op c :
  op = waitEDU \/ op = activateEDU ->
  cb_status c = PMD_EDU_RUNNING \/ cb_status c = PMD_EDU_WAITING ->
  (op c).2 = c \/ exists s, (s = PMD_EDU_RUNNING \/ s = PMD_EDU_WAITING) /\ (op c).2 = set_cb_status c s.
Proof.
  intros [-> | ->] [E|E]; unfold waitEDU, activateEDU; rewrite E; simpl; eauto.
Qed.

Lemma status_ok op id :
  op = waitEDU \/ op = activateEDU -> not_creating g id ->
  step_safe f ('(_, w) ← status_by_id op (g_w g) id; Some (set_world g w)).
Proof.
  intros Hop Hnc. unfold status_by_id. destruct (mg_runs m !! id) as [p|] eqn:Er; simpl.
  2:{ eexists. split; [done|]. by destruct g as [[]]. }
  destruct (mo_runs _ _ (ok_maps _ _ Hg) _ _ Er) as (c & Hc & Hid). rewrite Hc. simpl.
  destruct (op c) as [rc c'] eqn:Eop. simpl. eexists. split; [done|].
  pose proof (ok_local _ _ Hg _ _ Hc) as Hl. unfold place_of in Hl. rewrite Hid, decide_True in Hl by done.
  inversion Hl as [| |Hst|Hst Hres Hn Hb Hreg]; [by destruct (Hnc _ _ Er Hc)|].
  pose proof (status_op_active op c Hop Hst) as Ho. rewrite Eop in Ho. simpl in Ho.
  assert (place_of m p c = InRuns) as Hp by (unfold place_of; rewrite Hid; by rewrite decide_True).
  pose proof (me_cb _ _ _ (ok_mem _ _ Hg) _ _ Hc) as Hm.
  assert (exists s, (s = PMD_EDU_RUNNING \/ s = PMD_EDU_WAITING) /\ c' = set_cb_status c s) as (s & Hs & ->).
  { destruct Ho as [->|Ho]; [|done]. exists (cb_status c). split; [done|by destruct c]. }
  destruct (status_mem (T !! p) (T !! p) c s _ eq_refl Hm) as [Hm' Ho'].
  unfold set_cb. apply (cb_changes f g p c); try done; try (by destruct c). rewrite Hp.
  apply lo_active; try done; by destruct c.
Qed.

(** An event that carries a block nobody owns. *)
Lemma event_mem p c c' e :
  C !! p = Some c -> c' = postEvent c e -> post_legal g e ->
  mem_ok (<[p := c']> C) T (w_mem (g_w g)) /\ (no_self (T !! p) c -> no_self (T !! p) c').
Proof.
  intros Hc -> (_ & Hns & Hal). pose proof (ok_mem _ _ Hg) as [M1 M2].
  set (D := data_of PMD_EDU_MEM_ALLOC [e]).
  assert (cb_owned (full_cb (T !! p) (postEvent c e)) ≡ₚ D ++ cb_owned (full_cb (T !! p) c)) as Ho.
  { unfold cb_owned, cb_other, full_cb, postEvent. destruct c; simpl.
    rewrite (app_assoc (held_events _)), data_of_app, <- !app_assoc.
    fold D. apply perm_lift. }
  assert (data_of PMD_EDU_MEM_SELF (cb_queue (full_cb (T !! p) (postEvent c e))) =
          data_of PMD_EDU_MEM_SELF (cb_queue (full_cb (T !! p) c))) as Es.
  { unfold full_cb, postEvent. destruct c; simpl. rewrite (app_assoc (held_events _)), data_of_app.
    rewrite <- (app_nil_r (data_of _ (_ ++ _))) at 2. f_equal. unfold data_of. simpl.
    by rewrite bool_decide_eq_false_2. }
  assert (forall x, x ∈ D -> x <> NULL /\ x ∈ w_mem (g_w g) /\
    forall q d, C !! q = Some d -> x ∉ cb_owned (full_cb (T !! q) d)) as HD.
  { intros x. unfold D, data_of, opt_block. simpl. rewrite app_nil_r.
    destruct (bool_decide_reflect (ev_dataMemType e = PMD_EDU_MEM_ALLOC)) as [Ha|_];
      [|by intros H%not_elem_of_nil].
    destruct (Z.eqb_spec (ev_Data e) NULL) as [|Hn]; [by intros H%not_elem_of_nil|].
    intros ->%list_elem_of_singleton. destruct (Hal Ha Hn). done. }
  assert (NoDup D) as HDn.
  { unfold D, data_of, opt_block. simpl. rewrite app_nil_r. destruct (bool_decide _); [|constructor].
    destruct (_ =? _); [constructor|apply NoDup_singleton]. }
  split; [|unfold no_self; by rewrite Es]. split.
  - intros q d. rewrite lookup_insert_Some. intros [[<- <-]|[_ Hq]]; [|auto].
    destruct (M1 _ _ Hc) as [H1 H2 H3 H4 H5 H6].
    assert (blocks_ok (cb_owned (full_cb (T !! p) (postEvent c e))) (w_mem (g_w g))) as Hb.
    { rewrite Ho. apply blocks_ok_app. split_and!; [|done|].
      - split; [done|]. apply Forall_forall. intros x Hx. destruct (HD x Hx) as (?&?&_). done.
      - intros x Hx. by apply (HD x Hx). }
    split; rewrite ?Es; try done; destruct c; done.
  - intros q r d d' x. rewrite !lookup_insert_Some.
    intros [[<- <-]|[Hn Hq]] [[<- <-]|[Hn' Hr]] Hqr; try done; rewrite ?Ho, ?elem_of_app.
    + intros [Hx|Hx]; [by apply (proj2 (proj2 (HD x Hx)) r d')|].
      by apply (M2 p r c d' x).
    + intros Hx [Hx'|Hx']; [|by apply (M2 q p d c x)].
      by apply (proj2 (proj2 (HD x Hx')) q d).
    + by apply M2.
Qed.

Lemma event_ok id e :
  post_legal g e -> step_safe f ('(_, w) ← postEDUPost (g_w g) id e; Some (set_world g w)).
Proof.
  intros He. unfold postEDUPost. destruct (getPtrByID m id) as [p|] eqn:E.
  2:{ simpl. eexists. split; [done|]. by destruct g. }
  assert (exists c, C !! p = Some c) as [c Hc].
  { unfold getPtrByID in E. pose proof (ok_maps _ _ Hg) as Hm. destruct (mg_runs m !! id) eqn:Er.
    - injection E as ->. destruct (mo_runs _ _ Hm _ _ Er) as (c & ? & _). eauto.
    - destruct (mo_idles _ _ Hm _ _ E) as (c & ? & _). eauto. }
  rewrite Hc. simpl. eexists. split; [done|].
  destruct (event_mem p c _ e Hc eq_refl He) as [Hm Hns].
  assert (cb_eduID (postEvent c e) = cb_eduID c) as Hid by by destruct c.
  assert (cb_eduType (postEvent c e) = cb_eduType c) as Hty by by destruct c.
  destruct (maps_same _ _ _ _ (ok_maps _ _ Hg) Hc) as (Hs1 & Hs2 & Hs3).
  split; simpl; try done.
  - by eapply update_maps; [apply Hg|..].
  - apply (index_same _ _ _ _ c); [apply Hg|done|unfold isSystemCB; by rewrite Hty|done].
  - by eapply attached_cb; [apply Hg|..].
  - apply roles_cb; [apply Hg|eauto].
  - eapply update_local; try done; [apply Hg|apply Hg|].
    replace (place_of _ p (postEvent c e)) with (place_of m p c) by (unfold place_of; by rewrite Hid).
    eapply (local_move f (T !! p) (T !! p) c); try done; [by apply Hg|by destruct c|].
    intros _. rewrite (resumes_append _ c _ [e]) by by destruct c.
    rewrite filter_cons_False by apply He. simpl. lia.
Qed.

End calls.

(** [_forceEDUs]: one executor after the other. *)
Lemma force_loop_ok f sel ps : forall g,
  config_ok f g -> Forall (fun p => is_Some (w_cbs (g_w g) !! p)) ps ->
  exists cbs, force_loop sel ps (w_cbs (g_w g)) = Some cbs /\
    config_ok f (set_world g (mkWorld (w_mgr (g_w g)) cbs (w_mem (g_w g)))) /\
    forall p, is_Some (w_cbs (g_w g) !! p) -> is_Some (cbs !! p).
Proof.
  induction ps as [|p ps IH]; intros g Hg Hps; simpl.
  { exists (w_cbs (g_w g)). split_and!; [done| |done]. by destruct g as [[]]. }
  apply Forall_cons in Hps as [[c Hc] Hps]. rewrite Hc. simpl.
  set (cbs1 := if sel c then _ else _).
  assert (config_ok f (set_world g (mkWorld (w_mgr (g_w g)) cbs1 (w_mem (g_w g)))) /\
    forall q, is_Some (w_cbs (g_w g) !! q) -> is_Some (cbs1 !! q)) as [H1 Hd].
  { unfold cbs1. destruct (sel c); [|by destruct g as [[]]]. split.
    - exact (quiet_ok f g Hg p c (force c) Hc (quiet_force c)).
    - intros q Hq. destruct (decide (q = p)) as [->|]; [rewrite lookup_insert_eq; by eexists|].
      by rewrite lookup_insert_ne. }
  destruct (IH _ H1) as (cbs & Heq & Hok & Hd').
  { eapply Forall_impl; [done|]. simpl. auto. }
  exists cbs. simpl in *. split_and!; auto.
Qed.

Lemma force_all_ok f g property :
  config_ok f g -> step_safe f (w ← forceEDUs f (g_w g) property; Some (set_world g w)).
Proof.
  intros Hg. unfold forceEDUs. pose proof (ok_maps _ _ Hg) as Hm.
  destruct (force_loop_ok f (run_selected f property) _ g Hg
    (map_ptrs_live g _ (mo_runs _ _ Hm))) as (cbs & -> & H1 & Hd). simpl.
  destruct (force_loop_ok f (fun _ => has_prop property PMD_EDU_USER)
    (map_ptrs (mg_idles (w_mgr (g_w g)))) _ H1) as (cbs2 & E & H2 & _).
  { eapply Forall_impl; [apply (map_ptrs_live g _ (mo_idles _ _ Hm))|]. simpl. auto. }
  simpl in E. rewrite E. simpl. eexists. by split.
Qed.
