(* ===== verification/PmdEDUSafe.v ===== *)
(** * Executors: creation, and the theorems about every reachable state *)
From S2P Require Import Prelude.
From S2P Require Import OssMem.
From S2P Require Import PmdBase.
From S2P Require Import PmdEDU.
From S2P Require Import PmdEDUOk.
From S2P Require Import PmdEDUClear.
From S2P Require Import PmdEDUMgr.
From S2P Require Import PmdEDURun.
From S2P Require Import PmdEDURunOk.
From S2P Require Import PmdEDUSteps.
From S2P Require Import PmdEDUCalls.
From Stdlib Require Import String.
#[local] Open Scope Z_scope.

Section create.
Context (f : pmdEPFactory) (g : config) (Hg : config_ok f g).

Abbreviation m := (w_mgr (g_w g)).
Abbreviation C := (w_cbs (g_w g)).
Abbreviation T := (g_threads g).
Abbreviation K := (g_clients g).

Lemma no_starters p : C !! p = None -> starters K p = O.
Proof.
  intros Hp. unfold starters. apply map_size_empty_iff, map_eq. intros k.
  rewrite lookup_empty, map_lookup_filter_None. destruct (K !! k) as [cl|] eqn:Hk; [right|by left].
  intros cl' [= <-] Hs. simpl in Hs.
  destruct (rl_starter _ _ _ (ok_roles _ _ Hg) _ _ _ Hk Hs). congruence.
Qed.

Lemma ids_below id p :
  mg_runs m !! id = Some p \/ mg_idles m !! id = Some p -> id < mg_EDUID m.
Proof.
  pose proof (ok_maps _ _ Hg) as Hm.
  intros [H|H]; [destruct (mo_runs _ _ Hm _ _ H) as (c & Hc & <-)|
                 destruct (mo_idles _ _ Hm _ _ H) as (c & Hc & <-)];
    by destruct (mo_ids _ _ Hm _ _ Hc).
Qed.

Lemma fresh_id :
  mg_runs m !! mg_EDUID m = None /\ mg_idles m !! mg_EDUID m = None.
Proof.
  split; [destruct (mg_runs m !! _) as [p|] eqn:E|destruct (mg_idles m !! _) as [p|] eqn:E]; try done;
    pose proof (ids_below (mg_EDUID m) p); rewrite E in *; naive_solver lia.
Qed.

(** *** A new control block under the next identifier *)

Section insert.
Context (k p : Z) (c : pmdEDUCB) (m' : pmdEDUMgr) (h' : blocks) (id ty : Z) (sy idle : bool).

Abbreviation C' := (<[p := c]> C).
Abbreviation K' := (<[k := CLNew p id ty sy idle]> K).

Context (Hk : K !! k = None) (Hp : C !! p = None).
Context (Hid : cb_eduID c = mg_EDUID m) (Hnext : mg_EDUID m' = mg_EDUID m + 1).
Context (Hoff : forall id, id <> mg_EDUID m ->
  mg_runs m' !! id = mg_runs m !! id /\ mg_idles m' !! id = mg_idles m !! id).
Context (Hr0 : forall q, mg_runs m' !! mg_EDUID m = Some q ->
  q = p /\ mg_idles m' !! mg_EDUID m = None).
Context (Hi0 : forall q, mg_idles m' !! mg_EDUID m = Some q -> q = p).
Context (Htid : mg_tid2edu m' = mg_tid2edu m).

Lemma old_cb q d : C !! q = Some d -> q <> p /\ cb_eduID d <> mg_EDUID m.
Proof.
  intros Hq. split; [congruence|]. destruct (mo_ids _ _ (ok_maps _ _ Hg) _ _ Hq). lia.
Qed.

Lemma cb_either q d : C' !! q = Some d -> (q = p /\ d = c) \/ (q <> p /\ C !! q = Some d).
Proof.
  rewrite lookup_insert_Some. intros [[<- <-]|[Hn Hd]]; [by left|right]. split; [|done].
  intros ->. by apply Hn.
Qed.

Lemma cb_old q : q <> p -> C' !! q = C !! q.
Proof. intros. by rewrite lookup_insert_ne. Qed.

Lemma no_thread : T !! p = None.
Proof.
  destruct (T !! p) eqn:E; [|done]. destruct (rl_thread _ _ _ (ok_roles _ _ Hg) _ _ E). congruence.
Qed.

Lemma create_maps : maps_ok m' C'.
Proof.
  pose proof (ok_maps _ _ Hg) as [Mr Mi Md Mid Minj Mnx]. split; [| | | | |lia].
  - intros i q Hq. destruct (decide (i = mg_EDUID m)) as [->|Hn].
    + destruct (Hr0 _ Hq) as [-> _]. exists c. by rewrite lookup_insert_eq.
    + rewrite (proj1 (Hoff _ Hn)) in Hq. destruct (Mr _ _ Hq) as (d & Hd & <-).
      exists d. rewrite cb_old by by destruct (old_cb _ _ Hd). done.
  - intros i q Hq. destruct (decide (i = mg_EDUID m)) as [->|Hn].
    + rewrite (Hi0 _ Hq). exists c. by rewrite lookup_insert_eq.
    + rewrite (proj2 (Hoff _ Hn)) in Hq. destruct (Mi _ _ Hq) as (d & Hd & <-).
      exists d. rewrite cb_old by by destruct (old_cb _ _ Hd). done.
  - intros i [q Hq]. destruct (decide (i = mg_EDUID m)) as [->|Hn]; [by destruct (Hr0 _ Hq)|].
    destruct (Hoff _ Hn) as [Ha Hb]. rewrite Hb. apply Md. rewrite <- Ha. eauto.
  - intros q d [[-> ->]|[_ Hd]]%cb_either; [lia|]. destruct (Mid _ _ Hd). lia.
  - intros q r d e [[-> ->]|[? Hd]]%cb_either [[-> ->]|[? He]]%cb_either E; try done;
      [| |by eapply Minj].
    + destruct (old_cb _ _ He). congruence.
    + destruct (old_cb _ _ Hd). congruence.
Qed.

Lemma create_index :
  (forall t i, i ∈ getSystemEDU m' t <->
     i ∈ getSystemEDU m t \/ (i = mg_EDUID m /\ system_run f m' C' t i)) ->
  (forall t s, mg_system m' !! t = Some s -> s <> ∅) -> index_ok f m' C'.
Proof.
  intros Hsys Hne. pose proof (ok_index _ _ Hg) as [Xs Xn Xt Xi].
  destruct fresh_id as [Fr Fi]. split; rewrite ?Htid; try done.
  - intros t i. rewrite Hsys, Xs. split.
    + intros [(q & d & Hq & Hd & H)|[_ H]]; [|done]. exists q, d.
      assert (i <> mg_EDUID m) as Hi by congruence. rewrite (proj1 (Hoff i Hi)).
      rewrite cb_old by by destruct (old_cb _ _ Hd). done.
    + intros (q & d & Hq & Hd & H). destruct (decide (i = mg_EDUID m)) as [->|Hn].
      { right. split; [done|]. by exists q, d. }
      left. exists q, d. rewrite (proj1 (Hoff _ Hn)) in Hq.
      destruct (cb_either _ _ Hd) as [[-> ->]|[_ Hd']]; [|done].
      destruct (mo_runs _ _ (ok_maps _ _ Hg) _ _ Hq) as (d & Hd2 & _). congruence.
  - intros tid i Hti. destruct (Xt _ _ Hti) as [q Hq]. unfold getPtrByID in *.
    assert (i <> mg_EDUID m) as Hi by (intros ->; by rewrite Fr, Fi in Hq).
    destruct (Hoff i Hi) as [-> ->]. eauto.
Qed.

Lemma create_attached : attached m' C' T.
Proof.
  intros tid i. rewrite Htid. intros Hti.
  destruct (ok_attached _ _ Hg _ _ Hti) as (q & d & t & Hd & ? & ? & ?). exists q, d, t.
  rewrite cb_old by by destruct (old_cb _ _ Hd). done.
Qed.

Lemma create_roles : roles_ok C' T K'.
Proof.
  clear Hr0 Hi0.
  pose proof (ok_roles _ _ Hg) as [R1 R2 R3 R4 R5 R6].
  assert (forall k' q id' ty' s' i', K' !! k' = Some (CLNew q id' ty' s' i') ->
    (k' = k /\ q = p) \/ (q <> p /\ K !! k' = Some (CLNew q id' ty' s' i'))) as Hnew.
  { intros k' q id' ty' s' i'. rewrite lookup_insert_Some. intros [[<- E]|[_ E]].
    - left. by injection E as ->.
    - right. split; [|done]. intros ->. destruct (R4 _ _ _ _ _ _ E) as [[? ?] _]. congruence. }
  split.
  - intros q t Ht. rewrite cb_old; [eauto|]. intros ->. by rewrite no_thread in Ht.
  - intros q d [[-> ->]|[Hn Hd]]%cb_either Ht.
    + exists k, id, ty, sy, idle. by rewrite lookup_insert_eq.
    + destruct (R2 _ _ Hd Ht) as (k' & id' & ty' & s' & i' & Hk').
      exists k', id', ty', s', i'. rewrite lookup_insert_ne; [done|]. intros <-. congruence.
  - intros k' cl q. rewrite lookup_insert_Some. intros [[_ <-]|[_ Hk']] Hs; [done|].
    destruct (R3 _ _ _ Hk' Hs) as [d Hd]. rewrite cb_old by by destruct (old_cb _ _ Hd). eauto.
  - intros k' q id' ty' s' i' [[-> ->]|[Hn Hk']]%Hnew.
    + rewrite lookup_insert_eq. split; [by eexists|apply no_thread].
    + rewrite cb_old by done. eauto.
  - intros k1 k2 q ? ? ? ? ? ? ? ? [[-> ->]|[Hn H1]]%Hnew [[-> Hq]|[Hn' H2]]%Hnew;
      [done|congruence|congruence|].
    exact (R5 _ _ _ _ _ _ _ _ _ _ _ H1 H2).
  - intros k' cl. rewrite lookup_insert_Some. intros [[_ <-]|[_ Hk']]; [done|by eapply R6].
Qed.

Lemma create_mem :
  cb_mem_ok c h' -> w_mem (g_w g) ⊆ h' -> (forall x, x ∈ cb_owned c -> x ∉ w_mem (g_w g)) ->
  mem_ok C' T h'.
Proof.
  intros Hmem Hsub Hfresh. pose proof (ok_mem _ _ Hg) as [M1 M2].
  assert (full_cb (T !! p) c = c) as Hfull by (rewrite no_thread; by apply full_cb_nil).
  assert (forall q d x, C !! q = Some d -> x ∈ cb_owned (full_cb (T !! q) d) ->
    x ∈ cb_owned c -> False) as Hdis.
  { intros q d x Hd Hx' Hxc. apply (Hfresh x Hxc).
    pose proof (cm_blocks _ _ (M1 _ _ Hd)) as [_ Hf]. rewrite Forall_forall in Hf. by apply Hf. }
  split.
  - intros q d [[-> ->]|[Hn Hd]]%cb_either; [by rewrite Hfull|].
    destruct (M1 _ _ Hd) as [? ? Hb ? ? ?]. split; try done.
    eapply blocks_ok_mono; [done|]. auto.
  - intros q r d e x [[-> ->]|[Hn Hd]]%cb_either [[-> ->]|[Hn' He]]%cb_either Hqr; try done;
      rewrite ?Hfull; [| |by apply M2].
    + intros Hx1 Hx2. by eapply Hdis.
    + intros Hx1 Hx2. by eapply Hdis.
Qed.

Lemma create_local :
  local_ok f None c O (place_of m' p c) -> local_all f m' C' T K'.
Proof.
  intros Hloc q d [[-> ->]|[Hn Hd]]%cb_either; rewrite starters_insert by done; simpl.
  - rewrite no_thread, no_starters by done. done.
  - replace (place_of m' q d) with (place_of m q d); [by apply Hg|].
    unfold place_of. destruct (old_cb _ _ Hd) as [_ Hne']. by destruct (Hoff _ Hne') as [-> ->].
Qed.

End insert.

(** The control block the constructor makes, and its only block. *)
Lemma new_cb_mem type os c h' :
  fresh_block os (w_mem (g_w g)) -> pmdEDUCB_new type os (w_mem (g_w g)) = (c, h') ->
  cb_mem_ok c h' /\ w_mem (g_w g) ⊆ h' /\ (forall x, x ∈ cb_owned c -> x ∉ w_mem (g_w g)).
Proof.
  intros Hf. unfold pmdEDUCB_new, ossMemAlloc. simpl.
  destruct (buf_new_inv (w_mem (g_w g))) as [Hb _].
  destruct os as [x|]; intros [= <- <-]; unfold cb_owned, cb_other, opt_block; simpl.
  - destruct Hf as [Hx0 Hxm]. destruct (Z.eqb_spec x NULL); [done|].
    split_and!; [|set_solver|by intros y ->%list_elem_of_singleton].
    split; simpl; try done; [|constructor|by intros y Hy%not_elem_of_nil].
    unfold cb_owned, cb_other, opt_block. simpl. destruct (Z.eqb_spec x NULL); [done|].
    split; [apply NoDup_singleton|]. constructor; [|constructor]. set_solver.
  - split_and!; [|done|by intros y Hy%not_elem_of_nil].
    split; simpl; try done; [|constructor|by intros y Hy%not_elem_of_nil].
    split; constructor.
Qed.

Lemma thread_ok k p id ty sy idle :
  K !! k = Some (CLNew p id ty sy idle) ->
  step_safe f (Some (mkConfig (g_w g) (<[p := ETStart]> T) (delete k K))).
Proof.
  intros Hk. eexists. split; [done|].
  pose proof Hg as [Hm Hx Hat [R1 R2 R3 R4 R5 R6] [M1 M2] Hlo].
  destruct (R4 _ _ _ _ _ _ Hk) as [Hc Hn].
  assert (forall q, held_events (<[p := ETStart]> T !! q) = held_events (T !! q)) as Hh.
  { intros q. destruct (decide (q = p)) as [->|]; [by rewrite lookup_insert_eq, Hn|].
    by rewrite lookup_insert_ne. }
  assert (forall q d, full_cb (<[p := ETStart]> T !! q) d = full_cb (T !! q) d) as Hfu.
  { intros q d. unfold full_cb. by rewrite Hh. }
  split; simpl; try done.
  - intros tid i Hti. destruct (Hat _ _ Hti) as (q & d & t & Hd & ? & Ht & ?). exists q, d, t.
    rewrite lookup_insert_ne by congruence. done.
  - split.
    + intros q t. rewrite lookup_insert_Some. intros [[<- _]|[_ Ht]]; [done|eauto].
    + intros q d Hd. rewrite lookup_insert_None. intros [Ht Hne].
      destruct (R2 _ _ Hd Ht) as (k' & id' & ty' & s' & i' & Hk').
      exists k', id', ty', s', i'. rewrite lookup_delete_ne; [done|]. intros <-. congruence.
    + intros k' cl q. rewrite lookup_delete_Some. intros [_ Hk'] Hs. eauto.
    + intros k' q id' ty' s' i'. rewrite lookup_delete_Some. intros [Hne Hk'].
      destruct (R4 _ _ _ _ _ _ Hk') as [? Hq]. split; [done|].
      rewrite lookup_insert_ne; [done|]. intros <-.
      apply Hne. exact (R5 _ _ _ _ _ _ _ _ _ _ _ Hk Hk').
    + intros k1 k2 q id1 ty1 s1 i1 id2 ty2 s2 i2. rewrite !lookup_delete_Some.
      intros [_ H1] [_ H2]. exact (R5 _ _ _ _ _ _ _ _ _ _ _ H1 H2).
    + intros k' cl. rewrite lookup_delete_Some. intros [_ Hk']. by eapply R6.
  - split; intros *; rewrite !Hfu; eauto.
  - intros q d Hd. replace (starters (delete k K) q) with (starters K q)
      by by rewrite (starters_delete K k _ q Hk).
    destruct (decide (q = p)) as [->|Hne]; [rewrite lookup_insert_eq|rewrite lookup_insert_ne by done; eauto].
    pose proof (Hlo _ _ Hd) as Hl. rewrite Hn in Hl. by eapply (local_move f None).
Qed.

End create.

(** ** Creating an executor *)

Lemma new_ok f g k p type i initName args os :
  config_ok f g -> g_clients g !! k = None -> w_cbs (g_w g) !! p = None ->
  getItem f type = Some i -> ep_pFunc i <> 0 -> fresh_block os (w_mem (g_w g)) ->
  mg_EDUID (w_mgr (g_w g)) < 18446744073709551615 ->
  step_safe f (let '(id, w) := createNewEDU_insert (g_w g) p type (ep_isSystem i) args
                                 initName os in
    Some (mkConfig w (g_threads g)
      (<[k := CLNew p id type (ep_isSystem i) false]> (g_clients g)))).
Proof.
  intros Hg Hk Hp Hi Hf Hos Hn. unfold createNewEDU_insert.
  destruct (pmdEDUCB_new type os (w_mem (g_w g))) as [c0 h'] eqn:E.
  destruct (new_cb_mem f g Hg type os c0 h' Hos E) as (Hm & Hsub & Hfr).
  set (m := w_mgr (g_w g)) in *.
  set (e := mkEvent PMD_EDU_EVENT_RESUME 0 PMD_EDU_MEM_NONE args).
  set (c := postEvent _ e). set (m1 := with_maps _ _ _).
  pose proof (mo_next _ _ (ok_maps _ _ Hg)) as Hnx. fold m in Hnx.
  assert (mg_EDUID m1 = mg_EDUID m + 1) as Hnext by (simpl; apply u64_id; lia).
  assert (cb_queue c0 = [] /\ cb_eduType c0 = type) as [Hq0 Ht0].
  { unfold pmdEDUCB_new in E. destruct (ossMemAlloc _ _ _). by injection E as <- <-. }
  assert (cb_eduID c = mg_EDUID m /\ cb_eduType c = type /\ cb_status c = PMD_EDU_CREATING /\
    cb_queue c = [e] /\ cb_buffs c = cb_buffs c0 /\ cb_alignedMem c = cb_alignedMem c0 /\
    cb_alignedMemSize c = cb_alignedMemSize c0 /\ cb_errorBuff c = cb_errorBuff c0)
    as (Hid & Hty & Hst & Hq & Hbu & Hal & Has & Her).
  { unfold c. destruct c0, initName; simpl in *; by subst. }
  destruct (mem_append None c0 c [e] h') as (Hm' & Ho & Hns); try done;
    [by rewrite Hq, Hq0|by repeat constructor|by rewrite full_cb_nil|].
  rewrite !full_cb_nil in Hm', Ho by done.
  assert (isSystemCB f c = ep_isSystem i) as Hsys
    by (unfold isSystemCB, ep_isSystemType; by rewrite Hty, Hi).
  set (m2 := if ep_isSystem i then _ else m1).
  assert (mg_EDUID m2 = mg_EDUID m1 /\ mg_runs m2 = mg_runs m1 /\ mg_idles m2 = mg_idles m1 /\
    mg_tid2edu m2 = mg_tid2edu m) as (Em & Er & Ei & Et) by (unfold m2; by destruct (ep_isSystem i)).
  destruct (fresh_id f g Hg) as [Fr Fi]. fold m in Fr, Fi.
  assert (forall id, id <> mg_EDUID m -> mg_runs m2 !! id = mg_runs m !! id /\
    mg_idles m2 !! id = mg_idles m !! id) as Hoff.
  { intros id Hne. rewrite Er, Ei. simpl. by rewrite lookup_insert_ne. }
  assert (mg_runs m2 !! mg_EDUID m = Some p) as Hrun by (rewrite Er; apply lookup_insert_eq).
  assert (mg_EDUID m2 = mg_EDUID m + 1) as Hnext2 by by rewrite Em.
  assert (forall q, mg_runs m2 !! mg_EDUID m = Some q ->
    q = p /\ mg_idles m2 !! mg_EDUID m = None) as Hr0.
  { intros q. rewrite Hrun, Ei. intros [= <-]. done. }
  assert (forall q, mg_idles m2 !! mg_EDUID m = Some q -> q = p) as Hi0.
  { intros q. rewrite Ei. simpl. by rewrite Fi. }
  eexists. split; [done|]. split; cbn [g_w g_threads g_clients w_mgr w_cbs w_mem].
  - by apply (create_maps f g Hg).
  - apply (create_index f g Hg); try done; fold m.
    + intros t id. unfold m2.
      assert (system_run f m2 (<[p := c]> (w_cbs (g_w g))) t (mg_EDUID m) <->
              t = type /\ ep_isSystem i = true) as Hsr.
      { unfold system_run. rewrite Hrun. split.
        - intros (q & d & [= <-] & Hd & <- & Hs). rewrite lookup_insert_eq in Hd.
          injection Hd as <-. by rewrite Hsys in Hs.
        - intros [-> Hs]. exists p, c. rewrite lookup_insert_eq. split_and!; congruence. }
      destruct (ep_isSystem i) eqn:Es.
      * unfold getSystemEDU at 1. cbn [mg_system with_index]. rewrite elem_addToSystem.
        change (default ∅ (mg_system m1 !! t)) with (getSystemEDU m t).
        split; [intros [?|[-> ->]]|intros [?|[-> H]]]; auto; right.
        { split; [done|]. by apply Hsr. } { split; [|done]. by destruct (proj1 Hsr H). }
      * change (getSystemEDU m1 t) with (getSystemEDU m t).
        split; [by left|]. intros [?|[-> H]]; [done|]. by apply Hsr in H as [_ ?].
    + unfold m2. destruct (ep_isSystem i); simpl; [apply addToSystem_nonempty|];
        apply (ix_nonempty _ _ _ (ok_index _ _ Hg)).
  - by apply (create_attached f g Hg).
  - by apply (create_roles f g Hg).
  - apply (create_mem f g Hg); try done. by rewrite Ho, ?full_cb_nil.
  - apply (create_local f g Hg); try done. unfold place_of. rewrite Hid, Hrun, decide_True by done.
    apply lo_creating; try done; [by unfold resumes; simpl; rewrite Hq|apply Hns|].
    + unfold no_self. by rewrite full_cb_nil, Hq0.
    + exists i. by rewrite Hty.
Qed.

Lemma newidle_ok f g k p os :
  config_ok f g -> g_clients g !! k = None -> w_cbs (g_w g) !! p = None ->
  fresh_block os (w_mem (g_w g)) -> mg_EDUID (w_mgr (g_w g)) < 18446744073709551615 ->
  step_safe f (let '(id, w) := createIdleEDU_insert (g_w g) p os in
    Some (mkConfig w (g_threads g) (<[k := CLNew p id PMD_EDU_MIN false true]> (g_clients g)))).
Proof.
  intros Hg Hk Hp Hos Hn. unfold createIdleEDU_insert.
  destruct (pmdEDUCB_new PMD_EDU_MIN os (w_mem (g_w g))) as [c0 h'] eqn:E.
  destruct (new_cb_mem f g Hg _ os c0 h' Hos E) as (Hm & Hsub & Hfr).
  set (m := w_mgr (g_w g)) in *. set (c := set_cb_id _ _). set (m1 := with_maps _ _ _).
  pose proof (mo_next _ _ (ok_maps _ _ Hg)) as Hnx. fold m in Hnx.
  assert (mg_EDUID m1 = mg_EDUID m + 1) as Hnext by (simpl; apply u64_id; lia).
  assert (cb_queue c0 = []) as Hq0.
  { unfold pmdEDUCB_new in E. destruct (ossMemAlloc _ _ _). by injection E as <- <-. }
  assert (cb_eduID c = mg_EDUID m /\ cb_status c = PMD_EDU_IDLE /\ cb_queue c = []) as (Hid & Hst & Hq).
  { unfold c. destruct c0; simpl in *; by subst. }
  destruct (mem_cong None None c0 c h') as [Hm' Ho]; try (by destruct c0).
  rewrite !full_cb_nil in Hm', Ho by done.
  destruct (fresh_id f g Hg) as [Fr Fi]. fold m in Fr, Fi.
  assert (forall id, id <> mg_EDUID m -> mg_runs m1 !! id = mg_runs m !! id /\
    mg_idles m1 !! id = mg_idles m !! id) as Hoff.
  { intros id Hne. simpl. by rewrite lookup_insert_ne. }
  assert (mg_runs m1 !! mg_EDUID m = None) as Hrun by done.
  assert (forall q, mg_runs m1 !! mg_EDUID m = Some q ->
    q = p /\ mg_idles m1 !! mg_EDUID m = None) as Hr0 by (intros q; by rewrite Hrun).
  assert (forall q, mg_idles m1 !! mg_EDUID m = Some q -> q = p) as Hi0.
  { intros q. simpl. rewrite lookup_insert_eq. by intros [= <-]. }
  eexists. split; [done|]. split; cbn [g_w g_threads g_clients w_mgr w_cbs w_mem].
  - by apply (create_maps f g Hg).
  - apply (create_index f g Hg); try done; fold m.
    + intros t id. change (getSystemEDU m1 t) with (getSystemEDU m t).
      split; [by left|]. intros [?|[-> (q & d & H & _)]]; [done|]. by rewrite Hrun in H.
    + apply (ix_nonempty _ _ _ (ok_index _ _ Hg)).
  - by apply (create_attached f g Hg).
  - by apply (create_roles f g Hg).
  - apply (create_mem f g Hg); try done. by rewrite Ho, ?full_cb_nil.
  - apply (create_local f g Hg); try done. unfold place_of. rewrite Hid, Hrun.
    simpl. rewrite lookup_insert_eq. rewrite decide_True by done.
    apply lo_idle; try done; [by unfold resumes; simpl; rewrite Hq|].
    unfold no_self. rewrite full_cb_nil by done. by rewrite Hq.
Qed.

(** ** Every step *)

Lemma step_ok f g r :
  config_ok f g -> step f orderly g r -> step_safe f r.
Proof.
  intros Hg Hs. destruct Hs; eauto using attach_ok, wait_ok, decide_ok, erase_ok, delete_ok,
    dispatch_ok, body_ok, done_ok, throw_ok, release_ok, return_ok, pool_ok, clear_ok, post_ok,
    new_ok, newidle_ok, thread_ok, user_ok, force_all_ok, read_ok.
  - done.
  - by destruct (rl_fails _ _ _ (ok_roles _ _ Hg) _ _ H).
  - by destruct (rl_fails _ _ _ (ok_roles _ _ Hg) _ _ H).
  - destruct H0; [done|]. by apply status_ok.
  - destruct H; [done|]. by apply event_ok.
  - eexists. split; [done|]. by apply flags_ok.
Qed.

Lemma reachable_ok f h g : edu_reachable f orderly h g -> config_ok f g.
Proof.
  induction 1 as [|g g' Hr IH Hs]; [apply config_init_ok|].
  destruct (step_ok f g _ IH Hs) as (g'' & [= <-] & Hok). done.
Qed.

(** ** The theorems *)

(** C9: in every interleaving of the threads of executors, the callers of
    [startEDU], creations, and the functions that force, interrupt, disconnect,
    activate, suspend, post to or list executors by their identifiers, no step
    uses a control block that was deleted, releases a block of memory twice, or
    calls an entry point that does not exist.  This is under three conditions
    ([orderly]; C40 shows what happens without each, and no caller in the
    sources breaks the last two): the operating system can create threads;
    [activateEDU] and [waitEDU] are not called with the identifier of an executor
    that is still being created; and an event posted from outside is not a resume
    event, its data is not marked as the receiver's own buffer, and data marked
    as allocated is a live block that no executor owns ([post_legal]). *)
Theorem edu_no_use_after_free f h g r :
  edu_reachable f orderly h g -> step f orderly g r -> r <> None.
Proof. intros Hr Hs ->. destruct (step_ok f g None (reachable_ok f h g Hr) Hs) as (? & ? & _). done. Qed.

(** What a control block's status says about the two maps, its thread and the
    resume events on their way to it. *)
Definition status_says (g : config) (p : Z) (c : pmdEDUCB) : Prop :=
  let m := w_mgr (g_w g) in
  let t := g_threads g !! p in
  let n := (resumes t c + starters (g_clients g) p)%nat in
  match cb_status c with
  | PMD_EDU_IDLE =>
      mg_runs m !! cb_eduID c = None /\ mg_idles m !! cb_eduID c = Some p /\ n = O /\ calm t
  | PMD_EDU_CREATING =>
      mg_runs m !! cb_eduID c = Some p /\ mg_idles m !! cb_eduID c = None /\ n = 1%nat /\ calm t
  | PMD_EDU_RUNNING | PMD_EDU_WAITING =>
      mg_runs m !! cb_eduID c = Some p /\ mg_idles m !! cb_eduID c = None /\ n = O /\ busy t
  | _ => False
  end.

Lemma status_says_ok f g p c :
  config_ok f g -> w_cbs (g_w g) !! p = Some c ->
  status_says g p c \/
  (g_threads g !! p = Some ETDelete /\ starters (g_clients g) p = O /\
   mg_runs (w_mgr (g_w g)) !! cb_eduID c <> Some p /\
   mg_idles (w_mgr (g_w g)) !! cb_eduID c <> Some p).
Proof.
  intros Hg Hc. pose proof (ok_local _ _ Hg _ _ Hc) as Hl. pose proof (ok_maps _ _ Hg) as Hm.
  unfold status_says, place_of in *.
  destruct (decide (mg_runs _ !! _ = Some p)) as [Hr|Hr].
  - left. assert (mg_idles (w_mgr (g_w g)) !! cb_eduID c = None) by (apply (mo_disj _ _ Hm); eauto).
    inversion Hl as [| |Hst Hres|[Hst|Hst] Hres Hn]; rewrite Hst, ?Hres, ?Hn; split_and!; done.
  - destruct (decide (mg_idles _ !! _ = Some p)) as [Hi|Hi].
    + left. inversion Hl as [|Hst Hres Hn| |]. rewrite Hst, Hres, Hn. split_and!; try done.
      destruct (mg_runs _ !! _) eqn:E; [|done].
      pose proof (mo_disj _ _ Hm (cb_eduID c)). rewrite E, Hi in *. naive_solver.
    + right. inversion Hl. done.
Qed.

(** C10: in every state that is reachable under the conditions of C9 the two
    maps name live control blocks, each under its own identifier, which no other
    control block has; an executor of the pool is idle and has no resume event
    coming; one being created is in use with exactly one resume event coming or
    exactly one caller of [startEDU] about to post it; one that runs or waits is
    in use with no resume event coming, and its thread is in the entry point or
    has come back from it and not yet handed the executor back; and a control
    block in neither map is about to be deleted by its own thread. *)
Theorem edu_state_consistent f h g :
  edu_reachable f orderly h g ->
  (forall id p, getPtrByID (w_mgr (g_w g)) id = Some p ->
     exists c, w_cbs (g_w g) !! p = Some c /\ cb_eduID c = id) /\
  (forall p q c d, w_cbs (g_w g) !! p = Some c -> w_cbs (g_w g) !! q = Some d ->
     cb_eduID c = cb_eduID d -> p = q) /\
  (forall p c, w_cbs (g_w g) !! p = Some c ->
     status_says g p c \/
     (g_threads g !! p = Some ETDelete /\ starters (g_clients g) p = O /\
      mg_runs (w_mgr (g_w g)) !! cb_eduID c <> Some p /\
      mg_idles (w_mgr (g_w g)) !! cb_eduID c <> Some p)).
Proof.
  intros Hr%reachable_ok. pose proof (ok_maps _ _ Hr) as Hm. split_and!.
  - intros id p. unfold getPtrByID. destruct (mg_runs _ !! id) eqn:E.
    + intros [= <-]. by apply (mo_runs _ _ Hm).
    + apply (mo_idles _ _ Hm).
  - apply (mo_inj _ _ Hm).
  - intros p c. by apply status_says_ok with f.
Qed.

(** An executor of type 3, created by caller 0 with control block 8. *)
Definition edu_example : config :=
  mkConfig (createNewEDU_insert (g_w (config_init ∅)) 8 3 false 77 (Some "agent"%string) (Some 16)).2
    ∅ {[0 := CLNew 8 2 3 false false]}.

Lemma edu_example_reachable r : edu_reachable ep_example r ∅ edu_example.
Proof.
  apply (er_step _ _ _ (config_init ∅)); [apply er_init|].
  exact (st_new ep_example r (config_init ∅) 0 8 3 (mkEPItem 3 200 false "CBMain")
    (Some "agent"%string) 77 (Some 16) eq_refl eq_refl eq_refl ltac:(done)
    ltac:(apply (bool_decide_unpack _); vm_compute; exact I) eq_refl).
Qed.

Lemma edu_state_consistent_witness :
  exists c, w_cbs (g_w edu_example) !! 8 = Some c /\ cb_status c = PMD_EDU_CREATING /\
    (status_says edu_example 8 c \/ g_threads edu_example !! 8 = Some ETDelete).
Proof.
  eexists. split; [vm_compute; reflexivity|]. split; [reflexivity|].
  destruct (edu_state_consistent ep_example ∅ edu_example (edu_example_reachable orderly))
    as (_ & _ & H).
  destruct (H 8 _ eq_refl) as [Hs|[Ht _]]; [left; exact Hs|right; exact Ht].
Defined.

Lemma edu_no_use_after_free_witness :
  edu_reachable ep_example orderly ∅ edu_example /\
  ('(_, w) ← postEDUPost (g_w edu_example) 2 (event_of PMD_EDU_EVENT_TERM);
   Some (set_world edu_example w)) <> None.
Proof.
  split; [exact (edu_example_reachable orderly)|].
  refine (edu_no_use_after_free ep_example ∅ edu_example _ (edu_example_reachable orderly)
    (st_event ep_example orderly edu_example 2 _ (or_intror _))).
  split; [discriminate|]. split; [discriminate|]. intros H. discriminate H.
Defined.

(** ** What happens without the conditions *)

(** A map that names a deleted control block cannot be walked. *)
Lemma deref_all_dead ps C p : p ∈ ps -> C !! p = None -> deref_all ps C = None.
Proof.
  intros Hp Hn. induction ps as [|q ps IH]; [by apply not_elem_of_nil in Hp|]. simpl.
  destruct (decide (q = p)) as [->|Hq]; [by rewrite Hn|].
  apply elem_of_cons in Hp as [|Hp]; [congruence|]. rewrite (IH Hp). by destruct (C !! q).
Qed.

Lemma elem_of_map_ptrs (M : gmap Z Z) id p : M !! id = Some p -> p ∈ map_ptrs M.
Proof.
  intros H. apply list_elem_of_omap. exists id. split; [|done]. apply elem_of_std_keys. by exists p.
Qed.

Lemma dump_dead w id p :
  mg_runs (w_mgr w) !! id = Some p \/ mg_idles (w_mgr w) !! id = Some p ->
  w_cbs w !! p = None -> dumpAbnormalEDU w = None.
Proof.
  intros [H|H] Hn; unfold dumpAbnormalEDU.
  - by rewrite (deref_all_dead _ _ _ (elem_of_map_ptrs _ _ _ H) Hn).
  - destruct (deref_all (map_ptrs (mg_runs (w_mgr w))) (w_cbs w)); [|done].
    cbn [mbind option_bind]. by rewrite (deref_all_dead _ _ _ (elem_of_map_ptrs _ _ _ H) Hn).
Qed.

Lemma delete_cb_dead w p w' : delete_cb w p = Some w' -> w_mgr w' = w_mgr w /\ w_cbs w' !! p = None.
Proof.
  unfold delete_cb. destruct (w_cbs w !! p) as [c|]; [|done]. simpl.
  destruct (pmdEDUCB_delete c (w_mem w)); [|done]. intros [= <-]. split; [done|]. apply lookup_delete_eq.
Qed.

Lemma reach_by f r h g o g' :
  edu_reachable f r h g -> step f r g o -> o = Some g' -> edu_reachable f r h g'.
Proof. intros Hr Hs ->. by eapply er_step. Qed.

(** The idle executor 2, its control block at 8 and its thread in the loop. *)
Lemma idle_reachable r : edu_reachable ep_example r ∅
  (mkConfig (mkWorld (with_maps (with_next (setEDU pmdEDUMgr_new 70 2) 3) ∅ {[2 := 8]})
     {[8 := set_cb_thread (set_cb_id (set_cb_status (pmdEDUCB_new PMD_EDU_MIN (Some 16) ∅).1 PMD_EDU_IDLE) 2) 70 71]}
     {[16]}) {[8 := ETLoop 0]} ∅).
Proof.
  eapply reach_by; [eapply reach_by; [eapply reach_by; [apply er_init|..]|..]|..].
  - apply (st_newidle ep_example r _ 0 8 (Some 16)); try reflexivity.
    apply (bool_decide_unpack _). vm_compute. exact I.
  - vm_compute. reflexivity.
  - eapply (st_thread ep_example r _ 0). vm_compute. reflexivity.
  - vm_compute. reflexivity.
  - apply (st_attach ep_example r _ 8 70 71); vm_compute; reflexivity.
  - vm_compute. reflexivity.
Qed.

(** One more step of a run, given by the rule it is an instance of. *)
Lemma reach_eval f r h g o :
  edu_reachable f r h g -> step f r g o ->
  match o with Some g' => edu_reachable f r h g' | None => True end.
Proof. destruct o; [|done]. intros. by eapply er_step. Qed.

Tactic Notation "run_step" hyp(H) "by" tactic3(t) :=
  eapply reach_eval in H; [|t; try (vm_compute; reflexivity)]; vm_compute in H.

(** Its thread is idle for eleven seconds in a manager that pools nothing; then
    it is taken from the pool, activated too early, and destroyed. *)
Lemma early_activation :
  exists g, edu_reachable ep_example (mkRules false true false) ∅ g /\
    g_clients g !! 0 = Some (CLGot 8 None 77) /\ w_cbs (g_w g) !! 8 = None /\
    start_clear (g_w g) 8 = None.
Proof.
  pose proof (idle_reachable (mkRules false true false)) as H.
  run_step H by eapply (st_flags _ _ _
    (setMaxPooledEDU (with_maps (with_next (setEDU pmdEDUMgr_new 70 2) 3) ∅ {[2 := 8]}) 0)).
  do 10 (run_step H by eapply (st_wait _ _ _ 8); run_step H by eapply (st_decide _ _ _ 8)).
  run_step H by eapply (st_wait _ _ _ 8).
  run_step H by (apply (st_pool _ _ _ 0 3 None 77 (mkEPItem 3 200 false "CBMain")); [vm_compute; reflexivity|vm_compute; reflexivity|discriminate|reflexivity]).
  run_step H by (apply (st_status _ _ _ activateEDU 2); [by right|by left]).
  run_step H by eapply (st_decide _ _ _ 8).
  run_step H by eapply (st_erase _ _ _ 8).
  run_step H by apply (st_delete _ _ _ 8).
  eexists. split; [exact H|]. split_and!; vm_compute; reflexivity.
Qed.

(** It is posted a resume event, and has no entry point. *)
Lemma foreign_resume :
  exists g e, edu_reachable ep_example (mkRules false false true) ∅ g /\
    g_threads g !! 8 = Some (ETGot e) /\ getItem ep_example PMD_EDU_MIN = None /\
    edu_dispatch ep_example (g_w g) 8 e = None.
Proof.
  pose proof (idle_reachable (mkRules false false true)) as H.
  run_step H by (apply (st_event _ _ _ 2 (event_of PMD_EDU_EVENT_RESUME)); by left).
  run_step H by eapply (st_wait _ _ _ 8).
  eexists _, _. split; [exact H|]. split_and!; vm_compute; reflexivity.
Qed.

(** The states after a creation that failed. *)
Lemma failed_creation :
  (exists g, edu_reachable ep_example (mkRules true false false) ∅ g /\
     g_clients g !! 0 = Some (CLUndo 2 3 false false) /\ dumpAbnormalEDU (g_w g) = None) /\
  (exists g, edu_reachable ep_example (mkRules true false false) ∅ g /\
     g_clients g !! 0 = Some (CLUndo 2 PMD_EDU_MIN false true) /\ dumpAbnormalEDU (g_w g) = None).
Proof.
  split.
  - pose proof (edu_example_reachable (mkRules true false false)) as H.
    run_step H by eapply (st_thread_fails _ _ _ 0).
    run_step H by eapply (st_fail_delete _ _ _ 0).
    eexists. split; [exact H|]. split; vm_compute; reflexivity.
  - pose proof (er_init ep_example (mkRules true false false) ∅) as H.
    run_step H by (apply (st_newidle _ _ _ 0 8 None); try exact I).
    run_step H by eapply (st_thread_fails _ _ _ 0).
    run_step H by eapply (st_fail_delete _ _ _ 0).
    eexists. split; [exact H|]. split; vm_compute; reflexivity.
Qed.

(** C40: without each of the three conditions of C9 the conclusion fails.
    When the operating system cannot create the thread, [createNewEDU] and
    [createIdleEDU] delete the control block before they take it out of
    [_mapRuns] or [_mapIdles]: in whatever state of the manager, the map
    then names the deleted control block, and [dumpAbnormalEDU], which
    walks the maps under the latch, uses it; such states are reachable.
    When [activateEDU] is called with the identifier of an executor that a
    caller of [startEDU] has just taken from the pool, the executor no
    longer counts as being created, its thread may destroy it, and the
    caller clears the deleted control block. When [postEDUPost] is called
    with a resume event for an executor of the pool, its thread calls an
    entry point that does not exist. *)
Theorem edu_conditions_needed :
  (forall w p type isSystem args initName os id w1 w2,
     createNewEDU_insert w p type isSystem args initName os = (id, w1) -> delete_cb w1 p = Some w2 ->
     mg_runs (w_mgr w2) !! id = Some p /\ w_cbs w2 !! p = None /\ dumpAbnormalEDU w2 = None) /\
  (forall w p os id w1 w2,
     createIdleEDU_insert w p os = (id, w1) -> delete_cb w1 p = Some w2 ->
     mg_idles (w_mgr w2) !! id = Some p /\ w_cbs w2 !! p = None /\ dumpAbnormalEDU w2 = None) /\
  ((exists g, edu_reachable ep_example (mkRules true false false) ∅ g /\
      g_clients g !! 0 = Some (CLUndo 2 3 false false) /\ dumpAbnormalEDU (g_w g) = None) /\
   (exists g, edu_reachable ep_example (mkRules true false false) ∅ g /\
      g_clients g !! 0 = Some (CLUndo 2 PMD_EDU_MIN false true) /\ dumpAbnormalEDU (g_w g) = None)) /\
  (exists g, edu_reachable ep_example (mkRules false true false) ∅ g /\
     g_clients g !! 0 = Some (CLGot 8 None 77) /\ w_cbs (g_w g) !! 8 = None /\
     start_clear (g_w g) 8 = None) /\
  (exists g e, edu_reachable ep_example (mkRules false false true) ∅ g /\
     g_threads g !! 8 = Some (ETGot e) /\ getItem ep_example PMD_EDU_MIN = None /\
     edu_dispatch ep_example (g_w g) 8 e = None).
Proof.
  split_and!; [| |apply failed_creation..|apply early_activation|apply foreign_resume].
  - intros w p type isSystem args initName os id w1 w2 E [Em Hn]%delete_cb_dead.
    assert (mg_runs (w_mgr w1) !! id = Some p) as Hr.
    { unfold createNewEDU_insert in E. destruct (pmdEDUCB_new _ _ _) as [c h]. injection E as <- <-.
      destruct isSystem; simpl; apply lookup_insert_eq. }
    rewrite <- Em in Hr. split_and!; [done|done|]. by eapply dump_dead; [left|].
  - intros w p os id w1 w2 E [Em Hn]%delete_cb_dead.
    assert (mg_idles (w_mgr w1) !! id = Some p) as Hr.
    { unfold createIdleEDU_insert in E. destruct (pmdEDUCB_new _ _ _) as [c h]. injection E as <- <-.
      simpl. apply lookup_insert_eq. }
    rewrite <- Em in Hr. split_and!; [done|done|]. by eapply dump_dead; [right|].
Qed.

Lemma edu_conditions_needed_witness :
  exists w2, delete_cb (createNewEDU_insert (mkWorld (with_next pmdEDUMgr_new 2) ∅ ∅) 8 3 false 77 None (Some 16)).2 8 = Some w2 /\
    dumpAbnormalEDU w2 = None.
Proof.
  destruct edu_conditions_needed as [H _].
  destruct (delete_cb _ 8) as [w2|] eqn:D; [|vm_compute in D; discriminate].
  exists w2. split; [reflexivity|]. refine (proj2 (proj2 (H _ _ _ _ _ _ _ _ _ _ _ D))).
  apply surjective_pairing.
Defined.
