(* ===== verification/PmdEDULive.v ===== *)
(** * Executors that are started run (src/src/pmd/pmdEDUMgr.cpp)

    The thread of an executor that is being created reaches its entry point by
    its own steps, whatever events are in front of the resume event; and the
    number of user executors that [forceDestory] computes never wraps. *)
From S2P Require Import Prelude.
From S2P Require Import OssMem.
From S2P Require Import PmdBase.
From S2P Require Import PmdEDU.
From S2P Require Import PmdEDUOk.
From S2P Require Import PmdEDUClear.
From S2P Require Import PmdEDUMgr.
From S2P Require Import PmdEDURun.
From S2P Require Import PmdEDURunOk.
From S2P Require Import PmdEDUSteps.
From S2P Require Import PmdEDUCalls.
From S2P Require Import PmdEDUSafe.
From Stdlib Require Import String.
#[local] Open Scope Z_scope.

(** ** From the resume event to the entry point *)

(** How far a thread is from taking the next event. *)
Definition thread_rank (t : eduThread) : nat :=
  match t with
  | ETGot _ => 4 | ETRelease _ => 3 | ETLoop _ => 1 | _ => 2
  end.

Definition start_rank (t : eduThread) (c : pmdEDUCB) : nat :=
  8 * List.length (cb_queue c) + thread_rank t.

(** An executor that is being created and that no caller has in its hands. *)
Definition starting (g : config) (p : Z) (t : eduThread) (c : pmdEDUCB) : Prop :=
  w_cbs (g_w g) !! p = Some c /\ cb_status c = PMD_EDU_CREATING /\
  starters (g_clients g) p = O /\ g_threads g !! p = Some t /\ t <> ETDelete.

Definition started (g : config) (p : Z) (t : eduThread) (c : pmdEDUCB) : Prop :=
  exists e, g_threads g !! p = Some (ETRun e) /\ is_resume e /\ e ∈ pending (Some t) ++ cb_queue c.

Definition nearer (g : config) (p : Z) (t : eduThread) (c : pmdEDUCB) : Prop :=
  exists t' c', starting g p t' c' /\ (start_rank t' c' < start_rank t c)%nat /\
    forall e, e ∈ pending (Some t') ++ cb_queue c' -> e ∈ pending (Some t) ++ cb_queue c.

(** A step of the thread of one control block: callers, other threads and
    other control blocks stay as they are. *)
Definition own_step (f : pmdEPFactory) (p : Z) (g g' : config) : Prop :=
  step f orderly g (Some g') /\ g_clients g' = g_clients g /\
  forall q, q <> p ->
    g_threads g' !! q = g_threads g !! q /\ w_cbs (g_w g') !! q = w_cbs (g_w g) !! q.

Lemma own_intro f p g w' t' c' :
  step f orderly g (Some (set_thread g w' p t')) -> w_cbs w' = <[p := c']> (w_cbs (g_w g)) ->
  own_step f p g (set_thread g w' p t').
Proof.
  intros Hs Hw. split; [done|]. split; [done|]. intros q Hq. simpl.
  by rewrite Hw, !lookup_insert_ne.
Qed.

Section live.
Context (f : pmdEPFactory) (g : config) (Hg : config_ok f g).

Lemma starting_local p t c :
  starting g p t c ->
  mg_runs (w_mgr (g_w g)) !! cb_eduID c = Some p /\
  mg_idles (w_mgr (g_w g)) !! cb_eduID c = None /\
  resumes (Some t) c = 1%nat /\ calm (Some t) /\ registered f c.
Proof.
  intros (Hc & Hs & Hn & Ht & Hne).
  destruct (status_says_ok f g p c Hg Hc) as [Hx|(Hd & _)]; [|congruence].
  unfold status_says in Hx. rewrite Hs, Hn, Ht, Nat.add_0_r in Hx.
  destruct Hx as (Hr & Hi & Hre & Hca). split_and!; try done.
  pose proof (ok_local _ _ Hg _ _ Hc) as Hl. rewrite Ht in Hl. inversion Hl; try done; congruence.
Qed.

(** A thread whose control block keeps its queue moves on. *)
Lemma nearer_intro p t c w' t' c' :
  starting g p t c ->
  w_cbs w' = <[p := c']> (w_cbs (g_w g)) -> cb_status c' = PMD_EDU_CREATING -> t' <> ETDelete ->
  (start_rank t' c' < start_rank t c)%nat ->
  (forall e, e ∈ pending (Some t') ++ cb_queue c' -> e ∈ pending (Some t) ++ cb_queue c) ->
  nearer (set_thread g w' p t') p t c.
Proof.
  intros (_ & _ & Hn & _) Hw Hs' Hne Hr Hin. exists t', c'.
  split_and!; try done. unfold starting. simpl. rewrite Hw, !lookup_insert_eq. done.
Qed.

Lemma live_attach p c :
  starting g p ETStart c -> exists g', own_step f p g g' /\ nearer g' p ETStart c.
Proof.
  intros Hst. pose proof Hst as (Hc & Hs & Hn & Ht & _).
  pose proof (st_attach f orderly g p (fresh (dom (mg_tid2edu (w_mgr (g_w g))))) 0 Ht) as Hx.
  unfold edu_attach in Hx. rewrite Hc in Hx. eexists. split; [eapply own_intro; [apply Hx|done]|].
  - apply not_elem_of_dom, is_fresh.
  - eapply nearer_intro; try done; try (by destruct c).
    unfold start_rank. destruct c. simpl. lia.
Qed.

Lemma live_loop p i c :
  starting g p (ETLoop i) c -> exists g', own_step f p g g' /\ nearer g' p (ETLoop i) c.
Proof.
  intros Hst. destruct (starting_local _ _ _ Hst) as (_ & _ & Hre & _). pose proof Hst as (Hc & Hs & Hn & Ht & _).
  pose proof (st_wait f orderly g p i Ht) as Hx. unfold edu_wait in Hx. rewrite Hc in Hx.
  simpl in Hx. unfold waitEvent in Hx. simpl in Hx. rewrite app_nil_r in Hx.
  unfold resumes in Hre. simpl in Hre. destruct (cb_queue c) as [|e q] eqn:Eq; [done|].
  eexists. split; [eapply own_intro; [exact Hx|done]|]. clear Hx. set (c' := if bool_decide _ then _ else _).
  assert (cb_status c' = cb_status c /\ cb_queue c' = q) as [E1 E2]
    by (unfold c'; destruct (bool_decide _); by destruct c).
  eapply (nearer_intro _ _ _ _ _ c'); try done; [congruence| |].
  - unfold start_rank. rewrite E2, Eq. simpl. lia.
  - intros x. by rewrite E2, Eq.
Qed.

(** The steps that leave the control block as it is. *)
Lemma live_same p t c t' :
  starting g p t c ->
  step f orderly g (Some (set_thread g (g_w g) p t')) -> t' <> ETDelete ->
  pending (Some t') = [] -> (thread_rank t' < thread_rank t)%nat ->
  exists g', own_step f p g g' /\ nearer g' p t c.
Proof.
  intros Hst Hx Hne Hp Hr. pose proof Hst as (Hc & Hs & _). eexists.
  split; [eapply (own_intro _ _ _ _ _ c); [done|by rewrite insert_id]|].
  eapply (nearer_intro _ _ _ _ _ c); try done; [by rewrite insert_id|unfold start_rank; lia|].
  intros e. rewrite Hp. set_solver.
Qed.

Lemma live_release p e c :
  starting g p (ETRelease e) c -> exists g', own_step f p g g' /\ nearer g' p (ETRelease e) c.
Proof.
  intros Hst. pose proof Hst as (Hc & Hs & Hn & Ht & _).
  pose proof (st_release f orderly g p e Ht) as Hx. destruct (step_ok f g _ Hg Hx) as (g' & E & _).
  rewrite E in Hx. exists g'. unfold edu_release in E. rewrite Hc in E. simpl in E.
  destruct (pmdEduEventRelase _ _ _) as [[[? b] h']|]; [|done]. injection E as <-.
  split; [eapply own_intro; [exact Hx|done]|].
  eapply nearer_intro; try done; destruct c; simpl in *; try done. unfold start_rank. simpl. lia.
Qed.

Lemma live_got p e c :
  starting g p (ETGot e) c -> exists g', own_step f p g g' /\ (started g' p (ETGot e) c \/ nearer g' p (ETGot e) c).
Proof.
  intros Hst. destruct (starting_local _ _ _ Hst) as (_ & _ & _ & _ & i & Hi & Hf).
  pose proof Hst as (Hc & Hs & Hn & Ht & _). pose proof (st_dispatch f orderly g p e Ht) as Hx.
  unfold edu_dispatch in Hx. rewrite Hc in Hx. simpl in Hx.
  destruct (decide (is_resume e)) as [Hr|Hr].
  - rewrite Hr, Hi in Hx. simpl in Hx. destruct (Z.eqb_spec (ep_pFunc i) 0); [done|].
    eexists. split; [eapply own_intro; [exact Hx|done]|]. left. exists e. simpl. rewrite lookup_insert_eq.
    split_and!; try done. set_solver.
  - destruct (live_same p (ETGot e) c (ETRelease e)) as (g' & ? & ?); simpl; try done; [|lia|eauto].
    unfold is_resume in Hr. destruct (ev_eventType e); done.
Qed.

Lemma live_step p t c :
  starting g p t c ->
  exists g', own_step f p g g' /\ (started g' p t c \/ nearer g' p t c).
Proof.
  intros Hst. destruct (starting_local _ _ _ Hst) as (Hr & Hi & Hre & Hca & Hreg).
  pose proof Hst as (Hc & Hs & Hn & Ht & Hne).
  assert ((exists g', own_step f p g g' /\ nearer g' p t c) ->
    exists g', own_step f p g g' /\ (started g' p t c \/ nearer g' p t c)) as Hor
    by naive_solver.
  destruct t as [|i|i|i| |e|e|e|] ; try done.
  - by apply Hor, live_attach.
  - by eapply Hor, live_loop.
  - apply Hor, (live_same p _ c (ETLoop i)); simpl; try done; [|lia].
    pose proof (st_decide f orderly g p i Ht) as Hx. unfold forceDestory_decide in Hx.
    rewrite Hc in Hx. simpl in Hx. rewrite Hs, orb_true_r in Hx. done.
  - apply Hor, (live_same p _ c (ETLoop i)); simpl; try done; [|lia].
    pose proof (st_erase f orderly g p i Ht) as Hx. unfold forceDestory_erase in Hx.
    rewrite Hc in Hx. simpl in Hx. rewrite Hi, Hr, Hs in Hx. done.
  - by eapply live_got.
  - by eapply Hor, live_release.
  - apply Hor, (live_same p _ c (ETLoop 0)); simpl; try done; [|lia].
    pose proof (st_return f orderly g p Ht) as Hx. unfold returnEDU_latched in Hx.
    rewrite Hc in Hx. simpl in Hx. rewrite Hs in Hx. done.
Qed.

End live.

Lemma live_run f p n : forall g t c,
  config_ok f g -> starting g p t c -> (start_rank t c < n)%nat ->
  exists g' e, rtc (own_step f p) g g' /\
    g_threads g' !! p = Some (ETRun e) /\ is_resume e /\ e ∈ pending (Some t) ++ cb_queue c.
Proof.
  induction n as [|n IH]; [lia|]. intros g t c Hg Hst Hr.
  destruct (live_step f g Hg p t c Hst) as (g1 & Hs & [(e & He & Hre & Hin)|(t1 & c1 & H1 & H2 & H3)]).
  - exists g1, e. split_and!; try done. by apply rtc_once.
  - destruct (step_ok f g _ Hg (proj1 Hs)) as (g1' & [= <-] & Hg1).
    destruct (IH g1 t1 c1 Hg1 H1) as (g2 & e & Hrt & ? & ? & Hin); [lia|].
    exists g2, e. split_and!; auto. by eapply rtc_l.
Qed.

(** C11: an executor that is being created, whose control block no caller of
    [startEDU] holds any more, reaches its entry point by steps of its own
    thread, with the resume event that was posted to it, however many other
    events were in front. *)
Theorem edu_start_runs f h g p t c :
  edu_reachable f orderly h g -> starting g p t c ->
  exists g' e, rtc (own_step f p) g g' /\
    g_threads g' !! p = Some (ETRun e) /\ is_resume e /\ e ∈ pending (Some t) ++ cb_queue c.
Proof. intros Hr%reachable_ok Hst. by apply (live_run f p (S (start_rank t c))); [..|lia]. Qed.

Definition edu_example_thread : config :=
  mkConfig (g_w edu_example) {[8 := ETStart]} ∅.

Lemma edu_start_runs_witness :
  exists g' e, rtc (own_step ep_example 8) edu_example_thread g' /\
    g_threads g' !! 8 = Some (ETRun e) /\ ev_Data e = 77.
Proof.
  assert (edu_reachable ep_example orderly ∅ edu_example_thread) as Hr.
  { apply (er_step _ _ _ edu_example); [apply edu_example_reachable|].
    exact (st_thread ep_example orderly edu_example 0 8 2 3 false false eq_refl). }
  assert (exists c, starting edu_example_thread 8 ETStart c /\
    cb_queue c = [mkEvent PMD_EDU_EVENT_RESUME 0 PMD_EDU_MEM_NONE 77]) as (c & Hc & Hq).
  { eexists. split; [split; [vm_compute; reflexivity|]|reflexivity].
    split_and!; try reflexivity. discriminate. }
  destruct (edu_start_runs ep_example ∅ edu_example_thread 8 ETStart c Hr Hc)
    as (g' & e & H1 & H2 & H3 & H4).
  exists g', e. split; [exact H1|]. split; [exact H2|].
  rewrite Hq in H4. apply list_elem_of_singleton in H4 as ->. reflexivity.
Defined.

(** ** Counting executors *)

(** A predicate of control blocks, on the identifiers of a map. *)
Definition id_sel (P : pmdEDUCB -> bool) (m : gmap Z Z) (C : gmap Z pmdEDUCB) (id : Z) : bool :=
  match p ← m !! id; C !! p with Some c => P c | None => false end.

Lemma deref_sel m C ks :
  (forall id, id ∈ ks -> exists p c, m !! id = Some p /\ C !! p = Some c) ->
  exists l, deref_all (omap (fun k => m !! k) ks) C = Some l /\
    List.length l = List.length ks /\
    forall P : pmdEDUCB -> bool, List.length (filter P l) = List.length (filter (id_sel P m C) ks).
Proof.
  induction ks as [|k ks IH]; intros Hk; [by exists []|].
  destruct IH as (l & Hl & Hlen & HP); [intros; apply Hk; by constructor|].
  destruct (Hk k) as (p & c & Hp & Hc); [by constructor|]. simpl. rewrite Hp. simpl.
  rewrite Hc. simpl. change (list_omap Z Z (fun k => m !! k) ks) with (omap (fun k => m !! k) ks).
  rewrite Hl. exists (c :: l). split_and!; [done|simpl; lia|].
  intros P. rewrite !filter_cons.
  assert (id_sel P m C k = P c) as -> by (unfold id_sel; rewrite Hp; simpl; by rewrite Hc).
  destruct (decide (P c)); simpl; rewrite HP; done.
Qed.

Lemma filter_split {A} (P : A -> bool) (l : list A) :
  (List.length (filter P l) + List.length (filter (fun x => negb (P x)) l) = List.length l)%nat.
Proof.
  induction l as [|x l IH]; [done|]. rewrite !filter_cons.
  destruct (P x) eqn:E; simpl; rewrite ?E; simpl; lia.
Qed.

Lemma u32_foldl (sz : Z -> Z) ks n :
  foldl (fun n t => u32 (n + sz t)) (u32 n) ks = u32 (n + sumZ (map sz ks)).
Proof.
  revert n. induction ks as [|k ks IH]; intros n; simpl; [by rewrite Z.add_0_r|].
  rewrite Z.add_assoc, <- IH. f_equal. unfold u32. by rewrite Zplus_mod_idemp_l.
Qed.

Section count.
Context (f : pmdEPFactory) (g : config) (Hg : config_ok f g).

Abbreviation m := (w_mgr (g_w g)).
Abbreviation C := (w_cbs (g_w g)).
Abbreviation sys_ids := (filter (id_sel (isSystemCB f) (mg_runs m) C) (std_keys (mg_runs m))).

Lemma elem_of_system t id :
  id ∈ getSystemEDU m t <-> system_run f m C t id.
Proof. apply (ix_system _ _ _ (ok_index _ _ Hg)). Qed.

Lemma system_perm :
  List.concat (map (fun t => elements (getSystemEDU m t)) (std_keys (mg_system m))) ≡ₚ sys_ids.
Proof.
  apply NoDup_Permutation.
  - pose proof (std_keys_NoDup (mg_system m)) as Hnd. induction Hnd as [|t ks Ht Hnd IH]; simpl; [constructor|].
    apply NoDup_app. split_and!; [apply NoDup_elements| |done].
    intros id (p & c & Hp & Hc & Hty & _)%elem_of_elements%elem_of_system Hin.
    apply list_elem_of_In, in_concat in Hin as (l & [t' [<- Ht']]%in_map_iff & Hl).
    apply list_elem_of_In, elem_of_elements, elem_of_system in Hl
      as (p' & c' & Hp' & Hc' & Hty' & _).
    apply Ht, list_elem_of_In. congruence.
  - apply NoDup_filter, std_keys_NoDup.
  - intros id. rewrite list_elem_of_filter, elem_of_std_keys. split.
    + intros (l & [t [<- _]]%in_map_iff & Hl)%list_elem_of_In%in_concat.
      apply list_elem_of_In, elem_of_elements, elem_of_system in Hl
        as (p & c & Hp & Hc & _ & Hs).
      unfold id_sel. rewrite Hp. simpl. rewrite Hc, Hs. eauto.
    + unfold id_sel. intros [Hs [p Hp]]. rewrite Hp in Hs. simpl in Hs.
      destruct (C !! p) as [c|] eqn:Hc; [|done].
      assert (id ∈ getSystemEDU m (cb_eduType c)) as Hid.
      { apply elem_of_system. exists p, c. split_and!; try done. by apply Is_true_true. }
      apply list_elem_of_In, in_concat. exists (elements (getSystemEDU m (cb_eduType c))).
      split; [|by apply list_elem_of_In, elem_of_elements].
      apply in_map_iff. exists (cb_eduType c). split; [done|].
      apply list_elem_of_In, elem_of_std_keys. unfold getSystemEDU in Hid.
      destruct (mg_system m !! cb_eduType c); [by eexists|set_solver].
Qed.

Lemma sizeSystem_count : sizeSystem m = u32 (Z.of_nat (List.length sys_ids)).
Proof.
  rewrite <- system_perm. unfold sizeSystem, systemSize. cbn [negb Z.eqb Pos.eqb].
  rewrite (u32_foldl (fun t => Z.of_nat (size (default ∅ (mg_system m !! t)))) _ 0).
  f_equal. generalize (std_keys (mg_system m)) as ks. induction ks as [|k ks IH]; [done|].
  simpl. rewrite length_app. change (List.length (elements (getSystemEDU m k)))
    with (size (default ∅ (mg_system m !! k))). lia.
Qed.

Lemma std_keys_size {A} (M : gmap Z A) : List.length (std_keys M) = size M.
Proof. rewrite std_keys_perm. unfold std_keys. by rewrite <- size_dom. Qed.

Lemma user_count :
  Z.of_nat (size (mg_runs m)) + Z.of_nat (size (mg_idles m)) < 4294967296 ->
  sizeSystem m <= sizeRun m /\
  getEDUCount f (g_w g) PMD_EDU_USER =
    Some (u32 (u32 (sizeRun m + sizeIdle m) - sizeSystem m)) /\
  u32 (u32 (sizeRun m + sizeIdle m) - sizeSystem m) = sizeRun m + sizeIdle m - sizeSystem m.
Proof.
  intros Hlt. rewrite sizeSystem_count. unfold sizeRun, sizeIdle, getEDUCount.
  destruct (deref_sel (mg_runs m) C (std_keys (mg_runs m))) as (l & Hl & Hlen & HP).
  { intros id [p Hp]%elem_of_std_keys.
    destruct (mo_runs _ _ (ok_maps _ _ Hg) _ _ Hp) as (c & Hc & _). eauto. }
  unfold map_ptrs. rewrite Hl. simpl.
  pose proof (filter_split (isSystemCB f) l) as Hsp. rewrite HP, Hlen, std_keys_size in Hsp.
  set (a := List.length sys_ids) in *.
  assert (List.length (filter (fun c => run_selected f PMD_EDU_USER c = true) l) =
    List.length (filter (fun c => negb (isSystemCB f c)) l)) as ->.
  { f_equal. apply list_filter_iff. intros c. unfold run_selected.
    change (has_prop PMD_EDU_USER PMD_EDU_SYSTEM) with false.
    change (has_prop PMD_EDU_USER PMD_EDU_USER) with true. simpl. symmetry. apply Is_true_true. }
  change (has_prop PMD_EDU_USER PMD_EDU_USER) with true. cbn iota.
  rewrite !(u32_id (Z.of_nat _)) by lia. rewrite !u32_id by (rewrite ?u32_id; lia).
  split_and!; [lia| |done]. do 2 f_equal. lia.
Qed.

End count.

(** the number of user executors that [forceDestory] computes from three
    sizes, with unsigned subtraction, never wraps, and is what [_getEDUCount]
    finds by looking at every control block. *)
Theorem edu_user_count_exact f h g :
  edu_reachable f orderly h g ->
  Z.of_nat (size (mg_runs (w_mgr (g_w g)))) + Z.of_nat (size (mg_idles (w_mgr (g_w g))))
    < 4294967296 ->
  let m := w_mgr (g_w g) in
  sizeSystem m <= sizeRun m /\
  getEDUCount f (g_w g) PMD_EDU_USER =
    Some (u32 (u32 (sizeRun m + sizeIdle m) - sizeSystem m)) /\
  u32 (u32 (sizeRun m + sizeIdle m) - sizeSystem m) = sizeRun m + sizeIdle m - sizeSystem m.
Proof. intros Hr%reachable_ok Hlt. by apply user_count. Qed.

Lemma edu_user_count_exact_witness :
  getEDUCount ep_example (g_w edu_example) PMD_EDU_USER = Some 1.
Proof.
  destruct (edu_user_count_exact ep_example ∅ edu_example (edu_example_reachable orderly))
    as (_ & H & _); [reflexivity|].
  rewrite H. reflexivity.
Defined.
