(* ===== verification/PmdEDUStart.v ===== *)
(** * Starting executors: [createNewEDU], [createIdleEDU], [startEDU], [forkEDU]
    (src/src/pmd/pmdEDUMgr.cpp)

    The functions whole, as one caller sees them while no other thread is in
    between; PmdEDURun.v has their sections interleaved with everything else.
    What the operating system does is an argument: whether the event, the
    control block and its error buffer are allocated, and whether the thread
    can be created and what it reports. *)
From S2P Require Import Prelude.
From S2P Require Import OssMem.
From S2P Require Import PmdBase.
From S2P Require Import PmdEDU.
From S2P Require Import PmdEDUOk.
From S2P Require Import PmdEDUClear.
From S2P Require Import PmdEDUMgr.
From S2P Require Import PmdEDURun.
From S2P Require Import PmdEDURunOk.
From S2P Require Import PmdEDUSteps.
From S2P Require Import PmdEDUCalls.
From S2P Require Import PmdEDUSafe.
From Stdlib Require Import String.
#[local] Open Scope Z_scope.

Record createEnv := mkCreateEnv {
  ce_event : bool;         (** [SDB_OSS_NEW ossEvent()] succeeds *)
  ce_cb : option Z;        (** [SDB_OSS_NEW pmdEDUCB] *)
  ce_errorBuff : option Z; (** the block its constructor asks for *)
  ce_thread : option Z     (** the thread, and what it reports when it has attached *)
}.

(** The identifier a caller gets, and the state: [None] is undefined
    behaviour. *)
Definition createNewEDU (w : world) (type : Z) (isSystem : bool) (arg : Z)
    (initName : option string) (env : createEnv) : option (Z * option Z * world) :=
  if mg_isQuiesced (w_mgr w) then Some (SDB_QUIESCED, None, w)
  else if negb (ce_event env) then Some (SDB_OOM, None, w)
  else
    match ce_cb env with
    | None => Some (SDB_OOM, None, w)
    | Some p =>
        let '(newID, w) := createNewEDU_insert w p type isSystem arg initName (ce_errorBuff env) in
        match ce_thread env with
        | None =>
            w ← delete_cb w p;
            Some (SDB_SYS, None, set_mgr w (createNewEDU_undo (w_mgr w) type newID isSystem))
        | Some result =>
            if negb (result =? SDB_OK) then Some (result, None, w)
            else Some (SDB_OK, Some newID, w)
        end
    end.

Definition createIdleEDU (w : world) (env : createEnv) : option (Z * option Z * world) :=
  if mg_isQuiesced (w_mgr w) then Some (SDB_QUIESCED, None, w)
  else if negb (ce_event env) then Some (SDB_OOM, None, w)
  else
    match ce_cb env with
    | None => Some (SDB_OOM, None, w)
    | Some p =>
        let '(newID, w) := createIdleEDU_insert w p (ce_errorBuff env) in
        match ce_thread env with
        | None =>
            w ← delete_cb w p;
            Some (SDB_SYS, None, set_mgr w (createIdleEDU_undo (w_mgr w) newID))
        | Some result =>
            if negb (result =? SDB_OK) then Some (result, None, w)
            else Some (SDB_OK, Some newID, w)
        end
    end.

Section factory.
Context (f : pmdEPFactory).

Definition startEDU (w : world) (type args : Z) (initName : option string) (env : createEnv)
    : option (Z * option Z * world) :=
  if mg_isQuiesced (w_mgr w) then Some (SDB_QUIESCED, None, w)
  else
    match getItem f type with
    | None => Some (SDB_SYS, None, w)
    | Some i =>
        if ep_pFunc i =? 0 then Some (SDB_SYS, None, w)
        else
          '(o, w) ←
            (if negb (ep_isSystem i) && isPoolable i then getFromPool w type else Some (None, w));
          match o with
          | Some p =>
              w ← start_clear w p;
              w ← start_post w p initName args;
              c ← w_cbs w !! p;
              Some (SDB_OK, Some (cb_eduID c), w)
          | None => createNewEDU w type (ep_isSystem i) args initName env
          end
    end.

(** [forkEDU]: another executor like the one of this thread, whose control
    block is [self]. *)
Definition forkEDU (w : world) (self : option Z) (args : Z) (initName : option string) (env : createEnv)
    : option (Z * option Z * world) :=
  match self with
  | None => Some (SDB_SYS, None, w)
  | Some p =>
      c ← w_cbs w !! p;
      let initName :=
        match initName with
        | Some n => if String.eqb n "" then Some (cb_name c) else Some n
        | None => Some (cb_name c)
        end in
      startEDU w (cb_eduType c) args initName env
  end.

End factory.

(** ** What a caller of [startEDU] gets *)









Section outcome.
Context (f : pmdEPFactory) (g : config) (Hg : config_ok f g).
Abbreviation w := (g_w g).
Abbreviation m := (w_mgr (g_w g)).









End outcome.



