(* ===== verification/PmdStop.v ===== *)
(** * Stopping all executors (src/src/pmd/pmdEDUMgr.cpp): [destroyAll],
    [fini], [deadCheck]

    [destroyAll] polls three counts, each until it is zero or its time is
    over.  The counts change under it, so they are an argument: what each poll
    finds.  The result is whether the stop was normal, with the trace of what
    the function did to the rest of the system.  Each loop has as fuel one
    round more than its time allows; [destroyAll_total] shows that it never
    runs out. *)
From S2P Require Import Prelude.
From S2P Require Import PmdEDUMgr.
#[local] Open Scope Z_scope.

Definition PMD_FORCE_IO_INTERVAL : Z := 200.
Definition PMD_FORCE_EDU_INTERVAL : Z := 100.
Definition PMD_STOP_MIN_TIMEOUT : Z := 60000.
Definition PMD_STOP_TIMEOUT : Z := 600000.
Definition PMD_STOP_DEADCHECK_TIMEOUT : Z := PMD_STOP_TIMEOUT + 60000.

(** ** [destroyAll] *)

Inductive stopAct :=
  | ASetDestroyed
  | ASetQuiesced
  | ASignalMonitor
  | AJoinMonitor
  | AForceIO
  | AForceEDUs (property : Z)
  | ASleep (millsec : Z).

(** What the n-th poll of each loop finds. *)
Record stopEnv := mkStopEnv {
  se_io : nat -> Z;
  se_user : nat -> Z;
  se_all : nat -> Z
}.

(** The loops: whether the count reached zero in time, [timeoutCounter], and
    the trace.  [None]: no fuel. *)
Fixpoint io_loop (fuel n : nat) (count : nat -> Z) (limit timeoutCounter : Z)
    : option (bool * Z * list stopAct) :=
  match fuel with
  | O => None
  | S fuel =>
      if 0 <? count n then
        let timeoutCounter := timeoutCounter + PMD_FORCE_IO_INTERVAL in
        if limit <=? timeoutCounter
        then Some (false, timeoutCounter, [AForceIO; ASleep PMD_FORCE_IO_INTERVAL])
        else
          '(ok, t, acts) ← io_loop fuel (S n) count limit timeoutCounter;
          Some (ok, t, AForceIO :: ASleep PMD_FORCE_IO_INTERVAL :: acts)
      else Some (true, timeoutCounter, [])
  end.

Fixpoint edu_loop (fuel n : nat) (count : nat -> Z) (property limit timeCounter timeoutCounter : Z)
    : option (bool * Z * list stopAct) :=
  match fuel with
  | O => None
  | S fuel =>
      if negb (count n =? 0) then
        let forced := if 0 =? timeCounter mod 50 then [AForceEDUs property] else [] in
        let timeCounter := u32 (timeCounter + 1) in
        let timeoutCounter := timeoutCounter + PMD_FORCE_EDU_INTERVAL in
        if limit <? timeoutCounter
        then Some (false, timeoutCounter, forced ++ [ASleep PMD_FORCE_EDU_INTERVAL])
        else
          '(ok, t, acts) ← edu_loop fuel (S n) count property limit timeCounter timeoutCounter;
          Some (ok, t, forced ++ ASleep PMD_FORCE_EDU_INTERVAL :: acts)
      else Some (true, timeoutCounter, [])
  end.

Definition loop_fuel (limit interval : Z) : nat := Z.to_nat (limit / interval + 2).

(** [lastTimeout] after a loop. *)
Definition fix_last (limit lastTimeout timeoutCounter : Z) : Z :=
  if timeoutCounter <? limit then limit - timeoutCounter else lastTimeout.

Definition item_timeout (timeout : Z) : Z :=
  if 0 <? timeout then Z.quot timeout 3 else 2147483647.

Definition destroyAll (env : stopEnv) (hasMonitor : bool) (timeout : Z)
    : option (bool * list stopAct) :=
  let itemTimeout := item_timeout timeout in
  let lastTimeout := 0 in
  let limit := itemTimeout + lastTimeout in
  '(ok1, t1, acts1) ← io_loop (loop_fuel limit PMD_FORCE_IO_INTERVAL) 0 (se_io env) limit 0;
  let lastTimeout := fix_last limit lastTimeout t1 in
  let limit := itemTimeout + lastTimeout in
  '(ok2, t2, acts2) ← edu_loop (loop_fuel limit PMD_FORCE_EDU_INTERVAL) 0 (se_user env)
                        PMD_EDU_USER limit 0 0;
  let lastTimeout := fix_last limit lastTimeout t2 in
  let limit := itemTimeout + lastTimeout in
  '(ok3, _, acts3) ← edu_loop (loop_fuel limit PMD_FORCE_EDU_INTERVAL) 0 (se_all env)
                       PMD_EDU_ALL limit 0 0;
  Some (ok1 && ok2 && ok3,
        [ASetDestroyed; ASetQuiesced; ASignalMonitor] ++
        (if hasMonitor then [AJoinMonitor] else []) ++ acts1 ++ acts2 ++ acts3).

(** [fini]: a second try of a minute when the first was not normal. *)
Definition fini (env env' : stopEnv) (hasMonitor : bool) (timeout : Z)
    : option (bool * list stopAct) :=
  let timeout := if (0 <? timeout) && (timeout <? PMD_STOP_MIN_TIMEOUT)
                 then PMD_STOP_MIN_TIMEOUT else timeout in
  '(normalStop, acts) ← destroyAll env hasMonitor timeout;
  if (0 <? timeout) && negb normalStop then
    '(normalStop, acts') ← destroyAll env' false PMD_STOP_MIN_TIMEOUT;
    Some (normalStop, acts ++ acts')
  else Some (normalStop, acts).

Definition slept (acts : list stopAct) : Z :=
  sumZ (map (fun a => match a with ASleep n => n | _ => 0 end) acts).

(** ** [deadCheck] *)

(** [signalled n]: the n-th wait of a second ends with the event.  The result
    is whether the program was stopped by [ossPanic], and after how many
    seconds the thread ended. *)
Fixpoint dead_loop (fuel n : nat) (signalled : nat -> bool) (restTimeout : Z)
    : option (bool * nat) :=
  match fuel with
  | O => None
  | S fuel =>
      if signalled n then Some (false, n)
      else
        let restTimeout := restTimeout - OSS_ONE_SEC in
        if restTimeout <=? 0 then Some (true, S n)
        else dead_loop fuel (S n) signalled restTimeout
  end.

Definition deadCheck (signalled : nat -> bool) (timeout : Z) : option (bool * nat) :=
  let restTimeout := if PMD_STOP_MIN_TIMEOUT <? timeout then timeout else PMD_STOP_MIN_TIMEOUT in
  dead_loop (Z.to_nat (restTimeout / OSS_ONE_SEC + 1)) 0 signalled restTimeout.

(** ** The loops end *)

Lemma slept_app a b : slept (a ++ b) = slept a + slept b.
Proof. unfold slept. by rewrite map_app, sumZ_app. Qed.

Lemma slept_forced (b : bool) p : slept (if b then [AForceEDUs p] else []) = 0.
Proof. by destruct b. Qed.

(** What a loop that started with the time [t] used up leaves. *)
Definition loop_end (count : nat -> Z) (limit interval t : Z) (r : bool * Z * list stopAct) : Prop :=
  let '(ok, t', acts) := r in
  slept acts = t' - t /\ t <= t' <= limit + interval /\
  (ok = true -> exists k, count k <= 0) /\ (ok = false -> limit <= t').

Lemma io_loop_ok fuel : forall n count limit t,
  limit < t + PMD_FORCE_IO_INTERVAL * Z.of_nat fuel -> t <= limit ->
  exists r, io_loop fuel n count limit t = Some r /\
    loop_end count limit PMD_FORCE_IO_INTERVAL t r.
Proof.
  induction fuel as [|fuel IH]; intros n count limit t Hf Ht; [unfold PMD_FORCE_IO_INTERVAL in *; lia|].
  simpl. unfold PMD_FORCE_IO_INTERVAL in *. destruct (Z.ltb_spec 0 (count n)).
  - destruct (Z.leb_spec limit (t + 200)).
    + eexists. split; [done|]. unfold loop_end, slept. simpl. split_and!; try lia; done.
    + destruct (IH (S n) count limit (t + 200)) as ([[ok t'] acts] & -> & Hs & Hb & Ho & Hn); [lia..|].
      eexists. split; [done|]. unfold loop_end, slept in *. simpl. split_and!; try lia; done.
  - eexists. split; [done|]. unfold loop_end, slept. simpl. split_and!; try lia. eauto.
Qed.

Lemma edu_loop_ok fuel : forall n count p limit tc t,
  limit < t + PMD_FORCE_EDU_INTERVAL * Z.of_nat fuel -> t <= limit ->
  exists r, edu_loop fuel n count p limit tc t = Some r /\
    loop_end count limit PMD_FORCE_EDU_INTERVAL t r.
Proof.
  induction fuel as [|fuel IH]; intros n count p limit tc t Hf Ht;
    [unfold PMD_FORCE_EDU_INTERVAL in *; lia|].
  cbn [edu_loop]. unfold PMD_FORCE_EDU_INTERVAL in *. destruct (Z.eqb_spec (count n) 0); cbn [negb].
  - eexists. split; [done|]. unfold loop_end, slept. simpl. split_and!; try lia.
    intros _. exists n. lia.
  - set (b := 0 =? _). destruct (Z.ltb_spec limit (t + 100)).
    + eexists. split; [done|]. unfold loop_end. rewrite slept_app, slept_forced. unfold slept. simpl.
      split_and!; try lia; done.
    + destruct (IH (S n) count p limit (u32 (tc + 1)) (t + 100))
        as ([[ok t'] acts] & -> & Hs & Hb & Ho & Hn); [lia..|].
      eexists. split; [done|]. unfold loop_end. rewrite slept_app, slept_forced.
      unfold slept in *. simpl.
      split_and!; try lia; done.
Qed.

Lemma loop_fuel_enough limit interval :
  0 <= limit -> 0 < interval -> limit < 0 + interval * Z.of_nat (loop_fuel limit interval).
Proof.
  intros Hl Hi. unfold loop_fuel. pose proof (Z.div_pos limit interval Hl Hi).
  pose proof (Z.div_mod limit interval). pose proof (Z.mod_pos_bound limit interval Hi).
  rewrite Z2Nat.id by lia. lia.
Qed.

Lemma item_timeout_nonneg timeout : 0 <= item_timeout timeout.
Proof. unfold item_timeout. destruct (Z.ltb_spec 0 timeout); [|lia]. apply Z.quot_pos; lia. Qed.

Lemma fix_last_range limit last t :
  0 <= last ->
  0 <= fix_last limit last t /\
  (t < limit /\ fix_last limit last t = limit - t \/ limit <= t /\ fix_last limit last t = last).
Proof. intros. unfold fix_last. destruct (Z.ltb_spec t limit); lia. Qed.

(** ** Stopping *)

Lemma destroyAll_total env mon timeout :
  exists ok acts, destroyAll env mon timeout = Some (ok, acts) /\
    0 <= slept acts <= 4 * item_timeout timeout + 400 /\
    (ok = false -> item_timeout timeout <= slept acts) /\
    (ok = true -> exists i j k, se_io env i <= 0 /\ se_user env j <= 0 /\ se_all env k <= 0).
Proof.
  unfold destroyAll. pose proof (item_timeout_nonneg timeout) as Hi.
  set (item := item_timeout timeout) in *.
  destruct (io_loop_ok (loop_fuel (item + 0) PMD_FORCE_IO_INTERVAL) 0 (se_io env) (item + 0) 0)
    as ([[ok1 t1] acts1] & -> & H1); [apply loop_fuel_enough; done || lia|lia|]. cbn [mbind option_bind].
  pose proof (fix_last_range (item + 0) 0 t1 ltac:(lia)) as [Hl1 He1].
  set (l1 := fix_last (item + 0) 0 t1) in *.
  destruct (edu_loop_ok (loop_fuel (item + l1) PMD_FORCE_EDU_INTERVAL) 0 (se_user env) PMD_EDU_USER
    (item + l1) 0 0) as ([[ok2 t2] acts2] & -> & H2);
    [apply loop_fuel_enough; done || lia|lia|]. cbn [mbind option_bind].
  pose proof (fix_last_range (item + l1) l1 t2 Hl1) as [Hl2 He2].
  set (l2 := fix_last (item + l1) l1 t2) in *.
  destruct (edu_loop_ok (loop_fuel (item + l2) PMD_FORCE_EDU_INTERVAL) 0 (se_all env) PMD_EDU_ALL
    (item + l2) 0 0) as ([[ok3 t3] acts3] & -> & H3);
    [apply loop_fuel_enough; done || lia|lia|]. cbn [mbind option_bind].
  destruct H1 as (S1 & B1 & O1 & N1), H2 as (S2 & B2 & O2 & N2), H3 as (S3 & B3 & O3 & N3).
  do 2 eexists. split; [done|]. rewrite !slept_app.
  assert (slept (if mon then [AJoinMonitor] else []) = 0) as -> by by destruct mon.
  change (slept [ASetDestroyed; ASetQuiesced; ASignalMonitor]) with 0.
  unfold PMD_FORCE_IO_INTERVAL, PMD_FORCE_EDU_INTERVAL in *. split_and!; try lia.
  - intros Hok. destruct ok1; [|specialize (N1 eq_refl); lia].
    destruct ok2; [|specialize (N2 eq_refl); lia].
    destruct ok3; [done|specialize (N3 eq_refl); lia].
  - intros [[-> ->]%andb_true_iff ->]%andb_true_iff.
    destruct (O1 eq_refl) as [i ?], (O2 eq_refl) as [j ?], (O3 eq_refl) as [k ?].
    by exists i, j, k.
Qed.

(** C37: [destroyAll] always returns: whatever the counts do, it sleeps for at
    most four thirds of the timeout and four rounds more (four times its third
    of the timeout); when it reports a normal stop each of the three counts
    was zero at a poll, and when it does not it has waited for at least a third
    of the timeout. *)
Theorem destroyAll_bounded env hasMonitor timeout :
  exists normalStop acts, destroyAll env hasMonitor timeout = Some (normalStop, acts) /\
    0 <= slept acts <= 4 * item_timeout timeout + 400 /\
    (normalStop = false -> item_timeout timeout <= slept acts) /\
    (normalStop = true ->
     exists i j k, se_io env i <= 0 /\ se_user env j <= 0 /\ se_all env k <= 0).
Proof. apply destroyAll_total. Qed.

(** ** The dead check *)

Definition dead_seconds (rest : Z) : nat := Z.to_nat ((rest + OSS_ONE_SEC - 1) / OSS_ONE_SEC).

Lemma dead_loop_ok signalled fuel : forall n rest,
  0 < rest -> (dead_seconds rest <= fuel)%nat ->
  exists panic k, dead_loop fuel n signalled rest = Some (panic, k) /\
    if panic : bool
    then k = (n + dead_seconds rest)%nat /\ forall j, (n <= j < k)%nat -> signalled j = false
    else (n <= k < n + dead_seconds rest)%nat /\ signalled k = true.
Proof.
  unfold dead_seconds, OSS_ONE_SEC. induction fuel as [|fuel IH]; intros n rest Hr Hf.
  { pose proof (Z.div_le_lower_bound (rest + 1000 - 1) 1000 1). lia. }
  cbn [dead_loop]. unfold OSS_ONE_SEC.
  assert (rest <= 1000 -> (rest + 1000 - 1) / 1000 = 1) as Hone
    by (intros; symmetry; apply (Z.div_unique _ _ _ (rest - 1)); lia).
  assert ((rest + 1000 - 1) / 1000 = (rest - 1000 + 1000 - 1) / 1000 + 1) as Hstep
    by (rewrite <- Z.div_add by lia; f_equal; lia).
  assert (1000 < rest -> 0 <= (rest - 1000 + 1000 - 1) / 1000) by (intros; apply Z.div_pos; lia).
  destruct (signalled n) eqn:Es.
  - exists false, n. split; [done|]. split; [|done].
    destruct (decide (rest <= 1000)); lia.
  - destruct (Z.leb_spec (rest - 1000) 0).
    + exists true, (S n). split; [done|]. split; [lia|]. intros j Hj.
      by assert (j = n) as -> by lia.
    + destruct (IH (S n) (rest - 1000)) as (panic & k & -> & Hk); [lia..|].
      exists panic, k. split; [done|]. destruct panic; destruct Hk as [Hk Hs]; (split; [lia|]); [|done].
      intros j Hj. destruct (decide (j = n)) as [->|]; [done|]. apply Hs. lia.
Qed.

(** The dead check stops the program with [ossPanic] just when no signal comes
    within the seconds of its timeout, which is a minute at least. *)
Theorem deadCheck_exact signalled timeout :
  let rest := Z.max timeout PMD_STOP_MIN_TIMEOUT in
  exists panic k, deadCheck signalled timeout = Some (panic, k) /\
    if panic : bool
    then k = dead_seconds rest /\ forall j, (j < k)%nat -> signalled j = false
    else (k < dead_seconds rest)%nat /\ signalled k = true.
Proof.
  intros rest. unfold deadCheck.
  assert ((if PMD_STOP_MIN_TIMEOUT <? timeout then timeout else PMD_STOP_MIN_TIMEOUT) = rest) as ->
    by (unfold rest; destruct (Z.ltb_spec PMD_STOP_MIN_TIMEOUT timeout); lia).
  assert (0 < rest) as Hr by (unfold rest, PMD_STOP_MIN_TIMEOUT; lia).
  destruct (dead_loop_ok signalled (Z.to_nat (rest / OSS_ONE_SEC + 1)) 0 rest Hr)
    as (panic & k & E & Hk).
  { unfold dead_seconds, OSS_ONE_SEC. pose proof (Z.div_pos rest 1000 ltac:(lia) ltac:(lia)).
    assert ((rest + 1000 - 1) / 1000 <= rest / 1000 + 1); [|lia].
    rewrite <- Z.div_add by lia. apply Z.div_le_mono; lia. }
  exists panic, k. split; [done|]. destruct panic; destruct Hk as [Hk Hs]; (split; [lia|]); [|done].
  intros j Hj. apply Hs. lia.
Qed.

(** ** The time that is counted twice *)

Definition never_zero (count : nat -> Z) : Prop := forall n, 0 < count n.

Lemma io_loop_none fuel count limit : count 0%nat <= 0 -> io_loop (S fuel) 0 count limit 0 = Some (true, 0, []).
Proof. intros H. simpl. by rewrite (proj2 (Z.ltb_ge _ _)). Qed.

Lemma edu_loop_stuck fuel count p limit :
  never_zero count -> limit < 0 + PMD_FORCE_EDU_INTERVAL * Z.of_nat fuel -> 0 <= limit ->
  exists t acts, edu_loop fuel 0 count p limit 0 0 = Some (false, t, acts) /\ slept acts = t /\ limit <= t.
Proof.
  intros Hc Hf Hl. destruct (edu_loop_ok fuel 0 count p limit 0 0 Hf Hl) as ([[ok t] acts] & E & S & _ & O & N).
  destruct ok; [destruct (O eq_refl) as [k Hk]; pose proof (Hc k); lia|].
  exists t, acts. split; [done|]. split; [lia|auto].
Qed.

Lemma destroyAll_stuck env mon timeout :
  0 < timeout -> se_io env 0%nat <= 0 -> never_zero (se_user env) -> never_zero (se_all env) ->
  exists acts, destroyAll env mon timeout = Some (false, acts) /\ 4 * item_timeout timeout <= slept acts.
Proof.
  intros Ht Hio Hu Ha. pose proof (item_timeout_nonneg timeout) as Hi. unfold destroyAll. cbv zeta.
  set (item := item_timeout timeout) in *.
  assert (exists n, loop_fuel (item + 0) PMD_FORCE_IO_INTERVAL = S n) as [n ->].
  { pose proof (Z.div_pos (item + 0) 200 ltac:(lia) ltac:(lia)). unfold loop_fuel, PMD_FORCE_IO_INTERVAL.
    exists (Z.to_nat ((item + 0) / 200 + 1)). lia. }
  rewrite io_loop_none by done. cbn [mbind option_bind].
  assert (fix_last (item + 0) 0 0 = item) as -> by (unfold fix_last; destruct (Z.ltb_spec 0 (item + 0)); lia).
  destruct (edu_loop_stuck (loop_fuel (item + item) PMD_FORCE_EDU_INTERVAL) (se_user env) PMD_EDU_USER (item + item))
    as (t2 & acts2 & -> & S2 & L2); [done|apply loop_fuel_enough; done || lia|lia|]. cbn [mbind option_bind].
  assert (fix_last (item + item) item t2 = item) as -> by (unfold fix_last; by rewrite (proj2 (Z.ltb_ge _ _))).
  destruct (edu_loop_stuck (loop_fuel (item + item) PMD_FORCE_EDU_INTERVAL) (se_all env) PMD_EDU_ALL (item + item))
    as (t3 & acts3 & -> & S3 & L3); [done|apply loop_fuel_enough; done || lia|lia|]. cbn [mbind option_bind].
  eexists. split; [done|]. rewrite !slept_app.
  assert (slept (if mon then [AJoinMonitor] else []) = 0) as -> by by destruct mon.
  change (slept [ASetDestroyed; ASetQuiesced; ASignalMonitor]) with 0. change (slept []) with 0. lia.
Qed.

(** C38: the time the first part of a stop saves is used twice.  With no IO
    service and executors that never stop, [destroyAll] adds the whole third of
    the first part to the second part, and, as [lastTimeout] is not updated when
    a part uses its time up, to the third part again: for every timeout it
    sleeps for at least four thirds of it.  With the default timeout that is
    800.2 s, while the dead check stops the program after 660 s, before
    [destroyAll] has returned and [fini] can try again. *)
Theorem stop_outlives_deadcheck :
  (forall env hasMonitor timeout, 0 < timeout -> se_io env 0%nat <= 0 ->
     never_zero (se_user env) -> never_zero (se_all env) ->
     exists acts, destroyAll env hasMonitor timeout = Some (false, acts) /\
       4 * (timeout / 3) <= slept acts) /\
  (exists acts,
     destroyAll (mkStopEnv (fun _ => 0) (fun _ => 1) (fun _ => 1)) true PMD_STOP_TIMEOUT = Some (false, acts) /\
     slept acts = 800200 /\ PMD_STOP_DEADCHECK_TIMEOUT = 660000 /\
     deadCheck (fun _ => false) PMD_STOP_DEADCHECK_TIMEOUT = Some (true, 660%nat)).
Proof.
  split.
  - intros env mon timeout Ht H1 H2 H3. destruct (destroyAll_stuck env mon timeout Ht H1 H2 H3) as (acts & E & H).
    exists acts. split; [done|]. unfold item_timeout in H. rewrite (proj2 (Z.ltb_lt _ _)) in H by done.
    by rewrite Z.quot_div_nonneg in H by lia.
  - eexists. split; [vm_compute; reflexivity|]. split_and!; vm_compute; reflexivity.
Qed.

Lemma stop_outlives_deadcheck_witness :
  exists acts, destroyAll (mkStopEnv (fun _ => 0) (fun _ => 1) (fun _ => 1)) false 90000 = Some (false, acts) /\
    120000 <= slept acts.
Proof.
  destruct stop_outlives_deadcheck as [H _].
  destruct (H (mkStopEnv (fun _ => 0) (fun _ => 1) (fun _ => 1)) false 90000) as (acts & E & Hs);
    [lia|simpl; lia|intros n; simpl; lia|intros n; simpl; lia|]. exists acts. split; [exact E|exact Hs].
Defined.
