(* ===== verification/BsonDecimal.v ===== *)
(** * Decimals of BSON (src/src/bson/common_decimal.c, common_decimal_type.h)

    A decimal is a sign, digits in base 10000 with the most significant first,
    and the weight of the first digit: its value is the sum of
    [digits[i] * 10000 ^ (weight - i)].  [dc_head] are the cells of the buffer
    in front of the digits: rounding carries into the last of them.
    Functions take what [malloc] does as an argument where they allocate.
    Pointers are valid; the fields are C integers that stay far from their
    bounds, as [_decimal_is_out_of_bound] keeps them. *)
From S2P Require Import Prelude.
#[local] Open Scope Z_scope.

Definition DECIMAL_SIGN_MASK : Z := 49152.
Definition SDB_DECIMAL_POS : Z := 0.
Definition SDB_DECIMAL_NEG : Z := 16384.
Definition SDB_DECIMAL_SPECIAL_SIGN : Z := 49152.
Definition SDB_DECIMAL_SPECIAL_NAN : Z := 0.
Definition SDB_DECIMAL_SPECIAL_MIN : Z := 1.
Definition SDB_DECIMAL_SPECIAL_MAX : Z := 2.
Definition DECIMAL_DSCALE_MASK : Z := 16383.
Definition DECIMAL_MAX_PRECISION : Z := 1000.
Definition DECIMAL_MAX_DISPLAY_SCALE : Z := DECIMAL_MAX_PRECISION.
Definition DECIMAL_MIN_DISPLAY_SCALE : Z := 0.
Definition DECIMAL_MIN_SIG_DIGITS : Z := 16.
Definition DECIMAL_NBASE : Z := 10000.
Definition DECIMAL_HALF_NBASE : Z := 5000.
Definition DECIMAL_DEC_DIGITS : Z := 4.
Definition DECIMAL_MUL_GUARD_DIGITS : Z := 2.
Definition DECIMAL_HEADER_SIZE : Z := 12.
Definition DECIMAL_MAX_DWEIGHT : Z := 131072.
Definition DECIMAL_MAX_DSCALE : Z := 16383.
Definition DECIMAL_MAX_WEIGHT : Z := 32768.

Record bson_decimal := mkDec {
  dc_typemod : Z;
  dc_sign : Z;
  dc_dscale : Z;
  dc_weight : Z;
  dc_isOwn : bool;
  dc_head : list Z;
  dc_digits : list Z
}.

Definition dc_ndigits (d : bson_decimal) : Z := Z.of_nat (length (dc_digits d)).

Definition set_dc_typemod (d : bson_decimal) (x : Z) : bson_decimal :=
  mkDec x (dc_sign d) (dc_dscale d) (dc_weight d) (dc_isOwn d) (dc_head d) (dc_digits d).
Definition set_dc_sign (d : bson_decimal) (x : Z) : bson_decimal :=
  mkDec (dc_typemod d) x (dc_dscale d) (dc_weight d) (dc_isOwn d) (dc_head d) (dc_digits d).
Definition set_dc_dscale (d : bson_decimal) (x : Z) : bson_decimal :=
  mkDec (dc_typemod d) (dc_sign d) x (dc_weight d) (dc_isOwn d) (dc_head d) (dc_digits d).
Definition set_dc_digits (d : bson_decimal) (weight : Z) (head digits : list Z) : bson_decimal :=
  mkDec (dc_typemod d) (dc_sign d) (dc_dscale d) weight (dc_isOwn d) head digits.

(** ** Construction, special values *)

Definition decimal_init : bson_decimal := mkDec (-1) SDB_DECIMAL_POS 0 0 false [] [].

Definition decimal_init1 (d : bson_decimal) (precision scale : Z) : Z * bson_decimal :=
  if (precision <? 1) || (DECIMAL_MAX_PRECISION <? precision) then (-6, d)
  else if (scale <? 0) || (precision <? scale) then (-6, d)
  else (0, set_dc_typemod decimal_init (Z.lor (Z.shiftl precision 16) scale)).

Definition decimal_free (d : bson_decimal) : bson_decimal := decimal_init.

Definition decimal_set_zero (d : bson_decimal) : bson_decimal := decimal_free d.

Definition decimal_is_special (d : bson_decimal) : bool := dc_sign d =? SDB_DECIMAL_SPECIAL_SIGN.

Definition decimal_is_zero (d : bson_decimal) : bool :=
  if decimal_is_special d then false
  else match dc_digits d with [] => true | x :: _ => x =? 0 end.

Definition set_special (d : bson_decimal) (dscale : Z) : bson_decimal :=
  set_dc_dscale (set_dc_sign (decimal_free d) SDB_DECIMAL_SPECIAL_SIGN) dscale.

Definition decimal_set_nan (d : bson_decimal) : bson_decimal := set_special d SDB_DECIMAL_SPECIAL_NAN.
Definition decimal_set_min (d : bson_decimal) : bson_decimal := set_special d SDB_DECIMAL_SPECIAL_MIN.
Definition decimal_set_max (d : bson_decimal) : bson_decimal := set_special d SDB_DECIMAL_SPECIAL_MAX.

Definition decimal_is_nan (d : bson_decimal) : bool :=
  decimal_is_special d && (dc_dscale d =? SDB_DECIMAL_SPECIAL_NAN).
Definition decimal_is_min (d : bson_decimal) : bool :=
  decimal_is_special d && (dc_dscale d =? SDB_DECIMAL_SPECIAL_MIN).
Definition decimal_is_max (d : bson_decimal) : bool :=
  decimal_is_special d && (dc_dscale d =? SDB_DECIMAL_SPECIAL_MAX).

Definition decimal_is_out_of_bound (d : bson_decimal) : bool :=
  (DECIMAL_MAX_WEIGHT <=? dc_weight d) || (DECIMAL_MAX_DSCALE <? dc_dscale d).

Definition decimal_abs (d : bson_decimal) : Z * bson_decimal :=
  if decimal_is_special d then (-6, d) else (0, set_dc_sign d SDB_DECIMAL_POS).

(** A copy has a buffer of its own, with one spare cell. *)
Definition decimal_copy (alloc : bool) (source target : bson_decimal) : Z * bson_decimal :=
  if negb alloc then (-2, target)
  else (0, mkDec (dc_typemod source) (dc_sign source) (dc_dscale source) (dc_weight source)
             true [0] (dc_digits source)).

(** ** [_decimal_strip] *)

Fixpoint strip_leading (head digits : list Z) (weight : Z) : list Z * list Z * Z :=
  match digits with
  | 0 :: digits => strip_leading (head ++ [0]) digits (weight - 1)
  | _ => (head, digits, weight)
  end.

Fixpoint strip_trailing (digits : list Z) : list Z :=
  match digits with
  | [] => []
  | x :: digits =>
      match strip_trailing digits with
      | [] => if x =? 0 then [] else [x]
      | l => x :: l
      end
  end.

Definition decimal_strip (d : bson_decimal) : bson_decimal :=
  if negb (dc_isOwn d) then d
  else
    let '(head, digits, weight) := strip_leading (dc_head d) (dc_digits d) (dc_weight d) in
    match strip_trailing digits with
    | [] => mkDec (dc_typemod d) SDB_DECIMAL_POS (dc_dscale d) 0 true head []
    | digits => set_dc_digits d weight head digits
    end.

(** ** Comparison *)

(** The digits above the weight of the other side: [None] when one is not
    zero. *)
Fixpoint skip_higher (weight other : Z) (digits : list Z) : option (Z * list Z) :=
  match digits with
  | [] => Some (weight, [])
  | x :: rest =>
      if other <? weight
      then if negb (x =? 0) then None else skip_higher (weight - 1) other rest
      else Some (weight, digits)
  end.

Fixpoint cmp_common (l r : list Z) : Z + (list Z * list Z) :=
  match l, r with
  | x :: l', y :: r' =>
      let stat := x - y in
      if negb (stat =? 0) then inl (if 0 <? stat then 1 else -1) else cmp_common l' r'
  | _, _ => inr (l, r)
  end.

Definition any_digit (l : list Z) : bool := existsb (fun x => negb (x =? 0)) l.

Definition decimal_cmp_abs (left right : bson_decimal) : Z :=
  match skip_higher (dc_weight left) (dc_weight right) (dc_digits left) with
  | None => 1
  | Some (weight1, l) =>
      match skip_higher (dc_weight right) weight1 (dc_digits right) with
      | None => -1
      | Some (weight2, r) =>
          match (if weight1 =? weight2 then cmp_common l r else inr (l, r)) with
          | inl stat => stat
          | inr (l, r) => if any_digit l then 1 else if any_digit r then -1 else 0
          end
      end
  end.

Definition decimal_cmp (left right : bson_decimal) : Z :=
  if decimal_is_min left then if decimal_is_min right then 0 else -1
  else if decimal_is_min right then 1
  else if decimal_is_max left then if decimal_is_max right then 0 else 1
  else if decimal_is_max right then -1
  else if decimal_is_nan left then if decimal_is_nan right then 0 else -1
  else if decimal_is_nan right then 1
  else
    match dc_digits left, dc_digits right with
    | [], [] => 0
    | [], _ => if dc_sign right =? SDB_DECIMAL_NEG then 1 else -1
    | _, [] => if dc_sign left =? SDB_DECIMAL_POS then 1 else -1
    | _, _ =>
        if dc_sign left =? SDB_DECIMAL_POS then
          if dc_sign right =? SDB_DECIMAL_NEG then 1 else decimal_cmp_abs left right
        else if dc_sign right =? SDB_DECIMAL_POS then -1
        else decimal_cmp_abs right left
    end.

(** ** Addition and subtraction *)

(** [digits[i]] where there is such a digit, and nothing to add elsewhere. *)
Definition digit_at (digits : list Z) (i : Z) : Z :=
  if (0 <=? i) && (i <? Z.of_nat (length digits)) then nth (Z.to_nat i) digits 0 else 0.

(** The loops from the last digit of the result to the first: [n] digits are
    left to compute, [acc] are those already stored. *)
Fixpoint add_loop (n : nat) (l r : list Z) (i1 i2 carry : Z) (acc : list Z) : list Z * Z :=
  match n with
  | O => (acc, carry)
  | S n =>
      let i1 := i1 - 1 in
      let i2 := i2 - 1 in
      let carry := carry + digit_at l i1 + digit_at r i2 in
      if DECIMAL_NBASE <=? carry then add_loop n l r i1 i2 1 (carry - DECIMAL_NBASE :: acc)
      else add_loop n l r i1 i2 0 (carry :: acc)
  end.

Fixpoint sub_loop (n : nat) (l r : list Z) (i1 i2 borrow : Z) (acc : list Z) : list Z * Z :=
  match n with
  | O => (acc, borrow)
  | S n =>
      let i1 := i1 - 1 in
      let i2 := i2 - 1 in
      let borrow := borrow + digit_at l i1 - digit_at r i2 in
      if borrow <? 0 then sub_loop n l r i1 i2 (-1) (borrow + DECIMAL_NBASE :: acc)
      else sub_loop n l r i1 i2 0 (borrow :: acc)
  end.

Definition rscale (d : bson_decimal) : Z := dc_ndigits d - dc_weight d - 1.

Definition clamp_ndigits (n : Z) : Z := if n <=? 0 then 1 else n.

(** What both functions store, once the digits are there. *)
Definition abs_result (dscale weight : Z) (digits : list Z) : bson_decimal :=
  decimal_strip (mkDec (-1) SDB_DECIMAL_POS dscale weight true [0] digits).

Definition decimal_add_abs (alloc : bool) (left right result : bson_decimal) : Z * bson_decimal :=
  let res_weight := Z.max (dc_weight left) (dc_weight right) + 1 in
  let res_dscale := Z.max (dc_dscale left) (dc_dscale right) in
  let res_rscale := Z.max (rscale left) (rscale right) in
  let res_ndigits := clamp_ndigits (res_rscale + res_weight + 1) in
  if negb alloc then (-2, result)
  else
    let '(digits, carry) :=
      add_loop (Z.to_nat res_ndigits) (dc_digits left) (dc_digits right)
        (res_rscale + dc_weight left + 1) (res_rscale + dc_weight right + 1) 0 [] in
    if negb (carry =? 0) then (-6, result)
    else (0, abs_result res_dscale res_weight digits).

Definition decimal_sub_abs (alloc : bool) (left right result : bson_decimal) : Z * bson_decimal :=
  let res_weight := dc_weight left in
  let res_dscale := Z.max (dc_dscale left) (dc_dscale right) in
  let res_rscale := Z.max (rscale left) (rscale right) in
  let res_ndigits := clamp_ndigits (res_rscale + res_weight + 1) in
  if negb alloc then (-2, result)
  else
    let '(digits, borrow) :=
      sub_loop (Z.to_nat res_ndigits) (dc_digits left) (dc_digits right)
        (res_rscale + dc_weight left + 1) (res_rscale + dc_weight right + 1) 0 [] in
    if negb (borrow =? 0) then (-6, result)
    else (0, abs_result res_dscale res_weight digits).

(** Where the result is stored: it may be one of the operands, or both when
    they are the same object, and then the operand is no longer there when the
    result has been set to zero. *)
Inductive target := TOther | TLeft | TRight | TBoth.

Definition zero_dscale (t : target) (left right : bson_decimal) : Z :=
  Z.max (match t with TLeft | TBoth => 0 | _ => dc_dscale left end)
        (match t with TRight | TBoth => 0 | _ => dc_dscale right end).

(** The three cases of a difference of absolute values; [sign] is the sign of
    the result when the left one is greater. *)
Definition diff_abs (alloc : bool) (t : target) (left right result : bson_decimal) (sign : Z)
    : Z * bson_decimal :=
  match decimal_cmp_abs left right with
  | 0 => (0, set_dc_dscale (decimal_set_zero result) (zero_dscale t left right))
  | 1 =>
      let '(rc, d) := decimal_sub_abs alloc left right result in (rc, set_dc_sign d sign)
  | _ =>
      let '(rc, d) := decimal_sub_abs alloc right left result in
      (rc, set_dc_sign d (if sign =? SDB_DECIMAL_POS then SDB_DECIMAL_NEG else SDB_DECIMAL_POS))
  end.

Definition sum_abs (alloc : bool) (left right result : bson_decimal) (sign : Z)
    : Z * bson_decimal :=
  let '(rc, d) := decimal_add_abs alloc left right result in (rc, set_dc_sign d sign).

Definition decimal_sub_ (alloc : bool) (t : target) (left right result : bson_decimal)
    : Z * bson_decimal :=
  if dc_sign left =? SDB_DECIMAL_POS then
    if dc_sign right =? SDB_DECIMAL_NEG then sum_abs alloc left right result SDB_DECIMAL_POS
    else diff_abs alloc t left right result SDB_DECIMAL_POS
  else
    if dc_sign right =? SDB_DECIMAL_NEG then diff_abs alloc t left right result SDB_DECIMAL_NEG
    else sum_abs alloc left right result SDB_DECIMAL_NEG.

Definition decimal_add_ (alloc : bool) (t : target) (left right result : bson_decimal)
    : Z * bson_decimal :=
  if dc_sign left =? SDB_DECIMAL_POS then
    if dc_sign right =? SDB_DECIMAL_POS then sum_abs alloc left right result SDB_DECIMAL_POS
    else diff_abs alloc t left right result SDB_DECIMAL_POS
  else
    if dc_sign right =? SDB_DECIMAL_POS then diff_abs alloc t left right result SDB_DECIMAL_NEG
    else sum_abs alloc left right result SDB_DECIMAL_NEG.

Definition finish_arith (r : Z * bson_decimal) : Z * bson_decimal :=
  let '(rc, d) := r in
  if negb (rc =? 0) then (rc, d)
  else
    let d := decimal_strip d in
    if decimal_is_out_of_bound d then (-6, d) else (0, d).

Definition decimal_add (alloc : bool) (t : target) (left right result : bson_decimal)
    : Z * bson_decimal :=
  if decimal_is_special left || decimal_is_special right then (0, decimal_set_nan result)
  else finish_arith (decimal_add_ alloc t left right result).

Definition decimal_sub (alloc : bool) (t : target) (left right result : bson_decimal)
    : Z * bson_decimal :=
  if decimal_is_special left || decimal_is_special right then (0, decimal_set_nan result)
  else finish_arith (decimal_sub_ alloc t left right result).

(** ** Rounding *)

Definition round_powers (i : Z) : Z :=
  if i =? 1 then 1000 else if i =? 2 then 100 else if i =? 3 then 10 else 0.

(** Carrying 1 into cells, the least significant first: the cells and how many
    were used.  [None]: the carry leaves the buffer. *)
Fixpoint carry_into (cells : list Z) : option (list Z * nat) :=
  match cells with
  | [] => None
  | x :: cells =>
      let carry := 1 + x in
      if DECIMAL_NBASE <=? carry
      then '(cells, n) ← carry_into cells; Some (carry - DECIMAL_NBASE :: cells, S n)
      else Some (carry :: cells, 1%nat)
  end.

(** The digits that are kept, with a carry out of those after them: the last
    [spare] cells of the buffer in front are used when the carry goes through
    all digits. *)
Definition propagate (d : bson_decimal) (carry : bool) (before after : list Z)
    : option (Z * bson_decimal) :=
  if negb carry then Some (0, set_dc_digits d (dc_weight d) (dc_head d) (before ++ after))
  else
    '(cells, n) ← carry_into (rev (dc_head d ++ before));
    let cells := rev cells in
    let h := length (dc_head d) in
    if (n <=? length before)%nat
    then Some (0, set_dc_digits d (dc_weight d) (take h cells) (drop h cells ++ after))
    else if (n =? S (length before))%nat
    then Some (0, set_dc_digits d (dc_weight d + 1) (take (h - 1) cells) (drop (h - 1) cells ++ after))
    else Some (-10, set_dc_digits d (dc_weight d) (take h cells) (drop h cells ++ after)).

(** [None]: a cell outside the buffer is used. *)
Definition decimal_round (d : bson_decimal) (rscale : Z) : option (Z * bson_decimal) :=
  if negb (dc_isOwn d) then Some (-6, d)
  else
    let d := set_dc_dscale d rscale in
    let di := (dc_weight d + 1) * DECIMAL_DEC_DIGITS + rscale in
    if di <? 0
    then Some (0, set_dc_sign (set_dc_digits d 0 (dc_head d) []) SDB_DECIMAL_POS)
    else
      let ndigits := Z.quot (di + DECIMAL_DEC_DIGITS - 1) DECIMAL_DEC_DIGITS in
      let di := Z.rem di DECIMAL_DEC_DIGITS in
      if (ndigits <? dc_ndigits d) || ((ndigits =? dc_ndigits d) && (0 <? di)) then
        let n := Z.to_nat ndigits in
        if di =? 0 then
          propagate d (DECIMAL_HALF_NBASE <=? nth n (dc_digits d) 0) (take n (dc_digits d)) []
        else
          let pow10 := round_powers di in
          let last := nth (n - 1) (dc_digits d) 0 in
          let extra := Z.rem last pow10 in
          let last := last - extra in
          let before := take (n - 1) (dc_digits d) in
          if Z.quot pow10 2 <=? extra then
            let pow10 := pow10 + last in
            if DECIMAL_NBASE <=? pow10 then propagate d true before [pow10 - DECIMAL_NBASE]
            else propagate d false before [pow10]
          else propagate d false before [last]
      else Some (0, d).

Definition decimal_trunc (d : bson_decimal) (rscale : Z) : bson_decimal :=
  if negb (dc_isOwn d) then d
  else
    let d := set_dc_dscale d rscale in
    let di := (dc_weight d + 1) * DECIMAL_DEC_DIGITS + rscale in
    if di <=? 0 then set_dc_sign (set_dc_digits d 0 (dc_head d) []) SDB_DECIMAL_POS
    else
      let ndigits := Z.quot (di + DECIMAL_DEC_DIGITS - 1) DECIMAL_DEC_DIGITS in
      if ndigits <=? dc_ndigits d then
        let n := Z.to_nat ndigits in
        let di := Z.rem di DECIMAL_DEC_DIGITS in
        if 0 <? di then
          let last := nth (n - 1) (dc_digits d) 0 in
          set_dc_digits d (dc_weight d) (dc_head d)
            (take (n - 1) (dc_digits d) ++ [last - Z.rem last (round_powers di)])
        else set_dc_digits d (dc_weight d) (dc_head d) (take n (dc_digits d))
      else d.
