(* ===== verification/BsonDecimalOk.v ===== *)
(** * Decimals: values, comparison, addition and subtraction

    [scaled k d] is the value of [d] times [10000 ^ k], an integer once [k] is
    at least the number of digits after the point ([rscale d]). *)
From S2P Require Import Prelude.
From S2P Require Import BsonDecimal.
#[local] Open Scope Z_scope.

Abbreviation B := DECIMAL_NBASE.

(** ** Digit lists *)

Fixpoint dval (ds : list Z) : Z :=
  match ds with
  | [] => 0
  | x :: ds => x * B ^ Z.of_nat (length ds) + dval ds
  end.

Definition wf_digits (ds : list Z) : Prop := Forall (fun x => 0 <= x < B) ds.

#[global] Instance wf_digits_dec ds : Decision (wf_digits ds).
Proof. apply Forall_dec. intros x. apply _. Defined.

Lemma B_pow_pos n : 0 <= n -> 0 < B ^ n.
Proof. intros. apply Z.pow_pos_nonneg; unfold B, DECIMAL_NBASE; lia. Qed.

Lemma B_pow_succ n : 0 <= n -> B ^ (n + 1) = B * B ^ n.
Proof. intros. replace (n + 1) with (Z.succ n) by lia. by apply Z.pow_succ_r. Qed.

Lemma B_pow_le m n : 0 <= m <= n -> B ^ m <= B ^ n.
Proof. intros. apply Z.pow_le_mono_r; unfold B, DECIMAL_NBASE; lia. Qed.

Lemma dval_app a b : dval (a ++ b) = dval a * B ^ Z.of_nat (length b) + dval b.
Proof.
  induction a as [|x a IH]; simpl; [done|]. rewrite IH, length_app, Nat2Z.inj_add, Z.pow_add_r by lia.
  lia.
Qed.

Lemma dval_range ds : wf_digits ds -> 0 <= dval ds < B ^ Z.of_nat (length ds).
Proof.
  induction 1 as [|x ds Hx _ IH]; simpl; [unfold B; lia|].
  rewrite Nat2Z.inj_succ, <- Z.add_1_r, B_pow_succ by lia.
  pose proof (B_pow_pos (Z.of_nat (length ds)) ltac:(lia)). nia.
Qed.

Lemma dval_zeros n : dval (repeat 0 n) = 0.
Proof. induction n; simpl; [done|]. lia. Qed.

Lemma any_digit_spec ds : wf_digits ds -> if any_digit ds then 0 < dval ds else dval ds = 0.
Proof.
  induction 1 as [|x ds Hx Hds IH]; [done|]. cbn [any_digit existsb dval].
  change (existsb _ ds) with (any_digit ds).
  pose proof (B_pow_pos (Z.of_nat (length ds)) ltac:(lia)).
  pose proof (dval_range _ Hds). destruct (Z.eqb_spec x 0) as [->|]; simpl; [done|nia].
Qed.

(** ** Values *)

(** The digits [ds], the first of weight [w], times [B ^ k]. *)
Definition mg (k w : Z) (ds : list Z) : Z := dval ds * B ^ (k + w + 1 - Z.of_nat (length ds)).

Definition fits (k w : Z) (ds : list Z) : Prop := Z.of_nat (length ds) <= k + w + 1.

Definition mag (k : Z) (d : bson_decimal) : Z := mg k (dc_weight d) (dc_digits d).

Definition dsign (d : bson_decimal) : Z := if dc_sign d =? SDB_DECIMAL_NEG then -1 else 1.

Definition scaled (k : Z) (d : bson_decimal) : Z := dsign d * mag k d.

Lemma fits_rscale k d : rscale d <= k <-> fits k (dc_weight d) (dc_digits d).
Proof. unfold rscale, fits, dc_ndigits. lia. Qed.

Lemma mg_range k w ds :
  wf_digits ds -> fits k w ds -> 0 <= k + w + 1 /\ 0 <= mg k w ds < B ^ (k + w + 1).
Proof.
  unfold fits, mg. intros Hd Hf. split; [lia|]. pose proof (dval_range _ Hd).
  assert (B ^ (k + w + 1) =
    B ^ Z.of_nat (length ds) * B ^ (k + w + 1 - Z.of_nat (length ds))) as ->
    by (rewrite <- Z.pow_add_r by lia; f_equal; lia).
  pose proof (B_pow_pos (k + w + 1 - Z.of_nat (length ds)) ltac:(lia)). nia.
Qed.

Lemma mg_cons k w x ds :
  fits k w (x :: ds) -> mg k w (x :: ds) = x * B ^ (k + w) + mg k (w - 1) ds.
Proof.
  unfold fits, mg. simpl. intros. rewrite Z.mul_add_distr_r, <- Z.mul_assoc, <- Z.pow_add_r by lia.
  f_equal; [do 2 f_equal|f_equal; f_equal]; lia.
Qed.

Lemma fits_cons k w x ds : fits k w (x :: ds) -> fits k (w - 1) ds.
Proof. unfold fits. simpl. lia. Qed.

Lemma mg_nil k w : mg k w [] = 0.
Proof. done. Qed.

(** ** Stripping *)

Lemma strip_leading_spec ds : forall head w,
  exists z, ds = repeat 0 z ++ (strip_leading head ds w).1.2 /\
    (strip_leading head ds w).1.1 = head ++ repeat 0 z /\
    (strip_leading head ds w).2 = w - Z.of_nat z /\
    hd 1 (strip_leading head ds w).1.2 <> 0.
Proof.
  induction ds as [|x ds IH]; intros head w.
  { exists O. simpl. rewrite app_nil_r. split_and!; try done; lia. }
  destruct (Z.eq_dec x 0) as [->|Hx].
  - destruct (IH (head ++ [0]) (w - 1)) as (z & E1 & E2 & E3 & E4). exists (S z). simpl.
    rewrite <- E1, E2, E3. split_and!; [done| |lia|done]. by rewrite <- app_assoc.
  - exists O. destruct x; simpl; rewrite ?app_nil_r; split_and!; try done; lia.
Qed.

Lemma strip_trailing_spec ds :
  exists z, ds = strip_trailing ds ++ repeat 0 z /\ List.last (strip_trailing ds) 1 <> 0.
Proof.
  induction ds as [|x ds (z & E & Hl)]; [by exists O|]. simpl.
  destruct (strip_trailing ds) as [|y l] eqn:Es.
  - destruct (Z.eqb_spec x 0) as [->|Hx].
    + exists (S z). simpl. rewrite E at 1. done.
    + exists z. simpl. rewrite E at 1. done.
  - exists z. split; [by rewrite E at 1|done].
Qed.

Lemma strip_trailing_hd ds : hd 1 ds <> 0 -> hd 1 (strip_trailing ds) <> 0.
Proof.
  destruct ds as [|x ds]; simpl; [done|]. intros Hx. destruct (strip_trailing ds); [|done].
  destruct (Z.eqb_spec x 0); [done|]. done.
Qed.

(** No zero digit at either end; zero has its normal form. *)
Definition normal (d : bson_decimal) : Prop :=
  hd 1 (dc_digits d) <> 0 /\ List.last (dc_digits d) 1 <> 0 /\
  (dc_digits d = [] -> dc_sign d = SDB_DECIMAL_POS /\ dc_weight d = 0).

Lemma mg_zeros k w z ds :
  fits k w (repeat 0 z ++ ds) -> mg k w (repeat 0 z ++ ds) = mg k (w - Z.of_nat z) ds.
Proof.
  intros _. unfold mg. rewrite dval_app, dval_zeros, length_app, repeat_length. simpl.
  f_equal. f_equal. lia.
Qed.

Lemma mg_trailing k w z ds :
  fits k w (ds ++ repeat 0 z) -> mg k w (ds ++ repeat 0 z) = mg k w ds.
Proof.
  unfold fits, mg. rewrite dval_app, dval_zeros, length_app, repeat_length. intros.
  rewrite Z.add_0_r, <- Z.mul_assoc, <- Z.pow_add_r by lia. do 2 f_equal. lia.
Qed.

Lemma decimal_strip_ok k d :
  dc_isOwn d = true -> wf_digits (dc_digits d) -> rscale d <= k ->
  let d' := decimal_strip d in
  mag k d' = mag k d /\ (mag k d <> 0 -> dsign d' = dsign d) /\
  rscale d' <= Z.max k (-1) /\ normal d' /\ wf_digits (dc_digits d') /\
  dc_isOwn d' = true /\ dc_dscale d' = dc_dscale d /\ dc_typemod d' = dc_typemod d /\
  (dc_sign d' = dc_sign d \/ dc_digits d' = []).
Proof.
  intros Ho Hd Hk%fits_rscale d'. unfold d', decimal_strip. rewrite Ho. cbn [negb].
  destruct (strip_leading_spec (dc_digits d) (dc_head d) (dc_weight d)) as (z & E1 & _ & E3 & E4).
  destruct (strip_leading _ _ _) as [[head ds] w]. simpl in *. subst w.
  destruct (strip_trailing_spec ds) as (z' & E5 & E6). pose proof (strip_trailing_hd ds E4) as E7.
  assert (mag k d = mg k (dc_weight d - Z.of_nat z) (strip_trailing ds)) as Hm.
  { unfold mag. rewrite E1 in Hk |- *. rewrite mg_zeros by done. rewrite E5 at 1. apply mg_trailing.
    rewrite <- E5. unfold fits in *. rewrite length_app, repeat_length in Hk. lia. }
  assert (wf_digits (strip_trailing ds)) as Hwf.
  { rewrite E1, E5 in Hd. unfold wf_digits in *. apply Forall_app in Hd as [_ Hd].
    by apply Forall_app in Hd as [? _]. }
  assert (fits k (dc_weight d - Z.of_nat z) (strip_trailing ds)) as Hf.
  { rewrite E1, E5 in Hk. unfold fits in *. rewrite !length_app, !repeat_length in Hk. lia. }
  destruct (strip_trailing ds) as [|x l] eqn:Es.
  - unfold mag at 1. simpl. rewrite Hm. unfold rscale, dc_ndigits, normal. simpl.
    split_and!; try done; [lia|by right].
  - split_and!; try done; [|by left]. apply Z.max_le_iff. left. by apply fits_rscale.
Qed.

(** ** Comparison *)

Lemma skip_higher_none k o ds : forall w,
  wf_digits ds -> fits k w ds -> 0 <= k + o + 1 ->
  skip_higher w o ds = None -> B ^ (k + o + 1) <= mg k w ds.
Proof.
  induction ds as [|x ds IH]; intros w Hd Hf Hk; simpl; [done|].
  apply Forall_cons in Hd as [Hx Hd]. rewrite mg_cons by done.
  destruct (Z.ltb_spec o w) as [Ho|]; [|done]. pose proof (fits_cons _ _ _ _ Hf) as Hf'.
  destruct (mg_range k (w - 1) ds Hd Hf') as [_ Hr].
  destruct (Z.eqb_spec x 0) as [->|Hx0]; simpl.
  - intros H. specialize (IH (w - 1) Hd Hf' Hk H). lia.
  - intros _. pose proof (B_pow_le (k + o + 1) (k + w) ltac:(lia)).
    pose proof (B_pow_pos (k + w) ltac:(lia)). nia.
Qed.

Lemma skip_higher_some k o ds : forall w w' ds',
  wf_digits ds -> fits k w ds -> skip_higher w o ds = Some (w', ds') ->
  mg k w' ds' = mg k w ds /\ wf_digits ds' /\ fits k w' ds' /\ (ds' <> [] -> w' = Z.min w o).
Proof.
  induction ds as [|x ds IH]; intros w w' ds' Hd Hf; simpl.
  { by intros [= <- <-]. }
  destruct (Z.ltb_spec o w) as [Ho|Ho].
  - destruct (Z.eqb_spec x 0) as [->|]; simpl; [|done]. intros H.
    apply Forall_cons in Hd as [Hx Hd'].
    destruct (IH _ _ _ Hd' (fits_cons _ _ _ _ Hf) H) as (E1 & E2 & E3 & E4).
    rewrite mg_cons by done. split_and!; try done. intros Hn. rewrite E4 by done. lia.
  - intros [= <- <-]. split_and!; try done. lia.
Qed.

Lemma cmp_common_inl k l : forall r w s,
  wf_digits l -> wf_digits r -> fits k w l -> fits k w r -> cmp_common l r = inl s ->
  s = Z.sgn (mg k w l - mg k w r) /\ s <> 0.
Proof.
  induction l as [|x l IH]; intros r w s Hl Hr Hfl Hfr; simpl; [done|].
  destruct r as [|y r]; [done|]. apply Forall_cons in Hl as [Hx Hl], Hr as [Hy Hr].
  rewrite !mg_cons by done. pose proof (fits_cons _ _ _ _ Hfl) as Hfl'.
  pose proof (fits_cons _ _ _ _ Hfr) as Hfr'.
  destruct (mg_range k (w - 1) l Hl Hfl') as [Hk Rl], (mg_range k (w - 1) r Hr Hfr') as [_ Rr].
  replace (k + (w - 1) + 1) with (k + w) in * by lia.
  destruct (Z.eqb_spec (x - y) 0) as [E|E]; simpl.
  - intros H. replace y with x by lia. destruct (IH _ _ _ Hl Hr Hfl' Hfr' H) as [-> ?].
    split; [f_equal; lia|done].
  - intros [= <-]. pose proof (B_pow_pos (k + w) ltac:(lia)).
    destruct (Z.ltb_spec 0 (x - y)); (split; [|done]); symmetry;
      [apply Z.sgn_pos; nia|apply Z.sgn_neg; nia].
Qed.

Lemma cmp_common_inr k l : forall r w l' r',
  wf_digits l -> wf_digits r -> fits k w l -> fits k w r -> cmp_common l r = inr (l', r') ->
  exists w', mg k w l - mg k w r = mg k w' l' - mg k w' r' /\ wf_digits l' /\ wf_digits r' /\
    fits k w' l' /\ fits k w' r' /\ (l' = [] \/ r' = []).
Proof.
  induction l as [|x l IH]; intros r w l' r' Hl Hr Hfl Hfr; simpl.
  { intros [= <- <-]. exists w. split_and!; auto. }
  destruct r as [|y r]; [intros [= <- <-]; exists w; split_and!; auto|].
  destruct (Z.eqb_spec (x - y) 0) as [E|E]; simpl; [|done]. intros H.
  pose proof Hl as [Hx Hl']%Forall_cons. pose proof Hr as [Hy Hr']%Forall_cons.
  destruct (IH _ (w - 1) _ _ Hl' Hr' (fits_cons _ _ _ _ Hfl) (fits_cons _ _ _ _ Hfr) H)
    as (w' & E' & ?). exists w'. rewrite !mg_cons by done. split; [|done].
  replace y with x by lia. lia.
Qed.

(** What is left on one side decides. *)
Lemma rest_sgn k w l r :
  wf_digits l -> wf_digits r -> fits k w l -> fits k w r -> l = [] \/ r = [] ->
  (if any_digit l then 1 else if any_digit r then -1 else 0) = Z.sgn (mg k w l - mg k w r).
Proof.
  intros Hl Hr Hfl Hfr Hor. pose proof (any_digit_spec l Hl) as Al.
  pose proof (any_digit_spec r Hr) as Ar. unfold mg, fits in *.
  pose proof (B_pow_pos (k + w + 1 - Z.of_nat (length l)) ltac:(lia)).
  pose proof (B_pow_pos (k + w + 1 - Z.of_nat (length r)) ltac:(lia)).
  destruct Hor as [-> | ->]; simpl in *.
  - destruct (any_digit r); symmetry; [apply Z.sgn_neg; nia|]. by rewrite Ar.
  - destruct (any_digit l); symmetry; [apply Z.sgn_pos; nia|]. by rewrite Al.
Qed.

Lemma decimal_cmp_abs_ok k l r :
  wf_digits (dc_digits l) -> wf_digits (dc_digits r) -> rscale l <= k -> rscale r <= k ->
  decimal_cmp_abs l r = Z.sgn (mag k l - mag k r).
Proof.
  intros Hl Hr Hfl%fits_rscale Hfr%fits_rscale. unfold decimal_cmp_abs, mag.
  destruct (mg_range _ _ _ Hl Hfl) as [Kl Rl], (mg_range _ _ _ Hr Hfr) as [Kr Rr].
  destruct (skip_higher (dc_weight l) _ _) as [[w1 l']|] eqn:E1.
  2:{ symmetry. apply Z.sgn_pos. pose proof (skip_higher_none k _ _ _ Hl Hfl Kr E1). lia. }
  destruct (skip_higher_some k _ _ _ _ _ Hl Hfl E1) as (M1 & W1 & F1 & L1).
  destruct (mg_range _ _ _ W1 F1) as [K1 R1]. rewrite <- M1.
  destruct (skip_higher (dc_weight r) _ _) as [[w2 r']|] eqn:E2.
  2:{ symmetry. apply Z.sgn_neg. pose proof (skip_higher_none k _ _ _ Hr Hfr K1 E2). lia. }
  destruct (skip_higher_some k _ _ _ _ _ Hr Hfr E2) as (M2 & W2 & F2 & L2). rewrite <- M2.
  destruct (Z.eqb_spec w1 w2) as [<-|Hne].
  - destruct (cmp_common l' r') as [s|[l2 r2]] eqn:Ec.
    + by destruct (cmp_common_inl k _ _ _ _ W1 W2 F1 F2 Ec).
    + destruct (cmp_common_inr k _ _ _ _ _ W1 W2 F1 F2 Ec) as (w' & -> & ? & ? & ? & ? & ?).
      by apply rest_sgn.
  - assert (l' = [] \/ r' = []) as Hor.
    { destruct l' as [|x l']; [by left|]. destruct r' as [|y r']; [by right|]. exfalso.
      specialize (L1 ltac:(done)). specialize (L2 ltac:(done)). lia. }
    destruct Hor as [-> | ->].
    + rewrite (mg_nil k w1), <- (mg_nil k w2). apply rest_sgn; auto. unfold fits in *. simpl. lia.
    + rewrite (mg_nil k w2), <- (mg_nil k w1). apply rest_sgn; auto.
Qed.

(** Decimals as the library's functions leave them. *)
Definition finite (d : bson_decimal) : Prop :=
  (dc_sign d = SDB_DECIMAL_POS \/ dc_sign d = SDB_DECIMAL_NEG) /\ wf_digits (dc_digits d).

Definition special (d : bson_decimal) : Prop :=
  dc_sign d = SDB_DECIMAL_SPECIAL_SIGN /\ 0 <= dc_dscale d <= 2.

(** The order of BSON: the minimum, not-a-number, the numbers, the maximum. *)
Definition class_of (d : bson_decimal) : Z :=
  if decimal_is_min d then 0 else if decimal_is_nan d then 1
  else if decimal_is_max d then 3 else 2.

Lemma class_cases d :
  special d \/ finite d ->
  (special d /\ (class_of d = 0 /\ dc_dscale d = 1 \/ class_of d = 1 /\ dc_dscale d = 0 \/
                 class_of d = 3 /\ dc_dscale d = 2)) \/
  (finite d /\ class_of d = 2 /\ decimal_is_special d = false).
Proof.
  intros [[Hs Hr]|[Hs Hw]]; [left|right].
  - split; [done|]. unfold class_of, decimal_is_min, decimal_is_nan, decimal_is_max,
      decimal_is_special. rewrite Hs. simpl.
    assert (dc_dscale d = 0 \/ dc_dscale d = 1 \/ dc_dscale d = 2) as [-> |[-> | ->]] by lia;
      simpl; lia.
  - split_and!; try done.
    all: unfold class_of, decimal_is_min, decimal_is_nan, decimal_is_max, decimal_is_special;
      by destruct Hs as [-> | ->].
Qed.

(** A number that is not zero has digits, and they are not all zero. *)
Lemma leading_pos k d :
  wf_digits (dc_digits d) -> hd 1 (dc_digits d) <> 0 -> rscale d <= k -> dc_digits d <> [] -> 0 < mag k d.
Proof.
  intros Hw Hh Hk%fits_rscale Hn. unfold mag, mg, fits in *.
  destruct (dc_digits d) as [|x ds]; [done|]. simpl in *. apply Forall_cons in Hw as [Hx Hw].
  pose proof (dval_range _ Hw). pose proof (B_pow_pos (Z.of_nat (length ds)) ltac:(lia)).
  pose proof (B_pow_pos (k + dc_weight d + 1 - Z.of_nat (S (length ds))) ltac:(lia)).
  apply Z.mul_pos_pos; nia.
Qed.

Lemma normal_pos k d :
  wf_digits (dc_digits d) -> normal d -> rscale d <= k -> dc_digits d <> [] -> 0 < mag k d.
Proof. intros Hw (Hh & _). by apply leading_pos. Qed.

Lemma mag_nil k d : dc_digits d = [] -> mag k d = 0.
Proof. unfold mag, mg. by intros ->. Qed.

(** Where a number of value zero stands: one that is stored with digits, which
    are then all 0, is taken for its sign. *)
Definition zero_rank (d : bson_decimal) : Z :=
  match dc_digits d with
  | [] => 0
  | ds => if any_digit ds then 0 else dsign d
  end.

Lemma zero_rank_leading d : hd 1 (dc_digits d) <> 0 -> zero_rank d = 0.
Proof.
  intros H. unfold zero_rank. destruct (dc_digits d) as [|x ds]; [done|]. simpl in *.
  by destruct (Z.eqb_spec x 0).
Qed.

Lemma zero_rank_cases k d :
  finite d -> rscale d <= k ->
  dc_digits d = [] /\ mag k d = 0 /\ zero_rank d = 0 \/
  dc_digits d <> [] /\ (0 < mag k d /\ zero_rank d = 0 \/ mag k d = 0 /\ zero_rank d = dsign d).
Proof.
  intros [_ Hw] Hk%fits_rscale. unfold zero_rank, mag, mg, fits in *.
  pose proof (any_digit_spec _ Hw) as Ha. destruct (dc_digits d) as [|x ds]; [by left|right].
  split; [done|]. pose proof (B_pow_pos (k + dc_weight d + 1 - Z.of_nat (length (x :: ds))) ltac:(lia)).
  destruct (any_digit (x :: ds)); [left; split; [nia|done]|right; split; [|done]]. rewrite Ha. done.
Qed.

(** The order of two numbers that are not special, normal form or not. *)
Definition cmp_numbers (k : Z) (l r : bson_decimal) : Z :=
  let s := Z.sgn (scaled k l - scaled k r) in
  if s =? 0 then Z.sgn (zero_rank l - zero_rank r) else s.

Lemma cmp_numbers_lt k l r :
  scaled k l < scaled k r \/ scaled k l = scaled k r /\ zero_rank l < zero_rank r -> cmp_numbers k l r = -1.
Proof.
  unfold cmp_numbers. intros [H|[-> H]]; [by rewrite Z.sgn_neg by lia|].
  by rewrite Z.sub_diag, (Z.sgn_neg (zero_rank l - zero_rank r)) by lia.
Qed.

Lemma cmp_numbers_gt k l r :
  scaled k r < scaled k l \/ scaled k l = scaled k r /\ zero_rank r < zero_rank l -> cmp_numbers k l r = 1.
Proof.
  unfold cmp_numbers. intros [H|[-> H]]; [by rewrite Z.sgn_pos by lia|].
  by rewrite Z.sub_diag, (Z.sgn_pos (zero_rank l - zero_rank r)) by lia.
Qed.

Lemma cmp_numbers_ok k l r :
  finite l -> finite r -> rscale l <= k -> rscale r <= k -> decimal_cmp l r = cmp_numbers k l r.
Proof.
  intros Fl Fr Kl Kr. pose proof (zero_rank_cases k l Fl Kl) as Zl. pose proof (zero_rank_cases k r Fr Kr) as Zr.
  destruct Fl as [Sl Wl], Fr as [Sr Wr].
  pose proof (decimal_cmp_abs_ok k l r Wl Wr Kl Kr) as Cl.
  pose proof (decimal_cmp_abs_ok k r l Wr Wl Kr Kl) as Cr.
  unfold decimal_cmp, decimal_is_min, decimal_is_max, decimal_is_nan.
  assert (decimal_is_special l = false) as -> by (unfold decimal_is_special; by destruct Sl as [-> | ->]).
  assert (decimal_is_special r = false) as -> by (unfold decimal_is_special; by destruct Sr as [-> | ->]).
  cbn [andb]. unfold dsign in *.
  assert (scaled k l = (if dc_sign l =? SDB_DECIMAL_NEG then -1 else 1) * mag k l) as Vl by done.
  assert (scaled k r = (if dc_sign r =? SDB_DECIMAL_NEG then -1 else 1) * mag k r) as Vr by done.
  destruct (dc_digits l) as [|x l']; destruct (dc_digits r) as [|y r'];
    (destruct Zl as [(? & Ml & Rl)|[? Zl]]; try done); (destruct Zr as [(? & Mr & Rr)|[? Zr]]; try done).
  - unfold cmp_numbers. rewrite Vl, Vr, Ml, Mr, Rl, Rr, !Z.mul_0_r. done.
  - destruct Sr as [Sr|Sr]; rewrite Sr in *; symmetry; [apply cmp_numbers_lt|apply cmp_numbers_gt]; simpl in *; lia.
  - destruct Sl as [Sl|Sl]; rewrite Sl in *; symmetry; [apply cmp_numbers_gt|apply cmp_numbers_lt]; simpl in *; lia.
  - destruct Sl as [Sl|Sl], Sr as [Sr|Sr]; rewrite Sl, Sr in *; simpl in *.
    2: symmetry; apply cmp_numbers_gt; lia.
    2: symmetry; apply cmp_numbers_lt; lia.
    all: unfold cmp_numbers; rewrite Vl, Vr.
    + rewrite Cl. replace (1 * mag k l - 1 * mag k r) with (mag k l - mag k r) by lia.
      destruct (Z.eqb_spec (Z.sgn (mag k l - mag k r)) 0) as [E|]; [|done]. rewrite E.
      apply Z.sgn_null_iff in E. destruct Zl, Zr; symmetry; apply Z.sgn_null_iff; lia.
    + rewrite Cr. replace (-1 * mag k l - -1 * mag k r) with (mag k r - mag k l) by lia.
      destruct (Z.eqb_spec (Z.sgn (mag k r - mag k l)) 0) as [E|]; [|done]. rewrite E.
      apply Z.sgn_null_iff in E. destruct Zl, Zr; symmetry; apply Z.sgn_null_iff; lia.
Qed.

(** Zero digits at the end do not matter. *)
Lemma cmp_leading k l r :
  finite l -> finite r -> hd 1 (dc_digits l) <> 0 -> hd 1 (dc_digits r) <> 0 -> rscale l <= k -> rscale r <= k ->
  decimal_cmp l r = Z.sgn (scaled k l - scaled k r).
Proof.
  intros Fl Fr Nl Nr Kl Kr. rewrite (cmp_numbers_ok k) by done. unfold cmp_numbers.
  rewrite !zero_rank_leading by done. destruct (Z.eqb_spec (Z.sgn (scaled k l - scaled k r)) 0) as [->|]; done.
Qed.

(** C22: [decimal_cmp] is the comparison of the exact values, for numbers of any
    scale and length, in normal form or not, with one exception: a zero that is
    stored with digits, all of them 0, as rounding to a precision can leave one,
    is put above the zero without digits when its sign is plus and below it when
    its sign is minus ([zero_rank]; in normal form there is no such zero and the
    rank is 0).  The minimum is below everything, the maximum above everything,
    and not-a-number below every number. *)
Theorem decimal_cmp_exact k l r :
  special l \/ finite l -> special r \/ finite r -> rscale l <= k -> rscale r <= k ->
  decimal_cmp l r =
    (if class_of l =? class_of r
     then if class_of l =? 2
          then if scaled k l =? scaled k r then Z.sgn (zero_rank l - zero_rank r)
               else Z.sgn (scaled k l - scaled k r)
          else 0
     else Z.sgn (class_of l - class_of r)) /\
  (normal l -> zero_rank l = 0) /\ (finite l -> zero_rank l <> 0 -> scaled k l = 0).
Proof.
  intros Vl Vr Kl Kr. split.
  - destruct (class_cases l Vl) as [[[Sl _] Cl]|(Fl & Cl & Sl)];
      destruct (class_cases r Vr) as [[[Sr _] Cr]|(Fr & Cr & Sr)].
    4:{ rewrite Cl, Cr. simpl. rewrite (cmp_numbers_ok k) by done. unfold cmp_numbers.
        destruct (Z.eqb_spec (scaled k l) (scaled k r)) as [->|Hn]; [by rewrite Z.sub_diag|].
        destruct (Z.eqb_spec (Z.sgn (scaled k l - scaled k r)) 0) as [E%Z.sgn_null_iff|]; [lia|done]. }
    all: unfold decimal_cmp, decimal_is_min, decimal_is_max, decimal_is_nan.
    1: unfold decimal_is_special; rewrite Sl, Sr;
      destruct Cl as [[-> ->]|[[-> ->]|[-> ->]]], Cr as [[-> ->]|[[-> ->]|[-> ->]]]; done.
    + unfold decimal_is_special in *. rewrite Sl, Sr, Cr.
      by destruct Cl as [[-> ->]|[[-> ->]|[-> ->]]].
    + unfold decimal_is_special in *. rewrite Sl, Sr, Cl.
      by destruct Cr as [[-> ->]|[[-> ->]|[-> ->]]].
  - split; [intros (H & _); by apply zero_rank_leading|]. intros Fl Hz.
    destruct (zero_rank_cases k l Fl Kl) as [(_ & E & _)|[_ [[_ E]|[E _]]]]; [|done|];
      unfold scaled; rewrite E; apply Z.mul_0_r.
Qed.

(** -12.5 and 3.0625. *)
Definition dec_example1 : bson_decimal :=
  mkDec (-1) SDB_DECIMAL_NEG 1 0 true [0] [12; 5000].
Definition dec_example2 : bson_decimal :=
  mkDec (-1) SDB_DECIMAL_POS 4 0 true [0] [3; 625].

Lemma dec_examples_valid : (finite dec_example1 /\ normal dec_example1) /\
  (finite dec_example2 /\ normal dec_example2).
Proof.
  repeat split; simpl; try done; try (by left); try (by right);
    apply (bool_decide_unpack _); vm_compute; exact I.
Qed.

Lemma decimal_cmp_exact_witness :
  decimal_cmp dec_example1 dec_example2 = -1 /\ scaled 1 dec_example1 = -125000.
Proof.
  destruct dec_examples_valid as [[V1 _] [V2 _]]. split; [|reflexivity].
  rewrite (proj1 (decimal_cmp_exact 1 dec_example1 dec_example2 (or_intror V1) (or_intror V2)
    ltac:(discriminate) ltac:(discriminate))).
  vm_compute. reflexivity.
Defined.
