(* ===== verification/BsonDecimalAdd.v ===== *)
(** * Decimals: addition and subtraction are exact *)
From S2P Require Import Prelude.
From S2P Require Import BsonDecimal.
From S2P Require Import BsonDecimalOk.
#[local] Open Scope Z_scope.

(** ** The digits the loops see *)

(** The sum of the [n] digits below index [top], as the loops visit them. *)
Fixpoint window (ds : list Z) (top : Z) (n : nat) : Z :=
  match n with
  | O => 0
  | S n => digit_at ds (top - 1) + B * window ds (top - 1) n
  end.

Lemma digit_at_cons x ds i :
  digit_at (x :: ds) i = (if i =? 0 then x else 0) + digit_at ds (i - 1).
Proof.
  unfold digit_at. simpl.
  destruct (Z.leb_spec 0 i), (Z.ltb_spec i (Z.of_nat (S (length ds)))), (Z.leb_spec 0 (i - 1)),
    (Z.ltb_spec (i - 1) (Z.of_nat (length ds))), (Z.eqb_spec i 0); simpl; try lia.
  all: try (subst i; simpl; lia).
  replace (Z.to_nat i) with (S (Z.to_nat (i - 1))) by lia. done.
Qed.

Lemma digit_at_range ds i : wf_digits ds -> 0 <= digit_at ds i < B.
Proof.
  intros H. unfold digit_at.
  destruct (Z.leb_spec 0 i), (Z.ltb_spec i (Z.of_nat (length ds))); simpl;
    try (unfold B, DECIMAL_NBASE; lia).
  eapply Forall_forall in H; [exact H|]. apply list_elem_of_In, nth_In. lia.
Qed.

Lemma window_nil top n : window [] top n = 0.
Proof.
  revert top. induction n as [|n IH]; intros top; simpl; [done|]. rewrite IH.
  unfold digit_at. simpl.
  destruct (Z.leb_spec 0 (top - 1)), (Z.ltb_spec (top - 1) (Z.of_nat 0)); simpl; lia.
Qed.

Lemma window_cons x ds n : forall top,
  window (x :: ds) top n =
  (if (1 <=? top) && (top <=? Z.of_nat n) then x * B ^ (top - 1) else 0) + window ds (top - 1) n.
Proof.
  induction n as [|n IH]; intros top.
  { simpl. destruct (Z.leb_spec 1 top), (Z.leb_spec top (Z.of_nat 0)); simpl; lia. }
  cbn [window]. rewrite IH, digit_at_cons.
  replace (top - 1 - 1) with (top - 2) by lia.
  destruct (Z.eqb_spec (top - 1) 0) as [E|E].
  - replace top with 1 by lia. simpl. destruct (Z.leb_spec 1 (Z.of_nat (S n))); simpl; lia.
  - assert (2 <= top -> B ^ (top - 1) = B * B ^ (top - 2)) as Hp
      by (intros; rewrite <- B_pow_succ by lia; f_equal; lia).
    destruct (Z.leb_spec 1 (top - 1)), (Z.leb_spec (top - 1) (Z.of_nat n)),
      (Z.leb_spec 1 top), (Z.leb_spec top (Z.of_nat (S n))); simpl; try lia.
Qed.

(** Within the [n] digits the loop computes, that is the whole number. *)
Lemma window_value ds n : forall top,
  wf_digits ds -> Z.of_nat (length ds) <= top ->
  dval ds * B ^ (top - Z.of_nat (length ds)) < B ^ Z.of_nat n ->
  window ds top n = dval ds * B ^ (top - Z.of_nat (length ds)).
Proof.
  induction ds as [|x ds IH]; intros top Hd Ht Hlt; [by rewrite window_nil|].
  apply Forall_cons in Hd as [Hx Hd]. rewrite window_cons. simpl in *.
  assert (forall y, y * B ^ Z.of_nat (length ds) * B ^ (top - Z.of_nat (S (length ds))) =
    y * B ^ (top - 1)) as Hy.
  { intros y. rewrite <- Z.mul_assoc, <- Z.pow_add_r by lia. do 2 f_equal. lia. }
  rewrite Z.mul_add_distr_r, Hy in *.
  replace (top - Z.of_nat (S (length ds))) with (top - 1 - Z.of_nat (length ds)) in * by lia.
  pose proof (dval_range _ Hd).
  pose proof (B_pow_pos (top - 1 - Z.of_nat (length ds)) ltac:(lia)).
  pose proof (B_pow_pos (top - 1) ltac:(lia)).
  rewrite IH by (try done; try lia; nia).
  destruct (Z.leb_spec 1 top); [|lia]. destruct (Z.leb_spec top (Z.of_nat n)) as [|Hgt]; [done|].
  assert (x = 0) as ->; [|done].
  pose proof (B_pow_le (Z.of_nat n) (top - 1) ltac:(lia)). nia.
Qed.

(** ** The loops *)

Lemma add_loop_ok n : forall l r i1 i2 carry acc ds c,
  wf_digits l -> wf_digits r -> wf_digits acc -> 0 <= carry <= 1 ->
  add_loop n l r i1 i2 carry acc = (ds, c) ->
  wf_digits ds /\ length ds = (n + length acc)%nat /\ 0 <= c <= 1 /\
  dval ds + c * B ^ Z.of_nat (length ds) =
    dval acc + (carry + window l i1 n + window r i2 n) * B ^ Z.of_nat (length acc).
Proof.
  induction n as [|n IH]; intros l r i1 i2 carry acc ds c Hl Hr Ha Hc; simpl.
  { intros [= <- <-]. split_and!; try done; lia. }
  pose proof (digit_at_range l (i1 - 1) Hl). pose proof (digit_at_range r (i2 - 1) Hr).
  assert (forall x c', 0 <= x < B -> 0 <= c' <= 1 ->
    x + c' * B = carry + digit_at l (i1 - 1) + digit_at r (i2 - 1) ->
    add_loop n l r (i1 - 1) (i2 - 1) c' (x :: acc) = (ds, c) ->
    wf_digits ds /\ length ds = S (n + length acc) /\ 0 <= c <= 1 /\
    dval ds + c * B ^ Z.of_nat (length ds) =
    dval acc + (carry + (digit_at l (i1 - 1) + B * window l (i1 - 1) n) +
      (digit_at r (i2 - 1) + B * window r (i2 - 1) n)) * B ^ Z.of_nat (length acc)) as Hgo.
  { intros x c' Hx Hc' E Hrun.
    destruct (IH _ _ _ _ _ _ _ _ Hl Hr (Forall_cons_2 _ _ _ Hx Ha) Hc' Hrun) as (W & L & C & E').
    simpl in L, E'. split_and!; try done; try lia. rewrite E', Nat2Z.inj_succ, <- Z.add_1_r, B_pow_succ by lia.
    nia. }
  destruct (Z.leb_spec B (carry + digit_at l (i1 - 1) + digit_at r (i2 - 1))); apply Hgo; lia.
Qed.

Lemma sub_loop_ok n : forall l r i1 i2 borrow acc ds c,
  wf_digits l -> wf_digits r -> wf_digits acc -> -1 <= borrow <= 0 ->
  sub_loop n l r i1 i2 borrow acc = (ds, c) ->
  wf_digits ds /\ length ds = (n + length acc)%nat /\ -1 <= c <= 0 /\
  dval ds + c * B ^ Z.of_nat (length ds) =
    dval acc + (borrow + window l i1 n - window r i2 n) * B ^ Z.of_nat (length acc).
Proof.
  induction n as [|n IH]; intros l r i1 i2 borrow acc ds c Hl Hr Ha Hc; simpl.
  { intros [= <- <-]. split_and!; try done; lia. }
  pose proof (digit_at_range l (i1 - 1) Hl). pose proof (digit_at_range r (i2 - 1) Hr).
  assert (forall x c', 0 <= x < B -> -1 <= c' <= 0 ->
    x + c' * B = borrow + digit_at l (i1 - 1) - digit_at r (i2 - 1) ->
    sub_loop n l r (i1 - 1) (i2 - 1) c' (x :: acc) = (ds, c) ->
    wf_digits ds /\ length ds = S (n + length acc) /\ -1 <= c <= 0 /\
    dval ds + c * B ^ Z.of_nat (length ds) =
    dval acc + (borrow + (digit_at l (i1 - 1) + B * window l (i1 - 1) n) -
      (digit_at r (i2 - 1) + B * window r (i2 - 1) n)) * B ^ Z.of_nat (length acc)) as Hgo.
  { intros x c' Hx Hc' E Hrun.
    destruct (IH _ _ _ _ _ _ _ _ Hl Hr (Forall_cons_2 _ _ _ Hx Ha) Hc' Hrun) as (W & L & C & E').
    simpl in L, E'. split_and!; try done; try lia. rewrite E', Nat2Z.inj_succ, <- Z.add_1_r, B_pow_succ by lia.
    nia. }
  destruct (Z.ltb_spec (borrow + digit_at l (i1 - 1) - digit_at r (i2 - 1)) 0); apply Hgo; lia.
Qed.

(** ** Absolute values *)

Lemma mag_scale j k d : rscale d <= j -> j <= k -> mag k d = mag j d * B ^ (k - j).
Proof.
  intros Hj%fits_rscale Hk. unfold mag, mg, fits in *.
  rewrite <- Z.mul_assoc, <- Z.pow_add_r by lia. do 2 f_equal. lia.
Qed.

(** What the two functions return: a number with the given absolute value. *)
Definition abs_ok (d : bson_decimal) (dscale k v : Z) : Prop :=
  mag k d = v /\ dsign d = 1 /\ rscale d <= Z.max k (-1) /\ normal d /\
  wf_digits (dc_digits d) /\ dc_isOwn d = true /\ dc_dscale d = dscale /\ dc_typemod d = -1 /\
  dc_sign d = SDB_DECIMAL_POS.

Lemma abs_result_ok j k dscale w ds v :
  wf_digits ds -> j <= k -> Z.of_nat (length ds) = j + w + 1 -> dval ds = v ->
  abs_ok (abs_result dscale w ds) dscale k (v * B ^ (k - j)).
Proof.
  intros Hd Hjk Hl <-. set (d := mkDec (-1) SDB_DECIMAL_POS dscale w true [0] ds).
  assert (rscale d = j) as Hj by (unfold rscale, dc_ndigits; simpl; lia).
  destruct (decimal_strip_ok k d eq_refl Hd ltac:(lia))
    as (E1 & E2 & E3 & E4 & E5 & E6 & E7 & E8 & E9).
  unfold abs_ok. change (abs_result dscale w ds) with (decimal_strip d). rewrite E1.
  assert (dc_sign (decimal_strip d) = SDB_DECIMAL_POS) as Hs.
  { destruct E9 as [E9|E9]; [exact E9|]. by apply E4. }
  split_and!; try done.
  - unfold mag, mg. simpl. f_equal. f_equal. lia.
  - unfold dsign. by rewrite Hs.
Qed.

Section abs.
Context (l r : bson_decimal).
Context (Hl : wf_digits (dc_digits l)) (Hr : wf_digits (dc_digits r)).

Abbreviation RS := (Z.max (rscale l) (rscale r)).

Lemma window_mag d n :
  wf_digits (dc_digits d) -> rscale d <= RS -> mag RS d < B ^ Z.of_nat n ->
  window (dc_digits d) (RS + dc_weight d + 1) n = mag RS d.
Proof. intros Hd Hk%fits_rscale Hlt. unfold mag, mg, fits in *. by apply window_value. Qed.

Lemma add_abs_ok res k :
  RS <= k ->
  exists d, decimal_add_abs true l r res = (0, d) /\
    abs_ok d (Z.max (dc_dscale l) (dc_dscale r)) k (mag k l + mag k r).
Proof.
  intros Hk. unfold decimal_add_abs. cbn [negb].
  set (W := Z.max (dc_weight l) (dc_weight r) + 1).
  assert (clamp_ndigits (RS + W + 1) = RS + W + 1 /\ 1 <= RS + W + 1) as [-> Hn].
  { unfold clamp_ndigits. assert (1 <= RS + W + 1) by (unfold W, rscale, dc_ndigits; lia).
    destruct (Z.leb_spec (RS + W + 1) 0); lia. }
  destruct (mg_range RS _ _ Hl (proj1 (fits_rscale RS l) ltac:(lia))) as [K1 R1].
  destruct (mg_range RS _ _ Hr (proj1 (fits_rscale RS r) ltac:(lia))) as [K2 R2].
  fold (mag RS l) in R1. fold (mag RS r) in R2.
  pose proof (B_pow_le (RS + dc_weight l + 1) (RS + W) ltac:(unfold W; lia)) as P1.
  pose proof (B_pow_le (RS + dc_weight r + 1) (RS + W) ltac:(unfold W; lia)) as P2.
  assert (B ^ (RS + W + 1) = B * B ^ (RS + W)) as P3 by (apply B_pow_succ; lia).
  destruct (add_loop _ _ _ _ _ _ _) as [ds c] eqn:E.
  apply add_loop_ok in E as (Wd & L & C & V); try done; [|constructor].
  simpl in V. rewrite Nat.add_0_r in L. rewrite L, Z2Nat.id in V by lia.
  assert (2 * B ^ (RS + W) <= B ^ (RS + W + 1)) as P4
    by (rewrite P3; unfold B, DECIMAL_NBASE in *; lia).
  rewrite !window_mag in V by (rewrite ?Z2Nat.id by lia; (done || lia)).
  pose proof (dval_range _ Wd) as Rd. rewrite L, Z2Nat.id in Rd by lia.
  assert (c = 0) as -> by (assert (c = 0 \/ c = 1) as [-> | ->] by lia; lia).
  cbn [negb Z.eqb]. eexists. split; [done|].
  rewrite (mag_scale RS k l), (mag_scale RS k r), <- Z.mul_add_distr_r by lia.
  apply abs_result_ok; try done; lia.
Qed.

Lemma sub_abs_ok res k :
  RS <= k -> mag RS r < mag RS l ->
  exists d, decimal_sub_abs true l r res = (0, d) /\
    abs_ok d (Z.max (dc_dscale l) (dc_dscale r)) k (mag k l - mag k r).
Proof.
  intros Hk Hle. unfold decimal_sub_abs. cbn [negb].
  destruct (mg_range RS _ _ Hl (proj1 (fits_rscale RS l) ltac:(lia))) as [K1 R1].
  destruct (mg_range RS _ _ Hr (proj1 (fits_rscale RS r) ltac:(lia))) as [K2 R2].
  fold (mag RS l) in R1. fold (mag RS r) in R2.
  assert (0 < RS + dc_weight l + 1) as Hpos.
  { destruct (decide (RS + dc_weight l + 1 = 0)) as [Hz|]; [|lia]. rewrite Hz in R1. simpl in R1. lia. }
  assert (clamp_ndigits (RS + dc_weight l + 1) = RS + dc_weight l + 1) as ->
    by (unfold clamp_ndigits; destruct (Z.leb_spec (RS + dc_weight l + 1) 0); lia).
  destruct (sub_loop _ _ _ _ _ _ _) as [ds c] eqn:E.
  apply sub_loop_ok in E as (Wd & L & C & V); try done; [|constructor].
  simpl in V. rewrite Nat.add_0_r in L. rewrite L, Z2Nat.id in V by lia.
  rewrite !window_mag in V by (rewrite ?Z2Nat.id by lia; (done || lia)).
  pose proof (dval_range _ Wd) as Rd. rewrite L, Z2Nat.id in Rd by lia.
  assert (c = 0) as -> by (assert (c = 0 \/ c = -1) as [-> | ->] by lia; lia). cbn [negb Z.eqb]. eexists. split; [done|].
  rewrite (mag_scale RS k l), (mag_scale RS k r), <- Z.mul_sub_distr_r by lia.
  apply abs_result_ok; try done; lia.
Qed.

End abs.

(** ** Signed numbers *)

(** The result of an operation before the final strip: it has the value [v],
    and the sign may not be normal yet. *)
Definition signed_ok (r : Z * bson_decimal) (k v : Z) : Prop :=
  r.1 = 0 /\ scaled k r.2 = v /\ finite r.2 /\ rscale r.2 <= k /\
  (dc_isOwn r.2 = true \/ (dc_digits r.2 = [] /\ dc_sign r.2 = SDB_DECIMAL_POS /\ dc_weight r.2 = 0)).

Lemma set_sign_ok d dscale k v sign s :
  0 <= k -> abs_ok d dscale k v -> (sign = SDB_DECIMAL_POS /\ s = 1 \/ sign = SDB_DECIMAL_NEG /\ s = -1) ->
  signed_ok (0, set_dc_sign d sign) k (s * v) /\ dc_dscale (set_dc_sign d sign) = dscale.
Proof.
  intros Hk (Hm & _ & Hr & _ & Hw & Ho & Hd & _) Hs. unfold signed_ok, finite, scaled, dsign.
  simpl. change (mag k (set_dc_sign d sign)) with (mag k d).
  change (rscale (set_dc_sign d sign)) with (rscale d). rewrite Hm.
  destruct Hs as [[-> ->]|[-> ->]]; split_and!; auto; lia.
Qed.

Section signed.
Context (l r res : bson_decimal) (t : target) (k : Z).
Context (Hl : wf_digits (dc_digits l)) (Hr : wf_digits (dc_digits r)).
Context (Kl : rscale l <= k) (Kr : rscale r <= k) (Hk : 0 <= k).

(** The display scale of the result: the greater one, unless the absolute
    values were subtracted ([same]) and are equal. *)
Definition dscale_ok (same : bool) (d : bson_decimal) : Prop :=
  dc_dscale d = if same && (mag k l =? mag k r) then zero_dscale t l r
                else Z.max (dc_dscale l) (dc_dscale r).

Lemma dscale_ok_range same d :
  dscale_ok same d -> 0 <= dc_dscale l -> 0 <= dc_dscale r ->
  0 <= dc_dscale d <= Z.max (dc_dscale l) (dc_dscale r).
Proof.
  unfold dscale_ok, zero_dscale. intros ->. destruct (same && _); [|lia]. destruct t; lia.
Qed.

Lemma dscale_ok_ne d :
  mag k l <> mag k r -> dc_dscale d = Z.max (dc_dscale l) (dc_dscale r) -> dscale_ok true d.
Proof. intros Hn E. unfold dscale_ok. apply Z.eqb_neq in Hn. by rewrite Hn. Qed.

Lemma sum_abs_ok sign s :
  sign = SDB_DECIMAL_POS /\ s = 1 \/ sign = SDB_DECIMAL_NEG /\ s = -1 ->
  signed_ok (sum_abs true l r res sign) k (s * (mag k l + mag k r)) /\
  dscale_ok false (sum_abs true l r res sign).2.
Proof.
  intros Hs. unfold sum_abs. destruct (add_abs_ok l r Hl Hr res k ltac:(lia)) as (d & -> & Ha).
  destruct (set_sign_ok _ _ _ _ _ _ Hk Ha Hs) as [? E]. split; [done|]. exact E.
Qed.

Lemma mag_RS_lt a b :
  rscale a <= k -> rscale b <= k ->
  mag k a < mag k b -> mag (Z.max (rscale b) (rscale a)) a < mag (Z.max (rscale b) (rscale a)) b.
Proof.
  intros Ha Hb. rewrite (mag_scale (Z.max (rscale b) (rscale a)) k a),
    (mag_scale (Z.max (rscale b) (rscale a)) k b) by lia.
  intros Hlt. pose proof (B_pow_pos (k - Z.max (rscale b) (rscale a)) ltac:(lia)). nia.
Qed.

Lemma diff_abs_ok sign s :
  sign = SDB_DECIMAL_POS /\ s = 1 \/ sign = SDB_DECIMAL_NEG /\ s = -1 ->
  signed_ok (diff_abs true t l r res sign) k (s * (mag k l - mag k r)) /\
  dscale_ok true (diff_abs true t l r res sign).2.
Proof.
  intros Hs. unfold diff_abs. rewrite (decimal_cmp_abs_ok k) by done.
  destruct (Z.lt_trichotomy (mag k l) (mag k r)) as [Hlt|[Heq|Hgt]].
  - rewrite Z.sgn_neg by lia.
    destruct (sub_abs_ok r l Hr Hl res k ltac:(lia) (mag_RS_lt l r Kl Kr Hlt)) as (d & -> & Ha).
    destruct (set_sign_ok d _ k _ (if sign =? SDB_DECIMAL_POS then SDB_DECIMAL_NEG else SDB_DECIMAL_POS)
      (- s) Hk Ha) as [Hok E].
    { destruct Hs as [[-> ->]|[-> ->]]; simpl; auto. }
    split; [|apply dscale_ok_ne; [lia|rewrite Z.max_comm; exact E]].
    replace (s * (mag k l - mag k r)) with (- s * (mag k r - mag k l)) by lia. exact Hok.
  - rewrite Heq, Z.sub_diag, Z.mul_0_r. simpl. split.
    + unfold signed_ok, finite, scaled, dsign, rscale, dc_ndigits, mag, mg. simpl.
      split_and!; auto; [constructor|lia].
    + unfold dscale_ok. by rewrite Heq, Z.eqb_refl.
  - rewrite Z.sgn_pos by lia.
    destruct (sub_abs_ok l r Hl Hr res k ltac:(lia)) as (d & -> & Ha).
    { apply mag_RS_lt; [done|done|lia]. }
    destruct (set_sign_ok _ _ _ _ _ _ Hk Ha Hs) as [Hok E]. split; [exact Hok|].
    apply dscale_ok_ne; [lia|exact E].
Qed.

End signed.

Lemma signed_dsign k d : finite d -> scaled k d = (if dc_sign d =? SDB_DECIMAL_POS then 1 else -1) * mag k d.
Proof. intros [[Hs|Hs] _]; unfold scaled, dsign; by rewrite Hs. Qed.

(** The final strip. *)
Lemma finish_arith_ok rd k v :
  0 <= k -> signed_ok rd k v ->
  let d := (finish_arith rd).2 in
  (finish_arith rd).1 = (if decimal_is_out_of_bound d then -6 else 0) /\
  scaled k d = v /\ finite d /\ normal d /\ dc_dscale d = dc_dscale rd.2 /\ rscale d <= k.
Proof.
  destruct rd as [rc d0]. intros Hk Hok. unfold signed_ok in Hok. simpl in Hok.
  destruct Hok as (-> & Hv & [Hs Hw] & Hr & Hown).
  unfold finish_arith. cbn [negb Z.eqb].
  set (d := decimal_strip d0).
  assert (scaled k d = v /\ finite d /\ normal d /\ dc_dscale d = dc_dscale d0 /\ rscale d <= k)
    as (E1 & E2 & E3 & E4 & E5).
  { destruct (dc_isOwn d0) eqn:Ho.
    - destruct (decimal_strip_ok k d0 Ho Hw Hr) as (M1 & M2 & M3 & M4 & M5 & M6 & M7 & M8 & M9).
      fold d in M1, M2, M3, M4, M5, M6, M7, M8, M9. split_and!; try done; [| |lia].
      + rewrite <- Hv. unfold scaled. rewrite M1.
        destruct (decide (mag k d0 = 0)) as [->|Hn]; [lia|]. by rewrite M2.
      + split; [|done]. destruct M9 as [->|M9]; [done|]. left. by apply M4.
    - destruct Hown as [|(Hd & Hp & Hz)]; [done|].
      unfold d, decimal_strip. rewrite Ho. cbn [negb]. split_and!; try done.
      unfold normal. rewrite Hd. done. }
  destruct (decimal_is_out_of_bound d) eqn:Eb; simpl; rewrite ?Eb; split_and!; done.
Qed.

Lemma add_signed l r res t k :
  finite l -> finite r -> rscale l <= k -> rscale r <= k -> 0 <= k ->
  signed_ok (decimal_add_ true t l r res) k (scaled k l + scaled k r) /\
  dscale_ok l r t k (negb (dc_sign l =? dc_sign r)) (decimal_add_ true t l r res).2.
Proof.
  intros Fl Fr Kl Kr Hk. rewrite !signed_dsign by done. destruct Fl as [Sl Wl], Fr as [Sr Wr].
  pose proof (sum_abs_ok l r res t k Wl Wr Kl Kr Hk) as Hsum.
  pose proof (diff_abs_ok l r res t k Wl Wr Kl Kr Hk) as Hdiff. unfold decimal_add_.
  destruct Sl as [-> | ->], Sr as [-> | ->]; simpl.
  - destruct (Hsum SDB_DECIMAL_POS 1) as [H ?]; [by left|]. split; [|done].
    by replace (1 * mag k l + 1 * mag k r) with (1 * (mag k l + mag k r)) by lia.
  - destruct (Hdiff SDB_DECIMAL_POS 1) as [H ?]; [by left|]. split; [|done].
    by replace (1 * mag k l + -1 * mag k r) with (1 * (mag k l - mag k r)) by lia.
  - destruct (Hdiff SDB_DECIMAL_NEG (-1)) as [H ?]; [by right|]. split; [|done].
    by replace (-1 * mag k l + 1 * mag k r) with (-1 * (mag k l - mag k r)) by lia.
  - destruct (Hsum SDB_DECIMAL_NEG (-1)) as [H ?]; [by right|]. split; [|done].
    by replace (-1 * mag k l + -1 * mag k r) with (-1 * (mag k l + mag k r)) by lia.
Qed.

Lemma sub_signed l r res t k :
  finite l -> finite r -> rscale l <= k -> rscale r <= k -> 0 <= k ->
  signed_ok (decimal_sub_ true t l r res) k (scaled k l - scaled k r) /\
  dscale_ok l r t k (dc_sign l =? dc_sign r) (decimal_sub_ true t l r res).2.
Proof.
  intros Fl Fr Kl Kr Hk. rewrite !signed_dsign by done. destruct Fl as [Sl Wl], Fr as [Sr Wr].
  pose proof (sum_abs_ok l r res t k Wl Wr Kl Kr Hk) as Hsum.
  pose proof (diff_abs_ok l r res t k Wl Wr Kl Kr Hk) as Hdiff. unfold decimal_sub_.
  destruct Sl as [-> | ->], Sr as [-> | ->]; simpl.
  - destruct (Hdiff SDB_DECIMAL_POS 1) as [H ?]; [by left|]. split; [|done].
    by replace (1 * mag k l - 1 * mag k r) with (1 * (mag k l - mag k r)) by lia.
  - destruct (Hsum SDB_DECIMAL_POS 1) as [H ?]; [by left|]. split; [|done].
    by replace (1 * mag k l - -1 * mag k r) with (1 * (mag k l + mag k r)) by lia.
  - destruct (Hsum SDB_DECIMAL_NEG (-1)) as [H ?]; [by right|]. split; [|done].
    by replace (-1 * mag k l - 1 * mag k r) with (-1 * (mag k l + mag k r)) by lia.
  - destruct (Hdiff SDB_DECIMAL_NEG (-1)) as [H ?]; [by right|]. split; [|done].
    by replace (-1 * mag k l - -1 * mag k r) with (-1 * (mag k l - mag k r)) by lia.
Qed.

Lemma finite_not_special d : finite d -> decimal_is_special d = false.
Proof. intros [[Hs|Hs] _]; unfold decimal_is_special; by rewrite Hs. Qed.

(** Without memory: a difference of equal absolute values needs none, and
    anything else fails, with only the sign of the result written. *)
Definition no_memory (same : bool) (k : Z) (l r res : bson_decimal) (full got : Z * bson_decimal) : Prop :=
  if same && (mag k l =? mag k r) then got = full
  else got.1 = -2 /\ exists sign, got.2 = set_dc_sign res sign.

Lemma diff_abs_no_memory t l r res sign k :
  wf_digits (dc_digits l) -> wf_digits (dc_digits r) -> rscale l <= k -> rscale r <= k ->
  no_memory true k l r res (finish_arith (diff_abs true t l r res sign))
    (finish_arith (diff_abs false t l r res sign)).
Proof.
  intros Hl Hr Kl Kr. unfold no_memory, diff_abs. rewrite (decimal_cmp_abs_ok k) by done.
  destruct (Z.eqb_spec (mag k l) (mag k r)) as [->|Hn]; [by rewrite Z.sub_diag|]. cbn [andb].
  destruct (Z.lt_total (mag k l) (mag k r)) as [H|[H|H]]; [rewrite Z.sgn_neg by lia|done|rewrite Z.sgn_pos by lia];
    (split; [done|by eexists]).
Qed.

Lemma add_sub_no_memory t l r res k :
  finite l -> finite r -> rscale l <= k -> rscale r <= k ->
  no_memory (negb (dc_sign l =? dc_sign r)) k l r res
    (finish_arith (decimal_add_ true t l r res)) (finish_arith (decimal_add_ false t l r res)) /\
  no_memory (dc_sign l =? dc_sign r) k l r res
    (finish_arith (decimal_sub_ true t l r res)) (finish_arith (decimal_sub_ false t l r res)).
Proof.
  intros [Sl Wl] [Sr Wr] Kl Kr. pose proof (diff_abs_no_memory t l r res) as H.
  unfold decimal_add_, decimal_sub_.
  destruct Sl as [-> | ->], Sr as [-> | ->]; simpl; split;
    (by apply H) || (split; [done|by eexists]).
Qed.

(** C17: addition and subtraction are exact.  Whatever the signs, lengths and
    scales of two numbers, and whether the result is stored elsewhere or over
    one operand or both: when memory can be had, the result has the value of
    their sum or difference and is in normal form, and the return code is an
    error just when the result is out of the bounds of a decimal.  Its display
    scale is the greater of the two, save that a difference of equal absolute
    values stored over an operand has lost that operand's ([zero_dscale]).
    When no memory can be had, such a difference, which needs none, comes out
    the same, and anything else fails with -2 and has written only the sign of
    the result. *)
Theorem decimal_add_sub_exact t l r res k :
  finite l -> finite r -> rscale l <= k -> rscale r <= k -> 0 <= k ->
  (let '(rc, d) := decimal_add true t l r res in
   rc = (if decimal_is_out_of_bound d then -6 else 0) /\
   scaled k d = scaled k l + scaled k r /\ finite d /\ normal d /\
   dc_dscale d = if negb (dc_sign l =? dc_sign r) && (mag k l =? mag k r)
                 then zero_dscale t l r else Z.max (dc_dscale l) (dc_dscale r)) /\
  (let '(rc, d) := decimal_sub true t l r res in
   rc = (if decimal_is_out_of_bound d then -6 else 0) /\
   scaled k d = scaled k l - scaled k r /\ finite d /\ normal d /\
   dc_dscale d = if (dc_sign l =? dc_sign r) && (mag k l =? mag k r)
                 then zero_dscale t l r else Z.max (dc_dscale l) (dc_dscale r)) /\
  no_memory (negb (dc_sign l =? dc_sign r)) k l r res
    (decimal_add true t l r res) (decimal_add false t l r res) /\
  no_memory (dc_sign l =? dc_sign r) k l r res
    (decimal_sub true t l r res) (decimal_sub false t l r res).
Proof.
  intros Fl Fr Kl Kr Hk. unfold decimal_add, decimal_sub. rewrite !finite_not_special by done.
  cbn [orb]. split; [|split; [|by apply add_sub_no_memory]].
  - destruct (add_signed l r res t k) as [H D]; try done.
    destruct (finish_arith_ok _ _ _ Hk H) as (E1 & E2 & E3 & E4 & E5 & _).
    destruct (finish_arith _) as [rc d]. simpl in *. rewrite E5, D by done. done.
  - destruct (sub_signed l r res t k) as [H D]; try done.
    destruct (finish_arith_ok _ _ _ Hk H) as (E1 & E2 & E3 & E4 & E5 & _).
    destruct (finish_arith _) as [rc d]. simpl in *. rewrite E5, D by done. done.
Qed.

Lemma decimal_add_sub_exact_witness :
  scaled 1 (decimal_add true TOther dec_example1 dec_example2 decimal_init).2 = -94375 /\
  dc_digits (decimal_sub true TOther dec_example1 dec_example2 decimal_init).2 = [15; 5625].
Proof.
  destruct dec_examples_valid as [[F1 _] [F2 _]]. split; [|vm_compute; reflexivity].
  destruct (decimal_add_sub_exact TOther dec_example1 dec_example2 decimal_init 1 F1 F2) as [H _];
    [vm_compute; discriminate..|].
  destruct (decimal_add true TOther dec_example1 dec_example2 decimal_init) as [rc d].
  destruct H as (_ & E & _). simpl. rewrite E. vm_compute. reflexivity.
Defined.

(** When the result is stored over an operand and is zero, the display scale
    of that operand is already gone: 1.50 - 1.5 stored over 1.50 has one
    decimal place, though the comment of [_decimal_sub_abs] and [_decimal_add_abs]
    has the result point to an operand without danger. *)
Lemma decimal_sub_alias_dscale :
  let l := mkDec (-1) SDB_DECIMAL_POS 2 0 true [0] [1; 5000] in
  let r := mkDec (-1) SDB_DECIMAL_POS 1 0 true [0] [1; 5000] in
  dc_dscale (decimal_sub true TOther l r decimal_init).2 = 2 /\
  dc_dscale (decimal_sub true TLeft l r l).2 = 1.
Proof. by split. Qed.
