(* ===== verification/BsonDecimalOps.v ===== *)
(** * Decimals: multiplication, precision, conversions
    (src/src/bson/common_decimal.c, bsonDecimal.cpp, bsonobjbuilder.h) *)
From S2P Require Import Prelude.
From S2P Require Import ByteBits.
From S2P Require Import BsonDecimal.
#[local] Open Scope Z_scope.

Definition INT_MAX : Z := 2147483647.

(** Storing an [int] in a [short]. *)
Definition i16 (x : Z) : Z := (x + 32768) mod 65536 - 32768.

(** ** Multiplication

    The accumulator [dig] is kept with its least significant cell first; its
    cells are [int]s. *)

(** A pass that propagates carries. *)
Fixpoint norm_loop (dig : list Z) (carry : Z) : list Z * Z :=
  match dig with
  | [] => ([], carry)
  | x :: dig =>
      let newdig := i32 (x + carry) in
      let '(carry, newdig) :=
        if DECIMAL_NBASE <=? newdig
        then (Z.quot newdig DECIMAL_NBASE, newdig - Z.quot newdig DECIMAL_NBASE * DECIMAL_NBASE)
        else (0, newdig) in
      let '(dig, carry) := norm_loop dig carry in
      (newdig :: dig, carry)
  end.

Fixpoint add_multiple (x : Z) (ys dig : list Z) : list Z :=
  match ys, dig with
  | y :: ys, c :: dig => i32 (c + x * y) :: add_multiple x ys dig
  | _, _ => dig
  end.

(** ... from the cell [off] on. *)
Definition add_multiple_at (off : nat) (x : Z) (ys dig : list Z) : list Z :=
  take off dig ++ add_multiple x ys (drop off dig).

Fixpoint mul_loop (ls : list Z) (off : nat) (rs : list Z) (maxdig : Z) (dig : list Z)
    : option (list Z) :=
  match ls with
  | [] => Some dig
  | leftDigit :: ls =>
      if leftDigit =? 0 then mul_loop ls (S off) rs maxdig dig
      else
        let maxdig := maxdig + leftDigit in
        if Z.quot INT_MAX (DECIMAL_NBASE - 1) <? maxdig then
          let '(dig, carry) := norm_loop dig 0 in
          if negb (carry =? 0) then None
          else mul_loop ls (S off) rs (1 + leftDigit) (add_multiple_at off leftDigit rs dig)
        else mul_loop ls (S off) rs maxdig (add_multiple_at off leftDigit rs dig)
  end.

(** How many digits of each operand are used: all of them unless the result
    would have more than the scale asks for. *)
Definition mul_lengths (l r res_ndigits maxdigits : Z) : Z * Z :=
  if r <? l then
    let l := l - (res_ndigits - maxdigits) in
    if l <? r then (Z.quot (l + r) 2, Z.quot (l + r) 2) else (l, r)
  else
    let r := r - (res_ndigits - maxdigits) in
    if r <? l then (Z.quot (l + r) 2, Z.quot (l + r) 2) else (l, r).

Definition zero_with_dscale (result : bson_decimal) (dscale : Z) : bson_decimal :=
  set_dc_dscale (decimal_set_zero result) dscale.

(** The digits of the product of the first [l] and [r] digits. *)
Definition mul_digits (alloc1 alloc2 : bool) (left right result : bson_decimal)
    (l r res_ndigits res_sign res_weight rscale : Z) : option (Z * bson_decimal) :=
  if negb alloc1 then Some (-2, result)
  else
    match mul_loop (rev (take (Z.to_nat l) (dc_digits left))) 0
            (rev (take (Z.to_nat r) (dc_digits right))) 0
            (repeat 0 (Z.to_nat res_ndigits)) with
    | None => Some (-6, result)
    | Some dig =>
        if negb alloc2 then Some (-2, decimal_free result)
        else
          let '(dig, carry) := norm_loop dig 0 in
          let digits := rev (map i16 dig) in
          let d := mkDec (-1) SDB_DECIMAL_POS 0 0 true [0] digits in
          if negb (carry =? 0) then Some (-6, d)
          else
            '(rc, d) ← decimal_round (set_dc_sign (set_dc_digits d res_weight [0] digits) res_sign)
                         rscale;
            if negb (rc =? 0) then Some (rc, d) else Some (0, decimal_strip d)
    end.

(** [alloc1]: the accumulator, [alloc2]: the digits of the result.  [None]:
    rounding leaves the buffer. *)
Definition decimal_mul_ (alloc1 alloc2 : bool) (left right result : bson_decimal) (rscale : Z)
    : option (Z * bson_decimal) :=
  let l := dc_ndigits left in
  let r := dc_ndigits right in
  if (l =? 0) || (r =? 0) then Some (0, zero_with_dscale result rscale)
  else
    let res_sign := if dc_sign left =? dc_sign right then SDB_DECIMAL_POS else SDB_DECIMAL_NEG in
    let res_weight := dc_weight left + dc_weight right + 2 in
    let res_ndigits := l + r + 1 in
    let maxdigits := res_weight + 1 + rscale * DECIMAL_DEC_DIGITS + DECIMAL_MUL_GUARD_DIGITS in
    if maxdigits <? res_ndigits then
      if maxdigits <? 3 then Some (0, zero_with_dscale result rscale)
      else
        let maxdigits := if Z.even maxdigits then maxdigits + 1 else maxdigits in
        let '(l, r) := mul_lengths l r res_ndigits maxdigits in
        if negb (maxdigits =? l + r + 1) then Some (-6, result)
        else mul_digits alloc1 alloc2 left right result l r maxdigits res_sign res_weight rscale
    else mul_digits alloc1 alloc2 left right result l r res_ndigits res_sign res_weight rscale.

Definition decimal_mul (alloc1 alloc2 : bool) (left right result : bson_decimal)
    : option (Z * bson_decimal) :=
  if decimal_is_special left || decimal_is_special right then Some (0, decimal_set_nan result)
  else
    '(rc, d) ← decimal_mul_ alloc1 alloc2 left right result (dc_dscale left + dc_dscale right);
    if negb (rc =? 0) then Some (rc, d)
    else if decimal_is_out_of_bound d then Some (-6, d) else Some (0, d).

(** ** Precision *)

Definition typemod_precision (typemod : Z) : Z := Z.land (Z.shiftr typemod 16) 65535.
Definition typemod_scale (typemod : Z) : Z := Z.land typemod 65535.

Definition decimal_get_typemod (d : bson_decimal) : Z * Z :=
  if dc_typemod d =? -1 then (-1, -1)
  else (typemod_precision (dc_typemod d), typemod_scale (dc_typemod d)).

(** The loop over the digits: whether there are more than [maxdigits] decimal
    digits before the point, [ddigits] as if the first digit had four. *)
Fixpoint too_many_digits (digits : list Z) (ddigits maxdigits : Z) : bool :=
  match digits with
  | [] => false
  | dig :: digits =>
      if negb (dig =? 0) then
        let ddigits :=
          if dig <? 10 then ddigits - 3 else if dig <? 100 then ddigits - 2
          else if dig <? 1000 then ddigits - 1 else ddigits in
        maxdigits <? ddigits
      else too_many_digits digits (ddigits - DECIMAL_DEC_DIGITS) maxdigits
  end.

Definition integer_overflow (d : bson_decimal) (maxdigits : Z) : bool :=
  let ddigits := (dc_weight d + 1) * DECIMAL_DEC_DIGITS in
  (maxdigits <? ddigits) && too_many_digits (dc_digits d) ddigits maxdigits.

Definition decimal_apply_typmod (d : bson_decimal) (typmod : Z) : option (Z * bson_decimal) :=
  if typmod =? -1 then Some (0, d)
  else
    let precision := typemod_precision typmod in
    let scale := typemod_scale typmod in
    let maxdigits := precision - scale in
    '(rc, d) ← decimal_round d scale;
    if negb (rc =? 0) then Some (rc, d)
    else if integer_overflow d maxdigits then Some (-10, d)
    else Some (0, d).

Definition decimal_is_out_of_precision (d : bson_decimal) (typemod : Z) : bool :=
  if typemod =? -1 then false
  else
    let precision := typemod_precision typemod in
    let scale := typemod_scale typemod in
    let maxdigits := precision - scale in
    (scale <? dc_dscale d) || integer_overflow d maxdigits.

Definition decimal_update_typemod (d : bson_decimal) (typemod : Z) : option (Z * bson_decimal) :=
  if decimal_is_out_of_precision d typemod then Some (0, set_dc_typemod d (-1))
  else if decimal_is_special d then Some (0, d)
  else if decimal_is_zero d then Some (0, set_dc_typemod d typemod)
  else
    '(rc, d) ← decimal_apply_typmod d typemod;
    if negb (rc =? 0) then Some (rc, d) else Some (0, set_dc_typemod d typemod).

(** ** Whole numbers *)

(** The digits of an unsigned 64-bit value, [acc] those already written. *)
Fixpoint long_digits (fuel : nat) (uval : Z) (acc : list Z) : list Z :=
  match fuel with
  | O => acc
  | S fuel =>
      let newuval := uval / DECIMAL_NBASE in
      let acc := uval - newuval * DECIMAL_NBASE :: acc in
      if newuval =? 0 then acc else long_digits fuel newuval acc
  end.

(** [junk]: what [malloc] left in the cells in front of the digits. *)
Definition decimal_from_long (alloc : bool) (junk : list Z) (value : Z) (d : bson_decimal)
    : option (Z * bson_decimal) :=
  if negb alloc then Some (-2, decimal_free d)
  else
    let sign := if value <? 0 then SDB_DECIMAL_NEG else SDB_DECIMAL_POS in
    let uval := if value <? 0 then u64 (- value) else value in
    if value =? 0 then Some (0, mkDec (dc_typemod d) sign 0 0 true [0] [])
    else
      let digits := long_digits 5 uval [] in
      let head := 0 :: take (5 - length digits) junk in
      let d := mkDec (dc_typemod d) sign 0 (Z.of_nat (length digits) - 1) true head digits in
      '(rc, d) ← decimal_apply_typmod d (dc_typemod d);
      if negb (rc =? 0) then Some (rc, decimal_free d) else Some (0, d).

(** The accumulation with its test for overflow: [n] digits of the integer
    part are left, [digits] those that are stored.  [None]: -10. *)
Fixpoint to_long_loop (n : nat) (digits : list Z) (neg : bool) (val : Z) : option Z :=
  match n with
  | O => Some val
  | S n =>
      let oldval := val in
      let val := i64 (val * DECIMAL_NBASE) in
      let val := match digits with x :: _ => i64 (val + x) | [] => val end in
      if negb (Z.quot val DECIMAL_NBASE =? oldval) &&
         (negb neg || negb (i64 (- val) =? val) || (val =? 0) || (oldval <? 0))
      then None
      else to_long_loop n (tail digits) neg val
  end.

(** [None]: undefined behaviour; errors give 0. *)
Definition decimal_to_long (alloc : bool) (d : bson_decimal) : option Z :=
  if decimal_is_special d then Some 0
  else
    let '(rc, rounded) := decimal_copy alloc d decimal_init in
    if negb (rc =? 0) then Some 0
    else
      '(rc, rounded) ← decimal_round rounded 0;
      if negb (rc =? 0) then Some 0
      else
        let rounded := decimal_strip rounded in
        let weight := dc_weight rounded in
        match dc_digits rounded with
        | [] => Some 0
        | x :: digits =>
            if (weight <? 0) || (weight + 1 <? dc_ndigits rounded) then Some 0
            else
              let neg := dc_sign rounded =? SDB_DECIMAL_NEG in
              match to_long_loop (Z.to_nat weight) digits neg x with
              | None => Some 0
              | Some val => Some (if neg then i64 (- val) else val)
              end
        end.

Definition decimal_to_int (alloc : bool) (d : bson_decimal) : option Z :=
  val ← decimal_to_long alloc d; Some (i32 val).
