(* ===== verification/BsonDecimalRound.v ===== *)
(** * Decimals: rounding is to the nearest, away from zero at the middle *)
From S2P Require Import Prelude.
From S2P Require Import BsonDecimal.
From S2P Require Import BsonDecimalOk.
#[local] Open Scope Z_scope.

(** ** Carries *)

(** The value of cells, the least significant first. *)
Fixpoint lval (l : list Z) : Z :=
  match l with [] => 0 | x :: l => x + B * lval l end.

Lemma dval_rev l : dval (rev l) = lval l.
Proof.
  induction l as [|x l IH]; [done|]. simpl. rewrite dval_app, IH. simpl. unfold B. lia.
Qed.

Lemma wf_rev l : wf_digits l -> wf_digits (rev l).
Proof. apply List.Forall_rev. Qed.

(** Carrying into digits either ends in them or goes through them all. *)
Lemma carry_into_digits rb : forall rest,
  wf_digits rb ->
  (exists rb' n, carry_into (rb ++ rest) = Some (rb' ++ rest, n) /\ (n <= length rb)%nat /\
     length rb' = length rb /\ wf_digits rb' /\ lval rb' = lval rb + 1) \/
  (lval rb + 1 = B ^ Z.of_nat (length rb) /\
   forall c n, carry_into rest = Some (c, n) ->
     carry_into (rb ++ rest) = Some (repeat 0 (length rb) ++ c, (length rb + n)%nat)).
Proof.
  induction rb as [|x rb IH]; intros rest Hw; simpl.
  { right. split; [done|]. intros c n ->. done. }
  apply Forall_cons in Hw as [Hx Hw]. destruct (Z.leb_spec B (1 + x)).
  - assert (1 + x - B = 0) as E by (unfold B, DECIMAL_NBASE in *; lia). rewrite E.
    destruct (IH rest Hw) as [(rb' & n & -> & Hn & Hl & Hw' & Hv)|[Hv Hc]].
    + left. exists (0 :: rb'), (S n). simpl. split_and!; try done; try lia.
      constructor; [unfold B, DECIMAL_NBASE; lia|done].
    + right. split; [rewrite Nat2Z.inj_succ, <- Z.add_1_r, B_pow_succ by lia; lia|].
      intros c n Hr. by rewrite (Hc _ _ Hr).
  - left. exists (1 + x :: rb), 1%nat. simpl. split_and!; try done; try lia.
    constructor; [lia|done].
Qed.

(** A buffer whose cell in front of the digits is free. *)
Definition spare (d : bson_decimal) : Prop := exists h, dc_head d = h ++ [0].

(** The digits and the weight that a rounding leaves. *)
Definition rounded_to (d d' : bson_decimal) (pre' : list Z) (before after : list Z) : Prop :=
  exists e, length pre' = (length before + e)%nat /\ dc_weight d' = dc_weight d + Z.of_nat e /\
    dc_digits d' = pre' ++ after /\ dc_sign d' = dc_sign d /\ dc_dscale d' = dc_dscale d /\
    dc_typemod d' = dc_typemod d /\ dc_isOwn d' = dc_isOwn d.

Lemma propagate_ok d carry before after :
  spare d -> wf_digits before ->
  exists d' pre', propagate d carry before after = Some (0, d') /\
    rounded_to d d' pre' before after /\ wf_digits pre' /\
    dval pre' = dval before + (if carry : bool then 1 else 0).
Proof.
  intros [h Hh] Hw. unfold propagate. destruct carry; cbn [negb].
  2:{ eexists _, before. split; [done|]. split; [|split; [done|lia]]. exists O. simpl.
      split_and!; try done; lia. }
  rewrite Hh, rev_app_distr, rev_app_distr. simpl (rev [0] ++ rev h).
  destruct (carry_into_digits (rev before) (0 :: rev h) (wf_rev _ Hw))
    as [(rb' & n & -> & Hn & Hl & Hw' & Hv)|[Hv Hc]].
  - cbn [mbind option_bind]. rewrite length_rev in Hn, Hl. rewrite (proj2 (Nat.leb_le _ _)) by done.
    rewrite rev_app_distr. cbn [rev]. rewrite rev_involutive.
    exists (set_dc_digits d (dc_weight d) (h ++ [0]) (rev rb' ++ after)), (rev rb').
    rewrite <- !dval_rev, rev_involutive in Hv. split; [|split; [|split; [by apply wf_rev|done]]].
    + rewrite take_app_length, drop_app_length. done.
    + exists O. simpl. rewrite length_rev. split_and!; try done; lia.
  - rewrite (Hc (1 :: rev h) 1%nat eq_refl). cbn [mbind option_bind]. rewrite length_rev in *.
    rewrite (proj2 (Nat.leb_gt _ _)) by lia. rewrite (proj2 (Nat.eqb_eq _ _)) by lia.
    rewrite rev_app_distr. cbn [rev app]. rewrite rev_involutive, rev_repeat, length_app.
    change (length [0]) with 1%nat. rewrite Nat.add_sub.
    rewrite <- app_assoc, take_app_length, drop_app_length.
    eexists _, (1 :: repeat 0 (length before)). split; [done|].
    rewrite <- (dval_rev (rev before)), rev_involutive in Hv. split_and!.
    + exists 1%nat. simpl. rewrite repeat_length. split_and!; try done; lia.
    + constructor; [unfold B, DECIMAL_NBASE; lia|]. apply Forall_forall.
      intros x ->%list_elem_of_In%repeat_spec. unfold B, DECIMAL_NBASE. lia.
    + simpl. rewrite dval_zeros, repeat_length. lia.
Qed.

(** ** Rounding a number *)

(** The multiple of [u] nearest to [v], the greater one from the middle. *)
Definition nearest (u v : Z) : Z := (2 * v + u) / (2 * u) * u.

Lemma nearest_split u p q :
  0 < u -> 0 <= q < u -> nearest u (p * u + q) = (p + (if u <=? 2 * q then 1 else 0)) * u.
Proof.
  intros Hu Hq. unfold nearest. f_equal.
  replace (2 * (p * u + q) + u) with (2 * q + u + p * (2 * u)) by lia.
  rewrite Z.div_add by lia. rewrite Z.add_comm. f_equal.
  destruct (Z.leb_spec u (2 * q)); symmetry; [apply (Z.div_unique _ _ _ (2 * q - u))|
    apply (Z.div_unique _ _ _ (2 * q + u))]; lia.
Qed.

Lemma nearest_exact u p : 0 < u -> nearest u (p * u) = p * u.
Proof.
  intros. replace (p * u) with (p * u + 0) at 1 by lia. rewrite nearest_split by lia.
  destruct (Z.leb_spec u (2 * 0)); lia.
Qed.

Lemma pow10_B n : 0 <= n -> 10 ^ (4 * n) = B ^ n.
Proof. intros. rewrite Z.pow_mul_r by lia. done. Qed.

Lemma pow10_split n t : 0 <= n -> 0 <= t -> 10 ^ (4 * n + t) = 10 ^ t * B ^ n.
Proof. intros. rewrite Z.pow_add_r, pow10_B by lia. lia. Qed.

(** The value after a rounding that leaves [pre' ++ after]. *)
Lemma rounded_mag k d d' pre' before after :
  rounded_to d d' pre' before after ->
  mag k d' = (dval pre' * B ^ Z.of_nat (length after) + dval after) *
    B ^ (k + dc_weight d + 1 - Z.of_nat (length before) - Z.of_nat (length after)).
Proof.
  intros (e & Hl & Hw & Hd & _). unfold mag, mg. rewrite Hd, Hw, dval_app, length_app, Hl.
  do 2 f_equal. lia.
Qed.

(** Digits from some place on: the value they have, and when it is at least
    half of a unit of the place before. *)
Lemma tail_half y rest e :
  wf_digits (y :: rest) -> 0 <= e ->
  let q := dval (y :: rest) * B ^ e in
  let u := B ^ (Z.of_nat (length (y :: rest)) + e) in
  0 <= q < u /\ (u <=? 2 * q) = (DECIMAL_HALF_NBASE <=? y).
Proof.
  intros Hw He q u. pose proof (dval_range _ Hw) as Hr. apply Forall_cons in Hw as [Hy Hw].
  pose proof (dval_range _ Hw) as Hr'. pose proof (B_pow_pos e He).
  assert (u = B ^ Z.of_nat (length (y :: rest)) * B ^ e) as Hu by (unfold u; apply Z.pow_add_r; lia).
  split; [rewrite Hu; unfold q; nia|].
  set (m := B ^ Z.of_nat (length rest)) in *.
  assert (0 < m) by (apply B_pow_pos; lia).
  assert (u = 10000 * (m * B ^ e)) as Hu2.
  { rewrite Hu. cbn [length]. rewrite Nat2Z.inj_succ, <- Z.add_1_r, B_pow_succ by lia. fold m.
    unfold B, DECIMAL_NBASE. lia. }
  assert (q = y * (m * B ^ e) + dval rest * B ^ e) as Hq by (unfold q; simpl; fold m; lia).
  assert (dval rest * B ^ e < m * B ^ e) by nia. assert (0 <= dval rest * B ^ e) by nia.
  unfold DECIMAL_HALF_NBASE. destruct (Z.leb_spec 5000 y); [apply Z.leb_le|apply Z.leb_gt]; nia.
Qed.

Definition round_result (k : Z) (d : bson_decimal) (rs : Z) (d' : bson_decimal) : Prop :=
  mag k d' = nearest (10 ^ (4 * k - rs)) (mag k d) /\ wf_digits (dc_digits d') /\
  rscale d' <= Z.max k (-1) /\ dc_dscale d' = rs /\ dc_typemod d' = dc_typemod d /\
  dc_isOwn d' = true /\ (dc_sign d' = dc_sign d \/ (dc_digits d' = [] /\ dc_sign d' = SDB_DECIMAL_POS)).

Section round.
Context (k rs : Z) (d : bson_decimal).
Context (Hown : dc_isOwn d = true) (Hwf : wf_digits (dc_digits d)) (Hsp : spare d).
Context (Hk : rscale d <= k) (Hrs : rs <= 4 * k).

Abbreviation U := (10 ^ (4 * k - rs)).
Abbreviation di := ((dc_weight d + 1) * DECIMAL_DEC_DIGITS + rs).

Lemma U_pos : 0 < U.
Proof. apply Z.pow_pos_nonneg; lia. Qed.

(** All digits are lost. *)
Lemma round_none : di < 0 -> nearest U (mag k d) = 0.
Proof.
  intros Hd. unfold DECIMAL_DEC_DIGITS in Hd. pose proof U_pos.
  destruct (mg_range k _ _ Hwf (proj1 (fits_rscale k d) Hk)) as [Hk0 Hr]. fold (mag k d) in Hr.
  assert (B ^ (k + dc_weight d + 1) * 10 <= U) as Hle.
  { rewrite <- pow10_B by lia. change 10 with (10 ^ 1) at 2. rewrite <- Z.pow_add_r by lia.
    apply Z.pow_le_mono_r; lia. }
  replace (mag k d) with (0 * U + mag k d) by lia. rewrite nearest_split by lia.
  destruct (Z.leb_spec U (2 * mag k d)); lia.
Qed.

(** No digit is lost. *)
Lemma round_all : 4 * dc_ndigits d <= di -> nearest U (mag k d) = mag k d.
Proof.
  intros Hd. unfold DECIMAL_DEC_DIGITS in Hd. pose proof Hk as Hf%fits_rscale. unfold fits in Hf.
  unfold mag, mg, dc_ndigits in *.
  assert (B ^ (k + dc_weight d + 1 - Z.of_nat (length (dc_digits d))) =
    10 ^ (4 * (k + dc_weight d + 1 - Z.of_nat (length (dc_digits d))) - (4 * k - rs)) * U) as ->.
  { rewrite <- pow10_B, <- Z.pow_add_r by lia. f_equal. lia. }
  rewrite Z.mul_assoc. apply nearest_exact, U_pos.
Qed.

Abbreviation d1 := (set_dc_dscale d rs).

(** What a carry into the digits before the place of rounding leaves. *)
Lemma round_carry (carry : bool) before after rest :
  dc_digits d = before ++ rest -> (length after <= length rest)%nat -> wf_digits after ->
  (forall e, e = k + dc_weight d + 1 - Z.of_nat (length before) - Z.of_nat (length after) ->
     ((dval before + (if carry then 1 else 0)) * B ^ Z.of_nat (length after) + dval after) * B ^ e =
     nearest U (mag k d)) ->
  exists d', propagate d1 carry before after = Some (0, d') /\ round_result k d rs d'.
Proof.
  intros Hd Hlen Ha Hv. assert (wf_digits before) as Hb.
  { rewrite Hd in Hwf. by apply Forall_app in Hwf as [? _]. }
  destruct (propagate_ok d1 carry before after Hsp Hb) as (d' & pre' & -> & Hr & Hw & E).
  exists d'. split; [done|]. unfold round_result.
  rewrite (rounded_mag k _ _ _ _ _ Hr), E. rewrite <- (Hv _ eq_refl).
  destruct Hr as (e & Hl & Hwt & Hdg & Hs & Hds & Ht & Ho). simpl in *. split_and!; auto.
  - rewrite Hdg. by apply Forall_app.
  - pose proof Hk as Hk'. unfold rscale, dc_ndigits in *. rewrite Hdg, Hwt, length_app, Hl.
    rewrite Hd, length_app in Hk'. lia.
  - congruence.
Qed.

Lemma round_at_digit before y rest :
  dc_digits d = before ++ y :: rest -> di = 4 * Z.of_nat (length before) ->
  exists d', propagate d1 (DECIMAL_HALF_NBASE <=? y) before [] = Some (0, d') /\
    round_result k d rs d'.
Proof.
  intros Hd Hdi. unfold DECIMAL_DEC_DIGITS in Hdi. pose proof Hk as Hf%fits_rscale. unfold fits in Hf.
  rewrite Hd, length_app in Hf. pose proof Hwf as Hw. rewrite Hd in Hw. apply Forall_app in Hw as [_ Hw].
  set (e := k + dc_weight d + 1 - Z.of_nat (length before) - Z.of_nat (length (y :: rest))).
  destruct (tail_half y rest e Hw ltac:(unfold e; lia)) as [Hq Hh].
  assert (U = B ^ (Z.of_nat (length (y :: rest)) + e)) as EU
    by (rewrite <- pow10_B by (unfold e; lia); f_equal; unfold e; lia).
  assert (mag k d = dval before * U + dval (y :: rest) * B ^ e) as EV.
  { unfold mag, mg. rewrite Hd, dval_app, length_app, EU, Z.pow_add_r by (unfold e; lia).
    replace (k + dc_weight d + 1 - Z.of_nat (length before + length (y :: rest))) with e
      by (unfold e; lia). lia. }
  apply (round_carry _ _ _ (y :: rest)); [done|simpl; lia|constructor|].
  intros e' ->. rewrite EV, nearest_split, EU by (rewrite ?EU; try done; apply B_pow_pos; unfold e; lia).
  rewrite Hh. change (dval []) with 0. change (B ^ Z.of_nat (length [])) with 1.
  rewrite Z.mul_1_r, Z.add_0_r. f_equal. f_equal. unfold e. simpl. lia.
Qed.

Lemma round_in_digit (carry : bool) before last rest t newlast :
  dc_digits d = before ++ last :: rest -> 1 <= t <= 3 -> di = 4 * Z.of_nat (length before) + t ->
  0 <= newlast < B ->
  (if carry then B else 0) + newlast =
    (last / 10 ^ (4 - t) + (if 10 ^ (4 - t) <=? 2 * (last mod 10 ^ (4 - t)) then 1 else 0)) *
    10 ^ (4 - t) ->
  exists d', propagate d1 carry before [newlast] = Some (0, d') /\ round_result k d rs d'.
Proof.
  intros Hd Ht Hdi Hn Hc. unfold DECIMAL_DEC_DIGITS in Hdi. pose proof Hk as Hf%fits_rscale.
  unfold fits in Hf. rewrite Hd, length_app in Hf. simpl in Hf.
  pose proof Hwf as Hw. rewrite Hd in Hw. apply Forall_app in Hw as [_ Hw].
  apply Forall_cons in Hw as [Hlast Hw]. pose proof (dval_range _ Hw) as Hr.
  set (p := 10 ^ (4 - t)) in *.
  set (e := k + dc_weight d + 1 - Z.of_nat (length before) - 1 - Z.of_nat (length rest)).
  set (M := B ^ (Z.of_nat (length rest) + e)).
  assert (0 < M) by (apply B_pow_pos; unfold e; lia).
  assert (M = B ^ Z.of_nat (length rest) * B ^ e) as EM by (apply Z.pow_add_r; unfold e; lia).
  pose proof (B_pow_pos e ltac:(unfold e; lia)) as He.
  assert (U = p * M) as EU.
  { unfold M, p. rewrite <- pow10_split by (unfold e; lia). f_equal. unfold e. lia. }
  assert (exists q, B = q * p /\ 0 < p /\ exists h, p = 2 * h) as (q & Eq & Hp & h & Eh).
  { assert (t = 1 \/ t = 2 \/ t = 3) as [-> |[-> | ->]] by lia; unfold p;
      [exists 10|exists 100|exists 1000]; (split; [done|]); (split; [done|]);
      [exists 500|exists 50|exists 5]; done. }
  pose proof (Z.div_mod last p ltac:(lia)) as Edm.
  pose proof (Z.mod_pos_bound last p Hp) as Hm.
  set (a := last / p) in *. set (x := last mod p) in *.
  assert (mag k d = (dval before * q + a) * U + (x * M + dval rest * B ^ e)) as EV.
  { unfold mag, mg. rewrite Hd, dval_app, length_app. cbn [dval length].
    replace (k + dc_weight d + 1 - Z.of_nat (length before + S (length rest))) with e
      by (unfold e; lia).
    rewrite EU, Nat2Z.inj_succ, <- Z.add_1_r, B_pow_succ, EM, Edm, Eq by lia. ring. }
  assert (0 <= dval rest * B ^ e < M) as Hrest by (rewrite EM; nia).
  assert (0 <= x * M + dval rest * B ^ e < U) as HQ by (rewrite EU; nia).
  assert ((U <=? 2 * (x * M + dval rest * B ^ e)) = (p <=? 2 * x)) as Hh.
  { rewrite EU. destruct (Z.leb_spec p (2 * x)) as [Hx|Hx]; [apply Z.leb_le|apply Z.leb_gt].
    - pose proof (Z.mul_le_mono_nonneg_r _ _ M ltac:(lia) Hx). lia.
    - pose proof (Z.mul_le_mono_nonneg_r (2 * x + 2) p M ltac:(lia) ltac:(lia)). lia. }
  apply (round_carry _ _ _ (last :: rest)); [done|simpl; lia|by apply Forall_singleton|].
  intros e' ->. rewrite EV, (nearest_split U _ _ U_pos HQ), Hh, EU.
  replace (k + dc_weight d + 1 - Z.of_nat (length before) - Z.of_nat (length [newlast]))
    with (Z.of_nat (length rest) + e) by (unfold e; simpl; lia).
  fold M. cbn [dval length]. change (B ^ Z.of_nat 1) with B. change (B ^ Z.of_nat 0) with 1.
  transitivity ((dval before * B + ((if carry then B else 0) + newlast)) * M);
    [clear; destruct carry; ring|]. rewrite Hc, Eq. ring.
Qed.
End round.

Lemma nth_split_digits (l : list Z) n :
  (n < length l)%nat -> l = take n l ++ nth n l 0 :: drop (S n) l.
Proof.
  intros Hn. rewrite <- (take_drop n l) at 1. f_equal.
  rewrite (drop_S l (nth n l 0) n); [done|].
  destruct (nth_lookup_or_length l n 0) as [|Hl]; [done|lia].
Qed.

Lemma round_powers_pow t : 1 <= t <= 3 -> round_powers t = 10 ^ (4 - t).
Proof. intros. by assert (t = 1 \/ t = 2 \/ t = 3) as [-> |[-> | ->]] by lia. Qed.

(** The digit in which the place of rounding is: what the source leaves of it. *)
Lemma round_last_digit t last (p := round_powers t) :
  1 <= t <= 3 -> 0 <= last < B ->
  let extra := Z.rem last p in
  let up := p + (last - extra) in
  let half := if 10 ^ (4 - t) <=? 2 * (last mod 10 ^ (4 - t)) then 1 else 0 in
  (if Z.quot p 2 <=? extra then
     (if B <=? up then 0 <= up - B < B /\ B + (up - B) = (last / 10 ^ (4 - t) + half) * 10 ^ (4 - t)
      else 0 <= up < B /\ 0 + up = (last / 10 ^ (4 - t) + half) * 10 ^ (4 - t))
   else 0 <= last - extra < B /\ 0 + (last - extra) = (last / 10 ^ (4 - t) + half) * 10 ^ (4 - t)).
Proof.
  intros Ht Hl. unfold p. rewrite round_powers_pow by done.
  assert (exists h, 10 ^ (4 - t) = 2 * h /\ 0 < h /\ 2 * h < B) as (h & -> & Hh & HB).
  { assert (t = 1 \/ t = 2 \/ t = 3) as [-> |[-> | ->]] by lia;
      [exists 500|exists 50|exists 5]; done. }
  rewrite Z.rem_mod_nonneg, Z.quot_div_nonneg by lia.
  replace (2 * h / 2) with h by (rewrite Z.mul_comm, Z.div_mul; lia).
  pose proof (Z.div_mod last (2 * h) ltac:(lia)). pose proof (Z.mod_pos_bound last (2 * h) ltac:(lia)).
  pose proof (Z.mod_le last (2 * h) ltac:(lia) ltac:(lia)).
  set (x := last mod (2 * h)) in *. set (a := last / (2 * h)) in *. cbv zeta.
  destruct (Z.leb_spec (2 * h) (2 * x)); destruct (Z.leb_spec h x); try lia.
  destruct (Z.leb_spec B (2 * h + (last - x))); lia.
Qed.

(** Rounding changes the value to the nearest one and keeps the digits well
    formed. *)
Lemma decimal_round_ok k rs d :
  dc_isOwn d = true -> wf_digits (dc_digits d) -> spare d -> rscale d <= k -> rs <= 4 * k ->
  exists d', decimal_round d rs = Some (0, d') /\ round_result k d rs d'.
Proof.
  intros Ho Hw Hsp Hk Hrs. unfold decimal_round. rewrite Ho. cbn [negb]. cbv zeta.
  cbn [dc_weight set_dc_dscale dc_digits dc_ndigits].
  change (dc_ndigits (set_dc_dscale d rs)) with (dc_ndigits d).
  unfold DECIMAL_DEC_DIGITS. set (D := (dc_weight d + 1) * 4 + rs).
  destruct (Z.ltb_spec D 0) as [Hd|Hd].
  { eexists. split; [done|]. unfold round_result. rewrite round_none by done.
    split_and!; try done; [constructor| |by right]. unfold rscale, dc_ndigits. simpl. lia. }
  rewrite Z.rem_mod_nonneg, Z.quot_div_nonneg by lia.
  pose proof (Z.div_mod D 4 ltac:(lia)) as Edm. pose proof (Z.mod_pos_bound D 4 ltac:(lia)) as Hm.
  set (t := D mod 4) in *. set (m := D / 4) in *.
  assert ((D + 4 - 1) / 4 = if t =? 0 then m else m + 1) as ->.
  { destruct (Z.eqb_spec t 0); symmetry;
      [apply (Z.div_unique _ _ _ 3)|apply (Z.div_unique _ _ _ (t - 1))]; lia. }
  destruct (Z.eqb_spec t 0) as [Ht|Ht].
  - rewrite Ht. rewrite andb_false_r, orb_false_r. destruct (Z.ltb_spec m (dc_ndigits d)) as [Hn|Hn].
    + unfold dc_ndigits in Hn. pose proof (nth_split_digits (dc_digits d) (Z.to_nat m) ltac:(lia)) as Es.
      apply (round_at_digit k rs d) with (rest := drop (S (Z.to_nat m)) (dc_digits d)); auto.
      rewrite length_take. unfold DECIMAL_DEC_DIGITS. fold D. lia.
    + eexists. split; [done|]. unfold round_result. rewrite round_all; try done; [|unfold DECIMAL_DEC_DIGITS; fold D; lia].
      split_and!; auto. change (rscale d <= Z.max k (-1)). lia.
  - rewrite (proj2 (Z.ltb_lt 0 t)) by lia. rewrite andb_true_r.
    destruct (Z.ltb_spec (m + 1) (dc_ndigits d)) as [Hn|Hn];
      [|destruct (Z.eqb_spec (m + 1) (dc_ndigits d)) as [Hn'|Hn']]; cbn [orb].
    3:{ eexists. split; [done|]. unfold round_result. rewrite round_all; try done; [|unfold DECIMAL_DEC_DIGITS; fold D; lia].
      split_and!; auto. change (rscale d <= Z.max k (-1)). lia. }
    all: unfold dc_ndigits in *; replace (Z.to_nat (m + 1) - 1)%nat with (Z.to_nat m) by lia.
    all: pose proof (nth_split_digits (dc_digits d) (Z.to_nat m) ltac:(lia)) as Es.
    all: set (last := nth (Z.to_nat m) (dc_digits d) 0) in *.
    all: assert (0 <= last < B) as Hlast
      by (pose proof Hw as Hw'; rewrite Es in Hw'; apply Forall_app in Hw' as [_ Hw']; by apply Forall_cons in Hw' as [? _]).
    all: pose proof (round_last_digit t last ltac:(lia) Hlast) as HL; cbv zeta in HL.
    all: assert ((dc_weight d + 1) * DECIMAL_DEC_DIGITS + rs =
          4 * Z.of_nat (length (take (Z.to_nat m) (dc_digits d))) + t) as Hdi
      by (rewrite length_take; unfold DECIMAL_DEC_DIGITS; fold D; lia).
    all: destruct (Z.quot (round_powers t) 2 <=? Z.rem last (round_powers t));
      [destruct (Z.leb_spec B (round_powers t + (last - Z.rem last (round_powers t))))|]; destruct HL as [HL1 HL2];
      eapply (round_in_digit k rs d); eauto; lia.
Qed.

(** rounding is exact.  A number with a free cell in front of its digits,
    as [_decimal_alloc] leaves one, is rounded without leaving its buffer; the
    result has the sign of the number and for its absolute value the multiple
    of [10 ^ -rs] nearest to that of the number, the greater one when two are
    as near (at the scale [k] of base-10000 places the unit of rounding is
    [10 ^ (4 * k - rs)]); its digits are well formed and it shows [rs] decimal
    places. *)
Theorem decimal_round_exact k rs d :
  dc_isOwn d = true -> finite d -> spare d -> rscale d <= k -> rs <= 4 * k ->
  exists d', decimal_round d rs = Some (0, d') /\
    scaled k d' = dsign d * nearest (10 ^ (4 * k - rs)) (Z.abs (scaled k d)) /\
    finite d' /\ rscale d' <= Z.max k (-1) /\ dc_dscale d' = rs.
Proof.
  intros Ho [Hs Hw] Hsp Hk Hrs.
  destruct (decimal_round_ok k rs d Ho Hw Hsp Hk Hrs) as (d' & E & Hm & Hw' & Hr & Hds & _ & _ & Hsg).
  exists d'. split; [done|].
  assert (0 <= mag k d) 
    by (destruct (mg_range k (dc_weight d) (dc_digits d) Hw) as [_ [? _]]; [by apply fits_rscale|done]).
  assert (Z.abs (scaled k d) = mag k d) as ->.
  { unfold scaled, dsign. destruct (dc_sign d =? SDB_DECIMAL_NEG); lia. }
  rewrite <- Hm. split_and!; try done.
  - unfold scaled, dsign. destruct Hsg as [->|[Hn _]]; [done|]. rewrite (mag_nil k d' Hn). lia.
  - split; [|done]. destruct Hsg as [->|[_ ->]]; [done|by left].
Qed.

Lemma decimal_round_exact_witness :
  exists d', decimal_round (mkDec (-1) SDB_DECIMAL_NEG 8 (-1) true [0] [9999; 9996]) 2 = Some (0, d') /\
    scaled 2 d' = - 100000000 /\ dc_digits d' = [1; 0] /\ dc_weight d' = 0.
Proof.
  destruct (decimal_round_exact 2 2 (mkDec (-1) SDB_DECIMAL_NEG 8 (-1) true [0] [9999; 9996]))
    as (d' & E & Hv & _).
  - reflexivity.
  - split; [right; reflexivity|]. apply (bool_decide_unpack _). vm_compute. exact I.
  - exists []. reflexivity.
  - vm_compute. discriminate.
  - lia.
  - exists d'. split; [exact E|]. split; [rewrite Hv; vm_compute; reflexivity|].
    vm_compute in E. injection E as <-. split; reflexivity.
Defined.
