(* ===== verification/BsonDecimalMul.v ===== *)
(** * Decimals: multiplication

    The accumulator of [_decimal_mul] holds [int]s.  A pass that propagates
    carries is made when the sum of the digits of the left factor, which bounds
    the cells, would go over [INT_MAX / (NBASE - 1)]; the bound leaves no room
    for the carry itself.  [headroom] says that there is room, and the product
    is exact then. *)
From S2P Require Import Prelude.
From S2P Require Import ByteBits.
From S2P Require Import BsonDecimal.
From S2P Require Import BsonDecimalOk.
From S2P Require Import BsonDecimalAdd.
From S2P Require Import BsonDecimalOps.
From S2P Require Import BsonDecimalRound.
#[local] Open Scope Z_scope.

(** The greatest bound of the cells, as a multiple of 9999, with which a
    carry pass stays in an [int]. *)
Definition SAFE : Z := 214748.

(** The bound is safe at each carry pass. *)
Fixpoint headroom (ls : list Z) (maxdig : Z) : bool :=
  match ls with
  | [] => maxdig <=? SAFE
  | x :: ls =>
      if x =? 0 then headroom ls maxdig
      else if Z.quot INT_MAX (DECIMAL_NBASE - 1) <? maxdig + x
      then (maxdig <=? SAFE) && headroom ls (1 + x)
      else headroom ls (maxdig + x)
  end.

Definition cells_le (m : Z) (dig : list Z) : Prop := Forall (fun c => 0 <= c <= m * 9999) dig.

Lemma i32_fits x : 0 <= x <= INT_MAX -> i32 x = x.
Proof. intros. unfold INT_MAX in *. apply i32_id. lia. Qed.

Lemma lval_range l : wf_digits l -> 0 <= lval l < B ^ Z.of_nat (length l).
Proof.
  intros Hw. rewrite <- dval_rev. pose proof (dval_range _ (wf_rev _ Hw)) as H.
  by rewrite length_rev in H.
Qed.

Lemma lval_app a b : lval (a ++ b) = lval a + B ^ Z.of_nat (length a) * lval b.
Proof.
  induction a as [|x a IH]; [simpl; lia|]. cbn [app lval length]. rewrite IH, Nat2Z.inj_succ.
  rewrite <- Z.add_1_r, B_pow_succ by lia. lia.
Qed.

Lemma norm_loop_ok m dig : 0 <= m <= SAFE -> cells_le m dig ->
  forall carry, 0 <= carry <= m ->
  exists dig' c', norm_loop dig carry = (dig', c') /\ wf_digits dig' /\
    length dig' = length dig /\ 0 <= c' <= m /\
    lval dig' + c' * B ^ Z.of_nat (length dig) = lval dig + carry.
Proof.
  intros Hm Hc. unfold SAFE in Hm.
  induction Hc as [|x dig Hx _ IH]; intros carry Hcr.
  { exists [], carry. split; [done|]. split; [constructor|]. simpl. lia. }
  cbn [norm_loop]. rewrite i32_fits by (unfold INT_MAX; lia).
  set (n := x + carry). unfold DECIMAL_NBASE.
  assert ((if 10000 <=? n then (Z.quot n 10000, n - Z.quot n 10000 * 10000) else (0, n)) =
    (n / 10000, n mod 10000)) as ->.
  { destruct (Z.leb_spec 10000 n).
    - rewrite Z.quot_div_nonneg by lia. f_equal. pose proof (Z.div_mod n 10000). lia.
    - rewrite Z.div_small, Z.mod_small by lia. done. }
  pose proof (Z.mod_pos_bound n 10000 ltac:(lia)). pose proof (Z.div_mod n 10000 ltac:(lia)).
  destruct (IH (n / 10000)) as (dig' & c' & -> & Hw & Hl & Hc' & Hv); [lia|].
  eexists _, _. split; [done|]. split_and!; try lia; [by constructor|simpl; lia|].
  cbn [lval length]. rewrite Nat2Z.inj_succ, <- Z.add_1_r, B_pow_succ by lia. unfold B, DECIMAL_NBASE in *. lia.
Qed.

(** A pass that does not overflow the accumulator. *)
Lemma norm_loop_exact m dig :
  0 <= m <= SAFE -> cells_le m dig -> lval dig < B ^ Z.of_nat (length dig) ->
  exists dig', norm_loop dig 0 = (dig', 0) /\ wf_digits dig' /\ length dig' = length dig /\
    lval dig' = lval dig.
Proof.
  intros Hm Hc Hv. destruct (norm_loop_ok m dig Hm Hc 0 ltac:(lia)) as (dig' & c' & E & Hw & Hl & Hc' & Hv').
  pose proof (lval_range _ Hw) as Hr. pose proof (B_pow_pos (Z.of_nat (length dig)) ltac:(lia)) as Hp.
  assert (c' = 0) as -> by nia. exists dig'. split_and!; try done. lia.
Qed.

Lemma wf_cells dig : wf_digits dig -> cells_le 1 dig.
Proof. intros H. eapply Forall_impl; [exact H|]. unfold B, DECIMAL_NBASE. simpl. lia. Qed.

Lemma cells_mono m n dig : m <= n -> cells_le m dig -> cells_le n dig.
Proof. intros. eapply Forall_impl; [done|]. simpl. lia. Qed.

Lemma add_multiple_ok x m ys : forall dig,
  wf_digits ys -> cells_le m dig -> (length ys <= length dig)%nat ->
  0 <= x -> 0 <= m -> m + x <= 214769 ->
  cells_le (m + x) (add_multiple x ys dig) /\ length (add_multiple x ys dig) = length dig /\
  lval (add_multiple x ys dig) = lval dig + x * lval ys.
Proof.
  induction ys as [|y ys IH]; intros dig Hy Hd Hl Hx Hm Hb.
  { simpl. split_and!; [|done|lia]. eapply cells_mono; [|done]. lia. }
  destruct dig as [|c dig]; [simpl in Hl; lia|]. cbn [add_multiple].
  apply Forall_cons in Hy as [Hy0 Hy], Hd as [Hc Hd]. simpl in Hl.
  assert (0 <= x * y <= x * 9999) by (unfold B, DECIMAL_NBASE in *; nia).
  rewrite i32_fits by (unfold INT_MAX; lia).
  destruct (IH dig Hy Hd ltac:(lia) Hx Hm Hb) as (IH1 & IH2 & IH3).
  split_and!; [constructor; [lia|done]|simpl; lia|cbn [lval]; lia].
Qed.

Lemma add_multiple_at_ok off x m ys dig :
  wf_digits ys -> cells_le m dig -> (off + length ys <= length dig)%nat ->
  0 <= x -> 0 <= m -> m + x <= 214769 ->
  cells_le (m + x) (add_multiple_at off x ys dig) /\
  length (add_multiple_at off x ys dig) = length dig /\
  lval (add_multiple_at off x ys dig) = lval dig + B ^ Z.of_nat off * (x * lval ys).
Proof.
  intros Hy Hd Hl Hx Hm Hb. unfold add_multiple_at.
  destruct (add_multiple_ok x m ys (drop off dig) Hy) as (H1 & H2 & H3); try done.
  { by apply Forall_drop. }
  { rewrite length_drop. lia. }
  rewrite length_app, H2, length_take, length_drop, lval_app, H3, length_take. split_and!.
  - apply Forall_app. split; [|done]. apply Forall_take. eapply cells_mono; [|done]. lia.
  - lia.
  - rewrite Nat.min_l by lia. rewrite <- (take_drop off dig) at 3.
    rewrite lval_app, length_take, Nat.min_l by lia. lia.
Qed.

Lemma step_bound off n v x r :
  0 <= v < B ^ Z.of_nat (off + n) -> 0 <= x < B -> 0 <= r < B ^ Z.of_nat n ->
  0 <= v + B ^ Z.of_nat off * (x * r) < B ^ Z.of_nat (S off + n).
Proof.
  intros Hv Hx Hr. rewrite Nat2Z.inj_add in *. rewrite Nat2Z.inj_succ in *.
  replace (Z.succ (Z.of_nat off) + Z.of_nat n) with (Z.of_nat off + Z.of_nat n + 1) by lia.
  rewrite B_pow_succ by lia. rewrite Z.pow_add_r in * by lia.
  set (a := B ^ Z.of_nat off) in *. set (b := B ^ Z.of_nat n) in *.
  assert (0 < a) by (apply B_pow_pos; lia).
  assert (0 <= x * r <= (B - 1) * b) by (unfold B, DECIMAL_NBASE in *; nia).
  assert (0 <= a * (x * r) <= a * ((B - 1) * b)) by nia. lia.
Qed.

(** The loop over the digits of the left factor. *)
Lemma mul_loop_ok ls : forall off rs maxdig dig,
  wf_digits ls -> wf_digits rs -> (off + length ls + length rs <= length dig)%nat ->
  cells_le maxdig dig -> 0 <= maxdig <= 214769 -> headroom ls maxdig = true ->
  0 <= lval dig < B ^ Z.of_nat (off + length rs) ->
  exists dig' m, mul_loop ls off rs maxdig dig = Some dig' /\ length dig' = length dig /\
    0 <= m <= SAFE /\ cells_le m dig' /\
    lval dig' = lval dig + B ^ Z.of_nat off * (lval ls * lval rs).
Proof.
  induction ls as [|x ls IH]; intros off rs maxdig dig Hl Hr Hlen Hc Hm Hh Hv.
  { simpl in Hh. exists dig, maxdig. apply Z.leb_le in Hh. cbn. split_and!; try done; lia. }
  apply Forall_cons in Hl as [Hx Hl]. pose proof (lval_range _ Hr) as Hrr.
  cbn [mul_loop headroom lval] in *. simpl in Hlen.
  assert (B ^ Z.of_nat (S off) = B * B ^ Z.of_nat off) as Epow
    by (rewrite Nat2Z.inj_succ, <- Z.add_1_r, B_pow_succ by lia; done).
  change (Z.quot INT_MAX (DECIMAL_NBASE - 1)) with 214769 in *.
  assert (forall m dig1, cells_le m dig1 -> 0 <= m -> m + x <= 214769 -> length dig1 = length dig ->
    lval dig1 = lval dig -> headroom ls (m + x) = true ->
    exists dig' m', mul_loop ls (S off) rs (m + x) (add_multiple_at off x rs dig1) = Some dig' /\
      length dig' = length dig /\ 0 <= m' <= SAFE /\ cells_le m' dig' /\
      lval dig' = lval dig + B ^ Z.of_nat off * ((x + B * lval ls) * lval rs)) as Hstep.
  { intros m dig1 Hc1 Hm1 Hmx Hl1 Hv1 Hh1.
    destruct (add_multiple_at_ok off x m rs dig1) as (A1 & A2 & A3); try done; [lia|lia|].
    destruct (IH (S off) rs (m + x) (add_multiple_at off x rs dig1)) as (dig' & m' & E & L & M & C & V);
      try done; [lia|lia|rewrite A3, Hv1; by apply step_bound|].
    exists dig', m'. split_and!; try done; try lia; rewrite ?V, ?A3, ?Hv1, ?Epow; lia. }
  destruct (Z.eqb_spec x 0) as [->|Hx0].
  - destruct (IH (S off) rs maxdig dig) as (dig' & m' & E & L & M & C & V); try done; [lia| |].
    { split; [lia|]. eapply Z.lt_le_trans; [apply Hv|]. apply B_pow_le. lia. }
    exists dig', m'. split_and!; try done; lia.
  - destruct (Z.ltb_spec 214769 (maxdig + x)).
    + apply andb_true_iff in Hh as [Hs%Z.leb_le Hh].
      destruct (norm_loop_exact maxdig dig) as (dig1 & -> & Hw1 & Hl1 & Hv1); try done; [lia| |].
      { eapply Z.lt_le_trans; [apply Hv|]. apply B_pow_le. lia. }
      cbn [negb Z.eqb]. apply Hstep; auto using wf_cells; unfold B, DECIMAL_NBASE in *; lia.
    + apply Hstep; auto; lia.
Qed.

Lemma i16_digits dig : wf_digits dig -> map i16 dig = dig.
Proof.
  induction 1 as [|x dig Hx _ IH]; [done|]. simpl. rewrite IH. f_equal.
  unfold i16, B, DECIMAL_NBASE in *. rewrite Z.mod_small; lia.
Qed.

(** The value of a product, at twice the scale of the factors. *)
Lemma product_mag k l r p :
  rscale l <= k -> rscale r <= k -> dc_weight p = dc_weight l + dc_weight r + 2 ->
  Z.of_nat (length (dc_digits p)) = dc_ndigits l + dc_ndigits r + 1 ->
  dval (dc_digits p) = dval (dc_digits l) * dval (dc_digits r) ->
  mag (2 * k) p = mag k l * mag k r.
Proof.
  intros Kl%fits_rscale Kr%fits_rscale Hw Hn Hv. unfold mag, mg, fits, dc_ndigits in *. rewrite Hv, Hw, Hn.
  replace (2 * k + (dc_weight l + dc_weight r + 2) + 1 -
    (Z.of_nat (length (dc_digits l)) + Z.of_nat (length (dc_digits r)) + 1)) with
    ((k + dc_weight l + 1 - Z.of_nat (length (dc_digits l))) +
     (k + dc_weight r + 1 - Z.of_nat (length (dc_digits r)))) by lia.
  rewrite Z.pow_add_r by lia. lia.
Qed.

(** What [mul_digits] leaves when all digits of both factors are used. *)
Lemma mul_digits_ok k l r res sign rs :
  wf_digits (dc_digits l) -> wf_digits (dc_digits r) -> rscale l <= k -> rscale r <= k ->
  0 <= k -> rs <= 8 * k -> headroom (rev (dc_digits l)) 0 = true ->
  sign = SDB_DECIMAL_POS \/ sign = SDB_DECIMAL_NEG ->
  exists d, mul_digits true true l r res (dc_ndigits l) (dc_ndigits r) (dc_ndigits l + dc_ndigits r + 1)
      sign (dc_weight l + dc_weight r + 2) rs = Some (0, d) /\
    mag (2 * k) d = nearest (10 ^ (8 * k - rs)) (mag k l * mag k r) /\
    (mag (2 * k) d <> 0 -> dc_sign d = sign) /\ finite d /\ normal d /\ dc_dscale d = rs /\
    rscale d <= 2 * k.
Proof.
  intros Wl Wr Kl Kr Hk Hrs Hh Hsg. unfold mul_digits, dc_ndigits. cbn [negb].
  set (L := dc_digits l) in *. set (R := dc_digits r) in *.
  rewrite !Nat2Z.id, !take_ge by lia.
  replace (Z.to_nat (Z.of_nat (length L) + Z.of_nat (length R) + 1))
    with (length L + length R + 1)%nat by lia.
  set (n := (length L + length R + 1)%nat).
  assert (lval (repeat 0 n) = 0) as Hz by (clear; induction n; simpl; lia).
  destruct (mul_loop_ok (rev L) 0 (rev R) 0 (repeat 0 n)) as (dig & m & -> & Hl & Hm & Hc & Hv);
    try done; try (by apply wf_rev); try lia.
  { rewrite !length_rev, repeat_length. unfold n. lia. }
  { apply Forall_forall. intros x ->%list_elem_of_In%repeat_spec. lia. }
  { rewrite Hz. split; [lia|]. apply B_pow_pos. lia. }
  rewrite Hz, <- !dval_rev, !rev_involutive in Hv. rewrite repeat_length in Hl.
  change (B ^ Z.of_nat 0) with 1 in Hv. rewrite Z.add_0_l, Z.mul_1_l in Hv.
  pose proof (dval_range _ Wl) as RL. pose proof (dval_range _ Wr) as RR. fold L in RL. fold R in RR.
  destruct (norm_loop_exact m dig) as (dig' & -> & Hw & Hl' & Hv'); try done.
  { rewrite <- dval_rev, Hv, Hl. unfold n.
    eapply Z.lt_le_trans; [|apply (B_pow_le (Z.of_nat (length L) + Z.of_nat (length R))); lia].
    rewrite Z.pow_add_r by lia. nia. }
  cbn [negb Z.eqb]. rewrite (i16_digits _ Hw).
  set (p := mkDec (-1) sign 0 (dc_weight l + dc_weight r + 2) true [0] (rev dig')).
  change (set_dc_sign _ sign) with p.
  assert (mag (2 * k) p = mag k l * mag k r) as Ep.
  { apply product_mag; try done; simpl.
    - rewrite length_rev, Hl', Hl. unfold n, dc_ndigits. fold L R. lia.
    - rewrite dval_rev, Hv', <- dval_rev, Hv. done. }
  destruct (decimal_round_ok (2 * k) rs p) as (d1 & -> & E1 & W1 & R1 & S1 & T1 & O1 & G1); try done.
  { by apply wf_rev. }
  { by exists []. }
  { unfold rscale, dc_ndigits in *. simpl. rewrite length_rev, Hl', Hl. fold L R in Kl, Kr. unfold n. lia. }
  { lia. }
  cbn [mbind option_bind negb Z.eqb]. eexists. split; [done|].
  destruct (decimal_strip_ok (2 * k) d1 O1 W1 ltac:(lia)) as (M1 & M2 & M3 & M4 & M5 & M6 & M7 & M8 & M9).
  rewrite M1, E1, Ep. replace (4 * (2 * k)) with (8 * k) by lia.
  assert (mag (2 * k) d1 <> 0 -> dc_sign (decimal_strip d1) = sign) as Hsign.
  { intros Hn. destruct M9 as [->|M9]; [|by rewrite <- M1, mag_nil in Hn].
    destruct G1 as [->|[G1 _]]; [done|]. by rewrite mag_nil in Hn. }
  split_and!; try done; [| |by rewrite M7, S1|lia].
  - rewrite E1, Ep in Hsign. by replace (4 * (2 * k)) with (8 * k) in Hsign by lia.
  - split; [|done]. destruct M9 as [->|M9]; [|left; by apply M4].
    destruct G1 as [->|[_ ->]]; [done|by left].
Qed.

Lemma mag_nonneg k d : wf_digits (dc_digits d) -> rscale d <= k -> 0 <= mag k d.
Proof. intros Hw Hk%fits_rscale. by destruct (mg_range k _ _ Hw Hk) as [_ [? _]]. Qed.

Lemma mul_signed k l r res rs :
  finite l -> finite r -> rscale l <= k -> rscale r <= k -> 0 <= k ->
  rscale l + rscale r <= 4 * rs + 2 -> rs <= 8 * k -> headroom (rev (dc_digits l)) 0 = true ->
  exists d, decimal_mul_ true true l r res rs = Some (0, d) /\
    scaled (2 * k) d = dsign l * dsign r * nearest (10 ^ (8 * k - rs)) (mag k l * mag k r) /\
    finite d /\ normal d /\ dc_dscale d = rs /\ rscale d <= 2 * k.
Proof.
  intros [Sl Wl] [Sr Wr] Kl Kr Hk Hrr Hrs Hh. unfold decimal_mul_.
  assert (0 < 10 ^ (8 * k - rs)) as Hu by (apply Z.pow_pos_nonneg; lia).
  destruct ((dc_ndigits l =? 0) || (dc_ndigits r =? 0)) eqn:Ez.
  { assert (mag k l * mag k r = 0) as ->.
    { unfold dc_ndigits in Ez. apply orb_true_iff in Ez as [Ez%Z.eqb_eq|Ez%Z.eqb_eq];
        [rewrite (mag_nil k l)|rewrite (mag_nil k r)]; try lia; apply nil_length_inv; lia. }
    pose proof (nearest_exact (10 ^ (8 * k - rs)) 0 Hu) as E0. rewrite Z.mul_0_l in E0.
    rewrite E0, Z.mul_0_r. eexists. split; [done|].
    split_and!; try done; [split; [by left|constructor]|unfold rscale, dc_ndigits; simpl; lia]. }
  unfold DECIMAL_DEC_DIGITS, DECIMAL_MUL_GUARD_DIGITS.
  rewrite (proj2 (Z.ltb_ge _ _)) by (unfold rscale in *; lia).
  destruct (mul_digits_ok k l r res
    (if dc_sign l =? dc_sign r then SDB_DECIMAL_POS else SDB_DECIMAL_NEG) rs)
    as (d & -> & Hm & Hs & Hf & Hn & Hd & Hr); try done.
  { destruct (dc_sign l =? dc_sign r); auto. }
  exists d. split; [done|]. split_and!; try done. rewrite <- Hm. unfold scaled.
  destruct (decide (mag (2 * k) d = 0)) as [->|Hnz]; [lia|]. f_equal. unfold dsign. rewrite (Hs Hnz).
  by destruct Sl as [-> | ->], Sr as [-> | ->].
Qed.

(** C18: multiplication is exact up to the rounding it asks for.  Where no
    digit of a factor lies beyond its display scale and the accumulator has
    room for the carries, the product of two numbers has the sign and the
    value of the exact product, rounded to as many decimal places as the two
    factors show together; that is the exact product when the factors are
    multiples of the places they show.  It is in normal form, and the return
    code is an error just when it is out of the bounds of a decimal. *)
Theorem decimal_mul_exact k l r res :
  finite l -> finite r -> rscale l <= k -> rscale r <= k -> 0 <= k ->
  rscale l <= dc_dscale l <= 4 * k -> rscale r <= dc_dscale r <= 4 * k ->
  0 <= dc_dscale l -> 0 <= dc_dscale r ->
  headroom (rev (dc_digits l)) 0 = true ->
  let u := 10 ^ (8 * k - (dc_dscale l + dc_dscale r)) in
  exists rc d, decimal_mul true true l r res = Some (rc, d) /\
    rc = (if decimal_is_out_of_bound d then -6 else 0) /\
    scaled (2 * k) d = dsign l * dsign r * nearest u (mag k l * mag k r) /\
    ((10 ^ (4 * k - dc_dscale l) | mag k l) -> (10 ^ (4 * k - dc_dscale r) | mag k r) ->
     scaled (2 * k) d = scaled k l * scaled k r) /\
    finite d /\ normal d /\ dc_dscale d = dc_dscale l + dc_dscale r.
Proof.
  intros Fl Fr Kl Kr Hk Dl Dr Pl Pr Hh u. unfold decimal_mul. rewrite !finite_not_special by done.
  cbn [orb]. set (rs := dc_dscale l + dc_dscale r) in *.
  destruct (mul_signed k l r res rs) as (d & E & Hv & Hf & Hn & Hd & _); try done; try (unfold rs; lia).
  rewrite E. cbn [mbind option_bind negb Z.eqb]. fold u in Hv.
  exists (if decimal_is_out_of_bound d then -6 else 0), d.
  split; [by destruct (decimal_is_out_of_bound d)|]. split_and!; try done. intros [a Ha] [b Hb].
  rewrite Hv, Ha, Hb. unfold scaled. rewrite Ha, Hb.
  assert (u = 10 ^ (4 * k - dc_dscale l) * 10 ^ (4 * k - dc_dscale r)) as Eu.
  { rewrite <- Z.pow_add_r by lia. unfold u, rs. f_equal. lia. }
  replace (a * 10 ^ (4 * k - dc_dscale l) * (b * 10 ^ (4 * k - dc_dscale r))) with (a * b * u)
    by (rewrite Eu; lia).
  rewrite nearest_exact by (apply Z.pow_pos_nonneg; unfold rs; lia). rewrite Eu. lia.
Qed.

(** 12.5 negated times 3.0625. *)
Lemma decimal_mul_exact_witness :
  exists d, decimal_mul true true dec_example1 dec_example2 decimal_init = Some (0, d) /\
    scaled 4 d = - 382812500000000000 /\ dc_digits d = [38; 2812; 5000].
Proof.
  destruct dec_examples_valid as [[F1 _] [F2 _]].
  destruct (decimal_mul_exact 2 dec_example1 dec_example2 decimal_init) as (rc & d & E & _ & Hv & _);
    [exact F1|exact F2|vm_compute; discriminate|vm_compute; discriminate|lia| | | | | |].
  1,2: split; vm_compute; discriminate.
  1,2: vm_compute; discriminate.
  { vm_compute. reflexivity. }
  exists d. change (2 * 2) with 4 in Hv. rewrite Hv. split; [|split; [vm_compute; reflexivity|]].
  - rewrite E. vm_compute in E. injection E as <- _. reflexivity.
  - vm_compute in E. injection E as _ <-. reflexivity.
Defined.

(** Two whole numbers of 89 and 120 decimal digits. *)
Definition mul_bad_left : bson_decimal :=
  mkDec (-1) SDB_DECIMAL_POS 0 22 true [0] ([1; 4790] ++ repeat 9999 21).
Definition mul_bad_right : bson_decimal := mkDec (-1) SDB_DECIMAL_POS 0 29 true [0] (repeat 9999 30).

Lemma mul_bad_finite : finite mul_bad_left /\ normal mul_bad_left /\ finite mul_bad_right /\ normal mul_bad_right.
Proof.
  split_and!; try (split; [by left|]; apply (bool_decide_unpack _); vm_compute; exact I).
  all: repeat split; vm_compute; try discriminate; done.
Qed.

(** C26: without that room the product is wrong.  There are two whole numbers
    of 89 and 120 decimal digits, in normal form and far from the bounds of a
    decimal, whose product the code gives with the return code of success and
    with a wrong value: the bound [INT_MAX / (NBASE - 1)] of the accumulator's
    cells leaves no room for the carry of the final pass, which wraps. *)
Theorem decimal_mul_overflow_wrong :
  finite mul_bad_left /\ normal mul_bad_left /\ finite mul_bad_right /\ normal mul_bad_right /\
  headroom (rev (dc_digits mul_bad_left)) 0 = false /\
  exists d, decimal_mul true true mul_bad_left mul_bad_right decimal_init = Some (0, d) /\
    scaled 0 d <> scaled 0 mul_bad_left * scaled 0 mul_bad_right.
Proof.
  destruct mul_bad_finite as (H1 & H2 & H3 & H4). split_and!; try done.
  destruct (decimal_mul true true mul_bad_left mul_bad_right decimal_init) as [[rc d]|] eqn:E;
    vm_compute in E; [|discriminate].
  injection E as <- <-. eexists. split; [done|]. vm_compute. discriminate.
Qed.
