(* ===== verification/BsonDecimalStr.v ===== *)
(** * Decimals as text (src/src/bson/common_decimal.c)

    Characters are their codes, a C string the list of those before its
    terminator. *)
From S2P Require Import Prelude.
From S2P Require Import BsonDecimal.
From S2P Require Import BsonDecimalOps.
#[local] Open Scope Z_scope.

(** ** Printing *)

Definition decimal_sprint_len (sign weight scale : Z) : Z :=
  if (SDB_DECIMAL_SPECIAL_SIGN =? sign) && (SDB_DECIMAL_SPECIAL_NAN =? scale) then 3 + 1
  else if (SDB_DECIMAL_SPECIAL_SIGN =? sign) && (SDB_DECIMAL_SPECIAL_MIN =? scale) then 3 + 1
  else if (SDB_DECIMAL_SPECIAL_SIGN =? sign) && (SDB_DECIMAL_SPECIAL_MAX =? scale) then 3 + 1
  else
    let tmpSize := (weight + 1) * DECIMAL_DEC_DIGITS in
    let tmpSize := if tmpSize <=? 0 then 1 else tmpSize in
    tmpSize + (scale + DECIMAL_DEC_DIGITS + 2).

Definition decimal_to_str_get_len (d : bson_decimal) : Z :=
  decimal_sprint_len (dc_sign d) (dc_weight d) (dc_dscale d).

(** The decimal digits of a digit in base 10000; with [putit] false the
    leading zeros are left out. *)
Definition put_digit (putit : bool) (dig : Z) : list Z :=
  let d1 := Z.quot dig 1000 in
  let dig := dig - d1 * 1000 in
  let putit1 := putit || (0 <? d1) in
  let d2 := Z.quot dig 100 in
  let dig := dig - d2 * 100 in
  let putit2 := putit1 || (0 <? d2) in
  let d3 := Z.quot dig 10 in
  let dig := dig - d3 * 10 in
  let putit3 := putit2 || (0 <? d3) in
  (if putit1 then [d1 + 48] else []) ++ (if putit2 then [d2 + 48] else []) ++
  (if putit3 then [d3 + 48] else []) ++ [dig + 48].

(** The digits from index [d] on: before the point and after it. *)
Fixpoint int_loop (n : nat) (d : Z) (digits : list Z) : list Z :=
  match n with
  | O => []
  | S n => put_digit (0 <? d) (digit_at digits d) ++ int_loop n (d + 1) digits
  end.

Fixpoint frac_loop (n : nat) (d : Z) (digits : list Z) : list Z :=
  match n with
  | O => []
  | S n => put_digit true (digit_at digits d) ++ frac_loop n (d + 1) digits
  end.

(** How often the loop [for ( i = 0; i < dscale; i += DEC_DIGITS )] runs. *)
Definition frac_groups (dscale : Z) : Z :=
  Z.quot (dscale + DECIMAL_DEC_DIGITS - 1) DECIMAL_DEC_DIGITS.

(** The return code, the string, and the number of cells of [value] that are
    written to (the digits of the last group may go past the end). *)
Definition decimal_to_str (d : bson_decimal) (value_size : Z) : Z * list Z * Z :=
  let dscale := dc_dscale d in
  if value_size <? decimal_to_str_get_len d then (-6, [], 0)
  else if decimal_is_nan d then (0, [78; 97; 78], 4)
  else if decimal_is_min d then (0, [77; 73; 78], 4)
  else if decimal_is_max d then (0, [77; 65; 88], 4)
  else
    let start :=
      (if dc_sign d =? SDB_DECIMAL_NEG then [45] else []) ++
      (if dc_weight d <? 0 then [48] else int_loop (Z.to_nat (dc_weight d + 1)) 0 (dc_digits d)) in
    if 0 <? dscale then
      let frac := frac_loop (Z.to_nat (frac_groups dscale)) (dc_weight d + 1) (dc_digits d) in
      let n := Z.to_nat dscale in
      let cells := frac ++ repeat 48 (n - length frac) in
      (0, start ++ 46 :: take n cells,
       Z.max (Z.of_nat (length start) + 1 + Z.of_nat (length cells))
             (Z.of_nat (length start) + 1 + dscale + 1))
    else (0, start, Z.of_nat (length start) + 1).

(** ** Parsing *)

Definition decimal_is_digit (value : Z) : bool := (48 <=? value) && (value <=? 57).

(** The loop over digits and the point: the digits, [dweight], [dscale] and
    what is left of the string.  [None]: -6. *)
Fixpoint scan_digits (cp : list Z) (have_dp : bool) (dweight dscale : Z)
    : option (list Z * Z * Z * list Z) :=
  match cp with
  | [] => Some ([], dweight, dscale, [])
  | c :: rest =>
      if decimal_is_digit c then
        if negb have_dp then
          if DECIMAL_MAX_DWEIGHT + DECIMAL_MAX_PRECISION <? dweight + 1 then None
          else '(ds, dw, sc, cp) ← scan_digits rest have_dp (dweight + 1) dscale;
               Some (c - 48 :: ds, dw, sc, cp)
        else
          if DECIMAL_MAX_DSCALE + DECIMAL_MAX_PRECISION <? dscale + 1 then None
          else '(ds, dw, sc, cp) ← scan_digits rest have_dp dweight (dscale + 1);
               Some (c - 48 :: ds, dw, sc, cp)
      else if c =? 46 then
        if have_dp then None else scan_digits rest true dweight dscale
      else Some ([], dweight, dscale, cp)
  end.

(** [strtoll] in base 10: white space, a sign, digits; the value saturates.
    [None]: there is no number. *)
Definition isspace (c : Z) : bool := (c =? 32) || ((9 <=? c) && (c <=? 13)).

Fixpoint skip_space (cp : list Z) : list Z :=
  match cp with
  | c :: rest => if isspace c then skip_space rest else cp
  | [] => []
  end.

Fixpoint read_number (cp : list Z) (val : Z) : Z * list Z :=
  match cp with
  | c :: rest => if decimal_is_digit c then read_number rest (val * 10 + (c - 48)) else (val, cp)
  | [] => (val, [])
  end.

Definition strtoll (cp : list Z) : option (Z * list Z) :=
  let cp := skip_space cp in
  let '(neg, cp) :=
    match cp with
    | 45 :: rest => (true, rest)
    | 43 :: rest => (false, rest)
    | _ => (false, cp)
    end in
  match cp with
  | c :: _ =>
      if decimal_is_digit c then
        let '(val, cp) := read_number cp 0 in
        let val := if neg : bool then - val else val in
        Some (Z.max (- 9223372036854775808) (Z.min 9223372036854775807 val), cp)
      else None
  | [] => None
  end.

Definition scan_exponent (dweight dscale : Z) (cp : list Z) : option (Z * Z * list Z) :=
  match cp with
  | c :: rest =>
      if (c =? 101) || (c =? 69) then
        '(exponent, cp) ← strtoll rest;
        if (DECIMAL_MAX_PRECISION <? exponent) || (exponent <? - DECIMAL_MAX_PRECISION) then None
        else
          let dscale := dscale - exponent in
          Some (dweight + exponent, if dscale <? 0 then 0 else dscale, cp)
      else Some (dweight, dscale, cp)
  | [] => Some (dweight, dscale, cp)
  end.

(** Four decimal digits at a time; [None]: a cell of [decdigits] that was not
    written. *)
Fixpoint group_digits (n : nat) (i : nat) (decdigits : list Z) : option (list Z) :=
  match n with
  | O => Some []
  | S n =>
      a ← decdigits !! i; b ← decdigits !! (i + 1)%nat;
      c ← decdigits !! (i + 2)%nat; e ← decdigits !! (i + 3)%nat;
      rest ← group_digits n (i + 4) decdigits;
      Some (((a * 10 + b) * 10 + c) * 10 + e :: rest)
  end.

Definition parse_weight (dweight : Z) : Z :=
  if 0 <=? dweight
  then Z.quot (dweight + 1 + DECIMAL_DEC_DIGITS - 1) DECIMAL_DEC_DIGITS - 1
  else - (Z.quot (- dweight - 1) DECIMAL_DEC_DIGITS + 1).

(** The letters of a special value, in either case. *)
Definition letter (c l : Z) : bool := (c =? l) || (c =? l - 32).

Definition special_str (cp : list Z) (d : bson_decimal) : option bson_decimal :=
  match cp with
  | [a; b; c] =>
      if letter a 110 && letter b 97 && letter c 110 then Some (decimal_set_nan d)
      else if letter a 109 && letter b 105 && letter c 110 then Some (decimal_set_min d)
      else if letter a 109 && letter b 97 && letter c 120 then Some (decimal_set_max d)
      else if letter a 105 && letter b 110 && letter c 102 then Some (decimal_set_max d)
      else None
  | [a; b; c; e] =>
      if (a =? 45) && letter b 105 && letter c 110 && letter e 102
      then Some (decimal_set_min d) else None
  | _ => None
  end.

(** The last part: the digits in base 10000, stripped and rounded to the
    precision the decimal has. *)
Definition convert_digits (alloc : bool) (sign dweight dscale : Z) (ddigits : list Z)
    (d : bson_decimal) : option (Z * bson_decimal) :=
  let weight := parse_weight dweight in
  let offset := (weight + 1) * DECIMAL_DEC_DIGITS - (dweight + 1) in
  let ndigits :=
    Z.quot (Z.of_nat (length ddigits) + offset + DECIMAL_DEC_DIGITS - 1) DECIMAL_DEC_DIGITS in
  if negb alloc then Some (-2, decimal_free d)
  else
    digits ← group_digits (Z.to_nat ndigits) (Z.to_nat (DECIMAL_DEC_DIGITS - offset))
               (repeat 0 4 ++ ddigits ++ repeat 0 3);
    let d := decimal_strip (mkDec (dc_typemod d) sign dscale weight true [0] digits) in
    '(rc, d) ← decimal_apply_typmod d (dc_typemod d);
    if negb (rc =? 0) then Some (rc, decimal_free d)
    else if decimal_is_out_of_bound d then Some (-6, decimal_free d)
    else Some (0, d).

(** [alloc1]: the array of decimal digits, whose allocation is not tested;
    [alloc2]: the digits of the result.  [None]: undefined behaviour. *)
Definition decimal_from_str (alloc1 alloc2 : bool) (value : list Z) (d : bson_decimal)
    : option (Z * bson_decimal) :=
  match special_str value d with
  | Some d => Some (0, d)
  | None =>
      let '(sign, cp) :=
        match value with
        | 43 :: rest => (SDB_DECIMAL_POS, rest)
        | 45 :: rest => (SDB_DECIMAL_NEG, rest)
        | _ => (SDB_DECIMAL_POS, value)
        end in
      let '(have_dp, cp) := match cp with 46 :: rest => (true, rest) | _ => (false, cp) end in
      if negb (match cp with c :: _ => decimal_is_digit c | [] => false end)
      then Some (-6, decimal_free d)
      else if negb alloc1 then None
      else
        match scan_digits cp have_dp (-1) 0 with
        | None => Some (-6, decimal_free d)
        | Some (ddigits, dweight, dscale, cp) =>
            match scan_exponent dweight dscale cp with
            | None => Some (-6, decimal_free d)
            | Some (dweight, dscale, cp) =>
                if (DECIMAL_MAX_DWEIGHT <=? dweight) || (DECIMAL_MAX_DSCALE <? dscale)
                then Some (-6, decimal_free d)
                else if negb (match cp with [] => true | _ => false end)
                then Some (-6, decimal_free d)
                else convert_digits alloc2 sign dweight dscale ddigits d
            end
        end
  end.

Definition str_example : list Z := [45; 49; 50; 51; 52; 53; 46; 48; 54; 55; 101; 45; 50].

(** -12345.067e-2 is -123.45067. *)
Example from_str_example :
  let d := mkDec (-1) SDB_DECIMAL_NEG 5 0 true [0] [123; 4506; 7000] in
  decimal_from_str true true str_example decimal_init = Some (0, d) /\
  decimal_to_str d 20 = (0, [45; 49; 50; 51; 46; 52; 53; 48; 54; 55], 13).
Proof. split; vm_compute; reflexivity. Qed.
