(* ===== verification/BsonDecimalParse.v ===== *)
(** * Decimals as text: parsing is exact *)
From S2P Require Import Prelude.
From S2P Require Import BsonDecimal.
From S2P Require Import BsonDecimalOk.
From S2P Require Import BsonDecimalAdd.
From S2P Require Import BsonDecimalOps.
From S2P Require Import BsonDecimalRound.
From S2P Require Import BsonDecimalMul.
From S2P Require Import BsonDecimalStr.
From S2P Require Import BsonDecimalStrOk.
#[local] Open Scope Z_scope.

(** ** From decimal digits to digits in base 10000 *)

Lemma group_digits_ok n : forall S pre post,
  wf_dec S -> length S = (4 * n)%nat ->
  exists g, group_digits n (length pre) (pre ++ S ++ post) = Some g /\ length g = n /\
    wf_digits g /\ dval g = tval S.
Proof.
  induction n as [|n IH]; intros S pre post Hw Hl.
  { destruct S; [|simpl in Hl; lia]. exists []. split_and!; try done. constructor. }
  destruct S as [|a [|b [|c [|e S]]]]; simpl in Hl; try lia.
  apply Forall_cons in Hw as [Ha Hw]. apply Forall_cons in Hw as [Hb Hw].
  apply Forall_cons in Hw as [Hc Hw]. apply Forall_cons in Hw as [He Hw].
  cbn [group_digits].
  assert (forall i x, [a; b; c; e] !! i = Some x ->
    (pre ++ (a :: b :: c :: e :: S) ++ post) !! (length pre + i)%nat = Some x) as Hat.
  { intros i x Hi. rewrite lookup_app_r by lia. replace (length pre + i - length pre)%nat with i by lia.
    by do 4 (destruct i as [|i]; [done|]). }
  pose proof (Hat 0%nat a eq_refl) as H0. rewrite Nat.add_0_r in H0.
  rewrite H0, (Hat 1%nat b eq_refl), (Hat 2%nat c eq_refl), (Hat 3%nat e eq_refl).
  cbn [mbind option_bind].
  destruct (IH S (pre ++ [a; b; c; e]) post Hw ltac:(lia)) as (g & E & Lg & Wg & Vg).
  rewrite length_app in E. change (length [a; b; c; e]) with 4%nat in E.
  rewrite <- app_assoc in E. change ([a; b; c; e] ++ S ++ post) with ((a :: b :: c :: e :: S) ++ post) in E.
  rewrite E. cbn [mbind option_bind]. eexists. split; [done|].
  split; [simpl; lia|]. split; [constructor; [unfold B, DECIMAL_NBASE; lia|done]|].
  cbn [dval]. change (a :: b :: c :: e :: S) with ([a; b; c; e] ++ S).
  rewrite tval_app, tval_four, Vg, Lg. replace (Z.of_nat (length S)) with (4 * Z.of_nat n) by lia.
  by rewrite pow10_B by lia.
Qed.

Lemma parse_weight_bounds dw : 0 <= (parse_weight dw + 1) * 4 - (dw + 1) <= 3.
Proof.
  unfold parse_weight, DECIMAL_DEC_DIGITS. destruct (Z.leb_spec 0 dw);
    rewrite Z.quot_div_nonneg by lia;
    [pose proof (Z.div_mod (dw + 1 + 4 - 1) 4); pose proof (Z.mod_pos_bound (dw + 1 + 4 - 1) 4)|
     pose proof (Z.div_mod (- dw - 1) 4); pose proof (Z.mod_pos_bound (- dw - 1) 4)]; lia.
Qed.

Lemma strip_weight_le d : dc_weight (decimal_strip d) <= Z.max 0 (dc_weight d).
Proof.
  unfold decimal_strip. destruct (dc_isOwn d); simpl; [|lia].
  destruct (strip_leading_spec (dc_digits d) (dc_head d) (dc_weight d)) as (z & _ & _ & E & _).
  destruct (strip_leading _ _ _) as [[h ds] w]. simpl in E.
  destruct (strip_trailing ds); simpl; lia.
Qed.

(** Stripping leaves a free cell in front where there was one. *)
Lemma strip_spare d : spare d -> spare (decimal_strip d).
Proof.
  intros [h Hh]. unfold decimal_strip. destruct (dc_isOwn d); [|by exists h]. cbn [negb].
  destruct (strip_leading_spec (dc_digits d) (dc_head d) (dc_weight d)) as (z & _ & E & _).
  destruct (strip_leading _ _ _) as [[hd ds] w]. simpl in E. subst hd.
  assert (exists h', dc_head d ++ repeat 0 z = h' ++ [0]) as [h' Eh].
  { destruct z as [|z]; [exists h; by rewrite app_nil_r|]. exists (dc_head d ++ repeat 0 z).
    by rewrite <- app_assoc, <- repeat_cons. }
  destruct (strip_trailing ds); exists h'; exact Eh.
Qed.

(** The digits [D], the first with weight [10 ^ dw]. *)
Lemma convert_digits_ok k sign dw dscale D d :
  wf_dec D -> dc_typemod d = -1 -> sign = SDB_DECIMAL_POS \/ sign = SDB_DECIMAL_NEG ->
  dw < DECIMAL_MAX_DWEIGHT -> 0 <= dscale <= DECIMAL_MAX_DSCALE -> 0 <= k ->
  Z.of_nat (length D) - (dw + 1) <= 4 * k ->
  exists d', convert_digits true sign dw dscale D d = Some (0, d') /\
    mag k d' = tval D * 10 ^ (4 * k - (Z.of_nat (length D) - (dw + 1))) /\
    (mag k d' <> 0 -> dc_sign d' = sign) /\ finite d' /\ normal d' /\ rscale d' <= k /\
    dc_dscale d' = dscale /\ dc_typemod d' = -1 /\ dc_isOwn d' = true /\ spare d'.
Proof.
  intros Hw Ht Hsg Hdw Hds Hk HDk. unfold convert_digits. cbn [negb]. unfold DECIMAL_DEC_DIGITS.
  pose proof (parse_weight_bounds dw) as Ho. set (w := parse_weight dw) in *.
  set (off := (w + 1) * 4 - (dw + 1)) in *.
  rewrite Z.quot_div_nonneg by lia.
  pose proof (Z.div_mod (Z.of_nat (length D) + off + 4 - 1) 4 ltac:(lia)) as Edm.
  pose proof (Z.mod_pos_bound (Z.of_nat (length D) + off + 4 - 1) 4 ltac:(lia)) as Hm.
  set (n := (Z.of_nat (length D) + off + 4 - 1) / 4) in *.
  set (pad := Z.to_nat (4 * n - off - Z.of_nat (length D))).
  assert (repeat 0 4 ++ D ++ repeat 0 3 =
    repeat 0 (Z.to_nat (4 - off)) ++ (repeat 0 (Z.to_nat off) ++ D ++ repeat 0 pad) ++ repeat 0 (3 - pad)) as ->.
  { rewrite !app_assoc, <- repeat_app. rewrite <- !app_assoc, <- repeat_app.
    f_equal; [f_equal; lia|]. f_equal. f_equal. unfold pad. lia. }
  destruct (group_digits_ok (Z.to_nat n) (repeat 0 (Z.to_nat off) ++ D ++ repeat 0 pad)
    (repeat 0 (Z.to_nat (4 - off))) (repeat 0 (3 - pad))) as (g & Eg & Lg & Wg & Vg).
  { assert (forall m, wf_dec (repeat 0 m)) as Hz
      by (intros m; apply Forall_forall; intros x ->%list_elem_of_In%repeat_spec; lia).
    apply Forall_app; split; [apply Hz|]. apply Forall_app; split; [done|apply Hz]. }
  { rewrite !length_app, !repeat_length. unfold pad. lia. }
  rewrite repeat_length in Eg. rewrite Eg. cbn [mbind option_bind].
  rewrite tval_app, tval_zeros, tval_app, tval_zeros, repeat_length in Vg.
  rewrite Z.mul_0_l, Z.add_0_l, Z.add_0_r in Vg.
  set (d0 := mkDec (dc_typemod d) sign dscale w true [0] g).
  assert (rscale d0 <= k) as Hr by (unfold rscale, dc_ndigits; simpl; rewrite Lg; lia).
  destruct (decimal_strip_ok k d0 eq_refl Wg Hr) as (M1 & M2 & M3 & M4 & M5 & M6 & M7 & M8 & M9).
  assert (dc_typemod (decimal_strip d0) = -1) as Ht1 by (rewrite M8; exact Ht).
  rewrite Ht1. unfold decimal_apply_typmod. change (-1 =? -1) with true.
  cbn [mbind option_bind negb Z.eqb].
  assert (decimal_is_out_of_bound (decimal_strip d0) = false) as ->.
  { unfold decimal_is_out_of_bound. pose proof (strip_weight_le d0) as Hwt. rewrite M7.
    unfold d0 in *. simpl in *. unfold DECIMAL_MAX_DWEIGHT, DECIMAL_MAX_WEIGHT in *.
    apply orb_false_iff. split; [apply Z.leb_gt|apply Z.ltb_ge]; lia. }
  exists (decimal_strip d0). split; [done|]. split_and!; try done; try lia.
  - rewrite M1. unfold mag, mg. simpl. rewrite Vg, Lg, <- Z.mul_assoc, <- pow10_B, <- Z.pow_add_r
      by (unfold rscale, dc_ndigits in Hr; simpl in Hr; lia).
    f_equal. f_equal. unfold pad. lia.
  - intros Hnz. destruct M9 as [->|M9]; [done|]. by rewrite mag_nil in Hnz.
  - split; [|done]. destruct M9 as [->|M9]; [done|]. left. by apply M4.
  - apply strip_spare. by exists [].
Qed.

(** ** Numerals: the texts that are numbers *)

Record numeral := mkNumeral {
  nu_sign : option bool;                            (* [Some true]: a minus *)
  nu_int : list Z;
  nu_frac : option (list Z);                        (* [Some]: there is a point *)
  nu_exp : option (Z * list Z * option bool * list Z)  (* the letter, spaces, a sign, digits *)
}.

Definition sgn_text (s : option bool) : list Z :=
  match s with None => [] | Some true => [45] | Some false => [43] end.

Definition exp_text (e : option (Z * list Z * option bool * list Z)) : list Z :=
  match e with None => [] | Some (c, sp, s, E) => c :: sp ++ sgn_text s ++ chars E end.

Definition frac_text (f : option (list Z)) : list Z :=
  match f with None => [] | Some F => 46 :: chars F end.

Definition numeral_text (n : numeral) : list Z :=
  sgn_text (nu_sign n) ++ chars (nu_int n) ++ frac_text (nu_frac n) ++ exp_text (nu_exp n).

Definition sgn (s : option bool) : Z := match s with Some true => -1 | _ => 1 end.

Definition nu_digits (n : numeral) : list Z := nu_int n ++ default [] (nu_frac n).

Definition nu_exponent (n : numeral) : Z :=
  match nu_exp n with None => 0 | Some (_, _, s, E) => sgn s * tval E end.

(** The places after the point. *)
Definition nu_places (n : numeral) : Z :=
  Z.of_nat (length (default [] (nu_frac n))) - nu_exponent n.

Definition numeral_ok (n : numeral) : Prop :=
  wf_dec (nu_digits n) /\ nu_digits n <> [] /\
  match nu_exp n with
  | None => True
  | Some (c, sp, s, E) =>
      (c = 101 \/ c = 69) /\ Forall (fun x => isspace x = true) sp /\ wf_dec E /\ E <> []
  end.

(** The limits of the parser. *)
Definition numeral_bounded (n : numeral) : Prop :=
  Z.abs (nu_exponent n) <= DECIMAL_MAX_PRECISION /\
  Z.of_nat (length (nu_int n)) <= DECIMAL_MAX_DWEIGHT + DECIMAL_MAX_PRECISION + 1 /\
  Z.of_nat (length (nu_int n)) + nu_exponent n <= DECIMAL_MAX_DWEIGHT /\
  Z.of_nat (length (default [] (nu_frac n))) <= DECIMAL_MAX_DSCALE + DECIMAL_MAX_PRECISION /\
  nu_places n <= DECIMAL_MAX_DSCALE.

(** ** Reading a numeral *)

Lemma is_digit_char x : 0 <= x <= 9 -> decimal_is_digit (x + 48) = true.
Proof. intros. unfold decimal_is_digit. apply andb_true_iff. split; apply Z.leb_le; lia. Qed.

Definition stops (cp : list Z) : Prop :=
  match cp with [] => True | c :: _ => decimal_is_digit c = false /\ c <> 46 end.

Lemma scan_stops cp dp dw sc : stops cp -> scan_digits cp dp dw sc = Some ([], dw, sc, cp).
Proof.
  destruct cp as [|c cp]; [done|]. intros [H1 H2]. cbn [scan_digits]. rewrite H1.
  by destruct (Z.eqb_spec c 46).
Qed.

Lemma scan_frac F : forall dw sc rest,
  wf_dec F -> stops rest -> sc + Z.of_nat (length F) <= DECIMAL_MAX_DSCALE + DECIMAL_MAX_PRECISION ->
  scan_digits (chars F ++ rest) true dw sc = Some (F, dw, sc + Z.of_nat (length F), rest).
Proof.
  induction F as [|x F IH]; intros dw sc rest Hw Hr Hb.
  { cbn [map app length]. change (Z.of_nat 0) with 0. rewrite Z.add_0_r. by apply scan_stops. }
  apply Forall_cons in Hw as [Hx Hw]. cbn [map app scan_digits length] in *.
  rewrite is_digit_char by done. cbn [negb]. rewrite (proj2 (Z.ltb_ge _ _)) by lia.
  rewrite IH by (try done; lia). cbn [mbind option_bind].
  replace (sc + 1 + Z.of_nat (length F)) with (sc + Z.of_nat (S (length F))) by lia.
  by replace (x + 48 - 48) with x by lia.
Qed.

Lemma scan_int I : forall dw sc rest,
  wf_dec I -> dw + Z.of_nat (length I) <= DECIMAL_MAX_DWEIGHT + DECIMAL_MAX_PRECISION ->
  scan_digits (chars I ++ rest) false dw sc =
  '(ds, dw', sc', cp) ← scan_digits rest false (dw + Z.of_nat (length I)) sc;
  Some (I ++ ds, dw', sc', cp).
Proof.
  induction I as [|x I IH]; intros dw sc rest Hw Hb.
  { simpl. rewrite Z.add_0_r. by destruct (scan_digits rest false dw sc) as [[[[ds ?] ?] ?]|]. }
  apply Forall_cons in Hw as [Hx Hw]. cbn [map app scan_digits length] in *.
  rewrite is_digit_char by done. cbn [negb]. rewrite (proj2 (Z.ltb_ge _ _)) by lia.
  rewrite IH by (try done; lia).
  replace (dw + 1 + Z.of_nat (length I)) with (dw + Z.of_nat (S (length I))) by lia.
  destruct (scan_digits rest false _ sc) as [[[[ds ?] ?] ?]|]; [|done]. cbn [mbind option_bind].
  by replace (x + 48 - 48) with x by lia.
Qed.

Lemma exp_text_stops e :
  match e with None => True | Some (c, _, _, _) => c = 101 \/ c = 69 end -> stops (exp_text e).
Proof. destruct e as [[[[c sp] s] E]|]; [|done]. by intros [-> | ->]. Qed.

(** The loop over a whole numeral, the sign apart. *)
Lemma scan_numeral n :
  numeral_ok n -> numeral_bounded n ->
  scan_digits (chars (nu_int n) ++ frac_text (nu_frac n) ++ exp_text (nu_exp n)) false (-1) 0 =
  Some (nu_digits n, -1 + Z.of_nat (length (nu_int n)),
        Z.of_nat (length (default [] (nu_frac n))), exp_text (nu_exp n)).
Proof.
  intros (Hw & _ & He) (_ & B1 & _ & B2 & _). unfold nu_digits in *. apply Forall_app in Hw as [WI WF].
  assert (stops (exp_text (nu_exp n))) as Hst
    by (apply exp_text_stops; destruct (nu_exp n) as [[[[c sp] s] E]|]; [by destruct He|done]).
  rewrite scan_int by (try done; lia). destruct (nu_frac n) as [F|]; cbn [frac_text default from_option id] in *.
  - cbn [app scan_digits decimal_is_digit]. change (decimal_is_digit 46) with false.
    rewrite Z.eqb_refl, scan_frac by (try done; lia). done.
  - rewrite app_nil_l, scan_stops by done. cbn [mbind option_bind]. by rewrite Z.add_0_l || done.
Qed.

Lemma read_number_ok E : forall v,
  wf_dec E -> read_number (chars E) v = (v * 10 ^ Z.of_nat (length E) + tval E, []).
Proof.
  induction E as [|x E IH]; intros v Hw; cbn [map read_number length tval].
  { change (10 ^ Z.of_nat 0) with 1. f_equal. lia. }
  apply Forall_cons in Hw as [Hx Hw]. rewrite is_digit_char by done. rewrite IH by done. f_equal.
  rewrite Nat2Z.inj_succ, Z.pow_succ_r by lia. lia.
Qed.

Lemma char_cases x (P : Z -> Prop) :
  0 <= x <= 9 ->
  P 48 -> P 49 -> P 50 -> P 51 -> P 52 -> P 53 -> P 54 -> P 55 -> P 56 -> P 57 -> P (x + 48).
Proof.
  intros. assert (x = 0 \/ x = 1 \/ x = 2 \/ x = 3 \/ x = 4 \/ x = 5 \/ x = 6 \/ x = 7 \/ x = 8 \/ x = 9)
    as Hc by lia. by repeat destruct Hc as [-> |Hc]; [..|subst x].
Qed.

Lemma skip_space_app sp l :
  Forall (fun x => isspace x = true) sp -> skip_space (sp ++ l) = skip_space l.
Proof. induction 1 as [|x sp Hx _ IH]; [done|]. cbn [app skip_space]. by rewrite Hx. Qed.

Lemma strtoll_ok sp s E :
  Forall (fun x => isspace x = true) sp -> wf_dec E -> E <> [] -> Z.abs (sgn s * tval E) <= DECIMAL_MAX_PRECISION ->
  strtoll (sp ++ sgn_text s ++ chars E) = Some (sgn s * tval E, []).
Proof.
  intros Hsp Hw Hne Hb. destruct E as [|x E]; [done|]. pose proof Hw as [Hx _]%Forall_cons.
  assert (strtoll (sp ++ sgn_text s ++ chars (x :: E)) =
    (let '(val, cp) := read_number (chars (x :: E)) 0 in
     let val := if (match s with Some true => true | _ => false end) then - val else val in
     Some (Z.max (- 9223372036854775808) (Z.min 9223372036854775807 val), cp))) as ->.
  { unfold strtoll. rewrite skip_space_app by done. cbn [map]. pattern (x + 48). apply char_cases; [done|..]; by destruct s as [[]|]. }
  rewrite read_number_ok by done. rewrite Z.mul_0_l, Z.add_0_l.
  pose proof (tval_range _ Hw). unfold DECIMAL_MAX_PRECISION in Hb. cbv zeta.
  destruct s as [[]|]; cbn [sgn] in *; do 2 f_equal; lia.
Qed.

Lemma scan_exponent_ok n dw sc :
  numeral_ok n -> numeral_bounded n ->
  scan_exponent dw sc (exp_text (nu_exp n)) =
  Some (dw + nu_exponent n,
        match nu_exp n with None => sc | _ => Z.max 0 (sc - nu_exponent n) end, []).
Proof.
  intros (_ & _ & He) (B0 & _). unfold nu_exponent in *.
  destruct (nu_exp n) as [[[[c sp] s] E]|]; cbn [exp_text scan_exponent].
  2:{ by rewrite Z.add_0_r. }
  destruct He as (Hc & Hsp & HE & Hn). assert ((c =? 101) || (c =? 69) = true) as ->
    by (by destruct Hc as [-> | ->]).
  rewrite strtoll_ok by done. cbn [mbind option_bind].
  assert ((DECIMAL_MAX_PRECISION <? sgn s * tval E) || (sgn s * tval E <? - DECIMAL_MAX_PRECISION) = false) as ->
    by (apply orb_false_iff; split; apply Z.ltb_ge; lia).
  destruct (Z.ltb_spec (sc - sgn s * tval E) 0); do 3 f_equal; lia.
Qed.

(** The text of a numeral is not that of a special value. *)
Lemma numeral_not_special s x l d : 0 <= x <= 9 -> special_str (sgn_text s ++ x + 48 :: l) d = None.
Proof.
  intros Hx. pattern (x + 48). apply char_cases; [done|..];
    destruct s as [[]|]; destruct l as [|? [|? [|? [|? ?]]]]; done.
Qed.

Lemma point_not_special s l d : special_str (sgn_text s ++ 46 :: l) d = None.
Proof. destruct s as [[]|]; destruct l as [|? [|? [|? [|? ?]]]]; done. Qed.

(** What [decimal_from_str] does once the digits have been read. *)
Definition after_scan (alloc : bool) (sign : Z) (d : bson_decimal) (r : option (list Z * Z * Z * list Z))
    : option (Z * bson_decimal) :=
  match r with
  | None => Some (-6, decimal_free d)
  | Some (ddigits, dweight, dscale, cp) =>
      match scan_exponent dweight dscale cp with
      | None => Some (-6, decimal_free d)
      | Some (dweight, dscale, cp) =>
          if (DECIMAL_MAX_DWEIGHT <=? dweight) || (DECIMAL_MAX_DSCALE <? dscale)
          then Some (-6, decimal_free d)
          else if negb (match cp with [] => true | _ => false end)
          then Some (-6, decimal_free d)
          else convert_digits alloc sign dweight dscale ddigits d
      end
  end.

Definition sign_of (s : option bool) : Z :=
  match s with Some true => SDB_DECIMAL_NEG | _ => SDB_DECIMAL_POS end.

Lemma from_str_digit s x l d a :
  0 <= x <= 9 ->
  decimal_from_str true a (sgn_text s ++ x + 48 :: l) d =
  after_scan a (sign_of s) d (scan_digits (x + 48 :: l) false (-1) 0).
Proof.
  intros Hx. unfold decimal_from_str. rewrite numeral_not_special by done.
  pattern (x + 48). apply char_cases; [done|..]; by destruct s as [[]|].
Qed.

Lemma from_str_point s x l d a :
  0 <= x <= 9 ->
  decimal_from_str true a (sgn_text s ++ 46 :: x + 48 :: l) d =
  after_scan a (sign_of s) d (scan_digits (46 :: x + 48 :: l) false (-1) 0).
Proof.
  intros Hx. unfold decimal_from_str. rewrite point_not_special.
  pattern (x + 48). apply char_cases; [done|..]; by destruct s as [[]|].
Qed.

Lemma from_str_numeral n d a :
  numeral_ok n ->
  decimal_from_str true a (numeral_text n) d =
  after_scan a (sign_of (nu_sign n)) d
    (scan_digits (chars (nu_int n) ++ frac_text (nu_frac n) ++ exp_text (nu_exp n)) false (-1) 0).
Proof.
  intros (Hw & Hne & _). unfold numeral_text, nu_digits in *.
  destruct (nu_int n) as [|x I].
  - destruct (nu_frac n) as [[|x F]|]; [done| |done]. apply Forall_cons in Hw as [Hx _].
    by apply from_str_point.
  - apply Forall_cons in Hw as [Hx _]. by apply from_str_digit.
Qed.

(** Reading a numeral is exact. *)
Lemma from_str_ok k n d :
  numeral_ok n -> numeral_bounded n -> dc_typemod d = -1 -> 0 <= k -> nu_places n <= 4 * k ->
  exists d', decimal_from_str true true (numeral_text n) d = Some (0, d') /\
    scaled k d' = sgn (nu_sign n) * tval (nu_digits n) * 10 ^ (4 * k - nu_places n) /\
    finite d' /\ normal d' /\ rscale d' <= k /\ dc_dscale d' = Z.max 0 (nu_places n) /\
    dc_typemod d' = -1 /\ dc_isOwn d' = true /\ spare d'.
Proof.
  intros Hok Hb Ht Hk Hp. rewrite from_str_numeral, scan_numeral by done. unfold after_scan.
  rewrite scan_exponent_ok by done. pose proof Hok as (Hw & _). destruct Hb as (B0 & B1 & B2 & B3 & B4).
  set (I := nu_int n) in *. set (F := default [] (nu_frac n)) in *.
  assert (match nu_exp n with None => Z.of_nat (length F) | _ => Z.max 0 (Z.of_nat (length F) - nu_exponent n) end
    = Z.max 0 (nu_places n)) as ->.
  { unfold nu_places, nu_exponent. fold F. destruct (nu_exp n) as [[[[c sp] s] E]|]; lia. }
  assert (nu_places n = Z.of_nat (length F) - nu_exponent n) as Epl by done.
  rewrite (proj2 (Z.leb_gt _ _)) by lia. rewrite (proj2 (Z.ltb_ge _ _)) by (unfold DECIMAL_MAX_DSCALE in *; lia).
  cbn [orb negb].
  destruct (convert_digits_ok k (sign_of (nu_sign n)) (-1 + Z.of_nat (length I) + nu_exponent n)
    (Z.max 0 (nu_places n)) (nu_digits n) d) as (d' & -> & V & S & Fi & N & R & D & T & O & Sp); try done.
  { unfold sign_of. destruct (nu_sign n) as [[]|]; auto. }
  { lia. }
  { unfold DECIMAL_MAX_DSCALE in *. lia. }
  { unfold nu_digits. fold I F. rewrite length_app. lia. }
  exists d'. split; [done|]. split_and!; try done. unfold scaled.
  replace (4 * k - nu_places n)
    with (4 * k - (Z.of_nat (length (nu_digits n)) - (-1 + Z.of_nat (length I) + nu_exponent n + 1)))
    by (unfold nu_digits; fold I F; rewrite length_app; lia).
  rewrite <- Z.mul_assoc, <- V. destruct (decide (mag k d' = 0)) as [->|Hnz]; [lia|].
  f_equal. unfold dsign. rewrite (S Hnz). unfold sign_of, sgn. by destruct (nu_sign n) as [[]|].
Qed.
