(* ===== verification/BsonDecimalText.v ===== *)
(** * Decimals as text: the normal form is unique, and printing and parsing
    are inverse *)
From S2P Require Import Prelude.
From S2P Require Import BsonDecimal.
From S2P Require Import BsonDecimalOk.
From S2P Require Import BsonDecimalAdd.
From S2P Require Import BsonDecimalOps.
From S2P Require Import BsonDecimalRound.
From S2P Require Import BsonDecimalMul.
From S2P Require Import BsonDecimalStr.
From S2P Require Import BsonDecimalStrOk.
From S2P Require Import BsonDecimalParse.
#[local] Open Scope Z_scope.

(** ** The normal form is unique *)

Lemma dval_inj a : forall b,
  wf_digits a -> wf_digits b -> length a = length b -> dval a = dval b -> a = b.
Proof.
  induction a as [|x a IH]; intros [|y b] Ha Hb Hl Hv; try done.
  apply Forall_cons in Ha as [Hx Ha], Hb as [Hy Hb]. simpl in Hl, Hv. injection Hl as Hl. rewrite Hl in Hv.
  pose proof (dval_range _ Ha) as Ra. pose proof (dval_range _ Hb) as Rb. rewrite Hl in Ra.
  pose proof (B_pow_pos (Z.of_nat (length b)) ltac:(lia)).
  assert (x = y) as -> by nia. f_equal. apply IH; try done. lia.
Qed.

Lemma last_mod l : l <> [] -> List.last l 1 <> 0 -> wf_digits l -> dval l mod B <> 0.
Proof.
  intros Hn. destruct (exists_last Hn) as (m & x & ->). rewrite last_last. intros Hx Hw.
  apply Forall_app in Hw as [_ Hw]. apply Forall_cons in Hw as [Hr _].
  rewrite dval_app. change (Z.of_nat (length [x])) with 1. change (dval [x]) with (x * 1 + 0).
  rewrite Z.pow_1_r, Z.add_comm, Z.mod_add by (unfold B, DECIMAL_NBASE; lia).
  rewrite Z.mod_small by lia. lia.
Qed.

Lemma first_bound l :
  l <> [] -> hd 1 l <> 0 -> wf_digits l -> B ^ (Z.of_nat (length l) - 1) <= dval l.
Proof.
  destruct l as [|x l]; [done|]. intros _ Hx Hw. apply Forall_cons in Hw as [Hr Hw].
  simpl in Hx. cbn [dval length]. replace (Z.of_nat (S (length l)) - 1) with (Z.of_nat (length l)) by lia.
  pose proof (dval_range _ Hw). pose proof (B_pow_pos (Z.of_nat (length l)) ltac:(lia)). nia.
Qed.

Lemma B_pow_lt_inv m n : 0 <= n -> B ^ m < B ^ n -> m < n.
Proof.
  intros Hn Hlt. destruct (Z.lt_ge_cases m n) as [|Hge]; [done|]. exfalso.
  pose proof (B_pow_le n m ltac:(lia)). lia.
Qed.

Lemma length_unique a b :
  a <> [] -> b <> [] -> hd 1 a <> 0 -> hd 1 b <> 0 -> wf_digits a -> wf_digits b ->
  dval a = dval b -> length a = length b.
Proof.
  intros Za Zb Ha Hb Wa Wb E.
  assert (forall a b, a <> [] -> hd 1 a <> 0 -> wf_digits a -> wf_digits b -> dval a = dval b ->
    Z.of_nat (length a) - 1 < Z.of_nat (length b)) as H.
  { clear. intros a b Za Ha Wa Wb E. apply B_pow_lt_inv; [apply Nat2Z.is_nonneg|].
    eapply Z.le_lt_trans; [by apply first_bound|]. rewrite E. by apply dval_range. }
  pose proof (H a b Za Ha Wa Wb E) as H1. pose proof (H b a Zb Hb Wb Wa (eq_sym E)) as H2.
  clear -H1 H2. lia.
Qed.

(** Equal products have equal powers when neither factor is divisible by the
    base. *)
Lemma scale_unique a b e1 e2 :
  0 <= e1 -> 0 <= e2 -> a mod B <> 0 -> b mod B <> 0 -> a * B ^ e1 = b * B ^ e2 -> e1 = e2.
Proof.
  assert (forall a b e1 e2, 0 <= e1 -> e1 < e2 -> a mod B <> 0 -> a * B ^ e1 = b * B ^ e2 -> False) as Hlt.
  { clear. intros a b e1 e2 H1 H2 Ha E. apply Ha.
    replace e2 with (e1 + 1 + (e2 - e1 - 1)) in E by lia.
    rewrite !Z.pow_add_r, Z.pow_1_r in E by lia. pose proof (B_pow_pos e1 H1).
    assert (a = b * B ^ (e2 - e1 - 1) * B) as -> by nia. apply Z.mod_mul. unfold B, DECIMAL_NBASE. lia. }
  intros H1 H2 Ha Hb E. destruct (Z.lt_trichotomy e1 e2) as [H|[H|H]]; [|done|];
    exfalso; [by apply (Hlt a b e1 e2)|by apply (Hlt b a e2 e1)].
Qed.

Lemma mag_unique k a b :
  wf_digits (dc_digits a) -> wf_digits (dc_digits b) -> normal a -> normal b ->
  rscale a <= k -> rscale b <= k -> mag k a = mag k b ->
  dc_digits a = dc_digits b /\ dc_weight a = dc_weight b.
Proof.
  intros Wa Wb Na Nb Ka Kb E.
  destruct (decide (dc_digits a = [])) as [Za|Za], (decide (dc_digits b = [])) as [Zb|Zb].
  - rewrite Za, Zb. destruct Na as (_ & _ & Na), Nb as (_ & _ & Nb).
    destruct (Na Za) as [_ ->], (Nb Zb) as [_ ->]. done.
  - pose proof (normal_pos k b Wb Nb Kb Zb). rewrite (mag_nil k a Za) in E. lia.
  - pose proof (normal_pos k a Wa Na Ka Za). rewrite (mag_nil k b Zb) in E. lia.
  - destruct Na as (Ha & La & _), Nb as (Hb & Lb & _). unfold mag, mg in E.
    apply fits_rscale in Ka, Kb. unfold fits in Ka, Kb.
    assert (k + dc_weight a + 1 - Z.of_nat (length (dc_digits a)) =
      k + dc_weight b + 1 - Z.of_nat (length (dc_digits b))) as Ee
      by (eapply scale_unique; [..|exact E]; [lia|lia|by apply last_mod|by apply last_mod]).
    rewrite Ee in E. pose proof (B_pow_pos (k + dc_weight b + 1 - Z.of_nat (length (dc_digits b))) ltac:(lia)).
    assert (dval (dc_digits a) = dval (dc_digits b)) as Ev by nia.
    pose proof (length_unique _ _ Za Zb Ha Hb Wa Wb Ev) as El.
    split; [by apply dval_inj|]. clear -Ee El. rewrite El in Ee. lia.
Qed.

Lemma scaled_unique k a b :
  finite a -> finite b -> normal a -> normal b -> rscale a <= k -> rscale b <= k ->
  scaled k a = scaled k b ->
  dc_sign a = dc_sign b /\ dc_digits a = dc_digits b /\ dc_weight a = dc_weight b.
Proof.
  intros [Sa Wa] [Sb Wb] Na Nb Ka Kb E.
  pose proof (mag_nonneg k a Wa Ka). pose proof (mag_nonneg k b Wb Kb).
  assert (mag k a = mag k b) as Em
    by (unfold scaled, dsign in E; destruct (dc_sign a =? _), (dc_sign b =? _); lia).
  destruct (mag_unique k a b Wa Wb Na Nb Ka Kb Em) as [Ed Ew]. split; [|done].
  destruct (decide (dc_digits a = [])) as [Za|Za].
  - destruct Na as (_ & _ & Na), Nb as (_ & _ & Nb). rewrite Ed in Za.
    destruct (Nb Za) as [-> _]. rewrite <- Ed in Za. by destruct (Na Za) as [-> _].
  - pose proof (normal_pos k a Wa Na Ka Za). unfold scaled, dsign in E.
    destruct Sa as [Ea|Ea], Sb as [Eb|Eb]; rewrite Ea, Eb in *; cbn in E; lia.
Qed.

(** ** Printing and parsing *)

(** The numbers a decimal can hold without losing digits when it is shown. *)
Definition printable (d : bson_decimal) : Prop :=
  special d \/
  (finite d /\ normal d /\ 0 <= dc_dscale d <= DECIMAL_MAX_DSCALE /\
   dc_weight d < DECIMAL_MAX_WEIGHT /\ shows_all d).

(** The same special value, or the same number with the same places shown. *)
Definition same_value (a b : bson_decimal) : Prop :=
  dc_sign a = dc_sign b /\ dc_dscale a = dc_dscale b /\
  (decimal_is_special a = false -> dc_weight a = dc_weight b /\ dc_digits a = dc_digits b).

Lemma special_roundtrip d size t :
  special d -> decimal_to_str_get_len d <= size ->
  exists s n d', decimal_to_str d size = (0, s, n) /\ n <= size /\
    decimal_from_str true true s t = Some (0, d') /\ same_value d d'.
Proof.
  intros [Hs Hr] Hsize.
  assert (decimal_is_special d = true) as Hsp by (unfold decimal_is_special; by rewrite Hs).
  unfold decimal_to_str. rewrite (proj2 (Z.ltb_ge _ _)) by lia.
  unfold decimal_is_nan, decimal_is_min, decimal_is_max. rewrite Hsp. cbn [andb].
  unfold decimal_to_str_get_len, decimal_sprint_len in Hsize. rewrite Hs, Z.eqb_refl in Hsize. cbn [andb] in Hsize.
  assert (dc_dscale d = 0 \/ dc_dscale d = 1 \/ dc_dscale d = 2) as [E|[E|E]] by lia;
    rewrite E in Hsize |- *; cbn in Hsize; cbn [Z.eqb];
    (eexists _, _, _; split; [done|]; split; [lia|]; split; [done|]; unfold same_value; rewrite Hsp, Hs, E; done).
Qed.

Lemma finite_roundtrip d size t :
  finite d -> normal d -> 0 <= dc_dscale d <= DECIMAL_MAX_DSCALE -> dc_weight d < DECIMAL_MAX_WEIGHT ->
  shows_all d -> decimal_to_str_get_len d <= size -> dc_typemod t = -1 ->
  exists s n d', decimal_to_str d size = (0, s, n) /\ n <= size /\
    decimal_from_str true true s t = Some (0, d') /\ same_value d d'.
Proof.
  intros Hf Hn Hds Hwt Hsh Hsize Ht.
  destruct (to_str_text d size Hf ltac:(lia) Hsize) as (I & F & cells & E & HC & WI & WF & LI & MI & LF & HV).
  specialize (HV Hsh). set (k := frac_groups (dc_dscale d)) in *.
  destruct (frac_groups_bounds (dc_dscale d) ltac:(lia)) as [Hk0 Hk]. fold k in Hk0, Hk.
  set (nu := mkNumeral (if dc_sign d =? SDB_DECIMAL_NEG then Some true else None) I
    (if 0 <? dc_dscale d then Some F else None) None).
  assert (default [] (nu_frac nu) = F) as EF.
  { unfold nu. simpl. destruct (Z.ltb_spec 0 (dc_dscale d)); [done|]. destruct F; [done|]. simpl in LF. lia. }
  assert (nu_digits nu = I ++ F) as ED by (unfold nu_digits; by rewrite EF).
  assert (numeral_text nu = sign_text d ++ chars I ++ point_text (dc_dscale d) F) as ET.
  { unfold numeral_text, nu, sign_text, point_text. cbn [nu_sign nu_int nu_frac nu_exp exp_text].
    rewrite app_nil_r. f_equal; [by destruct (dc_sign d =? _)|]. by destruct (0 <? dc_dscale d). }
  assert (nu_places nu = dc_dscale d) as EP by (unfold nu_places; rewrite EF; unfold nu_exponent; simpl; lia).
  destruct (from_str_ok k nu t) as (d' & E' & V & Fd & Nd & Rd & Dd & _); try done.
  { unfold numeral_ok. rewrite ED. split_and!; [by apply Forall_app| |done].
    destruct I; [simpl in LI; lia|done]. }
  { unfold numeral_bounded. rewrite EP, EF. change (nu_exponent nu) with 0. change (nu_int nu) with I.
    unfold DECIMAL_MAX_WEIGHT, DECIMAL_MAX_DWEIGHT, DECIMAL_MAX_DSCALE, DECIMAL_MAX_PRECISION in *.
    split_and!; lia. }
  { lia. }
  exists (numeral_text nu), cells, d'. rewrite ET. split; [done|]. split; [lia|]. rewrite <- ET.
  split; [done|]. rewrite ED, EP, <- Z.mul_assoc, HV in V.
  assert (scaled k d = scaled k d') as EV.
  { rewrite V. unfold scaled, dsign, nu. cbn [nu_sign]. by destruct (dc_sign d =? SDB_DECIMAL_NEG). }
  destruct (scaled_unique k d d' Hf Fd Hn Nd (proj1 Hsh) Rd EV) as (S1 & S2 & S3).
  split; [done|]. split; [lia|done].
Qed.

(** C20: printing never leaves its buffer, and parsing gives back what was
    printed.  A decimal that is special, or in normal form, within the bounds
    and with no digit beyond its display scale, is printed into any buffer of
    the size [decimal_to_str_get_len] asks for without a cell outside it being
    written to; [decimal_from_str] accepts the text and gives the same special
    value, or the same sign, digits, weight and display scale. *)
Theorem decimal_str_roundtrip d size t :
  printable d -> decimal_to_str_get_len d <= size -> dc_typemod t = -1 ->
  exists s n d', decimal_to_str d size = (0, s, n) /\ n <= size /\
    decimal_from_str true true s t = Some (0, d') /\ same_value d d'.
Proof.
  intros [Hs|(Hf & Hn & Hd & Hw & Ha)] Hsize Ht; [by apply special_roundtrip|by apply finite_roundtrip].
Qed.

Definition print_example : bson_decimal := mkDec (-1) SDB_DECIMAL_NEG 6 1 true [0] [12; 345; 678; 9000].

Lemma decimal_str_roundtrip_witness :
  exists s n d', decimal_to_str print_example 20 = (0, s, n) /\ n = 16 /\
    decimal_from_str true true s decimal_init = Some (0, d') /\ same_value print_example d'.
Proof.
  destruct (decimal_str_roundtrip print_example 20 decimal_init) as (s & n & d' & E & _ & E' & H).
  - right. split_and!; [split; [right; reflexivity|]|split_and!| | | |split].
    + apply (bool_decide_unpack _). vm_compute. exact I.
    + vm_compute. discriminate.
    + vm_compute. discriminate.
    + discriminate.
    + vm_compute. discriminate.
    + vm_compute. discriminate.
    + vm_compute. reflexivity.
    + vm_compute. discriminate.
    + exists 120345067890. vm_compute. reflexivity.
  - vm_compute. discriminate.
  - reflexivity.
  - exists s, n, d'. split; [exact E|]. split; [|split; [exact E'|exact H]].
    vm_compute in E. injection E as _ <-. reflexivity.
Defined.
