(* ===== verification/BsonDecimalAccept.v ===== *)
(** * Decimals as text: the parser accepts the numerals and nothing else *)
From S2P Require Import Prelude.
From S2P Require Import BsonDecimal.
From S2P Require Import BsonDecimalOk.
From S2P Require Import BsonDecimalOps.
From S2P Require Import BsonDecimalRound.
From S2P Require Import BsonDecimalStr.
From S2P Require Import BsonDecimalStrOk.
From S2P Require Import BsonDecimalParse.
#[local] Open Scope Z_scope.

Lemma is_digit_inv c : decimal_is_digit c = true -> 0 <= c - 48 <= 9.
Proof. unfold decimal_is_digit. intros [?%Z.leb_le ?%Z.leb_le]%andb_true_iff. lia. Qed.

(** What was read, once a point has been seen. *)
Lemma scan_frac_inv cp : forall dw sc ds dw' sc' rest,
  scan_digits cp true dw sc = Some (ds, dw', sc', rest) ->
  cp = chars ds ++ rest /\ wf_dec ds /\ dw' = dw /\ sc' = sc + Z.of_nat (length ds) /\
  (sc <= DECIMAL_MAX_DSCALE + DECIMAL_MAX_PRECISION -> sc' <= DECIMAL_MAX_DSCALE + DECIMAL_MAX_PRECISION).
Proof.
  induction cp as [|c cp IH]; intros dw sc ds dw' sc' rest; cbn [scan_digits].
  { intros [= <- <- <- <-]. split_and!; try done; [constructor|simpl; lia]. }
  destruct (decimal_is_digit c) eqn:Ec.
  - cbn [negb]. destruct (Z.ltb_spec (DECIMAL_MAX_DSCALE + DECIMAL_MAX_PRECISION) (sc + 1)); [done|].
    destruct (scan_digits cp true dw (sc + 1)) as [[[[ds1 dw1] sc1] r1]|] eqn:E; [|done].
    intros [= <- <- <- <-]. destruct (IH _ _ _ _ _ _ E) as (-> & Hw & -> & -> & Hb).
    split_and!; try done; [|constructor; [by apply is_digit_inv|done]|simpl; lia|lia].
    cbn [map app]. f_equal. lia.
  - destruct (Z.eqb_spec c 46); [done|]. intros [= <- <- <- <-].
    split_and!; try done; [constructor|simpl; lia].
Qed.

(** The same before the point. *)
Lemma scan_int_inv cp : forall dw ds dw' sc' rest,
  scan_digits cp false dw 0 = Some (ds, dw', sc', rest) ->
  exists I f, cp = chars I ++ frac_text f ++ rest /\ ds = I ++ default [] f /\
    wf_dec ds /\ dw' = dw + Z.of_nat (length I) /\ sc' = Z.of_nat (length (default [] f)) /\
    (dw <= DECIMAL_MAX_DWEIGHT + DECIMAL_MAX_PRECISION -> dw' <= DECIMAL_MAX_DWEIGHT + DECIMAL_MAX_PRECISION) /\
    sc' <= DECIMAL_MAX_DSCALE + DECIMAL_MAX_PRECISION.
Proof.
  induction cp as [|c cp IH]; intros dw ds dw' sc' rest; cbn [scan_digits].
  { intros [= <- <- <- <-]. exists [], None. split_and!; try done; [constructor|simpl; lia]. }
  destruct (decimal_is_digit c) eqn:Ec.
  - cbn [negb]. destruct (Z.ltb_spec (DECIMAL_MAX_DWEIGHT + DECIMAL_MAX_PRECISION) (dw + 1)); [done|].
    destruct (scan_digits cp false (dw + 1) 0) as [[[[ds1 dw1] sc1] r1]|] eqn:E; [|done].
    intros [= <- <- <- <-]. destruct (IH _ _ _ _ _ E) as (I & f & -> & -> & Hw & -> & -> & Hb & Hs).
    exists (c - 48 :: I), f.
    split_and!; try done; [|constructor; [by apply is_digit_inv|done]|simpl; lia|lia].
    cbn [map app]. f_equal. lia.
  - destruct (Z.eqb_spec c 46) as [->|].
    + intros E. apply scan_frac_inv in E as (-> & Hw & -> & -> & Hb).
      exists [], (Some ds). split_and!; try done; [simpl; lia|]. apply Hb. done.
    + intros [= <- <- <- <-]. exists [], None. split_and!; try done; [constructor|simpl; lia].
Qed.

Lemma read_number_inv cp : forall v v' rest,
  read_number cp v = (v', rest) ->
  exists E, cp = chars E ++ rest /\ wf_dec E /\ v' = v * 10 ^ Z.of_nat (length E) + tval E /\
    match rest with [] => True | c :: _ => decimal_is_digit c = false end.
Proof.
  induction cp as [|c cp IH]; intros v v' rest; cbn [read_number].
  { intros [= <- <-]. exists []. split_and!; try done; [constructor|simpl; lia]. }
  destruct (decimal_is_digit c) eqn:Ec.
  - intros (E & -> & Hw & -> & Hr)%IH. exists (c - 48 :: E). split_and!; try done.
    + cbn [map app]. f_equal. lia.
    + constructor; [by apply is_digit_inv|done].
    + cbn [length tval]. rewrite Nat2Z.inj_succ, Z.pow_succ_r by lia. lia.
  - intros [= <- <-]. exists []. split_and!; try done; [constructor|simpl; lia].
Qed.

Lemma skip_space_inv cp : exists sp, cp = sp ++ skip_space cp /\ Forall (fun x => isspace x = true) sp.
Proof.
  induction cp as [|c cp (sp & E & H)]; [exists []; split; [done|constructor]|]. cbn [skip_space].
  destruct (isspace c) eqn:Ec; [|exists []; split; [done|constructor]].
  exists (c :: sp). split; [by rewrite E at 1|by constructor].
Qed.

(** The sign in front of a number. *)
Lemma sign_split (cp : list Z) :
  exists s rest, cp = sgn_text s ++ rest /\
    match cp with 45 :: rest => (true, rest) | 43 :: rest => (false, rest) | _ => (false, cp) end =
      (match s with Some true => true | _ => false end, rest) /\
    match cp with 43 :: rest => (SDB_DECIMAL_POS, rest) | 45 :: rest => (SDB_DECIMAL_NEG, rest)
      | _ => (SDB_DECIMAL_POS, cp) end = (sign_of s, rest).
Proof.
  destruct cp as [|c cp]; [by exists None, []|].
  destruct (decide (c = 45)) as [->|H1]; [by exists (Some true), cp|].
  destruct (decide (c = 43)) as [->|H2]; [by exists (Some false), cp|].
  exists None, (c :: cp). split; [done|]. destruct c as [|p|p]; [done| |done].
  split; repeat (destruct p as [p|p|]; try done).
Qed.

Lemma strtoll_inv cp e :
  strtoll cp = Some (e, []) -> - DECIMAL_MAX_PRECISION <= e <= DECIMAL_MAX_PRECISION ->
  exists sp s E, cp = sp ++ sgn_text s ++ chars E /\ Forall (fun x => isspace x = true) sp /\
    wf_dec E /\ E <> [] /\ e = sgn s * tval E.
Proof.
  unfold strtoll, DECIMAL_MAX_PRECISION. destruct (skip_space_inv cp) as (sp & Ecp & Hsp).
  destruct (sign_split (skip_space cp)) as (s & rest & Es & -> & _).
  destruct rest as [|c rest]; [done|]. destruct (decimal_is_digit c) eqn:Ec; [|done].
  destruct (read_number (c :: rest) 0) as [v r] eqn:Er.
  apply read_number_inv in Er as (E & EE & Hw & Ev & _). intros [= He ->]. intros Hb.
  exists sp, s, E. rewrite app_nil_r in EE. split_and!; try done.
  - by rewrite Ecp, Es, EE.
  - by destruct E.
  - rewrite Z.mul_0_l, Z.add_0_l in Ev. destruct s as [[]|]; cbn [sgn] in *; lia.
Qed.

Lemma scan_exponent_inv dw sc cp dw' sc' :
  scan_exponent dw sc cp = Some (dw', sc', []) ->
  exists e n, cp = exp_text e /\
    match e with
    | None => n = 0 /\ sc' = sc
    | Some (c, sp, s, E) =>
        (c = 101 \/ c = 69) /\ Forall (fun x => isspace x = true) sp /\ wf_dec E /\ E <> [] /\
        n = sgn s * tval E /\ sc' = Z.max 0 (sc - n)
    end /\ dw' = dw + n /\ Z.abs n <= DECIMAL_MAX_PRECISION.
Proof.
  destruct cp as [|c cp]; cbn [scan_exponent].
  { intros [= <- <-]. exists None, 0. split_and!; try done. lia. }
  destruct ((c =? 101) || (c =? 69)) eqn:Ec; [|done].
  destruct (strtoll cp) as [[n r]|] eqn:E; [|done]. cbn [mbind option_bind].
  destruct ((_ <? n) || _) eqn:Hb; [done|]. apply orb_false_iff in Hb as [H1%Z.ltb_ge H2%Z.ltb_ge].
  intros [= <- <- ->]. apply strtoll_inv in E as (sp & s & E & -> & Hsp & Hw & Hn & En); [|lia].
  exists (Some (c, sp, s, E)), n. split_and!; try done; try lia.
  destruct (Z.ltb_spec (sc - n) 0); lia.
Qed.

Lemma after_scan_total sign d r :
  sign = SDB_DECIMAL_POS \/ sign = SDB_DECIMAL_NEG -> dc_typemod d = -1 ->
  match r with Some (ds, _, sc, _) => wf_dec ds /\ 0 <= sc | None => True end ->
  exists rc d', after_scan true sign d r = Some (rc, d') /\ (rc = 0 \/ rc = -6).
Proof.
  intros Hs Ht Hr. unfold after_scan.
  destruct r as [[[[ds dw] sc] cp]|]; [|eexists _, _; split; [done|]; auto].
  destruct (scan_exponent dw sc cp) as [[[dw1 sc1] cp1]|] eqn:E; [|eexists _, _; split; [done|]; auto].
  destruct (_ || _) eqn:Hb; [eexists _, _; split; [done|]; auto|].
  apply orb_false_iff in Hb as [H1%Z.leb_gt H2%Z.ltb_ge].
  destruct cp1; cbn [negb]; [|eexists _, _; split; [done|]; auto].
  destruct Hr as [Hw Hsc]. apply scan_exponent_inv in E as (e & n & _ & He & _ & _).
  destruct (convert_digits_ok (Z.max 0 (Z.of_nat (length ds) - (dw1 + 1))) sign dw1 sc1 ds d)
    as (d' & -> & _); try done; try lia; [|eauto].
  destruct e as [[[[c sp] s] E]|]; [destruct He as (_ & _ & _ & _ & _ & ->)|destruct He as [_ ->]]; lia.
Qed.

(** What is accepted is a numeral within the limits. *)
Lemma after_scan_inv sign d d' I f cp :
  after_scan true sign d (Some (I ++ default [] f, -1 + Z.of_nat (length I),
    Z.of_nat (length (default [] f)), cp)) = Some (0, d') ->
  wf_dec (I ++ default [] f) -> I ++ default [] f <> [] ->
  -1 + Z.of_nat (length I) <= DECIMAL_MAX_DWEIGHT + DECIMAL_MAX_PRECISION ->
  Z.of_nat (length (default [] f)) <= DECIMAL_MAX_DSCALE + DECIMAL_MAX_PRECISION ->
  exists e, cp = exp_text e /\ forall s, numeral_ok (mkNumeral s I f e) /\ numeral_bounded (mkNumeral s I f e).
Proof.
  intros H Hw Hn Hi Hf. unfold after_scan in H.
  destruct (scan_exponent _ _ cp) as [[[dw1 sc1] cp1]|] eqn:E; [|done].
  destruct (_ || _) eqn:Hb; [done|]. apply orb_false_iff in Hb as [H1%Z.leb_gt H2%Z.ltb_ge].
  destruct cp1; cbn [negb] in H; [|done].
  apply scan_exponent_inv in E as (e & n & -> & He & -> & Hab). exists e. split; [done|]. intros s.
  assert (nu_exponent (mkNumeral s I f e) = n) as En.
  { unfold nu_exponent. cbn [nu_exp]. destruct e as [[[[c sp] s'] E]|]; [|by destruct He].
    by destruct He as (_ & _ & _ & _ & -> & _). }
  split.
  - unfold numeral_ok, nu_digits. cbn. split_and!; try done.
    destruct e as [[[[c sp] s'] E]|]; [|done]. destruct He as (? & ? & ? & ? & _). done.
  - unfold numeral_bounded, nu_places. rewrite En. cbn [nu_int nu_frac]. split_and!; try done; try lia.
    destruct e as [[[[c sp] s'] E]|]; [destruct He as (_ & _ & _ & _ & _ & ->)|destruct He as [-> ->]]; lia.
Qed.

(** The head of the parser on a text that is no special value. *)
Lemma from_str_head value :
  exists s rest, value = sgn_text s ++ rest /\ forall a d, special_str value d = None ->
    decimal_from_str true a value d =
    let '(dp, cp) := match rest with 46 :: r => (true, r) | _ => (false, rest) end in
    if negb (match cp with c :: _ => decimal_is_digit c | [] => false end)
    then Some (-6, decimal_free d)
    else after_scan a (sign_of s) d (scan_digits cp dp (-1) 0).
Proof.
  destruct (sign_split value) as (s & rest & E & _ & E2). exists s, rest. split; [done|]. intros a d Hn.
  unfold decimal_from_str. rewrite Hn, E2. destruct (match rest with 46 :: r => _ | _ => _ end) as [dp cp].
  done.
Qed.

Lemma point_split (rest : list Z) :
  exists dp cp, match rest with 46 :: r => (true, r) | _ => (false, rest) end = (dp, cp) /\
    rest = (if dp : bool then 46 :: cp else cp).
Proof.
  destruct rest as [|c cp]; [by exists false, []|].
  destruct (decide (c = 46)) as [->|Hc]; [by exists true, cp|]. exists false, (c :: cp). split; [|done].
  destruct c as [|p|p]; [done| |done]. repeat (destruct p as [p|p|]; try done).
Qed.

Lemma sign_of_cases s : sign_of s = SDB_DECIMAL_POS \/ sign_of s = SDB_DECIMAL_NEG.
Proof. destruct s as [[]|]; auto. Qed.

Lemma from_str_inv value d :
  dc_typemod d = -1 -> special_str value d = None ->
  exists rc d', decimal_from_str true true value d = Some (rc, d') /\ (rc = 0 \/ rc = -6) /\
    (rc = 0 -> exists n, numeral_ok n /\ numeral_bounded n /\ value = numeral_text n).
Proof.
  intros Ht Hn. destruct (from_str_head value) as (s & rest & E & H). rewrite H by done. clear H Hn. subst value.
  destruct (point_split rest) as (dp & cp & -> & ->).
  destruct cp as [|c cp]; [by eexists _, _; split; [done|]; split; [right|]|].
  destruct (decimal_is_digit c) eqn:Ec; cbn [negb]; [|by eexists _, _; split; [done|]; split; [right|]].
  assert (forall I f r, after_scan true (sign_of s) d (Some (I ++ default [] f, -1 + Z.of_nat (length I),
      Z.of_nat (length (default [] f)), r)) =
      after_scan true (sign_of s) d (scan_digits (c :: cp) dp (-1) 0) ->
    (if dp then 46 :: c :: cp else c :: cp) = chars I ++ frac_text f ++ r ->
    wf_dec (I ++ default [] f) -> I ++ default [] f <> [] ->
    -1 + Z.of_nat (length I) <= DECIMAL_MAX_DWEIGHT + DECIMAL_MAX_PRECISION ->
    Z.of_nat (length (default [] f)) <= DECIMAL_MAX_DSCALE + DECIMAL_MAX_PRECISION ->
    exists rc d', after_scan true (sign_of s) d (scan_digits (c :: cp) dp (-1) 0) = Some (rc, d') /\
      (rc = 0 \/ rc = -6) /\
      (rc = 0 -> exists n, numeral_ok n /\ numeral_bounded n /\
         sgn_text s ++ (if dp then 46 :: c :: cp else c :: cp) = numeral_text n)) as Hgo.
  { intros I f r <- -> Hw Hne B1 B2.
    destruct (after_scan_total (sign_of s) d (Some (I ++ default [] f, -1 + Z.of_nat (length I),
      Z.of_nat (length (default [] f)), r)) (sign_of_cases s) Ht) as (rc & d' & E & Hrc); [split; [done|lia]|].
    exists rc, d'. split_and!; try done. intros ->.
    destruct (after_scan_inv _ _ _ _ _ _ E Hw Hne B1 B2) as (e & -> & Hok).
    exists (mkNumeral s I f e). destruct (Hok s). done. }
  destruct (scan_digits (c :: cp) dp (-1) 0) as [[[[ds dw] sc] r]|] eqn:Es;
    [|eexists _, _; split; [done|]; split; [by right|done]].
  assert (ds <> []) as Hds.
  { cbn [scan_digits] in Es. rewrite Ec in Es. destruct dp; cbn [negb] in Es;
      (destruct (_ <? _) in Es; [done|]); (destruct (scan_digits _ _ _ _) as [[[[? ?] ?] ?]|]; [|done]);
      by injection Es as <- _ _ _. }
  destruct dp.
  - apply scan_frac_inv in Es as (E & Hw & -> & -> & Hb). apply (Hgo [] (Some ds) r); try done.
    + by rewrite E.
    + apply Hb. done.
  - apply scan_int_inv in Es as (I & f & E & -> & Hw & -> & -> & Hb & Hs).
    apply (Hgo I f r); try done. by apply Hb.
Qed.

(** ** A target with a precision *)

Lemma digit_places x :
  0 < x < B -> exists j, 0 <= j <= 3 /\ 10 ^ j <= x < 10 ^ (j + 1) /\
    forall dd, (if x <? 10 then dd - 3 else if x <? 100 then dd - 2 else if x <? 1000 then dd - 1 else dd) = dd - 3 + j.
Proof.
  change B with 10000. intros Hx.
  destruct (Z.ltb_spec x 10); [exists 0|destruct (Z.ltb_spec x 100); [exists 1|destruct (Z.ltb_spec x 1000); [exists 2|exists 3]]];
    (split; [lia|]; split; [simpl; lia|intros; lia]).
Qed.

Lemma too_many_digits_ok k m ds : forall w,
  wf_digits ds -> fits k w ds -> 0 <= m + 4 * k ->
  too_many_digits ds ((w + 1) * 4) m = (10 ^ (m + 4 * k) <=? mg k w ds).
Proof.
  induction ds as [|x ds IH]; intros w Hw Hf Hm; cbn [too_many_digits].
  { rewrite mg_nil. symmetry. apply Z.leb_gt. by apply Z.pow_pos_nonneg. }
  apply Forall_cons in Hw as [Hx Hw]. rewrite mg_cons by done.
  assert (fits k (w - 1) ds) as Hf' by (unfold fits in *; simpl in Hf; lia).
  destruct (Z.eqb_spec x 0) as [->|Hx0]; cbn [negb].
  { unfold DECIMAL_DEC_DIGITS. replace ((w + 1) * 4 - 4) with ((w - 1 + 1) * 4) by lia. by apply IH. }
  destruct (digit_places x ltac:(lia)) as (j & Hj & Hp & E). rewrite E.
  destruct (mg_range k (w - 1) ds Hw Hf') as [H0 H1]. replace (k + (w - 1) + 1) with (k + w) in * by lia.
  rewrite <- pow10_B in H1 |- * by lia.
  assert (10 ^ (4 * (k + w) + j) <= x * 10 ^ (4 * (k + w)) + mg k (w - 1) ds < 10 ^ (4 * (k + w) + j + 1)) as Hb.
  { rewrite <- Z.add_assoc, !(Z.pow_add_r _ (4 * (k + w))) by lia. nia. }
  apply eq_true_iff_eq. rewrite Z.ltb_lt, Z.leb_le. split; intros H.
  - transitivity (10 ^ (4 * (k + w) + j)); [apply Z.pow_le_mono_r; lia|lia].
  - apply Z.nle_gt. intros Hn. pose proof (Z.pow_le_mono_r 10 (4 * (k + w) + j + 1) (m + 4 * k)). lia.
Qed.

(** The test of [_decimal_apply_typmod] is that for [10 ^ m] or more. *)
Lemma integer_overflow_ok k m d :
  wf_digits (dc_digits d) -> rscale d <= k -> 0 <= m + 4 * k ->
  integer_overflow d m = (10 ^ (m + 4 * k) <=? mag k d).
Proof.
  intros Hw Hf%fits_rscale Hm. unfold integer_overflow, DECIMAL_DEC_DIGITS, mag.
  rewrite (too_many_digits_ok k) by done. destruct (Z.ltb_spec m ((dc_weight d + 1) * 4)); [done|].
  symmetry. apply Z.leb_gt. destruct (mg_range k _ _ Hw Hf) as [H0 [_ H1]].
  eapply Z.lt_le_trans; [exact H1|]. rewrite <- pow10_B by lia. apply Z.pow_le_mono_r; lia.
Qed.

(** The end of [decimal_from_str], on the digits that were read. *)
Definition fit_target (d : bson_decimal) : option (Z * bson_decimal) :=
  '(rc, d) ← decimal_apply_typmod d (dc_typemod d);
  if negb (rc =? 0) then Some (rc, decimal_free d)
  else if decimal_is_out_of_bound d then Some (-6, decimal_free d)
  else Some (0, d).

Lemma strip_typemod t sign dscale w h ds :
  decimal_strip (mkDec t sign dscale w true h ds) =
  set_dc_typemod (decimal_strip (mkDec (-1) sign dscale w true h ds)) t.
Proof.
  unfold decimal_strip. simpl. destruct (strip_leading h ds w) as [[h' ds'] w']. by destruct (strip_trailing ds').
Qed.

Lemma convert_digits_target a sign dw dscale D d e :
  convert_digits true sign dw dscale D (set_dc_typemod d (-1)) = Some (0, e) ->
  convert_digits a sign dw dscale D d =
  if a then fit_target (set_dc_typemod e (dc_typemod d)) else Some (-2, decimal_free d).
Proof.
  unfold convert_digits. destruct a; [|done]. cbn [negb].
  destruct (group_digits _ _ _) as [g|]; [|done]. cbn [mbind option_bind].
  rewrite !(strip_typemod (dc_typemod _)).
  set (e0 := decimal_strip _). intros E. unfold decimal_apply_typmod in E at 1. simpl in E.
  change (decimal_is_out_of_bound (set_dc_typemod e0 (-1))) with (decimal_is_out_of_bound e0) in E.
  destruct (decimal_is_out_of_bound e0); [done|]. by injection E as <-.
Qed.

Lemma scan_wf cp dp ds dw sc r : scan_digits cp dp (-1) 0 = Some (ds, dw, sc, r) -> wf_dec ds /\ 0 <= sc.
Proof.
  destruct dp; [intros (_ & ? & _ & -> & _)%scan_frac_inv|intros (I & f & _ & _ & ? & _ & -> & _)%scan_int_inv];
    (split; [done|lia]).
Qed.

(** What a target of its own precision, and memory, change of the outcome. *)
Definition for_target (a : bool) (d : bson_decimal) (r : option (Z * bson_decimal)) : option (Z * bson_decimal) :=
  '(rc, e) ← r;
  if rc =? 0 then if a then fit_target (set_dc_typemod e (dc_typemod d)) else Some (-2, decimal_free d)
  else Some (-6, decimal_free d).

Lemma after_scan_target a sign d r :
  sign = SDB_DECIMAL_POS \/ sign = SDB_DECIMAL_NEG ->
  match r with Some (ds, _, sc, _) => wf_dec ds /\ 0 <= sc | None => True end ->
  after_scan a sign d r = for_target a d (after_scan true sign (set_dc_typemod d (-1)) r).
Proof.
  intros Hs Hr. unfold after_scan. destruct r as [[[[ds dw] sc] cp]|]; [|done].
  destruct (scan_exponent dw sc cp) as [[[dw1 sc1] cp1]|] eqn:E; [|done].
  destruct (_ || _) eqn:Hb; [done|]. apply orb_false_iff in Hb as [H1%Z.leb_gt H2%Z.ltb_ge].
  destruct cp1; cbn [negb]; [|done].
  destruct Hr as [Hw Hsc]. apply scan_exponent_inv in E as (e & n & _ & He & _ & _).
  destruct (convert_digits_ok (Z.max 0 (Z.of_nat (length ds) - (dw1 + 1))) sign dw1 sc1 ds (set_dc_typemod d (-1)))
    as (d' & E & _); try done; try lia.
  { destruct e as [[[[c sp] s] E]|]; [destruct He as (_ & _ & _ & _ & _ & ->)|destruct He as [_ ->]]; lia. }
  rewrite (convert_digits_target a _ _ _ _ _ _ E), E. done.
Qed.

Lemma special_none value d e : special_str value d = None -> special_str value e = None.
Proof.
  unfold special_str. intros H.
  repeat (match type of H with match ?x with _ => _ end = _ => destruct x; try discriminate H; try done end).
Qed.

Lemma from_str_target a value d :
  special_str value d = None ->
  decimal_from_str true a value d = for_target a d (decimal_from_str true true value (set_dc_typemod d (-1))).
Proof.
  intros Hn. destruct (from_str_head value) as (s & rest & _ & H).
  rewrite !H by (done || by apply (special_none _ d)).
  destruct (match rest with 46 :: r => (true, r) | _ => (false, rest) end) as [dp cp].
  destruct (negb _); [done|]. apply after_scan_target; [apply sign_of_cases|].
  destruct (scan_digits cp dp (-1) 0) as [[[[ds dw] sc] r]|] eqn:E; [|done]. by apply scan_wf in E.
Qed.

(** The number is rounded to the scale of the target, and then refused when
    it has too many digits before the point. *)
Lemma fit_target_ok k e (scale := typemod_scale (dc_typemod e)) :
  dc_typemod e <> -1 -> dc_isOwn e = true -> finite e -> spare e -> rscale e <= k -> 0 <= k -> scale <= 4 * k ->
  exists d', scaled k d' = dsign e * nearest (10 ^ (4 * k - scale)) (Z.abs (scaled k e)) /\
    finite d' /\ dc_dscale d' = scale /\
    fit_target e =
      if 10 ^ (typemod_precision (dc_typemod e) - scale + 4 * k) <=? Z.abs (scaled k d')
      then Some (-10, decimal_free d')
      else if decimal_is_out_of_bound d' then Some (-6, decimal_free d') else Some (0, d').
Proof.
  intros Ht Ho Hf Hs Hr Hk Hsc.
  destruct (decimal_round_exact k scale e Ho Hf Hs Hr Hsc) as (d' & E & V & F & R & D).
  exists d'. split_and!; try done. unfold fit_target, decimal_apply_typmod. apply Z.eqb_neq in Ht. rewrite Ht.
  fold scale. rewrite E. cbn [mbind option_bind negb Z.eqb].
  assert (Z.abs (scaled k d') = mag k d') as ->.
  { destruct (mg_range k _ _ (proj2 F) (proj1 (fits_rscale k d') ltac:(lia))) as [_ [H _]].
    fold (mag k d') in H. unfold scaled, dsign. destruct (dc_sign d' =? _); lia. }
  assert (0 <= typemod_precision (dc_typemod e)) by (apply Z.land_nonneg; right; lia).
  rewrite (integer_overflow_ok k) by (apply F || lia). by destruct (_ <=? mag k d').
Qed.

(** The first allocation is not tested. *)
Lemma from_str_no_array a n d : numeral_ok n -> decimal_from_str false a (numeral_text n) d = None.
Proof.
  intros (Hw & Hne & _). unfold numeral_text, nu_digits in *.
  assert (forall s x l dp, 0 <= x <= 9 ->
    decimal_from_str false a (sgn_text s ++ (if dp : bool then 46 :: x + 48 :: l else x + 48 :: l)) d = None) as H.
  { intros s x l dp Hx. unfold decimal_from_str.
    destruct dp; [rewrite point_not_special|rewrite numeral_not_special by done];
      (pattern (x + 48); apply char_cases; [done|..]; by destruct s as [[]|]). }
  destruct (nu_int n) as [|x I].
  - destruct (nu_frac n) as [[|x F]|]; [done| |done]. apply Forall_cons in Hw as [Hx _].
    by apply (H _ x _ true).
  - apply Forall_cons in Hw as [Hx _]. by apply (H _ x _ false).
Qed.

Lemma numeral_plain n d : numeral_ok n -> special_str (numeral_text n) d = None.
Proof.
  intros (Hw & Hne & _). unfold numeral_text, nu_digits in *.
  destruct (nu_int n) as [|x I]; [|apply Forall_cons in Hw as [Hx _]; by apply numeral_not_special].
  destruct (nu_frac n) as [[|x F]|]; [done| |done]. apply point_not_special.
Qed.

(** C19: the parser is total and exact, and accepts just the numerals.  On the
    names of the special values it gives those; every other text is a numeral
    (a sign, digits with or without a point, an exponent) within the limits, or
    is refused with -6, whatever the target and the memory.  The digits of a
    numeral are read exactly: the number [e] is in normal form, has the value of
    the numeral and shows its places.  A target without a precision (-1)
    receives [e]; a target with a precision receives the number nearest to [e]
    at its scale, unless that has more digits before the point than the
    precision leaves (-10) or is out of the bounds of a decimal (-6).  When
    there is no memory for the digits the numeral is refused with -2; the
    allocation of the array it is read into is not tested, and without that the
    behaviour is undefined. *)
Theorem decimal_from_str_exact value d :
  (forall a1 a2 d', special_str value d = Some d' -> decimal_from_str a1 a2 value d = Some (0, d')) /\
  (is_Some (special_str value d) \/
   (exists n, numeral_ok n /\ numeral_bounded n /\ value = numeral_text n) \/
   forall a2, decimal_from_str true a2 value d = Some (-6, decimal_free d)) /\
  (forall n k (scale := typemod_scale (dc_typemod d)) (precision := typemod_precision (dc_typemod d)),
     numeral_ok n -> numeral_bounded n -> value = numeral_text n ->
     0 <= k -> nu_places n <= 4 * k -> dc_typemod d = -1 \/ scale <= 4 * k ->
     decimal_from_str true false value d = Some (-2, decimal_free d) /\
     (forall a2, decimal_from_str false a2 value d = None) /\
     exists e, finite e /\ normal e /\ rscale e <= k /\ dc_dscale e = Z.max 0 (nu_places n) /\
       scaled k e = sgn (nu_sign n) * tval (nu_digits n) * 10 ^ (4 * k - nu_places n) /\
       if dc_typemod d =? -1 then decimal_from_str true true value d = Some (0, e)
       else exists d', finite d' /\ dc_dscale d' = scale /\
         scaled k d' = dsign e * nearest (10 ^ (4 * k - scale)) (Z.abs (scaled k e)) /\
         decimal_from_str true true value d =
           if 10 ^ (precision - scale + 4 * k) <=? Z.abs (scaled k d') then Some (-10, decimal_free d')
           else if decimal_is_out_of_bound d' then Some (-6, decimal_free d') else Some (0, d')).
Proof.
  split; [|split].
  - intros a1 a2 d' E. unfold decimal_from_str. by rewrite E.
  - destruct (special_str value d) as [d0|] eqn:Es; [by left; eexists|right].
    destruct (from_str_inv value (set_dc_typemod d (-1)) eq_refl (special_none _ _ _ Es))
      as (rc & e & E & [-> | ->] & Hi); [left; by apply Hi|right].
    intros a2. by rewrite (from_str_target a2 value d Es), E.
  - intros n k scale precision H1 H2 -> H3 H4 H5. pose proof (numeral_plain n d H1) as Hs.
    destruct (from_str_ok k n (set_dc_typemod d (-1)) H1 H2 eq_refl H3 H4) as (e & E & V & F & N & R & D & T & O & Sp).
    rewrite !(from_str_target _ _ d Hs), E. split; [done|]. split; [intros; by apply from_str_no_array|].
    exists (set_dc_typemod e (dc_typemod d)). split_and!; try done.
    destruct (Z.eqb_spec (dc_typemod d) (-1)) as [Et|Et].
    + pose proof (from_str_target true _ d Hs) as Ef. rewrite E in Ef. rewrite <- Ef, Et, <- T.
      replace (set_dc_typemod e (dc_typemod e)) with e by by destruct e.
      rewrite <- E. f_equal. rewrite <- Et. by destruct d.
    + destruct H5 as [|H5]; [done|].
      destruct (fit_target_ok k (set_dc_typemod e (dc_typemod d))) as (d' & V' & F' & D' & E'); try done.
      exists d'. split_and!; try done.
Qed.

Definition numeral_example : numeral :=
  mkNumeral (Some true) [1; 2; 3; 4; 5] (Some [0; 6; 7]) (Some (101, [], Some true, [2])).

Lemma decimal_from_str_exact_witness :
  numeral_text numeral_example = str_example /\
  exists d', decimal_from_str true true str_example decimal_init = Some (0, d') /\
    scaled 2 d' = - 12345067000 /\ dc_dscale d' = 5.
Proof.
  split; [reflexivity|].
  destruct (decimal_from_str_exact str_example decimal_init) as (_ & _ & Hv).
  assert (numeral_ok numeral_example) as Hok.
  { split_and!; [apply (bool_decide_unpack _); vm_compute; exact I|discriminate|].
    split_and!; [by left|constructor| |discriminate]. apply (bool_decide_unpack _). vm_compute. exact I. }
  assert (numeral_bounded numeral_example) as Hb by (split_and!; vm_compute; discriminate).
  destruct (Hv numeral_example 2 Hok Hb eq_refl) as (_ & _ & e & _ & _ & _ & Hd & Hs & E);
    [lia|vm_compute; discriminate|left; reflexivity|].
  exists e. rewrite Hs, Hd. split; [exact E|split; vm_compute; reflexivity].
Defined.
