(* ===== verification/BsonDecimalDiv.v ===== *)
(** * Decimals: division, remainder, rounding to whole numbers
    (src/src/bson/common_decimal.c)

    The work space of [_decimal_div] is the dividend, a cell more than
    [div_ndigits], and the divisor with a zero in front.  The main loop reads
    and writes cells from its index on only, so [div_loop] is given the cells
    from there; cells that the source stores are digits, as the theorems show. *)
From S2P Require Import Prelude.
From S2P Require Import BsonDecimal.
From S2P Require Import BsonDecimalOps.
#[local] Open Scope Z_scope.

(** The weight of the first digit that is not zero, and that digit. *)
Fixpoint first_digit (weight : Z) (digits : list Z) : Z * Z :=
  match digits with
  | [] => (0, 0)
  | x :: digits => if negb (x =? 0) then (weight, x) else first_digit (weight - 1) digits
  end.

Definition decimal_get_div_scale (left right : bson_decimal) : Z :=
  let '(weight1, firstdigit1) := first_digit (dc_weight left) (dc_digits left) in
  let '(weight2, firstdigit2) := first_digit (dc_weight right) (dc_digits right) in
  let qweight := weight1 - weight2 in
  let qweight := if firstdigit1 <=? firstdigit2 then qweight - 1 else qweight in
  let rscale := DECIMAL_MIN_SIG_DIGITS - qweight * DECIMAL_DEC_DIGITS in
  let rscale := Z.max rscale (dc_dscale left) in
  let rscale := Z.max rscale (dc_dscale right) in
  let rscale := Z.max rscale DECIMAL_MIN_DISPLAY_SCALE in
  Z.min rscale DECIMAL_MAX_DISPLAY_SCALE.

(** A divisor of one digit. *)
Fixpoint short_loop (n : nat) (cells : list Z) (divisor1 carry : Z) : option (list Z) :=
  match n, cells with
  | O, _ => Some []
  | S n, x :: cells =>
      let carry := carry * DECIMAL_NBASE + x in
      rest ← short_loop n cells divisor1 (Z.rem carry divisor1);
      Some (Z.quot carry divisor1 :: rest)
  | S _, [] => None
  end.

(** Multiplication of cells by [d], the least significant first. *)
Fixpoint scale_cells (d : Z) (cells : list Z) (carry : Z) : list Z :=
  match cells with
  | [] => []
  | x :: cells =>
      let carry := carry + x * d in
      Z.rem carry DECIMAL_NBASE :: scale_cells d cells (Z.quot carry DECIMAL_NBASE)
  end.

(** The test of the estimate and its correction. *)
Definition qhat_too_large (divisor1 divisor2 next2digits third qhat : Z) : bool :=
  (next2digits - qhat * divisor1) * DECIMAL_NBASE + third <? divisor2 * qhat.

Fixpoint adjust_qhat (fuel : nat) (divisor1 divisor2 next2digits third qhat : Z) : Z :=
  match fuel with
  | O => qhat
  | S fuel =>
      if qhat_too_large divisor1 divisor2 next2digits third qhat
      then adjust_qhat fuel divisor1 divisor2 next2digits third (qhat - 1)
      else qhat
  end.

(** Subtraction of [qhat] times the divisor, and adding it back; both lists
    with the least significant cell first. *)
Fixpoint sub_multiple (cells divisor : list Z) (qhat carry borrow : Z) : list Z * Z :=
  match cells, divisor with
  | x :: cells, v :: divisor =>
      let carry := carry + v * qhat in
      let borrow := borrow - Z.rem carry DECIMAL_NBASE in
      let carry := Z.quot carry DECIMAL_NBASE in
      let borrow := borrow + x in
      if borrow <? 0 then
        let '(cells, b) := sub_multiple cells divisor qhat carry (-1) in
        (borrow + DECIMAL_NBASE :: cells, b)
      else
        let '(cells, b) := sub_multiple cells divisor qhat carry 0 in (borrow :: cells, b)
  | _, _ => ([], borrow)
  end.

Fixpoint add_back (cells divisor : list Z) (carry : Z) : list Z :=
  match cells, divisor with
  | x :: cells, v :: divisor =>
      let carry := carry + x + v in
      if DECIMAL_NBASE <=? carry
      then carry - DECIMAL_NBASE :: add_back cells divisor 1
      else carry :: add_back cells divisor 0
  | _, _ => []
  end.

(** One quotient digit: [cells] are those of the dividend from index [j] on,
    [divisor] has its zero in front. *)
Definition div_step (divisor cells : list Z) : option (Z * list Z) :=
  d0 ← cells !! 0%nat;
  d1 ← cells !! 1%nat;
  let next2digits := d0 * DECIMAL_NBASE + d1 in
  if next2digits =? 0 then Some (0, cells)
  else
    divisor1 ← divisor !! 1%nat;
    divisor2 ← divisor !! 2%nat;
    third ← cells !! 2%nat;
    let qhat := if d0 =? divisor1 then DECIMAL_NBASE - 1 else Z.quot next2digits divisor1 in
    let qhat := adjust_qhat (S (Z.to_nat qhat)) divisor1 divisor2 next2digits third qhat in
    if 0 <? qhat then
      let n := length divisor in
      if (length cells <? n)%nat then None
      else
        let '(part, borrow) := sub_multiple (rev (take n cells)) (rev divisor) qhat 0 0 in
        if negb (borrow =? 0)
        then Some (qhat - 1, rev (add_back part (rev divisor) 0) ++ drop n cells)
        else Some (qhat, rev part ++ drop n cells)
    else Some (qhat, cells).

Fixpoint div_loop (n : nat) (divisor cells : list Z) : option (list Z) :=
  match n with
  | O => Some []
  | S n =>
      '(q, cells) ← div_step divisor cells;
      rest ← div_loop n divisor (tail cells);
      Some (q :: rest)
  end.

(** The factor that makes the first digit of the divisor at least half of the
    base. *)
Definition div_factor (divisor1 : Z) : Z :=
  if divisor1 <? DECIMAL_HALF_NBASE then Z.quot DECIMAL_NBASE (divisor1 + 1) else 1.

(** The quotient digits: [dividend] has a zero in front and [pad] zeros
    behind the digits. *)
Definition quotient (res_ndigits : nat) (left right : list Z) (pad : nat) : option (list Z) :=
  match right with
  | [] => None
  | [divisor1] => short_loop res_ndigits (left ++ repeat 0 pad) divisor1 0
  | divisor1 :: _ =>
      if divisor1 <? DECIMAL_HALF_NBASE then
        let d := div_factor divisor1 in
        div_loop res_ndigits (0 :: rev (scale_cells d (rev right) 0))
          (rev (scale_cells d (rev (0 :: left)) 0) ++ repeat 0 pad)
      else div_loop res_ndigits (0 :: right) (0 :: left ++ repeat 0 pad)
  end.

(** [alloc1]: the work space, [alloc2]: the digits of the result. *)
Definition decimal_div_ (alloc1 alloc2 : bool) (left right result : bson_decimal)
    (rscale : Z) (isRound : bool) : option (Z * bson_decimal) :=
  let leftNdigits := dc_ndigits left in
  let rightNdigits := dc_ndigits right in
  match dc_digits right with
  | [] => Some (-6, result)
  | divisor1 :: _ =>
      if divisor1 =? 0 then Some (-6, result)
      else if leftNdigits =? 0 then Some (0, zero_with_dscale result rscale)
      else
        let res_sign :=
          if dc_sign left =? dc_sign right then SDB_DECIMAL_POS else SDB_DECIMAL_NEG in
        let res_weight := dc_weight left - dc_weight right in
        let res_ndigits :=
          res_weight + 1 + Z.quot (rscale + DECIMAL_DEC_DIGITS - 1) DECIMAL_DEC_DIGITS in
        let res_ndigits := Z.max res_ndigits 1 in
        let res_ndigits := if isRound then res_ndigits + 1 else res_ndigits in
        let div_ndigits := Z.max (res_ndigits + rightNdigits) leftNdigits in
        if negb alloc1 then Some (-2, result)
        else if negb alloc2 then Some (-2, decimal_free result)
        else
          digits ← quotient (Z.to_nat res_ndigits) (dc_digits left) (dc_digits right)
                     (Z.to_nat (div_ndigits - leftNdigits));
          let d := mkDec (dc_typemod result) res_sign (dc_dscale result) res_weight true [0] digits in
          if isRound then
            '(rc, d) ← decimal_round d rscale;
            if negb (rc =? 0) then Some (rc, d) else Some (0, decimal_strip d)
          else Some (0, decimal_strip (decimal_trunc d rscale))
  end.

Definition decimal_div (alloc1 alloc2 : bool) (left right result : bson_decimal)
    : option (Z * bson_decimal) :=
  if decimal_is_special left || decimal_is_special right then Some (0, decimal_set_nan result)
  else
    let rscale := decimal_get_div_scale left right in
    '(rc, d) ← decimal_div_ alloc1 alloc2 left right result rscale true;
    if negb (rc =? 0) then Some (rc, d)
    else if decimal_is_out_of_bound d then Some (-6, d) else Some (0, d).

(** ** Whole numbers and remainders *)

Definition const_one : bson_decimal := mkDec (-1) SDB_DECIMAL_POS 0 0 false [] [1].

(** The allocations of [decimal_ceil] and [decimal_floor] succeed in turn as
    long as memory is there: [a1] the copy, [a2] the sum, [a3] the result. *)
Definition decimal_ceil (a1 a2 a3 : bool) (d result : bson_decimal) : Z * bson_decimal :=
  if decimal_is_special d then (0, decimal_set_nan result)
  else
    let '(rc, tmp) := decimal_copy a1 d decimal_init in
    if negb (rc =? 0) then (rc, result)
    else
      let tmp := decimal_trunc tmp 0 in
      let '(rc, tmp) :=
        if (dc_sign d =? SDB_DECIMAL_POS) && negb (decimal_cmp d tmp =? 0)
        then decimal_add a2 TLeft tmp const_one tmp else (0, tmp) in
      if negb (rc =? 0) then (rc, result) else decimal_copy a3 tmp result.

Definition decimal_floor (a1 a2 a3 : bool) (d result : bson_decimal) : Z * bson_decimal :=
  if decimal_is_special d then (0, decimal_set_nan result)
  else
    let '(rc, tmp) := decimal_copy a1 d decimal_init in
    if negb (rc =? 0) then (rc, result)
    else
      let tmp := decimal_trunc tmp 0 in
      let '(rc, tmp) :=
        if (dc_sign d =? SDB_DECIMAL_NEG) && negb (decimal_cmp d tmp =? 0)
        then decimal_sub a2 TLeft tmp const_one tmp else (0, tmp) in
      if negb (rc =? 0) then (rc, result)
      else
        let '(rc, result) := decimal_copy a3 tmp result in
        if negb (rc =? 0) then (rc, result)
        else if decimal_is_out_of_bound result then (-6, result) else (0, result).

(** [x - trunc(x / y) * y]; memory is there. *)
Definition decimal_mod (left right result : bson_decimal) : option (Z * bson_decimal) :=
  if decimal_is_special left || decimal_is_special right then Some (0, decimal_set_nan result)
  else
    '(rc, tmp) ← decimal_div_ true true left right decimal_init 0 false;
    if negb (rc =? 0) then Some (rc, result)
    else
      '(rc, tmp) ← decimal_mul_ true true right tmp tmp (dc_dscale right);
      if negb (rc =? 0) then Some (rc, result)
      else Some (decimal_sub_ true TOther left tmp result).

(** 100 / 7 and 1 / 12345678901. *)
Example div_examples :
  decimal_div true true (mkDec (-1) 0 0 0 true [0] [100]) (mkDec (-1) 0 0 0 true [0] [7]) decimal_init =
    Some (0, mkDec (-1) 0 16 0 true [0] [14; 2857; 1428; 5714; 2857]) /\
  option_map (fun r => dc_digits r.2)
    (decimal_div true true (mkDec (-1) 0 0 0 true [0] [1])
      (mkDec (-1) 0 0 2 true [0] [123; 4567; 8901]) decimal_init) =
    Some [81; 0; 73; 539; 66].
Proof. split; vm_compute; reflexivity. Qed.
