(* ===== verification/BsonDecimalDivOk.v ===== *)
(** * Decimals: the quotient digits are those of the exact quotient

    The main loop is Knuth's algorithm D: each digit is estimated from the
    first cells, corrected at most once after the estimate was adjusted, and
    the rest stays below the divisor. *)
From S2P Require Import Prelude.
From S2P Require Import BsonDecimal.
From S2P Require Import BsonDecimalOk.
From S2P Require Import BsonDecimalAdd.
From S2P Require Import BsonDecimalOps.
From S2P Require Import BsonDecimalRound.
From S2P Require Import BsonDecimalMul.
From S2P Require Import BsonDecimalDiv.
#[local] Open Scope Z_scope.

Lemma B_val : B = 10000.
Proof. reflexivity. Qed.

Lemma B_pow_S n : B ^ Z.of_nat (S n) = B * B ^ Z.of_nat n.
Proof. rewrite Nat2Z.inj_succ, <- Z.add_1_r. apply B_pow_succ. lia. Qed.

Lemma wf_repeat0 n : wf_digits (repeat 0 n).
Proof. apply Forall_forall. intros x ->%list_elem_of_In%repeat_spec. rewrite B_val. lia. Qed.

Lemma lval_rev l : lval (rev l) = dval l.
Proof. by rewrite <- dval_rev, rev_involutive. Qed.

(** ** Scaling *)

Lemma scale_cells_ok d cells : forall carry,
  wf_digits cells -> 0 <= d -> 0 <= carry ->
  wf_digits (scale_cells d cells carry) /\ length (scale_cells d cells carry) = length cells /\
  exists c, 0 <= c /\
    lval (scale_cells d cells carry) + c * B ^ Z.of_nat (length cells) = lval cells * d + carry.
Proof.
  induction cells as [|x cells IH]; intros carry Hw Hd Hc.
  { split; [constructor|]. split; [done|]. exists carry. simpl. change (B ^ 0) with 1. lia. }
  apply Forall_cons in Hw as [Hx Hw]. cbn [scale_cells]. unfold DECIMAL_NBASE.
  assert (0 <= carry + x * d) by nia.
  rewrite Z.rem_mod_nonneg, Z.quot_div_nonneg by lia.
  pose proof (Z.div_mod (carry + x * d) 10000 ltac:(lia)).
  pose proof (Z.mod_pos_bound (carry + x * d) 10000 ltac:(lia)).
  destruct (IH ((carry + x * d) / 10000) Hw Hd) as (W & L & c & Hc0 & E); [apply Z.div_pos; lia|].
  split; [constructor; [rewrite B_val; lia|done]|]. split; [simpl; lia|].
  exists c. split; [done|]. cbn [lval length]. rewrite B_pow_S, B_val in *. nia.
Qed.

(** Where the product fits, nothing is carried out. *)
Lemma scale_exact d cells :
  wf_digits cells -> 0 <= d -> dval cells * d < B ^ Z.of_nat (length cells) ->
  let r := rev (scale_cells d (rev cells) 0) in
  wf_digits r /\ length r = length cells /\ dval r = dval cells * d.
Proof.
  intros Hw Hd Hlt r. destruct (scale_cells_ok d (rev cells) 0 (wf_rev _ Hw) Hd ltac:(lia)) as (W & L & c & Hc & E).
  rewrite lval_rev, length_rev, Z.add_0_r in E. unfold r. rewrite length_rev, L, length_rev, dval_rev.
  split; [by apply wf_rev|]. split; [done|]. pose proof (lval_range _ W).
  pose proof (B_pow_pos (Z.of_nat (length cells)) ltac:(lia)).
  assert (c = 0) as -> by nia. lia.
Qed.

(** ** One quotient digit *)

Lemma sub_multiple_ok qhat cells : forall divisor carry borrow,
  wf_digits cells -> wf_digits divisor -> length cells = length divisor -> 0 <= qhat ->
  0 <= carry -> -1 <= borrow <= 0 ->
  exists part b c, sub_multiple cells divisor qhat carry borrow = (part, b) /\ wf_digits part /\
    length part = length cells /\ -1 <= b <= 0 /\ 0 <= c /\
    lval part + b * B ^ Z.of_nat (length cells) =
      lval cells - (lval divisor * qhat + carry) + c * B ^ Z.of_nat (length cells) + borrow /\
    lval divisor * qhat + carry < (c + 1) * B ^ Z.of_nat (length cells) /\
    c * B ^ Z.of_nat (length cells) <= lval divisor * qhat + carry.
Proof.
  induction cells as [|x cells IH]; intros [|v divisor] carry borrow Hx Hv Hl Hq Hc Hb; try done.
  { exists [], borrow, carry. simpl. change (B ^ 0) with 1. split_and!; try done; lia. }
  apply Forall_cons in Hx as [Hx0 Hx], Hv as [Hv0 Hv]. injection Hl as Hl. cbn [sub_multiple].
  unfold DECIMAL_NBASE. assert (0 <= carry + v * qhat) by nia.
  rewrite Z.rem_mod_nonneg, Z.quot_div_nonneg by lia.
  pose proof (Z.div_mod (carry + v * qhat) 10000 ltac:(lia)).
  pose proof (Z.mod_pos_bound (carry + v * qhat) 10000 ltac:(lia)).
  set (c1 := (carry + v * qhat) / 10000) in *. set (m := (carry + v * qhat) mod 10000) in *.
  assert (0 <= c1) by (apply Z.div_pos; lia).
  pose proof (B_pow_pos (Z.of_nat (length cells)) ltac:(lia)).
  assert (exists y b1, (if borrow - m + x <? 0 then
      let '(cells0, b) := sub_multiple cells divisor qhat c1 (-1) in (borrow - m + x + 10000 :: cells0, b)
    else let '(cells0, b) := sub_multiple cells divisor qhat c1 0 in (borrow - m + x :: cells0, b)) =
    (let '(cells0, b) := sub_multiple cells divisor qhat c1 b1 in (y :: cells0, b)) /\
    0 <= y < B /\ -1 <= b1 <= 0 /\ y + b1 * 10000 = borrow - m + x) as (y & b1 & -> & Hy & Hb1 & E1).
  { rewrite B_val in *. destruct (Z.ltb_spec (borrow - m + x) 0); eexists _, _; (split; [done|]); lia. }
  destruct (IH divisor c1 b1 Hx Hv Hl Hq ltac:(lia) Hb1) as (part & b & c & -> & W & L & Hbb & Hcc & E & G1 & G2).
  exists (y :: part), b, c. split; [done|]. split; [by constructor|]. split; [simpl; lia|].
  cbn [lval length]. rewrite B_pow_S, B_val in *. set (P := 10000 ^ Z.of_nat (length cells)) in *.
  split_and!; try lia.
Qed.

Lemma add_back_ok cells : forall divisor carry,
  wf_digits cells -> wf_digits divisor -> length cells = length divisor -> 0 <= carry <= 1 ->
  wf_digits (add_back cells divisor carry) /\ length (add_back cells divisor carry) = length cells /\
  exists c, 0 <= c <= 1 /\
    lval (add_back cells divisor carry) + c * B ^ Z.of_nat (length cells) =
    lval cells + lval divisor + carry.
Proof.
  induction cells as [|x cells IH]; intros [|v divisor] carry Hx Hv Hl Hc; try done.
  { split; [constructor|]. split; [done|]. exists carry. simpl. change (B ^ 0) with 1. lia. }
  apply Forall_cons in Hx as [Hx0 Hx], Hv as [Hv0 Hv]. injection Hl as Hl. cbn [add_back].
  assert (exists y c1, (if DECIMAL_NBASE <=? carry + x + v
     then carry + x + v - DECIMAL_NBASE :: add_back cells divisor 1
     else carry + x + v :: add_back cells divisor 0) = y :: add_back cells divisor c1 /\
     0 <= y < B /\ 0 <= c1 <= 1 /\ y + c1 * B = carry + x + v) as (y & c1 & -> & Hy & Hc1 & E1).
  { rewrite B_val in *. unfold DECIMAL_NBASE.
    destruct (Z.leb_spec 10000 (carry + x + v)); eexists _, _; (split; [done|]); lia. }
  destruct (IH divisor c1 Hx Hv Hl Hc1) as (W & L & c & Hcc & E).
  split; [by constructor|]. split; [simpl; lia|]. exists c. split; [done|].
  cbn [lval length]. rewrite B_pow_S. nia.
Qed.

(** The estimate: never too small, and at most one too large. *)
Section estimate.
Context (V U v1 v2 u0 u1 u2 e : Z).
(** The divisor and the cells, by their first digits and what follows them,
    which is less than [E], a power of the base. *)
Context (vr ur E : Z) (HE : 0 < E).
Context (EV : V = (v1 * B + v2) * E + vr) (Hvr : 0 <= vr < E).
Context (EU : U = ((u0 * B + u1) * B + u2) * E + ur) (Hur : 0 <= ur < E).
Context (Hv1 : 0 < v1 < B) (Hv2 : 0 <= v2 < B) (Hu0 : 0 <= u0 < B) (Hu1 : 0 <= u1 < B) (Hu2 : 0 <= u2 < B).
Context (HU : U < V * B).

Abbreviation next2 := (u0 * B + u1).
Abbreviation q := (U / V).

Lemma V_pos : 0 < V.
Proof. rewrite B_val in *. nia. Qed.

Lemma q_range : 0 <= q < B.
Proof.
  pose proof V_pos. split; [apply Z.div_pos; [rewrite B_val in *; nia|done]|].
  apply Z.div_lt_upper_bound; lia.
Qed.

Lemma q_bounds : q * V <= U < (q + 1) * V.
Proof. pose proof V_pos. pose proof (Z.div_mod U V). pose proof (Z.mod_pos_bound U V). lia. Qed.

Lemma U_lt : U < (next2 + 1) * (B * E).
Proof. rewrite EU. pose proof (Z.mul_le_mono_nonneg_r u2 (B - 1) E ltac:(lia) ltac:(lia)). lia. Qed.

(** The first estimate. *)
Lemma qhat0_ok :
  let qhat := if u0 =? v1 then B - 1 else Z.quot next2 v1 in q <= qhat < B.
Proof.
  pose proof q_range as Hq. pose proof q_bounds as Hb. pose proof V_pos.
  assert (u0 <= v1) as Hle.
  { destruct (Z.le_gt_cases u0 v1) as [|Hgt]; [done|]. exfalso.
    assert (V <= (v1 + 1) * (B * E)) as H1.
    { rewrite EV. pose proof (Z.mul_le_mono_nonneg_r v2 (B - 1) E ltac:(lia) ltac:(lia)). lia. }
    assert ((v1 + 1) * (B * E) * B <= u0 * (B * E) * B).
    { apply Z.mul_le_mono_nonneg_r; [lia|]. apply Z.mul_le_mono_nonneg_r; [|lia].
      apply Z.mul_nonneg_nonneg; lia. }
    assert (0 <= u1 * (B * E) /\ 0 <= u2 * E) as [? ?]
      by (split; repeat apply Z.mul_nonneg_nonneg; lia).
    pose proof (Z.mul_le_mono_nonneg_r V ((v1 + 1) * (B * E)) B ltac:(lia) H1). lia. }
  cbv zeta. destruct (Z.eqb_spec u0 v1) as [->|Hne]; [lia|].
  rewrite Z.quot_div_nonneg by (rewrite B_val in *; lia). split.
  - apply Z.div_le_lower_bound; [lia|].
    destruct (Z.le_gt_cases (v1 * q) next2) as [|Hgt]; [done|]. exfalso.
    assert ((next2 + 1) * (B * E) <= v1 * q * (B * E)) by (apply Z.mul_le_mono_nonneg_r; [rewrite B_val; lia|lia]).
    assert (0 <= v2 * E) by (apply Z.mul_nonneg_nonneg; lia).
    assert (v1 * (B * E) * q <= V * q) by (apply Z.mul_le_mono_nonneg_r; [lia|]; rewrite EV; lia).
    pose proof U_lt. lia.
  - apply Z.div_lt_upper_bound; [lia|].
    pose proof (Z.mul_le_mono_nonneg_r u0 (v1 - 1) B ltac:(lia) ltac:(lia)). lia.
Qed.

Abbreviation too_large qhat := (qhat_too_large v1 v2 next2 u2 qhat).

Lemma too_large_spec qhat :
  too_large qhat = true <-> next2 * B + u2 < qhat * (v1 * B + v2).
Proof. unfold qhat_too_large. change DECIMAL_NBASE with B. rewrite Z.ltb_lt. lia. Qed.

Lemma too_large_above qhat : 0 <= qhat -> too_large qhat = true -> q < qhat.
Proof.
  intros Hq Ht%too_large_spec. apply Z.div_lt_upper_bound; [apply V_pos|].
  assert ((next2 * B + u2 + 1) * E <= qhat * (v1 * B + v2) * E) by (apply Z.mul_le_mono_nonneg_r; lia).
  rewrite EU, EV. nia.
Qed.

Lemma adjust_ok fuel : forall qhat,
  q <= qhat < B -> (Z.to_nat qhat < fuel)%nat ->
  let r := adjust_qhat fuel v1 v2 next2 u2 qhat in
  q <= r <= q + 1 /\ r < B.
Proof.
  pose proof q_range as Hqr. pose proof q_bounds as Hqb.
  induction fuel as [|fuel IH]; intros qhat Hq Hf; [lia|]. cbn [adjust_qhat].
  destruct (too_large qhat) eqn:Et.
  - pose proof (too_large_above qhat ltac:(lia) Et). apply IH; lia.
  - split; [|lia]. split; [lia|].
    assert (qhat * (v1 * B + v2) <= next2 * B + u2) as Hle.
    { destruct (Z.le_gt_cases (qhat * (v1 * B + v2)) (next2 * B + u2)) as [|Hgt]; [done|].
      rewrite (proj2 (too_large_spec qhat) Hgt) in Et. done. }
    assert (qhat * (v1 * B + v2) * E <= (next2 * B + u2) * E) by (apply Z.mul_le_mono_nonneg_r; lia).
    assert (qhat * vr <= (B - 1) * E) by (apply Z.mul_le_mono_nonneg; lia).
    assert ((B - 1) * E < V).
    { rewrite EV. assert (0 < B * E) by (apply Z.mul_pos_pos; lia).
      pose proof (Z.mul_le_mono_nonneg_r 1 v1 (B * E) ltac:(lia) ltac:(lia)).
      pose proof (Z.mul_nonneg_nonneg v2 E ltac:(lia) ltac:(lia)). lia. }
    assert (qhat * V = qhat * (v1 * B + v2) * E + qhat * vr) by (rewrite EV; lia).
    assert ((next2 * B + u2) * E <= U) by (rewrite EU; lia).
    assert (qhat * V < (q + 2) * V) by lia.
    pose proof V_pos. assert (qhat < q + 2); [|lia]. apply (Z.mul_lt_mono_pos_r V); lia.
Qed.
End estimate.

(** The subtraction of the estimate leaves the rest of the division. *)
Lemma correct_ok W divisor U V qhat :
  wf_digits W -> wf_digits divisor -> length W = length divisor ->
  dval W = U -> dval divisor = V -> 0 < V -> V * B <= B ^ Z.of_nat (length W) ->
  0 <= qhat < B -> U / V <= qhat <= U / V + 1 ->
  exists part, (let '(part, borrow) := sub_multiple (rev W) (rev divisor) qhat 0 0 in
      if negb (borrow =? 0) then (qhat - 1, rev (add_back part (rev divisor) 0)) else (qhat, rev part)) =
      (U / V, part) /\
    wf_digits part /\ length part = length W /\ dval part = U mod V.
Proof.
  intros HW HD Hl EU EV HV HB Hq Hqh.
  destruct (sub_multiple_ok qhat (rev W) (rev divisor) 0 0) as (part & b & c & -> & Wp & Lp & Hb & Hc & E & _ & G);
    try (by apply wf_rev); try lia; [by rewrite !length_rev|].
  rewrite !lval_rev, !length_rev, EU, EV in *.
  set (P := B ^ Z.of_nat (length W)) in *. rewrite !Z.add_0_r in *.
  assert (0 < P) as HP by (apply B_pow_pos; lia).
  assert (V * qhat < P) as Hlt.
  { eapply Z.lt_le_trans; [|exact HB]. apply Z.mul_lt_mono_pos_l; lia. }
  assert (c = 0) as ->.
  { destruct (Z.le_gt_cases c 0); [lia|]. pose proof (Z.mul_le_mono_nonneg_r 1 c P ltac:(lia) ltac:(lia)). lia. }
  pose proof (Z.div_mod U V ltac:(lia)) as Edm. pose proof (Z.mod_pos_bound U V HV) as Hm.
  set (q := U / V) in *. set (r := U mod V) in *.
  pose proof (lval_range _ Wp) as Rp. rewrite Lp in Rp. fold P in Rp.
  assert (b = 0 \/ b = -1) as [-> | ->] by lia; cbn [negb Z.eqb].
  - assert (qhat = q) as ->.
    { destruct (Z.eq_dec qhat q); [done|]. assert (qhat = q + 1) as -> by lia. lia. }
    exists (rev part). split; [done|]. split; [by apply wf_rev|]. rewrite length_rev, dval_rev. split; [done|lia].
  - assert (qhat = q + 1) as ->.
    { destruct (Z.eq_dec qhat q) as [->|]; [|lia]. lia. }
    destruct (add_back_ok part (rev divisor) 0 Wp (wf_rev _ HD)) as (Wa & La & c2 & Hc2 & Ea);
      [rewrite length_rev; congruence|lia|].
    rewrite lval_rev, Lp, EV, Z.add_0_r in Ea. fold P in Ea.
    pose proof (lval_range _ Wa) as Ra. rewrite La, Lp in Ra. fold P in Ra.
    replace (q + 1 - 1) with q by lia.
    exists (rev (add_back part (rev divisor) 0)). split; [done|]. split; [by apply wf_rev|].
    rewrite length_rev, dval_rev, La. split; [done|].
    assert (V <= P) by (rewrite B_val in HB; lia).
    assert (c2 = 0 \/ c2 = 1) as [-> | ->] by lia; lia.
Qed.

Lemma take_S_dval n (cells : list Z) :
  wf_digits cells -> (n < length cells)%nat ->
  exists x, 0 <= x < B /\ dval (take (S n) cells) = dval (take n cells) * B + x.
Proof.
  intros Hw Hn. destruct (lookup_lt_is_Some_2 cells n Hn) as [x Hx].
  exists x. split; [exact (Forall_lookup_1 _ _ _ _ Hw Hx)|].
  rewrite (take_S_r _ _ _ Hx), dval_app. change (Z.of_nat (length [x])) with 1.
  change (dval [x]) with (x * 1 + 0). rewrite Z.pow_1_r. lia.
Qed.

Lemma div_step_ok v1 v2 vs cells (V := dval (v1 :: v2 :: vs)) (n := length (v1 :: v2 :: vs)) :
  wf_digits (v1 :: v2 :: vs) -> 0 < v1 -> wf_digits cells -> (n < length cells)%nat ->
  dval (take n cells) < V ->
  let U := dval (take (S n) cells) in
  0 <= U / V < B /\
  exists part, div_step (0 :: v1 :: v2 :: vs) cells = Some (U / V, part ++ drop (S n) cells) /\
    wf_digits part /\ length part = S n /\ dval part = U mod V.
Proof.
  intros Hv Hv1 Hc Hn HV U.
  destruct (take_S_dval n cells Hc Hn) as (x & Hx & EU0). fold U in EU0.
  destruct cells as [|u0 [|u1 [|u2 cells]]]; try (unfold n in Hn; simpl in Hn; lia).
  set (ul := take (length vs) cells). set (E := B ^ Z.of_nat (length vs)).
  assert (length ul = length vs) as Lul by (unfold ul; rewrite length_take; unfold n in Hn; simpl in Hn; lia).
  set (W := u0 :: u1 :: u2 :: ul).
  assert (take (S n) (u0 :: u1 :: u2 :: cells) = W) as EW by done. 
  assert (U = dval W) as EUW by (unfold U; by rewrite EW).
  assert (wf_digits W) as WW by (rewrite <- EW; by apply Forall_take).
  pose proof WW as Hw. apply Forall_cons in Hw as [Hu0 Hw]. apply Forall_cons in Hw as [Hu1 Hw].
  apply Forall_cons in Hw as [Hu2 Hul].
  pose proof Hv as Hw. apply Forall_cons in Hw as [Hv1' Hw]. apply Forall_cons in Hw as [Hv2 Hvs].
  assert (0 < E) as HE by (apply B_pow_pos; lia).
  assert (V = (v1 * B + v2) * E + dval vs) as EV.
  { unfold V. cbn [dval length]. rewrite B_pow_S. fold E. lia. }
  assert (U = ((u0 * B + u1) * B + u2) * E + dval ul) as EU.
  { unfold U. rewrite EW. unfold W. cbn [dval length]. rewrite !B_pow_S, Lul. fold E. lia. }
  pose proof (dval_range _ Hvs) as Rv. fold E in Rv. pose proof (dval_range _ Hul) as Ru. rewrite Lul in Ru. fold E in Ru.
  assert (U < V * B) as HU.
  { rewrite EU0. pose proof (Z.mul_le_mono_nonneg_r (dval (take n (u0 :: u1 :: u2 :: cells))) (V - 1) B
      ltac:(lia) ltac:(lia)). lia. }
  assert (0 < V) as Vp by (eapply V_pos; eauto; lia).
  assert (0 <= U / V < B) as Hq by (eapply (q_range V U v1 v2 u0 u1 u2 (dval vs) (dval ul) E); eauto; lia).
  split; [done|]. unfold div_step. cbn [lookup list_lookup mbind option_bind].
  change DECIMAL_NBASE with B.
  assert (forall q' l, U / V = q' -> l = W -> Some (q', u0 :: u1 :: u2 :: cells) =
    Some (U / V, l ++ drop (S n) (u0 :: u1 :: u2 :: cells))) as Hsame.
  { intros q' l -> ->. by rewrite <- EW, take_drop. }
  destruct (Z.eqb_spec (u0 * B + u1) 0) as [Hz|Hz].
  { assert (u0 = 0 /\ u1 = 0) as [-> ->] by (rewrite B_val in *; lia).
    assert (U < V).
    { rewrite EU, EV. pose proof (Z.mul_le_mono_nonneg_r u2 (B - 1) E ltac:(lia) ltac:(lia)).
      pose proof (Z.mul_le_mono_nonneg_r 1 v1 (B * E) ltac:(rewrite B_val; lia) ltac:(lia)).
      pose proof (Z.mul_nonneg_nonneg v2 E ltac:(lia) ltac:(lia)). lia. }
    assert (0 <= U) by (rewrite EUW; apply dval_range, WW).
    exists W. split; [apply Hsame; [by apply Z.div_small|done]|]. split; [done|].
    split; [simpl; rewrite Lul; done|]. rewrite Z.mod_small by lia. done. }
  set (qhat0 := if u0 =? v1 then B - 1 else Z.quot (u0 * B + u1) v1).
  assert (U / V <= qhat0 < B) as H0
    by (eapply (qhat0_ok V U v1 v2 u0 u1 u2 (dval vs) (dval ul) E); eauto; lia).
  set (qhat := adjust_qhat _ v1 v2 (u0 * B + u1) u2 qhat0).
  assert (U / V <= qhat <= U / V + 1 /\ qhat < B) as [Hqh HqB]
    by (eapply (adjust_ok V U v1 v2 u0 u1 u2 (dval vs) (dval ul) E); eauto; lia).
  destruct (Z.ltb_spec 0 qhat) as [Hpos|Hneg].
  - change (length (0 :: v1 :: v2 :: vs)) with (S n).
    rewrite (proj2 (Nat.ltb_ge _ _)) by lia. rewrite EW.
    destruct (correct_ok W (0 :: v1 :: v2 :: vs) U V qhat) as (part & Ep & Wp & Lp & Vp'); try done; try lia.
    { constructor; [rewrite B_val; lia|done]. }
    { unfold W. simpl. by rewrite Lul. }
    { unfold W. cbn [length]. rewrite Lul. rewrite B_pow_S. pose proof (dval_range _ Hv) as Rv'. fold V in Rv'.
      cbn [length] in Rv'. rewrite Z.mul_comm. apply Z.mul_le_mono_nonneg_l; lia. }
    exists part. split; [|split; [done|split; [rewrite Lp; unfold W; simpl; by rewrite Lul|done]]].
    destruct (sub_multiple (rev W) (rev (0 :: v1 :: v2 :: vs)) qhat 0 0) as [p0 b0].
    destruct (negb (b0 =? 0)); pose proof (f_equal fst Ep) as E1; pose proof (f_equal snd Ep) as E2;
      cbn [fst snd] in E1, E2; by rewrite E1, <- E2.
  - assert (U / V = 0) as Hq0 by lia. exists W. split; [apply Hsame; [lia|done]|]. split; [done|].
    split; [simpl; by rewrite Lul|]. rewrite (Z.mod_eq U V), Hq0 by lia. rewrite <- EUW. lia.
Qed.

(** ** The loops *)

Lemma div_loop_ok v1 v2 vs (V := dval (v1 :: v2 :: vs)) (n := length (v1 :: v2 :: vs)) m : forall cells,
  wf_digits (v1 :: v2 :: vs) -> 0 < v1 -> wf_digits cells -> (n + m <= length cells)%nat ->
  dval (take n cells) < V ->
  exists Q, div_loop m (0 :: v1 :: v2 :: vs) cells = Some Q /\ length Q = m /\ wf_digits Q /\
    dval Q = dval (take (n + m) cells) / V.
Proof.
  intros cells Hv Hv1. assert (0 < V) as Vp.
  { unfold V. cbn [dval]. apply Forall_cons in Hv as [_ Hw]. pose proof (dval_range _ Hw).
    pose proof (B_pow_pos (Z.of_nat (length (v2 :: vs))) ltac:(lia)). cbn [dval length] in *. nia. }
  revert cells. induction m as [|m IH]; intros cells Hc Hl Hlt.
  { exists []. split_and!; try done; [constructor|]. rewrite Nat.add_0_r. symmetry. apply Z.div_small.
    split; [|done]. apply dval_range. by apply Forall_take. }
  destruct (div_step_ok v1 v2 vs cells Hv Hv1 Hc ltac:(lia) Hlt) as (Hq & part & E & Wp & Lp & Vpt).
  fold V n in Hq, E, Lp, Vpt. set (U := dval (take (S n) cells)) in *.
  cbn [div_loop]. rewrite E. cbn [mbind option_bind].
  destruct part as [|p0 part]; [done|]. cbn [app tail]. injection Lp as Lp.
  apply Forall_cons in Wp as [Wp0 Wp]. pose proof (Z.mod_pos_bound U V Vp) as Hm.
  assert (V < B ^ Z.of_nat n) as HVn by (apply dval_range, Hv).
  assert (p0 = 0) as ->.
  { cbn [dval] in Vpt. rewrite Lp in Vpt. pose proof (dval_range _ Wp).
    destruct (Z.le_gt_cases p0 0); [lia|].
    pose proof (Z.mul_le_mono_nonneg_r 1 p0 (B ^ Z.of_nat n) ltac:(lia) ltac:(lia)). lia. }
  cbn [dval] in Vpt. rewrite Z.mul_0_l, Z.add_0_l in Vpt.
  destruct (IH (part ++ drop (S n) cells)) as (Q & EQ & LQ & WQ & VQ).
  { apply Forall_app. split; [done|by apply Forall_drop]. }
  { rewrite length_app, length_drop. lia. }
  { rewrite take_app_le, take_ge by lia. lia. }
  rewrite EQ. cbn [mbind option_bind]. exists (U / V :: Q). split; [done|]. split; [simpl; lia|].
  split; [by constructor|]. cbn [dval]. rewrite VQ, LQ.
  assert (take (n + m) (part ++ drop (S n) cells) = part ++ take m (drop (S n) cells)) as ->
    by (rewrite <- Lp; apply take_app_add).
  assert (take (n + S m) cells = take (S n) cells ++ take m (drop (S n) cells)) as ->.
  { replace (n + S m)%nat with (S n + m)%nat by lia. by rewrite take_take_drop. }
  rewrite !dval_app. fold U. assert (length (take m (drop (S n) cells)) = m) as ->
    by (rewrite length_take, length_drop; lia).
  rewrite Vpt. set (P := B ^ Z.of_nat m). set (t := dval (take m (drop (S n) cells))).
  rewrite (Z.div_mod U V) at 3 by lia.
  replace ((V * (U / V) + U mod V) * P + t) with (U mod V * P + t + U / V * P * V) by lia.
  rewrite Z.div_add by lia. lia.
Qed.

Lemma short_loop_ok v m : forall cells carry,
  wf_digits cells -> 0 < v < B -> 0 <= carry < v -> (m <= length cells)%nat ->
  exists Q, short_loop m cells v carry = Some Q /\ length Q = m /\ wf_digits Q /\
    dval Q = (carry * B ^ Z.of_nat m + dval (take m cells)) / v.
Proof.
  induction m as [|m IH]; intros cells carry Hw Hv Hc Hl.
  { exists []. split_and!; try (by destruct cells); [constructor|]. rewrite take_0. cbn [dval].
    change (B ^ Z.of_nat 0) with 1. symmetry. apply Z.div_small. lia. }
  destruct cells as [|x cells]; [simpl in Hl; lia|]. apply Forall_cons in Hw as [Hx Hw]. simpl in Hl.
  cbn [short_loop]. change DECIMAL_NBASE with B.
  assert (0 <= carry * B + x) as Hn by (rewrite B_val in *; lia).
  rewrite Z.rem_mod_nonneg, Z.quot_div_nonneg by lia.
  pose proof (Z.mod_pos_bound (carry * B + x) v ltac:(lia)) as Hm.
  destruct (IH cells ((carry * B + x) mod v) Hw Hv Hm ltac:(lia)) as (Q & -> & LQ & WQ & VQ).
  cbn [mbind option_bind]. exists ((carry * B + x) / v :: Q). split; [done|]. split; [simpl; lia|].
  split.
  { constructor; [|done]. split; [by apply Z.div_pos; lia|]. apply Z.div_lt_upper_bound; [lia|].
    pose proof (Z.mul_le_mono_nonneg_r carry (v - 1) B ltac:(lia) ltac:(lia)). lia. }
  cbn [dval take]. rewrite VQ, LQ, length_take, Nat.min_l, B_pow_S by lia.
  set (P := B ^ Z.of_nat m). set (t := dval (take m cells)). set (y := carry * B + x) in *.
  replace (carry * (B * P) + (x * P + t)) with (y * P + t) by (unfold y; lia).
  rewrite (Z.div_mod y v) at 3 by lia.
  replace ((v * (y / v) + y mod v) * P + t) with (y mod v * P + t + y / v * P * v) by lia.
  rewrite Z.div_add by lia. lia.
Qed.

(** ** The quotient *)

Lemma dval_take m cells :
  wf_digits cells -> (m <= length cells)%nat ->
  dval (take m cells) = dval cells / B ^ (Z.of_nat (length cells) - Z.of_nat m).
Proof.
  intros Hw Hm. rewrite <- (take_drop m cells) at 2. rewrite dval_app, length_drop.
  replace (Z.of_nat (length cells - m)) with (Z.of_nat (length cells) - Z.of_nat m) by lia.
  pose proof (dval_range (drop m cells) (Forall_drop _ _ _ Hw)) as R. rewrite length_drop in R.
  replace (Z.of_nat (length cells - m)) with (Z.of_nat (length cells) - Z.of_nat m) in R by lia.
  pose proof (B_pow_pos (Z.of_nat (length cells) - Z.of_nat m) ltac:(lia)).
  rewrite Z.add_comm, Z.div_add, (Z.div_small (dval (drop m cells))) by lia. lia.
Qed.

Lemma first_pos x l : 0 < x -> wf_digits (x :: l) -> B ^ Z.of_nat (length l) <= dval (x :: l).
Proof.
  intros Hx Hw. apply Forall_cons in Hw as [_ Hw]. pose proof (dval_range _ Hw). cbn [dval].
  pose proof (B_pow_pos (Z.of_nat (length l)) ltac:(lia)).
  pose proof (Z.mul_le_mono_nonneg_r 1 x (B ^ Z.of_nat (length l)) ltac:(lia) ltac:(lia)). lia.
Qed.

Section quotient.
Context (l r : list Z) (pad m : nat).
Context (Hl : wf_digits l) (Hr : wf_digits r).
Abbreviation n := (length r).
Abbreviation N := (length l + pad)%nat.
Context (HN : (m + n <= N)%nat) (Hfirst : B ^ (Z.of_nat n - 1) <= dval r) (Hn : (1 <= n)%nat).

Definition quotient_spec (Q : list Z) : Prop :=
  length Q = m /\ wf_digits Q /\
  dval Q = (dval l * B ^ Z.of_nat pad) / (dval r * B ^ (Z.of_nat N + 1 - Z.of_nat n - Z.of_nat m)).

Lemma long_quotient d v1 v2 vs cells :
  0 < d -> wf_digits (v1 :: v2 :: vs) -> length (v1 :: v2 :: vs) = n -> 0 < v1 ->
  dval (v1 :: v2 :: vs) = dval r * d ->
  wf_digits cells -> length cells = S N -> dval cells = dval l * B ^ Z.of_nat pad * d ->
  exists Q, div_loop m (0 :: v1 :: v2 :: vs) cells = Some Q /\ quotient_spec Q.
Proof.
  intros Hd Wv Lv Hv1 Ev Wc Lc Ec.
  assert (0 < dval r) as Vp by (pose proof (B_pow_pos (Z.of_nat n - 1) ltac:(lia)); lia).
  pose proof (dval_range _ Hl) as Rl.
  destruct (div_loop_ok v1 v2 vs m cells) as (Q & E & LQ & WQ & VQ); try done; rewrite ?Lv, ?Ev in *.
  { lia. }
  { rewrite dval_take by (try done; lia).
    apply Z.div_lt_upper_bound; [apply B_pow_pos; lia|]. rewrite Ec, Lc.
    assert (dval l * B ^ Z.of_nat pad < B ^ Z.of_nat N) as H1.
    { rewrite Nat2Z.inj_add, Z.pow_add_r by lia. apply Z.mul_lt_mono_pos_r; [apply B_pow_pos; lia|lia]. }
    assert (B ^ Z.of_nat N <= B ^ (Z.of_nat (S N) - Z.of_nat n) * dval r) as H2.
    { replace (Z.of_nat N) with (Z.of_nat (S N) - Z.of_nat n + (Z.of_nat n - 1)) by lia.
      rewrite Z.pow_add_r by lia. apply Z.mul_le_mono_nonneg_l; [|done].
      pose proof (B_pow_pos (Z.of_nat (S N) - Z.of_nat n) ltac:(lia)). lia. }
    rewrite Z.mul_assoc. apply Z.mul_lt_mono_pos_r; lia. }
  exists Q. split; [done|]. split_and!; try done. rewrite VQ, dval_take by (try done; lia).
  pose proof (B_pow_pos (Z.of_nat N + 1 - Z.of_nat n - Z.of_nat m) ltac:(lia)).
  rewrite Lc, Ec. replace (Z.of_nat (S N) - Z.of_nat (n + m)) with
    (Z.of_nat N + 1 - Z.of_nat n - Z.of_nat m) by lia.
  rewrite Z.div_div by nia. rewrite (Z.mul_assoc _ (dval r) d), (Z.mul_comm _ (dval r)).
  apply Z.div_mul_cancel_r; [|lia]. nia.
Qed.

Lemma short_quotient v :
  r = [v] -> exists Q, short_loop m (l ++ repeat 0 pad) v 0 = Some Q /\ quotient_spec Q.
Proof.
  intros Er. pose proof Hr as Hr'. rewrite Er in Hfirst, HN, Hr'.
  change (Z.of_nat (length [v]) - 1) with 0 in Hfirst. change (B ^ 0) with 1 in Hfirst.
  change (length [v]) with 1%nat in HN.
  assert (dval [v] = v) as Ev by (change (dval [v]) with (v * 1 + 0); lia). rewrite Ev in Hfirst.
  apply Forall_cons in Hr' as [Hv _].
  assert (wf_digits (l ++ repeat 0 pad)) as Hc by (apply Forall_app; split; [done|apply wf_repeat0]).
  destruct (short_loop_ok v m (l ++ repeat 0 pad) 0 Hc) as (Q & E & LQ & WQ & VQ);
    [lia|lia|rewrite length_app, repeat_length; lia|].
  exists Q. split; [done|]. unfold quotient_spec. rewrite Er. split_and!; try done. rewrite VQ, Z.mul_0_l, Z.add_0_l.
  assert (length (l ++ repeat 0 pad) = N) as EN by (by rewrite length_app, repeat_length).
  rewrite dval_take, EN by (try done; rewrite EN; lia).
  rewrite dval_app, dval_zeros, repeat_length, Z.add_0_r.
  pose proof (B_pow_pos (Z.of_nat N - Z.of_nat m) ltac:(lia)).
  rewrite Z.div_div, Ev by lia. change (Z.of_nat (length [v])) with 1.
  replace (Z.of_nat N + 1 - 1 - Z.of_nat m) with (Z.of_nat N - Z.of_nat m) by lia. f_equal. lia.
Qed.
End quotient.

Lemma quotient_ok m l r pad :
  wf_digits l -> wf_digits r -> r <> [] -> hd 0 r <> 0 -> (m + length r <= length l + pad)%nat ->
  exists Q, quotient m l r pad = Some Q /\ quotient_spec l r pad m Q.
Proof.
  intros Hl Hr Hne Hh HN. destruct r as [|v1 r]; [done|]. simpl in Hh.
  pose proof Hr as Hw. apply Forall_cons in Hw as [Hv1 Hw].
  assert (B ^ (Z.of_nat (length (v1 :: r)) - 1) <= dval (v1 :: r)) as Hf.
  { cbn [length]. replace (Z.of_nat (S (length r)) - 1) with (Z.of_nat (length r)) by lia.
    apply first_pos; [lia|done]. }
  destruct r as [|v2 r]; [by apply short_quotient|].
  cbn [quotient]. destruct (Z.ltb_spec v1 DECIMAL_HALF_NBASE) as [Hlt|Hge].
  - unfold div_factor. rewrite (proj2 (Z.ltb_lt _ _) Hlt). unfold DECIMAL_HALF_NBASE in *.
    change DECIMAL_NBASE with 10000.
    rewrite Z.quot_div_nonneg by lia. set (d := 10000 / (v1 + 1)).
    assert (1 <= d /\ d * (v1 + 1) <= 10000 /\ d <= 5000) as (Hd1 & Hd2 & Hd3).
    { pose proof (Z.mul_div_le 10000 (v1 + 1) ltac:(lia)). split_and!.
      - apply Z.div_le_lower_bound; lia.
      - unfold d. lia.
      - apply Z.div_le_upper_bound; lia. }
    destruct (scale_exact d (v1 :: v2 :: r)) as (W1 & L1 & E1); try done; try lia.
    { pose proof (dval_range _ Hw) as R. cbn [dval length] in R |- *. rewrite (B_pow_S (S (length r))).
      pose proof (B_pow_pos (Z.of_nat (S (length r))) ltac:(lia)).
      set (P := B ^ Z.of_nat (S (length r))) in *. set (t := v2 * B ^ Z.of_nat (length r) + dval r) in *.
      assert (d * (v1 + 1) * P <= 10000 * P) by (apply Z.mul_le_mono_nonneg_r; lia).
      rewrite B_val. nia. }
    destruct (scale_exact d (0 :: l)) as (W2 & L2 & E2); try lia.
    { constructor; [rewrite B_val; lia|done]. }
    { cbn [dval length]. pose proof (dval_range _ Hl). rewrite B_pow_S, B_val in *. nia. }
    destruct (rev (scale_cells d (rev (v1 :: v2 :: r)) 0)) as [|w1 [|w2 ws]] eqn:Ew; try done.
    apply (long_quotient l (v1 :: v2 :: r) pad m) with (d := d); try done; try lia.
    + cbn [length]. lia.
    + apply Forall_cons in W1 as [Hw1 W1]. destruct (Z.eq_dec w1 0) as [->|]; [|lia]. exfalso.
      pose proof (dval_range _ W1) as R. cbn [length] in L1, R, Hf. injection L1 as L1.
      change (dval (0 :: w2 :: ws)) with (0 * B ^ Z.of_nat (length (w2 :: ws)) + dval (w2 :: ws)) in E1.
      rewrite Z.mul_0_l, Z.add_0_l in E1. rewrite E1, L1 in R.
      replace (Z.of_nat (S (S (length r))) - 1) with (Z.of_nat (S (length r))) in Hf by lia.
      pose proof (B_pow_pos (Z.of_nat (S (length r))) ltac:(lia)).
      pose proof (Z.mul_le_mono_nonneg_l 1 d (dval (v1 :: v2 :: r)) ltac:(lia) ltac:(lia)). lia.
    + apply Forall_app. split; [done|apply wf_repeat0].
    + rewrite length_app, L2, repeat_length. simpl. lia.
    + rewrite dval_app, dval_zeros, repeat_length, E2. cbn [dval]. lia.
  - apply (long_quotient l (v1 :: v2 :: r) pad m) with (d := 1); try done; try lia.
    + cbn [length]. lia.
    + constructor; [rewrite B_val; lia|]. apply Forall_app. split; [done|apply wf_repeat0].
    + cbn [length]. rewrite length_app, repeat_length. lia.
    + cbn [dval]. rewrite dval_app, dval_zeros, repeat_length. lia.
Qed.
