(* ===== verification/BsonDecimalQuot.v ===== *)
(** * Decimals: division is correctly rounded *)
From S2P Require Import Prelude.
From S2P Require Import BsonDecimal.
From S2P Require Import BsonDecimalOk.
From S2P Require Import BsonDecimalAdd.
From S2P Require Import BsonDecimalOps.
From S2P Require Import BsonDecimalRound.
From S2P Require Import BsonDecimalMul.
From S2P Require Import BsonDecimalDiv.
From S2P Require Import BsonDecimalDivOk.
#[local] Open Scope Z_scope.

(** A quotient depends on the difference of the powers only. *)
Lemma div_powers A V X1 Y1 X2 Y2 :
  0 <= X1 -> 0 <= Y1 -> 0 <= X2 -> 0 <= Y2 -> 0 < V -> X1 - Y1 = X2 - Y2 ->
  A * B ^ X1 / (V * B ^ Y1) = A * B ^ X2 / (V * B ^ Y2).
Proof.
  intros H1 H2 H3 H4 HV E.
  assert (forall X Y t, 0 <= X -> 0 <= Y -> 0 <= t ->
    A * B ^ X / (V * B ^ Y) = A * B ^ (X + t) / (V * B ^ (Y + t))) as Hs.
  { intros X Y t HX HY Ht. rewrite !Z.pow_add_r, !Z.mul_assoc by lia.
    pose proof (B_pow_pos Y HY). pose proof (B_pow_pos t Ht).
    rewrite Z.div_mul_cancel_r; [done| |lia]. pose proof (Z.mul_pos_pos V (B ^ Y) HV ltac:(lia)). lia. }
  rewrite (Hs X1 Y1 Y2), (Hs X2 Y2 Y1) by lia. do 2 f_equal; f_equal; lia.
Qed.

(** What the quotient digits are worth: the exact quotient of the two numbers,
    cut after the last of them. *)
Lemma quotient_mag k l r p pad m rq :
  wf_digits (dc_digits l) -> wf_digits (dc_digits r) -> rscale l <= k -> rscale r <= k ->
  0 < dval (dc_digits r) ->
  (m + length (dc_digits r) <= length (dc_digits l) + pad)%nat ->
  dc_weight p = dc_weight l - dc_weight r -> rq = Z.of_nat m - 1 - dc_weight p -> 0 <= rq ->
  quotient_spec (dc_digits l) (dc_digits r) pad m (dc_digits p) ->
  mag rq p = mag k l * B ^ rq / mag k r.
Proof.
  intros Wl Wr Kl Kr Vp HN Hw Erq Hrq (LQ & WQ & VQ).
  apply fits_rscale in Kl, Kr. unfold mag, mg, fits in *.
  rewrite LQ. replace (rq + dc_weight p + 1 - Z.of_nat m) with 0 by lia.
  rewrite Z.pow_0_r, Z.mul_1_r, VQ, <- Z.mul_assoc, <- Z.pow_add_r by lia.
  apply div_powers; lia.
Qed.

(** The whole number nearest to [x / y], the greater one from the middle. *)
Definition round_div (x y : Z) : Z := (2 * x + y) / (2 * y).

Lemma nearest_floor a b U rs rq :
  0 < b -> U = 10 ^ (4 * rq - rs) -> 0 <= rs -> rs < 4 * rq ->
  nearest U (a * B ^ rq / b) = round_div (a * 10 ^ rs) b * U.
Proof.
  intros Hb EU Hrs Hlt. unfold nearest, round_div. f_equal.
  assert (exists h, U = 2 * h /\ 0 < h) as (h & Eh & Hh).
  { exists (5 * 10 ^ (4 * rq - rs - 1)). split; [|pose proof (Z.pow_pos_nonneg 10 (4 * rq - rs - 1)); lia].
    rewrite EU. replace (4 * rq - rs) with (1 + (4 * rq - rs - 1)) at 1 by lia.
    rewrite Z.pow_add_r by lia. lia. }
  assert (B ^ rq = 10 ^ rs * (2 * h)) as EB.
  { rewrite <- Eh, EU, <- Z.pow_add_r, <- pow10_B by lia. f_equal. lia. }
  rewrite Eh, EB.
  replace (2 * (a * (10 ^ rs * (2 * h)) / b) + 2 * h) with (2 * (a * (10 ^ rs * (2 * h)) / b + h)) by lia.
  rewrite Z.div_mul_cancel_l by lia. rewrite <- Z.div_add by lia. rewrite Z.div_div by lia.
  replace (a * (10 ^ rs * (2 * h)) + h * b) with ((2 * (a * 10 ^ rs) + b) * h) by lia.
  replace (b * (2 * h)) with (2 * b * h) by lia. apply Z.div_mul_cancel_r; lia.
Qed.

(** The same value at another scale. *)
Lemma mag_rescale k k' d x rs :
  0 <= rs -> rs <= 4 * k -> rs <= 4 * k' -> rscale d <= k -> rscale d <= k' ->
  mag k d = x * 10 ^ (4 * k - rs) -> mag k' d = x * 10 ^ (4 * k' - rs).
Proof.
  assert (forall k k', 0 <= rs -> rs <= 4 * k -> k <= k' ->
    B ^ (k' - k) * 10 ^ (4 * k - rs) = 10 ^ (4 * k' - rs)) as Hp.
  { intros j j' ? ? ?. rewrite <- pow10_B, <- Z.pow_add_r by lia. f_equal. lia. }
  intros Hrs H1 H2 R1 R2 E. destruct (Z.le_ge_cases k k') as [Hle|Hle].
  - rewrite (mag_scale k k' d), E, <- (Hp k k') by lia. lia.
  - rewrite (mag_scale k' k d), <- (Hp k' k) in E by lia.
    pose proof (B_pow_pos (k - k') ltac:(lia)). nia.
Qed.

Lemma mag_pos_normal k d : wf_digits (dc_digits d) -> rscale d <= k -> dc_digits d <> [] ->
  hd 0 (dc_digits d) <> 0 -> 0 < dval (dc_digits d) /\ 0 < mag k d.
Proof.
  intros Hw Hk%fits_rscale Hne Hh. unfold fits in Hk. destruct (dc_digits d) as [|x ds] eqn:E; [done|].
  simpl in Hh. assert (0 < dval (x :: ds)) as Hp.
  { pose proof Hw as [Hx _]%Forall_cons. pose proof (first_pos x ds ltac:(lia) Hw).
    pose proof (B_pow_pos (Z.of_nat (length ds)) ltac:(lia)). lia. }
  split; [done|]. unfold mag, mg. rewrite E.
  pose proof (B_pow_pos (k + dc_weight d + 1 - Z.of_nat (length (x :: ds))) ltac:(lia)). nia.
Qed.

(** The value of a result at every scale that shows it. *)
Definition has_value (d : bson_decimal) (rs x : Z) : Prop :=
  forall K, rs <= 4 * K -> rscale d <= K -> mag K d = x * 10 ^ (4 * K - rs).

Lemma has_value_intro k d rs x :
  0 <= rs -> rs <= 4 * k -> rscale d <= k -> mag k d = x * 10 ^ (4 * k - rs) -> has_value d rs x.
Proof. intros Hrs H1 H2 E K H3 H4. by apply (mag_rescale k K). Qed.

Definition product_sign (l r : bson_decimal) : Z :=
  if dc_sign l =? dc_sign r then SDB_DECIMAL_POS else SDB_DECIMAL_NEG.

(** What a division leaves: a number in normal form. *)
Definition div_result (l r d : bson_decimal) (rs x : Z) : Prop :=
  finite d /\ normal d /\ dc_dscale d = rs /\ has_value d rs x /\
  (dc_digits d <> [] -> dc_sign d = product_sign l r).

Lemma product_sign_cases l r : product_sign l r = SDB_DECIMAL_POS \/ product_sign l r = SDB_DECIMAL_NEG.
Proof. unfold product_sign. destruct (_ =? _); auto. Qed.

(** The digits that the division computes. *)
Lemma div_digits k l r res rs (isRound : bool) :
  wf_digits (dc_digits l) -> wf_digits (dc_digits r) -> rscale l <= k -> rscale r <= k -> 0 <= rs ->
  hd 0 (dc_digits r) <> 0 -> dc_digits l <> [] ->
  exists p rq, decimal_div_ true true l r res rs isRound =
      (if isRound then '(rc, d) ← decimal_round p rs;
         if negb (rc =? 0) then Some (rc, d) else Some (0, decimal_strip d)
       else Some (0, decimal_strip (decimal_trunc p rs))) /\
    dc_isOwn p = true /\ dc_head p = [0] /\ wf_digits (dc_digits p) /\ dc_sign p = product_sign l r /\
    rscale p = rq /\ rs + (if isRound then 4 else 0) <= 4 * rq /\
    mag rq p = mag k l * B ^ rq / mag k r.
Proof.
  intros Wl Wr Kl Kr Hrs Hh Hl. destruct (dc_digits r) as [|v1 vs] eqn:Er; [done|]. simpl in Hh.
  unfold decimal_div_, dc_ndigits. rewrite Er. destruct (Z.eqb_spec v1 0); [done|].
  destruct (Z.eqb_spec (Z.of_nat (length (dc_digits l))) 0) as [Hz|_].
  { destruct (dc_digits l); [done|]. simpl in Hz. lia. }
  cbn [negb]. fold (product_sign l r). unfold DECIMAL_DEC_DIGITS.
  rewrite Z.quot_div_nonneg by lia.
  pose proof (Z.div_mod (rs + 4 - 1) 4 ltac:(lia)). pose proof (Z.mod_pos_bound (rs + 4 - 1) 4 ltac:(lia)).
  set (c := (rs + 4 - 1) / 4) in *.
  set (m := if isRound then Z.max (dc_weight l - dc_weight r + 1 + c) 1 + 1
            else Z.max (dc_weight l - dc_weight r + 1 + c) 1).
  assert (1 <= m /\ dc_weight l - dc_weight r + 1 + c + (if isRound then 1 else 0) <= m) as [Hm1 Hm2]
    by (unfold m; destruct isRound; lia).
  set (pad := Z.to_nat (Z.max (m + Z.of_nat (length (v1 :: vs))) (Z.of_nat (length (dc_digits l))) -
    Z.of_nat (length (dc_digits l)))).
  rewrite <- Er in Wr.
  destruct (quotient_ok (Z.to_nat m) (dc_digits l) (dc_digits r) pad) as (Q & EQ & HQ); try done;
    rewrite ?Er; try done; [unfold pad; lia|].
  rewrite Er in EQ. rewrite EQ. cbn [mbind option_bind].
  set (p := mkDec (dc_typemod res) (product_sign l r) (dc_dscale res) (dc_weight l - dc_weight r) true [0] Q).
  exists p, (m - 1 - (dc_weight l - dc_weight r)). destruct HQ as (LQ & WQ & VQ).
  split; [by destruct isRound|]. split_and!; try done.
  - unfold rscale, dc_ndigits. simpl. rewrite LQ. lia.
  - destruct isRound; lia.
  - apply (quotient_mag k l r p pad (Z.to_nat m)); try done; try (simpl; lia).
    + apply (mag_pos_normal k r); [done|done|by rewrite Er|by rewrite Er].
    + rewrite Er. unfold pad. lia.
    + simpl. destruct isRound; lia.
Qed.

Lemma div_round_ok k l r res rs :
  finite l -> finite r -> rscale l <= k -> rscale r <= k -> 0 <= rs -> hd 0 (dc_digits r) <> 0 ->
  exists d, decimal_div_ true true l r res rs true = Some (0, d) /\
    div_result l r d rs (round_div (mag k l * 10 ^ rs) (mag k r)).
Proof.
  intros [Sl Wl] [Sr Wr] Kl Kr Hrs Hh.
  assert (dc_digits r <> []) as Hne by (by destruct (dc_digits r)).
  destruct (mag_pos_normal k r Wr Kr Hne Hh) as [_ Hb].
  destruct (decide (dc_digits l = [])) as [Hl|Hl].
  { rewrite (mag_nil k l Hl), Z.mul_0_l. unfold decimal_div_, dc_ndigits. rewrite Hl.
    destruct (dc_digits r) as [|v1 vs]; [done|]. simpl in Hh. destruct (Z.eqb_spec v1 0); [done|].
    eexists. split; [done|]. unfold div_result. split_and!; try done; [split; [by left|constructor]|].
    intros K _ _. unfold round_div. rewrite Z.div_small by lia. done. }
  destruct (div_digits k l r res rs true Wl Wr Kl Kr Hrs Hh Hl)
    as (p & rq & -> & Ho & Hhd & Wp & Sp & Rp & Hrq & Mp).
  destruct (decimal_round_ok rq rs p) as (d1 & -> & E1 & W1 & R1 & S1 & T1 & O1 & G1); try done; try lia.
  { by exists []. }
  cbn [mbind option_bind negb Z.eqb]. eexists. split; [done|].
  destruct (decimal_strip_ok rq d1 O1 W1 ltac:(lia)) as (M1 & M2 & M3 & M4 & M5 & M6 & M7 & M8 & M9).
  unfold div_result. split_and!; try done.
  - split; [|done]. destruct M9 as [->|M9]; [|left; by apply M4].
    destruct G1 as [->|[_ ->]]; [rewrite Sp; apply product_sign_cases|by left].
  - by rewrite M7.
  - apply (has_value_intro rq); try lia. rewrite M1, E1, Mp. by apply nearest_floor; try lia.
  - intros Hd. destruct M9 as [->|M9]; [|done]. destruct G1 as [->|[G1 _]]; [done|].
    exfalso. apply Hd. unfold decimal_strip. rewrite O1, G1. done.
Qed.

Lemma div_scale_range l r : 0 <= decimal_get_div_scale l r <= DECIMAL_MAX_DISPLAY_SCALE.
Proof.
  unfold decimal_get_div_scale. destruct (first_digit _ _) as [w1 f1], (first_digit _ _) as [w2 f2].
  unfold DECIMAL_MIN_DISPLAY_SCALE, DECIMAL_MAX_DISPLAY_SCALE, DECIMAL_MAX_PRECISION. lia.
Qed.

Lemma div_result_scaled k l r d rs x K :
  div_result l r d rs x -> finite l -> finite r -> 0 <= k -> rs <= 4 * K -> rscale d <= K ->
  scaled K d = dsign l * dsign r * (x * 10 ^ (4 * K - rs)).
Proof.
  intros (Hf & Hn & _ & Hv & Hs) [Sl _] [Sr _] Hk H1 H2. unfold scaled. rewrite (Hv K H1 H2).
  destruct (decide (dc_digits d = [])) as [Hd|Hd].
  - pose proof (Hv K H1 H2) as E. rewrite (mag_nil K d Hd) in E. rewrite <- E. lia.
  - f_equal. unfold dsign. rewrite (Hs Hd). unfold product_sign. by destruct Sl as [-> | ->], Sr as [-> | ->].
Qed.

(** C16: division is correctly rounded.  For two numbers in the range of
    [rscale], of which the second is not zero, [decimal_div] gives, with the
    scale [rs] it selects (between 0 and 1000 places), the multiple of
    [10 ^ -rs] nearest to the exact quotient, away from zero from the middle,
    with the sign of the quotient and in normal form; division by zero is an
    error. *)
Theorem decimal_div_exact k l r res :
  finite l -> finite r -> normal r -> rscale l <= k -> rscale r <= k -> 0 <= k ->
  let rs := decimal_get_div_scale l r in
  0 <= rs <= DECIMAL_MAX_DISPLAY_SCALE /\
  if decimal_is_zero r then decimal_div true true l r res = Some (-6, res)
  else exists rc d, decimal_div true true l r res = Some (rc, d) /\
    rc = (if decimal_is_out_of_bound d then -6 else 0) /\ finite d /\ normal d /\ dc_dscale d = rs /\
    forall K, rs <= 4 * K -> rscale d <= K ->
      scaled K d = dsign l * dsign r * (round_div (mag k l * 10 ^ rs) (mag k r) * 10 ^ (4 * K - rs)).
Proof.
  intros Fl Fr Nr Kl Kr Hk rs. pose proof (div_scale_range l r) as Hrs. split; [done|]. fold rs in Hrs.
  unfold decimal_is_zero, decimal_div. rewrite !finite_not_special by done. cbn [orb]. fold rs.
  destruct (dc_digits r) as [|v vs] eqn:Er.
  { unfold decimal_div_. by rewrite Er. }
  destruct Nr as (Hh & _). rewrite Er in Hh. simpl in Hh. destruct (Z.eqb_spec v 0); [done|].
  destruct (div_round_ok k l r res rs) as (d & -> & HR); try done; [lia|by rewrite Er|].
  cbn [mbind option_bind negb Z.eqb]. exists (if decimal_is_out_of_bound d then -6 else 0), d.
  split; [by destruct (decimal_is_out_of_bound d)|]. pose proof HR as (Hf & Hn & Hd & _).
  split_and!; try done. intros K H1 H2. by apply (div_result_scaled k l r d rs).
Qed.

(** -12.5 / 3.0625 is -4.0816326530612245 to 16 places. *)
Lemma decimal_div_exact_witness :
  exists d, decimal_div true true dec_example1 dec_example2 decimal_init = Some (0, d) /\
    scaled 4 d = - 40816326530612245 /\ dc_digits d = [4; 816; 3265; 3061; 2245].
Proof.
  destruct dec_examples_valid as [[F1 _] [F2 N2]].
  destruct (decimal_div_exact 2 dec_example1 dec_example2 decimal_init F1 F2 N2) as [_ H];
    [vm_compute; discriminate|vm_compute; discriminate|lia|].
  change (decimal_is_zero dec_example2) with false in H.
  destruct H as (rc & d & E & _ & _ & _ & _ & Hv). exists d.
  assert (rscale d <= 4) as Hr by (vm_compute in E; injection E as _ <-; vm_compute; discriminate).
  rewrite (Hv 4); [|vm_compute; discriminate|exact Hr].
  split; [|split; [vm_compute; reflexivity|]]; vm_compute in E; injection E as <- <-; reflexivity.
Defined.
