(* ===== verification/BsonDecimalWhole.v ===== *)
(** * Decimals: truncation, whole numbers below and above, remainders *)
From S2P Require Import Prelude.
From S2P Require Import BsonDecimal.
From S2P Require Import BsonDecimalOk.
From S2P Require Import BsonDecimalAdd.
From S2P Require Import BsonDecimalOps.
From S2P Require Import BsonDecimalRound.
From S2P Require Import BsonDecimalMul.
From S2P Require Import BsonDecimalDiv.
From S2P Require Import BsonDecimalDivOk.
From S2P Require Import BsonDecimalQuot.
From S2P Require Import BsonDecimalText.
#[local] Open Scope Z_scope.

(** ** Truncation *)

Definition cut (u v : Z) : Z := v / u * u.

Lemma cut_split u p q : 0 < u -> 0 <= q < u -> cut u (p * u + q) = p * u.
Proof. intros Hu Hq. unfold cut. rewrite Z.div_add_l, (Z.div_small q) by lia. lia. Qed.

Lemma cut_exact u p : 0 < u -> cut u (p * u) = p * u.
Proof. intros. unfold cut. by rewrite Z.div_mul by lia. Qed.

Definition trunc_result (k : Z) (d : bson_decimal) (rs : Z) (d' : bson_decimal) : Prop :=
  mag k d' = cut (10 ^ (4 * k - rs)) (mag k d) /\ wf_digits (dc_digits d') /\
  rscale d' <= Z.max k (-1) /\ dc_dscale d' = rs /\ dc_typemod d' = dc_typemod d /\
  dc_isOwn d' = true /\ (dc_sign d' = dc_sign d \/ (dc_digits d' = [] /\ dc_sign d' = SDB_DECIMAL_POS)).

Section trunc.
Context (k rs : Z) (d : bson_decimal).
Context (Hown : dc_isOwn d = true) (Hwf : wf_digits (dc_digits d)).
Context (Hk : rscale d <= k) (Hrs : rs <= 4 * k).

Abbreviation U := (10 ^ (4 * k - rs)).
Abbreviation D := ((dc_weight d + 1) * 4 + rs).

Lemma trunc_U_pos : 0 < U.
Proof. apply Z.pow_pos_nonneg; lia. Qed.

Lemma trunc_none : D <= 0 -> cut U (mag k d) = 0.
Proof.
  intros Hd. pose proof trunc_U_pos.
  destruct (mg_range k _ _ Hwf (proj1 (fits_rscale k d) Hk)) as [Hk0 Hr]. fold (mag k d) in Hr.
  assert (B ^ (k + dc_weight d + 1) <= U).
  { rewrite <- pow10_B by lia. apply Z.pow_le_mono_r; lia. }
  replace (mag k d) with (0 * U + mag k d) by lia. rewrite cut_split by lia. lia.
Qed.

Lemma trunc_all : 4 * dc_ndigits d <= D -> cut U (mag k d) = mag k d.
Proof.
  intros Hd. pose proof Hk as Hf%fits_rscale. unfold fits, mag, mg, dc_ndigits in *.
  assert (B ^ (k + dc_weight d + 1 - Z.of_nat (length (dc_digits d))) =
    10 ^ (4 * (k + dc_weight d + 1 - Z.of_nat (length (dc_digits d))) - (4 * k - rs)) * U) as ->.
  { rewrite <- pow10_B, <- Z.pow_add_r by lia. f_equal. lia. }
  rewrite Z.mul_assoc. apply cut_exact, trunc_U_pos.
Qed.

Lemma trunc_at_digit m :
  D = 4 * Z.of_nat m -> (m <= length (dc_digits d))%nat ->
  dval (take m (dc_digits d)) * B ^ (k + dc_weight d + 1 - Z.of_nat m) = cut U (mag k d).
Proof.
  intros Hd Hm. pose proof Hk as Hf%fits_rscale. unfold fits in Hf.
  assert (U = B ^ (k + dc_weight d + 1 - Z.of_nat m)) as -> by (rewrite <- pow10_B by lia; f_equal; lia).
  unfold cut, mag, mg. f_equal. rewrite dval_take by done.
  pose proof (div_powers (dval (dc_digits d)) 1 (k + dc_weight d + 1 - Z.of_nat (length (dc_digits d)))
    (k + dc_weight d + 1 - Z.of_nat m) 0 (Z.of_nat (length (dc_digits d)) - Z.of_nat m)
    ltac:(lia) ltac:(lia) ltac:(lia) ltac:(lia) ltac:(lia) ltac:(lia)) as E.
  rewrite Z.pow_0_r, Z.mul_1_r, !Z.mul_1_l in E. by symmetry.
Qed.

Lemma trunc_in_digit before last rest t :
  dc_digits d = before ++ last :: rest -> 1 <= t <= 3 -> D = 4 * Z.of_nat (length before) + t ->
  (dval before * B + (last - last mod 10 ^ (4 - t))) *
    B ^ (k + dc_weight d + 1 - Z.of_nat (length before) - 1) = cut U (mag k d).
Proof.
  intros Hd Ht Hdi. pose proof Hk as Hf%fits_rscale. unfold fits in Hf.
  rewrite Hd, length_app in Hf. cbn [length] in Hf.
  pose proof Hwf as Hw. rewrite Hd in Hw. apply Forall_app in Hw as [_ Hw].
  apply Forall_cons in Hw as [Hlast Hw]. pose proof (dval_range _ Hw) as Hr.
  set (p := 10 ^ (4 - t)) in *.
  set (e := k + dc_weight d + 1 - Z.of_nat (length before) - 1 - Z.of_nat (length rest)).
  set (M := B ^ (Z.of_nat (length rest) + e)).
  assert (0 < M) by (apply B_pow_pos; unfold e; lia).
  assert (M = B ^ Z.of_nat (length rest) * B ^ e) as EM by (apply Z.pow_add_r; unfold e; lia).
  pose proof (B_pow_pos e ltac:(unfold e; lia)) as He.
  assert (U = p * M) as EU.
  { unfold M, p. rewrite <- pow10_split by (unfold e; lia). f_equal. unfold e. lia. }
  assert (exists q, B = q * p /\ 0 < p) as (q & Eq & Hp).
  { assert (t = 1 \/ t = 2 \/ t = 3) as [-> |[-> | ->]] by lia; unfold p;
      [exists 10|exists 100|exists 1000]; done. }
  pose proof (Z.div_mod last p ltac:(lia)) as Edm. pose proof (Z.mod_pos_bound last p Hp) as Hm.
  set (a := last / p) in *. set (x := last mod p) in *.
  assert (mag k d = (dval before * q + a) * U + (x * M + dval rest * B ^ e)) as EV.
  { unfold mag, mg. rewrite Hd, dval_app, length_app. cbn [dval length].
    replace (k + dc_weight d + 1 - Z.of_nat (length before + S (length rest))) with e by (unfold e; lia).
    rewrite EU, B_pow_S, EM, Edm, Eq. ring. }
  assert (0 <= dval rest * B ^ e < M) as Hrest by (rewrite EM; nia).
  assert (0 <= x * M + dval rest * B ^ e < U) as HQ by (rewrite EU; nia).
  rewrite EV, (cut_split U _ _ trunc_U_pos HQ), EU.
  replace (k + dc_weight d + 1 - Z.of_nat (length before) - 1) with (Z.of_nat (length rest) + e)
    by (unfold e; lia).
  fold M. rewrite Eq, Edm. ring.
Qed.
End trunc.

Lemma decimal_trunc_ok k rs d :
  dc_isOwn d = true -> wf_digits (dc_digits d) -> rscale d <= k -> rs <= 4 * k ->
  trunc_result k d rs (decimal_trunc d rs).
Proof.
  intros Ho Hw Hk Hrs. unfold decimal_trunc. rewrite Ho. cbn [negb].
  change (dc_weight (set_dc_dscale d rs)) with (dc_weight d).
  change (dc_digits (set_dc_dscale d rs)) with (dc_digits d).
  change (dc_ndigits (set_dc_dscale d rs)) with (dc_ndigits d).
  unfold DECIMAL_DEC_DIGITS. set (D := (dc_weight d + 1) * 4 + rs).
  destruct (Z.leb_spec D 0) as [Hd|Hd].
  { unfold trunc_result. rewrite trunc_none by done. split_and!; try done; [constructor| |by right].
    unfold rscale, dc_ndigits. simpl. lia. }
  rewrite Z.rem_mod_nonneg, Z.quot_div_nonneg by lia.
  pose proof (Z.div_mod D 4 ltac:(lia)) as Edm. pose proof (Z.mod_pos_bound D 4 ltac:(lia)) as Hm.
  set (t := D mod 4) in *. set (m := D / 4) in *.
  assert ((D + 4 - 1) / 4 = if t =? 0 then m else m + 1) as ->.
  { destruct (Z.eqb_spec t 0); symmetry;
      [apply (Z.div_unique _ _ _ 3)|apply (Z.div_unique _ _ _ (t - 1))]; lia. }
  set (nd := if t =? 0 then m else m + 1).
  assert (4 * nd = D + (if t =? 0 then 0 else 4 - t)) as End by (unfold nd; destruct (Z.eqb_spec t 0); lia).
  destruct (Z.leb_spec nd (dc_ndigits d)) as [Hn|Hn].
  2:{ unfold trunc_result. rewrite trunc_all; try done.
      - split_and!; auto. change (rscale d <= Z.max k (-1)). lia.
      - fold D. destruct (Z.eqb_spec t 0); lia. }
  destruct (Z.ltb_spec 0 t) as [Ht|Ht].
  - destruct (Z.eqb_spec t 0); [lia|]. unfold dc_ndigits in Hn.
    replace (Z.to_nat nd - 1)%nat with (Z.to_nat m) by (unfold nd; lia).
    pose proof (nth_split_digits (dc_digits d) (Z.to_nat m) ltac:(unfold nd in Hn; lia)) as Es.
    set (last := nth (Z.to_nat m) (dc_digits d) 0) in *.
    set (before := take (Z.to_nat m) (dc_digits d)) in *.
    assert (length before = Z.to_nat m) as Lb by (unfold before; rewrite length_take; unfold nd in Hn; lia).
    pose proof Hw as Hw'. rewrite Es in Hw'. apply Forall_app in Hw' as [Wb Hw'].
    apply Forall_cons in Hw' as [Hlast _].
    rewrite round_powers_pow by lia. pose proof (Z.pow_pos_nonneg 10 (4 - t) ltac:(lia) ltac:(lia)).
    rewrite Z.rem_mod_nonneg by lia. pose proof (Z.mod_pos_bound last (10 ^ (4 - t)) ltac:(lia)).
    pose proof (Z.mod_le last (10 ^ (4 - t)) ltac:(lia) ltac:(lia)).
    unfold trunc_result. split_and!; auto.
    + rewrite <- (trunc_in_digit k rs d Hw Hk Hrs _ _ _ t Es) by (rewrite ?Lb; fold D; lia).
      unfold mag, mg. simpl. rewrite dval_app, length_app. change (length [_]) with 1%nat.
      change (B ^ Z.of_nat 1) with B. cbn [dval length]. change (B ^ Z.of_nat 0) with 1. f_equal; [lia|].
      f_equal. lia.
    + apply Forall_app. split; [done|]. apply Forall_singleton. lia.
    + unfold rscale, dc_ndigits in *. simpl. rewrite length_app, Lb. simpl. unfold nd in Hn. lia.
  - assert (t = 0) as Ht0 by lia. rewrite Ht0 in *. simpl in End. unfold dc_ndigits in Hn.
    unfold trunc_result. split_and!; auto.
    + rewrite <- (trunc_at_digit k rs d Hw Hk Hrs (Z.to_nat nd)) by (fold D; lia).
      unfold mag, mg. simpl. rewrite length_take, Nat.min_l by lia. done.
    + by apply Forall_take.
    + unfold rscale, dc_ndigits in *. simpl. rewrite length_take. lia.
Qed.

(** ** Whole numbers below and above *)

(** At the scale [k], one is [B ^ k]. *)
Definition whole_below (k x : Z) : Z := x / B ^ k * B ^ k.
Definition whole_above (k x : Z) : Z := - whole_below k (- x).

Lemma trunc0_leading d : hd 1 (dc_digits d) <> 0 -> hd 1 (dc_digits (decimal_trunc d 0)) <> 0.
Proof.
  intros Hh. unfold decimal_trunc. destruct (dc_isOwn d); [|done]. cbn [negb].
  change (dc_weight (set_dc_dscale d 0)) with (dc_weight d).
  change (dc_digits (set_dc_dscale d 0)) with (dc_digits d).
  unfold DECIMAL_DEC_DIGITS. destruct (Z.leb_spec ((dc_weight d + 1) * 4 + 0) 0); [done|].
  rewrite Z.rem_mod_nonneg, Z.quot_div_nonneg by lia.
  replace (((dc_weight d + 1) * 4 + 0) mod 4) with 0 by (rewrite Z.add_0_r, Z.mod_mul; lia).
  destruct (_ <=? dc_ndigits _); [|done]. cbn [Z.ltb Z.compare dc_digits set_dc_digits].
  assert (0 < ((dc_weight d + 1) * 4 + 0 + 4 - 1) / 4) by (apply Z.div_str_pos; lia).
  destruct (Z.to_nat _) eqn:E; [lia|]. by destruct (dc_digits d).
Qed.

(** The copy with its fraction cut. *)
Lemma truncated_ok k d (tmp := decimal_trunc (decimal_copy true d decimal_init).2 0) :
  finite d -> normal d -> rscale d <= k -> 0 <= k ->
  finite tmp /\ hd 1 (dc_digits tmp) <> 0 /\ rscale tmp <= k /\ dc_dscale tmp = 0 /\
  mag k tmp = cut (B ^ k) (mag k d) /\ scaled k tmp = dsign d * cut (B ^ k) (mag k d).
Proof.
  intros [Sd Wd] (Nd & _) Kd Hk.
  destruct (decimal_trunc_ok k 0 (decimal_copy true d decimal_init).2) as (M & W & R & Ds & _ & _ & S);
    try done; [lia|]. fold tmp in M, W, R, Ds, S. simpl in S.
  rewrite Z.sub_0_r, pow10_B in M by lia. change (mag k (decimal_copy true d decimal_init).2) with (mag k d) in M.
  split_and!; try done; try lia.
  - split; [|done]. destruct S as [->|[_ ->]]; [done|by left].
  - apply (trunc0_leading (decimal_copy true d decimal_init).2 Nd).
  - unfold scaled. rewrite <- M. destruct S as [S|[S _]]; [unfold dsign; by rewrite S|].
    rewrite (mag_nil k tmp S). lia.
Qed.

Lemma weight_le k d W :
  finite d -> normal d -> rscale d <= k -> 0 <= k -> 0 <= W -> mag k d < B ^ (k + W + 1) -> dc_weight d <= W.
Proof.
  intros [_ Wd] (Hh & _ & Hz) Hk%fits_rscale Hk0 HW Hm. unfold fits in Hk.
  destruct (dc_digits d) as [|x ds] eqn:E; [destruct (Hz eq_refl); lia|]. simpl in Hh.
  destruct (Z.le_gt_cases (dc_weight d) W) as [|Hgt]; [done|]. exfalso.
  pose proof Wd as [Hx _]%Forall_cons. pose proof (first_pos x ds ltac:(lia) Wd) as Hf.
  unfold mag, mg in Hm. rewrite E in Hm. cbn [length] in *.
  assert (B ^ (k + W + 1) <= B ^ Z.of_nat (length ds) * B ^ (k + dc_weight d + 1 - Z.of_nat (S (length ds)))).
  { rewrite <- Z.pow_add_r by lia. apply B_pow_le. lia. }
  pose proof (B_pow_pos (k + dc_weight d + 1 - Z.of_nat (S (length ds))) ltac:(lia)) as Hp.
  pose proof (Z.mul_le_mono_nonneg_r _ _ (B ^ (k + dc_weight d + 1 - Z.of_nat (S (length ds)))) ltac:(lia) Hf). lia.
Qed.

Lemma const_one_ok k : 0 <= k -> finite const_one /\ rscale const_one <= k /\ scaled k const_one = B ^ k.
Proof.
  intros Hk. split; [split; [by left|apply Forall_singleton; rewrite B_val; lia]|]. split; [exact Hk|].
  unfold scaled, dsign, mag, mg, const_one. cbn [dc_sign dc_digits dc_weight dval length].
  change (B ^ Z.of_nat 0) with 1. change (SDB_DECIMAL_POS =? SDB_DECIMAL_NEG) with false.
  replace (k + 0 + 1 - Z.of_nat 1) with k by lia. lia.
Qed.

(** The result of [decimal_add] or [decimal_sub] of one, when it stays within
    the bounds. *)
Lemma step_one_ok k tmp v rd W same :
  0 <= k -> signed_ok rd k v -> dscale_ok tmp const_one TLeft k same rd.2 -> dc_dscale tmp = 0 ->
  0 <= W < DECIMAL_MAX_WEIGHT -> Z.abs v < B ^ (k + W + 1) ->
  exists d, finish_arith rd = (0, d) /\ finite d /\ normal d /\ scaled k d = v /\
    dc_dscale d = 0 /\ dc_weight d <= W.
Proof.
  intros Hk Hok Hds Ht HW Hv. apply dscale_ok_range in Hds; [|lia|done]. destruct (finish_arith_ok rd k v Hk Hok) as (E1 & E2 & E3 & E4 & E5 & E6).
  destruct (finish_arith rd) as [rc d]. cbn [fst snd] in *.
  assert (dc_dscale d = 0) as Hd by (rewrite E5; simpl in Hds; lia).
  assert (dc_weight d <= W) as Hw.
  { apply (weight_le k); try done; [lia|]. destruct E3 as [_ E3]. pose proof (mag_nonneg k d E3 E6).
    rewrite <- E2 in Hv. unfold scaled, dsign in Hv. destruct (dc_sign d =? _); lia. }
  assert (decimal_is_out_of_bound d = false) as Hb.
  { unfold decimal_is_out_of_bound. rewrite Hd. apply orb_false_iff. split; [apply Z.leb_gt; lia|done]. }
  rewrite Hb in E1. subst rc. exists d. split_and!; done.
Qed.

Lemma copy_scaled k d res : scaled k (decimal_copy true d res).2 = scaled k d.
Proof. done. Qed.

(** Cutting the fraction, by the sign of the number. *)
Lemma cut_below k v : 0 <= k -> 0 <= v -> cut (B ^ k) v <= v < cut (B ^ k) v + B ^ k.
Proof.
  intros Hk Hv. pose proof (B_pow_pos k Hk). unfold cut.
  pose proof (Z.div_mod v (B ^ k) ltac:(lia)). pose proof (Z.mod_pos_bound v (B ^ k) ltac:(lia)). lia.
Qed.

Lemma whole_below_eq k x w : 0 <= k -> (B ^ k | w) -> w <= x < w + B ^ k -> whole_below k x = w.
Proof.
  intros Hk [c ->] Hx. pose proof (B_pow_pos k Hk). unfold whole_below. f_equal.
  symmetry. apply (Z.div_unique _ _ _ (x - c * B ^ k)); lia.
Qed.

Lemma whole_above_eq k x w : 0 <= k -> (B ^ k | w) -> w - B ^ k < x <= w -> whole_above k x = w.
Proof.
  intros Hk [c ->] Hx. unfold whole_above. rewrite (whole_below_eq k (- x) (- c * B ^ k)); try done; [lia| |lia].
  by exists (- c).
Qed.

Section whole.
Context (k : Z) (d res : bson_decimal) (Fd : finite d) (Nd : normal d) (Kd : rscale d <= k) (Hk : 0 <= k).
Context (Hw : dc_weight d < DECIMAL_MAX_WEIGHT - 1).

Abbreviation tmp := (decimal_trunc (decimal_copy true d decimal_init).2 0).
Abbreviation W := (Z.max (dc_weight d) (-1) + 1).

Lemma cut_divides : (B ^ k | cut (B ^ k) (mag k d)).
Proof. by exists (mag k d / B ^ k). Qed.

(** A step of one from the truncated number stays within the bounds. *)
Lemma step_bound_one : cut (B ^ k) (mag k d) + B ^ k < B ^ (k + W + 1).
Proof.
  destruct Fd as [_ Wd]. destruct (mg_range k _ _ Wd (proj1 (fits_rscale k d) Kd)) as [K0 R].
  fold (mag k d) in R. pose proof (cut_below k (mag k d) Hk ltac:(lia)).
  pose proof (B_pow_pos k Hk) as HB.
  assert (B ^ (k + dc_weight d + 1) <= B ^ (k + W)) by (apply B_pow_le; lia).
  assert (B ^ k <= B ^ (k + W)) by (apply B_pow_le; lia).
  rewrite B_pow_succ by lia. rewrite B_val in *. lia.
Qed.

Lemma cmp_tmp :
  (decimal_cmp d tmp =? 0) = (cut (B ^ k) (mag k d) =? mag k d).
Proof.
  destruct (truncated_ok k d Fd Nd Kd Hk) as (Ft & Lt & Kt & _ & _ & St).
  rewrite (cmp_leading k d tmp) by (try done; apply Nd). rewrite St. unfold scaled, dsign.
  destruct (Z.eqb_spec (cut (B ^ k) (mag k d)) (mag k d)) as [->|Hne]; [by rewrite Z.sub_diag|].
  apply Z.eqb_neq. rewrite Z.sgn_null_iff. destruct (dc_sign d =? _); lia.
Qed.

Lemma one_more :
  exists c, decimal_add true TLeft tmp const_one tmp = (0, c) /\ finite c /\ dc_dscale c = 0 /\
    dc_weight c <= W /\ scaled k c = dsign d * cut (B ^ k) (mag k d) + B ^ k.
Proof.
  destruct (truncated_ok k d Fd Nd Kd Hk) as (Ft & Lt & Kt & Dt & _ & St).
  destruct (const_one_ok k Hk) as (F1 & K1 & S1). unfold decimal_add. rewrite !finite_not_special by done.
  cbn [orb]. destruct (add_signed tmp const_one tmp TLeft k) as [H D]; try done.
  destruct (step_one_ok k tmp _ _ W _ Hk H D Dt) as (c & E & Fc & _ & Sc & Dc & Wc);
    [unfold DECIMAL_MAX_WEIGHT in *; lia| |].
  { rewrite St, S1. pose proof step_bound_one. pose proof (B_pow_pos k Hk).
    pose proof (mag_nonneg k d (proj2 Fd) Kd) as Hm. pose proof (cut_below k (mag k d) Hk Hm).
    assert (0 <= cut (B ^ k) (mag k d)) by (apply Z.mul_nonneg_nonneg; [apply Z.div_pos|]; lia).
    unfold dsign. destruct (dc_sign d =? _); lia. }
  exists c. split_and!; try done. by rewrite Sc, St, S1.
Qed.

Lemma one_less :
  exists c, decimal_sub true TLeft tmp const_one tmp = (0, c) /\ finite c /\ dc_dscale c = 0 /\
    dc_weight c <= W /\ scaled k c = dsign d * cut (B ^ k) (mag k d) - B ^ k.
Proof.
  destruct (truncated_ok k d Fd Nd Kd Hk) as (Ft & Lt & Kt & Dt & _ & St).
  destruct (const_one_ok k Hk) as (F1 & K1 & S1). unfold decimal_sub. rewrite !finite_not_special by done.
  cbn [orb]. destruct (sub_signed tmp const_one tmp TLeft k) as [H D]; try done.
  destruct (step_one_ok k tmp _ _ W _ Hk H D Dt) as (c & E & Fc & _ & Sc & Dc & Wc);
    [unfold DECIMAL_MAX_WEIGHT in *; lia| |].
  { rewrite St, S1. pose proof step_bound_one. pose proof (B_pow_pos k Hk).
    pose proof (mag_nonneg k d (proj2 Fd) Kd) as Hm. pose proof (cut_below k (mag k d) Hk Hm).
    assert (0 <= cut (B ^ k) (mag k d)) by (apply Z.mul_nonneg_nonneg; [apply Z.div_pos|]; lia).
    unfold dsign. destruct (dc_sign d =? _); lia. }
  exists c. split_and!; try done. by rewrite Sc, St, S1.
Qed.

(** The number cut and moved by one, or not, as the sign and the fraction ask. *)
Lemma whole_value :
  whole_above k (scaled k d) =
    dsign d * cut (B ^ k) (mag k d) +
    (if (dc_sign d =? SDB_DECIMAL_POS) && negb (cut (B ^ k) (mag k d) =? mag k d) then B ^ k else 0) /\
  whole_below k (scaled k d) =
    dsign d * cut (B ^ k) (mag k d) -
    (if (dc_sign d =? SDB_DECIMAL_NEG) && negb (cut (B ^ k) (mag k d) =? mag k d) then B ^ k else 0).
Proof.
  pose proof (mag_nonneg k d (proj2 Fd) Kd) as Hm. pose proof (cut_below k (mag k d) Hk Hm) as Hc.
  pose proof (B_pow_pos k Hk) as HB. destruct cut_divides as [c Ec]. unfold scaled, dsign.
  set (C := cut (B ^ k) (mag k d)) in *.
  destruct Fd as [[Sd|Sd] _]; rewrite Sd; simpl (_ =? _);
    destruct (Z.eqb_spec C (mag k d)) as [E|E]; cbn [negb andb];
    (split; [apply whole_above_eq|apply whole_below_eq]); try lia.
  all: rewrite Ec; first [exists c; lia|exists (c + 1); lia|exists (- c); lia|exists (- c - 1); lia].
Qed.
End whole.

Lemma tmp_weight d : dc_weight (decimal_trunc d 0) <= Z.max (dc_weight d) 0.
Proof.
  unfold decimal_trunc. destruct (negb (dc_isOwn d)); [lia|].
  destruct (_ <=? 0); [simpl; lia|]. destruct (_ <=? _); [|simpl; lia].
  destruct (0 <? _); simpl; lia.
Qed.

(** the whole numbers around a number are exact.  [decimal_ceil] gives the
    least whole number that is not below a number, and [decimal_floor] the
    greatest that is not above it, of every sign and scale; both succeed
    unless the number is within one digit of the bounds of a decimal. *)
Theorem decimal_ceil_floor_exact k d res :
  finite d -> normal d -> rscale d <= k -> 0 <= k -> dc_weight d < DECIMAL_MAX_WEIGHT - 1 ->
  (exists c, decimal_ceil true true true d res = (0, c) /\ finite c /\ dc_dscale c = 0 /\
     scaled k c = whole_above k (scaled k d)) /\
  (exists f, decimal_floor true true true d res = (0, f) /\ finite f /\ dc_dscale f = 0 /\
     scaled k f = whole_below k (scaled k d)).
Proof.
  intros Fd Nd Kd Hk Hw. destruct (truncated_ok k d Fd Nd Kd Hk) as (Ft & _ & _ & Dt & _ & St).
  destruct (whole_value k d Fd Kd Hk) as [-> ->].
  unfold decimal_ceil, decimal_floor. rewrite finite_not_special by done. cbn [decimal_copy negb Z.eqb].
  change (mkDec _ _ _ _ true [0] (dc_digits d)) with (decimal_copy true d decimal_init).2.
  rewrite (cmp_tmp k d Fd Nd Kd Hk). set (tmp := decimal_trunc _ 0) in *. split.
  - destruct (_ && _).
    + destruct (one_more k d Fd Nd Kd Hk Hw) as (c & E & Fc & Dc & _ & Sc). fold tmp in E. rewrite E.
      eexists. split; [done|]. split_and!; done.
    + eexists. split; [done|]. split_and!; try done. rewrite Z.add_0_r, <- St. done.
  - destruct (_ && _).
    + destruct (one_less k d Fd Nd Kd Hk Hw) as (c & E & Fc & Dc & Wc & Sc). fold tmp in E. rewrite E.
      cbn [negb Z.eqb]. unfold decimal_is_out_of_bound. cbn [dc_weight dc_dscale]. rewrite Dc.
      rewrite (proj2 (Z.leb_gt _ _)) by (unfold DECIMAL_MAX_WEIGHT in *; lia). cbn [orb].
      eexists. split; [done|]. split_and!; done.
    + cbn [negb Z.eqb]. unfold decimal_is_out_of_bound. cbn [dc_weight dc_dscale]. rewrite Dt.
      pose proof (tmp_weight (decimal_copy true d decimal_init).2) as Hwt. fold tmp in Hwt. simpl in Hwt.
      rewrite (proj2 (Z.leb_gt _ _)) by (unfold DECIMAL_MAX_WEIGHT in *; lia). cbn [orb].
      eexists. split; [done|]. split_and!; try done. rewrite Z.sub_0_r, <- St. done.
Qed.

Lemma decimal_ceil_floor_exact_witness :
  (exists c, decimal_ceil true true true dec_example2 decimal_init = (0, c) /\ scaled 1 c = 40000) /\
  (exists f, decimal_floor true true true dec_example1 decimal_init = (0, f) /\ scaled 1 f = - 130000).
Proof.
  destruct dec_examples_valid as [[F1 N1] [F2 N2]]. split.
  - destruct (decimal_ceil_floor_exact 1 dec_example2 decimal_init F2 N2) as [(c & E & _ & _ & S) _];
      [vm_compute; discriminate|lia|vm_compute; reflexivity|].
    exists c. split; [exact E|]. rewrite S. vm_compute. reflexivity.
  - destruct (decimal_ceil_floor_exact 1 dec_example1 decimal_init F1 N1) as [_ (f & E & _ & _ & S)];
      [vm_compute; discriminate|lia|vm_compute; reflexivity|].
    exists f. split; [exact E|]. rewrite S. vm_compute. reflexivity.
Defined.

(** ** Remainders *)

(** A whole number in normal form has no digits after the point. *)
Lemma whole_rscale d x K :
  finite d -> normal d -> rscale d <= K -> 0 <= K -> mag K d = x * B ^ K -> rscale d <= 0.
Proof.
  intros [_ Wd] (_ & Hl & Hz) HK H0 E. unfold rscale, dc_ndigits in *.
  destruct (decide (dc_digits d = [])) as [Hd|Hd].
  { destruct (Hz Hd) as [_ ->]. rewrite Hd. simpl. lia. }
  destruct (Z.le_gt_cases (Z.of_nat (length (dc_digits d)) - dc_weight d - 1) 0) as [|Hgt]; [done|]. exfalso.
  apply (last_mod _ Hd Hl Wd). set (s := Z.of_nat (length (dc_digits d)) - dc_weight d - 1) in *.
  unfold mag, mg in E. replace (K + dc_weight d + 1 - Z.of_nat (length (dc_digits d))) with (K - s) in E
    by (unfold s; lia).
  replace K with (1 + (s - 1) + (K - s)) in E at 2 by lia. rewrite !Z.pow_add_r, Z.pow_1_r in E by lia.
  pose proof (B_pow_pos (K - s) ltac:(lia)) as Hp.
  assert (dval (dc_digits d) = x * B ^ (s - 1) * B) as ->
    by (apply (Z.mul_reg_r _ _ (B ^ (K - s))); lia).
  apply Z.mod_mul. rewrite B_val. lia.
Qed.

Lemma div_trunc_ok k l r res :
  finite l -> finite r -> rscale l <= k -> rscale r <= k -> hd 0 (dc_digits r) <> 0 ->
  exists d, decimal_div_ true true l r res 0 false = Some (0, d) /\
    div_result l r d 0 (mag k l / mag k r) /\ rscale d <= 0.
Proof.
  intros [Sl Wl] [Sr Wr] Kl Kr Hh.
  assert (dc_digits r <> []) as Hne by (by destruct (dc_digits r)).
  destruct (mag_pos_normal k r Wr Kr Hne Hh) as [_ Hb].
  destruct (decide (dc_digits l = [])) as [Hl|Hl].
  { rewrite (mag_nil k l Hl), Z.div_0_l by lia. unfold decimal_div_, dc_ndigits. rewrite Hl.
    destruct (dc_digits r) as [|v1 vs]; [done|]. simpl in Hh. destruct (Z.eqb_spec v1 0); [done|].
    eexists. split; [done|]. unfold div_result. split_and!; try done. split; [by left|constructor]. }
  destruct (div_digits k l r res 0 false Wl Wr Kl Kr ltac:(lia) Hh Hl)
    as (p & rq & -> & Ho & Hhd & Wp & Sp & Rp & Hrq & Mp).
  destruct (decimal_trunc_ok rq 0 p Ho Wp ltac:(lia) ltac:(lia)) as (E1 & W1 & R1 & S1 & T1 & O1 & G1).
  set (d1 := decimal_trunc p 0) in *. eexists. split; [done|].
  destruct (decimal_strip_ok rq d1 O1 W1 ltac:(lia)) as (M1 & M2 & M3 & M4 & M5 & M6 & M7 & M8 & M9).
  assert (finite (decimal_strip d1)) as Hf.
  { split; [|done]. destruct M9 as [->|M9]; [|left; by apply M4].
    destruct G1 as [->|[_ ->]]; [rewrite Sp; apply product_sign_cases|by left]. }
  pose proof (B_pow_pos rq ltac:(lia)) as HB.
  assert (mag rq (decimal_strip d1) = mag k l / mag k r * B ^ rq) as EV.
  { rewrite M1, E1, Mp, Z.sub_0_r, pow10_B by lia. unfold cut. rewrite Z.div_div by lia.
    by rewrite Z.div_mul_cancel_r by lia. }
  split; [|by apply (whole_rscale _ (mag k l / mag k r) rq); try done; lia].
  unfold div_result. split_and!; try done.
  - by rewrite M7.
  - apply (has_value_intro rq); try lia. by rewrite Z.sub_0_r, pow10_B by lia.
  - intros Hd. destruct M9 as [->|M9]; [|done]. destruct G1 as [->|[G1 _]]; [done|].
    exfalso. apply Hd. unfold decimal_strip. by rewrite O1, G1.
Qed.

(** C23: the remainder is exact.  For two numbers of which the second is not
    zero and shows all its digits, [decimal_mod] gives [x - trunc(x / y) * y]
    with the sign of the dividend, the remainder of C, of numbers of any scale
    (at the scale [2 * k] the remainder at the scale [k] has [k] more places),
    as long as the accumulator of the multiplication has room. *)
Theorem decimal_mod_exact k l r res :
  finite l -> finite r -> hd 0 (dc_digits r) <> 0 -> rscale l <= k -> rscale r <= k -> 0 <= k ->
  0 <= dc_dscale r <= 4 * k -> rscale r <= dc_dscale r ->
  (10 ^ (4 * k - dc_dscale r) | mag k r) -> headroom (rev (dc_digits r)) 0 = true ->
  exists d, decimal_mod l r res = Some (0, d) /\ finite d /\
    scaled (2 * k) d = Z.rem (scaled k l) (scaled k r) * B ^ k.
Proof.
  intros Fl Fr Hh Kl Kr Hk Hds Hrd Hdiv Hroom. unfold decimal_mod. rewrite !finite_not_special by done.
  cbn [orb]. destruct (div_trunc_ok k l r decimal_init Fl Fr Kl Kr Hh) as (q & -> & Hq & Rq).
  cbn [mbind option_bind negb Z.eqb]. pose proof Hq as (Fq & _ & _ & Hv & _).
  pose proof (Hv k ltac:(lia) ltac:(lia)) as Mq. rewrite Z.sub_0_r, pow10_B in Mq by lia.
  pose proof (div_result_scaled k l r q 0 _ k Hq Fl Fr Hk ltac:(lia) ltac:(lia)) as Sq.
  rewrite Z.sub_0_r, pow10_B in Sq by lia.
  destruct (mul_signed k r q q (dc_dscale r)) as (t & -> & St & Ft & _ & _ & Rt); try done; try lia.
  cbn [mbind option_bind negb Z.eqb].
  destruct (sub_signed l t res TOther (2 * k)) as [(E1 & E2 & E3 & _) _]; try done; try lia.
  destruct (decimal_sub_ true TOther l t res) as [rc d]. cbn [fst snd] in *. subst rc.
  exists d. split; [done|]. split; [done|]. rewrite E2.
  assert (scaled (2 * k) t = scaled k r * scaled k q) as ->.
  { rewrite St. assert (nearest (10 ^ (8 * k - dc_dscale r)) (mag k r * mag k q) = mag k r * mag k q) as ->.
    { destruct Hdiv as [c Hc]. rewrite Hc, Mq.
      replace (8 * k - dc_dscale r) with (4 * k - dc_dscale r + 4 * k) by lia.
      rewrite Z.pow_add_r, pow10_B by lia. set (P := 10 ^ (4 * k - dc_dscale r)) in *.
      replace (c * P * (mag k l / mag k r * B ^ k)) with (c * (mag k l / mag k r) * (P * B ^ k)) by lia.
      apply nearest_exact. apply Z.mul_pos_pos; [apply Z.pow_pos_nonneg; lia|apply B_pow_pos; lia]. }
    unfold scaled. lia. }
  rewrite Sq. replace (scaled (2 * k) l) with (scaled k l * B ^ k)
    by (unfold scaled; rewrite (mag_scale k (2 * k) l) by lia; replace (2 * k - k) with k by lia; lia).
  pose proof (mag_nonneg k l (proj2 Fl) Kl) as Hl.
  destruct (mag_pos_normal k r (proj2 Fr) Kr) as [_ Hr]; [by destruct (dc_digits r)|done|].
  assert (Z.rem (scaled k l) (scaled k r) = dsign l * (mag k l - mag k r * (mag k l / mag k r))) as ->.
  { rewrite <- (Z.mod_eq (mag k l) (mag k r)), <- Z.rem_mod_nonneg by lia. unfold scaled, dsign.
    destruct (dc_sign l =? _), (dc_sign r =? _); rewrite ?Z.mul_1_l; change (-1) with (- (1));
      rewrite ?Z.mul_opp_l, ?Z.mul_1_l, ?Z.rem_opp_r, ?Z.rem_opp_l by lia; lia. }
  unfold scaled, dsign. destruct (dc_sign l =? _), (dc_sign r =? _); lia.
Qed.

(** -12.5 modulo 3.0625 is -0.25. *)
Lemma decimal_mod_exact_witness :
  exists d, decimal_mod dec_example1 dec_example2 decimal_init = Some (0, d) /\ scaled 2 d = - 25000000.
Proof.
  destruct dec_examples_valid as [[F1 _] [F2 _]].
  destruct (decimal_mod_exact 1 dec_example1 dec_example2 decimal_init F1 F2) as (d & E & _ & S).
  - discriminate.
  - vm_compute. discriminate.
  - vm_compute. discriminate.
  - lia.
  - split; vm_compute; discriminate.
  - vm_compute. discriminate.
  - exists 30625. vm_compute. reflexivity.
  - vm_compute. reflexivity.
  - exists d. split; [exact E|]. change (2 * 1) with 2 in S. rewrite S. vm_compute. reflexivity.
Defined.
