(* ===== verification/BsonDecimalLong.v ===== *)
(** * Decimals: conversions from and to 64-bit integers *)
From S2P Require Import Prelude.
From S2P Require Import BsonDecimal.
From S2P Require Import BsonDecimalOk.
From S2P Require Import BsonDecimalAdd.
From S2P Require Import BsonDecimalOps.
From S2P Require Import BsonDecimalRound.
From S2P Require Import BsonDecimalMul.
From S2P Require Import BsonDecimalDiv.
From S2P Require Import BsonDecimalDivOk.
From S2P Require Import BsonDecimalQuot.
From S2P Require Import BsonDecimalText.
From S2P Require Import BsonDecimalWhole.
#[local] Open Scope Z_scope.

Abbreviation MAX64 := 9223372036854775808.

Lemma i64_cong x y : i64 (i64 x + y) = i64 (x + y).
Proof.
  unfold i64. f_equal. replace ((x + MAX64) mod 18446744073709551616 - MAX64 + y + MAX64)
    with ((x + MAX64) mod 18446744073709551616 + y) by lia.
  rewrite Z.add_mod_idemp_l by lia. f_equal. lia.
Qed.

(** The value of the digits that are left, after [val]. *)
Definition rest_value (n : nat) (digits : list Z) (val : Z) : Z :=
  (val * B ^ Z.of_nat (length digits) + dval digits) * B ^ (Z.of_nat n - Z.of_nat (length digits)).

Lemma rest_value_step n digits val :
  (length digits <= S n)%nat ->
  rest_value (S n) digits val =
  rest_value n (tail digits) (val * B + match digits with x :: _ => x | [] => 0 end).
Proof.
  intros Hl. unfold rest_value. destruct digits as [|x digits]; cbn [tail length dval].
  - change (Z.of_nat 0) with 0. rewrite !Z.sub_0_r, B_pow_S, Z.pow_0_r. lia.
  - rewrite B_pow_S. simpl in Hl. replace (Z.of_nat (S n) - Z.of_nat (S (length digits)))
      with (Z.of_nat n - Z.of_nat (length digits)) by lia. lia.
Qed.

Lemma rest_value_ge n digits val :
  wf_digits digits -> 0 <= val -> (length digits <= n)%nat -> val * B ^ Z.of_nat n <= rest_value n digits val.
Proof.
  intros Hw Hv Hl. unfold rest_value. pose proof (dval_range _ Hw).
  replace (Z.of_nat n) with (Z.of_nat (length digits) + (Z.of_nat n - Z.of_nat (length digits))) at 1 by lia.
  rewrite Z.pow_add_r, Z.mul_assoc by lia. apply Z.mul_le_mono_nonneg_r; [|lia].
  pose proof (B_pow_pos (Z.of_nat n - Z.of_nat (length digits)) ltac:(lia)). lia.
Qed.

Lemma wf_tail l : wf_digits l -> wf_digits (tail l).
Proof. destruct l; [done|]. by intros [_ ?]%Forall_cons. Qed.

Lemma head_digit l : wf_digits l -> 0 <= match l with x :: _ => x | [] => 0 end < B.
Proof. destruct l; [intros; rewrite B_val; lia|]. by intros [? _]%Forall_cons. Qed.

(** One step of the accumulation. *)
Lemma step_value val (digits : list Z) :
  (match digits with x :: _ => i64 (i64 (val * DECIMAL_NBASE) + x) | [] => i64 (val * DECIMAL_NBASE) end) =
  i64 (val * B + match digits with x :: _ => x | [] => 0 end).
Proof. destruct digits; [by rewrite Z.add_0_r|apply i64_cong]. Qed.

Lemma to_long_loop_ok n : forall digits (neg : bool) val,
  wf_digits digits -> (length digits <= n)%nat -> 0 < val < MAX64 ->
  rest_value n digits val <= MAX64 - (if neg then 0 else 1) ->
  to_long_loop n digits neg val = Some (i64 (rest_value n digits val)).
Proof.
  induction n as [|n IH]; intros digits neg val Hw Hl Hv HT.
  { destruct digits; [|simpl in Hl; lia]. cbn [to_long_loop]. unfold rest_value. simpl.
    change (B ^ 0) with 1. rewrite Z.mul_1_r, Z.add_0_r, Z.mul_1_r, i64_id by lia. done. }
  cbn [to_long_loop]. rewrite step_value, rest_value_step in * by done.
  pose proof (head_digit _ Hw) as Hx. set (x := match digits with x :: _ => x | [] => 0 end) in *.
  assert (length (tail digits) <= n)%nat as Hl' by (destruct digits; simpl in *; lia).
  pose proof (rest_value_ge n (tail digits) (val * B + x) (wf_tail _ Hw) ltac:(rewrite B_val in *; lia) Hl') as Hge.
  pose proof (B_pow_pos (Z.of_nat n) ltac:(lia)) as Hp.
  assert (0 < val * B + x) by (rewrite B_val in *; lia).
  assert (val * B + x <= MAX64 - (if neg then 0 else 1)) as Ht by nia.
  destruct (Z.eq_dec (val * B + x) MAX64) as [E|Hne].
  - destruct neg; [|lia]. rewrite E in *.
    assert (n = O) as ->.
    { destruct n; [done|]. rewrite B_pow_S, B_val in Hge. pose proof (B_pow_pos (Z.of_nat n) ltac:(lia)). nia. }
    destruct (tail digits); [|simpl in Hl'; lia].
    change (i64 MAX64) with (- MAX64). change (i64 (- - MAX64) =? - MAX64) with true. cbn [negb orb].
    change (- MAX64 =? 0) with false. rewrite (proj2 (Z.ltb_ge _ _)) by lia. cbn [orb]. rewrite andb_false_r.
    cbn [to_long_loop]. done.
  - rewrite i64_id by (destruct neg; lia).
    assert (Z.quot (val * B + x) DECIMAL_NBASE = val) as ->.
    { rewrite Z.quot_div_nonneg by (unfold DECIMAL_NBASE; lia).
      rewrite Z.div_add_l, (Z.div_small x) by (unfold DECIMAL_NBASE in *; lia). lia. }
    rewrite Z.eqb_refl. cbn [negb andb]. apply IH; auto using wf_tail. destruct neg; lia.
Qed.

(** An overflow of a positive number is always seen. *)
Lemma to_long_loop_overflow n : forall digits val,
  wf_digits digits -> (length digits <= n)%nat -> 0 < val < MAX64 ->
  MAX64 <= rest_value n digits val -> to_long_loop n digits false val = None.
Proof.
  induction n as [|n IH]; intros digits val Hw Hl Hv HT.
  { destruct digits; [|simpl in Hl; lia]. unfold rest_value in HT. simpl in HT.
    change (B ^ 0) with 1 in HT. lia. }
  cbn [to_long_loop]. rewrite step_value, rest_value_step in * by done. cbn [negb orb]. rewrite andb_true_r.
  pose proof (head_digit _ Hw) as Hx. set (x := match digits with x :: _ => x | [] => 0 end) in *.
  destruct (Z.lt_ge_cases (val * B + x) MAX64) as [Hlt|Hge].
  - rewrite i64_id by (rewrite B_val in *; lia).
    assert (Z.quot (val * B + x) DECIMAL_NBASE = val) as ->.
    { rewrite Z.quot_div_nonneg by (unfold DECIMAL_NBASE in *; lia).
      rewrite Z.div_add_l, (Z.div_small x) by (unfold DECIMAL_NBASE in *; lia). lia. }
    rewrite Z.eqb_refl. cbn [negb]. apply IH; auto using wf_tail; [destruct digits; simpl in *; lia|].
    rewrite B_val in *. lia.
  - destruct (Z.eqb_spec (Z.quot (i64 (val * B + x)) DECIMAL_NBASE) val) as [E|]; [|done]. exfalso.
    assert (exists j, 1 <= j /\ i64 (val * B + x) = val * B + x - j * 18446744073709551616) as (j & Hj & Ei).
    { unfold i64. exists ((val * B + x + MAX64) / 18446744073709551616). split.
      - apply Z.div_le_lower_bound; lia.
      - pose proof (Z.div_mod (val * B + x + MAX64) 18446744073709551616). lia. }
    pose proof (Z.quot_rem' (i64 (val * B + x)) DECIMAL_NBASE) as Hqr. rewrite E, Ei in Hqr.
    pose proof (Z.rem_bound_abs (val * B + x - j * 18446744073709551616) DECIMAL_NBASE) as Hr.
    change DECIMAL_NBASE with 10000 in *. lia.
Qed.

(** ** To an integer *)

(** The whole number nearest to a decimal, away from zero from the middle. *)
Definition nearest_whole (k : Z) (d : bson_decimal) : Z := dsign d * round_div (mag k d) (B ^ k).

Lemma nearest_round_div k v : 0 <= k -> nearest (B ^ k) v = round_div v (B ^ k) * B ^ k.
Proof. done. Qed.

(** The copy that was rounded and stripped. *)
Lemma rounded_ok k d :
  finite d -> rscale d <= k -> 0 <= k ->
  exists d1, decimal_round (decimal_copy true d decimal_init).2 0 = Some (0, d1) /\
    let e := decimal_strip d1 in
    finite e /\ normal e /\ rscale e <= 0 /\ mag 0 e = round_div (mag k d) (B ^ k) /\
    (dc_digits e <> [] -> dc_sign e = dc_sign d).
Proof.
  intros [Sd Wd] Kd Hk.
  destruct (decimal_round_ok k 0 (decimal_copy true d decimal_init).2) as (d1 & E & M & W & R & _ & _ & O & S);
    try done; [by exists []|lia|].
  change (mag k (decimal_copy true d decimal_init).2) with (mag k d) in M.
  rewrite Z.sub_0_r, pow10_B, nearest_round_div in M by lia. exists d1. split; [done|]. cbv zeta.
  destruct (decimal_strip_ok k d1 O W ltac:(lia)) as (M1 & _ & M3 & M4 & M5 & _ & _ & _ & M9).
  assert (finite (decimal_strip d1)) as Hf.
  { split; [|done]. destruct M9 as [->|M9]; [|left; by apply M4]. simpl in S.
    destruct S as [->|[_ ->]]; [done|by left]. }
  assert (rscale (decimal_strip d1) <= 0) as Hr
    by (apply (whole_rscale _ (round_div (mag k d) (B ^ k)) k); try done; [lia|congruence]).
  split_and!; try done.
  - rewrite M in M1. rewrite (mag_scale 0 k (decimal_strip d1)) in M1 by lia. rewrite Z.sub_0_r in M1.
    pose proof (B_pow_pos k Hk). apply (Z.mul_reg_r _ _ (B ^ k)); lia.
  - intros Hd. destruct M9 as [->|M9]; [|done]. simpl in S. destruct S as [->|[S _]]; [done|].
    exfalso. apply Hd. unfold decimal_strip. by rewrite O, S.
Qed.

(** What [decimal_to_long] gives for the rounded number. *)
Lemma to_long_value k d :
  finite d -> rscale d <= k -> 0 <= k -> let v := nearest_whole k d in
  (- MAX64 <= v < MAX64 -> decimal_to_long true d = Some v) /\
  (MAX64 <= v -> decimal_to_long true d = Some 0).
Proof.
  intros Fd Kd Hk v. unfold v, nearest_whole, decimal_to_long. rewrite finite_not_special by done.
  destruct (rounded_ok k d Fd Kd Hk) as (d1 & E & (Se & We) & Ne & Re & Me & Sg).
  change (decimal_copy true d decimal_init) with (0, (decimal_copy true d decimal_init).2).
  cbn [negb Z.eqb]. rewrite E. cbn [mbind option_bind negb Z.eqb]. cbv zeta in *.
  set (e := decimal_strip d1) in *. set (V := round_div (mag k d) (B ^ k)) in *.
  destruct (dc_digits e) as [|x ds] eqn:Ed.
  { rewrite (mag_nil 0 e Ed) in Me. rewrite <- Me, Z.mul_0_r. done. }
  specialize (Sg ltac:(done)). pose proof Ne as (Hh & _). rewrite Ed in Hh. simpl in Hh.
  apply Forall_cons in We as [Hx Wds]. unfold rscale, dc_ndigits in *. rewrite Ed in *. cbn [length] in *.
  rewrite (proj2 (Z.ltb_ge (dc_weight e) 0)) by lia. rewrite (proj2 (Z.ltb_ge _ _)) by lia. cbn [orb].
  assert (rest_value (Z.to_nat (dc_weight e)) ds x = V) as EV.
  { rewrite <- Me. unfold mag, mg, rest_value. rewrite Ed. cbn [dval length].
    rewrite Z2Nat.id by lia. f_equal. f_equal. lia. }
  assert (0 < x < MAX64) by (rewrite B_val in Hx; lia).
  assert (0 < V) as HV.
  { rewrite <- Me. apply normal_pos; try done; rewrite ?Ed; try done; [by constructor|].
    unfold rscale, dc_ndigits. rewrite Ed. cbn [length]. lia. }
  rewrite Sg. unfold dsign. destruct Fd as [[-> | ->] _]; cbn [Z.eqb]; simpl (_ =? _).
  - split; intros HR.
    + rewrite to_long_loop_ok; rewrite ?EV; try done; try lia. by rewrite i64_id, Z.mul_1_l by lia.
    + rewrite to_long_loop_overflow; try done; rewrite ?EV; lia.
  - split; intros HR; [|lia]. rewrite to_long_loop_ok; rewrite ?EV; try done; try lia.
    destruct (Z.eq_dec V MAX64) as [->|]; [done|]. rewrite (i64_id V), i64_id by lia. f_equal; lia.
Qed.

(** C24: conversion to 64-bit integers.  [decimal_to_long] gives the whole number
    nearest to a decimal, away from zero from the middle, whenever it is a
    64-bit integer, the least one included; for every greater number it gives
    the 0 that stands for an overflow. *)
Theorem decimal_to_long_exact k d :
  finite d -> rscale d <= k -> 0 <= k ->
  (- MAX64 <= nearest_whole k d < MAX64 -> decimal_to_long true d = Some (nearest_whole k d)) /\
  (MAX64 <= nearest_whole k d -> decimal_to_long true d = Some 0).
Proof. intros Fd Kd Hk. by apply to_long_value. Qed.

Lemma decimal_to_long_exact_witness : decimal_to_long true dec_example1 = Some (-13).
Proof.
  destruct dec_examples_valid as [[F1 _] _].
  destruct (decimal_to_long_exact 1 dec_example1 F1) as [H _]; [vm_compute; discriminate|lia|].
  rewrite H; [vm_compute; reflexivity|split; vm_compute; [discriminate|reflexivity]].
Defined.

(** the test for an overflow misses some negative numbers.  The decimal
    -27670116110564327424, which is three times the least 64-bit integer, is
    converted to the least 64-bit integer: the accumulator wraps to it, and it
    is then taken for the one value whose negation is itself. *)
Theorem decimal_to_long_overflow_missed :
  let d := mkDec (-1) SDB_DECIMAL_NEG 0 4 true [0] [2767; 116; 1105; 6432; 7424] in
  finite d /\ normal d /\ scaled 0 d = 3 * - MAX64 /\ nearest_whole 0 d = 3 * - MAX64 /\
  decimal_to_long true d = Some (- MAX64).
Proof.
  cbv zeta. split_and!; try (vm_compute; reflexivity).
  - split; [by right|]. apply (bool_decide_unpack _). vm_compute. exact I.
  - unfold normal. simpl. split_and!; done.
Qed.

(** ** From an integer and back *)

Lemma long_digits_ok fuel : forall uval acc,
  0 < uval < B ^ Z.of_nat fuel ->
  exists l, long_digits fuel uval acc = l ++ acc /\ wf_digits l /\ dval l = uval /\ l <> [] /\ hd 1 l <> 0.
Proof.
  induction fuel as [|fuel IH]; intros uval acc Hu; [change (B ^ Z.of_nat 0) with 1 in Hu; lia|].
  cbn [long_digits]. change DECIMAL_NBASE with B. rewrite B_pow_S in Hu.
  pose proof (Z.div_mod uval B ltac:(rewrite B_val; lia)) as Edm.
  pose proof (Z.mod_pos_bound uval B ltac:(rewrite B_val; lia)) as Hm.
  replace (uval - uval / B * B) with (uval mod B) by lia.
  destruct (Z.eqb_spec (uval / B) 0) as [E|E].
  - exists [uval mod B]. split_and!; try done; [by apply Forall_singleton| |simpl; lia].
    change (dval [uval mod B]) with (uval mod B * 1 + 0). lia.
  - destruct (IH (uval / B) (uval mod B :: acc)) as (l & -> & Wl & Vl & Nl & Hl).
    { pose proof (Z.div_pos uval B ltac:(lia) ltac:(rewrite B_val; lia)).
      split; [lia|]. apply Z.div_lt_upper_bound; [rewrite B_val; lia|lia]. }
    exists (l ++ [uval mod B]). split_and!.
    + by rewrite <- app_assoc.
    + apply Forall_app. split; [done|by apply Forall_singleton].
    + rewrite dval_app, Vl. change (Z.of_nat (length [uval mod B])) with 1.
      change (dval [uval mod B]) with (uval mod B * 1 + 0). rewrite Z.pow_1_r. lia.
    + by destruct l.
    + by destruct l.
Qed.

Lemma from_long_ok junk v d :
  - MAX64 <= v < MAX64 -> dc_typemod d = -1 ->
  exists d', decimal_from_long true junk v d = Some (0, d') /\ finite d' /\ rscale d' <= 0 /\
    scaled 0 d' = v /\ hd 1 (dc_digits d') <> 0.
Proof.
  intros Hv Ht. unfold decimal_from_long. cbn [negb]. rewrite Ht.
  destruct (Z.eqb_spec v 0) as [->|Hnz].
  { eexists. split; [done|]. split_and!; try done. split; [by left|constructor]. }
  set (u := if v <? 0 then u64 (- v) else v).
  assert (u = Z.abs v) as Eu by (unfold u; destruct (Z.ltb_spec v 0); [rewrite u64_id by lia|]; lia).
  destruct (long_digits_ok 5 u []) as (l & -> & Wl & Vl & Nl & Hl).
  { rewrite Eu. change (B ^ Z.of_nat 5) with 100000000000000000000. lia. }
  rewrite app_nil_r. unfold decimal_apply_typmod. cbn [dc_typemod]. change (-1 =? -1) with true.
  cbn [mbind option_bind negb Z.eqb]. eexists. split; [done|]. split_and!.
  - split; [|done]. destruct (v <? 0); auto.
  - unfold rscale, dc_ndigits. simpl. lia.
  - unfold scaled, dsign, mag, mg. cbn [dc_sign dc_weight dc_digits].
    replace (0 + (Z.of_nat (length l) - 1) + 1 - Z.of_nat (length l)) with 0 by lia.
    rewrite Z.pow_0_r, Vl, Eu. destruct (Z.ltb_spec v 0); simpl; lia.
  - done.
Qed.

(** 64-bit integers survive the way through a decimal.  Every 64-bit
    integer, the least one included, is converted without error to a decimal
    that has its exact value, and converting that back gives the integer. *)
Theorem decimal_long_roundtrip junk v d :
  - MAX64 <= v < MAX64 -> dc_typemod d = -1 ->
  exists d', decimal_from_long true junk v d = Some (0, d') /\ finite d' /\ scaled 0 d' = v /\
    decimal_to_long true d' = Some v.
Proof.
  intros Hv Ht. destruct (from_long_ok junk v d Hv Ht) as (d' & E & Fd & Rd & Sd & _).
  exists d'. split_and!; try done. destruct (to_long_value 0 d' Fd Rd ltac:(lia)) as [H _].
  assert (nearest_whole 0 d' = v) as Ev.
  { rewrite <- Sd. unfold nearest_whole, scaled, round_div. rewrite Z.pow_0_r. f_equal.
    symmetry. apply (Z.div_unique _ _ _ 1); lia. }
  rewrite Ev in H. by apply H.
Qed.

Lemma decimal_long_roundtrip_witness :
  exists d', decimal_from_long true [] (- MAX64) decimal_init = Some (0, d') /\
    dc_digits d' = [922; 3372; 368; 5477; 5808] /\ decimal_to_long true d' = Some (- MAX64).
Proof.
  destruct (decimal_long_roundtrip [] (- MAX64) decimal_init) as (d' & E & _ & _ & E2);
    [lia|reflexivity|].
  exists d'. split; [exact E|]. split; [|exact E2]. vm_compute in E. injection E as <-. reflexivity.
Defined.
