(* ===== verification/BsonDecimalValue.v ===== *)
(** * Decimals as BSON values (src/src/bson/common_decimal.c, bsonDecimal.cpp,
    bsonobjbuilder.h)

    A value is its size, the precision, the sign with the display scale, the
    weight, and the digits, little endian. *)
From S2P Require Import Prelude.
From S2P Require Import ByteBits.
From S2P Require Import BsonDecimal.
From S2P Require Import BsonDecimalOk.
From S2P Require Import BsonDecimalOps.
From S2P Require Import BsonDecimalDiv.
#[local] Open Scope Z_scope.

Definition i16_bytes (x : Z) : list Z := [x mod 256; (x / 256) mod 256].

(** ** Writing *)

Definition getStorageScale (d : bson_decimal) : Z :=
  i16 (Z.lor (Z.land (dc_dscale d) DECIMAL_DSCALE_MASK) (dc_sign d)).

Definition getSize (d : bson_decimal) : Z := i32 (DECIMAL_HEADER_SIZE + dc_ndigits d * 2).

(** The bytes that [BSONObjBuilder::append] adds after the name of a field. *)
Definition append_decimal (d : bson_decimal) : list Z :=
  u32_bytes (u32 (getSize d)) ++ u32_bytes (u32 (dc_typemod d)) ++
  i16_bytes (getStorageScale d) ++ i16_bytes (i16 (dc_weight d)) ++
  concat (map i16_bytes (dc_digits d)).

(** ** Reading *)

Definition short_at (value : list Z) : option (Z * list Z) :=
  match value with
  | b0 :: b1 :: value => Some (i16 (b0 + b1 * 256), value)
  | _ => None
  end.

Definition int_at_value (value : list Z) : option (Z * list Z) :=
  match value with
  | b0 :: b1 :: b2 :: b3 :: value => Some (i32 (bytes_u32 [b0; b1; b2; b3]), value)
  | _ => None
  end.

Fixpoint shorts_at (n : nat) (value : list Z) : option (list Z) :=
  match n with
  | O => Some []
  | S n => '(x, value) ← short_at value; rest ← shorts_at n value; Some (x :: rest)
  end.

(** [None]: undefined behaviour, a byte after those that are there or a write
    in front of an empty buffer.  The size is divided as an unsigned number. *)
Definition decimal_from_bsonvalue (alloc : bool) (value : list Z) (d : bson_decimal)
    : option (Z * bson_decimal) :=
  '(size, value) ← int_at_value value;
  '(typemod, value) ← int_at_value value;
  '(scale, value) ← short_at value;
  '(weight, value) ← short_at value;
  let ndig := i32 (u64 (size - DECIMAL_HEADER_SIZE) / 2) in
  if ndig =? -1 then None
  else if (ndig <? 0) || negb alloc then Some (-2, decimal_free d)
  else
    digits ← shorts_at (Z.to_nat ndig) value;
    Some (0, mkDec typemod (Z.land scale DECIMAL_SIGN_MASK) (Z.land scale DECIMAL_DSCALE_MASK)
               weight true [0] digits).

(** ** Operations of [bsonDecimal] that keep the precision *)

Definition decimal_get_typemod2 (d : bson_decimal) : Z := dc_typemod d.

Definition decimal_from_int (alloc : bool) (junk : list Z) (value : Z) (d : bson_decimal)
    : option (Z * bson_decimal) := decimal_from_long alloc junk value d.

(** [bsonDecimal::add( right )]: the sum replaces the decimal and takes its
    precision. *)
Definition bson_add (a1 a2 : bool) (d right : bson_decimal) : option (Z * bson_decimal) :=
  let '(rc, result) := decimal_add a1 TOther d right decimal_init in
  if negb (rc =? 0) then Some (rc, d)
  else
    let typemod := decimal_get_typemod2 d in
    let '(rc, d) := decimal_copy a2 result d in
    if negb (rc =? 0) then Some (rc, d) else decimal_update_typemod d typemod.

Definition bson_ceil (d result : bson_decimal) : option (Z * bson_decimal) :=
  let '(rc, result) := decimal_ceil true true true d result in
  if negb (rc =? 0) then Some (rc, result) else decimal_update_typemod result (-1).

Definition bson_floor (d result : bson_decimal) : option (Z * bson_decimal) :=
  let '(rc, result) := decimal_floor true true true d result in
  if negb (rc =? 0) then Some (rc, result) else decimal_update_typemod result (-1).

Definition bson_mod (d right result : bson_decimal) : option (Z * bson_decimal) :=
  '(rc, result) ← decimal_mod d right result;
  if negb (rc =? 0) then Some (rc, result) else decimal_update_typemod result (-1).

(** [None]: undefined behaviour. *)
Definition bson_compare_int (alloc : bool) (junk : list Z) (d : bson_decimal) (right : Z) : option Z :=
  '(rc, r) ← decimal_from_int alloc junk right decimal_init;
  Some (if negb (rc =? 0) then 1 else decimal_cmp d r).

(** ** A value read back *)

Lemma i16_bytes_short x l : - 32768 <= x < 32768 -> short_at (i16_bytes x ++ l) = Some (x, l).
Proof.
  intros Hx. unfold i16_bytes, short_at. cbn [app]. do 2 f_equal. unfold i16.
  pose proof (Z.div_mod x 256 ltac:(lia)) as E1. pose proof (Z.div_mod (x / 256) 256 ltac:(lia)) as E2.
  replace (x mod 256 + (x / 256) mod 256 * 256 + 32768) with (x + 32768 + (- (x / 256 / 256)) * 65536) by lia.
  rewrite Z.mod_add by lia. rewrite Z.mod_small; lia.
Qed.

Lemma u32_bytes_int x l :
  - 2147483648 <= x < 2147483648 -> int_at_value (u32_bytes (u32 x) ++ l) = Some (x, l).
Proof.
  intros Hx. unfold int_at_value, u32_bytes. cbn [app]. fold (u32_bytes (u32 x)).
  rewrite bytes_u32_bytes by apply u32_range. do 2 f_equal. unfold i32, u32.
  rewrite Z.add_mod_idemp_l by lia. rewrite Z.mod_small; lia.
Qed.

Lemma shorts_ok ds l :
  Forall (fun x => - 32768 <= x < 32768) ds ->
  shorts_at (length ds) (concat (map i16_bytes ds) ++ l) = Some ds.
Proof.
  induction 1 as [|x ds Hx _ IH]; [done|]. cbn [length shorts_at map concat].
  rewrite <- app_assoc, i16_bytes_short by done. cbn [mbind option_bind]. by rewrite IH.
Qed.

(** Masks of 16 bits do not see the sign extension. *)
Lemma land_i16 x m : 0 <= m < 65536 -> Z.land (i16 x) m = Z.land x m.
Proof.
  intros Hm. assert (forall y, Z.land y m = Z.land (y mod 65536) m) as H.
  { intros y. change 65536 with (2 ^ 16). rewrite <- Z.land_ones, <- Z.land_assoc by lia. f_equal.
    rewrite Z.land_comm, Z.land_ones by lia. symmetry. apply Z.mod_small. done. }
  rewrite H, (H x). f_equal. unfold i16.
  replace ((x + 32768) mod 65536 - 32768) with ((x + 32768) mod 65536 + - 32768) by lia.
  rewrite Z.add_mod_idemp_l by lia. f_equal. lia.
Qed.

Definition storable (d : bson_decimal) : Prop :=
  (dc_sign d = SDB_DECIMAL_POS \/ dc_sign d = SDB_DECIMAL_NEG \/ dc_sign d = SDB_DECIMAL_SPECIAL_SIGN) /\
  0 <= dc_dscale d <= DECIMAL_MAX_DSCALE /\ - 32768 <= dc_weight d < DECIMAL_MAX_WEIGHT /\
  - 2147483648 <= dc_typemod d < 2147483648 /\ wf_digits (dc_digits d) /\
  DECIMAL_HEADER_SIZE + dc_ndigits d * 2 < 2147483648.

Lemma bson_roundtrip_fields d tail t :
  storable d ->
  exists d', decimal_from_bsonvalue true (append_decimal d ++ tail) t = Some (0, d') /\
    dc_typemod d' = dc_typemod d /\ dc_sign d' = dc_sign d /\ dc_dscale d' = dc_dscale d /\
    dc_weight d' = dc_weight d /\ dc_digits d' = dc_digits d /\ dc_isOwn d' = true.
Proof.
  intros (Hs & Hds & Hw & Ht & Hd & Hn). unfold decimal_from_bsonvalue, append_decimal.
  unfold DECIMAL_MAX_DSCALE, DECIMAL_MAX_WEIGHT, DECIMAL_HEADER_SIZE in *.
  assert (getSize d = 12 + dc_ndigits d * 2) as Eg.
  { unfold getSize, DECIMAL_HEADER_SIZE, dc_ndigits in *. apply i32_id. lia. }
  rewrite <- !app_assoc. rewrite Eg, u32_bytes_int by (unfold dc_ndigits in *; lia). cbn [mbind option_bind].
  rewrite u32_bytes_int by done. cbn [mbind option_bind].
  assert (forall x, - 32768 <= i16 x < 32768) as Hi.
  { intros x. unfold i16. pose proof (Z.mod_pos_bound (x + 32768) 65536). lia. }
  rewrite i16_bytes_short by (unfold getStorageScale; apply Hi). cbn [mbind option_bind].
  rewrite i16_bytes_short by apply Hi. cbn [mbind option_bind].
  replace (12 + dc_ndigits d * 2 - 12) with (dc_ndigits d * 2) by lia. unfold dc_ndigits in *.
  rewrite u64_id, Z.div_mul, i32_id by lia.
  rewrite (proj2 (Z.eqb_neq _ _)) by lia. rewrite (proj2 (Z.ltb_ge _ _)) by lia. cbn [orb negb].
  rewrite Nat2Z.id, shorts_ok.
  2:{ eapply Forall_impl; [exact Hd|]. simpl. unfold DECIMAL_NBASE. lia. }
  cbn [mbind option_bind]. eexists. split; [done|].
  cbn [dc_typemod dc_sign dc_dscale dc_weight dc_digits dc_isOwn].
  unfold getStorageScale. rewrite !land_i16, !Z.land_lor_distr_l by (vm_compute; split; [discriminate|reflexivity]).
  assert (Z.land (dc_dscale d) DECIMAL_DSCALE_MASK = dc_dscale d) as Em.
  { change DECIMAL_DSCALE_MASK with (Z.ones 14). rewrite Z.land_ones by lia. apply Z.mod_small. lia. }
  rewrite Em, Em. assert (Z.land (dc_dscale d) DECIMAL_SIGN_MASK = 0) as ->.
  { rewrite <- Em, <- Z.land_assoc. apply Z.land_0_r. }
  split_and!; try done.
  - by destruct Hs as [-> |[-> | ->]].
  - destruct Hs as [-> |[-> | ->]]; apply Z.lor_0_r.
  - unfold i16. rewrite Z.mod_small by lia. lia.
Qed.

(** C25: decimals survive storage.  What [BSONObjBuilder::append] writes for a
    decimal within the bounds, special values included, is read back by
    [decimal_from_bsonvalue], whatever bytes follow, as the same precision,
    sign, display scale, weight and digits. *)
Theorem decimal_bson_roundtrip d tail t :
  storable d ->
  exists d', decimal_from_bsonvalue true (append_decimal d ++ tail) t = Some (0, d') /\
    dc_typemod d' = dc_typemod d /\ dc_sign d' = dc_sign d /\ dc_dscale d' = dc_dscale d /\
    dc_weight d' = dc_weight d /\ dc_digits d' = dc_digits d /\ dc_isOwn d' = true.
Proof. apply bson_roundtrip_fields. Qed.

Lemma decimal_bson_roundtrip_witness :
  exists d', decimal_from_bsonvalue true (append_decimal dec_example1 ++ [0; 1; 2]) decimal_init = Some (0, d') /\
    dc_sign d' = SDB_DECIMAL_NEG /\ dc_digits d' = [12; 5000].
Proof.
  destruct (decimal_bson_roundtrip dec_example1 [0; 1; 2] decimal_init) as (d' & E & _ & S & _ & _ & D & _).
  - split_and!; try (vm_compute; discriminate); try (vm_compute; reflexivity).
    + right. left. reflexivity.
    + apply (bool_decide_unpack _). vm_compute. exact I.
  - exists d'. split; [exact E|]. split; [exact S|exact D].
Defined.
