(* ===== verification/BsonDecimalTyped.v ===== *)
(** * Decimals: the values that the operations produce are well typed *)
From S2P Require Import Prelude.
From S2P Require Import BsonDecimal.
From S2P Require Import BsonDecimalOk.
From S2P Require Import BsonDecimalAdd.
From S2P Require Import BsonDecimalOps.
From S2P Require Import BsonDecimalRound.
From S2P Require Import BsonDecimalMul.
From S2P Require Import BsonDecimalStr.
From S2P Require Import BsonDecimalParse.
From S2P Require Import BsonDecimalAccept.
From S2P Require Import BsonDecimalDiv.
From S2P Require Import BsonDecimalQuot.
From S2P Require Import BsonDecimalWhole.
From S2P Require Import BsonDecimalLong.
From S2P Require Import BsonDecimalValue.
#[local] Open Scope Z_scope.























(** With a precision, the rounding of [_decimal_apply_typmod] comes after the
    digits have been stripped: -0.0004 read with 4 digits of which 3 are after
    the point is a zero that is not in normal form, negative and with a digit.
    [decimal_is_zero] takes it for zero, [decimal_cmp] for less than zero. *)
Lemma rounded_zero_unequal :
  let t := mkDec 262147 SDB_DECIMAL_POS 0 0 false [] [] in
  exists d, decimal_from_str true true [45; 48; 46; 48; 48; 48; 52] t = Some (0, d) /\
    dc_digits d = [0] /\ dc_sign d = SDB_DECIMAL_NEG /\ scaled 1 d = 0 /\
    decimal_is_zero d = true /\ decimal_cmp d decimal_init = -1.
Proof.
  cbv zeta. destruct (decimal_from_str _ _ _ _) as [[rc d]|] eqn:E; vm_compute in E; [|discriminate].
  injection E as <- <-. eexists. split; [reflexivity|]. repeat split.
Qed.
