(* ===== verification/BsonDecimalJson.v ===== *)
(** * Decimals as JSON text (src/src/bson/common_decimal.c) *)
From S2P Require Import Prelude.
From S2P Require Import BsonDecimal.
From S2P Require Import BsonDecimalOk.
From S2P Require Import BsonDecimalOps.
From S2P Require Import BsonDecimalStr.
From S2P Require Import BsonDecimalStrOk.
From S2P Require Import BsonDecimalText.
#[local] Open Scope Z_scope.

(** The frame of the text: an object with the fields $decimal and $precision. *)
Definition decimal_str_start : list Z :=
  [123; 32; 34; 36; 100; 101; 99; 105; 109; 97; 108; 34; 58; 32; 34].
Definition decimal_str_end : list Z := [34].
Definition precision_str_start : list Z :=
  [44; 32; 34; 36; 112; 114; 101; 99; 105; 115; 105; 111; 110; 34; 58; 32; 91].
Definition precision_str_end : list Z := [93].
Definition json_str_end : list Z := [32; 125].

(** The conversion %d of a number between 0 and 65535. *)
Fixpoint print_digits (fuel : nat) (n : Z) (acc : list Z) : list Z :=
  match fuel with
  | O => acc
  | S fuel =>
      let acc := n mod 10 + 48 :: acc in
      if n / 10 =? 0 then acc else print_digits fuel (n / 10) acc
  end.

Definition print_int (n : Z) : list Z := print_digits 5 n [].

(** Precision and scale, with a comma and a space between them. *)
Definition precision_str (typemod : Z) : list Z :=
  print_int (typemod_precision typemod) ++ [44; 32] ++ print_int (typemod_scale typemod).

Definition decimal_to_jsonstr_len (sign weight dscale typemod : Z) : Z :=
  let simpleSize := decimal_sprint_len sign weight dscale in
  let tmpSize := Z.of_nat (length decimal_str_start) + simpleSize +
    Z.of_nat (length decimal_str_end) + Z.of_nat (length json_str_end) + 1 in
  if typemod =? -1 then tmpSize
  else tmpSize + (Z.of_nat (length precision_str_start) + Z.of_nat (length (precision_str typemod)) +
                  Z.of_nat (length precision_str_end)).

(** The return code, the text, and the number of cells that are written to. *)
Definition decimal_to_jsonstr (d : bson_decimal) (value_size : Z) : Z * list Z * Z :=
  let expect_size :=
    decimal_to_jsonstr_len (dc_sign d) (dc_weight d) (dc_dscale d) (dc_typemod d) in
  if value_size <? expect_size then (-6, [], 0)
  else
    let simple_size := decimal_to_str_get_len d in
    let start := Z.of_nat (length decimal_str_start) in
    let '(rc, text, cells) := decimal_to_str d simple_size in
    if negb (rc =? 0) then (rc, decimal_str_start, start)
    else
      let precision :=
        if dc_typemod d =? -1 then []
        else precision_str_start ++ precision_str (dc_typemod d) ++ precision_str_end in
      let all := decimal_str_start ++ text ++ decimal_str_end ++ precision ++ json_str_end in
      (0, all, Z.max (start + cells) (Z.of_nat (length all) + 1)).

(** The text of a decimal and its terminator are among the cells written. *)
Lemma to_str_length d size s n : decimal_to_str d size = (0, s, n) -> Z.of_nat (length s) + 1 <= n.
Proof.
  unfold decimal_to_str. destruct (_ <? _); [done|].
  destruct (decimal_is_nan d); [by intros [= <- <-]|]. destruct (decimal_is_min d); [by intros [= <- <-]|].
  destruct (decimal_is_max d); [by intros [= <- <-]|].
  set (start := (if dc_sign d =? _ then [45] else []) ++ (if dc_weight d <? 0 then _ else _)). destruct (Z.ltb_spec 0 (dc_dscale d)) as [Hs|Hs]; intros [= <- <-]; [|lia].
  rewrite length_app. cbn [length]. rewrite length_take. lia.
Qed.

(** No cell outside the buffer is written to, and the text is that of the
    decimal in its JSON frame. *)
Lemma decimal_to_jsonstr_bounds d size :
  printable d ->
  decimal_to_jsonstr_len (dc_sign d) (dc_weight d) (dc_dscale d) (dc_typemod d) <= size ->
  exists s n text cells, decimal_to_jsonstr d size = (0, s, n) /\ n <= size /\
    decimal_to_str d (decimal_to_str_get_len d) = (0, text, cells) /\
    exists rest, s = decimal_str_start ++ text ++ decimal_str_end ++ rest.
Proof.
  intros Hp Hsize. unfold decimal_to_jsonstr. rewrite (proj2 (Z.ltb_ge _ _)) by lia.
  assert (exists text cells, decimal_to_str d (decimal_to_str_get_len d) = (0, text, cells) /\
    cells <= decimal_to_str_get_len d) as (text & cells & E & Hc).
  { destruct Hp as [Hs|(Hf & _ & Hd & _)].
    - destruct (special_roundtrip d (decimal_to_str_get_len d) decimal_init Hs ltac:(lia)) as (s & n & _ & E & Hn & _).
      by exists s, n.
    - destruct (to_str_text d (decimal_to_str_get_len d) Hf ltac:(lia) ltac:(lia)) as (I & F & n & E & Hn & _).
      eexists _, n. split; [exact E|lia]. }
  rewrite E. cbn [negb Z.eqb]. pose proof (to_str_length _ _ _ _ E) as Hl.
  eexists _, _, text, cells. split; [done|]. split; [|split; [done|by eexists]].
  unfold decimal_to_jsonstr_len in Hsize. fold (decimal_to_str_get_len d) in Hsize.
  rewrite !length_app. destruct (dc_typemod d =? -1); cbn [length] in *; rewrite ?length_app in *;
    cbn [length] in *; lia.
Qed.

Example jsonstr_example :
  decimal_to_jsonstr (mkDec 655363 SDB_DECIMAL_POS 1 0 true [0] [2; 5000]) 100 =
  (0, decimal_str_start ++ [50; 46; 53] ++ decimal_str_end ++ precision_str_start ++
      [49; 48; 44; 32; 51] ++ precision_str_end ++ json_str_end, 45).
Proof. vm_compute. reflexivity. Qed.
