(* ===== verification/UtilBitmap.v ===== *)
(** * Bitmaps: [_utilBitmapBase], [_utilBitmap] and [_utilStackBitmap]
    (src/src/include/utilBitmap.hpp)

    The bytes are a list; [None] is the null pointer.  An access outside of
    the buffer, or through the null pointer, is undefined and the result of
    the operation is [None].  Whether [SDB_OSS_MALLOC] finds memory is an
    argument; what the fresh bytes hold is overwritten by [resetBitmap]. *)
From S2P Require Import Prelude.
From S2P Require Import ByteBits.

Definition UTIL_BITMAP_UNIT_SIZE : Z := 8.
Definition UTIL_BITMAP_UNIT_MODULO : Z := UTIL_BITMAP_UNIT_SIZE - 1.
Definition UTIL_BITMAP_UNIT_LOG2SIZE : Z := 3.

(** The search table. *)
Definition utilBitmapIndex : list Z := [1; 2; 4; 8; 16; 32; 64; 128].

Record utilBitmap := mkBitmap {
  bp_size : Z;
  bp_bitmapSize : Z;
  bp_bitmap : option (list Z)
}.

Definition bitmapBase_new : utilBitmap := mkBitmap 0 0 None.

Definition calcUnitIndex (index : Z) : Z := Z.shiftr index UTIL_BITMAP_UNIT_LOG2SIZE.

Definition calcBitIndex (index : Z) : Z := u8 (Z.land index UTIL_BITMAP_UNIT_MODULO).

(** The byte an index is in, with its mask. *)
Definition bitmap_unit (b : utilBitmap) (index : Z) : option (list Z * Z * Z) :=
  l ← bp_bitmap b;
  x ← l !! Z.to_nat (calcUnitIndex index);
  m ← utilBitmapIndex !! Z.to_nat (calcBitIndex index);
  Some (l, x, m).

Definition bitmap_store (b : utilBitmap) (l : list Z) (index x : Z) : utilBitmap :=
  mkBitmap (bp_size b) (bp_bitmapSize b) (Some (<[Z.to_nat (calcUnitIndex index) := x]> l)).

Definition setBit (b : utilBitmap) (index : Z) : option utilBitmap :=
  if index <? bp_size b
  then '(l, x, m) ← bitmap_unit b index;
       Some (bitmap_store b l index (u8 (Z.lor x m)))
  else Some b.

Definition clearBit (b : utilBitmap) (index : Z) : option utilBitmap :=
  if index <? bp_size b
  then '(l, x, m) ← bitmap_unit b index;
       Some (bitmap_store b l index (u8 (Z.land x (Z.lnot m))))
  else Some b.

Definition testBit (b : utilBitmap) (index : Z) : option bool :=
  if index <? bp_size b
  then '(_, x, m) ← bitmap_unit b index;
       Some (negb (Z.land x m =? 0))
  else Some false.

(** [ossMemset] over [_bitmapSize] bytes. *)
Definition resetBitmap (b : utilBitmap) : option utilBitmap :=
  match bp_bitmap b with
  | Some l =>
      if Z.of_nat (length l) <? bp_bitmapSize b then None
      else Some (mkBitmap (bp_size b) (bp_bitmapSize b)
             (Some (replicate (Z.to_nat (bp_bitmapSize b)) 0
                      ++ drop (Z.to_nat (bp_bitmapSize b)) l)))
  | None => Some b
  end.

(** The two loops run over the units both bitmaps have: [n] is their number. *)
Definition common_units (b c : utilBitmap) : nat :=
  Z.to_nat (Z.min (bp_bitmapSize b) (bp_bitmapSize c)).

Fixpoint copy_units (n i : nat) (l r : list Z) : option (list Z) :=
  match n with
  | O => Some l
  | S n =>
      x ← r !! i; _ ← l !! i;
      copy_units n (S i) (<[i := x]> l) r
  end.

Definition setBitmap (b c : utilBitmap) : option utilBitmap :=
  b ← resetBitmap b;
  match common_units b c with
  | O => Some b
  | n =>
      l ← bp_bitmap b; r ← bp_bitmap c;
      l' ← copy_units n 0 l r;
      Some (mkBitmap (bp_size b) (bp_bitmapSize b) (Some l'))
  end.

Fixpoint intersect_units (n i : nat) (l r : list Z) : option bool :=
  match n with
  | O => Some false
  | S n =>
      x ← l !! i; y ← r !! i;
      if negb (Z.land x y =? 0) then Some true else intersect_units n (S i) l r
  end.

Definition hasIntersaction (b c : utilBitmap) : option bool :=
  match common_units b c with
  | O => Some false
  | n => l ← bp_bitmap b; r ← bp_bitmap c; intersect_units n 0 l r
  end.

(** [_utilBitmap::_allocateBitmap]; [ossMemAlloc] has no block of size 0. *)
Definition allocateBitmap (os : bool) (size : Z) (b : utilBitmap) : option utilBitmap :=
  let b :=
    if 0 <? size
    then let bitmapSize := u32 (size + UTIL_BITMAP_UNIT_MODULO) / UTIL_BITMAP_UNIT_SIZE in
         if os && negb (bitmapSize =? 0)
         then mkBitmap size bitmapSize (Some (replicate (Z.to_nat bitmapSize) 0))
         else mkBitmap (bp_size b) (bp_bitmapSize b) None
    else b in
  resetBitmap b.

Definition freeBitmap (b : utilBitmap) : utilBitmap := mkBitmap 0 0 None.

Definition bitmap_new (os : bool) (size : Z) : option utilBitmap :=
  allocateBitmap os size bitmapBase_new.

Definition bitmap_resize (os : bool) (size : Z) (b : utilBitmap) : option utilBitmap :=
  if negb (size =? bp_size b) then allocateBitmap os size (freeBitmap b) else Some b.

(** [_utilStackBitmap<BITMAPSIZE>]: the buffer is part of the object, [junk]
    what it holds before the constructor. *)
Definition stackBitmap_new (BITMAPSIZE : Z) (junk : list Z) : option utilBitmap :=
  resetBitmap
    (mkBitmap (u32 (BITMAPSIZE * UTIL_BITMAP_UNIT_SIZE)) BITMAPSIZE
       (if 0 <? BITMAPSIZE then Some junk else None)).

(** ** The invariant and the set a bitmap stands for *)

Definition bitmap_ok (b : utilBitmap) : Prop :=
  match bp_bitmap b with
  | Some l => Z.of_nat (length l) = bp_bitmapSize b /\
              0 <= bp_size b < 4294967296 /\ bp_size b <= 8 * bp_bitmapSize b
  | None => bp_size b = 0 /\ bp_bitmapSize b = 0
  end.

(** Bit [i] of the buffer. *)
Definition buffer_bit (b : utilBitmap) (i : Z) : bool :=
  match bp_bitmap b with
  | Some l => Z.testbit (nth (Z.to_nat (i / 8)) l 0) (i mod 8)
  | None => false
  end.

(** The members: the bits below [_size]. *)
Definition bit_in (b : utilBitmap) (i : Z) : Prop :=
  0 <= i < bp_size b /\ buffer_bit b i = true.

Lemma bitmapIndex_spec k :
  0 <= k < 8 -> utilBitmapIndex !! Z.to_nat k = Some (Z.shiftl 1 k).
Proof.
  intros Hk. assert (k = 0 \/ k = 1 \/ k = 2 \/ k = 3 \/ k = 4 \/ k = 5 \/ k = 6 \/ k = 7)
    as Hc by lia. by destruct_or! Hc; subst.
Qed.

Lemma calc_index i :
  0 <= i -> calcUnitIndex i = i / 8 /\ calcBitIndex i = i mod 8 /\ 0 <= i mod 8 < 8.
Proof.
  intros Hi. destruct (bitnum_split i Hi) as (E1 & E2 & ? & ?).
  unfold calcUnitIndex, calcBitIndex, UTIL_BITMAP_UNIT_LOG2SIZE.
  change UTIL_BITMAP_UNIT_MODULO with 7. rewrite E1, E2, u8_id by lia. done.
Qed.

(** An index below the size has its byte in the buffer. *)
Lemma bitmap_unit_ok b i :
  bitmap_ok b -> 0 <= i < bp_size b ->
  exists l, bp_bitmap b = Some l /\ (Z.to_nat (i / 8) < length l)%nat /\
    bitmap_unit b i = Some (l, nth (Z.to_nat (i / 8)) l 0, Z.shiftl 1 (i mod 8)).
Proof.
  unfold bitmap_ok, bitmap_unit. destruct (bp_bitmap b) as [l|]; [|lia].
  intros (Hl & Hs & Hb) Hi. destruct (calc_index i) as (E1 & E2 & Hm); [lia|].
  assert (i / 8 < bp_bitmapSize b) by (apply Z.div_lt_upper_bound; lia).
  assert (0 <= i / 8) by (apply Z.div_pos; lia).
  exists l. split; [done|]. split; [lia|]. simpl.
  destruct (lookup_lt_is_Some_2 l (Z.to_nat (i / 8))) as [x Hx]; [lia|].
  rewrite E1, E2, Hx, bitmapIndex_spec by lia. simpl.
  by rewrite (nth_lookup_Some _ _ _ _ Hx).
Qed.

(** [testBit] never leaves the buffer and decides membership. *)
Lemma testBit_spec b i :
  bitmap_ok b -> 0 <= i ->
  testBit b i = Some ((i <? bp_size b) && buffer_bit b i).
Proof.
  intros Hb Hi. unfold testBit. destruct (Z.ltb_spec i (bp_size b)); [|done].
  destruct (bitmap_unit_ok b i) as (l & El & Hl & ->); [done|lia|]. simpl.
  unfold buffer_bit. rewrite El. do 2 f_equal.
  destruct (calc_index i Hi) as (_ & _ & Hm).
  destruct (Z.testbit _ _) eqn:Et.
  - destruct (Z.eqb_spec (Z.land (nth (Z.to_nat (i / 8)) l 0) (Z.shiftl 1 (i mod 8))) 0)
      as [E|]; [|done].
    apply (f_equal (fun z => Z.testbit z (i mod 8))) in E.
    rewrite Z.land_spec, Et, testbit_one_shiftl, bool_decide_eq_true_2, Z.bits_0 in E by lia.
    done.
  - apply negb_false_iff, Z.eqb_eq, Z.bits_inj'. intros j Hj.
    rewrite Z.land_spec, Z.bits_0, testbit_one_shiftl by lia.
    case_bool_decide; subst; [by rewrite Et|apply andb_false_r].
Qed.

(** Writing one byte of the buffer, seen bit by bit. *)
Lemma buffer_bit_store b l i x j :
  bp_bitmap b = Some l -> (Z.to_nat (i / 8) < length l)%nat -> 0 <= i -> 0 <= j ->
  buffer_bit (bitmap_store b l i x) j =
  if decide (i / 8 = j / 8) then Z.testbit x (j mod 8) else buffer_bit b j.
Proof.
  intros El Hl Hi Hj. destruct (calc_index i Hi) as (E1 & _ & _).
  unfold buffer_bit, bitmap_store. rewrite El, E1. cbn [bp_bitmap].
  assert (0 <= i / 8) by (apply Z.div_pos; lia).
  assert (0 <= j / 8) by (apply Z.div_pos; lia).
  rewrite !nth_lookup. case_decide as Hd.
  - rewrite Hd in *. by rewrite list_lookup_insert_eq by lia.
  - by rewrite list_lookup_insert_ne by lia.
Qed.

Lemma bitmap_store_ok b l i x :
  bitmap_ok b -> bp_bitmap b = Some l -> bitmap_ok (bitmap_store b l i x).
Proof.
  unfold bitmap_ok, bitmap_store. intros Hb El. rewrite El in Hb. cbn.
  by rewrite length_insert.
Qed.

(** A bit number is its byte and its place in the byte. *)
Lemma bit_place i j : 0 <= i -> 0 <= j -> i = j <-> i / 8 = j / 8 /\ i mod 8 = j mod 8.
Proof.
  intros. split; [by intros ->|]. intros [E1 E2].
  rewrite (Z.div_mod i 8), (Z.div_mod j 8), E1, E2 by lia. done.
Qed.

(** [setBit] adds its index when it is below the size. *)
Lemma setBit_spec b i :
  bitmap_ok b -> 0 <= i ->
  exists b', setBit b i = Some b' /\ bitmap_ok b' /\ bp_size b' = bp_size b /\
    forall j, 0 <= j -> bit_in b' j <-> bit_in b j \/ (j = i /\ i < bp_size b).
Proof.
  intros Hb Hi. unfold setBit. destruct (Z.ltb_spec i (bp_size b)) as [Hlt|].
  2:{ exists b. split_and!; try done. intros. intuition lia. }
  destruct (bitmap_unit_ok b i) as (l & El & Hl & ->); [done|lia|]. simpl.
  eexists. split; [done|]. split; [by apply bitmap_store_ok|]. split; [done|].
  intros j Hj. unfold bit_in. cbn [bp_size bitmap_store].
  rewrite (buffer_bit_store b) by done. change (bp_size (bitmap_store b l i _)) with (bp_size b).
  destruct (calc_index i Hi) as (_ & _ & ?). destruct (calc_index j Hj) as (_ & _ & ?).
  case_decide as Hd.
  - rewrite byte_set_bit by lia.
    assert (buffer_bit b j = Z.testbit (nth (Z.to_nat (i / 8)) l 0) (j mod 8)) as ->
      by (unfold buffer_bit; by rewrite El, Hd).
    pose proof (bit_place j i Hj Hi) as Hp. case_decide; intuition lia.
  - pose proof (bit_place j i Hj Hi) as Hp. intuition (subst; try congruence; try lia).
Qed.

(** [clearBit] removes its index. *)
Lemma clearBit_spec b i :
  bitmap_ok b -> 0 <= i ->
  exists b', clearBit b i = Some b' /\ bitmap_ok b' /\ bp_size b' = bp_size b /\
    forall j, 0 <= j -> bit_in b' j <-> bit_in b j /\ j <> i.
Proof.
  intros Hb Hi. unfold clearBit. destruct (Z.ltb_spec i (bp_size b)) as [Hlt|].
  2:{ exists b. split_and!; try done. intros. unfold bit_in. intuition lia. }
  destruct (bitmap_unit_ok b i) as (l & El & Hl & ->); [done|lia|]. simpl.
  eexists. split; [done|]. split; [by apply bitmap_store_ok|]. split; [done|].
  intros j Hj. unfold bit_in. rewrite (buffer_bit_store b) by done.
  change (bp_size (bitmap_store b l i _)) with (bp_size b).
  destruct (calc_index i Hi) as (_ & _ & ?). destruct (calc_index j Hj) as (_ & _ & ?).
  pose proof (bit_place j i Hj Hi) as Hp. case_decide as Hd.
  - rewrite byte_clear_bit by lia.
    assert (buffer_bit b j = Z.testbit (nth (Z.to_nat (i / 8)) l 0) (j mod 8)) as ->
      by (unfold buffer_bit; by rewrite El, Hd).
    case_decide; intuition (try lia; try congruence).
  - intuition (subst; congruence).
Qed.

Lemma resetBitmap_spec b :
  bitmap_ok b ->
  exists b', resetBitmap b = Some b' /\ bitmap_ok b' /\ bp_size b' = bp_size b /\
    bp_bitmapSize b' = bp_bitmapSize b /\ forall j, buffer_bit b' j = false.
Proof.
  unfold bitmap_ok, resetBitmap, buffer_bit. intros Hb.
  destruct (bp_bitmap b) as [l|] eqn:El.
  - destruct Hb as (Hl & Hs & Hm).
    destruct (Z.ltb_spec (Z.of_nat (length l)) (bp_bitmapSize b)); [lia|].
    eexists. split; [done|]. cbn. rewrite drop_ge by lia. rewrite app_nil_r.
    rewrite length_replicate. split; [lia|]. split; [done|]. split; [done|]. intros j.
    rewrite nth_lookup.
    destruct (replicate (Z.to_nat (bp_bitmapSize b)) 0 !! Z.to_nat (j / 8)) eqn:Ej;
      [apply lookup_replicate in Ej as [-> _]|]; apply Z.bits_0.
  - exists b. rewrite El. done.
Qed.

(** A new bitmap is empty; it has the size asked for or, when there is no
    memory (or the size is too close to [2^32] to be rounded up), none. *)
Lemma bitmap_new_spec os size :
  0 <= size < 4294967296 ->
  exists b, bitmap_new os size = Some b /\ bitmap_ok b /\
    (forall j, buffer_bit b j = false) /\
    bp_size b = if os && (size <=? 4294967288) then size else 0.
Proof.
  intros Hs. unfold bitmap_new, allocateBitmap, UTIL_BITMAP_UNIT_SIZE.
  change UTIL_BITMAP_UNIT_MODULO with 7.
  set (n := u32 (size + 7) / 8).
  match goal with |- context [resetBitmap ?b] =>
    assert (bitmap_ok b /\ bp_size b = if os && (size <=? 4294967288) then size else 0)
      as [Hok Hsz] end.
  2:{ destruct (resetBitmap_spec _ Hok) as (b' & -> & ? & E & _ & ?). exists b'.
      rewrite E. done. }
  destruct (Z.ltb_spec 0 size) as [Hp|].
  2:{ split; [done|]. assert (size = 0) as -> by lia. by destruct os. }
  destruct os; simpl andb; [|done]. subst n.
  destruct (Z.leb_spec size 4294967288) as [Hle|Hgt].
  - rewrite u32_id by lia. pose proof (Z.div_mod (size + 7) 8 ltac:(lia)) as Hd.
    pose proof (Z.mod_pos_bound (size + 7) 8 ltac:(lia)).
    destruct (Z.eqb_spec ((size + 7) / 8) 0); [lia|]. cbn. unfold bitmap_ok. cbn.
    rewrite length_replicate. lia.
  - assert (u32 (size + 7) = size + 7 - 4294967296) as ->.
    { unfold u32. rewrite <- (Z.mod_add _ (-1)) by lia. apply Z.mod_small. lia. }
    rewrite Z.div_small by lia. done.
Qed.
