(* ===== verification/UtilSegment.v ===== *)
(** * Object pools: [_utilSegmentPool] (src/src/include/utilSegment.hpp)

    A pool hands out the objects of its segments, arrays of [_delta] objects
    it gets from the allocator when it runs short and gives back when they
    are not in use.  Live segments are a map from their addresses to the
    headers of their objects ([_objX] without its [_obj], which the pool does
    not touch); the address of an object is its segment and its number there.
    Every operation of a pool runs under its latch and is one step here; the
    flag [_maintaining], which is set only while [shrink] runs and read without
    the latch, is no part of the state (UtilSegmentMgr.v has its reader).

    Undefined behaviour (an index outside of [_segList] or [_list], a cell
    that was never written, a segment that was deleted) is the result [None].
    What the allocator answers is an argument ([pool_os]).  The handler a pool
    reports its segments to is an interface of the source; here it is the
    class [SegmentHandler], with a state of its own. *)
From S2P Require Import Prelude.
From S2P Require Import OssBase.
From S2P Require Import UtilBitmap.

Definition SDB_OSS_UP_TO_LIMIT : Z := -307.

Definition UTIL_INVALID_OBJ_INDEX : Z := 4294967295.
Definition SEGMENT_MGR_MAX_POOLS : Z := 16.
Definition SEGMENT_OBJ_INDEX_MASK : Z := 268435455.
Definition SEGMENT_OBJ_POOL_MASK : Z := 4026531840.
Definition SEGMENT_OBJ_POOLID_SHIFT : Z := 28.
Definition SEGMENT_OBJ_MAX_NUM : Z := SEGMENT_OBJ_INDEX_MASK + 1.
Definition SEGMENT_OBJ_EYE_CATCHER : Z := 48879.
Definition SEGMENT_OBJ_FLAG_ACQUIRED : Z := 21845.
Definition SEGMENT_OBJ_FLAG_RELEASED : Z := 43690.

Definition IS_VALID_SEG_OBJ_INDEX (idx : Z) : bool := negb (UTIL_INVALID_OBJ_INDEX =? idx).

Definition GET_PACKED_POOLID (pool : Z) : Z :=
  Z.land (u32 (Z.shiftl pool SEGMENT_OBJ_POOLID_SHIFT)) SEGMENT_OBJ_POOL_MASK.

Definition GET_UNPACKED_POOLID (idx : Z) : Z :=
  Z.shiftr (Z.land idx SEGMENT_OBJ_POOL_MASK) SEGMENT_OBJ_POOLID_SHIFT.

(** ** The handler *)

Class SegmentHandler (H : Type) := {
  canAllocSegment : H -> Z -> bool;
  onAllocSegment : H -> Z -> H;
  onReleaseSegment : H -> Z -> H;
  canShrink : H -> Z -> Z -> Z -> bool
}.

(** ** Objects and segments *)

Record objX := mkObjX { ox_eyeCatcher : Z; ox_flag : Z; ox_index : Z }.

(** The constructor [_objX()], with the index [_expandList] gives it. *)
Definition objX_new (index : Z) : objX :=
  mkObjX SEGMENT_OBJ_EYE_CATCHER SEGMENT_OBJ_FLAG_RELEASED index.

Definition set_ox_flag (o : objX) (flag : Z) : objX :=
  mkObjX (ox_eyeCatcher o) flag (ox_index o).

(** Addresses of segments; 0 is [NULL]. *)
Abbreviation segments := (gmap Z (list objX)).

(** The address of an object. *)
Abbreviation objptr := (Z * Z)%type.

Definition load (m : segments) (p : objptr) : option objX :=
  objs ← m !! p.1; objs !! Z.to_nat p.2.

Definition store (m : segments) (p : objptr) (o : objX) : option segments :=
  objs ← m !! p.1; _ ← objs !! Z.to_nat p.2;
  Some (<[p.1 := <[Z.to_nat p.2 := o]> objs]> m).

(** What a step of a pool asks of the allocator: a new segment, the array of
    indexes, the bitmap object and its bytes. *)
Record pool_os := mkPoolOs {
  os_segment : option Z;
  os_list : bool;
  os_bitmap : bool;
  os_bits : bool
}.

(** The array [_list]: [None] is a cell that was never written. *)
Record utilSegmentPool := mkPool {
  sp_list : option (list (option Z));
  sp_begin : Z;
  sp_delta : Z;
  sp_numOfObjs : Z;
  sp_maxNumOfObjs : Z;
  sp_exponent : Z;
  sp_poolId : Z;
  sp_highWatermark : Z;
  sp_isInitialized : bool;
  sp_segList : list Z;
  sp_pHandler : bool
}.

Definition segmentPool_new : utilSegmentPool :=
  mkPool None 0 0 0 0 0 0 0 false [] false.

(** A change of the list, the place in it, the number of objects and the
    segments. *)
Definition set_sp (p : utilSegmentPool) (l : option (list (option Z))) (begin num : Z)
    (segs : list Z) : utilSegmentPool :=
  mkPool l begin (sp_delta p) num (sp_maxNumOfObjs p) (sp_exponent p) (sp_poolId p)
    (sp_highWatermark p) (sp_isInitialized p) segs (sp_pHandler p).

Definition set_sp_begin (p : utilSegmentPool) (l : option (list (option Z))) (begin : Z)
    : utilSegmentPool :=
  set_sp p l begin (sp_numOfObjs p) (sp_segList p).

Definition set_sp_hwm (p : utilSegmentPool) (x : Z) : utilSegmentPool :=
  mkPool (sp_list p) (sp_begin p) (sp_delta p) (sp_numOfObjs p) (sp_maxNumOfObjs p)
    (sp_exponent p) (sp_poolId p) x (sp_isInitialized p)
    (sp_segList p) (sp_pHandler p).

Definition set_sp_max (p : utilSegmentPool) (x : Z) : utilSegmentPool :=
  mkPool (sp_list p) (sp_begin p) (sp_delta p) (sp_numOfObjs p) x
    (sp_exponent p) (sp_poolId p) (sp_highWatermark p)
    (sp_isInitialized p) (sp_segList p) (sp_pHandler p).

(** ** Setting up *)

Definition pool_setMaxObjects (p : utilSegmentPool) (maxNumberOfObjs : Z) : utilSegmentPool :=
  if SEGMENT_OBJ_MAX_NUM <? maxNumberOfObjs then set_sp_max p SEGMENT_OBJ_MAX_NUM
  else if (0 <? maxNumberOfObjs) && (maxNumberOfObjs <? sp_delta p)
       then set_sp_max p (sp_delta p)
       else set_sp_max p maxNumberOfObjs.

Definition pool_init (poolId numberOfObjs maxNumberOfObjs : Z) (pHandler : bool)
    (p : utilSegmentPool) : Z * utilSegmentPool :=
  let numberOfObjs := Z.min numberOfObjs SEGMENT_OBJ_MAX_NUM in
  let maxNumberOfObjs := Z.min maxNumberOfObjs SEGMENT_OBJ_MAX_NUM in
  if (0 <? numberOfObjs) && (poolId <? SEGMENT_MGR_MAX_POOLS)
  then
    let '(d, exponent) := ossNextPowerOf2 numberOfObjs in
    let delta := u32 d in
    let max := if (0 <? maxNumberOfObjs) && (maxNumberOfObjs <? delta)
               then delta else maxNumberOfObjs in
    (SDB_OK, mkPool (sp_list p) (sp_begin p) delta (sp_numOfObjs p) max exponent poolId
               (u32 (Z.shiftl delta 1)) true (sp_segList p) pHandler)
  else (SDB_INVALIDARG, p).

Definition needExpand (p : utilSegmentPool) : bool :=
  u32 (sp_numOfObjs p - 1) <=? sp_begin p.

Definition isUpToLimit (p : utilSegmentPool) : bool :=
  sp_maxNumOfObjs p <=? sp_numOfObjs p.

(** [_getObjXByIndex]: [Some None] is the null pointer. *)
Definition getObjXByIndex (p : utilSegmentPool) (idx : Z) : option (option objptr) :=
  let index := Z.land idx SEGMENT_OBJ_INDEX_MASK in
  seg ← sp_segList p !! Z.to_nat (Z.shiftr index (sp_exponent p));
  if seg =? 0 then Some None
  else Some (Some (seg, Z.land index (u32 (sp_delta p - 1)))).

(** [getObjPtrByIndex]: the address of [_obj]. *)
Definition getObjPtrByIndex (p : utilSegmentPool) (idx : Z) : option (option objptr) :=
  getObjXByIndex p idx.

(** [getIndexByAddr] of a pointer that is not null. *)
Definition getIndexByAddr (m : segments) (p : utilSegmentPool) (pT : objptr) : option Z :=
  o ← load m pT;
  if (ox_eyeCatcher o =? SEGMENT_OBJ_EYE_CATCHER)
     && (Z.land (ox_index o) SEGMENT_OBJ_POOL_MASK =? GET_PACKED_POOLID (sp_poolId p))
  then Some (ox_index o) else Some UTIL_INVALID_OBJ_INDEX.

(** The pool and what it works on. *)
Section Pool.
  Context {H : Type} `{SegmentHandler H}.
  (** [sizeof( T )] and [sizeof( _objX )]. *)
  Context (sizeofT sizeofX : Z).

Record pool_state := mkState {
  ps_mem : segments;
  ps_handler : H;
  ps_pool : utilSegmentPool
}.

(** The headers of a new segment whose first object is number [n]. *)
Definition segment_new (poolId n delta : Z) : list objX :=
  map (fun i => objX_new (Z.lor (Z.land (u32 (n + i)) SEGMENT_OBJ_INDEX_MASK)
                            (GET_PACKED_POOLID poolId)))
    (zseq 0 (Z.to_nat delta)).

Definition expandList (os : pool_os) (s : pool_state) : Z * pool_state :=
  let p := ps_pool s in
  let numOfObjects := sp_numOfObjs p in
  let newSize := u32 (numOfObjects + sp_delta p) in
  if negb (UTIL_INVALID_OBJ_INDEX =? newSize) && (newSize <=? sp_maxNumOfObjs p)
     && negb (sp_delta p =? 0)
  then
    match os_segment os, os_list os with
    | Some seg, true =>
        let old := match sp_list p with
                   | Some l => take (Z.to_nat numOfObjects) l
                   | None => replicate (Z.to_nat numOfObjects) None
                   end in
        let l := old ++ map (fun i => Some (u32 (numOfObjects + i)))
                          (zseq 0 (Z.to_nat (sp_delta p))) in
        (SDB_OK,
         mkState (<[seg := segment_new (sp_poolId p) numOfObjects (sp_delta p)]> (ps_mem s))
           (ps_handler s)
           (set_sp p (Some l) (sp_begin p) newSize (sp_segList p ++ [seg])))
    | _, _ => (SDB_OOM, s)
    end
  else (SDB_OSS_UP_TO_LIMIT, s).

(** The part of [acquire] that makes room. *)
Definition acquire_expand (os : pool_os) (s : pool_state) : Z * pool_state :=
  let p := ps_pool s in
  if (match sp_list p with None => true | Some _ => false end) || needExpand p
  then
    if isUpToLimit p then (SDB_OSS_UP_TO_LIMIT, s)
    else if sp_pHandler p
            && negb (canAllocSegment (ps_handler s) (u64 (sp_delta p * sizeofX)))
    then (SDB_OSS_UP_TO_LIMIT, s)
    else
      let '(rc, s) := expandList os s in
      if negb (rc =? SDB_OK) then (rc, s)
      else (SDB_OK,
            if sp_pHandler p
            then mkState (ps_mem s)
                   (onAllocSegment (ps_handler s) (u64 (sp_delta p * sizeofX))) (ps_pool s)
            else s)
  else (SDB_OK, s).

(** The sanity check of an object, [flag] the one it must have. *)
Definition objX_sane (p : utilSegmentPool) (o : objX) (flag : Z) : bool :=
  (Z.land (ox_index o) SEGMENT_OBJ_POOL_MASK =? GET_PACKED_POOLID (sp_poolId p))
  && (ox_eyeCatcher o =? SEGMENT_OBJ_EYE_CATCHER) && (ox_flag o =? flag).

(** The part of [acquire] that takes the object at [_begin]. *)
Definition acquire_first (s : pool_state)
    : option (Z * option (Z * option objptr) * pool_state) :=
  let p := ps_pool s in
  l ← sp_list p;
  cell ← l !! Z.to_nat (sp_begin p);
  first ← cell;
  obj ← getObjXByIndex p first;
  match obj with
  | None => Some (SDB_SYS, Some (UTIL_INVALID_OBJ_INDEX, None), s)
  | Some pObjX =>
      o ← load (ps_mem s) pObjX;
      if objX_sane p o SEGMENT_OBJ_FLAG_RELEASED
      then
        m ← store (ps_mem s) pObjX (set_ox_flag o SEGMENT_OBJ_FLAG_ACQUIRED);
        Some (SDB_OK,
              Some (Z.lor (Z.land first SEGMENT_OBJ_INDEX_MASK)
                      (GET_PACKED_POOLID (sp_poolId p)), Some pObjX),
              mkState m (ps_handler s)
                (set_sp_begin p (Some l) (u32 (sp_begin p + 1))))
      else Some (SDB_SYS, Some (UTIL_INVALID_OBJ_INDEX, None), s)
  end.

(** [acquire]: the return code and what it writes to [idx] and [pT] ([None]:
    nothing). *)
Definition pool_acquire (os : pool_os) (s : pool_state)
    : option (Z * option (Z * option objptr) * pool_state) :=
  if sp_isInitialized (ps_pool s)
  then
    let '(rc, s) := acquire_expand os s in
    if negb (rc =? SDB_OK) then Some (rc, None, s) else acquire_first s
  else Some (SDB_SYS, None, s).

(** [release] by index. *)
Definition pool_release (idx : Z) (s : pool_state) : option (Z * pool_state) :=
  let p := ps_pool s in
  if negb (IS_VALID_SEG_OBJ_INDEX idx
           && (Z.land idx SEGMENT_OBJ_POOL_MASK =? GET_PACKED_POOLID (sp_poolId p)))
  then Some (SDB_INVALIDARG, s)
  else
    match sp_isInitialized p, sp_list p with
    | true, Some l =>
        if (0 <? sp_begin p) && (sp_begin p <? sp_numOfObjs p)
        then
          obj ← getObjXByIndex p idx;
          match obj with
          | None => Some (SDB_SYS, s)
          | Some pObjX =>
              o ← load (ps_mem s) pObjX;
              if objX_sane p o SEGMENT_OBJ_FLAG_ACQUIRED
              then
                m ← store (ps_mem s) pObjX (set_ox_flag o SEGMENT_OBJ_FLAG_RELEASED);
                _ ← l !! Z.to_nat (sp_begin p - 1);
                Some (SDB_OK,
                      mkState m (ps_handler s)
                        (set_sp_begin p
                           (Some (<[Z.to_nat (sp_begin p - 1) :=
                                      Some (Z.land idx SEGMENT_OBJ_INDEX_MASK)]> l))
                           (sp_begin p - 1)))
              else Some (SDB_SYS, s)
          end
        else Some (SDB_SYS, s)
    | _, _ => Some (SDB_SYS, s)
    end.

(** [release] by address. *)
Definition pool_release_addr (pT : option objptr) (s : pool_state) : option (Z * pool_state) :=
  idx ← match pT with
        | Some pT => getIndexByAddr (ps_mem s) (ps_pool s) pT
        | None => Some UTIL_INVALID_OBJ_INDEX
        end;
  if IS_VALID_SEG_OBJ_INDEX idx then pool_release idx s else Some (SDB_INVALIDARG, s).

(** ** Giving segments back *)

(** The bitmap of the free objects: those in [_list] from [_begin] on. *)
Fixpoint mark_free (l : list (option Z)) (b : utilBitmap) : option utilBitmap :=
  match l with
  | [] => Some b
  | c :: l => i ← c; b ← setBit b i; mark_free l b
  end.

(** The search for the last bit that is not set, from [n - 1] down.  The index
    is unsigned: below 0 it is [2^32 - 1], which no bitmap has. *)
Fixpoint find_max (b : utilBitmap) (n : nat) : option Z :=
  match n with
  | O => Some 4294967295
  | S n =>
      t ← testBit b (Z.of_nat n);
      if negb t then Some (Z.of_nat n) else find_max b n
  end.

(** The new list: the free objects in order, from place [j] on; [n] indexes
    are left, [i] is the next. *)
Fixpoint restore_free (b : utilBitmap) (n : nat) (i j : Z) (l : list (option Z))
    : option (list (option Z)) :=
  match n with
  | O => Some l
  | S n =>
      t ← testBit b i;
      if t : bool
      then _ ← l !! Z.to_nat j;
           restore_free b n (i + 1) (j + 1) (<[Z.to_nat j := Some i]> l)
      else restore_free b n (i + 1) j l
  end.

(** The segments from number [keep] on are deleted, the last first. *)
Fixpoint delete_segments (segs : list Z) (m : segments) : option segments :=
  match segs with
  | [] => Some m
  | seg :: segs =>
      if seg =? 0 then delete_segments segs m
      else _ ← m !! seg; delete_segments segs (delete seg m)
  end.

(** [(FLOAT64)a / b >= 0.85].  The double nearest to 0.85 is below 0.85 and
    rounding is monotone, so the test succeeds when the quotient is at least
    0.85; otherwise it is at least [1 / (20 b)] below, which for [b] under
    [2^45] is far more than the rounding of the two. *)
Definition ratio_reached (a b : Z) : bool := 17 * b <=? 20 * a.

(** Whether [shrink] goes on to look for segments. *)
Definition shrink_wanted (s : pool_state) : bool :=
  let p := ps_pool s in
  let n := sp_numOfObjs p in
  if (0 <? sp_begin p) && (Z.of_nat (length (sp_segList p)) =? 1) then false
  else if sp_pHandler p
       then canShrink (ps_handler s) sizeofT (u64 (n * sizeofX)) (u64 (sp_begin p * sizeofX))
       else negb (ratio_reached (sp_begin p) n).

(** The bitmap of the free objects and the highest object in use; [None] in
    the sum is an allocation that failed. *)
Definition find_in_use (os : pool_os) (p : utilSegmentPool)
    : option (option (option utilBitmap * Z)) :=
  if 0 <? sp_begin p
  then
    if os_bitmap os
    then
      l ← sp_list p;
      b ← bitmap_new (os_bits os) (sp_numOfObjs p);
      b ← mark_free (drop (Z.to_nat (sp_begin p)) (take (Z.to_nat (sp_numOfObjs p)) l)) b;
      maxObj ← find_max b (Z.to_nat (sp_numOfObjs p));
      Some (Some (Some b, maxObj))
    else Some None
  else Some (Some (None, 0)).

(** The list [shrink] makes for [newSize] objects. *)
Definition shrink_list (begin newSize : Z) (used : option utilBitmap)
    : option (option (list (option Z))) :=
  if 0 <? newSize
  then match used with
       | Some b =>
           l ← restore_free b (Z.to_nat newSize) 0 begin (replicate (Z.to_nat newSize) None);
           Some (Some l)
       | None => Some (Some (map Some (zseq 0 (Z.to_nat newSize))))
       end
  else Some None.

(** The part that replaces the list and deletes segments; [segInUse] are
    kept.  The result has the number of deleted segments. *)
Definition shrink_to (os : pool_os) (segInUse : Z) (used : option utilBitmap)
    (s : pool_state) : option (Z * Z * pool_state) :=
  let p := ps_pool s in
  let newSize := u32 (Z.shiftl segInUse (sp_exponent p)) in
  if (0 <? newSize) && negb (os_list os) then Some (SDB_OOM, 0, s)
  else
    l ← shrink_list (sp_begin p) newSize used;
    let freed := drop (Z.to_nat segInUse) (sp_segList p) in
    m ← delete_segments (rev freed) (ps_mem s);
    let freeSegNum := Z.of_nat (length freed) in
    Some (SDB_OK, freeSegNum,
          mkState m
            (if sp_pHandler p
             then onReleaseSegment (ps_handler s)
                    (u64 (u64 (Z.shiftl freeSegNum (sp_exponent p)) * sizeofX))
             else ps_handler s)
            (set_sp p l (sp_begin p) newSize (take (Z.to_nat segInUse) (sp_segList p)))).

(** [shrink]: the return code, the number of segments it deleted. *)
Definition pool_shrink (os : pool_os) (freeSegToKeep : Z) (s : pool_state)
    : option (Z * Z * pool_state) :=
  let p := ps_pool s in
  let n := sp_numOfObjs p in
  match sp_isInitialized p, sp_list p with
  | true, Some _ =>
      if (0 <? n) && shrink_wanted s
      then
        r ← find_in_use os p;
        match r with
        | None => Some (SDB_OOM, 0, s)
        | Some (used, maxObj) =>
            let p := if u32 (Z.shiftl (sp_delta p) 1) <=? maxObj
                     then set_sp_hwm p maxObj else p in
            let s := mkState (ps_mem s) (ps_handler s) p in
            let segInUse :=
              if 0 <? sp_begin p
              then u32 (Z.shiftr maxObj (sp_exponent p) + 1 + freeSegToKeep)
              else freeSegToKeep in
            if segInUse <? Z.of_nat (length (sp_segList p))
            then shrink_to os segInUse used s
            else Some (SDB_OK, 0, s)
        end
      else Some (SDB_OK, 0, s)
  | _, _ => Some (SDB_OK, 0, s)
  end.

(** [fini]: the handler hears of each segment. *)
Fixpoint release_all (segs : list Z) (size : Z) (h : H) : H :=
  match segs with
  | [] => h
  | _ :: segs => release_all segs size (onReleaseSegment h size)
  end.

Definition pool_fini (s : pool_state) : option pool_state :=
  let p := ps_pool s in
  if sp_isInitialized p
  then
    m ← delete_segments (sp_segList p) (ps_mem s);
    Some (mkState m
            (if sp_pHandler p
             then release_all (sp_segList p) (u64 (sp_delta p * sizeofX)) (ps_handler s)
             else ps_handler s)
            (mkPool None (sp_begin p) (sp_delta p) (sp_numOfObjs p) (sp_maxNumOfObjs p)
               (sp_exponent p) (sp_poolId p) (sp_highWatermark p)
               false [] false))
  else Some s.

End Pool.

#[global] Arguments mkState {H}.
#[global] Arguments ps_mem {H}.
#[global] Arguments ps_handler {H}.
#[global] Arguments ps_pool {H}.
#[global] Arguments pool_state : clear implicits.
