(* ===== verification/UtilSegmentOk.v ===== *)
(** * The invariant of an object pool

    [pool_ok m p fr] ties a pool [p] and the live segments [m] to the list
    [fr] of its free objects, in the order it hands them out.  The objects in
    use are the others.  The lemmas here show that each operation keeps the
    invariant, and what it does to the set of objects in use. *)
From S2P Require Import Prelude.
From S2P Require Import OssBase.
From S2P Require Import UtilBitmap.
From S2P Require Import UtilSegment.

(** ** Indexes: four bits of the pool, 28 of the object *)

Definition idx_of (poolId i : Z) : Z := poolId * 268435456 + i.

Lemma packed_poolid n : 0 <= n < 16 -> GET_PACKED_POOLID n = n * 268435456.
Proof.
  intros Hn. unfold GET_PACKED_POOLID, SEGMENT_OBJ_POOLID_SHIFT.
  rewrite u32_id by (rewrite Z.shiftl_mul_pow2 by lia; lia).
  change SEGMENT_OBJ_POOL_MASK with (Z.shiftl (Z.ones 4) 28).
  rewrite <- Z.shiftl_land, Z.land_ones, Z.mod_small by lia. by rewrite Z.shiftl_mul_pow2.
Qed.

Lemma land_index x : Z.land x SEGMENT_OBJ_INDEX_MASK = x mod 268435456.
Proof. change SEGMENT_OBJ_INDEX_MASK with (Z.ones 28). by rewrite Z.land_ones. Qed.

Lemma land_pool_mask n i :
  0 <= n < 16 -> 0 <= i < 268435456 ->
  Z.land (idx_of n i) SEGMENT_OBJ_POOL_MASK = n * 268435456.
Proof.
  intros Hn Hi. unfold idx_of. change 268435456 with (2 ^ 28) in *.
  rewrite <- (lor_shiftl_add n i 28) by lia.
  rewrite <- Z.shiftl_mul_pow2 by lia.
  change SEGMENT_OBJ_POOL_MASK with (Z.shiftl (Z.ones 4) 28).
  rewrite Z.land_lor_distr_l, <- Z.shiftl_land, Z.land_ones by lia.
  rewrite Z.mod_small by lia.
  assert (Z.land i (Z.shiftl (Z.ones 4) 28) = 0) as ->; [|apply Z.lor_0_r].
  apply Z.bits_inj'. intros k Hk. rewrite Z.land_spec, Z.bits_0.
  destruct (Z.ltb_spec k 28).
  - rewrite Z.shiftl_spec_low by lia. apply andb_false_r.
  - rewrite (Z.testbit_eqb i) by lia.
    rewrite Z.div_small; [done|]. split; [lia|].
    apply Z.lt_le_trans with (2 ^ 28); [lia|]. apply Z.pow_le_mono_r; lia.
Qed.

Lemma idx_of_mod n i : 0 <= i < 268435456 -> idx_of n i mod 268435456 = i.
Proof.
  intros. unfold idx_of. rewrite Z.add_comm, Z.mod_add by lia. by apply Z.mod_small.
Qed.

Lemma lor_packed n i :
  0 <= n < 16 -> 0 <= i < 268435456 ->
  Z.lor (Z.land i SEGMENT_OBJ_INDEX_MASK) (GET_PACKED_POOLID n) = idx_of n i.
Proof.
  intros Hn Hi. rewrite packed_poolid, land_index, Z.mod_small by lia.
  rewrite Z.lor_comm. change 268435456 with (2 ^ 28) in *.
  rewrite <- Z.shiftl_mul_pow2, lor_shiftl_add by lia. done.
Qed.

Lemma unpacked_poolid n i :
  0 <= n < 16 -> 0 <= i < 268435456 -> GET_UNPACKED_POOLID (idx_of n i) = n.
Proof.
  intros. unfold GET_UNPACKED_POOLID, SEGMENT_OBJ_POOLID_SHIFT.
  rewrite land_pool_mask, shiftr_div by lia. by apply Z.div_mul.
Qed.

Lemma idx_of_inj n i n' i' :
  0 <= i < 268435456 -> 0 <= i' < 268435456 ->
  idx_of n i = idx_of n' i' -> n = n' /\ i = i'.
Proof. unfold idx_of. lia. Qed.

(** ** The invariant *)

Definition obj_of (poolId i : Z) (free : bool) : objX :=
  mkObjX SEGMENT_OBJ_EYE_CATCHER
    (if free then SEGMENT_OBJ_FLAG_RELEASED else SEGMENT_OBJ_FLAG_ACQUIRED)
    (idx_of poolId i).

(** The headers of segment number [k]. *)
Definition seg_ok (p : utilSegmentPool) (fr : list Z) (k : nat) (objs : list objX) : Prop :=
  length objs = Z.to_nat (sp_delta p) /\
  forall j, (j < Z.to_nat (sp_delta p))%nat ->
    objs !! j = Some (obj_of (sp_poolId p) (Z.of_nat k * sp_delta p + Z.of_nat j)
                        (bool_decide (Z.of_nat k * sp_delta p + Z.of_nat j ∈ fr))).

Record pool_ok (m : segments) (p : utilSegmentPool) (fr : list Z) : Prop := {
  po_init : sp_isInitialized p = true;
  po_exponent : 0 <= sp_exponent p <= 28;
  po_delta : sp_delta p = 2 ^ sp_exponent p;
  po_poolId : 0 <= sp_poolId p < 16;
  po_max : 0 <= sp_maxNumOfObjs p <= 268435456;
  po_num : sp_numOfObjs p = Z.of_nat (length (sp_segList p)) * sp_delta p;
  po_num_le : sp_numOfObjs p <= 268435456;
  po_list : match sp_list p with
            | Some l => sp_segList p <> [] /\ Z.of_nat (length l) = sp_numOfObjs p /\
                        drop (Z.to_nat (sp_begin p)) l = map Some fr
            | None => sp_segList p = []
            end;
  po_begin : 0 <= sp_begin p;
  po_count : sp_begin p + Z.of_nat (length fr) = sp_numOfObjs p;
  po_nodup : NoDup fr;
  po_range : Forall (fun i => 0 <= i < sp_numOfObjs p) fr;
  po_segs_nodup : NoDup (sp_segList p);
  po_segs : forall k seg, sp_segList p !! k = Some seg ->
              seg <> 0 /\ exists objs, m !! seg = Some objs /\ seg_ok p fr k objs;
  po_last : sp_numOfObjs p = 268435456 -> 2 <= sp_delta p -> last fr = Some 268435455
}.

(** The objects handed out. *)
Definition in_use (p : utilSegmentPool) (fr : list Z) (i : Z) : Prop :=
  0 <= i < sp_numOfObjs p /\ i ∉ fr.

(** The index of an object in use is never the invalid one. *)
Lemma in_use_valid m p fr i :
  pool_ok m p fr -> in_use p fr i -> 2 <= sp_delta p ->
  idx_of (sp_poolId p) i <> UTIL_INVALID_OBJ_INDEX.
Proof.
  intros Hok [Hi Hni] Hd. unfold idx_of, UTIL_INVALID_OBJ_INDEX.
  pose proof (po_poolId _ _ _ Hok). pose proof (po_num_le _ _ _ Hok).
  destruct (decide (i = 268435455)) as [->|]; [exfalso|lia]. apply Hni.
  apply last_Some_elem_of, (po_last _ _ _ Hok); lia.
Qed.

(** Where object [i] is. *)
Definition obj_addr (p : utilSegmentPool) (i : Z) : option objptr :=
  seg ← sp_segList p !! Z.to_nat (i / sp_delta p);
  Some (seg, i mod sp_delta p).

Section Ok.
  Context {m : segments} {p : utilSegmentPool} {fr : list Z} (Hok : pool_ok m p fr).

Lemma po_delta_pos : 0 < sp_delta p <= 268435456.
Proof using Hok.
  pose proof (po_exponent _ _ _ Hok). rewrite (po_delta _ _ _ Hok).
  split; [lia|]. change 268435456 with (2 ^ 28). apply Z.pow_le_mono_r; lia.
Qed.

Lemma obj_split i :
  0 <= i < sp_numOfObjs p ->
  0 <= i / sp_delta p < Z.of_nat (length (sp_segList p)) /\
  0 <= i mod sp_delta p < sp_delta p /\
  i = i / sp_delta p * sp_delta p + i mod sp_delta p.
Proof using Hok.
  intros Hi. pose proof po_delta_pos as Hd.
  rewrite (po_num _ _ _ Hok) in Hi.
  split; [|split].
  - split; [apply Z.div_pos; lia|]. apply Z.div_lt_upper_bound; lia.
  - apply Z.mod_pos_bound. lia.
  - pose proof (Z.div_mod i (sp_delta p)). lia.
Qed.

(** An object below [_numOfObjs] has an address, with its header there. *)
Lemma obj_addr_ok i :
  0 <= i < sp_numOfObjs p ->
  exists seg, obj_addr p i = Some (seg, i mod sp_delta p) /\
    sp_segList p !! Z.to_nat (i / sp_delta p) = Some seg /\ seg <> 0 /\
    load m (seg, i mod sp_delta p) = Some (obj_of (sp_poolId p) i (bool_decide (i ∈ fr))).
Proof using Hok.
  intros Hi. destruct (obj_split i Hi) as (Hq & Hr & Hs).
  destruct (lookup_lt_is_Some_2 (sp_segList p) (Z.to_nat (i / sp_delta p))) as [seg Hseg]; [lia|].
  exists seg. unfold obj_addr. rewrite Hseg. split; [done|]. split; [done|].
  destruct (po_segs _ _ _ Hok _ _ Hseg) as (Hn & objs & Hm & Hlen & Hobj).
  split; [done|]. unfold load. cbn. rewrite Hm. cbn.
  rewrite Hobj by lia. by rewrite !Z2Nat.id, <- Hs by lia.
Qed.

Lemma getObjXByIndex_ok n i :
  0 <= i < sp_numOfObjs p -> getObjXByIndex p (idx_of n i) = Some (obj_addr p i).
Proof using Hok.
  intros Hi. destruct (obj_addr_ok i Hi) as (seg & Ha & Hs & Hn & _). rewrite Ha.
  pose proof (po_num_le _ _ _ Hok). pose proof (po_exponent _ _ _ Hok).
  pose proof po_delta_pos.
  unfold getObjXByIndex. rewrite land_index, idx_of_mod by lia.
  rewrite shiftr_div, <- (po_delta _ _ _ Hok), Hs by lia. simpl.
  destruct (Z.eqb_spec seg 0); [done|]. do 3 f_equal.
  rewrite u32_id, (po_delta _ _ _ Hok) by lia.
  replace (2 ^ sp_exponent p - 1) with (Z.ones (sp_exponent p))
    by (rewrite Z.ones_equiv; lia).
  by rewrite Z.land_ones by lia.
Qed.

End Ok.

(** ** Acquire and release *)

(** Marking an object changes its header only. *)
Lemma mark_ok m p fr fr' i (free : bool) :
  pool_ok m p fr -> 0 <= i < sp_numOfObjs p ->
  (forall j, j <> i -> j ∈ fr' <-> j ∈ fr) -> (i ∈ fr' <-> free = true) ->
  exists seg o m', obj_addr p i = Some (seg, i mod sp_delta p) /\
    load m (seg, i mod sp_delta p) = Some o /\
    o = obj_of (sp_poolId p) i (bool_decide (i ∈ fr)) /\
    store m (seg, i mod sp_delta p)
      (set_ox_flag o (if free then SEGMENT_OBJ_FLAG_RELEASED else SEGMENT_OBJ_FLAG_ACQUIRED))
      = Some m' /\
    (forall k seg, sp_segList p !! k = Some seg ->
       seg <> 0 /\ exists objs, m' !! seg = Some objs /\ seg_ok p fr' k objs) /\
    (forall b, b ∉ sp_segList p -> m' !! b = m !! b).
Proof.
  intros Hok Hi Hfr Hfree.
  destruct (obj_addr_ok Hok i Hi) as (seg & Ha & Hs & Hn & Hl).
  destruct (obj_split Hok i Hi) as (Hq & Hr & Hsp).
  exists seg, (obj_of (sp_poolId p) i (bool_decide (i ∈ fr))).
  pose proof (po_segs _ _ _ Hok _ _ Hs) as (_ & objs & Hm & Hlen & Hobj).
  unfold load, store in *. cbn [fst snd] in *. rewrite Hm in *. cbn in Hl |- *.
  rewrite Hl. cbn. eexists. do 4 (split; [done|]). split.
  - intros k b Hb. destruct (po_segs _ _ _ Hok _ _ Hb) as (Hb0 & objs' & Hm' & Hlen' & Hobj').
    split; [done|]. destruct (decide (seg = b)) as [<-|Hne].
    + assert (k = Z.to_nat (i / sp_delta p)) as ->
        by (eapply NoDup_lookup; [apply (po_segs_nodup _ _ _ Hok)|done|done]).
      rewrite lookup_insert_eq. eexists. split; [done|].
      split; [by rewrite length_insert|]. intros j Hj.
      assert (Z.of_nat (Z.to_nat (i / sp_delta p)) = i / sp_delta p) as E by lia.
      destruct (decide (j = Z.to_nat (i mod sp_delta p))) as [->|Hj'].
      * rewrite list_lookup_insert_eq by lia. f_equal.
        rewrite !Z2Nat.id, <- Hsp by lia. unfold set_ox_flag, obj_of. cbn. f_equal.
        rewrite (bool_decide_ext _ _ Hfree). by destruct free.
      * rewrite list_lookup_insert_ne, Hobj by lia. do 2 f_equal.
        apply bool_decide_ext. symmetry. apply Hfr. lia.
    + rewrite lookup_insert_ne by done. exists objs'. split; [done|].
      split; [done|]. intros j Hj. rewrite Hobj' by done. do 2 f_equal.
      apply bool_decide_ext. symmetry. apply Hfr. intros E.
      destruct Hne. apply (inj Some). rewrite <- Hb, <- Hs. f_equal.
      assert (i / sp_delta p = Z.of_nat k) as ->; [|lia].
      rewrite <- E. rewrite Z.add_comm, Z.div_add by lia. rewrite Z.div_small; lia.
  - intros b Hb. rewrite lookup_insert_ne; [done|]. intros ->. apply Hb.
    by eapply list_elem_of_lookup_2.
Qed.

(** The pool after its list has changed at or before the first free object. *)
Lemma pool_ok_begin m m' p fr fr' l begin :
  pool_ok m p fr -> 0 <= begin -> sp_segList p <> [] ->
  Z.of_nat (length l) = sp_numOfObjs p ->
  drop (Z.to_nat begin) l = map Some fr' ->
  begin + Z.of_nat (length fr') = sp_numOfObjs p ->
  NoDup fr' -> Forall (fun i => 0 <= i < sp_numOfObjs p) fr' ->
  (sp_numOfObjs p = 268435456 -> 2 <= sp_delta p -> last fr' = Some 268435455) ->
  (forall k seg, sp_segList p !! k = Some seg ->
     seg <> 0 /\ exists objs, m' !! seg = Some objs /\ seg_ok p fr' k objs) ->
  pool_ok m' (set_sp_begin p (Some l) begin) fr'.
Proof. intros []. intros. split; done. Qed.

Lemma drop_S_map {A} (l : list (option A)) n x fr :
  drop n l = map Some (x :: fr) ->
  l !! n = Some (Some x) /\ drop (S n) l = map Some fr.
Proof.
  intros Hd. split.
  - rewrite <- (Nat.add_0_r n), <- lookup_drop, Hd. done.
  - replace (S n) with (n + 1)%nat by lia. rewrite <- drop_drop, Hd. done.
Qed.

(** Segments that are live stay so, but for those of the pool. *)
Definition frame (p : utilSegmentPool) (m m' : segments) : Prop :=
  forall b, b ∉ sp_segList p -> m' !! b = m !! b.

Section Steps.
  Context {H : Type} `{SegmentHandler H} (sizeofT sizeofX : Z).

Lemma acquire_first_ok m (h : H) p i fr :
  pool_ok m p (i :: fr) ->
  (sp_numOfObjs p = 268435456 -> 2 <= sp_delta p -> fr <> []) ->
  exists m' p' a, acquire_first (mkState m h p) =
      Some (SDB_OK, Some (idx_of (sp_poolId p) i, Some a), mkState m' h p') /\
    obj_addr p i = Some a /\ pool_ok m' p' fr /\ frame p m m' /\
    p' = set_sp_begin p (sp_list p) (sp_begin p + 1).
Proof.
  intros Hok Hlast. pose proof (po_range _ _ _ Hok) as Hr.
  apply Forall_cons in Hr as [Hi Hr].
  pose proof (po_nodup _ _ _ Hok) as Hnd. apply NoDup_cons in Hnd as [Hni Hnd].
  destruct (mark_ok m p (i :: fr) fr i false Hok Hi) as (seg & o & m' & Ha & Hl & Ho & Hst & Hsegs & Hfr).
  { intros j Hj. set_solver. } { split; [done|discriminate]. }
  pose proof (po_list _ _ _ Hok) as Hlist. destruct (sp_list p) as [l|] eqn:El.
  2:{ pose proof (po_num _ _ _ Hok) as E. rewrite Hlist in E. simpl in E. lia. }
  destruct Hlist as (Hne & Hlen & Hd). apply drop_S_map in Hd as [Hc Hd].
  pose proof (po_begin _ _ _ Hok). pose proof (po_count _ _ _ Hok) as Hcnt.
  pose proof (po_num_le _ _ _ Hok). pose proof (po_poolId _ _ _ Hok).
  rewrite length_cons in Hcnt.
  exists m', (set_sp_begin p (Some l) (sp_begin p + 1)), (seg, i mod sp_delta p).
  split; [|split; [done|]; split; [|done]].
  - unfold acquire_first. cbn [ps_pool ps_mem ps_handler]. rewrite El. cbn. rewrite Hc. cbn.
    pose proof (getObjXByIndex_ok Hok 0 i Hi) as Hg. change (idx_of 0 i) with i in Hg.
    rewrite Hg. cbn. rewrite Ha, Hl. cbn.
    assert (objX_sane p o SEGMENT_OBJ_FLAG_RELEASED = true) as ->.
    { rewrite Ho. unfold objX_sane, obj_of. cbn [ox_eyeCatcher ox_flag ox_index].
      rewrite land_pool_mask, packed_poolid, bool_decide_eq_true_2 by (lia || left).
      by rewrite Z.eqb_refl. }
    rewrite Hst. cbn. rewrite lor_packed, u32_id by lia. done.
  - eapply pool_ok_begin; try done; try lia.
    + by replace (Z.to_nat (sp_begin p + 1)) with (S (Z.to_nat (sp_begin p))) by lia.
    + intros E E2. pose proof (po_last _ _ _ Hok E E2) as Hls. rewrite last_cons in Hls.
      specialize (Hlast E E2). destruct (last fr) eqn:Elf; [done|].
      by apply last_None in Elf.
Qed.

(** The outcome of [release] by index, in each case. *)
Lemma release_in_use m (h : H) p fr i :
  pool_ok m p fr -> in_use p fr i -> sp_begin p < sp_numOfObjs p ->
  idx_of (sp_poolId p) i <> UTIL_INVALID_OBJ_INDEX ->
  exists m' p', pool_release (idx_of (sp_poolId p) i) (mkState m h p) =
      Some (SDB_OK, mkState m' h p') /\
    pool_ok m' p' (i :: fr) /\ frame p m m' /\
    sp_segList p' = sp_segList p /\ sp_numOfObjs p' = sp_numOfObjs p /\
    sp_delta p' = sp_delta p /\ sp_poolId p' = sp_poolId p /\ sp_pHandler p' = sp_pHandler p.
Proof.
  intros Hok [Hi Hni] Hb Hidx.
  destruct (mark_ok m p fr (i :: fr) i true Hok Hi) as (seg & o & m' & Ha & Hl & Ho & Hst & Hsegs & Hfr).
  { intros j Hj. set_solver. } { split; [done|left]. }
  pose proof (po_list _ _ _ Hok) as Hlist. destruct (sp_list p) as [l|] eqn:El.
  2:{ pose proof (po_num _ _ _ Hok) as E. rewrite Hlist in E. simpl in E. lia. }
  destruct Hlist as (Hne & Hlen & Hd).
  pose proof (po_begin _ _ _ Hok). pose proof (po_count _ _ _ Hok) as Hcnt.
  pose proof (po_num_le _ _ _ Hok). pose proof (po_poolId _ _ _ Hok).
  assert (0 < sp_begin p) as Hb0.
  { destruct (decide (sp_begin p = 0)) as [E|]; [exfalso|lia]. apply Hni.
    assert (zseq 0 (Z.to_nat (sp_numOfObjs p)) ⊆ fr) as Hsub.
    2:{ apply Hsub, elem_of_zseq. lia. }
    assert (fr ≡ₚ zseq 0 (Z.to_nat (sp_numOfObjs p))) as ->; [|done].
    apply submseteq_length_Permutation.
    - apply NoDup_submseteq; [apply (po_nodup _ _ _ Hok)|]. intros x Hx.
      apply elem_of_zseq. pose proof (po_range _ _ _ Hok) as Hr.
      rewrite Forall_forall in Hr. specialize (Hr x Hx). lia.
    - unfold zseq. rewrite length_seqZ. lia. }
  exists m', (set_sp_begin p
    (Some (<[Z.to_nat (sp_begin p - 1) := Some i]> l)) (sp_begin p - 1)).
  split; [|split; [|done]].
  - unfold pool_release. cbn [ps_pool ps_mem ps_handler].
    rewrite land_pool_mask, packed_poolid, Z.eqb_refl, andb_true_r by lia.
    unfold IS_VALID_SEG_OBJ_INDEX.
    destruct (Z.eqb_spec UTIL_INVALID_OBJ_INDEX (idx_of (sp_poolId p) i)); [congruence|]. cbn.
    rewrite (po_init _ _ _ Hok), El.
    destruct (Z.ltb_spec 0 (sp_begin p)); [|lia].
    destruct (Z.ltb_spec (sp_begin p) (sp_numOfObjs p)); [|lia]. cbn.
    rewrite (getObjXByIndex_ok Hok) by done. cbn. rewrite Ha, Hl. cbn.
    assert (objX_sane p o SEGMENT_OBJ_FLAG_ACQUIRED = true) as ->.
    { rewrite Ho. unfold objX_sane, obj_of. cbn [ox_eyeCatcher ox_flag ox_index].
      rewrite land_pool_mask, packed_poolid, bool_decide_eq_false_2 by (lia || done).
      by rewrite Z.eqb_refl. }
    rewrite Hst. cbn.
    destruct (lookup_lt_is_Some_2 l (Z.to_nat (sp_begin p - 1))) as [c ->]; [lia|]. cbn.
    by rewrite land_index, idx_of_mod by lia.
  - eapply pool_ok_begin; try done.
    + lia.
    + by rewrite length_insert.
    + apply list_eq. intros n. rewrite lookup_drop. destruct n as [|n].
      * rewrite Nat.add_0_r, list_lookup_insert_eq by lia. done.
      * rewrite list_lookup_insert_ne by lia. simpl map. rewrite lookup_cons, <- Hd, lookup_drop.
        f_equal. lia.
    + rewrite length_cons. lia.
    + constructor; [done|apply (po_nodup _ _ _ Hok)].
    + constructor; [lia|apply (po_range _ _ _ Hok)].
    + intros E E2. rewrite last_cons, (po_last _ _ _ Hok E E2). done.
Qed.

(** An object that is not in use, and one too many, are refused. *)
Lemma release_refused m (h : H) p fr i :
  pool_ok m p fr -> 0 <= i < sp_numOfObjs p ->
  i ∈ fr \/ sp_begin p = sp_numOfObjs p ->
  exists rc, pool_release (idx_of (sp_poolId p) i) (mkState m h p) = Some (rc, mkState m h p) /\
    (rc = SDB_SYS \/ (rc = SDB_INVALIDARG /\ idx_of (sp_poolId p) i = UTIL_INVALID_OBJ_INDEX)).
Proof.
  intros Hok Hi Hc. pose proof (po_num_le _ _ _ Hok). pose proof (po_poolId _ _ _ Hok).
  unfold pool_release. cbn [ps_pool ps_mem ps_handler].
  rewrite land_pool_mask, packed_poolid, Z.eqb_refl, andb_true_r by lia.
  unfold IS_VALID_SEG_OBJ_INDEX.
  destruct (Z.eqb_spec UTIL_INVALID_OBJ_INDEX (idx_of (sp_poolId p) i)) as [E|]; cbn.
  { eexists. split; [done|]. by right. }
  exists SDB_SYS. split; [|by left].
  rewrite (po_init _ _ _ Hok). destruct (sp_list p) as [l|] eqn:El; [|done].
  destruct (Z.ltb_spec 0 (sp_begin p)); [|done].
  destruct (Z.ltb_spec (sp_begin p) (sp_numOfObjs p)); [|done]. cbn.
  rewrite (getObjXByIndex_ok Hok) by done. cbn.
  destruct (obj_addr_ok Hok i Hi) as (seg & -> & _ & _ & ->). cbn.
  destruct Hc as [Hin|]; [|lia].
  unfold objX_sane, obj_of. cbn [ox_eyeCatcher ox_flag ox_index].
  by rewrite bool_decide_eq_true_2, andb_false_r.
Qed.

(** ** More objects *)

(** What the allocator may answer. *)
Definition fresh_segment (os : pool_os) (m : segments) : Prop :=
  match os_segment os with Some b => b <> 0 /\ m !! b = None | None => True end.

Lemma segment_new_lookup poolId n delta j :
  0 <= poolId < 16 -> 0 <= n -> n + delta <= 268435456 -> (j < Z.to_nat delta)%nat ->
  segment_new poolId n delta !! j = Some (obj_of poolId (n + Z.of_nat j) true).
Proof.
  intros Hp Hn Hle Hj. unfold segment_new. rewrite list_lookup_fmap.
  unfold zseq. rewrite lookup_seqZ_lt by lia. cbn.
  rewrite Z.add_0_l, u32_id, lor_packed by lia. done.
Qed.

Lemma expanded_ok m p fr b l :
  pool_ok m p fr -> sp_numOfObjs p + sp_delta p <= 268435456 ->
  b <> 0 -> m !! b = None ->
  Z.of_nat (length l) = sp_numOfObjs p + sp_delta p ->
  drop (Z.to_nat (sp_begin p)) l =
    map Some (fr ++ zseq (sp_numOfObjs p) (Z.to_nat (sp_delta p))) ->
  pool_ok (<[b := segment_new (sp_poolId p) (sp_numOfObjs p) (sp_delta p)]> m)
    (set_sp p (Some l) (sp_begin p) (sp_numOfObjs p + sp_delta p) (sp_segList p ++ [b]))
    (fr ++ zseq (sp_numOfObjs p) (Z.to_nat (sp_delta p))).
Proof.
  intros Hok Hle Hb0 Hb Hlen Hdrop. pose proof (po_delta_pos Hok) as Hd.
  assert (Hnew : forall i, i ∈ fr -> 0 <= i < sp_numOfObjs p).
  { intros i Hi. pose proof (po_range _ _ _ Hok) as Hr. rewrite Forall_forall in Hr. auto. }
  assert (Hseg : b ∉ sp_segList p).
  { intros Hin. apply list_elem_of_lookup in Hin as [k Hk].
    destruct (po_segs _ _ _ Hok k b Hk) as (_ & objs & E & _). congruence. }
  destruct Hok. split; cbn; try done.
  - rewrite length_app. simpl. lia.
  - split_and!; [by destruct (sp_segList p)|done|done].
  - rewrite length_app. unfold zseq. rewrite length_seqZ. lia.
  - apply NoDup_app. split_and!; [done| |apply NoDup_seqZ].
    intros x Hx ?%elem_of_zseq. specialize (Hnew x Hx). lia.
  - apply Forall_app. split; [|].
    + apply Forall_forall. intros x Hx. specialize (Hnew x Hx). lia.
    + apply Forall_forall. intros x ?%elem_of_zseq. lia.
  - apply NoDup_app. split_and!; [done| |apply NoDup_singleton].
    intros x Hx ->%list_elem_of_singleton. done.
  - intros k seg Hk. apply lookup_app_Some in Hk as [Hk|[Hk1 Hk2]].
    + destruct (po_segs0 _ _ Hk) as (? & objs & E & Hl & Ho). split; [done|].
      rewrite lookup_insert_ne by congruence. exists objs. split; [done|].
      split; [done|]. intros j Hj. cbn in Hj |- *. rewrite Ho by done. do 2 f_equal.
      apply bool_decide_ext. rewrite elem_of_app, elem_of_zseq.
      apply lookup_lt_Some in Hk. assert (Z.of_nat k * sp_delta p + Z.of_nat j < sp_numOfObjs p) by nia.
      split; [by left|]. intros [?|?]; [done|lia].
    + destruct (k - length (sp_segList p))%nat as [|?] eqn:Ek; [|done]. simpl in Hk2.
      injection Hk2 as <-. split; [done|]. rewrite lookup_insert_eq. eexists. split; [done|].
      assert (k = length (sp_segList p)) as -> by lia. split.
      { cbn. unfold segment_new, zseq. by rewrite length_map, length_seqZ, Nat2Z.id. }
      intros j Hj. cbn in Hj |- *. rewrite segment_new_lookup by lia.
      rewrite <- po_num0. do 2 f_equal. symmetry. apply bool_decide_eq_true_2.
      apply elem_of_app. right. apply elem_of_zseq. lia.
  - intros E _. rewrite last_app. destruct (Z.to_nat (sp_delta p)) as [|d] eqn:Ed; [lia|].
    rewrite zseq_S_end, last_snoc. f_equal. lia.
Qed.

Lemma expandList_ok os m (h : H) p fr :
  pool_ok m p fr -> fresh_segment os m ->
  (exists b, os_segment os = Some b /\ os_list os = true /\ ~ b ∈ sp_segList p /\
     sp_numOfObjs p + sp_delta p <= sp_maxNumOfObjs p /\ exists m' p',
     expandList os (mkState m h p) = (SDB_OK, mkState m' h p') /\
     pool_ok m' p' (fr ++ zseq (sp_numOfObjs p) (Z.to_nat (sp_delta p))) /\
     sp_segList p' = sp_segList p ++ [b] /\
     sp_numOfObjs p' = sp_numOfObjs p + sp_delta p /\
     sp_delta p' = sp_delta p /\ sp_poolId p' = sp_poolId p /\
     sp_pHandler p' = sp_pHandler p /\ sp_begin p' = sp_begin p /\
     sp_maxNumOfObjs p' = sp_maxNumOfObjs p /\ frame p' m m' /\
     forall b', b' ∈ sp_segList p -> m' !! b' = m !! b') \/
  (sp_numOfObjs p + sp_delta p <= sp_maxNumOfObjs p /\
   (os_segment os = None \/ os_list os = false) /\
   expandList os (mkState m h p) = (SDB_OOM, mkState m h p)) \/
  (sp_maxNumOfObjs p < sp_numOfObjs p + sp_delta p /\
   expandList os (mkState m h p) = (SDB_OSS_UP_TO_LIMIT, mkState m h p)).
Proof.
  intros Hok Hf. pose proof (po_delta_pos Hok). pose proof (po_max _ _ _ Hok).
  pose proof (po_num_le _ _ _ Hok). pose proof (po_begin _ _ _ Hok).
  pose proof (po_count _ _ _ Hok). unfold expandList. cbn [ps_pool ps_mem ps_handler].
  rewrite u32_id by lia. unfold UTIL_INVALID_OBJ_INDEX.
  destruct (Z.eqb_spec 4294967295 (sp_numOfObjs p + sp_delta p)); [lia|].
  destruct (Z.eqb_spec (sp_delta p) 0); [lia|].
  destruct (Z.leb_spec (sp_numOfObjs p + sp_delta p) (sp_maxNumOfObjs p)) as [Hle|]; cbn; [|tauto].
  unfold fresh_segment in Hf. destruct (os_segment os) as [b|]; [|tauto].
  destruct (os_list os); [|tauto]. left. destruct Hf as [Hb0 Hb].
  assert (Hseg : b ∉ sp_segList p).
  { intros Hin. apply list_elem_of_lookup in Hin as [k Hk].
    destruct (po_segs _ _ _ Hok k b Hk) as (_ & objs & E & _). congruence. }
  exists b. do 4 (split; [done|]). eexists _, _. split; [done|]. split.
  - assert (map (fun i => Some (u32 (sp_numOfObjs p + i))) (zseq 0 (Z.to_nat (sp_delta p))) =
            map Some (zseq (sp_numOfObjs p) (Z.to_nat (sp_delta p)))) as ->.
    { apply list_eq. intros k. rewrite !list_lookup_fmap. unfold zseq.
      destruct (decide (k < Z.to_nat (sp_delta p))%nat).
      - rewrite !lookup_seqZ_lt by lia. cbn. by rewrite Z.add_0_l, u32_id by lia.
      - by rewrite !lookup_seqZ_ge by lia. }
    apply expanded_ok; try done; try lia.
    + rewrite length_app, length_map. unfold zseq. rewrite length_seqZ.
      pose proof (po_list _ _ _ Hok) as Hl. destruct (sp_list p).
      * rewrite length_take. lia.
      * rewrite length_replicate. lia.
    + pose proof (po_list _ _ _ Hok) as Hl. destruct (sp_list p) as [l|].
      * destruct Hl as (_ & Hl & Hd). rewrite take_ge by lia.
        rewrite drop_app_le, Hd, map_app by lia. done.
      * rewrite (po_num _ _ _ Hok), Hl in *. simpl in *.
        replace (sp_begin p) with 0 by lia. destruct fr; [done|simpl in *; lia].
  - do 7 (split; [done|]). split.
    + intros b' Hb'. cbn in Hb'. rewrite lookup_insert_ne; [done|]. set_solver.
    + intros b' Hb'. rewrite lookup_insert_ne; [done|]. set_solver.
Qed.

(** What [acquire] keeps of the pool, besides the objects. *)
Definition same_pool (p p' : utilSegmentPool) : Prop :=
  sp_delta p' = sp_delta p /\ sp_poolId p' = sp_poolId p /\
  sp_pHandler p' = sp_pHandler p /\ sp_maxNumOfObjs p' = sp_maxNumOfObjs p /\
  sp_segList p `prefix_of` sp_segList p'.

(** Whether [acquire] has to add a segment first. *)
Lemma acquire_expand_need os m (h : H) p fr :
  pool_ok m p fr ->
  acquire_expand sizeofX os (mkState m h p) =
  if sp_numOfObjs p - 1 <=? sp_begin p
  then
    if sp_maxNumOfObjs p <=? sp_numOfObjs p then (SDB_OSS_UP_TO_LIMIT, mkState m h p)
    else if sp_pHandler p && negb (canAllocSegment h (u64 (sp_delta p * sizeofX)))
    then (SDB_OSS_UP_TO_LIMIT, mkState m h p)
    else
      let '(rc, s) := expandList os (mkState m h p) in
      if negb (rc =? SDB_OK) then (rc, s)
      else (SDB_OK,
            if sp_pHandler p
            then mkState (ps_mem s) (onAllocSegment (ps_handler s) (u64 (sp_delta p * sizeofX)))
                   (ps_pool s)
            else s)
  else (SDB_OK, mkState m h p).
Proof.
  intros Hok. unfold acquire_expand, needExpand, isUpToLimit.
  cbn [ps_pool ps_mem ps_handler].
  pose proof (po_list _ _ _ Hok) as Hl. pose proof (po_num _ _ _ Hok) as Hn.
  pose proof (po_num_le _ _ _ Hok). pose proof (po_delta_pos Hok).
  pose proof (po_begin _ _ _ Hok). destruct (sp_list p) as [l|].
  - destruct Hl as (Hne & _). destruct (sp_segList p) as [|x segs]; [done|].
    simpl length in Hn. rewrite u32_id by nia. done.
  - rewrite Hl in Hn. simpl in Hn. destruct (Z.leb_spec (sp_numOfObjs p - 1) (sp_begin p)); [done|lia].
Qed.

(** The object at the head of the free list is the one that is handed out. *)
Lemma in_use_acquire p p' i fr :
  sp_numOfObjs p' = sp_numOfObjs p -> 0 <= i < sp_numOfObjs p -> i ∉ fr ->
  forall j, in_use p' fr j <-> in_use p (i :: fr) j \/ j = i.
Proof.
  intros E Hi Hni j. unfold in_use. rewrite E, not_elem_of_cons.
  destruct (decide (j = i)) as [->|]; tauto.
Qed.

Lemma pool_acquire_free os m (h : H) p fr :
  pool_ok m p fr -> sp_begin p < sp_numOfObjs p - 1 ->
  exists i a m' p' fr', fr = i :: fr' /\
    pool_acquire sizeofX os (mkState m h p) =
      Some (SDB_OK, Some (idx_of (sp_poolId p) i, Some a), mkState m' h p') /\
    pool_ok m' p' fr' /\ obj_addr p' i = Some a /\ frame p' m m' /\ same_pool p p' /\
    sp_segList p' = sp_segList p /\ sp_numOfObjs p' = sp_numOfObjs p /\
    sp_begin p' < sp_numOfObjs p'.
Proof.
  intros Hok Hb. pose proof (po_count _ _ _ Hok) as Hc.
  destruct fr as [|i [|i' fr]]; simpl length in Hc; [lia|lia|].
  destruct (acquire_first_ok m h p i (i' :: fr) Hok) as (m' & p' & a & Hf & Ha & Hok' & Hfr & ->);
    [done|].
  eexists i, a, m', _, _. split; [done|]. split.
  - unfold pool_acquire. cbn [ps_pool]. rewrite (po_init _ _ _ Hok).
    rewrite (acquire_expand_need os m h p _ Hok).
    destruct (Z.leb_spec (sp_numOfObjs p - 1) (sp_begin p)); [lia|]. cbn. exact Hf.
  - do 3 (split; [done|]). split; [by repeat split|]. split; [done|]. split; [done|].
    cbn. lia.
Qed.

(** A segment was added, or not, and the handler was told. *)
Definition grown (m : segments) (h h' : H) (p p' : utilSegmentPool) : Prop :=
  (sp_segList p' = sp_segList p /\ h' = h) \/
  (exists b, sp_segList p' = sp_segList p ++ [b] /\ m !! b = None /\
     h' = if sp_pHandler p then onAllocSegment h (u64 (sp_delta p * sizeofX)) else h).

Lemma pool_acquire_grow os m (h : H) p fr :
  pool_ok m p fr -> fresh_segment os m -> sp_numOfObjs p - 1 <= sp_begin p ->
  (exists i a m' h' p' fr',
    pool_acquire sizeofX os (mkState m h p) =
      Some (SDB_OK, Some (idx_of (sp_poolId p) i, Some a), mkState m' h' p') /\
    pool_ok m' p' fr' /\ obj_addr p' i = Some a /\ frame p' m m' /\ same_pool p p' /\
    grown m h h' p p' /\ ~ in_use p fr i /\
    (forall j, in_use p' fr' j <-> in_use p fr j \/ j = i) /\
    (2 <= sp_delta p -> sp_begin p' < sp_numOfObjs p')) \/
  (exists rc, pool_acquire sizeofX os (mkState m h p) = Some (rc, None, mkState m h p) /\
    ((rc = SDB_OOM /\ (os_segment os = None \/ os_list os = false)) \/
     (rc = SDB_OSS_UP_TO_LIMIT /\
      (sp_maxNumOfObjs p < sp_numOfObjs p + sp_delta p \/
       (sp_pHandler p = true /\ canAllocSegment h (u64 (sp_delta p * sizeofX)) = false))))).
Proof.
  intros Hok Hfs Hb. pose proof (po_delta_pos Hok) as Hd. pose proof (po_count _ _ _ Hok) as Hc.
  pose proof (po_begin _ _ _ Hok).
  unfold pool_acquire. cbn [ps_pool]. rewrite (po_init _ _ _ Hok).
  rewrite (acquire_expand_need os m h p _ Hok).
  destruct (Z.leb_spec (sp_numOfObjs p - 1) (sp_begin p)); [|lia].
  destruct (Z.leb_spec (sp_maxNumOfObjs p) (sp_numOfObjs p)).
  { right. eexists. split; [done|]. right. split; [done|]. left. lia. }
  destruct (sp_pHandler p && negb (canAllocSegment h (u64 (sp_delta p * sizeofX)))) eqn:Ec.
  { apply andb_true_iff in Ec as [? ?%negb_true_iff]. right. eexists. split; [done|]. tauto. }
  destruct (expandList_ok os m h p fr Hok Hfs) as
    [(b & Eos & _ & Hbs & _ & m1 & p1 & -> & Hok1 & Es & En & Ed & Ei & Eh & Eb & Em & Hf1 & Hf2)
    |[(_ & Ho & ->)|(Hm & ->)]]; cbn.
  2:{ right. eexists. split; [done|]. tauto. } 2:{ right. eexists. split; [done|]. tauto. }
  left.
  destruct (fr ++ zseq (sp_numOfObjs p) (Z.to_nat (sp_delta p))) as [|i fr'] eqn:Efr.
  { apply app_nil in Efr as [_ E]. apply (f_equal length) in E. unfold zseq in E.
    rewrite length_seqZ in E. simpl in E. lia. }
  set (h' := if sp_pHandler p then onAllocSegment h (u64 (sp_delta p * sizeofX)) else h).
  destruct (acquire_first_ok m1 h' p1 i fr' Hok1) as (m' & p' & a & Hf & Ha & Hok' & Hfr & ->).
  { intros E E2 ->. apply (f_equal length) in Efr. rewrite length_app in Efr. unfold zseq in Efr.
    rewrite length_seqZ in Efr. simpl in Efr. lia. }
  assert (Hni : i ∉ fr' /\ 0 <= i < sp_numOfObjs p1).
  { pose proof (po_nodup _ _ _ Hok1) as Hn. apply NoDup_cons in Hn as [? _].
    pose proof (po_range _ _ _ Hok1) as Hr. apply Forall_cons in Hr as [? _]. done. }
  assert (Hin : forall j, in_use p1 (i :: fr') j <-> in_use p fr j).
  { intros j. unfold in_use. rewrite <- Efr, En, elem_of_app, elem_of_zseq.
    split; intros [? ?]; split; try lia; intros ?; tauto || (intuition lia). }
  exists i, a, m', h', (set_sp_begin p1 (sp_list p1) (sp_begin p1 + 1)), fr'. split_and!.
  - rewrite <- Ei, <- Hf. unfold h'. by destruct (sp_pHandler p).
  - done.
  - done.
  - intros b' Hb'. change (sp_segList _) with (sp_segList p1) in Hb'.
    rewrite (Hfr b' Hb'). by apply Hf1.
  - repeat split; try done. cbn. rewrite Es. by apply prefix_app_r.
  - right. exists b. split; [done|]. split; [|done].
    unfold fresh_segment in Hfs. rewrite Eos in Hfs. tauto.
  - intros [_ Hx]%Hin. apply Hx. left.
  - intros j. specialize (Hin j).
    pose proof (in_use_acquire p1 (set_sp_begin p1 (sp_list p1) (sp_begin p1 + 1)) i fr'
      eq_refl ltac:(tauto) ltac:(tauto) j). tauto.
  - intros Hd2. cbn. rewrite Eb, En. lia.
Qed.

End Steps.
