(* ===== verification/UtilSegmentShrink.v ===== *)
(** * Giving segments back keeps the invariant of a pool

    [shrink] (src/src/include/utilSegment.hpp) looks for the highest object in
    use with a bitmap of the free ones, deletes the segments above it but
    for those it is told to keep, and sorts the free list. *)
From S2P Require Import Prelude.
From S2P Require Import OssBase.
From S2P Require Import UtilBitmap.
From S2P Require Import UtilSegment.
From S2P Require Import UtilSegmentOk.

(** ** The bitmap of the free objects *)

Lemma mark_free_spec fr : forall b,
  bitmap_ok b -> Forall (fun i => 0 <= i) fr ->
  exists b', mark_free (map Some fr) b = Some b' /\ bitmap_ok b' /\ bp_size b' = bp_size b /\
    forall j, 0 <= j -> bit_in b' j <-> bit_in b j \/ (j ∈ fr /\ j < bp_size b).
Proof.
  induction fr as [|i fr IH]; intros b Hb Hfr.
  - exists b. split_and!; try done. set_solver.
  - apply Forall_cons in Hfr as [Hi Hfr].
    destruct (setBit_spec b i Hb Hi) as (b1 & E1 & Hb1 & Es & H1).
    destruct (IH b1 Hb1 Hfr) as (b' & E' & Hb' & Es' & H').
    exists b'. cbn. rewrite E1. cbn. split; [done|]. split; [done|].
    split; [congruence|]. intros j Hj. rewrite (H' j Hj), (H1 j Hj), Es, elem_of_cons.
    intuition (subst; tauto).
Qed.

Lemma testBit_dec b i : bitmap_ok b -> 0 <= i -> exists t : bool,
  testBit b i = Some t /\ (t = true <-> bit_in b i).
Proof.
  intros Hb Hi. exists ((i <? bp_size b) && buffer_bit b i).
  split; [by apply testBit_spec|]. unfold bit_in. rewrite andb_true_iff, Z.ltb_lt. tauto.
Qed.

(** The search from the top finds the highest index that is not set. *)
Lemma find_max_spec b n :
  bitmap_ok b -> (exists i, 0 <= i < Z.of_nat n /\ ~ bit_in b i) ->
  exists x, find_max b n = Some x /\ 0 <= x < Z.of_nat n /\ ~ bit_in b x /\
    forall j, x < j < Z.of_nat n -> bit_in b j.
Proof.
  intros Hb. induction n as [|n IH]; intros (i & Hi & Hn); [lia|]. cbn [find_max].
  destruct (testBit_dec b (Z.of_nat n) Hb ltac:(lia)) as (t & -> & Ht). cbn.
  destruct t; cbn.
  - destruct IH as (x & E & Hx & Hnx & Hj).
    { exists i. split; [|done]. destruct (decide (i = Z.of_nat n)) as [->|]; [|lia].
      exfalso. by apply Hn, Ht.  }
    exists x. split; [done|]. split; [lia|]. split; [done|]. intros j Hj'.
    destruct (decide (j = Z.of_nat n)) as [->|]; [by apply Ht|apply Hj; lia].
  - exists (Z.of_nat n). split; [done|]. split; [lia|]. split; [|lia]. by intros ?%Ht.
Qed.

(** The sorted list of the free objects. *)
Lemma restore_free_spec b (fr : list Z) n : forall i j l,
  bitmap_ok b -> 0 <= i -> 0 <= j ->
  (forall k, i <= k < i + Z.of_nat n -> bit_in b k <-> k ∈ fr) ->
  let new := filter (fun k => k ∈ fr) (zseq i n) in
  j + Z.of_nat (length new) <= Z.of_nat (length l) ->
  restore_free b n i j l =
  Some (take (Z.to_nat j) l ++ map Some new ++ drop (Z.to_nat j + length new) l).
Proof.
  induction n as [|n IH]; intros i j l Hb Hi Hj Hbits new Hlen.
  - subst new. simpl. rewrite Nat.add_0_r. f_equal. symmetry. apply take_drop.
  - cbn [restore_free]. subst new. revert Hlen. rewrite zseq_S.
    destruct (testBit_dec b i Hb Hi) as (t & -> & Ht). cbn [mbind option_bind].
    rewrite (Hbits i ltac:(lia)) in Ht.
    assert (Hbits' : forall k, i + 1 <= k < i + 1 + Z.of_nat n -> bit_in b k <-> k ∈ fr)
      by (intros k Hk; apply Hbits; lia).
    rewrite filter_cons. destruct t.
    + rewrite decide_True by tauto. simpl length. intros Hlen.
      destruct (lookup_lt_is_Some_2 l (Z.to_nat j)) as [c Hc]; [lia|]. rewrite Hc. cbn [mbind option_bind].
      rewrite IH; [|done|lia|lia|done|rewrite length_insert; lia].
      f_equal. replace (Z.to_nat (j + 1)) with (S (Z.to_nat j)) by lia.
      rewrite (take_S_r _ _ (Some i)) by (apply list_lookup_insert_eq; lia).
      rewrite take_insert_ge, drop_insert_lt by lia.
      rewrite <- app_assoc. cbn. do 3 f_equal. f_equal. lia.
    + rewrite decide_False by (intros ?; by discriminate (proj2 Ht)). intros Hlen.
      rewrite IH; [done|done|lia|lia|done|lia].
Qed.

(** ** Counting *)

Lemma filter_split_length {A} (P : A -> Prop) `{!forall x, Decision (P x)} (l : list A) :
  (length (filter P l) + length (filter (fun x => ~ P x) l))%nat = length l.
Proof.
  induction l as [|x l IH]; [done|]. rewrite !filter_cons.
  destruct (decide (P x)), (decide (~ P x)); try tauto; simpl; lia.
Qed.

Lemma filter_none {A} (P : A -> Prop) `{!forall x, Decision (P x)} (l : list A) :
  (forall x, x ∈ l -> ~ P x) -> filter P l = [].
Proof.
  induction l as [|x l IH]; intros Hl; [done|]. rewrite filter_cons_False.
  - apply IH. intros y Hy. apply Hl. by right.
  - apply Hl. left.
Qed.

Lemma filter_all {A} (P : A -> Prop) `{!forall x, Decision (P x)} (l : list A) :
  (forall x, x ∈ l -> P x) -> filter P l = l.
Proof.
  induction l as [|x l IH]; intros Hl; [done|]. rewrite filter_cons_True.
  - f_equal. apply IH. intros y Hy. apply Hl. by right.
  - apply Hl. left.
Qed.

Section Count.
  Context {m : segments} {p : utilSegmentPool} {fr : list Z} (Hok : pool_ok m p fr).

Lemma free_perm : filter (fun k => k ∈ fr) (zseq 0 (Z.to_nat (sp_numOfObjs p))) ≡ₚ fr.
Proof using Hok.
  apply NoDup_Permutation.
  - apply NoDup_filter, NoDup_seqZ.
  - apply (po_nodup _ _ _ Hok).
  - intros x. rewrite list_elem_of_filter, elem_of_zseq. split; [tauto|]. intros Hx.
    split; [done|]. pose proof (po_range _ _ _ Hok) as Hr. rewrite Forall_forall in Hr.
    specialize (Hr x Hx). lia.
Qed.

(** Below a bound no object in use reaches, [_begin] are in use. *)
Lemma free_below n :
  0 <= n <= sp_numOfObjs p -> (forall i, in_use p fr i -> i < n) ->
  sp_begin p + Z.of_nat (length (filter (fun k => k ∈ fr) (zseq 0 (Z.to_nat n)))) = n.
Proof using Hok.
  intros Hn Hlt. pose proof (po_count _ _ _ Hok) as Hc. pose proof (po_begin _ _ _ Hok).
  pose proof (filter_split_length (fun k => k ∈ fr) (zseq 0 (Z.to_nat n))) as H1.
  pose proof (filter_split_length (fun k => k ∈ fr) (zseq 0 (Z.to_nat (sp_numOfObjs p)))) as H2.
  rewrite free_perm in H2. unfold zseq in H1 at 3, H2 at 2. rewrite length_seqZ in H1, H2.
  assert (filter (fun k => ~ k ∈ fr) (zseq 0 (Z.to_nat (sp_numOfObjs p))) =
          filter (fun k => ~ k ∈ fr) (zseq 0 (Z.to_nat n))) as E.
  { unfold zseq. rewrite (Z2Nat.id (sp_numOfObjs p)), (Z2Nat.id n) by lia.
    replace (sp_numOfObjs p) with (n + (sp_numOfObjs p - n)) by lia.
    rewrite seqZ_app, filter_app by lia. rewrite (filter_none _ (seqZ (0 + n) _)).
    - apply app_nil_r.
    - intros x Hx%elem_of_seqZ Hnx. specialize (Hlt x). unfold in_use in Hlt. apply (Z.lt_irrefl x).
      apply Z.lt_le_trans with n; [apply Hlt; split; [lia|done]|lia]. }
  rewrite E in H2. lia.
Qed.

Lemma begin_in_use : 0 < sp_begin p -> exists i, in_use p fr i.
Proof using Hok.
  intros Hb. pose proof (po_count _ _ _ Hok) as Hc.
  destruct (filter (fun k => ~ k ∈ fr) (zseq 0 (Z.to_nat (sp_numOfObjs p)))) as [|x l] eqn:E.
  - pose proof (filter_split_length (fun k => k ∈ fr) (zseq 0 (Z.to_nat (sp_numOfObjs p)))) as H2.
    rewrite free_perm, E in H2. unfold zseq in H2. rewrite length_seqZ in H2. simpl in H2. lia.
  - exists x. assert (x ∈ x :: l) as Hx by left. rewrite <- E in Hx.
    apply list_elem_of_filter in Hx as [? ?%elem_of_zseq]. split; [lia|done].
Qed.

Lemma begin_zero i : sp_begin p = 0 -> ~ in_use p fr i.
Proof using Hok.
  intros Hb [Hi Hni]. pose proof (free_below (sp_numOfObjs p)) as Hf.
  pose proof (po_count _ _ _ Hok).
  pose proof (filter_split_length (fun k => k ∈ fr) (zseq 0 (Z.to_nat (sp_numOfObjs p)))) as H2.
  rewrite free_perm in H2. unfold zseq in H2 at 2. rewrite length_seqZ in H2.
  assert (i ∈ filter (fun k => ~ k ∈ fr) (zseq 0 (Z.to_nat (sp_numOfObjs p)))) as Hin.
  { apply list_elem_of_filter. split; [done|]. apply elem_of_zseq. lia. }
  destruct (filter (fun k => ~ k ∈ fr) _) as [|]; [set_solver|]. simpl in H2. lia.
Qed.

End Count.

(** ** Deleting segments *)

Lemma delete_segments_spec segs : forall m,
  NoDup segs -> (forall b, b ∈ segs -> b <> 0 /\ is_Some (m !! b)) ->
  exists m', delete_segments segs m = Some m' /\
    forall b, m' !! b = if decide (b ∈ segs) then None else m !! b.
Proof.
  induction segs as [|b segs IH]; intros m Hnd Hl.
  - exists m. split; [done|]. intros b. by rewrite decide_False by set_solver.
  - apply NoDup_cons in Hnd as [Hb Hnd]. destruct (Hl b) as [Hb0 [objs Hm]]; [left|].
    destruct (IH (delete b m) Hnd) as (m' & E & Hm').
    { intros c Hc. rewrite lookup_delete_ne by set_solver. apply Hl. by right. }
    exists m'. cbn. destruct (Z.eqb_spec b 0); [done|]. rewrite Hm. cbn. split; [done|].
    intros c. rewrite Hm'. destruct (decide (c ∈ segs)).
    + by rewrite decide_True by (by right).
    + destruct (decide (c = b)) as [->|].
      * rewrite lookup_delete_eq, decide_True by left. done.
      * rewrite lookup_delete_ne, decide_False by set_solver. done.
Qed.

(** The pool after its segments from number [k] on are gone. *)
Lemma shrunk_ok m p fr k l m' :
  pool_ok m p fr -> (k < length (sp_segList p))%nat ->
  let n := Z.of_nat k * sp_delta p in
  let fr' := filter (fun i => i ∈ fr) (zseq 0 (Z.to_nat n)) in
  (forall i, in_use p fr i -> i < n) ->
  match l with
  | Some l => k <> 0%nat /\ Z.of_nat (length l) = n /\ drop (Z.to_nat (sp_begin p)) l = map Some fr'
  | None => k = 0%nat
  end ->
  (forall b, b ∉ drop k (sp_segList p) -> m' !! b = m !! b) ->
  pool_ok m' (set_sp p l (sp_begin p) n (take k (sp_segList p))) fr'.
Proof.
  intros Hok Hk n fr' Huse Hl Hm'. pose proof (po_delta_pos Hok) as Hd.
  pose proof (po_num _ _ _ Hok) as Hnum.
  assert (Hn : 0 <= n < sp_numOfObjs p) by nia.
  pose proof (free_below Hok n ltac:(lia) Huse) as Hcnt.
  pose proof (po_segs_nodup _ _ _ Hok) as Hnd.
  pose proof (po_segs _ _ _ Hok) as Hsegs.
  destruct Hok. split; cbn; try done.
  - rewrite length_take. lia.
  - lia.
  - destruct l as [l|]; [|by subst k].
    destruct Hl as (Hk0 & Hlen & Hdr). split_and!; [|done|done].
    destruct (sp_segList p); [simpl in Hk; lia|]. by destruct k.
  - apply NoDup_filter, NoDup_seqZ.
  - apply Forall_forall. intros x [_ ?%elem_of_zseq]%list_elem_of_filter. lia.
  - rewrite <- (take_drop k (sp_segList p)) in Hnd. by apply NoDup_app in Hnd as [? _].
  - intros q seg Hq. apply lookup_take_Some in Hq as [Hq Hqk].
    destruct (Hsegs _ _ Hq) as (? & objs & E & Hlen & Ho). split; [done|].
    exists objs. rewrite Hm'; [split; [done|]|].
    + split; [done|]. intros j Hj. cbn in Hj |- *. rewrite Ho by done. do 2 f_equal.
      apply bool_decide_ext. unfold fr'. rewrite list_elem_of_filter, elem_of_zseq. split; [|tauto].
      intros Hin. split; [done|]. subst n. nia.
    + intros Hin. rewrite <- (take_drop k (sp_segList p)) in Hnd.
      apply NoDup_app in Hnd as (_ & Hdis & _). apply (Hdis seg); [|done].
      eapply list_elem_of_lookup_2. by rewrite lookup_take_lt.
  - lia.
Qed.

(** ** The whole operation *)

Section Shrink.
  Context {H : Type} `{SegmentHandler H} (sizeofT sizeofX : Z).

(** What [shrink] does: segments at the end go, the objects in use stay. *)
Record shrunk (m : segments) (h : H) (p : utilSegmentPool) (fr : list Z) (n : Z)
    (m' : segments) (h' : H) (p' : utilSegmentPool) (fr' : list Z) (k : nat) : Prop := {
  sh_ok : pool_ok m' p' fr';
  sh_use : forall i, in_use p' fr' i <-> in_use p fr i;
  sh_begin : sp_begin p' = sp_begin p;
  sh_delta : sp_delta p' = sp_delta p;
  sh_poolId : sp_poolId p' = sp_poolId p;
  sh_max : sp_maxNumOfObjs p' = sp_maxNumOfObjs p;
  sh_pHandler : sp_pHandler p' = sp_pHandler p;
  sh_segs : sp_segList p' = take k (sp_segList p);
  sh_n : n = Z.of_nat (length (drop k (sp_segList p)));
  sh_mem : forall b, m' !! b = if decide (b ∈ drop k (sp_segList p)) then None else m !! b;
  sh_h : h' = if (0 <? n) && sp_pHandler p
              then onReleaseSegment h (u64 (u64 (Z.shiftl n (sp_exponent p)) * sizeofX)) else h
}.

Lemma shrunk_refl m h p fr p' :
  pool_ok m p' fr -> sp_begin p' = sp_begin p -> sp_delta p' = sp_delta p ->
  sp_poolId p' = sp_poolId p -> sp_maxNumOfObjs p' = sp_maxNumOfObjs p ->
  sp_pHandler p' = sp_pHandler p -> sp_segList p' = sp_segList p ->
  sp_numOfObjs p' = sp_numOfObjs p ->
  shrunk m h p fr 0 m h p' fr (length (sp_segList p)).
Proof.
  intros ? ? ? ? ? ? ? En. split; try done.
  - intros i. unfold in_use. by rewrite En.
  - by rewrite firstn_all.
  - by rewrite drop_all.
  - intros b. by rewrite drop_all, decide_False by set_solver.
Qed.

(** What [shrink] knows of the free objects below [n]. *)
Definition used_ok (p : utilSegmentPool) (fr : list Z) (n : Z) (used : option utilBitmap) : Prop :=
  match used with
  | Some b => 0 < n /\ bitmap_ok b /\ forall i, 0 <= i < n -> bit_in b i <-> i ∈ fr
  | None => sp_begin p = 0
  end.

Lemma shrink_list_ok m p fr n used :
  pool_ok m p fr -> 0 <= n <= sp_numOfObjs p -> (forall i, in_use p fr i -> i < n) ->
  used_ok p fr n used ->
  exists l, shrink_list (sp_begin p) n used = Some l /\
    match l with
    | Some l => 0 < n /\ Z.of_nat (length l) = n /\
        drop (Z.to_nat (sp_begin p)) l =
          map Some (filter (fun i => i ∈ fr) (zseq 0 (Z.to_nat n)))
    | None => n = 0
    end.
Proof.
  intros Hok Hn Huse Hu. pose proof (free_below Hok n Hn Huse) as Hcnt.
  pose proof (po_begin _ _ _ Hok) as Hb.
  unfold shrink_list. destruct (Z.ltb_spec 0 n) as [Hp|]; [|exists None; split; [done|lia]].
  destruct used as [b|]; cbn in Hu.
  - destruct Hu as (_ & Hbm & Hbits). rewrite (restore_free_spec b fr); try done; try lia.
    + eexists. split; [done|]. cbv iota beta. rewrite !length_app, length_take, length_map, length_drop, length_replicate.
      split; [done|]. split; [lia|].
      rewrite drop_app_length' by (rewrite length_take, length_replicate; lia).
      rewrite drop_ge by (rewrite length_replicate; lia). apply app_nil_r.
    + intros i Hi. apply Hbits. lia.
    + rewrite length_replicate. lia.
  - eexists. split; [done|]. cbv iota beta. split; [done|]. rewrite length_map. unfold zseq at 1.
    rewrite length_seqZ, Hu. split; [lia|]. change (Z.to_nat 0) with 0%nat. rewrite drop_0.
    f_equal. symmetry. apply filter_all. intros i Hi%elem_of_zseq.
    destruct (decide (i ∈ fr)) as [|Hni]; [done|]. exfalso.
    apply (begin_zero Hok i Hu). split; [lia|done].
Qed.

Lemma in_use_below m p fr n p' :
  pool_ok m p fr -> sp_numOfObjs p' = n -> 0 <= n <= sp_numOfObjs p ->
  (forall i, in_use p fr i -> i < n) ->
  forall i, in_use p' (filter (fun i => i ∈ fr) (zseq 0 (Z.to_nat n))) i <-> in_use p fr i.
Proof.
  intros Hok En Hn Huse i. unfold in_use. rewrite En, list_elem_of_filter, elem_of_zseq.
  split.
  - intros [Hi Hni]. split; [lia|]. intros Hx. apply Hni. split; [done|lia].
  - intros [Hi Hni]. split; [|tauto]. specialize (Huse i (conj Hi Hni)). lia.
Qed.

Lemma shrink_to_ok os m h p fr k used :
  pool_ok m p fr -> 0 <= k < Z.of_nat (length (sp_segList p)) ->
  (forall i, in_use p fr i -> i < k * sp_delta p) ->
  used_ok p fr (k * sp_delta p) used ->
  (exists n m' h' p' fr', shrink_to sizeofX os k used (mkState m h p) = Some (SDB_OK, n, mkState m' h' p') /\
    shrunk m h p fr n m' h' p' fr' (Z.to_nat k) /\
    0 < n /\ sp_numOfObjs p' = k * sp_delta p) \/
  (shrink_to sizeofX os k used (mkState m h p) = Some (SDB_OOM, 0, mkState m h p) /\
   os_list os = false).
Proof.
  intros Hok Hk Huse Hused. pose proof (po_delta_pos Hok) as Hd.
  pose proof (po_num _ _ _ Hok) as Hnum. pose proof (po_num_le _ _ _ Hok).
  pose proof (po_exponent _ _ _ Hok). pose proof (po_begin _ _ _ Hok).
  unfold shrink_to. cbn [ps_pool ps_mem ps_handler].
  assert (u32 (Z.shiftl k (sp_exponent p)) = k * sp_delta p) as ->.
  { rewrite shiftl_mul, <- (po_delta _ _ _ Hok) by lia. apply u32_id. nia. }
  assert (0 <= k * sp_delta p < sp_numOfObjs p) as Hn by nia.
  destruct ((0 <? k * sp_delta p) && negb (os_list os)) eqn:Eos.
  { apply andb_true_iff in Eos as [_ ?%negb_true_iff]. by right. }
  left. clear Eos.
  destruct (shrink_list_ok m p fr (k * sp_delta p) used Hok ltac:(lia) Huse Hused) as (l & -> & Hl).
  destruct (delete_segments_spec (rev (drop (Z.to_nat k) (sp_segList p))) m) as (m' & Em & Hm').
  { rewrite <- (Permutation_rev (drop _ _)).
    pose proof (po_segs_nodup _ _ _ Hok) as Hnd.
    rewrite <- (take_drop (Z.to_nat k) (sp_segList p)) in Hnd. apply NoDup_app in Hnd. tauto. }
  { intros b Hb. rewrite <- (Permutation_rev (drop _ _)) in Hb.
    apply list_elem_of_lookup in Hb as [q Hq]. rewrite lookup_drop in Hq.
    destruct (po_segs _ _ _ Hok _ _ Hq) as (? & objs & ? & _). split; [done|by exists objs]. }
  cbn [mbind option_bind]. rewrite Em. cbn [mbind option_bind].
  assert (forall b, m' !! b = if decide (b ∈ drop (Z.to_nat k) (sp_segList p)) then None else m !! b)
    as Hm2.
  { intros b. rewrite Hm'. apply decide_ext. by rewrite <- (Permutation_rev (drop _ _)). }
  assert (Hlen : (0 < length (drop (Z.to_nat k) (sp_segList p)))%nat) by (rewrite length_drop; lia).
  eexists _, _, _, _, _. split; [done|]. split; [|split; [lia|done]]. split; try done.
  - pose proof (shrunk_ok m p fr (Z.to_nat k) l m' Hok) as Hs. cbv zeta in Hs.
    rewrite Z2Nat.id in Hs by lia. apply Hs; [lia|done| |].
    + destruct l as [l|]; [split; [nia|]; tauto|nia].
    + intros b Hb. by rewrite Hm2, decide_False.
  - by eapply in_use_below; [| |lia|].
  - cbn [sp_exponent]. destruct (Z.ltb_spec 0 (Z.of_nat (length (drop (Z.to_nat k) (sp_segList p))))); [|lia].
    done.
Qed.

(** The bitmap holds the free objects, and the search finds the highest one in
    use; without memory for the bits it stops at the last object. *)
Lemma find_in_use_ok os m p fr :
  pool_ok m p fr -> 0 < sp_begin p -> os_bitmap os = true ->
  exists b x, find_in_use os p = Some (Some (Some b, x)) /\ bitmap_ok b /\
    0 <= x < sp_numOfObjs p /\ (forall i, in_use p fr i -> i <= x) /\
    (x = sp_numOfObjs p - 1 \/ forall i, 0 <= i < sp_numOfObjs p -> bit_in b i <-> i ∈ fr).
Proof.
  intros Hok Hb Hos. pose proof (po_num_le _ _ _ Hok). pose proof (po_count _ _ _ Hok).
  unfold find_in_use. destruct (Z.ltb_spec 0 (sp_begin p)); [|lia]. rewrite Hos.
  pose proof (po_list _ _ _ Hok) as Hl. destruct (sp_list p) as [l|].
  2:{ pose proof (po_num _ _ _ Hok) as E. rewrite Hl in E. simpl in E. lia. }
  destruct Hl as (_ & Hlen & Hd). cbn [mbind option_bind].
  destruct (bitmap_new_spec (os_bits os) (sp_numOfObjs p)) as (b0 & -> & Hb0 & Hz & Hs); [lia|].
  cbn [mbind option_bind]. rewrite take_ge, Hd by lia.
  destruct (mark_free_spec fr b0 Hb0) as (b & -> & Hbm & Es & Hbits).
  { eapply Forall_impl; [apply (po_range _ _ _ Hok)|]. cbv beta. lia. }
  cbn [mbind option_bind].
  assert (Hbit : forall i, 0 <= i -> bit_in b i <-> i ∈ fr /\ i < bp_size b0).
  { intros i Hi. rewrite (Hbits i Hi). unfold bit_in at 1. rewrite Hz.
    split; [intros [[_ ?]|?]; done|tauto]. }
  destruct (begin_in_use Hok Hb) as (u & Hu1 & Hu2).
  destruct (find_max_spec b (Z.to_nat (sp_numOfObjs p))) as (x & -> & Hx & Hnx & Hmax); [done| |].
  { exists u. split; [lia|]. rewrite Hbit by lia. tauto. }
  exists b, x. cbn [mbind option_bind]. split; [done|]. split; [done|]. split; [lia|]. split.
  - intros i [Hi Hni]. destruct (decide (i <= x)); [done|]. exfalso.
    specialize (Hmax i ltac:(lia)). apply Hbit in Hmax; [tauto|lia].
  - destruct (os_bits os); cbn [andb] in Hs.
    + right. intros i Hi. rewrite Hbit by lia. rewrite Hs.
      destruct (Z.leb_spec (sp_numOfObjs p) 4294967288); [|lia]. intuition lia.
    + left. destruct (decide (x = sp_numOfObjs p - 1)); [done|]. exfalso.
      specialize (Hmax (x + 1) ltac:(lia)). apply Hbit in Hmax; lia.
Qed.

Lemma pool_ok_hwm m p fr x : pool_ok m p fr -> pool_ok m (set_sp_hwm p x) fr.
Proof. intros []. by split. Qed.

(** After [shrink] with segments to keep there is still a spare object. *)
Definition spare (p p' : utilSegmentPool) : Prop :=
  sp_begin p < sp_numOfObjs p -> sp_begin p' < sp_numOfObjs p'.

(** The outcome of [shrink]. *)
Definition shrink_post (os : pool_os) (keep : Z) (m : segments) (h : H) (p : utilSegmentPool)
    (fr : list Z) (r : option (Z * Z * pool_state H)) : Prop :=
  exists rc n m' h' p' fr' k, r = Some (rc, n, mkState m' h' p') /\
    shrunk m h p fr n m' h' p' fr' k /\
    (rc = SDB_OK \/ (rc = SDB_OOM /\ n = 0 /\ (os_bitmap os = false \/ os_list os = false))) /\
    (1 <= keep -> spare p p').

Lemma shrink_post_same os keep m h p fr rc :
  pool_ok m p fr ->
  rc = SDB_OK \/ (rc = SDB_OOM /\ (os_bitmap os = false \/ os_list os = false)) ->
  shrink_post os keep m h p fr (Some (rc, 0, mkState m h p)).
Proof.
  intros Hok Hrc. eexists _, _, _, _, _, fr, _. split; [done|].
  split; [by apply shrunk_refl|]. split; [tauto|]. by intros _ ?.
Qed.

Lemma shrink_post_hwm os keep m h p fr x r :
  shrink_post os keep m h (set_sp_hwm p x) fr r -> shrink_post os keep m h p fr r.
Proof.
  intros (rc & n & m' & h' & p' & fr' & k & -> & [] & Hrc & Hsp).
  eexists _, _, _, _, _, _, _. split; [done|]. by split.
Qed.

(** Once the highest object in use is known. *)
Lemma shrink_post_to os keep m h p fr segs used :
  pool_ok m p fr -> 0 <= segs ->
  (segs < Z.of_nat (length (sp_segList p)) ->
   (forall i, in_use p fr i -> i < segs * sp_delta p) /\
   used_ok p fr (segs * sp_delta p) used /\
   (1 <= keep -> sp_begin p < segs * sp_delta p)) ->
  shrink_post os keep m h p fr
    (if segs <? Z.of_nat (length (sp_segList p)) then shrink_to sizeofX os segs used (mkState m h p)
     else Some (SDB_OK, 0, mkState m h p)).
Proof.
  intros Hok Hs Hu. destruct (Z.ltb_spec segs (Z.of_nat (length (sp_segList p)))) as [Hlt|];
    [|apply shrink_post_same; auto].
  destruct (Hu Hlt) as (Huse & Hused & Hkeep).
  destruct (shrink_to_ok os m h p fr segs used Hok ltac:(lia) Huse Hused) as
    [(n & m' & h' & p' & fr' & -> & Hsh & Hn & En)|[-> Hl]].
  - eexists _, _, _, _, _, _, _. split; [done|]. split; [done|]. split; [by left|].
    intros Hk _. rewrite En, (sh_begin _ _ _ _ _ _ _ _ _ _ Hsh). auto.
  - apply shrink_post_same; auto.
Qed.

Lemma shrink_found os keep m h p fr b x :
  pool_ok m p fr -> 0 <= keep < 2147483648 -> 0 < sp_begin p -> bitmap_ok b ->
  0 <= x < sp_numOfObjs p -> (forall i, in_use p fr i -> i <= x) ->
  (x = sp_numOfObjs p - 1 \/ forall i, 0 <= i < sp_numOfObjs p -> bit_in b i <-> i ∈ fr) ->
  shrink_post os keep m h p fr
    (let segInUse := if 0 <? sp_begin p
                     then u32 (Z.shiftr x (sp_exponent p) + 1 + keep) else keep in
     if segInUse <? Z.of_nat (length (sp_segList p))
     then shrink_to sizeofX os segInUse (Some b) (mkState m h p)
     else Some (SDB_OK, 0, mkState m h p)).
Proof.
  intros Hok Hk Hb Hbm Hx Hmax Hbits. pose proof (po_delta_pos Hok) as Hd.
  pose proof (po_num _ _ _ Hok) as Hnum. pose proof (po_num_le _ _ _ Hok).
  pose proof (po_exponent _ _ _ Hok). cbv zeta.
  assert (0 <= x / sp_delta p) by (apply Z.div_pos; lia).
  assert (x / sp_delta p <= x) by (apply Z.div_le_upper_bound; nia).
  pose proof (Z.div_mod x (sp_delta p) ltac:(lia)) as Hdm.
  pose proof (Z.mod_pos_bound x (sp_delta p) ltac:(lia)) as Hmb.
  destruct (Z.ltb_spec 0 (sp_begin p)); [|lia].
  rewrite shiftr_div, <- (po_delta _ _ _ Hok), u32_id by lia.
  apply shrink_post_to; [done|lia|]. intros Hlt.
  assert (x + 1 <= (x / sp_delta p + 1) * sp_delta p) by lia. split; [|split].
  - intros i Hi%Hmax. nia.
  - split; [nia|]. split; [done|]. destruct Hbits as [->|Hbits]; [exfalso|].
    + rewrite Hnum in Hdm. nia.
    + intros i Hi. apply Hbits. nia.
  - intros Hk1. pose proof (free_below Hok (x + 1) ltac:(lia)) as Hf.
    specialize (Hf ltac:(intros i Hi; specialize (Hmax i Hi); lia)). nia.
Qed.

Lemma pool_shrink_post os keep m (h : H) p fr :
  pool_ok m p fr -> 0 <= keep < 2147483648 ->
  shrink_post os keep m h p fr (pool_shrink sizeofT sizeofX os keep (mkState m h p)).
Proof.
  intros Hok Hk. pose proof (po_delta_pos Hok) as Hd. pose proof (po_begin _ _ _ Hok) as Hbeg.
  unfold pool_shrink. cbn [ps_pool ps_mem ps_handler].
  rewrite (po_init _ _ _ Hok). destruct (sp_list p) as [l|] eqn:El;
    [|apply shrink_post_same; auto].
  destruct ((0 <? sp_numOfObjs p) && shrink_wanted sizeofT sizeofX (mkState m h p));
    [|apply shrink_post_same; auto].
  destruct (Z.ltb_spec 0 (sp_begin p)) as [Hb|Hb].
  - destruct (os_bitmap os) eqn:Eos.
    2:{ unfold find_in_use. destruct (Z.ltb_spec 0 (sp_begin p)); [|lia]. rewrite Eos.
        apply shrink_post_same; auto. }
    destruct (find_in_use_ok os m p fr Hok Hb Eos) as (b & x & -> & Hbm & Hx & Hmax & Hbits).
    cbn [mbind option_bind]. destruct (u32 (Z.shiftl (sp_delta p) 1) <=? x).
    + apply (shrink_post_hwm os keep m h p fr x).
      apply shrink_found; try done. by apply pool_ok_hwm.
    + by apply shrink_found.
  - unfold find_in_use. destruct (Z.ltb_spec 0 (sp_begin p)); [lia|]. cbn [mbind option_bind].
    assert (u32 (Z.shiftl (sp_delta p) 1) <=? 0 = false) as ->.
    { rewrite shiftl_mul, u32_id by lia. apply Z.leb_gt. lia. }
    destruct (Z.ltb_spec 0 (sp_begin p)); [lia|].
    apply shrink_post_to; [done|lia|]. intros _. split; [|split; [cbn; lia|nia]].
    intros i Hi. apply (begin_zero Hok) in Hi; [done|lia].
Qed.

End Shrink.
