(* ===== verification/UtilSegmentMgr.v ===== *)
(** * The pools of one kind of object: [_utilSegmentManager]
    (src/src/include/utilSegment.hpp)

    Up to sixteen pools share the load: [acquire] goes round, and an object's
    index and header say which pool it is from.  The flag by which [acquire]
    avoids a pool that is being shrunk is read without the latch; how often
    it is seen set before each attempt is part of what the step is given. *)
From S2P Require Import Prelude.
From S2P Require Import OssBase.
From S2P Require Import UtilBitmap.
From S2P Require Import UtilSegment.
From S2P Require Import UtilSegmentOk.
From S2P Require Import UtilSegmentShrink.

Record utilSegmentManager := mkMgr {
  sm_round : Z;
  sm_poolNum : Z;
  sm_pool : list utilSegmentPool
}.

Definition segmentManager_new : utilSegmentManager :=
  mkMgr 0 0 (replicate 16 segmentPool_new).

Definition set_pool (g : utilSegmentManager) (i : Z) (p : utilSegmentPool) : utilSegmentManager :=
  mkMgr (sm_round g) (sm_poolNum g) (<[Z.to_nat i := p]> (sm_pool g)).

Definition set_round (g : utilSegmentManager) (x : Z) : utilSegmentManager :=
  mkMgr x (sm_poolNum g) (sm_pool g).

Fixpoint mgr_init_loop (n : nat) (i numberOfObjs maxObjs : Z) (pHandler : bool)
    (g : utilSegmentManager) : option (Z * utilSegmentManager) :=
  match n with
  | O => Some (SDB_OK, g)
  | S n =>
      p ← sm_pool g !! Z.to_nat i;
      let '(rc, p) := pool_init i numberOfObjs maxObjs pHandler p in
      let g := set_pool g i p in
      if negb (rc =? SDB_OK) then Some (rc, g)
      else mgr_init_loop n (i + 1) numberOfObjs maxObjs pHandler g
  end.

Definition smgr_init (numberOfObjs maxNumberOfObjs poolNum : Z) (pHandler : bool)
    (g : utilSegmentManager) : option (Z * utilSegmentManager) :=
  let poolNum := Z.min (u32 (ossNextPowerOf2 poolNum).1) SEGMENT_MGR_MAX_POOLS in
  let poolMaxObjs := Z.min (maxNumberOfObjs / poolNum) SEGMENT_OBJ_MAX_NUM in
  mgr_init_loop (Z.to_nat poolNum) 0 (u32 (numberOfObjs / poolNum)) (u32 poolMaxObjs) pHandler
    (mkMgr (sm_round g) poolNum (sm_pool g)).

(** [setMaxObjects] and [getNumOfObjAllocated] go over the pools in use. *)
Definition smgr_setMaxObjects (maxNumberOfObjs : Z) (g : utilSegmentManager) : utilSegmentManager :=
  let poolMaxObjs := Z.min (maxNumberOfObjs / sm_poolNum g) SEGMENT_OBJ_MAX_NUM in
  let n := Z.to_nat (sm_poolNum g) in
  mkMgr (sm_round g) (sm_poolNum g)
    (map (fun p => pool_setMaxObjects p (u32 poolMaxObjs)) (take n (sm_pool g))
       ++ drop n (sm_pool g)).

Fixpoint sum_objs (l : list utilSegmentPool) (objs : Z) : Z :=
  match l with
  | [] => objs
  | p :: l => sum_objs l (u32 (objs + sp_numOfObjs p))
  end.

Definition smgr_getNumOfObjAllocated (g : utilSegmentManager) : Z :=
  sum_objs (take (Z.to_nat (sm_poolNum g)) (sm_pool g)) 0.

Definition smgr_getObjPtrByIndex (g : utilSegmentManager) (idx : Z) : option (option objptr) :=
  if negb (IS_VALID_SEG_OBJ_INDEX idx) then Some None
  else p ← sm_pool g !! Z.to_nat (GET_UNPACKED_POOLID idx); getObjPtrByIndex p idx.

(** [_getPoolIdByAddr] of a pointer that is not null. *)
Definition getPoolIdByAddr (m : segments) (pT : objptr) : option Z :=
  o ← load m pT;
  Some (if ox_eyeCatcher o =? SEGMENT_OBJ_EYE_CATCHER
        then GET_UNPACKED_POOLID (ox_index o) else UTIL_INVALID_OBJ_INDEX).

Definition smgr_getIndexByAddr (m : segments) (g : utilSegmentManager) (pT : objptr) : option Z :=
  pool ← getPoolIdByAddr m pT;
  if negb (UTIL_INVALID_OBJ_INDEX =? pool)
  then p ← sm_pool g !! Z.to_nat pool; getIndexByAddr m p pT
  else Some UTIL_INVALID_OBJ_INDEX.

Definition isLowerThanHWM (m : segments) (g : utilSegmentManager) (pT : objptr) : option bool :=
  pool ← getPoolIdByAddr m pT;
  p ← sm_pool g !! Z.to_nat pool;
  idx ← getIndexByAddr m p pT;
  Some (Z.land idx SEGMENT_OBJ_INDEX_MASK <? Z.land (sp_highWatermark p) SEGMENT_OBJ_INDEX_MASK).

Section Mgr.
  Context {H : Type} `{SegmentHandler H} (sizeofT sizeofX : Z).

Record mgr_state := mkMgrState {
  ms_mem : segments;
  ms_handler : H;
  ms_mgr : utilSegmentManager
}.

(** A step of pool [i]. *)
Definition put_pool (i : Z) (s : pool_state H) (g : utilSegmentManager) : mgr_state :=
  mkMgrState (ps_mem s) (ps_handler s) (set_pool g i (ps_pool s)).

Definition get_pool (i : Z) (s : mgr_state) : option (pool_state H) :=
  p ← sm_pool (ms_mgr s) !! Z.to_nat i;
  Some (mkState (ms_mem s) (ms_handler s) p).

(** One attempt: [skips] pools were seen shrinking. *)
Definition acquire_attempt (skips : Z) (os : pool_os) (s : mgr_state)
    : option (Z * option (Z * option objptr) * mgr_state) :=
  let g := ms_mgr s in
  let pool := Z.land (u32 (sm_round g + skips)) (u32 (sm_poolNum g - 1)) in
  let g := set_round g (u32 (sm_round g + skips + 1)) in
  ps ← get_pool pool s;
  '(rc, out, ps) ← pool_acquire sizeofX os ps;
  Some (rc, out, put_pool pool ps g).

(** The loop of [acquire]: [n] more attempts are allowed after this one, [k]
    were made. *)
Fixpoint acquire_loop (os : nat -> Z * pool_os) (n k : nat) (s : mgr_state)
    : option (Z * option (Z * option objptr) * mgr_state) :=
  '(rc, out, s) ← acquire_attempt (os k).1 (os k).2 s;
  match n with
  | S n => if rc =? SDB_OSS_UP_TO_LIMIT then acquire_loop os n (S k) s else Some (rc, out, s)
  | O => Some (rc, out, s)
  end.

Definition smgr_acquire (os : nat -> Z * pool_os) (s : mgr_state)
    : option (Z * option (Z * option objptr) * mgr_state) :=
  acquire_loop os (Z.to_nat (sm_poolNum (ms_mgr s))) 0 s.

Definition smgr_release (idx : Z) (s : mgr_state) : option (Z * mgr_state) :=
  ps ← get_pool (GET_UNPACKED_POOLID idx) s;
  '(rc, ps) ← pool_release idx ps;
  Some (rc, put_pool (GET_UNPACKED_POOLID idx) ps (ms_mgr s)).

Definition smgr_release_addr (pT : option objptr) (s : mgr_state) : option (Z * mgr_state) :=
  pool ← match pT with
         | Some pT => getPoolIdByAddr (ms_mem s) pT
         | None => Some UTIL_INVALID_OBJ_INDEX
         end;
  if negb (UTIL_INVALID_OBJ_INDEX =? pool)
  then
    ps ← get_pool pool s;
    '(rc, ps) ← pool_release_addr pT ps;
    Some (rc, put_pool pool ps (ms_mgr s))
  else Some (SDB_INVALIDARG, s).

(** [shrink] over the pools from [i] on, [n] of them: the code and the number
    of segments that were deleted. *)
Fixpoint shrink_loop (os : Z -> pool_os) (keep : Z) (n : nat) (i freed : Z) (s : mgr_state)
    : option (Z * Z * mgr_state) :=
  match n with
  | O => Some (SDB_OK, freed, s)
  | S n =>
      ps ← get_pool i s;
      '(rc, f, ps) ← pool_shrink sizeofT sizeofX (os i) keep ps;
      let s := put_pool i ps (ms_mgr s) in
      if negb (rc =? SDB_OK) then Some (rc, u32 (freed + f), s)
      else shrink_loop os keep n (i + 1) (u32 (freed + f)) s
  end.

Definition smgr_shrink (os : Z -> pool_os) (freeSegToKeep : Z) (s : mgr_state)
    : option (Z * Z * mgr_state) :=
  shrink_loop os freeSegToKeep (Z.to_nat (sm_poolNum (ms_mgr s))) 0 0 s.

Fixpoint fini_loop (n : nat) (i : Z) (s : mgr_state) : option mgr_state :=
  match n with
  | O => Some s
  | S n =>
      ps ← get_pool i s;
      ps ← pool_fini sizeofX ps;
      fini_loop n (i + 1) (put_pool i ps (ms_mgr s))
  end.

Definition smgr_fini (s : mgr_state) : option mgr_state :=
  fini_loop (Z.to_nat (sm_poolNum (ms_mgr s))) 0 s.

End Mgr.

#[global] Arguments mkMgrState {H}.
#[global] Arguments ms_mem {H}.
#[global] Arguments ms_handler {H}.
#[global] Arguments ms_mgr {H}.
#[global] Arguments mgr_state : clear implicits.
