(* ===== verification/UtilSegmentMgrOk.v ===== *)
(** * The invariant of the pools of a manager, and what its operations do

    [mgr_ok m g frs]: every pool in use is well formed ([pool_ok], with its
    list of free objects in [frs]) and no two pools share a segment.  The
    objects a manager has handed out are [held]. *)
From S2P Require Import Prelude.
From S2P Require Import OssBase.
From S2P Require Import UtilBitmap.
From S2P Require Import UtilSegment.
From S2P Require Import UtilSegmentOk.
From S2P Require Import UtilSegmentShrink.
From S2P Require Import UtilSegmentMgr.

Record mgr_ok (m : segments) (g : utilSegmentManager) (frs : list (list Z)) : Prop := {
  mo_num : exists e, 0 <= e <= 4 /\ sm_poolNum g = 2 ^ e;
  mo_len : length (sm_pool g) = 16%nat;
  mo_frs : length frs = Z.to_nat (sm_poolNum g);
  mo_round : 0 <= sm_round g < 4294967296;
  mo_pool : forall i p fr, sm_pool g !! i = Some p -> frs !! i = Some fr ->
              sp_poolId p = Z.of_nat i /\ 2 <= sp_delta p /\ pool_ok m p fr;
  mo_rest : forall i p, sm_pool g !! i = Some p -> frs !! i = None -> p = segmentPool_new;
  mo_disjoint : forall i j p q b, sm_pool g !! i = Some p -> sm_pool g !! j = Some q ->
              b ∈ sp_segList p -> b ∈ sp_segList q -> i = j
}.

(** The objects handed out, by index, with their addresses. *)
Definition held (g : utilSegmentManager) (frs : list (list Z)) (idx : Z) (a : objptr) : Prop :=
  exists i p fr j, sm_pool g !! i = Some p /\ frs !! i = Some fr /\
    in_use p fr j /\ idx = idx_of (Z.of_nat i) j /\ obj_addr p j = Some a.

(** A step of one pool as the others see it. *)
Record pool_step (m : segments) (p : utilSegmentPool) (m' : segments)
    (p' : utilSegmentPool) (fr' : list Z) : Prop := {
  st_ok : pool_ok m' p' fr';
  st_id : sp_poolId p' = sp_poolId p;
  st_delta : sp_delta p' = sp_delta p;
  st_frame : forall b, b ∉ sp_segList p -> b ∉ sp_segList p' -> m' !! b = m !! b;
  st_new : forall b, b ∈ sp_segList p' -> b ∈ sp_segList p \/ m !! b = None
}.

Lemma pool_ok_frame m m' p fr :
  pool_ok m p fr -> (forall b, b ∈ sp_segList p -> m' !! b = m !! b) -> pool_ok m' p fr.
Proof.
  intros Hok Hm. pose proof (po_segs _ _ _ Hok) as Hs. destruct Hok. split; try done.
  intros k seg Hk. destruct (Hs k seg Hk) as (? & objs & ? & ?). split; [done|].
  exists objs. split; [|done]. rewrite Hm; [done|]. by eapply list_elem_of_lookup_2.
Qed.

Section Ok.
  Context {m : segments} {g : utilSegmentManager} {frs : list (list Z)}.
  Context (Hok : mgr_ok m g frs).

Lemma poolNum_range : 1 <= sm_poolNum g <= 16.
Proof using Hok.
  destruct (mo_num _ _ _ Hok) as (e & He & ->). split; [lia|].
  change 16 with (2 ^ 4). apply Z.pow_le_mono_r; lia.
Qed.

Lemma mgr_pool_at i :
  (i < Z.to_nat (sm_poolNum g))%nat ->
  exists p fr, sm_pool g !! i = Some p /\ frs !! i = Some fr /\
    sp_poolId p = Z.of_nat i /\ 2 <= sp_delta p /\ pool_ok m p fr.
Proof using Hok.
  intros Hi. pose proof poolNum_range.
  destruct (lookup_lt_is_Some_2 (sm_pool g) i) as [p Hp]; [rewrite (mo_len _ _ _ Hok); lia|].
  destruct (lookup_lt_is_Some_2 frs i) as [fr Hfr]; [rewrite (mo_frs _ _ _ Hok); lia|].
  exists p, fr. split; [done|]. split; [done|]. by apply (mo_pool _ _ _ Hok).
Qed.

(** The segments of the pools in use are live, and no pool but those has any. *)
Lemma seg_live i p b :
  sm_pool g !! i = Some p -> b ∈ sp_segList p -> is_Some (m !! b).
Proof using Hok.
  intros Hp Hb. destruct (frs !! i) as [fr|] eqn:Hfr.
  - destruct (mo_pool _ _ _ Hok i p fr Hp Hfr) as (_ & _ & Hpo).
    apply list_elem_of_lookup in Hb as [k Hk].
    destruct (po_segs _ _ _ Hpo k b Hk) as (_ & objs & -> & _). done.
  - rewrite (mo_rest _ _ _ Hok i p Hp Hfr) in Hb. set_solver.
Qed.

(** A step of one pool is a step of the manager. *)
Lemma mgr_step i p fr m' p' fr' r :
  sm_pool g !! i = Some p -> frs !! i = Some fr -> 0 <= r < 4294967296 ->
  pool_step m p m' p' fr' ->
  mgr_ok m' (set_pool (set_round g r) (Z.of_nat i) p') (<[i := fr']> frs).
Proof using Hok.
  intros Hp Hfr Hr [Hpo Hid Hdl Hframe Hnew].
  assert (Hi : (i < length (sm_pool g))%nat) by (by eapply lookup_lt_Some).
  assert (Hi2 : (i < length frs)%nat) by (by eapply lookup_lt_Some).
  assert (Hother : forall j q b, j <> i -> sm_pool g !! j = Some q -> b ∈ sp_segList q ->
    b ∉ sp_segList p /\ b ∉ sp_segList p').
  { intros j q b Hj Hq Hb.
    assert (b ∉ sp_segList p) by (intros Hb'; apply Hj; by eapply (mo_disjoint _ _ _ Hok)).
    split; [done|]. intros [?|E]%Hnew; [done|].
    destruct (seg_live j q b Hq Hb) as [? E2]. congruence. }
  destruct (mo_pool _ _ _ Hok i p fr Hp Hfr) as (Hid0 & Hd & _).
  split; cbn [set_pool set_round sm_pool sm_poolNum sm_round]; rewrite ?Nat2Z.id.
  - apply (mo_num _ _ _ Hok).
  - rewrite length_insert. apply (mo_len _ _ _ Hok).
  - rewrite length_insert. apply (mo_frs _ _ _ Hok).
  - done.
  - intros j q fq Hq Hf. destruct (decide (j = i)) as [->|Hj].
    + rewrite list_lookup_insert_eq in Hq by done. rewrite list_lookup_insert_eq in Hf by done. simplify_eq. split_and!; [congruence|lia|done].
    + rewrite list_lookup_insert_ne in Hq by done. rewrite list_lookup_insert_ne in Hf by done.
      destruct (mo_pool _ _ _ Hok j q fq Hq Hf) as (? & ? & ?). split_and!; try done.
      eapply pool_ok_frame; [done|]. intros b Hb. destruct (Hother j q b Hj Hq Hb). auto.
  - intros j q Hq Hf. destruct (decide (j = i)) as [->|Hj].
    + rewrite list_lookup_insert_eq in Hf by done. done.
    + rewrite list_lookup_insert_ne in Hq by done. rewrite list_lookup_insert_ne in Hf by done. by eapply (mo_rest _ _ _ Hok).
  - intros j k q q' b Hq Hq' Hb Hb'.
    destruct (decide (j = i)) as [->|Hj], (decide (k = i)) as [->|Hk]; try done.
    + rewrite list_lookup_insert_eq in Hq by done. rewrite list_lookup_insert_ne in Hq' by done.
      simplify_eq. by destruct (Hother k q' b Hk Hq' Hb').
    + rewrite list_lookup_insert_ne in Hq by done. rewrite list_lookup_insert_eq in Hq' by done.
      simplify_eq. by destruct (Hother j q b Hj Hq Hb).
    + rewrite list_lookup_insert_ne in Hq by done. rewrite list_lookup_insert_ne in Hq' by done. by eapply (mo_disjoint _ _ _ Hok).
Qed.

(** What a step of one pool does to the objects handed out. *)
Lemma held_step i p fr p' fr' r idx a :
  sm_pool g !! i = Some p -> frs !! i = Some fr ->
  held (set_pool (set_round g r) (Z.of_nat i) p') (<[i := fr']> frs) idx a <->
  (exists j, in_use p' fr' j /\ idx = idx_of (Z.of_nat i) j /\ obj_addr p' j = Some a) \/
  (held g frs idx a /\ ~ (exists j, 0 <= j < 268435456 /\ idx = idx_of (Z.of_nat i) j)).
Proof using Hok.
  intros Hp Hfr.
  assert (Hi : (i < length (sm_pool g))%nat) by (by eapply lookup_lt_Some).
  assert (Hi2 : (i < length frs)%nat) by (by eapply lookup_lt_Some).
  unfold held. cbn [set_pool set_round sm_pool]. rewrite Nat2Z.id. split.
  - intros (k & q & fq & j & Hq & Hf & Hu & -> & Ha). destruct (decide (k = i)) as [->|Hk].
    + rewrite list_lookup_insert_eq in Hq by done. rewrite list_lookup_insert_eq in Hf by done. simplify_eq. left. by exists j.
    + rewrite list_lookup_insert_ne in Hq by done. rewrite list_lookup_insert_ne in Hf by done. right. split; [by exists k, q, fq, j|].
      intros (j' & Hj' & E). destruct (mo_pool _ _ _ Hok k q fq Hq Hf) as (_ & _ & Hpo).
      destruct Hu as [? _]. pose proof (po_num_le _ _ _ Hpo).
      apply idx_of_inj in E as [? _]; lia.
  - intros [(j & Hu & -> & Ha)|[(k & q & fq & j & Hq & Hf & Hu & -> & Ha) Hne]].
    + exists i, p', fr', j. rewrite !list_lookup_insert_eq by done. done.
    + destruct (decide (k = i)) as [->|Hk].
      * destruct Hne. exists j. split; [|done].
        destruct (mo_pool _ _ _ Hok i q fq Hq Hf) as (_ & _ & Hpo).
        destruct Hu as [? _]. pose proof (po_num_le _ _ _ Hpo). lia.
      * exists k, q, fq, j. by rewrite !list_lookup_insert_ne by done.
Qed.

End Ok.

(** Addresses do not change when segments are added at the end. *)
Lemma obj_addr_prefix p p' j a :
  sp_segList p `prefix_of` sp_segList p' -> sp_delta p' = sp_delta p ->
  obj_addr p j = Some a -> obj_addr p' j = Some a.
Proof.
  intros Hpre Hd. unfold obj_addr. rewrite Hd.
  destruct (sp_segList p !! Z.to_nat (j / sp_delta p)) as [seg|] eqn:E; [|done].
  by rewrite (prefix_lookup_Some _ _ _ _ E Hpre).
Qed.

(** An address belongs to one object. *)
Lemma obj_addr_inj m p fr i j a :
  pool_ok m p fr -> 0 <= i < sp_numOfObjs p -> 0 <= j < sp_numOfObjs p ->
  obj_addr p i = Some a -> obj_addr p j = Some a -> i = j.
Proof.
  intros Hok Hi Hj Ha Hb.
  destruct (obj_addr_ok Hok i Hi) as (s1 & E1 & H1 & _).
  destruct (obj_addr_ok Hok j Hj) as (s2 & E2 & H2 & _).
  destruct (obj_split Hok i Hi) as (? & ? & Hsi). destruct (obj_split Hok j Hj) as (? & ? & Hsj).
  assert (s1 = s2 /\ i mod sp_delta p = j mod sp_delta p) as [<- Hmod] by (simplify_eq; split; congruence).
  pose proof (NoDup_lookup _ _ _ _ (po_segs_nodup _ _ _ Hok) H1 H2) as Hq.
  rewrite Hsi, Hsj, Hmod. f_equal. f_equal. lia.
Qed.

Lemma held_addr_inj m g frs idx idx' a :
  mgr_ok m g frs -> held g frs idx a -> held g frs idx' a -> idx = idx'.
Proof.
  intros Hok (i & p & fr & j & Hp & Hf & Hu & -> & Ha) (i' & p' & fr' & j' & Hp' & Hf' & Hu' & -> & Ha').
  destruct (mo_pool _ _ _ Hok i p fr Hp Hf) as (_ & _ & Hpo).
  destruct (mo_pool _ _ _ Hok i' p' fr' Hp' Hf') as (_ & _ & Hpo').
  destruct Hu as [Hu _]. destruct Hu' as [Hu' _].
  assert (i = i') as <-.
  { destruct (obj_addr_ok Hpo j Hu) as (s1 & E1 & H1 & _).
    destruct (obj_addr_ok Hpo' j' Hu') as (s2 & E2 & H2 & _).
    assert (s1 = s2) as <- by congruence.
    eapply (mo_disjoint _ _ _ Hok); [exact Hp|exact Hp'| |]; by eapply list_elem_of_lookup_2. }
  simplify_eq. f_equal. by eapply obj_addr_inj.
Qed.

(** An object handed out has its header in live memory. *)
Lemma held_load m g frs idx a :
  mgr_ok m g frs -> held g frs idx a ->
  exists i p fr j, sm_pool g !! i = Some p /\ frs !! i = Some fr /\ pool_ok m p fr /\
    sp_poolId p = Z.of_nat i /\ (i < 16)%nat /\ in_use p fr j /\ 2 <= sp_delta p /\
    idx = idx_of (Z.of_nat i) j /\ obj_addr p j = Some a /\
    load m a = Some (obj_of (Z.of_nat i) j false).
Proof.
  intros Hok (i & p & fr & j & Hp & Hf & [Hu1 Hu2] & -> & Ha).
  destruct (mo_pool _ _ _ Hok i p fr Hp Hf) as (Hid & Hd & Hpo).
  destruct (obj_addr_ok Hpo j Hu1) as (seg & E & _ & _ & Hl).
  rewrite Ha in E. injection E as ->. rewrite bool_decide_eq_false_2, Hid in Hl by done.
  pose proof (lookup_lt_Some _ _ _ Hp) as Hlt. rewrite (mo_len _ _ _ Hok) in Hlt.
  exists i, p, fr, j. done.
Qed.

(** The segments of a manager, and what a step of it leaves alone. *)
Definition mgr_segs (g : utilSegmentManager) : list Z := mjoin (map sp_segList (sm_pool g)).

Definition mgr_frame (m : segments) (g : utilSegmentManager) (m' : segments)
    (g' : utilSegmentManager) : Prop :=
  (forall b, b ∉ mgr_segs g -> b ∉ mgr_segs g' -> m' !! b = m !! b) /\
  (forall b, b ∈ mgr_segs g' -> b ∈ mgr_segs g \/ m !! b = None).

Lemma elem_of_mgr_segs g b :
  b ∈ mgr_segs g <-> exists i p, sm_pool g !! i = Some p /\ b ∈ sp_segList p.
Proof.
  unfold mgr_segs. rewrite list_elem_of_join. split.
  - intros (l & Hb & Hl). apply list_elem_of_fmap in Hl as (p & -> & Hp).
    apply list_elem_of_lookup in Hp as [i Hi]. by exists i, p.
  - intros (i & p & Hi & Hb). exists (sp_segList p). split; [done|].
    apply list_elem_of_fmap. exists p. split; [done|]. by eapply list_elem_of_lookup_2.
Qed.

Lemma mgr_frame_step m g i p m' p' fr' rd :
  sm_pool g !! i = Some p -> pool_step m p m' p' fr' ->
  mgr_frame m g m' (set_pool (set_round g rd) (Z.of_nat i) p').
Proof.
  intros Hp Hst. pose proof (lookup_lt_Some _ _ _ Hp) as Hi. split.
  - intros b Hb Hb'. rewrite elem_of_mgr_segs in Hb, Hb'. apply (st_frame _ _ _ _ _ Hst).
    + intros ?. apply Hb. by exists i, p.
    + intros ?. apply Hb'. exists i, p'. split; [|done]. cbn. rewrite Nat2Z.id.
      by apply list_lookup_insert_eq.
  - intros b (k & q & Hq & Hb)%elem_of_mgr_segs. cbn in Hq. rewrite Nat2Z.id in Hq.
    rewrite elem_of_mgr_segs. destruct (decide (k = i)) as [->|Hk].
    + rewrite list_lookup_insert_eq in Hq by done. simplify_eq.
      destruct (st_new _ _ _ _ _ Hst b Hb) as [?|?]; [left; by exists i, p|by right].
    + rewrite list_lookup_insert_ne in Hq by done. left. by exists k, q.
Qed.

Section Acquire.
  Context {H : Type} `{SegmentHandler H} (sizeofT sizeofX : Z).

(** Why [acquire] of a pool finds no object. *)
Definition pool_full (h : H) (p : utilSegmentPool) : Prop :=
  sp_numOfObjs p - 1 <= sp_begin p /\
  (sp_maxNumOfObjs p < sp_numOfObjs p + sp_delta p \/
   (sp_pHandler p = true /\ canAllocSegment h (u64 (sp_delta p * sizeofX)) = false)).

Lemma pool_acquire_step os m (h : H) p fr :
  pool_ok m p fr -> fresh_segment os m ->
  (exists i a m' h' p' fr',
    pool_acquire sizeofX os (mkState m h p) =
      Some (SDB_OK, Some (idx_of (sp_poolId p) i, Some a), mkState m' h' p') /\
    pool_step m p m' p' fr' /\ obj_addr p' i = Some a /\ grown sizeofX m h h' p p' /\
    sp_segList p `prefix_of` sp_segList p' /\ ~ in_use p fr i /\
    sp_pHandler p' = sp_pHandler p /\
    (forall j, in_use p' fr' j <-> in_use p fr j \/ j = i) /\
    (2 <= sp_delta p -> sp_begin p' < sp_numOfObjs p')) \/
  (exists rc, pool_acquire sizeofX os (mkState m h p) = Some (rc, None, mkState m h p) /\
    ((rc = SDB_OOM /\ (os_segment os = None \/ os_list os = false)) \/
     (rc = SDB_OSS_UP_TO_LIMIT /\ pool_full h p))).
Proof.
  intros Hok Hfs. destruct (decide (sp_begin p < sp_numOfObjs p - 1)) as [Hb|Hb].
  - left. destruct (pool_acquire_free sizeofX os m h p fr Hok Hb) as
      (i & a & m' & p' & fr' & -> & E & Hok' & Ha & Hf & (? & ? & ? & ? & Hpre) & Es & En & Hsp).
    pose proof (po_nodup _ _ _ Hok) as [Hni _]%NoDup_cons.
    pose proof (po_range _ _ _ Hok) as [Hi _]%Forall_cons.
    exists i, a, m', h, p', fr'. split; [done|]. split.
    { split; try done.
      - intros b _ Hb'. by apply Hf.
      - rewrite Es. by left. }
    split; [done|]. split; [by left|]. split; [done|]. split; [|split; [done|split; [by apply in_use_acquire|done]]].
    intros [_ Hx]. apply Hx. left.
  - destruct (pool_acquire_grow sizeofX os m h p fr Hok Hfs ltac:(lia)) as
      [(i & a & m' & h' & p' & fr' & E & Hok' & Ha & Hf & (? & ? & ? & ? & Hpre) & Hg & Hni & Hu & Hsp)
      |(rc & E & Hrc)].
    + left. exists i, a, m', h', p', fr'. split; [done|]. split.
      { split; try done; [intros b _ Hb'; by apply Hf|].
        destruct Hg as [[-> _]|(b & -> & Hb' & _)]; [by left|].
        intros c [?|Hc]%elem_of_app; [by left|].
        apply list_elem_of_singleton in Hc as ->. by right. }
      done.
    + right. exists rc. split; [done|]. unfold pool_full. intuition lia.
Qed.

(** One attempt of the manager. *)
Lemma acquire_attempt_ok skips os m (h : H) g frs :
  mgr_ok m g frs -> 0 <= skips -> fresh_segment os m ->
  let i := (sm_round g + skips) mod sm_poolNum g in
  let r := u32 (sm_round g + skips + 1) in
  exists p fr, sm_pool g !! Z.to_nat i = Some p /\ frs !! Z.to_nat i = Some fr /\
  ((exists j a m' h' p' fr',
     acquire_attempt sizeofX skips os (mkMgrState m h g) =
       Some (SDB_OK, Some (idx_of i j, Some a),
             mkMgrState m' h' (set_pool (set_round g r) i p')) /\
     pool_step m p m' p' fr' /\ obj_addr p' j = Some a /\ grown sizeofX m h h' p p' /\
     sp_segList p `prefix_of` sp_segList p' /\ ~ in_use p fr j /\
     sp_pHandler p' = sp_pHandler p /\
     (forall j', in_use p' fr' j' <-> in_use p fr j' \/ j' = j) /\
     (2 <= sp_delta p -> sp_begin p' < sp_numOfObjs p')) \/
   (exists rc, acquire_attempt sizeofX skips os (mkMgrState m h g) =
       Some (rc, None, mkMgrState m h (set_round g r)) /\
     (rc = SDB_OOM \/ (rc = SDB_OSS_UP_TO_LIMIT /\ pool_full h p)))).
Proof.
  intros Hok Hs Hfs i r. pose proof (poolNum_range Hok) as Hn.
  destruct (mo_num _ _ _ Hok) as (e & He & En).
  pose proof (mo_round _ _ _ Hok).
  assert (Hi : 0 <= i < sm_poolNum g) by (apply Z.mod_pos_bound; lia).
  destruct (mgr_pool_at Hok (Z.to_nat i) ltac:(lia)) as (p & fr & Hp & Hf & Hid & Hd & Hpo).
  exists p, fr. split; [done|]. split; [done|].
  assert (Ei : Z.land (u32 (sm_round g + skips)) (u32 (sm_poolNum g - 1)) = i).
  { rewrite (u32_id (sm_poolNum g - 1)) by lia. rewrite En.
    replace (2 ^ e - 1) with (Z.ones e) by (rewrite Z.ones_equiv; lia).
    rewrite Z.land_ones by lia. unfold u32, i. rewrite En.
    change 4294967296 with (2 ^ 32). replace (2 ^ 32) with (2 ^ e * 2 ^ (32 - e))
      by (rewrite <- Z.pow_add_r by lia; f_equal; lia).
    rewrite Z.rem_mul_r by lia. rewrite Z.mul_comm, Z.mod_add by lia.
    apply Z.mod_mod. lia. }
  unfold acquire_attempt, get_pool, put_pool. cbn [ms_mem ms_handler ms_mgr]. rewrite Ei.
  rewrite Hp. cbn [mbind option_bind]. rewrite Z2Nat.id in Hid by lia.
  destruct (pool_acquire_step os m h p fr Hpo Hfs) as
    [(j & a & m' & h' & p' & fr' & -> & Hrest)|(rc & -> & Hrc)]; cbn [mbind option_bind ps_mem ps_handler ps_pool].
  - left. exists j, a, m', h', p', fr'. rewrite Hid. done.
  - right. exists rc. split; [|tauto]. unfold set_pool. cbn [set_round sm_pool sm_round sm_poolNum].
    by rewrite list_insert_id.
Qed.

(** The outcome of [acquire]: an object that was not handed out, or none and
    nothing has changed but the round. *)
Definition acquire_post (m : segments) (h : H) (g : utilSegmentManager) (frs : list (list Z))
    (r : option (Z * option (Z * option objptr) * mgr_state H)) : Prop :=
  (exists idx a m' h' g' frs', r = Some (SDB_OK, Some (idx, Some a), mkMgrState m' h' g') /\
     mgr_ok m' g' frs' /\ idx <> UTIL_INVALID_OBJ_INDEX /\
     (forall a', ~ held g frs idx a') /\
     (forall idx' a', held g' frs' idx' a' <-> held g frs idx' a' \/ (idx' = idx /\ a' = a)) /\
     exists i p p' rd, 0 <= i < sm_poolNum g /\ sm_pool g !! Z.to_nat i = Some p /\
       g' = set_pool (set_round g rd) i p' /\ grown sizeofX m h h' p p' /\
       sp_delta p' = sp_delta p /\ sp_pHandler p' = sp_pHandler p /\
       mgr_frame m g m' g' /\ sp_begin p' < sp_numOfObjs p') \/
  (exists rc rd, r = Some (rc, None, mkMgrState m h (set_round g rd)) /\
     0 <= rd < 4294967296 /\ (rc = SDB_OOM \/ rc = SDB_OSS_UP_TO_LIMIT)).

Lemma mgr_ok_round m g frs rd :
  mgr_ok m g frs -> 0 <= rd < 4294967296 -> mgr_ok m (set_round g rd) frs.
Proof. intros [] ?. by split. Qed.

(** The objects handed out after one more of pool [i] is. *)
Lemma held_acquire m m' g frs i p fr p' fr' rd j a :
  mgr_ok m g frs -> sm_pool g !! i = Some p -> frs !! i = Some fr ->
  pool_step m p m' p' fr' -> sp_segList p `prefix_of` sp_segList p' ->
  obj_addr p' j = Some a -> (forall j', in_use p' fr' j' <-> in_use p fr j' \/ j' = j) ->
  forall idx' a', held (set_pool (set_round g rd) (Z.of_nat i) p') (<[i := fr']> frs) idx' a' <->
    held g frs idx' a' \/ (idx' = idx_of (Z.of_nat i) j /\ a' = a).
Proof.
  intros Hok Hp Hf Hst Hpre Ha Hu idx' a'. rewrite (held_step Hok _ p fr p' fr') by done.
  destruct (mo_pool _ _ _ Hok _ _ _ Hp Hf) as (_ & _ & Hpo).
  pose proof (st_delta _ _ _ _ _ Hst) as Hd'. split.
  - intros [(j' & [Hu'| ->]%Hu & -> & Ha')|[? _]]; [left|right; split; congruence|by left].
    exists i, p, fr, j'. split_and!; try done; try apply Hu'.
    destruct (obj_addr_ok Hpo j' (proj1 Hu')) as (seg & E & _). rewrite E.
    by rewrite (obj_addr_prefix p p' _ _ Hpre Hd' E) in Ha'.
  - intros [(k & q & fq & j' & Hq & Hfq & Hu' & -> & Ha')|[-> ->]].
    + destruct (decide (k = i)) as [->|Hk].
      { simplify_eq. left. exists j'. split; [apply Hu; by left|]. split; [done|].
        by apply (obj_addr_prefix p). }
      right. split; [by exists k, q, fq, j'|]. intros (j'' & Hj'' & E).
      destruct (mo_pool _ _ _ Hok _ _ _ Hq Hfq) as (_ & _ & Hqo).
      pose proof (po_num_le _ _ _ Hqo). destruct Hu' as [Hu' _].
      apply idx_of_inj in E as [E _]; lia.
    + left. exists j. split; [apply Hu; by right|done].
Qed.

Lemma not_held m g frs i p fr j a :
  mgr_ok m g frs -> sm_pool g !! i = Some p -> frs !! i = Some fr ->
  0 <= j < 268435456 -> ~ in_use p fr j -> ~ held g frs (idx_of (Z.of_nat i) j) a.
Proof.
  intros Hok Hp Hf Hj Hni (k & q & fq & j' & Hq & Hfq & Hu & E & _).
  destruct (mo_pool _ _ _ Hok _ _ _ Hq Hfq) as (_ & _ & Hqo).
  pose proof (po_num_le _ _ _ Hqo). pose proof (proj1 Hu).
  apply idx_of_inj in E as [E <-]; [|lia..]. assert (k = i) as -> by lia.
  simplify_eq. by apply Hni.
Qed.

Lemma acquire_attempt_post skips os m (h : H) g frs :
  mgr_ok m g frs -> 0 <= skips -> fresh_segment os m ->
  acquire_post m h g frs (acquire_attempt sizeofX skips os (mkMgrState m h g)).
Proof.
  intros Hok Hs Hfs. pose proof (poolNum_range Hok) as Hn.
  pose proof (Z.mod_pos_bound (sm_round g + skips) (sm_poolNum g) ltac:(lia)) as Hi.
  destruct (acquire_attempt_ok skips os m h g frs Hok Hs Hfs) as
    (p & fr & Hp & Hf & [(j & a & m' & h' & p' & fr' & -> & Hst & Ha & Hg & Hpre & Hni & Hph & Hu & Hsp)
                        |(rc & -> & Hrc)]).
  2:{ right. eexists _, _. split; [done|]. split; [apply u32_range|]. tauto. }
  set (i := (sm_round g + skips) mod sm_poolNum g) in *.
  assert (Ei : Z.of_nat (Z.to_nat i) = i) by lia.
  destruct (mo_pool _ _ _ Hok _ _ _ Hp Hf) as (Hid & Hd & Hpo). rewrite Ei in Hid.
  assert (Hj : in_use p' fr' j) by (apply Hu; by right).
  pose proof (st_ok _ _ _ _ _ Hst) as Hpo'. pose proof (st_delta _ _ _ _ _ Hst) as Hd'.
  pose proof (po_num_le _ _ _ Hpo'). pose proof (proj1 Hj).
  left. eexists _, a, m', h', _, (<[Z.to_nat i := fr']> frs). split; [done|].
  pose proof (mgr_step Hok _ p fr m' p' fr' _ Hp Hf (u32_range (sm_round g + skips + 1)) Hst) as Hok'.
  pose proof (held_acquire m m' g frs _ p fr p' fr' (u32 (sm_round g + skips + 1)) j a
    Hok Hp Hf Hst Hpre Ha Hu) as Hheld.
  pose proof (fun a' => not_held m g frs _ p fr j a' Hok Hp Hf ltac:(lia) Hni) as Hnot.
  rewrite Ei in Hok', Hheld, Hnot. split; [done|].
  split; [|split; [done|split; [done|]]].
  - rewrite <- Hid, <- (st_id _ _ _ _ _ Hst). eapply in_use_valid; [done|done|lia].
  - exists i, p, p', (u32 (sm_round g + skips + 1)). split_and!; try done; try lia.
    rewrite <- Ei. by eapply mgr_frame_step.
Qed.

(** The whole loop. *)
Lemma acquire_loop_post os m (h : H) frs n : forall k g,
  mgr_ok m g frs -> (forall j, 0 <= (os j).1 /\ fresh_segment (os j).2 m) ->
  acquire_post m h g frs (acquire_loop sizeofX os n k (mkMgrState m h g)).
Proof.
  induction n as [|n IH]; intros k g Hok Hos; cbn [acquire_loop];
    destruct (Hos k) as [Hs Hf];
    pose proof (acquire_attempt_post (os k).1 (os k).2 m h g frs Hok Hs Hf) as
      [(idx & a & m' & h' & g' & frs' & -> & Hrest)|(rc & rd & -> & Hrd & Hrc)];
    cbn [mbind option_bind].
  - left. by exists idx, a, m', h', g', frs'.
  - right. by exists rc, rd.
  - left. by exists idx, a, m', h', g', frs'.
  - destruct Hrc as [->| ->]; cbn.
    { right. exists SDB_OOM, rd. auto. }
    pose proof (IH (S k) (set_round g rd) (mgr_ok_round _ _ _ _ Hok Hrd) Hos) as
      [(idx & a & m' & h' & g' & frs' & -> & Hok' & Hv & Hn & Hh & i & p & p' & rd' & Hrest)
      |(rc & rd' & -> & Hrest)].
    + left. exists idx, a, m', h', g', frs'. do 5 (split; [done|]).
      by exists i, p, p', rd'.
    + right. by exists rc, rd'.
Qed.

End Acquire.
