(* ===== verification/UtilSegmentHist.v ===== *)
(** * Object managers hand out each object once

    Release and shrink of a manager, the accounting of segments with the
    handler, and every history of operations: no step is undefined, what is
    handed out is distinct and stays in live memory until it is released.
    A pool that keeps no spare object refuses to take its objects back, which
    [shrink] with no segment to keep brings about. *)
From S2P Require Import Prelude.
From S2P Require Import OssBase.
From S2P Require Import UtilBitmap.
From S2P Require Import UtilSegment.
From S2P Require Import UtilSegmentOk.
From S2P Require Import UtilSegmentShrink.
From S2P Require Import UtilSegmentMgr.
From S2P Require Import UtilSegmentMgrOk.

(** ** Release and shrink of a manager *)

Lemma set_round_id g : set_round g (sm_round g) = g.
Proof. by destruct g. Qed.

(** ** Release *)

Section Release.
  Context {H : Type} `{SegmentHandler H} (sizeofT sizeofX : Z).

Lemma pool_release_step m (h : H) p fr j :
  pool_ok m p fr -> in_use p fr j -> 2 <= sp_delta p ->
  (exists m' p', pool_release (idx_of (sp_poolId p) j) (mkState m h p) =
      Some (SDB_OK, mkState m' h p') /\ pool_step m p m' p' (j :: fr) /\
    sp_segList p' = sp_segList p /\ sp_numOfObjs p' = sp_numOfObjs p /\
    sp_pHandler p' = sp_pHandler p /\ sp_begin p' < sp_numOfObjs p') \/
  (sp_begin p = sp_numOfObjs p /\
   pool_release (idx_of (sp_poolId p) j) (mkState m h p) = Some (SDB_SYS, mkState m h p)).
Proof.
  intros Hok Hu Hd. pose proof (in_use_valid m p fr j Hok Hu Hd) as Hv.
  pose proof (po_count _ _ _ Hok).
  destruct (decide (sp_begin p < sp_numOfObjs p)) as [Hb|Hb].
  - left. destruct (release_in_use m h p fr j Hok Hu Hb Hv) as
      (m' & p' & E & Hok' & Hf & Es & En & Ed & Ei & Eh).
    exists m', p'. split; [done|]. split; [|split_and!; try done].
    + split; try done; [intros b Hb' _; by apply Hf|]. rewrite Es. by left.
    + pose proof (po_count _ _ _ Hok') as Hc. rewrite length_cons in Hc. lia.
  - right. split; [lia|]. destruct (release_refused m h p fr j Hok (proj1 Hu)) as (rc & -> & Hrc); [lia|].
    destruct Hrc as [->|[_ ?]]; done.
Qed.

(** The pool an object is from, by its address. *)
Lemma release_addr_index m (h : H) p i j a :
  load m a = Some (obj_of (Z.of_nat i) j false) -> sp_poolId p = Z.of_nat i -> (i < 16)%nat ->
  0 <= j < 268435456 -> idx_of (Z.of_nat i) j <> UTIL_INVALID_OBJ_INDEX ->
  getPoolIdByAddr m a = Some (Z.of_nat i) /\
  pool_release_addr (Some a) (mkState m h p) = pool_release (idx_of (Z.of_nat i) j) (mkState m h p).
Proof.
  intros Hl Hid Hi Hj Hv. unfold getPoolIdByAddr, pool_release_addr, getIndexByAddr.
  cbn [ps_mem ps_pool]. rewrite Hl. cbn [mbind option_bind obj_of ox_eyeCatcher ox_index].
  rewrite Z.eqb_refl, unpacked_poolid, land_pool_mask, Hid, packed_poolid, Z.eqb_refl by lia.
  split; [done|]. cbn [andb mbind option_bind]. unfold IS_VALID_SEG_OBJ_INDEX.
  destruct (Z.eqb_spec UTIL_INVALID_OBJ_INDEX (idx_of (Z.of_nat i) j)); [congruence|done].
Qed.

(** The objects handed out after one of pool [i] is given back. *)
Lemma held_release m m' g frs i p fr p' j :
  mgr_ok m g frs -> sm_pool g !! i = Some p -> frs !! i = Some fr -> in_use p fr j ->
  pool_step m p m' p' (j :: fr) -> sp_segList p' = sp_segList p ->
  sp_numOfObjs p' = sp_numOfObjs p ->
  forall idx' a', held (set_pool g (Z.of_nat i) p') (<[i := j :: fr]> frs) idx' a' <->
    held g frs idx' a' /\ idx' <> idx_of (Z.of_nat i) j.
Proof.
  intros Hok Hp Hf Hu Hst Es En idx' a'. rewrite <- (set_round_id g) at 1.
  rewrite (held_step Hok _ p fr p' (j :: fr)) by done.
  destruct (mo_pool _ _ _ Hok _ _ _ Hp Hf) as (_ & _ & Hpo).
  pose proof (po_num_le _ _ _ Hpo). pose proof (proj1 Hu) as Hj.
  assert (Ha : forall j', obj_addr p' j' = obj_addr p j').
  { intros j'. unfold obj_addr. by rewrite Es, (st_delta _ _ _ _ _ Hst). }
  split.
  - intros [(j' & [Hu1 Hu2] & -> & Ha')|[Hh Hne]].
    + rewrite Ha in Ha'. rewrite En in Hu1. apply not_elem_of_cons in Hu2 as [Hne Hu2].
      split; [by exists i, p, fr, j'|]. intros E. apply idx_of_inj in E as [_ ?]; lia.
    + split; [done|]. intros ->. apply Hne. exists j. split; [lia|done].
  - intros [(k & q & fq & j' & Hq & Hfq & Hu' & -> & Ha') Hne].
    destruct (decide (k = i)) as [->|Hk].
    + simplify_eq. left. exists j'. rewrite Ha. split; [|done]. unfold in_use.
      rewrite En, not_elem_of_cons. destruct Hu' as [? ?]. split; [done|]. split; [|done].
      intros ->. done.
    + right. split; [by exists k, q, fq, j'|]. intros (j'' & Hj'' & E).
      destruct (mo_pool _ _ _ Hok _ _ _ Hq Hfq) as (_ & _ & Hqo).
      pose proof (po_num_le _ _ _ Hqo). destruct Hu' as [Hu' _].
      apply idx_of_inj in E as [E _]; lia.
Qed.

(** The pool of an index has a spare object. *)
Definition has_spare (g : utilSegmentManager) (idx : Z) : Prop :=
  forall p, sm_pool g !! Z.to_nat (idx / 268435456) = Some p -> sp_begin p < sp_numOfObjs p.

Definition release_post (m : segments) (h : H) (g : utilSegmentManager) (frs : list (list Z))
    (idx : Z) (r : option (Z * mgr_state H)) : Prop :=
  (exists m' g' frs', r = Some (SDB_OK, mkMgrState m' h g') /\ mgr_ok m' g' frs' /\
     (forall idx' a', held g' frs' idx' a' <-> held g frs idx' a' /\ idx' <> idx) /\
     mgr_frame m g m' g' /\
     exists i p p', sm_pool g !! i = Some p /\ g' = set_pool g (Z.of_nat i) p' /\
       sp_numOfObjs p' = sp_numOfObjs p /\ sp_pHandler p' = sp_pHandler p /\
       sp_begin p' < sp_numOfObjs p') \/
  (r = Some (SDB_SYS, mkMgrState m h g) /\ ~ has_spare g idx).

Lemma idx_of_div i j : 0 <= j < 268435456 -> idx_of i j / 268435456 = i.
Proof. intros. unfold idx_of. rewrite Z.div_add_l, Z.div_small by lia. lia. Qed.

Lemma smgr_release_post m (h : H) g frs idx a :
  mgr_ok m g frs -> held g frs idx a ->
  smgr_release_addr (Some a) (mkMgrState m h g) = smgr_release idx (mkMgrState m h g) /\
  release_post m h g frs idx (smgr_release idx (mkMgrState m h g)).
Proof.
  intros Hok Hh. destruct (held_load m g frs idx a Hok Hh) as
    (i & p & fr & j & Hp & Hf & Hpo & Hid & Hi & Hu & Hd & -> & Ha & Hl).
  pose proof (po_num_le _ _ _ Hpo). pose proof (proj1 Hu) as Hj.
  assert (idx_of (Z.of_nat i) j <> UTIL_INVALID_OBJ_INDEX) as Hv.
  { rewrite <- Hid. by eapply in_use_valid. }
  destruct (release_addr_index m h p i j a Hl Hid Hi ltac:(lia) Hv) as [E1 E2].
  unfold smgr_release_addr, smgr_release, get_pool, put_pool. cbn [ms_mem ms_mgr ms_handler].
  rewrite E1, unpacked_poolid by lia. cbn [mbind option_bind].
  destruct (Z.eqb_spec UTIL_INVALID_OBJ_INDEX (Z.of_nat i)) as [E|]; [unfold UTIL_INVALID_OBJ_INDEX in E; lia|].
  cbn [negb]. rewrite Nat2Z.id, Hp. cbn [mbind option_bind]. rewrite E2. split; [done|].
  destruct (pool_release_step m h p fr j Hpo Hu Hd) as
    [(m' & p' & E & Hst & Es & En & Eh & Hsp)|[Hb E]]; rewrite Hid in E; rewrite E;
    cbn [mbind option_bind ps_mem ps_handler ps_pool].
  - left. exists m', (set_pool g (Z.of_nat i) p'), (<[i := j :: fr]> frs). split; [done|].
    pose proof (mgr_step Hok i p fr m' p' _ (sm_round g) Hp Hf (mo_round _ _ _ Hok) Hst) as Hok'.
    pose proof (mgr_frame_step m g i p m' p' _ (sm_round g) Hp Hst) as Hfr.
    rewrite set_round_id in Hok', Hfr. split; [done|].
    split; [by eapply held_release|]. split; [done|]. by exists i, p, p'.
  - right. split.
    + unfold set_pool. rewrite Nat2Z.id, list_insert_id by done. by destruct g.
    + intros Hsp. unfold has_spare in Hsp. rewrite idx_of_div, Nat2Z.id in Hsp by lia.
      specialize (Hsp p Hp). lia.
Qed.

End Release.

(** ** Accounting

    A handler counts the bytes of the segments it hears of, as an unsigned
    64-bit number. *)
Class SegmentHandlerLaws (H : Type) `{SegmentHandler H} := {
  handler_size : H -> Z;
  handler_size_alloc : forall h x, handler_size (onAllocSegment h x) = u64 (handler_size h + x);
  handler_size_release : forall h x, handler_size (onReleaseSegment h x) = u64 (handler_size h - x)
}.

Lemma u64_add_l a b : u64 (u64 a + b) = u64 (a + b).
Proof. apply Zplus_mod_idemp_l. Qed.

Lemma u64_add_r a b : u64 (a + u64 b) = u64 (a + b).
Proof. apply Zplus_mod_idemp_r. Qed.

Lemma u64_sub_l a b : u64 (u64 a - b) = u64 (a - b).
Proof. apply Zminus_mod_idemp_l. Qed.

Lemma u64_sub_r a b : u64 (a - u64 b) = u64 (a - b).
Proof. apply Zminus_mod_idemp_r. Qed.

Lemma u64_mul_l a b : u64 (u64 a * b) = u64 (a * b).
Proof. apply Zmult_mod_idemp_l. Qed.

Section Count.
  Context {H : Type} `{SegmentHandlerLaws H} (sizeofT sizeofX : Z).

Definition mgr_bytes (g : utilSegmentManager) : Z :=
  sumZ (map (fun p => sp_numOfObjs p * sizeofX) (sm_pool g)).

(** What the handler has counted besides the segments of this manager. *)
Definition uncounted (h : H) (g : utilSegmentManager) : Z := u64 (handler_size h - mgr_bytes g).

Lemma mgr_bytes_step g i p p' rd :
  sm_pool g !! i = Some p ->
  mgr_bytes (set_pool (set_round g rd) (Z.of_nat i) p') =
  mgr_bytes g + (sp_numOfObjs p' - sp_numOfObjs p) * sizeofX.
Proof.
  intros Hp. unfold mgr_bytes. cbn. rewrite Nat2Z.id.
  rewrite (sumZ_map_insert _ _ i p) by done. lia.
Qed.

Lemma grown_counted m m' (h h' : H) p p' fr fr' :
  pool_ok m p fr -> pool_ok m' p' fr' -> sp_delta p' = sp_delta p -> sp_pHandler p = true ->
  grown sizeofX m h h' p p' ->
  u64 (handler_size h' - (sp_numOfObjs p' - sp_numOfObjs p) * sizeofX) = u64 (handler_size h).
Proof.
  intros Hok Hok' Hd Hh Hg. rewrite (po_num _ _ _ Hok), (po_num _ _ _ Hok'), Hd.
  destruct Hg as [[-> ->]|(b & -> & _ & ->)].
  - f_equal. lia.
  - rewrite Hh, handler_size_alloc, u64_sub_l. rewrite length_app. simpl length.
    replace (handler_size h + u64 (sp_delta p * sizeofX) -
      (Z.of_nat (length (sp_segList p) + 1) * sp_delta p -
       Z.of_nat (length (sp_segList p)) * sp_delta p) * sizeofX)
      with (handler_size h - sp_delta p * sizeofX + u64 (sp_delta p * sizeofX)) by lia.
    rewrite u64_add_r. f_equal. lia.
Qed.

Lemma shrunk_counted m (h : H) p fr n m' h' p' fr' k :
  pool_ok m p fr -> sp_pHandler p = true -> shrunk sizeofX m h p fr n m' h' p' fr' k ->
  u64 (handler_size h' - (sp_numOfObjs p' - sp_numOfObjs p) * sizeofX) = u64 (handler_size h).
Proof.
  intros Hok Hh Hs. pose proof (po_exponent _ _ _ Hok).
  assert (sp_numOfObjs p' - sp_numOfObjs p = - (n * sp_delta p)) as ->.
  { rewrite (po_num _ _ _ Hok), (po_num _ _ _ (sh_ok _ _ _ _ _ _ _ _ _ _ _ Hs)).
    rewrite (sh_delta _ _ _ _ _ _ _ _ _ _ _ Hs), (sh_segs _ _ _ _ _ _ _ _ _ _ _ Hs),
      (sh_n _ _ _ _ _ _ _ _ _ _ _ Hs), length_take, length_drop. lia. }
  rewrite (sh_h _ _ _ _ _ _ _ _ _ _ _ Hs), Hh, andb_true_r.
  destruct (Z.ltb_spec 0 n) as [Hn|Hn].
  - rewrite handler_size_release, u64_sub_l.
    replace (handler_size h - u64 (u64 (Z.shiftl n (sp_exponent p)) * sizeofX) - - (n * sp_delta p) * sizeofX)
      with (handler_size h + n * sp_delta p * sizeofX - u64 (u64 (Z.shiftl n (sp_exponent p)) * sizeofX)) by lia.
    rewrite u64_sub_r, <- u64_sub_r, u64_mul_l, u64_sub_r, shiftl_mul, <- (po_delta _ _ _ Hok) by lia.
    f_equal. lia.
  - assert (n = 0) as ->; [|f_equal; lia].
    rewrite (sh_n _ _ _ _ _ _ _ _ _ _ _ Hs) in *. lia.
Qed.

End Count.

(** ** Shrink *)

Section Shrink.
  Context {H : Type} `{SegmentHandlerLaws H} (sizeofT sizeofX : Z).

Lemma shrunk_step m (h : H) p fr n m' h' p' fr' k :
  shrunk sizeofX m h p fr n m' h' p' fr' k -> pool_step m p m' p' fr'.
Proof.
  intros []. split; try done.
  - intros b Hb _. rewrite sh_mem, decide_False; [done|]. intros Hd. apply Hb.
    rewrite <- (take_drop k (sp_segList p)). apply elem_of_app. by right.
  - intros b Hb. left. rewrite sh_segs in Hb. rewrite <- (take_drop k (sp_segList p)).
    apply elem_of_app. by left.
Qed.

(** The pools after one of them has shrunk hold the same objects. *)
Lemma held_shrink m m' (h h' : H) g frs i p fr p' fr' n k :
  mgr_ok m g frs -> sm_pool g !! i = Some p -> frs !! i = Some fr ->
  shrunk sizeofX m h p fr n m' h' p' fr' k ->
  forall idx a, held (set_pool g (Z.of_nat i) p') (<[i := fr']> frs) idx a <-> held g frs idx a.
Proof.
  intros Hok Hp Hf Hs idx a. rewrite <- (set_round_id g) at 1.
  rewrite (held_step Hok _ p fr p' fr') by done.
  destruct (mo_pool _ _ _ Hok _ _ _ Hp Hf) as (_ & _ & Hpo).
  assert (Ha : forall j, in_use p fr j -> obj_addr p' j = obj_addr p j).
  { intros j Hj. apply (sh_use _ _ _ _ _ _ _ _ _ _ _ Hs) in Hj as Hj'.
    destruct (obj_addr_ok (sh_ok _ _ _ _ _ _ _ _ _ _ _ Hs) j (proj1 Hj')) as (seg & E & _).
    rewrite E. symmetry. eapply (obj_addr_prefix p'); [| |done].
    - rewrite (sh_segs _ _ _ _ _ _ _ _ _ _ _ Hs). apply prefix_take.
    - by rewrite (sh_delta _ _ _ _ _ _ _ _ _ _ _ Hs). }
  split.
  - intros [(j & Hu%(sh_use _ _ _ _ _ _ _ _ _ _ _ Hs) & -> & E)|[? _]]; [|done].
    rewrite (Ha j Hu) in E. by exists i, p, fr, j.
  - intros (q & pq & fq & j & Hq & Hfq & Hu & -> & E). destruct (decide (q = i)) as [->|Hne].
    + simplify_eq. left. exists j. rewrite (sh_use _ _ _ _ _ _ _ _ _ _ _ Hs), (Ha j Hu). done.
    + right. split; [by exists q, pq, fq, j|]. intros (j' & Hj' & E').
      destruct (mo_pool _ _ _ Hok _ _ _ Hq Hfq) as (_ & _ & Hqo).
      pose proof (po_num_le _ _ _ Hqo). destruct Hu as [Hu _].
      apply idx_of_inj in E' as [E' _]; lia.
Qed.

Definition all_handled (g : utilSegmentManager) : Prop :=
  forall i p, (i < Z.to_nat (sm_poolNum g))%nat -> sm_pool g !! i = Some p -> sp_pHandler p = true.

(** Every pool that has objects has a spare one. *)
Definition all_spare (g : utilSegmentManager) : Prop :=
  forall i p, sm_pool g !! i = Some p -> sp_begin p < sp_numOfObjs p \/ sp_begin p = 0.

(** What a run of [shrink] over some pools leaves. *)
Record mgr_shrunk (m : segments) (h : H) (g : utilSegmentManager) (frs : list (list Z))
    (keep : Z) (m' : segments) (h' : H) (g' : utilSegmentManager) (frs' : list (list Z)) : Prop := {
  gs_ok : mgr_ok m' g' frs';
  gs_held : forall idx a, held g' frs' idx a <-> held g frs idx a;
  gs_num : sm_poolNum g' = sm_poolNum g;
  gs_segs : forall b, b ∈ mgr_segs g' -> b ∈ mgr_segs g;
  gs_frame : forall b, b ∉ mgr_segs g -> m' !! b = m !! b;
  gs_handled : all_handled g -> all_handled g';
  gs_counted : all_handled g -> uncounted sizeofX h' g' = uncounted sizeofX h g;
  gs_range : 0 <= handler_size h < 18446744073709551616 ->
             0 <= handler_size h' < 18446744073709551616;
  gs_spare : 1 <= keep -> all_spare g -> all_spare g'
}.

Lemma mgr_shrunk_refl m h g frs keep : mgr_ok m g frs -> mgr_shrunk m h g frs keep m h g frs.
Proof. by split. Qed.

Lemma mgr_shrunk_trans m h g frs keep m1 h1 g1 frs1 m2 h2 g2 frs2 :
  mgr_shrunk m h g frs keep m1 h1 g1 frs1 -> mgr_shrunk m1 h1 g1 frs1 keep m2 h2 g2 frs2 ->
  mgr_shrunk m h g frs keep m2 h2 g2 frs2.
Proof.
  intros [] []. split; auto.
  - intros idx a. by rewrite gs_held1, gs_held0.
  - congruence.
  - intros b Hb. rewrite gs_frame1 by auto. auto.
  - intros Hh. rewrite gs_counted1 by auto. auto.
Qed.

Lemma mgr_shrunk_step m h g frs keep i p fr n m' h' p' fr' k :
  mgr_ok m g frs -> sm_pool g !! i = Some p -> frs !! i = Some fr ->
  shrunk sizeofX m h p fr n m' h' p' fr' k -> (1 <= keep -> spare p p') ->
  mgr_shrunk m h g frs keep m' h' (set_pool g (Z.of_nat i) p') (<[i := fr']> frs).
Proof.
  intros Hok Hp Hf Hs Hsp. pose proof (shrunk_step _ _ _ _ _ _ _ _ _ _ Hs) as Hst.
  destruct (mo_pool _ _ _ Hok _ _ _ Hp Hf) as (_ & _ & Hpo).
  pose proof (lookup_lt_Some _ _ _ Hp) as Hi.
  pose proof (lookup_lt_Some _ _ _ Hf) as Hi2. rewrite (mo_frs _ _ _ Hok) in Hi2.
  pose proof (mgr_step Hok i p fr m' p' _ (sm_round g) Hp Hf (mo_round _ _ _ Hok) Hst) as Hok'.
  rewrite set_round_id in Hok'.
  assert (Hsub : forall b, b ∈ mgr_segs (set_pool g (Z.of_nat i) p') -> b ∈ mgr_segs g).
  { intros b (q & pq & Hq & Hb)%elem_of_mgr_segs. apply elem_of_mgr_segs. cbn in Hq.
    rewrite Nat2Z.id in Hq. destruct (decide (q = i)) as [->|].
    - rewrite list_lookup_insert_eq in Hq by done. simplify_eq. exists i, p. split; [done|].
      rewrite (sh_segs _ _ _ _ _ _ _ _ _ _ _ Hs) in Hb. rewrite <- (take_drop k (sp_segList p)).
      apply elem_of_app. by left.
    - rewrite list_lookup_insert_ne in Hq by done. by exists q, pq. }
  split; try done.
  - by eapply held_shrink.
  - intros b Hb. pose proof (mgr_frame_step m g i p m' p' _ (sm_round g) Hp Hst) as [Hfr _].
    rewrite set_round_id in Hfr. apply Hfr; auto.
  - intros Hh q pq Hq1 Hq. cbn in Hq, Hq1. rewrite Nat2Z.id in Hq. destruct (decide (q = i)) as [->|].
    + rewrite list_lookup_insert_eq in Hq by done. simplify_eq.
      rewrite (sh_pHandler _ _ _ _ _ _ _ _ _ _ _ Hs). by eapply Hh.
    + rewrite list_lookup_insert_ne in Hq by done. by eapply Hh.
  - intros Hh. pose proof (shrunk_counted _ _ _ _ _ _ _ _ _ _ _ Hpo (Hh i p Hi2 Hp) Hs) as Hc.
    unfold uncounted. rewrite <- (set_round_id g) at 1. rewrite (mgr_bytes_step _ _ _ p) by done.
    rewrite <- (u64_sub_l (handler_size h)), <- Hc, u64_sub_l. f_equal. lia.
  - intros Hrg. rewrite (sh_h _ _ _ _ _ _ _ _ _ _ _ Hs). destruct (_ && _); [|done].
    rewrite handler_size_release. apply Z.mod_pos_bound. lia.
  - intros Hk Ha q pq Hq. cbn in Hq. rewrite Nat2Z.id in Hq. destruct (decide (q = i)) as [->|].
    + rewrite list_lookup_insert_eq in Hq by done. simplify_eq.
      destruct (Ha i p Hp) as [Hb|Hb]; [left; by apply Hsp|right].
      by rewrite (sh_begin _ _ _ _ _ _ _ _ _ _ _ Hs).
    + rewrite list_lookup_insert_ne in Hq by done. by eapply Ha.
Qed.

Lemma shrink_loop_post os keep n : forall i freed m (h : H) g frs,
  mgr_ok m g frs -> 0 <= keep < 2147483648 -> (i + n <= Z.to_nat (sm_poolNum g))%nat ->
  exists rc f m' h' g' frs',
    shrink_loop sizeofT sizeofX os keep n (Z.of_nat i) freed (mkMgrState m h g) =
      Some (rc, f, mkMgrState m' h' g') /\
    mgr_shrunk m h g frs keep m' h' g' frs' /\ (rc = SDB_OK \/ rc = SDB_OOM).
Proof.
  induction n as [|n IH]; intros i freed m h g frs Hok Hk Hn; cbn [shrink_loop].
  - eexists _, _, m, h, g, frs. split; [done|]. split; [by apply mgr_shrunk_refl|by left].
  - destruct (mgr_pool_at Hok i ltac:(lia)) as (p & fr & Hp & Hf & _ & _ & Hpo).
    unfold get_pool. cbn [ms_mgr ms_mem ms_handler]. rewrite Nat2Z.id, Hp. cbn [mbind option_bind].
    destruct (pool_shrink_post sizeofT sizeofX (os (Z.of_nat i)) keep m h p fr Hpo Hk) as
      (rc & f & m1 & h1 & p1 & fr1 & k & -> & Hs & Hrc & Hsp).
    cbn [mbind option_bind put_pool ps_mem ps_handler ps_pool].
    pose proof (mgr_shrunk_step m h g frs keep i p fr _ _ _ _ _ _ Hok Hp Hf Hs Hsp) as Hm.
    destruct (Z.eqb_spec rc SDB_OK) as [->|Hne]; cbn [negb].
    + replace (Z.of_nat i + 1) with (Z.of_nat (S i)) by lia.
      destruct (IH (S i) (u32 (freed + f)) m1 h1 (set_pool g (Z.of_nat i) p1) (<[i := fr1]> frs)) as
        (rc & f' & m' & h' & g' & frs' & E & Hm' & Hrc'); [by eapply gs_ok|done|cbn; lia|].
      exists rc, f', m', h', g', frs'. split; [done|]. split; [by eapply mgr_shrunk_trans|done].
    + exists rc, (u32 (freed + f)), m1, h1, (set_pool g (Z.of_nat i) p1), (<[i := fr1]> frs).
      split; [done|]. split; [done|]. right. intuition congruence.
Qed.

End Shrink.

(** ** Histories of a manager *)

(** ** Setting up *)

Lemma pool_init_ok m i numberOfObjs maxObjs pHandler :
  0 <= i < 16 -> 2 <= numberOfObjs < 4294967296 -> 0 <= maxObjs < 4294967296 ->
  exists p, pool_init i numberOfObjs maxObjs pHandler segmentPool_new = (SDB_OK, p) /\
    sp_poolId p = i /\ 2 <= sp_delta p /\ pool_ok m p [] /\ sp_pHandler p = pHandler /\
    sp_begin p = 0 /\ sp_numOfObjs p = 0 /\ sp_segList p = [].
Proof.
  intros Hi Hn Hm. unfold pool_init, SEGMENT_OBJ_MAX_NUM, SEGMENT_OBJ_INDEX_MASK, SEGMENT_MGR_MAX_POOLS.
  destruct (Z.ltb_spec 0 (Z.min numberOfObjs (268435455 + 1))); [|lia].
  destruct (Z.ltb_spec i 16); [|lia]. cbn [andb].
  destruct (ossNextPowerOf2_spec (Z.min numberOfObjs (268435455 + 1))) as (k & Hk & E & Hle & Hlow); [lia|].
  rewrite E. assert (1 <= k <= 28) as Hk2.
  { split.
    - destruct (decide (k = 0)) as [->|]; [simpl in Hle; lia|lia].
    - destruct Hlow as [->|Hlow]; [lia|]. destruct (decide (k <= 28)); [done|].
      assert (2 ^ 28 <= 2 ^ (k - 1)) by (apply Z.pow_le_mono_r; lia).
      change (2 ^ 28) with 268435456 in *. lia. }
  assert (2 ^ 1 <= 2 ^ k <= 2 ^ 28) as Hp by (split; apply Z.pow_le_mono_r; lia).
  change (2 ^ 1) with 2 in Hp. change (2 ^ 28) with 268435456 in Hp.
  rewrite u32_id by lia.
  set (mx := if (0 <? Z.min maxObjs (268435455 + 1)) && (Z.min maxObjs (268435455 + 1) <? 2 ^ k)
             then 2 ^ k else Z.min maxObjs (268435455 + 1)).
  assert (0 <= mx <= 268435456) as Hmx by (unfold mx; destruct (_ && _); lia).
  clearbody mx. eexists. split; [done|].
  split; [done|]. split; [cbn [sp_delta]; lia|]. split; [|done].
  split; cbn [sp_isInitialized sp_exponent sp_delta sp_poolId sp_maxNumOfObjs sp_numOfObjs
    sp_segList sp_list sp_begin segmentPool_new]; try done; try lia; try constructor.
Qed.

(** The loop sets up the pools one by one. *)
Lemma mgr_init_loop_ok m numberOfObjs maxObjs pHandler n : forall i g,
  2 <= numberOfObjs < 4294967296 -> 0 <= maxObjs < 4294967296 -> (i + n <= 16)%nat ->
  length (sm_pool g) = 16%nat ->
  (forall j, (i <= j < 16)%nat -> sm_pool g !! j = Some segmentPool_new) ->
  exists g', mgr_init_loop n (Z.of_nat i) numberOfObjs maxObjs pHandler g = Some (SDB_OK, g') /\
    sm_round g' = sm_round g /\ sm_poolNum g' = sm_poolNum g /\ length (sm_pool g') = 16%nat /\
    forall j, (j < 16)%nat ->
      if decide (i <= j < i + n)%nat
      then exists p, sm_pool g' !! j = Some p /\ sp_poolId p = Z.of_nat j /\ 2 <= sp_delta p /\
             pool_ok m p [] /\ sp_pHandler p = pHandler /\ sp_begin p = 0 /\
             sp_numOfObjs p = 0 /\ sp_segList p = []
      else sm_pool g' !! j = sm_pool g !! j.
Proof.
  induction n as [|n IH]; intros i g Hn Hm Hi Hlen Hnew; cbn [mgr_init_loop].
  - exists g. split; [done|]. do 3 (split; [done|]). intros j Hj. by rewrite decide_False by lia.
  - rewrite Nat2Z.id, Hnew by lia. cbn [mbind option_bind].
    destruct (pool_init_ok m (Z.of_nat i) numberOfObjs maxObjs pHandler) as (p & -> & Hp); [lia..|].
    cbn [negb]. change (SDB_OK =? SDB_OK) with true. cbn [negb].
    replace (Z.of_nat i + 1) with (Z.of_nat (S i)) by lia.
    destruct (IH (S i) (set_pool g (Z.of_nat i) p)) as (g' & E & Er & En & El & Hj); try done; [lia| | |].
    + cbn. by rewrite length_insert.
    + intros j Hj. cbn. rewrite Nat2Z.id, list_lookup_insert_ne by lia. apply Hnew. lia.
    + exists g'. split; [done|]. do 3 (split; [done|]). intros j Hj'. specialize (Hj j Hj').
      cbn [sm_pool set_pool] in Hj. rewrite Nat2Z.id in Hj. destruct (decide (j = i)) as [->|].
      * rewrite decide_False, list_lookup_insert_eq in Hj by lia. rewrite decide_True by lia.
        by exists p.
      * destruct (decide (S i <= j < S i + n)%nat).
        -- by rewrite decide_True by lia.
        -- rewrite decide_False by lia. rewrite Hj. by apply list_lookup_insert_ne.
Qed.

(** The number of pools [init] uses. *)
Definition pool_count (poolNum : Z) : Z := Z.min (u32 (ossNextPowerOf2 poolNum).1) 16.

Lemma pool_count_pow2 poolNum :
  0 <= poolNum < 256 -> exists e, 0 <= e <= 4 /\ pool_count poolNum = 2 ^ e.
Proof.
  intros Hp. unfold pool_count.
  destruct (ossNextPowerOf2_spec poolNum) as (k & Hk & -> & Hle & Hlow); [lia|]. cbn [fst].
  assert (k <= 8).
  { destruct Hlow as [->|Hlow]; [lia|]. destruct (decide (k <= 8)); [done|].
    assert (2 ^ 8 <= 2 ^ (k - 1)) by (apply Z.pow_le_mono_r; lia).
    change (2 ^ 8) with 256 in *. lia. }
  assert (2 ^ k <= 2 ^ 8) by (apply Z.pow_le_mono_r; lia). change (2 ^ 8) with 256 in *.
  rewrite u32_id by lia. destruct (decide (k <= 4)).
  - exists k. split; [lia|]. apply Z.min_l. change 16 with (2 ^ 4). apply Z.pow_le_mono_r; lia.
  - exists 4. split; [lia|]. apply Z.min_r. change 16 with (2 ^ 4). apply Z.pow_le_mono_r; lia.
Qed.

Lemma smgr_init_ok m numberOfObjs maxNumberOfObjs poolNum pHandler :
  0 <= poolNum < 256 -> 0 <= maxNumberOfObjs ->
  2 <= numberOfObjs / pool_count poolNum < 4294967296 ->
  exists g, smgr_init numberOfObjs maxNumberOfObjs poolNum pHandler segmentManager_new = Some (SDB_OK, g) /\
    sm_poolNum g = pool_count poolNum /\
    mgr_ok m g (replicate (Z.to_nat (pool_count poolNum)) []) /\
    (pHandler = true -> all_handled g) /\ all_spare g /\ mgr_segs g = [] /\
    forall i p, sm_pool g !! i = Some p -> sp_numOfObjs p = 0.
Proof.
  intros Hp Hm Hn. destruct (pool_count_pow2 poolNum Hp) as (e & He & Ee).
  assert (1 <= pool_count poolNum <= 16) as Hc.
  { rewrite Ee. split; [lia|]. change 16 with (2 ^ 4). apply Z.pow_le_mono_r; lia. }
  unfold smgr_init, SEGMENT_MGR_MAX_POOLS. fold (pool_count poolNum). cbv zeta.
  rewrite (u32_id (numberOfObjs / _)) by lia.
  assert (0 <= maxNumberOfObjs / pool_count poolNum) by (apply Z.div_pos; lia).
  change SEGMENT_OBJ_MAX_NUM with 268435456. rewrite u32_id by lia.
  destruct (mgr_init_loop_ok m (numberOfObjs / pool_count poolNum)
    (Z.min (maxNumberOfObjs / pool_count poolNum) 268435456) pHandler (Z.to_nat (pool_count poolNum)) 0
    (mkMgr (sm_round segmentManager_new) (pool_count poolNum) (sm_pool segmentManager_new)))
    as (g & E & Er & En & El & Hj); [lia|lia|lia|done| |].
  { intros j Hj. cbn [sm_pool segmentManager_new]. apply lookup_replicate_2. lia. }
  exists g. split; [exact E|]. split; [done|].
  assert (Hat : forall j p, sm_pool g !! j = Some p ->
    if decide (j < Z.to_nat (pool_count poolNum))%nat
    then sp_poolId p = Z.of_nat j /\ 2 <= sp_delta p /\ pool_ok m p [] /\ sp_pHandler p = pHandler /\
         sp_begin p = 0 /\ sp_numOfObjs p = 0 /\ sp_segList p = []
    else p = segmentPool_new).
  { intros j p Hq. pose proof (lookup_lt_Some _ _ _ Hq) as Hlt. rewrite El in Hlt.
    specialize (Hj j Hlt). destruct (decide (0 <= j < 0 + Z.to_nat (pool_count poolNum))%nat).
    - rewrite decide_True by lia. destruct Hj as (p' & E' & ?). by simplify_eq.
    - rewrite decide_False by lia. rewrite Hq in Hj. cbn [sm_pool segmentManager_new] in Hj.
      rewrite lookup_replicate_2 in Hj by lia. congruence. }
  assert (Hsegs : forall j p, sm_pool g !! j = Some p -> sp_segList p = [] /\ sp_begin p = 0 /\ sp_numOfObjs p = 0).
  { intros j p Hq. specialize (Hat j p Hq). case_decide; [tauto|by subst p]. }
  split; [|split; [|split; [|split]]].
  - split; try done; rewrite ?length_replicate, ?En; try done; try (by exists e).
    + by rewrite Er.
    + intros j p fr Hq [-> Hlt]%lookup_replicate. specialize (Hat j p Hq).
      rewrite decide_True in Hat by lia. tauto.
    + intros j p Hq Hf%lookup_replicate_None. specialize (Hat j p Hq).
      by rewrite decide_False in Hat by lia.
    + intros j k p q b Hq _ Hb. rewrite (proj1 (Hsegs j p Hq)) in Hb. set_solver.
  - intros -> j p Hlt Hq. specialize (Hat j p Hq). rewrite En in Hlt. cbn [sm_poolNum] in Hlt.
    rewrite decide_True in Hat by lia. tauto.
  - intros j p Hq. right. by apply (Hsegs j p).
  - destruct (mgr_segs g) as [|b l] eqn:Eb; [done|].
    assert (b ∈ mgr_segs g) as Hb by (rewrite Eb; left).
    apply elem_of_mgr_segs in Hb as (j & p & Hq & Hb).
    rewrite (proj1 (Hsegs j p Hq)) in Hb. set_solver.
  - intros j p Hq. by apply (Hsegs j p).
Qed.

(** [setMaxObjects] changes the limits only. *)
Lemma pool_setMaxObjects_spec p x :
  0 <= x -> exists y, pool_setMaxObjects p x = set_sp_max p y /\
    (0 < sp_delta p <= 268435456 -> 0 <= y <= 268435456).
Proof.
  intros Hx. unfold pool_setMaxObjects, SEGMENT_OBJ_MAX_NUM, SEGMENT_OBJ_INDEX_MASK.
  destruct (Z.ltb_spec (268435455 + 1) x); [eexists; split; [done|lia]|].
  destruct (Z.ltb_spec 0 x), (Z.ltb_spec x (sp_delta p)); cbn; eexists; split; try done; lia.
Qed.

Lemma map_take_lookup {A} (f : A -> A) (l : list A) n i q :
  (n <= length l)%nat ->
  (map f (take n l) ++ drop n l) !! i = Some q <->
  exists p, l !! i = Some p /\ q = if decide (i < n)%nat then f p else p.
Proof.
  intros Hn. assert (length (map f (take n l)) = n) as Hl by (rewrite length_map, length_take; lia).
  case_decide as Hi.
  - rewrite lookup_app_l by lia. rewrite list_lookup_fmap, lookup_take_lt by lia.
    destruct (l !! i); cbn; naive_solver.
  - rewrite lookup_app_r, lookup_drop by lia. rewrite Hl.
    replace (n + (i - n))%nat with i by lia. naive_solver.
Qed.

Lemma map_take_fields {A B} (f : A -> A) (h : A -> B) (l : list A) n :
  (forall x, h (f x) = h x) -> map h (map f (take n l) ++ drop n l) = map h l.
Proof.
  intros Hf. rewrite map_app, map_map. rewrite (map_ext _ h Hf). rewrite <- map_app.
  by rewrite take_drop.
Qed.

Lemma smgr_setMaxObjects_ok m g frs n :
  mgr_ok m g frs ->
  mgr_ok m (smgr_setMaxObjects n g) frs /\
  (forall idx a, held (smgr_setMaxObjects n g) frs idx a <-> held g frs idx a) /\
  (all_spare g -> all_spare (smgr_setMaxObjects n g)) /\
  mgr_segs (smgr_setMaxObjects n g) = mgr_segs g /\
  (all_handled g -> all_handled (smgr_setMaxObjects n g)) /\
  (forall X, mgr_bytes X (smgr_setMaxObjects n g) = mgr_bytes X g).
Proof.
  intros Hok. pose proof (poolNum_range Hok) as Hp.
  unfold smgr_setMaxObjects. cbv zeta.
  set (x := u32 (Z.min (n / sm_poolNum g) SEGMENT_OBJ_MAX_NUM)).
  assert (0 <= x) as Hx by apply u32_range.
  set (pools := map _ _ ++ _).
  pose proof (fun i q => map_take_lookup (fun p => pool_setMaxObjects p x) (sm_pool g)
    (Z.to_nat (sm_poolNum g)) i q ltac:(rewrite (mo_len _ _ _ Hok); lia)) as Hlk.
  fold pools in Hlk. pose proof (fun p => pool_setMaxObjects_spec p x Hx) as Hset.
  assert (Hfields : forall i q, pools !! i = Some q -> exists p, sm_pool g !! i = Some p /\
    sp_segList q = sp_segList p /\ sp_begin q = sp_begin p /\ sp_numOfObjs q = sp_numOfObjs p /\
    sp_delta q = sp_delta p /\ sp_pHandler q = sp_pHandler p).
  { intros i q (p & Hq & ->)%Hlk. exists p. split; [done|].
    case_decide; [|done]. destruct (Hset p) as (y & -> & _). done. }
  split; [|split; [|split; [|split; [|split]]]].
  - split; cbn [sm_pool sm_poolNum sm_round]; try apply Hok.
    + unfold pools. rewrite length_app, length_map, length_take, length_drop, (mo_len _ _ _ Hok). lia.
    + intros i q fr (p & Hq & ->)%Hlk Hf. destruct (mo_pool _ _ _ Hok _ _ _ Hq Hf) as (? & ? & Hpo).
      pose proof (po_delta_pos Hpo) as Hd.
      case_decide; [|done]. destruct (Hset p) as (y & -> & Hy). split; [done|]. split; [done|].
      specialize (Hy Hd). destruct Hpo. by split.
    + intros i q (p & Hq & ->)%Hlk Hf. rewrite decide_False; [by eapply (mo_rest _ _ _ Hok)|].
      apply lookup_ge_None in Hf. rewrite (mo_frs _ _ _ Hok) in Hf. lia.
    + intros i j q q' b (p & Hq & E & _)%Hfields (p' & Hq' & E' & _)%Hfields Hb Hb'.
      rewrite E in Hb. rewrite E' in Hb'. by eapply (mo_disjoint _ _ _ Hok).
  - intros idx a. unfold held. cbn [sm_pool]. split.
    + intros (i & q & fr & j & Hq & Hf & Hu & -> & Ha). destruct (Hfields i q Hq) as (p & Hp' & E1 & _ & E2 & E3 & _).
      exists i, p, fr, j. unfold in_use, obj_addr in *. by rewrite <- E1, <- E2, <- E3.
    + intros (i & p & fr & j & Hq & Hf & Hu & -> & Ha).
      pose proof (proj2 (Hlk i _) (ex_intro _ p (conj Hq eq_refl))) as Hq'. destruct (Hfields i _ Hq') as (p' & Hp' & E1 & _ & E2 & E3 & _).
      simplify_eq. eexists i, _, fr, j. split; [exact Hq'|]. unfold in_use, obj_addr in *. by rewrite E1, E2, E3.
  - intros Hs i q (p & Hq & _ & -> & -> & _)%Hfields. by eapply Hs.
  - unfold mgr_segs. cbn [sm_pool]. f_equal. apply map_take_fields.
    intros p. by destruct (Hset p) as (y & -> & _).
  - intros Hh i q Hi (p & Hq & _ & _ & _ & _ & ->)%Hfields. by eapply Hh.
  - intros X. unfold mgr_bytes. cbn [sm_pool]. f_equal. apply map_take_fields.
    intros p. by destruct (Hset p) as (y & -> & _).
Qed.

(** ** Histories *)

(** What a client may ask for. *)
Inductive seg_op :=
| SAcquire (os : nat -> Z * pool_os)
| SRelease (idx : Z)
| SReleaseAddr (idx : Z)
| SShrink (os : Z -> pool_os) (keep : Z)
| SSetMax (n : Z).

Section History.
  Context {H : Type} `{SegmentHandlerLaws H} (sizeofT sizeofX : Z).

(** The manager, and the objects its clients hold. *)
Definition hist : Type := mgr_state H * gmap Z objptr.

(** One operation: its return code and the state after it. *)
Definition seg_run (op : seg_op) (s : hist) : option (Z * hist) :=
  let '(s, out) := s in
  match op with
  | SAcquire os =>
      '(rc, o, s) ← smgr_acquire sizeofX os s;
      Some (rc, (s, match o with
                    | Some (idx, Some a) => if rc =? SDB_OK then <[idx := a]> out else out
                    | _ => out
                    end))
  | SRelease idx =>
      '(rc, s) ← smgr_release idx s;
      Some (rc, (s, if rc =? SDB_OK then delete idx out else out))
  | SReleaseAddr idx =>
      '(rc, s) ← smgr_release_addr (out !! idx) s;
      Some (rc, (s, if rc =? SDB_OK then delete idx out else out))
  | SShrink os keep =>
      '(rc, _, s) ← smgr_shrink sizeofT sizeofX os keep s;
      Some (rc, (s, out))
  | SSetMax n => Some (SDB_OK, (mkMgrState (ms_mem s) (ms_handler s) (smgr_setMaxObjects n (ms_mgr s)), out))
  end.

(** Clients release what they hold; the allocator answers with blocks that are
    not live. *)
Definition seg_allowed (op : seg_op) (s : hist) : Prop :=
  match op with
  | SAcquire os => forall k, 0 <= (os k).1 /\ fresh_segment (os k).2 (ms_mem s.1)
  | SRelease idx | SReleaseAddr idx => is_Some (s.2 !! idx)
  | SShrink _ keep => 0 <= keep < 2147483648
  | SSetMax _ => True
  end.

(** [shrink] is told to keep a segment. *)
Definition seg_keeps (op : seg_op) : Prop :=
  match op with SShrink _ keep => 1 <= keep | _ => True end.

Definition hist_ok (s : hist) : Prop :=
  exists frs, mgr_ok (ms_mem s.1) (ms_mgr s.1) frs /\
    forall idx a, s.2 !! idx = Some a <-> held (ms_mgr s.1) frs idx a.

(** The states an initialised manager gets to; [P] restricts the operations. *)
Inductive seg_reach (P : seg_op -> Prop) (g0 : utilSegmentManager) (m0 : segments) (h0 : H)
    : hist -> Prop :=
| reach_init : seg_reach P g0 m0 h0 (mkMgrState m0 h0 g0, ∅)
| reach_step op s rc s' :
    seg_reach P g0 m0 h0 s -> P op -> seg_allowed op s -> seg_run op s = Some (rc, s') ->
    seg_reach P g0 m0 h0 s'.

(** What each operation returns. *)
Definition seg_result (op : seg_op) (s : hist) (rc : Z) (s' : hist) : Prop :=
  match op with
  | SAcquire _ =>
      (rc = SDB_OK /\ exists idx a, s.2 !! idx = None /\ idx <> UTIL_INVALID_OBJ_INDEX /\
         (forall idx' a', s.2 !! idx' = Some a' -> a' <> a) /\ s'.2 = <[idx := a]> s.2) \/
      ((rc = SDB_OOM \/ rc = SDB_OSS_UP_TO_LIMIT) /\ s'.2 = s.2)
  | SRelease idx | SReleaseAddr idx =>
      (rc = SDB_OK /\ s'.2 = delete idx s.2) \/ (rc = SDB_SYS /\ s' = s /\ ~ has_spare (ms_mgr s.1) idx)
  | SShrink _ _ => (rc = SDB_OK \/ rc = SDB_OOM) /\ s'.2 = s.2
  | SSetMax _ => rc = SDB_OK /\ s'.2 = s.2
  end.

Lemma hist_acquire os s :
  hist_ok s -> seg_allowed (SAcquire os) s ->
  exists rc s', seg_run (SAcquire os) s = Some (rc, s') /\ hist_ok s' /\
    seg_result (SAcquire os) s rc s' /\ (all_spare (ms_mgr s.1) -> all_spare (ms_mgr s'.1)).
Proof.
  destruct s as [[m h g] out]. intros (frs & Hok & Hout) Hos. cbn [fst snd ms_mem ms_mgr] in *.
  cbn [seg_run seg_result seg_allowed]. unfold smgr_acquire.
  pose proof (acquire_loop_post sizeofX os m h frs (Z.to_nat (sm_poolNum g)) 0 g Hok Hos) as
    [(idx & a & m' & h' & g' & frs' & E & Hok' & Hv & Hn & Hh & i & p & p' & rd & Hi & Hp & -> & _ & _ & _ & _ & Hsp)
    |(rc & rd & E & Hrd & Hrc)]; cbn [ms_mgr]; rewrite E; cbn [mbind option_bind].
  - eexists _, _. split; [done|]. change (SDB_OK =? SDB_OK) with true. cbn iota. cbn [fst snd ms_mem ms_mgr].
    split; [|split].
    + exists frs'. split; [done|]. intros idx' a'. cbn [fst snd ms_mgr]. rewrite Hh, <- Hout.
      destruct (decide (idx' = idx)) as [->|Hne].
      * rewrite lookup_insert_eq. split; [intros [= ->]; by right|].
        intros [Hx|[_ ->]]; [|done]. apply Hout, Hn in Hx. done.
      * rewrite lookup_insert_ne by done. naive_solver.
    + left. split; [done|]. exists idx, a. split; [|split; [done|split; [|done]]].
      * destruct (out !! idx) as [a'|] eqn:Eo; [|done]. apply Hout, Hn in Eo. done.
      * intros idx' a' Ho ->. apply Hout in Ho as Hx.
        assert (idx' = idx) as ->; [|by apply Hn in Hx].
        eapply (held_addr_inj m' _ frs'); [done|apply Hh; by left|apply Hh; by right].
    + intros Hs k q Hq. cbn in Hq. destruct (decide (k = Z.to_nat i)) as [->|Hk].
      * rewrite list_lookup_insert_eq in Hq by (by eapply lookup_lt_Some). simplify_eq. by left.
      * rewrite list_lookup_insert_ne in Hq by done. by eapply Hs.
  - eexists _, _. split; [done|]. cbn [fst snd ms_mem ms_mgr]. split; [|split; [tauto|done]].
    exists frs. split; [by apply mgr_ok_round|done].
Qed.

Lemma hist_release idx s :
  hist_ok s -> is_Some (s.2 !! idx) ->
  seg_run (SReleaseAddr idx) s = seg_run (SRelease idx) s /\
  exists rc s', seg_run (SRelease idx) s = Some (rc, s') /\ hist_ok s' /\
    seg_result (SRelease idx) s rc s' /\ (all_spare (ms_mgr s.1) -> all_spare (ms_mgr s'.1)).
Proof.
  destruct s as [[m h g] out]. intros (frs & Hok & Hout) [a Ha]. cbn [fst snd ms_mem ms_mgr] in *.
  pose proof (proj1 (Hout idx a) Ha) as Hheld.
  destruct (smgr_release_post m h g frs idx a Hok Hheld) as [E Hpost].
  cbn [seg_run seg_result]. rewrite Ha, E. split; [done|].
  destruct Hpost as [(m' & g' & frs' & -> & Hok' & Hh & _ & i & p & p' & Hp & -> & En & _ & Hsp)|[-> Hns]];
    cbn [mbind option_bind].
  - eexists _, _. split; [done|]. cbn [fst snd ms_mem ms_mgr]. split; [|split; [by left|]].
    + exists frs'. split; [done|]. intros idx' a'. cbn [fst snd ms_mgr].
      change (SDB_OK =? SDB_OK) with true. cbn iota. rewrite Hh, <- Hout.
      rewrite lookup_delete_Some. naive_solver.
    + intros Hs k q Hq. cbn in Hq. rewrite Nat2Z.id in Hq. destruct (decide (k = i)) as [->|Hk].
      * rewrite list_lookup_insert_eq in Hq by (by eapply lookup_lt_Some). simplify_eq.
        by left.
      * rewrite list_lookup_insert_ne in Hq by done. by eapply Hs.
  - eexists _, _. split; [done|]. cbn [fst snd ms_mem ms_mgr]. split; [by exists frs|].
    split; [right; done|done].
Qed.

(** Every operation a client may ask for is defined, and keeps the invariant. *)
Lemma hist_step op s :
  hist_ok s -> seg_allowed op s ->
  exists rc s', seg_run op s = Some (rc, s') /\ hist_ok s' /\ seg_result op s rc s' /\
    (seg_keeps op -> all_spare (ms_mgr s.1) -> all_spare (ms_mgr s'.1)).
Proof.
  intros Hs Ha. destruct op as [os|idx|idx|os keep|n].
  - destruct (hist_acquire os s Hs Ha) as (rc & s' & ? & ? & ? & ?). by exists rc, s'.
  - destruct (hist_release idx s Hs Ha) as (_ & rc & s' & ? & ? & ? & ?). by exists rc, s'.
  - destruct (hist_release idx s Hs Ha) as (E & rc & s' & ? & ? & ? & ?). rewrite E. by exists rc, s'.
  - destruct s as [[m h g] out], Hs as (frs & Hok & Hout). cbn [fst snd ms_mem ms_mgr] in *.
    cbn [seg_run seg_result]. unfold smgr_shrink. cbn [ms_mgr].
    destruct (shrink_loop_post sizeofT sizeofX os keep (Z.to_nat (sm_poolNum g)) 0 0 m h g frs Hok Ha)
      as (rc & f & m' & h' & g' & frs' & E & Hm & Hrc); [lia|].
    change (Z.of_nat 0) with 0 in E. rewrite E. cbn [mbind option_bind].
    eexists _, _. split; [done|]. split; [|split; [done|]].
    + exists frs'. split; [by eapply gs_ok|]. intros idx a. cbn [fst snd ms_mgr].
      rewrite (gs_held _ _ _ _ _ _ _ _ _ _ Hm). apply Hout.
    + intros Hk Hsp. by eapply gs_spare.
  - destruct s as [[m h g] out], Hs as (frs & Hok & Hout). cbn [fst snd ms_mem ms_mgr] in *.
    destruct (smgr_setMaxObjects_ok m g frs n Hok) as (Hok' & Hh & Hsp & _).
    eexists _, _. split; [done|]. split; [|by split].
    exists frs. split; [done|]. intros idx a. cbn [fst snd ms_mgr]. rewrite Hh. apply Hout.
Qed.

Lemma reach_ok P g0 m0 h0 s frs :
  seg_reach P g0 m0 h0 s -> mgr_ok m0 g0 frs -> (forall idx a, ~ held g0 frs idx a) ->
  hist_ok s /\ ((forall op, P op -> seg_keeps op) -> all_spare g0 -> all_spare (ms_mgr s.1)).
Proof.
  intros Hr Hok Hh. induction Hr as [|op s rc s' Hr [IH1 IH2] HP Ha E].
  - split; [|done]. exists frs. split; [done|]. intros idx a. cbn [fst snd ms_mgr]. rewrite lookup_empty.
    split; [done|]. intros Hx. by apply Hh in Hx.
  - destruct (hist_step op s IH1 Ha) as (rc' & s'' & E' & Hs & _ & Hk). simplify_eq.
    split; [done|]. auto.
Qed.

(** ** When [acquire] gives up *)

Lemma acquire_loop_limit os m (h : H) frs n : forall k g rc out s',
  mgr_ok m g frs -> (forall j, (os j).1 = 0 /\ fresh_segment (os j).2 m) ->
  acquire_loop sizeofX os n k (mkMgrState m h g) = Some (rc, out, s') ->
  rc = SDB_OSS_UP_TO_LIMIT ->
  forall t, 0 <= t <= Z.of_nat n -> exists p,
    sm_pool g !! Z.to_nat ((sm_round g + t) mod sm_poolNum g) = Some p /\ pool_full sizeofX h p.
Proof.
  induction n as [|n IH]; intros k g rc out s' Hok Hos E -> t Ht; cbn [acquire_loop] in E;
    destruct (Hos k) as [Hs Hf]; rewrite Hs in E;
    destruct (acquire_attempt_ok sizeofX 0 (os k).2 m h g frs Hok ltac:(lia) Hf) as
      (p & fr & Hp & _ & [(j & a & m' & h' & p' & fr' & E' & _)|(rc' & E' & Hrc)]);
    rewrite E' in E; cbn [mbind option_bind] in E; try (cbn in E; discriminate).
  - assert (t = 0) as -> by lia. exists p. split; [done|]. injection E as -> _ _.
    destruct Hrc as [?|[_ ?]]; done.
  - destruct Hrc as [->|[-> Hfull]]; [discriminate|]. cbn in E.
    destruct (decide (t = 0)) as [->|Ht0]; [by exists p|].
    destruct (IH (S k) _ _ _ _ (mgr_ok_round _ _ _ _ Hok (u32_range _)) Hos E eq_refl (t - 1) ltac:(lia))
      as (q & Hq & Hfq). exists q. split; [|done]. cbn in Hq. rewrite <- Hq. do 2 f_equal.
    destruct (mo_num _ _ _ Hok) as (e & He & En). rewrite En. unfold u32.
    change 4294967296 with (2 ^ 32). replace (2 ^ 32) with (2 ^ e * 2 ^ (32 - e))
      by (rewrite <- Z.pow_add_r by lia; f_equal; lia).
    rewrite Z.rem_mul_r, (Z.mul_comm (2 ^ e)), <- Z.add_assoc, (Z.add_comm _ (t - 1)), Z.add_assoc, Z.mod_add by lia.
    rewrite Zplus_mod_idemp_l. f_equal. lia.
Qed.

End History.

(** ** The theorems *)

Section Theorems.
  Context {H : Type} `{SegmentHandlerLaws H} (sizeofT sizeofX : Z).
  Context (numberOfObjs maxNumberOfObjs poolNum : Z) (pHandler : bool).
  Context (HpoolNum : 0 <= poolNum < 256) (Hmax : 0 <= maxNumberOfObjs).
  Context (Hobjs : 2 <= numberOfObjs / pool_count poolNum < 4294967296).
  Context (g : utilSegmentManager).
  Context (Hinit : smgr_init numberOfObjs maxNumberOfObjs poolNum pHandler segmentManager_new
                   = Some (SDB_OK, g)).

Lemma init_facts m : exists frs, mgr_ok m g frs /\ (forall idx a, ~ held g frs idx a) /\ all_spare g.
Proof using All.
  destruct (smgr_init_ok m numberOfObjs maxNumberOfObjs poolNum pHandler) as
    (g' & E & _ & Hok & _ & Hsp & _ & Hn); try done. rewrite Hinit in E. injection E as <-.
  eexists. split; [done|]. split; [|done]. intros idx a (i & p & fr & j & Hp & _ & [Hj _] & _).
  rewrite (Hn i p Hp) in Hj. lia.
Qed.

(** C14: In every history of a manager that was set up with at least two objects
    per segment ([numberOfObjs] over the number of pools), whatever the allocator
    and the handler answer: an operation clients may ask for is defined (no access outside of
    the lists or to a deleted segment); [acquire] hands out an object nobody
    holds, or reports a lack of memory or a limit; [release], by index or by
    address, takes an object back, or refuses it where its pool has no spare
    object; and the objects held have different addresses, whose headers are
    in live memory, marked as acquired and with the object's index. *)
Theorem segment_objects_exclusive m (h : H) s op :
  seg_reach sizeofT sizeofX (fun _ => True) g m h s -> seg_allowed op s ->
  exists rc s', seg_run sizeofT sizeofX op s = Some (rc, s') /\ seg_result op s rc s' /\
    (forall idx idx' a, s'.2 !! idx = Some a -> s'.2 !! idx' = Some a -> idx = idx') /\
    (forall idx a, s'.2 !! idx = Some a ->
       load (ms_mem s'.1) a = Some (mkObjX SEGMENT_OBJ_EYE_CATCHER SEGMENT_OBJ_FLAG_ACQUIRED idx)).
Proof using All.
  intros Hr Ha. destruct (init_facts m) as (frs & Hok & Hno & _).
  destruct (reach_ok sizeofT sizeofX _ g m h s frs Hr Hok Hno) as [Hs _].
  destruct (hist_step sizeofT sizeofX op s Hs Ha) as (rc & s' & E & (frs' & Hok' & Hout) & Hres & _).
  exists rc, s'. split; [done|]. split; [done|]. split.
  - intros idx idx' a Hx%Hout Hy%Hout. by eapply held_addr_inj.
  - intros idx a Hx%Hout. destruct (held_load _ _ _ _ _ Hok' Hx) as
      (i & p & fr & j & _ & _ & _ & _ & _ & _ & _ & -> & _ & ->). done.
Qed.

(** C15: In a manager that was set up with at least two objects per segment
    ([numberOfObjs] over the number of pools), and as long as [shrink] is always
    told to keep a segment, every object that was handed out can be given back.
    Both conditions are needed: [segment_single_refused] is a manager with one
    object per segment, C39 a shrink that keeps none. *)
Theorem segment_release_succeeds m (h : H) s idx :
  seg_reach sizeofT sizeofX seg_keeps g m h s -> is_Some (s.2 !! idx) ->
  exists s', seg_run sizeofT sizeofX (SRelease idx) s = Some (SDB_OK, s') /\
    seg_run sizeofT sizeofX (SReleaseAddr idx) s = Some (SDB_OK, s') /\ s'.2 = delete idx s.2.
Proof using All.
  intros Hr Ha. destruct (init_facts m) as (frs & Hok & Hno & Hsp).
  destruct (reach_ok sizeofT sizeofX _ g m h s frs Hr Hok Hno) as [Hs Hspare].
  specialize (Hspare (fun _ Hx => Hx) Hsp).
  destruct (hist_release sizeofT sizeofX idx s Hs Ha) as (E & rc & s' & E' & _ & Hres & _).
  rewrite E, E'. destruct Hres as [[-> Hd]|(_ & _ & Hns)]; [by exists s'|]. exfalso. apply Hns.
  destruct Hs as (frs' & Hok' & Hout), Ha as [a Ha]. apply Hout in Ha.
  destruct (held_load _ _ _ _ _ Hok' Ha) as (i & p & fr & j & Hp & Hf & Hpo & _ & _ & Hu & _ & -> & _).
  pose proof (po_num_le _ _ _ Hpo). pose proof (proj1 Hu).
  intros q Hq. rewrite idx_of_div, Nat2Z.id in Hq by lia. simplify_eq.
  destruct (Hspare i p Hp) as [?|E0]; [done|]. by apply (begin_zero Hpo) in Hu.
Qed.

(** [acquire] reports the limit only when every pool of the manager has
    reached its own, or the handler refuses another segment: it tries them
    all (here with no pool being shrunk at the same time). *)
Theorem segment_acquire_limit m (h : H) s os rc s' :
  seg_reach sizeofT sizeofX (fun _ => True) g m h s ->
  (forall k, (os k).1 = 0 /\ fresh_segment (os k).2 (ms_mem s.1)) ->
  seg_run sizeofT sizeofX (SAcquire os) s = Some (rc, s') -> rc = SDB_OSS_UP_TO_LIMIT ->
  forall i p, (i < Z.to_nat (sm_poolNum (ms_mgr s.1)))%nat -> sm_pool (ms_mgr s.1) !! i = Some p ->
    pool_full sizeofX (ms_handler s.1) p.
Proof using All.
  intros Hr Hos E -> i p Hi Hp. destruct (init_facts m) as (frs & Hok & Hno & _).
  destruct (reach_ok sizeofT sizeofX _ g m h s frs Hr Hok Hno) as [(frs' & Hok' & _) _].
  destruct s as [[m' h' g'] out]. cbn [fst snd ms_mem ms_mgr ms_handler] in *.
  pose proof (poolNum_range Hok') as Hn. cbn [seg_run] in E. unfold smgr_acquire in E. cbn [ms_mgr] in E.
  destruct (acquire_loop _ _ _ _ _) as [[[rc o] s1]|] eqn:El; [|discriminate].
  cbn [mbind option_bind] in E. injection E as -> _.
  pose proof (Z.mod_pos_bound (Z.of_nat i - sm_round g') (sm_poolNum g') ltac:(lia)) as Hb.
  destruct (acquire_loop_limit sizeofX os m' h' frs' _ _ _ _ _ _ Hok' Hos El eq_refl
    ((Z.of_nat i - sm_round g') mod sm_poolNum g')) as (q & Hq & Hfull); [lia|].
  rewrite Zplus_mod_idemp_r in Hq. replace (sm_round g' + (Z.of_nat i - sm_round g')) with (Z.of_nat i) in Hq by lia.
  rewrite Z.mod_small, Nat2Z.id in Hq by lia. by simplify_eq.
Qed.

End Theorems.
