(* ===== verification/UtilMemPool.v ===== *)
(** * The memory pool: [_utilMemBlockPool]
    (src/src/util/utilMemBlockPool.cpp, src/src/include/utilMemBlockPool.hpp)

    Blocks of up to 8192 bytes, ten of them for a header and a trailer, come
    from nine managers of objects of fixed size; the others, and those the
    managers have no room for, from [SDB_OSS_MALLOC].  The header says where a
    block is from, which is how it is given back.

    A block is the object it lives in or the result of an allocation; its
    bytes are kept with its capacity, and an access outside of it is undefined
    ([None]).  What the allocator answers is an argument. *)
From S2P Require Import Prelude.
From S2P Require Import ByteBits.
From S2P Require Import OssBase.
From S2P Require Import UtilBitmap.
From S2P Require Import UtilSegment.
From S2P Require Import UtilSegmentMgr.

Definition UTIL_MEM_A_SMALL_BLOCK_SIZE : Z := 524288.
Definition UTIL_MEM_A_MID_BLOCK_SIZE : Z := 2097152.
Definition UTIL_MEM_A_BIG_BLOCK_SIZE : Z := 4194304.
Definition UTIL_MEM_A_SMALL_BLOCK_SUBPOOL_NUM : Z := 8.
Definition UTIL_MEM_A_MID_BLOCK_SUBPOOL_NUM : Z := 4.
Definition UTIL_MEM_A_BIG_BLOCK_SUBPOOL_NUM : Z := 2.
Definition UTIL_MEM_B_EYE_CHAR : Z := 48696.
Definition UTIL_MEM_E_EYE_CHAR : Z := 44114.
Definition UTIL_MEM_TOTAL_FILL_LEN : Z := 10.
Definition UTIL_MEM_HEAD_FILL_LEN : Z := 8.

(** [(UINT32)sz + UTIL_MEM_TOTAL_FILL_LEN], stored in a [UINT32]. *)
Definition UTIL_MEM_SIZE_2_REALSIZE (sz : Z) : Z := u32 (sz + UTIL_MEM_TOTAL_FILL_LEN).

Inductive MEMBLOCKPOOL_TYPE :=
| TYPE_DYN | TYPE_32 | TYPE_64 | TYPE_128 | TYPE_256 | TYPE_512
| TYPE_1024 | TYPE_2048 | TYPE_4096 | TYPE_8192.

#[global] Instance memtype_eq_dec : EqDecision MEMBLOCKPOOL_TYPE.
Proof. solve_decision. Defined.

(** The numbers of the enumeration. *)
Definition type_val (t : MEMBLOCKPOOL_TYPE) : Z :=
  match t with
  | TYPE_DYN => 1 | TYPE_32 => 2 | TYPE_64 => 3 | TYPE_128 => 4 | TYPE_256 => 5
  | TYPE_512 => 6 | TYPE_1024 => 7 | TYPE_2048 => 8 | TYPE_4096 => 9 | TYPE_8192 => 10
  end.

(** The types that have a manager, in the order of the enumeration. *)
Definition pool_types : list MEMBLOCKPOOL_TYPE :=
  [TYPE_32; TYPE_64; TYPE_128; TYPE_256; TYPE_512; TYPE_1024; TYPE_2048; TYPE_4096; TYPE_8192].

Definition val_type (v : Z) : option MEMBLOCKPOOL_TYPE :=
  if (v <? 1) then None else (TYPE_DYN :: pool_types) !! Z.to_nat (v - 1).

Definition type2Size (t : MEMBLOCKPOOL_TYPE) : Z :=
  match t with
  | TYPE_DYN => 0 | TYPE_32 => 32 | TYPE_64 => 64 | TYPE_128 => 128 | TYPE_256 => 256
  | TYPE_512 => 512 | TYPE_1024 => 1024 | TYPE_2048 => 2048 | TYPE_4096 => 4096
  | TYPE_8192 => 8192
  end.

(** The type of a size; its counter is the one with the number of the type. *)
Definition size2MemType (size : Z) : MEMBLOCKPOOL_TYPE :=
  if size <=? 32 then TYPE_32
  else if size <=? 64 then TYPE_64
  else if size <=? 128 then TYPE_128
  else if size <=? 256 then TYPE_256
  else if size <=? 512 then TYPE_512
  else if size <=? 1024 then TYPE_1024
  else if size <=? 2048 then TYPE_2048
  else if size <=? 4096 then TYPE_4096
  else if size <=? 8192 then TYPE_8192
  else TYPE_DYN.

(** Place of the manager of a type. *)
Definition type_slot (t : MEMBLOCKPOOL_TYPE) : nat := Z.to_nat (type_val t - 2).

(** [sizeof( _objX )] for an array of [CHAR] of the type's size. *)
Definition objX_size (t : MEMBLOCKPOOL_TYPE) : Z := type2Size t + 8.

(** ** The pool as the handler of its managers *)

Record memHandler := mkHandler { mh_maxSize : Z; mh_totalSize : Z }.

Definition mem_canAllocSegment (h : memHandler) (size : Z) : bool :=
  negb (mh_maxSize h <=? u64 (mh_totalSize h + size)).

Definition mem_onAllocSegment (h : memHandler) (size : Z) : memHandler :=
  mkHandler (mh_maxSize h) (u64 (mh_totalSize h + size)).

Definition mem_onReleaseSegment (h : memHandler) (size : Z) : memHandler :=
  mkHandler (mh_maxSize h) (u64 (mh_totalSize h - size)).

Definition mem_canShrink (h : memHandler) (blockSize totalSize usedSize : Z) : bool :=
  if (mh_maxSize h =? 0) || (mh_maxSize h <=? mh_totalSize h) then true
  else if 0 <? totalSize then negb (ratio_reached usedSize totalSize)
  else false.

#[global] Instance mem_SegmentHandler : SegmentHandler memHandler := {|
  canAllocSegment := mem_canAllocSegment;
  onAllocSegment := mem_onAllocSegment;
  onReleaseSegment := mem_onReleaseSegment;
  canShrink := mem_canShrink
|}.

(** ** Blocks *)

Inductive blk := BObj (a : objptr) | BDyn (a : Z).

#[global] Instance blk_eq_dec : EqDecision blk.
Proof. solve_decision. Defined.

#[global] Instance blk_countable : Countable blk.
Proof.
  apply (inj_countable' (fun b => match b with BObj a => inl a | BDyn a => inr a end)
    (fun s => match s with inl a => BObj a | inr a => BDyn a end)).
  by intros [].
Defined.

Record block := mkBlock { bk_cap : Z; bk_data : bytes }.

Definition u16_bytes (x : Z) : list Z := [x mod 256; (x / 256) mod 256].

Definition bytes_u16 (l : list Z) : Z :=
  match l with b0 :: b1 :: _ => b0 + b1 * 256 | _ => 0 end.

(** Reads and writes of [n] bytes at [off]. *)
Definition blk_read (b : block) (off n : Z) : option (list Z) :=
  if (0 <=? off) && (off + n <=? bk_cap b)
  then Some (read_bytes (bk_data b) off (Z.to_nat n)) else None.

Definition blk_write (b : block) (off : Z) (l : list Z) : option block :=
  if (0 <=? off) && (off + Z.of_nat (length l) <=? bk_cap b)
  then Some (mkBlock (bk_cap b) (write_bytes (bk_data b) off l)) else None.

Definition fillPtr (b : block) (type size : Z) : option block :=
  b ← blk_write b 0 (u16_bytes UTIL_MEM_B_EYE_CHAR);
  b ← blk_write b (size - 2) (u16_bytes UTIL_MEM_E_EYE_CHAR);
  b ← blk_write b 2 (u32_bytes size);
  blk_write b 6 (u16_bytes type).

(** [_checkAndExtract]: the user size and the type, or [Some None] when the
    block does not look like one of the pool's. *)
Definition checkAndExtract (b : block) : option (option (Z * MEMBLOCKPOOL_TYPE)) :=
  eye ← blk_read b 0 2;
  if negb (bytes_u16 eye =? UTIL_MEM_B_EYE_CHAR) then Some None
  else
    ty ← blk_read b 6 2;
    sz ← blk_read b 2 4;
    let size := bytes_u32 sz in
    match val_type (bytes_u16 ty) with
    | None => Some None
    | Some t =>
        if size <? UTIL_MEM_TOTAL_FILL_LEN then Some None
        else if negb (bool_decide (t = TYPE_DYN)) && negb (size =? type2Size t) then Some None
        else
          e ← blk_read b (size - 2) 2;
          if negb (bytes_u16 e =? UTIL_MEM_E_EYE_CHAR) then Some None
          else Some (Some (size - UTIL_MEM_TOTAL_FILL_LEN, t))
    end.

(** ** The pool *)

Record memPool := mkMemPool {
  mp_mem : segments;
  mp_handler : memHandler;
  mp_mgrs : list (option utilSegmentManager);
  mp_counts : list Z;
  mp_blocks : gmap blk block
}.

Definition memPool_new : memPool :=
  mkMemPool ∅ (mkHandler 0 0) (replicate 9 None) (replicate 9 0) ∅.

Definition set_mgr (s : memPool) (slot : nat) (ms : mgr_state memHandler) : memPool :=
  mkMemPool (ms_mem ms) (ms_handler ms) (<[slot := Some (ms_mgr ms)]> (mp_mgrs s))
    (mp_counts s) (mp_blocks s).

Definition set_blocks (s : memPool) (x : gmap blk block) : memPool :=
  mkMemPool (mp_mem s) (mp_handler s) (mp_mgrs s) (mp_counts s) x.

Definition with_mgr (s : memPool) (g : utilSegmentManager) : mgr_state memHandler :=
  mkMgrState (mp_mem s) (mp_handler s) g.

(** The block a pointer leads to; the segment of an object must be live. *)
Definition get_block (s : memPool) (p : blk) : option block :=
  match p with
  | BObj a => _ ← load (mp_mem s) a; mp_blocks s !! p
  | BDyn _ => mp_blocks s !! p
  end.

(** What the answers of the allocator are for [alloc]: to the managers it
    tries, and to itself. *)
Record alloc_os := mkAllocOs {
  ao_mgr : nat -> nat -> Z * pool_os;
  ao_malloc : option Z
}.

(** The [switch] of [alloc]: from the manager of the type on, [level] of them
    are tried; the result is the object and its type. *)
Fixpoint try_managers (os : nat -> nat -> Z * pool_os) (types : list MEMBLOCKPOOL_TYPE)
    (level : nat) (s : memPool) : option (option (objptr * MEMBLOCKPOOL_TYPE) * memPool) :=
  match level, types with
  | S level, t :: types =>
      match mp_mgrs s !! type_slot t with
      | Some (Some g) =>
          '(rc, out, ms) ← smgr_acquire (objX_size t) (os level) (with_mgr s g);
          let s := set_mgr s (type_slot t) ms in
          match out with
          | Some (_, Some a) =>
              if rc =? SDB_OK then Some (Some (a, t), s) else try_managers os types level s
          | _ => try_managers os types level s
          end
      | _ => try_managers os types level s
      end
  | _, _ => Some (None, s)
  end.

Definition UTIL_MEM_ALLOC_MAX_TRY_LEVEL : nat := 2.

(** The types from [t] on. *)
Definition types_from (t : MEMBLOCKPOOL_TYPE) : list MEMBLOCKPOOL_TYPE :=
  match t with TYPE_DYN => [] | _ => drop (type_slot t) pool_types end.

(** [alloc]: the block, and the size that is written through [pRealSize]. *)
Definition mem_alloc (os : alloc_os) (size : Z) (s : memPool)
    : option (option blk * option Z * memPool) :=
  if size =? 0 then Some (None, Some 0, s)
  else
    let realSize := UTIL_MEM_SIZE_2_REALSIZE size in
    let type := size2MemType realSize in
    '(found, s) ← if 0 <? mh_maxSize (mp_handler s)
                  then try_managers (ao_mgr os) (types_from type) UTIL_MEM_ALLOC_MAX_TRY_LEVEL s
                  else Some (None, s);
    match found with
    | Some (a, t) =>
        b ← fillPtr (mkBlock (type2Size t) ∅) (type_val t) (type2Size t);
        Some (Some (BObj a), Some (u32 (type2Size t - UTIL_MEM_TOTAL_FILL_LEN)),
              set_blocks s (<[BObj a := b]> (mp_blocks s)))
    | None =>
        match (if realSize =? 0 then None else ao_malloc os) with
        | None => Some (None, None, s)
        | Some p =>
            b ← fillPtr (mkBlock realSize ∅) (type_val TYPE_DYN) realSize;
            Some (Some (BDyn p), Some (u32 (realSize - UTIL_MEM_TOTAL_FILL_LEN)),
                  mkMemPool (mp_mem s) (mp_handler s) (mp_mgrs s)
                    (if bool_decide (type = TYPE_DYN) then mp_counts s
                     else alter (fun n => u64 (n + 1)) (type_slot type) (mp_counts s))
                    (<[BDyn p := b]> (mp_blocks s)))
        end
    end.

(** [release]: the pointer after it ([None]: set to null). *)
Definition mem_release (ptr : option blk) (s : memPool) : option (option blk * memPool) :=
  match ptr with
  | None => Some (None, s)
  | Some p =>
      b ← get_block s p;
      r ← checkAndExtract b;
      '(_, t) ← r;
      match t, p with
      | TYPE_DYN, BDyn _ => Some (None, set_blocks s (delete p (mp_blocks s)))
      | TYPE_DYN, _ => None
      | _, BObj a =>
          g ← mp_mgrs s !! type_slot t;
          g ← g;
          '(rc, ms) ← smgr_release_addr (Some a) (with_mgr s g);
          Some (if rc =? SDB_OK then None else ptr, set_mgr s (type_slot t) ms)
      | _, _ => None
      end
  end.

(** [ossMemcpy] of the user data, [n] bytes. *)
Definition copy_user (s : memPool) (dst src : blk) (n : Z) : option memPool :=
  b ← get_block s src;
  l ← blk_read b UTIL_MEM_HEAD_FILL_LEN n;
  d ← get_block s dst;
  d ← blk_write d UTIL_MEM_HEAD_FILL_LEN l;
  Some (set_blocks s (<[dst := d]> (mp_blocks s))).

(** [realloc]: the new pointer.  A dynamic block is handed to
    [SDB_OSS_REALLOC], which keeps the bytes it has. *)
Definition mem_realloc (os : alloc_os) (ptr : option blk) (size : Z) (s : memPool)
    : option (option blk * memPool) :=
  if size =? 0 then Some (ptr, s)
  else
    match ptr with
    | None => '(r, _, s) ← mem_alloc os size s; Some (r, s)
    | Some p =>
        b ← get_block s p;
        r ← checkAndExtract b;
        '(oldUserSize, oldType) ← r;
        if size <=? oldUserSize then Some (ptr, s)
        else
          match oldType, p with
          | TYPE_DYN, BDyn _ =>
              let newRealSize := UTIL_MEM_SIZE_2_REALSIZE size in
              match (if newRealSize =? 0 then None else ao_malloc os) with
              | None => Some (None, s)
              | Some q =>
                  b' ← fillPtr (mkBlock newRealSize (bk_data b)) (type_val TYPE_DYN) newRealSize;
                  Some (Some (BDyn q), set_blocks s (<[BDyn q := b']> (delete p (mp_blocks s))))
              end
          | TYPE_DYN, _ => None
          | _, _ =>
              '(r, _, s) ← mem_alloc os size s;
              match r with
              | None => Some (None, s)
              | Some q =>
                  s ← copy_user s q p oldUserSize;
                  '(_, s) ← mem_release ptr s;
                  Some (Some q, s)
              end
          end
    end.

(** ** Setting up and giving back *)

(** The block sizes and numbers of pools of the types. *)
Definition type_blocks (t : MEMBLOCKPOOL_TYPE) : Z * Z :=
  match t with
  | TYPE_32 | TYPE_64 | TYPE_128 =>
      (UTIL_MEM_A_SMALL_BLOCK_SIZE, UTIL_MEM_A_SMALL_BLOCK_SUBPOOL_NUM)
  | TYPE_256 | TYPE_512 | TYPE_1024 =>
      (UTIL_MEM_A_MID_BLOCK_SIZE, UTIL_MEM_A_MID_BLOCK_SUBPOOL_NUM)
  | _ => (UTIL_MEM_A_BIG_BLOCK_SIZE, UTIL_MEM_A_BIG_BLOCK_SUBPOOL_NUM)
  end.

(** The manager of one type; [os]: there is memory for the object. *)
Definition new_mgr (os : bool) (maxSize : Z) (t : MEMBLOCKPOOL_TYPE)
    : option (option utilSegmentManager) :=
  if os
  then
    let '(size, pools) := type_blocks t in
    '(rc, g) ← smgr_init (size * pools / type2Size t)
                 (Z.shiftr maxSize 3 / type2Size t) pools true segmentManager_new;
    Some (if rc =? SDB_OK then Some g else None)
  else Some None.

Definition mem_init (os : MEMBLOCKPOOL_TYPE -> bool) (maxSize : Z) (s : memPool) : option memPool :=
  mgrs ← mapM (fun t => new_mgr (os t) maxSize t) pool_types;
  Some (mkMemPool (mp_mem s) (mkHandler maxSize (mh_totalSize (mp_handler s))) mgrs
          (mp_counts s) (mp_blocks s)).

Definition mem_setMaxSize (maxSize : Z) (s : memPool) : memPool :=
  mkMemPool (mp_mem s) (mkHandler maxSize (mh_totalSize (mp_handler s)))
    (imap (fun i g => smgr_setMaxObjects
             (Z.shiftr maxSize 3 / type2Size (nth i pool_types TYPE_DYN)) <$> g) (mp_mgrs s))
    (mp_counts s) (mp_blocks s).

Definition getTotalSize (s : memPool) : Z := mh_totalSize (mp_handler s).

(** The segments [shrink] keeps of a type. *)
Definition shrink_keep (t : MEMBLOCKPOOL_TYPE) (isFull : bool) : Z :=
  match t with
  | TYPE_1024 | TYPE_2048 | TYPE_4096 | TYPE_8192 => 0
  | _ => if isFull then 0 else 1
  end.

Fixpoint shrink_types (os : MEMBLOCKPOOL_TYPE -> Z -> pool_os) (isFull : bool)
    (types : list MEMBLOCKPOOL_TYPE) (s : memPool) : option memPool :=
  match types with
  | [] => Some s
  | t :: types =>
      match mp_mgrs s !! type_slot t with
      | Some (Some g) =>
          '(_, _, ms) ← smgr_shrink (type2Size t) (objX_size t) (os t)
                          (shrink_keep t isFull) (with_mgr s g);
          shrink_types os isFull types (set_mgr s (type_slot t) ms)
      | _ => shrink_types os isFull types s
      end
  end.

Definition mem_shrink (os : MEMBLOCKPOOL_TYPE -> Z -> pool_os) (s : memPool) : option memPool :=
  let isFull := (mh_maxSize (mp_handler s) =? 0)
                || (mh_maxSize (mp_handler s) <=? mh_totalSize (mp_handler s)) in
  shrink_types os isFull pool_types s.

Fixpoint fini_types (types : list MEMBLOCKPOOL_TYPE) (s : memPool) : option memPool :=
  match types with
  | [] => Some s
  | t :: types =>
      match mp_mgrs s !! type_slot t with
      | Some (Some g) =>
          ms ← smgr_fini (objX_size t) (with_mgr s g);
          fini_types types
            (mkMemPool (ms_mem ms) (ms_handler ms) (<[type_slot t := None]> (mp_mgrs s))
               (mp_counts s) (mp_blocks s))
      | _ => fini_types types s
      end
  end.

Definition mem_fini (s : memPool) : option memPool := fini_types pool_types s.
