(* ===== verification/UtilMemPoolOk.v ===== *)
(** * The invariant of the memory pool

    Headers of blocks: what [_fillPtr] writes, [_checkAndExtract] reads back,
    and what the user writes between the header and the trailer does not
    disturb them.  [mgrs_ok s frs]: the managers of the nine types are well
    formed, share no segment, and the total the pool keeps is the number of
    bytes of their segments.  [blocks_ok]: every block in use has its header in
    order. *)
From S2P Require Import Prelude.
From S2P Require Import ByteBits.
From S2P Require Import OssBase.
From S2P Require Import UtilSegment.
From S2P Require Import UtilSegmentMgr.
From S2P Require Import UtilMemPool.
From S2P Require Import UtilBitmap.
From S2P Require Import UtilSegmentOk.
From S2P Require Import UtilSegmentShrink.
From S2P Require Import UtilSegmentMgrOk.
From S2P Require Import UtilSegmentHist.

(** ** Headers of blocks *)

Lemma read_write_other d a l b n :
  b + Z.of_nat n <= a \/ a + Z.of_nat (length l) <= b ->
  read_bytes (write_bytes d a l) b n = read_bytes d b n.
Proof.
  intros Hd. apply read_bytes_ext. intros j Hj. rewrite byte_at_write_bytes.
  by rewrite decide_False by lia.
Qed.

Lemma bytes_u16_bytes x : 0 <= x < 65536 -> bytes_u16 (u16_bytes x) = x.
Proof.
  intros Hx. unfold bytes_u16, u16_bytes.
  pose proof (Z.div_mod x 256 ltac:(lia)). rewrite (Z.mod_small (x / 256)); [lia|].
  split; [apply Z.div_pos; lia|apply Z.div_lt_upper_bound; lia].
Qed.

(** The header and the trailer of a block of [size] bytes. *)
Record header_bytes (d : bytes) (t : MEMBLOCKPOOL_TYPE) (size : Z) : Prop := {
  hb_eye : read_bytes d 0 2 = u16_bytes UTIL_MEM_B_EYE_CHAR;
  hb_size : read_bytes d 2 4 = u32_bytes size;
  hb_type : read_bytes d 6 2 = u16_bytes (type_val t);
  hb_end : read_bytes d (size - 2) 2 = u16_bytes UTIL_MEM_E_EYE_CHAR
}.

(** A block whose header is in order; the size of a pooled block is that of
    its type. *)
Record block_ok (b : block) (t : MEMBLOCKPOOL_TYPE) (size : Z) : Prop := {
  bo_cap : bk_cap b = size;
  bo_size : 10 <= size < 4294967296;
  bo_type : t = TYPE_DYN \/ size = type2Size t;
  bo_header : header_bytes (bk_data b) t size
}.

Lemma val_type_val t : val_type (type_val t) = Some t.
Proof. by destruct t. Qed.

Lemma type_val_range t : 0 <= type_val t < 65536.
Proof. destruct t; simpl; lia. Qed.

Lemma blk_read_in b off n :
  0 <= off -> off + n <= bk_cap b -> blk_read b off n = Some (read_bytes (bk_data b) off (Z.to_nat n)).
Proof.
  intros. unfold blk_read. destruct (Z.leb_spec 0 off); [|lia].
  by destruct (Z.leb_spec (off + n) (bk_cap b)); [|lia].
Qed.

Lemma blk_write_in b off l :
  0 <= off -> off + Z.of_nat (length l) <= bk_cap b ->
  blk_write b off l = Some (mkBlock (bk_cap b) (write_bytes (bk_data b) off l)).
Proof.
  intros. unfold blk_write. destruct (Z.leb_spec 0 off); [|lia].
  by destruct (Z.leb_spec (off + Z.of_nat (length l)) (bk_cap b)); [|lia].
Qed.

(** The check of a good block gives its user size and its type. *)
Lemma checkAndExtract_ok b t size :
  block_ok b t size -> checkAndExtract b = Some (Some (size - 10, t)).
Proof.
  intros [Hc Hs Ht [He Hz Hy Hn]]. unfold checkAndExtract.
  rewrite !blk_read_in by lia. change (Z.to_nat 2) with 2%nat. change (Z.to_nat 4) with 4%nat.
  cbn [mbind option_bind]. rewrite He, Hz, Hy. rewrite !bytes_u16_bytes by (done || apply type_val_range).
  rewrite Z.eqb_refl. cbn [negb mbind option_bind]. rewrite bytes_u32_bytes, val_type_val by lia.
  unfold UTIL_MEM_TOTAL_FILL_LEN. destruct (Z.ltb_spec size 10); [lia|].
  assert (negb (bool_decide (t = TYPE_DYN)) && negb (size =? type2Size t) = false) as ->.
  { destruct Ht as [->| ->]; [by rewrite bool_decide_eq_true_2|]. rewrite Z.eqb_refl. apply andb_false_r. }
  rewrite blk_read_in by lia. change (Z.to_nat 2) with 2%nat. cbn [mbind option_bind].
  rewrite Hn. rewrite bytes_u16_bytes by done. by rewrite Z.eqb_refl.
Qed.

(** [_fillPtr] makes a good block of any bytes, and leaves the user's alone. *)
Lemma fillPtr_ok cap d t size :
  cap = size -> 10 <= size < 4294967296 -> t = TYPE_DYN \/ size = type2Size t ->
  exists b, fillPtr (mkBlock cap d) (type_val t) size = Some b /\ block_ok b t size /\
    forall j, 8 <= j < size - 2 -> byte_at (bk_data b) j = byte_at d j.
Proof.
  intros -> Hs Ht. unfold fillPtr.
  rewrite blk_write_in by (cbn; lia). cbn [mbind option_bind bk_cap bk_data].
  rewrite blk_write_in by (cbn; lia). cbn [mbind option_bind bk_cap bk_data].
  rewrite blk_write_in by (cbn; lia). cbn [mbind option_bind bk_cap bk_data].
  rewrite blk_write_in by (cbn; lia). cbn [mbind option_bind bk_cap bk_data].
  eexists. split; [done|]. split.
  - split; try done. cbn [bk_data].
    split; repeat (rewrite read_write_other by (cbn; lia)); apply read_write_bytes.
  - intros j Hj. cbn [bk_data]. rewrite !byte_at_write_bytes. cbn [length u16_bytes u32_bytes].
    by rewrite !decide_False by lia.
Qed.

(** Writes of the user stay between the header and the trailer. *)
Lemma block_ok_write b t size off l :
  block_ok b t size -> 0 <= off -> off + Z.of_nat (length l) <= size - 10 ->
  exists b', blk_write b (8 + off) l = Some b' /\ block_ok b' t size /\
    bk_data b' = write_bytes (bk_data b) (8 + off) l.
Proof.
  intros [Hc Hs Ht [He Hz Hy Hn]] Ho Hl. rewrite blk_write_in by lia.
  eexists. split; [done|]. split; [|done]. split; try done. cbn [bk_data].
  split; rewrite read_write_other by lia; done.
Qed.

(** The bytes of the user. *)
Definition user_bytes (b : block) : list Z :=
  read_bytes (bk_data b) 8 (Z.to_nat (bk_cap b - 10)).

Lemma length_user_bytes b t size :
  block_ok b t size -> Z.of_nat (length (user_bytes b)) = size - 10.
Proof. intros []. unfold user_bytes. rewrite length_read_bytes. lia. Qed.

(** ** The managers and the blocks *)

#[global] Instance mem_SegmentHandlerLaws : SegmentHandlerLaws memHandler := {|
  handler_size := mh_totalSize;
  handler_size_alloc := fun h x => eq_refl;
  handler_size_release := fun h x => eq_refl
|}.

(** ** Types and their places *)

Lemma type_slot_inj t u : t ∈ pool_types -> u ∈ pool_types -> type_slot t = type_slot u -> t = u.
Proof.
  intros Ht Hu E. unfold pool_types in *. repeat setoid_rewrite elem_of_cons in Ht.
  destruct t; destruct u; done || (exfalso; set_solver).
Qed.

Lemma type_slot_lt t : t ∈ pool_types -> (type_slot t < 9)%nat.
Proof. intros. destruct t; vm_compute; lia. Qed.

Lemma NoDup_pool_types : NoDup pool_types.
Proof. apply (bool_decide_unpack _). vm_compute. done. Qed.

Lemma sumZ_map_update {A} (f g : A -> Z) (l : list A) x :
  NoDup l -> x ∈ l -> (forall y, y ∈ l -> y <> x -> f y = g y) ->
  sumZ (map g l) = sumZ (map f l) - f x + g x.
Proof.
  induction l as [|y l IH]; intros Hnd Hx Hfg; [set_solver|]. apply NoDup_cons in Hnd as [Hy Hnd].
  simpl. apply elem_of_cons in Hx as [->|Hx].
  - assert (map g l = map f l) as ->; [|lia].
    apply list_fmap_ext. intros i z Hz%list_elem_of_lookup_2. symmetry. apply Hfg; [by right|].
    intros ->. done.
  - rewrite IH; [|done|done|]. 2:{ intros z Hz Hne. apply Hfg; [by right|done]. }
    rewrite (Hfg y); [lia|left|]. intros ->. done.
Qed.

(** ** Managers *)

Definition mgr_at (s : memPool) (t : MEMBLOCKPOOL_TYPE) (g : utilSegmentManager) : Prop :=
  t ∈ pool_types /\ mp_mgrs s !! type_slot t = Some (Some g).

Definition type_bytes (s : memPool) (t : MEMBLOCKPOOL_TYPE) : Z :=
  match mp_mgrs s !! type_slot t with
  | Some (Some g) => mgr_bytes (objX_size t) g
  | _ => 0
  end.

(** The bytes of all segments. *)
Definition all_bytes (s : memPool) : Z := sumZ (map (type_bytes s) pool_types).

Definition frees : Type := MEMBLOCKPOOL_TYPE -> list (list Z).

Definition set_free (frs : frees) (t : MEMBLOCKPOOL_TYPE) (x : list (list Z)) : frees :=
  fun u => if decide (u = t) then x else frs u.

Record mgrs_ok (s : memPool) (frs : frees) : Prop := {
  gk_len : length (mp_mgrs s) = 9%nat;
  gk_mgr : forall t g, mgr_at s t g -> mgr_ok (mp_mem s) g (frs t) /\ all_handled g;
  gk_disjoint : forall t u g g' b, mgr_at s t g -> mgr_at s u g' ->
    b ∈ mgr_segs g -> b ∈ mgr_segs g' -> t = u;
  gk_total : getTotalSize s = u64 (all_bytes s)
}.

(** The objects of type [t] in use, by address. *)
Definition obj_live (s : memPool) (frs : frees) (t : MEMBLOCKPOOL_TYPE) (a : objptr) : Prop :=
  exists g idx, mgr_at s t g /\ held g (frs t) idx a.

Lemma mgr_ok_frame m m' g frs :
  mgr_ok m g frs -> (forall b, b ∈ mgr_segs g -> m' !! b = m !! b) -> mgr_ok m' g frs.
Proof.
  intros Hok Hm. pose proof (mo_pool _ _ _ Hok) as Hp. destruct Hok. split; try done.
  intros i p fr Hq Hf. destruct (Hp i p fr Hq Hf) as (? & ? & ?). split_and!; try done.
  eapply pool_ok_frame; [done|]. intros b Hb. apply Hm, elem_of_mgr_segs. by exists i, p.
Qed.

Lemma mgr_seg_live m g frs b : mgr_ok m g frs -> b ∈ mgr_segs g -> is_Some (m !! b).
Proof. intros Hok (i & p & Hp & Hb)%elem_of_mgr_segs. by eapply (seg_live Hok). Qed.

Lemma held_in_segs m g frs idx a : mgr_ok m g frs -> held g frs idx a -> a.1 ∈ mgr_segs g.
Proof.
  intros Hok Hh. destruct (held_load _ _ _ _ _ Hok Hh) as
    (i & p & fr & j & Hp & _ & Hpo & _ & _ & Hu & _ & _ & Ha & _).
  apply elem_of_mgr_segs. exists i, p. split; [done|].
  destruct (obj_addr_ok Hpo j (proj1 Hu)) as (seg & E & Hs & _). rewrite Ha in E. injection E as ->.
  by eapply list_elem_of_lookup_2.
Qed.

Section Step.
  Context {s : memPool} {frs : frees} (Hok : mgrs_ok s frs).
  Context {t : MEMBLOCKPOOL_TYPE} {g : utilSegmentManager} (Hg : mgr_at s t g).

(** The managers after a step of the one of type [t]. *)
Lemma mgr_at_set m' h' g' u x :
  mgr_at (set_mgr s (type_slot t) (mkMgrState m' h' g')) u x <->
  (u = t /\ x = g') \/ (u <> t /\ mgr_at s u x).
Proof using Hok Hg.
  destruct Hg as [Ht Hlk]. unfold mgr_at, set_mgr. cbn [mp_mgrs ms_mgr].
  pose proof (lookup_lt_Some _ _ _ Hlk). destruct (decide (u = t)) as [->|Hne].
  - rewrite list_lookup_insert_eq by done. naive_solver.
  - split.
    + intros [Hu Hx]. right. rewrite list_lookup_insert_ne in Hx; [done|].
      intros E. apply Hne. by apply type_slot_inj.
    + intros [[? _]|[_ [Hu Hx]]]; [done|]. split; [done|]. rewrite list_lookup_insert_ne; [done|].
      intros E. apply Hne. by apply type_slot_inj.
Qed.

Lemma mgrs_step m' h' g' fr' :
  mgr_ok m' g' fr' -> all_handled g' -> mgr_frame (mp_mem s) g m' g' ->
  uncounted (objX_size t) h' g' = uncounted (objX_size t) (mp_handler s) g ->
  0 <= mh_totalSize h' < 18446744073709551616 ->
  mgrs_ok (set_mgr s (type_slot t) (mkMgrState m' h' g')) (set_free frs t fr').
Proof using Hok Hg.
  intros Hok' Hh' [Hf1 Hf2] Hc Hr.
  assert (Hother : forall u x b, u <> t -> mgr_at s u x -> b ∈ mgr_segs x ->
    b ∉ mgr_segs g /\ b ∉ mgr_segs g').
  { intros u x b Hu Hx Hb. assert (b ∉ mgr_segs g) as Hb1.
    { intros Hb'. apply Hu. by eapply (gk_disjoint _ _ Hok). }
    split; [done|]. intros [?|E]%Hf2; [done|].
    destruct (gk_mgr _ _ Hok u x Hx) as [Hxo _].
    destruct (mgr_seg_live _ _ _ _ Hxo Hb) as [? E2]. congruence. }
  split.
  - cbn. rewrite length_insert. apply Hok.
  - intros u x [[-> ->]|[Hu Hx]]%mgr_at_set; unfold set_free; cbn [mp_mem set_mgr ms_mem].
    + by rewrite decide_True.
    + rewrite decide_False by done. destruct (gk_mgr _ _ Hok u x Hx) as [Hxo Hxh].
      split; [|done]. eapply mgr_ok_frame; [done|]. intros b Hb.
      destruct (Hother u x b Hu Hx Hb). by apply Hf1.
  - intros u v x y b [[-> ->]|[Hu Hx]]%mgr_at_set [[-> ->]|[Hv Hy]]%mgr_at_set Hb Hb'; try done.
    + by destruct (Hother v y b Hv Hy Hb').
    + by destruct (Hother u x b Hu Hx Hb).
    + by eapply (gk_disjoint _ _ Hok).
  - unfold all_bytes. destruct Hg as [Ht Hlk]. pose proof (lookup_lt_Some _ _ _ Hlk).
    rewrite (sumZ_map_update (type_bytes s) _ _ t NoDup_pool_types Ht).
    2:{ intros u Hu Hne. unfold type_bytes. cbn [mp_mgrs set_mgr].
        rewrite list_lookup_insert_ne; [done|]. intros E. apply Hne. by apply type_slot_inj. }
    unfold type_bytes at 2 3. rewrite Hlk. cbn [mp_mgrs set_mgr ms_mgr].
    rewrite list_lookup_insert_eq by done.
    pose proof (gk_total _ _ Hok) as Ht0. unfold uncounted, getTotalSize in *.
    cbn [mp_handler set_mgr ms_handler handler_size mem_SegmentHandlerLaws] in *.
    fold (all_bytes s) in *. rewrite <- (u64_id (mh_totalSize h')) at 1 by lia.
    set (b' := mgr_bytes (objX_size t) g') in *. set (b := mgr_bytes (objX_size t) g) in *.
    replace (mh_totalSize h') with (mh_totalSize h' - b' + b') by lia.
    rewrite <- u64_add_l, Hc, u64_add_l, Ht0.
    replace (u64 (all_bytes s) - b + b') with (u64 (all_bytes s) + (b' - b)) by lia.
    rewrite u64_add_l. f_equal. lia.
Qed.

(** What becomes of the objects in use. *)
Lemma obj_live_step m' h' g' fr' u a :
  obj_live (set_mgr s (type_slot t) (mkMgrState m' h' g')) (set_free frs t fr') u a <->
  (u = t /\ exists idx, held g' fr' idx a) \/ (u <> t /\ obj_live s frs u a).
Proof using Hok Hg.
  unfold obj_live. setoid_rewrite mgr_at_set. unfold set_free. split.
  - intros (x & idx & [[-> ->]|[Hu Hx]] & Hh).
    + rewrite decide_True in Hh by done. left. split; [done|by exists idx].
    + rewrite decide_False in Hh by done. right. split; [done|by exists x, idx].
  - intros [[-> [idx Hh]]|[Hu (x & idx & Hx & Hh)]].
    + exists g', idx. rewrite decide_True by done. auto.
    + exists x, idx. rewrite decide_False by done. auto.
Qed.

Lemma obj_live_here a : obj_live s frs t a <-> exists idx, held g (frs t) idx a.
Proof using Hg.
  unfold obj_live. split; [|intros [idx ?]; by exists g, idx].
  intros (g' & idx & [_ E] & Hh). destruct Hg as [_ E']. rewrite E in E'. simplify_eq. by exists idx.
Qed.

End Step.

(** Types of one address. *)
Lemma obj_live_type s frs t u a :
  mgrs_ok s frs -> obj_live s frs t a -> obj_live s frs u a -> t = u.
Proof.
  intros Hok (g & idx & Hg & Hh) (g' & idx' & Hg' & Hh').
  destruct (gk_mgr _ _ Hok t g Hg) as [Ho _]. destruct (gk_mgr _ _ Hok u g' Hg') as [Ho' _].
  eapply (gk_disjoint _ _ Hok _ _ _ _ a.1); [done|done| |]; by eapply held_in_segs.
Qed.

(** ** Steps of one manager *)

Lemma u64_range x : 0 <= u64 x < 18446744073709551616.
Proof. apply Z.mod_pos_bound. lia. Qed.

Lemma total_range s frs : mgrs_ok s frs -> 0 <= mh_totalSize (mp_handler s) < 18446744073709551616.
Proof. intros Hok. pose proof (gk_total _ _ Hok) as E. unfold getTotalSize in E. rewrite E. apply u64_range. Qed.

(** [acquire] of a manager counts its new segment. *)
Lemma acquire_counted X m h g frs os idx a m' h' g' frs' :
  mgr_ok m g frs -> all_handled g -> mgr_ok m' g' frs' ->
  0 <= mh_totalSize h < 18446744073709551616 ->
  (exists i p p' rd, 0 <= i < sm_poolNum g /\ sm_pool g !! Z.to_nat i = Some p /\
     g' = set_pool (set_round g rd) i p' /\ grown X m h h' p p' /\
     sp_delta p' = sp_delta p /\ sp_pHandler p' = sp_pHandler p /\
     mgr_frame m g m' g' /\ sp_begin p' < sp_numOfObjs p') ->
  smgr_acquire X os (mkMgrState m h g) = Some (SDB_OK, Some (idx, Some a), mkMgrState m' h' g') ->
  all_handled g' /\ uncounted X h' g' = uncounted X h g /\ mgr_frame m g m' g' /\
  0 <= mh_totalSize h' < 18446744073709551616.
Proof.
  intros Hok Hh Hok' Ht (i & p & p' & rd & Hi & Hp & -> & Hg & Hd & Hph & Hf & _) _.
  pose proof (poolNum_range Hok) as Hn.
  destruct (mgr_pool_at Hok (Z.to_nat i) ltac:(lia)) as (q & fr & Hq & _ & _ & _ & Hpo). simplify_eq.
  destruct (mgr_pool_at Hok' (Z.to_nat i) ltac:(cbn; lia)) as (q & fr' & Hq' & _ & _ & _ & Hpo').
  pose proof (lookup_lt_Some _ _ _ Hp) as Hlt.
  cbn in Hq'. rewrite list_lookup_insert_eq in Hq' by done. simplify_eq.
  pose proof (Hh (Z.to_nat i) p ltac:(lia) Hp) as Hhp. split; [|split; [|split; [done|]]].
  - intros k x Hk Hx. cbn in Hk, Hx. destruct (decide (k = Z.to_nat i)) as [->|Hne].
    + rewrite list_lookup_insert_eq in Hx by done. simplify_eq. congruence.
    + rewrite list_lookup_insert_ne in Hx by done. by eapply Hh.
  - pose proof (grown_counted X _ _ _ _ _ _ _ _ Hpo Hpo' Hd Hhp Hg) as Hc. unfold uncounted.
    rewrite <- (Z2Nat.id i) by lia. rewrite (mgr_bytes_step X g (Z.to_nat i) p) by done.
    cbn [handler_size mem_SegmentHandlerLaws] in *.
    rewrite <- (u64_sub_l (mh_totalSize h)), <- Hc, u64_sub_l. f_equal. lia.
  - destruct Hg as [[_ ->]|(b & _ & _ & ->)]; [done|]. destruct (sp_pHandler p); [|done].
    apply u64_range.
Qed.

(** Only the values of the free lists matter. *)
Lemma set_free_id frs t u : set_free frs t (frs t) u = frs u.
Proof. unfold set_free. by destruct (decide (u = t)) as [->|]. Qed.

Lemma obj_live_ext s frs frs' t a :
  (forall u, frs u = frs' u) -> obj_live s frs t a <-> obj_live s frs' t a.
Proof. intros E. unfold obj_live. by rewrite E. Qed.

Lemma mgrs_ok_ext s frs frs' : (forall u, frs u = frs' u) -> mgrs_ok s frs -> mgrs_ok s frs'.
Proof. intros E []. split; try done. intros t g Hg. rewrite <- E. auto. Qed.

(** The answers to the managers [alloc] tries. *)
Definition os_fresh (os : nat -> nat -> Z * pool_os) (m : segments) : Prop :=
  forall l k, 0 <= (os l k).1 /\ fresh_segment (os l k).2 m.

(** The managers after [alloc] has tried some. *)
Definition tried (s : memPool) (frs : frees) (types : list MEMBLOCKPOOL_TYPE)
    (found : option (objptr * MEMBLOCKPOOL_TYPE)) (s' : memPool) (frs' : frees) : Prop :=
  mgrs_ok s' frs' /\ mp_blocks s' = mp_blocks s /\ mp_counts s' = mp_counts s /\
  mh_maxSize (mp_handler s') = mh_maxSize (mp_handler s) /\
  match found with
  | None => forall t a, obj_live s' frs' t a <-> obj_live s frs t a
  | Some (a, t) => t ∈ types /\ t ∈ pool_types /\ (forall u, ~ obj_live s frs u a) /\
      forall u b, obj_live s' frs' u b <-> obj_live s frs u b \/ (u = t /\ b = a)
  end.

Lemma grown_maxSize X m (h h' : memHandler) p p' :
  grown X m h h' p p' -> mh_maxSize h' = mh_maxSize h.
Proof. intros [[_ ->]|(b & _ & _ & ->)]; [done|]. by destruct (sp_pHandler p). Qed.

Lemma try_one s frs t g os :
  mgrs_ok s frs -> mgr_at s t g -> (forall k, 0 <= (os k).1 /\ fresh_segment (os k).2 (mp_mem s)) ->
  exists rc out ms, smgr_acquire (objX_size t) os (with_mgr s g) = Some (rc, out, ms) /\
    ((rc = SDB_OK /\ exists idx a frs', out = Some (idx, Some a) /\
        tried s frs [t] (Some (a, t)) (set_mgr s (type_slot t) ms) frs') \/
     (rc <> SDB_OK /\ out = None /\ mp_mem (set_mgr s (type_slot t) ms) = mp_mem s /\
        tried s frs [t] None (set_mgr s (type_slot t) ms) frs)).
Proof.
  intros Hok Hg Hos. destruct (gk_mgr _ _ Hok t g Hg) as [Ho Hh].
  pose proof (total_range s frs Hok) as Ht. unfold with_mgr, smgr_acquire. cbn [ms_mgr].
  pose proof (acquire_loop_post (objX_size t) os (mp_mem s) (mp_handler s) (frs t)
    (Z.to_nat (sm_poolNum g)) 0 g Ho Hos) as
    [(idx & a & m' & h' & g' & frs' & E & Ho' & _ & Hn & Hheld & Hex)|(rc & rd & E & Hrd & Hrc)].
  - exists SDB_OK, (Some (idx, Some a)), (mkMgrState m' h' g'). split; [done|]. left. split; [done|].
    exists idx, a, (set_free frs t frs'). split; [done|].
    destruct (acquire_counted (objX_size t) _ _ g _ os idx a m' h' g' frs' Ho Hh Ho' Ht Hex E) as
      (Hh' & Hc & Hf & Ht').
    pose proof (mgrs_step Hok Hg m' h' g' frs' Ho' Hh' Hf Hc Ht') as Hok'.
    pose proof (obj_live_step Hok Hg m' h' g' frs') as Hlive.
    assert (Hall : forall u b, obj_live (set_mgr s (type_slot t) (mkMgrState m' h' g')) (set_free frs t frs') u b
      <-> obj_live s frs u b \/ (u = t /\ b = a)).
    { intros u b. rewrite Hlive. destruct (decide (u = t)) as [->|Hne]; [|tauto].
      rewrite (obj_live_here Hg). setoid_rewrite Hheld. split.
      - intros [[_ [i [?|[-> ->]]]]|[? _]]; [left; by exists i|by right|done].
      - intros [[i Hi]|[_ ->]]; left; (split; [done|]); [exists i; by left|exists idx; by right]. }
    split; [done|]. do 2 (split; [done|]). split.
    { destruct Hex as (i & p & p' & rd & _ & _ & _ & Hgr & _). by eapply grown_maxSize. }
    split; [left|]. split; [apply Hg|]. split; [|done]. intros u Hu.
    assert (u = t) as ->.
    { eapply obj_live_type; [exact Hok'|apply Hall; by left|apply Hall; by right]. }
    apply (obj_live_here Hg) in Hu as [i Hi].
    assert (i = idx) as ->; [|by apply Hn in Hi].
    eapply (held_addr_inj m' g' frs'); [done|apply Hheld; by left|apply Hheld; by right].
  - exists rc, None, (mkMgrState (mp_mem s) (mp_handler s) (set_round g rd)). split; [done|].
    right. split; [by destruct Hrc as [->| ->]|]. split; [done|]. split; [done|].
    assert (Hheld : forall idx a, held (set_round g rd) (frs t) idx a <-> held g (frs t) idx a) by done.
    pose proof (mgrs_step Hok Hg (mp_mem s) (mp_handler s) (set_round g rd) (frs t)
      (mgr_ok_round _ _ _ _ Ho Hrd) Hh) as Hok'.
    split; [|split; [done|split; [done|split; [done|]]]].
    + eapply mgrs_ok_ext; [intros u; apply (set_free_id frs t)|]. apply Hok'; [|done|done].
      split; [done|]. intros b Hb. by left.
    + intros u a. rewrite <- (obj_live_ext _ _ _ u a (set_free_id frs t)).
      rewrite (obj_live_step Hok Hg). destruct (decide (u = t)) as [->|]; [|tauto].
      rewrite (obj_live_here Hg). setoid_rewrite Hheld. naive_solver.
Qed.

Lemma tried_none s frs types : mgrs_ok s frs -> tried s frs types None s frs.
Proof. by split. Qed.

Lemma tried_trans s frs types types' s1 found s2 frs2 :
  tried s frs types None s1 frs -> tried s1 frs types' found s2 frs2 ->
  (forall t, t ∈ types' -> t ∈ types) -> tried s frs types found s2 frs2.
Proof.
  intros (H1 & B1 & C1 & M1 & L1) (H2 & B2 & C2 & M2 & L2) Hsub.
  split; [done|]. split; [congruence|]. split; [congruence|]. split; [congruence|].
  destruct found as [[a t]|].
  - destruct L2 as (Ht & Ht' & Hn & Hl). split; [auto|]. split; [done|]. split.
    + intros u Hu. apply (Hn u). by apply L1.
    + intros u b. by rewrite Hl, L1.
  - intros t a. by rewrite L2, L1.
Qed.

Lemma tried_weaken s frs types types' found s' frs' :
  (forall t, t ∈ types' -> t ∈ types) ->
  tried s frs types' found s' frs' -> tried s frs types found s' frs'.
Proof.
  intros Hsub (H1 & B1 & C1 & M1 & L1). do 4 (split; [done|]).
  destruct found as [[a t]|]; [|done]. destruct L1 as (? & ? & ? & ?). auto.
Qed.

(** The managers that [alloc] tries, in turn. *)
Lemma try_managers_ok os types : forall level s frs,
  mgrs_ok s frs -> os_fresh os (mp_mem s) -> (forall t, t ∈ types -> t ∈ pool_types) ->
  exists found s' frs', try_managers os types level s = Some (found, s') /\
    tried s frs types found s' frs'.
Proof.
  induction types as [|t types IH]; intros level s frs Hok Hos Hty.
  { exists None, s, frs. split; [by destruct level|by apply tried_none]. }
  destruct level as [|level].
  { exists None, s, frs. split; [done|by apply tried_none]. }
  assert (Hty' : forall u, u ∈ types -> u ∈ pool_types) by (intros u Hu; apply Hty; by right).
  cbn [try_managers]. destruct (mp_mgrs s !! type_slot t) as [[g|]|] eqn:Eg.
  - assert (Hg : mgr_at s t g) by (split; [apply Hty; left|done]).
    destruct (try_one s frs t g (os level) Hok Hg (Hos level)) as (rc & out & ms & -> & Hres).
    cbn [mbind option_bind].
    destruct Hres as [(-> & idx & a & frs' & -> & Htr)|(Hrc & -> & Hm & Htr)].
    + exists (Some (a, t)), (set_mgr s (type_slot t) ms), frs'. split; [done|].
      eapply tried_weaken; [|done]. intros u ->%list_elem_of_singleton. left.
    + destruct (IH level (set_mgr s (type_slot t) ms) frs) as (found & s' & frs' & E & Htr');
        [apply Htr|by rewrite Hm|done|]. exists found, s', frs'. split; [done|].
      eapply tried_weaken; [|eapply (tried_trans s frs (t :: types))].
      * by intros u Hu.
      * eapply tried_weaken; [|done]. intros u ->%list_elem_of_singleton. left.
      * done.
      * intros u Hu. by right.
  - destruct (IH level s frs Hok Hos Hty') as (found & s' & frs' & E & Htr).
    exists found, s', frs'. split; [done|]. eapply tried_weaken; [|done]. intros u Hu. by right.
  - destruct (IH level s frs Hok Hos Hty') as (found & s' & frs' & E & Htr).
    exists found, s', frs'. split; [done|]. eapply tried_weaken; [|done]. intros u Hu. by right.
Qed.

(** ** Blocks *)

(** A block in use. *)
Definition blk_live (s : memPool) (frs : frees) (p : blk) : Prop :=
  match p with
  | BObj a => exists t, obj_live s frs t a
  | BDyn _ => is_Some (mp_blocks s !! p)
  end.

(** The type and the size of a block. *)
Definition blk_kind (s : memPool) (frs : frees) (p : blk) (t : MEMBLOCKPOOL_TYPE) (size : Z) : Prop :=
  match p with
  | BObj a => obj_live s frs t a /\ size = type2Size t
  | BDyn _ => t = TYPE_DYN
  end.

Record mem_ok (s : memPool) (frs : frees) : Prop := {
  mk_mgrs : mgrs_ok s frs;
  mk_blocks : forall p, blk_live s frs p -> exists b t size,
    mp_blocks s !! p = Some b /\ blk_kind s frs p t size /\ block_ok b t size
}.

Lemma obj_live_pool s frs t a : obj_live s frs t a -> t ∈ pool_types.
Proof. by intros (g & idx & [Ht _] & _). Qed.

Lemma live_load s frs t a :
  mgrs_ok s frs -> obj_live s frs t a -> is_Some (load (mp_mem s) a).
Proof.
  intros Hok (g & idx & Hg & Hh). destruct (gk_mgr _ _ Hok t g Hg) as [Ho _].
  destruct (held_load _ _ _ _ _ Ho Hh) as (i & p & fr & j & _ & _ & _ & _ & _ & _ & _ & _ & _ & ->). done.
Qed.

(** A block in use can be read, with its header in order. *)
Lemma get_live s frs p :
  mem_ok s frs -> blk_live s frs p -> exists b t size,
    get_block s p = Some b /\ mp_blocks s !! p = Some b /\ blk_kind s frs p t size /\ block_ok b t size /\
    checkAndExtract b = Some (Some (size - 10, t)).
Proof.
  intros Hok Hl. destruct (mk_blocks _ _ Hok p Hl) as (b & t & size & Hb & Hk & Ho).
  exists b, t, size. split; [|split; [done|split; [done|split; [done|by apply checkAndExtract_ok]]]].
  destruct p as [a|a]; cbn; [|done]. destruct Hk as [Hk _].
  destruct (live_load s frs t a (mk_mgrs _ _ Hok) Hk) as [o ->]. done.
Qed.
