(* ===== verification/UtilMemPoolHist.v ===== *)
(** * The memory pool is a heap

    [heap_rel] ties the pool to a map from the blocks in use to the bytes of
    their users.  [alloc], [release], [realloc], [shrink] and the rest refine
    what a heap does with that map; the one deviation is a [release] that is
    refused because the pool of the object has no spare one, and then the
    block stays in use. *)
From S2P Require Import Prelude.
From S2P Require Import ByteBits.
From S2P Require Import OssBase.
From S2P Require Import UtilBitmap.
From S2P Require Import UtilSegment.
From S2P Require Import UtilSegmentOk.
From S2P Require Import UtilSegmentShrink.
From S2P Require Import UtilSegmentMgr.
From S2P Require Import UtilSegmentMgrOk.
From S2P Require Import UtilSegmentHist.
From S2P Require Import UtilMemPool.
From S2P Require Import UtilMemPoolOk.

(** ** The relation, allocation and release *)

Abbreviation heap := (gmap blk (list Z)).

Definition heap_rel (s : memPool) (frs : frees) (A : heap) : Prop :=
  forall p l, A !! p = Some l <->
    blk_live s frs p /\ exists b, mp_blocks s !! p = Some b /\ user_bytes b = l.

(** The invariant and the heap it stands for. *)
Definition mem_rel (s : memPool) (A : heap) : Prop :=
  exists frs, mem_ok s frs /\ heap_rel s frs A.

Lemma heap_rel_live s frs A p :
  mem_ok s frs -> heap_rel s frs A -> is_Some (A !! p) <-> blk_live s frs p.
Proof.
  intros Hok Hr. split.
  - intros [l Hl]. by apply Hr in Hl as [? _].
  - intros Hl. destruct (mk_blocks _ _ Hok p Hl) as (b & _ & _ & Hb & _).
    exists (user_bytes b). apply Hr. split; [done|]. by exists b.
Qed.

(** ** A block more, a block less *)

Lemma mem_rel_add s frs A s' frs' p b t size :
  mem_ok s frs -> heap_rel s frs A -> mgrs_ok s' frs' -> ~ blk_live s frs p ->
  mp_blocks s' = <[p := b]> (mp_blocks s) ->
  (forall q, blk_live s' frs' q <-> blk_live s frs q \/ q = p) ->
  (forall u a, obj_live s frs u a -> obj_live s' frs' u a) ->
  blk_kind s' frs' p t size -> block_ok b t size ->
  A !! p = None /\ mem_rel s' (<[p := user_bytes b]> A).
Proof.
  intros Hok Hr Hok' Hn Eb Hl Ho Hk Hb.
  assert (A !! p = None) as HA.
  { destruct (A !! p) as [l|] eqn:E; [|done]. by apply Hr in E as [? _]. }
  split; [done|]. exists frs'. split.
  - split; [done|]. intros q [Hq| ->]%Hl.
    + destruct (mk_blocks _ _ Hok q Hq) as (b' & t' & size' & Hb' & Hk' & Hbo').
      exists b', t', size'. rewrite Eb, lookup_insert_ne by (intros ->; done). split; [done|].
      split; [|done]. destruct q; [destruct Hk'; split; auto|done].
    + exists b, t, size. by rewrite Eb, lookup_insert_eq.
  - intros q l. rewrite Eb, Hl. destruct (decide (q = p)) as [->|Hne].
    + rewrite !lookup_insert_eq. split.
      * intros E. split; [by right|]. exists b. split; [done|congruence].
      * intros (_ & b' & E & <-). congruence.
    + rewrite !lookup_insert_ne by done. rewrite (Hr q l). naive_solver.
Qed.

Lemma mem_rel_delete s frs A s' frs' p :
  mem_ok s frs -> heap_rel s frs A -> mgrs_ok s' frs' ->
  (forall q, q <> p -> mp_blocks s' !! q = mp_blocks s !! q) ->
  (forall q, blk_live s' frs' q <-> blk_live s frs q /\ q <> p) ->
  (forall u a, BObj a <> p -> obj_live s frs u a -> obj_live s' frs' u a) ->
  mem_rel s' (delete p A).
Proof.
  intros Hok Hr Hok' Eb Hl Ho. exists frs'. split.
  - split; [done|]. intros q [Hq Hne]%Hl.
    destruct (mk_blocks _ _ Hok q Hq) as (b' & t' & size' & Hb' & Hk' & Hbo').
    exists b', t', size'. rewrite Eb by done. split; [done|].
    split; [|done]. destruct q; [destruct Hk'; split; auto|done].
  - intros q l. rewrite Hl. destruct (decide (q = p)) as [->|Hne].
    + rewrite lookup_delete_eq. naive_solver.
    + rewrite lookup_delete_ne, Eb by done. rewrite (Hr q l). naive_solver.
Qed.

(** The same blocks. *)
Lemma mem_rel_same s frs A s' frs' :
  mem_ok s frs -> heap_rel s frs A -> mgrs_ok s' frs' -> mp_blocks s' = mp_blocks s ->
  (forall u a, obj_live s' frs' u a <-> obj_live s frs u a) -> mem_rel s' A.
Proof.
  intros Hok Hr Hok' Eb Ho. exists frs'.
  assert (forall q, blk_live s' frs' q <-> blk_live s frs q) as Hl.
  { intros [a|a]; cbn; [by setoid_rewrite Ho|by rewrite Eb]. }
  split.
  - split; [done|]. intros q Hq%Hl. destruct (mk_blocks _ _ Hok q Hq) as (b & t & size & Hb & Hk & Hbo).
    exists b, t, size. rewrite Eb. split; [done|]. split; [|done].
    destruct q; [destruct Hk; split; [by apply Ho|done]|done].
  - intros q l. by rewrite Hl, Eb.
Qed.

Lemma mgrs_ok_fields s s' frs :
  mp_mem s' = mp_mem s -> mp_handler s' = mp_handler s -> mp_mgrs s' = mp_mgrs s ->
  mgrs_ok s frs -> mgrs_ok s' frs.
Proof.
  destruct s, s'. cbn. intros -> -> -> []. split; try done.
Qed.

(** ** Allocation *)

(** The answers of the allocator [alloc] may get. *)
Definition alloc_fresh (os : alloc_os) (s : memPool) : Prop :=
  os_fresh (ao_mgr os) (mp_mem s) /\
  forall p, ao_malloc os = Some p -> mp_blocks s !! BDyn p = None.

Lemma pool_type_size t : t ∈ pool_types -> 32 <= type2Size t <= 8192.
Proof.
  intros Ht. destruct t; cbn; try lia.
  apply (bool_decide_eq_true_2 _) in Ht. discriminate.
Qed.

Lemma types_from_pool t u : u ∈ types_from t -> u ∈ pool_types.
Proof.
  destruct t; cbn; set_solver.
Qed.

Lemma types_from_size n t : t ∈ types_from (size2MemType n) -> n <= type2Size t.
Proof.
  unfold size2MemType. intros Ht.
  assert (Hall : forall u, t ∈ types_from u -> type2Size u <= type2Size t).
  { intros u Hu. destruct u; cbn in Hu |- *; repeat setoid_rewrite elem_of_cons in Hu;
      destruct_or?; try (subst; cbn; lia); try (by apply not_elem_of_nil in Hu); by destruct t. }
  repeat match type of Ht with
  | context [Z.leb ?a ?b] => destruct (Z.leb_spec a b); [apply Hall in Ht; cbn in Ht; lia|]
  end.
  by apply not_elem_of_nil in Ht.
Qed.

(** What [alloc] does to the heap. *)
Definition alloc_post (os : alloc_os) (size : Z) (A : heap)
    (r : option (option blk * option Z * memPool)) : Prop :=
  exists res real s', r = Some (res, real, s') /\
    match res with
    | None => ao_malloc os = None /\ mem_rel s' A
    | Some p => exists l, A !! p = None /\ size <= Z.of_nat (length l) /\
        real = Some (Z.of_nat (length l)) /\ mem_rel s' (<[p := l]> A)
    end.

Lemma alloc_found s frs A s1 frs1 a t types size :
  mem_ok s frs -> heap_rel s frs A -> tried s frs types (Some (a, t)) s1 frs1 ->
  size + 10 <= type2Size t ->
  exists b, fillPtr (mkBlock (type2Size t) ∅) (type_val t) (type2Size t) = Some b /\
    A !! BObj a = None /\ size <= Z.of_nat (length (user_bytes b)) /\
    u32 (type2Size t - UTIL_MEM_TOTAL_FILL_LEN) = Z.of_nat (length (user_bytes b)) /\
    mem_rel (set_blocks s1 (<[BObj a := b]> (mp_blocks s1))) (<[BObj a := user_bytes b]> A).
Proof.
  intros Hok Hr (Hok1 & Eb & _ & _ & Hty & Hpt & Hn & Hl) Hs.
  pose proof (pool_type_size t Hpt) as Ht.
  destruct (fillPtr_ok (type2Size t) ∅ t (type2Size t)) as (b & E & Hb & _); [done|lia|by right|].
  exists b. split; [done|]. rewrite (length_user_bytes _ _ _ Hb). unfold UTIL_MEM_TOTAL_FILL_LEN.
  rewrite u32_id by lia.
  destruct (mem_rel_add s frs A (set_blocks s1 (<[BObj a := b]> (mp_blocks s1))) frs1
    (BObj a) b t (type2Size t)) as [HA Hrel]; try done.
  - by eapply mgrs_ok_fields, Hok1.
  - intros [u Hu]. by apply Hn in Hu.
  - cbn. by rewrite Eb.
  - intros [c|c].
    + change (blk_live (set_blocks s1 (<[BObj a := b]> (mp_blocks s1))) frs1 (BObj c)) with
        (exists u, obj_live s1 frs1 u c). cbn [blk_live]. setoid_rewrite Hl. split.
      * intros [u [Hu|[-> ->]]]; [left; by exists u|by right].
      * intros [[u Hu]|[= ->]]; [exists u; by left|exists t; by right].
    + cbn [blk_live set_blocks mp_blocks]. rewrite lookup_insert_ne, Eb by done. naive_solver.
  - intros u c Hc. change (obj_live s1 frs1 u c). apply Hl. by left.
  - split; [|done]. change (obj_live s1 frs1 t a). apply Hl. by right.
  - split_and!; try done. lia.
Qed.

Lemma alloc_dyn s frs A s1 frs1 p types size counts :
  mem_ok s frs -> heap_rel s frs A -> tried s frs types None s1 frs1 ->
  0 < size -> size + 10 < 4294967296 -> mp_blocks s !! BDyn p = None ->
  exists b, fillPtr (mkBlock (size + 10) ∅) (type_val TYPE_DYN) (size + 10) = Some b /\
    A !! BDyn p = None /\ Z.of_nat (length (user_bytes b)) = size /\
    mem_rel (mkMemPool (mp_mem s1) (mp_handler s1) (mp_mgrs s1) counts
               (<[BDyn p := b]> (mp_blocks s1))) (<[BDyn p := user_bytes b]> A).
Proof.
  intros Hok Hr (Hok1 & Eb & _ & _ & Hl) Hs0 Hs Hp.
  destruct (fillPtr_ok (size + 10) ∅ TYPE_DYN (size + 10)) as (b & E & Hb & _); [done|lia|by left|].
  exists b. split; [done|]. rewrite (length_user_bytes _ _ _ Hb).
  set (s2 := mkMemPool _ _ _ _ _).
  destruct (mem_rel_add s frs A s2 frs1 (BDyn p) b TYPE_DYN (size + 10)) as [HA Hrel]; try done.
  - by eapply mgrs_ok_fields, Hok1.
  - cbn. rewrite Hp. by intros [].
  - unfold s2. cbn. by rewrite Eb.
  - intros [c|c].
    + change (blk_live s2 frs1 (BObj c)) with (exists u, obj_live s1 frs1 u c).
      cbn [blk_live]. setoid_rewrite Hl. naive_solver.
    + cbn [blk_live]. unfold s2. cbn [mp_blocks]. destruct (decide (c = p)) as [->|Hne].
      * rewrite lookup_insert_eq. split; [by right|done].
      * rewrite lookup_insert_ne, Eb by congruence. naive_solver.
  - intros u c Hc. change (obj_live s1 frs1 u c). by apply Hl.
  - split_and!; try done. lia.
Qed.

Lemma mem_alloc_post os size s A :
  mem_rel s A -> alloc_fresh os s -> 0 < size -> size + 10 < 4294967296 ->
  alloc_post os size A (mem_alloc os size s).
Proof.
  intros (frs & Hok & Hr) [Hf Hm] Hs0 Hs. unfold mem_alloc, UTIL_MEM_SIZE_2_REALSIZE, UTIL_MEM_TOTAL_FILL_LEN.
  destruct (Z.eqb_spec size 0); [lia|]. rewrite (u32_id (size + 10)) by lia.
  set (t := size2MemType (size + 10)).
  assert (exists found s1 frs1, (if 0 <? mh_maxSize (mp_handler s)
     then try_managers (ao_mgr os) (types_from t) UTIL_MEM_ALLOC_MAX_TRY_LEVEL s
     else Some (None, s)) = Some (found, s1) /\ tried s frs (types_from t) found s1 frs1)
    as (found & s1 & frs1 & -> & Htr).
  { destruct (0 <? mh_maxSize (mp_handler s)).
    - apply try_managers_ok; [apply Hok|done|apply types_from_pool].
    - exists None, s, frs. split; [done|]. apply tried_none, Hok. }
  cbn [mbind option_bind]. destruct found as [[a u]|].
  - assert (size + 10 <= type2Size u) as Hu by (apply types_from_size; apply Htr).
    destruct (alloc_found s frs A s1 frs1 a u _ size Hok Hr Htr Hu) as (b & -> & HA & Hl & Hre & Hrel).
    cbn [mbind option_bind]. eexists _, _, _. split; [done|]. exists (user_bytes b).
    split; [done|]. split; [done|]. split; [by rewrite <- Hre|]. done.
  - destruct (Z.eqb_spec (size + 10) 0); [lia|]. destruct (ao_malloc os) as [p|] eqn:Em.
    2:{ eexists _, _, _. split; [done|]. split; [done|]. destruct Htr as (? & ? & _ & _ & ?).
        by eapply mem_rel_same. }
    destruct (alloc_dyn s frs A s1 frs1 p _ size
      (if bool_decide (t = TYPE_DYN) then mp_counts s1
       else alter (fun n => u64 (n + 1)) (type_slot t) (mp_counts s1))
      Hok Hr Htr Hs0 Hs (Hm p eq_refl)) as (b & -> & HA & Hl & Hrel).
    cbn [mbind option_bind]. eexists _, _, _. split; [done|]. exists (user_bytes b).
    split; [done|]. split; [lia|]. split; [rewrite Hl; f_equal; rewrite u32_id; lia|]. done.
Qed.

(** ** Release *)

Lemma held_fun m g frs idx a a' :
  mgr_ok m g frs -> held g frs idx a -> held g frs idx a' -> a = a'.
Proof.
  intros Hok (i & p & fr & j & Hp & Hf & Hu & -> & Ha) (i' & p' & fr' & j' & Hp' & Hf' & Hu' & E & Ha').
  destruct (mo_pool _ _ _ Hok i p fr Hp Hf) as (_ & _ & Hpo).
  destruct (mo_pool _ _ _ Hok i' p' fr' Hp' Hf') as (_ & _ & Hpo').
  pose proof (po_num_le _ _ _ Hpo). pose proof (po_num_le _ _ _ Hpo').
  destruct Hu, Hu'. apply idx_of_inj in E as [E <-]; [|lia..]. assert (i = i') as <- by lia.
  congruence.
Qed.

(** The pool the object of a block is from has no spare object. *)
Definition no_spare (s : memPool) (p : blk) : Prop :=
  exists a t g i pool, p = BObj a /\ mgr_at s t g /\ sm_pool g !! i = Some pool /\
    a.1 ∈ sp_segList pool /\ sp_begin pool = sp_numOfObjs pool.

Lemma no_spare_intro s frs t g idx a :
  mgrs_ok s frs -> mgr_at s t g -> held g (frs t) idx a -> ~ has_spare g idx -> no_spare s (BObj a).
Proof.
  intros Hok Hg Hh Hns. destruct (gk_mgr _ _ Hok t g Hg) as [Ho _].
  destruct (held_load _ _ _ _ _ Ho Hh) as (i & p & fr & j & Hp & _ & Hpo & _ & _ & Hu & _ & -> & Ha & _).
  pose proof (po_num_le _ _ _ Hpo). pose proof (po_count _ _ _ Hpo). pose proof (proj1 Hu).
  exists a, t, g, i, p. split; [done|]. split; [done|]. split; [done|]. split.
  - destruct (obj_addr_ok Hpo j (proj1 Hu)) as (seg & E & Hs & _). rewrite Ha in E. injection E as ->.
    by eapply list_elem_of_lookup_2.
  - destruct (decide (sp_begin p < sp_numOfObjs p)); [|lia]. exfalso. apply Hns. intros q Hq.
    rewrite idx_of_div, Nat2Z.id in Hq by lia. congruence.
Qed.

Lemma release_one s frs t g idx a :
  mgrs_ok s frs -> mgr_at s t g -> held g (frs t) idx a ->
  exists rc ms, smgr_release_addr (Some a) (with_mgr s g) = Some (rc, ms) /\
    ((rc = SDB_OK /\ exists frs', mgrs_ok (set_mgr s (type_slot t) ms) frs' /\
        forall u b, obj_live (set_mgr s (type_slot t) ms) frs' u b <-> obj_live s frs u b /\ b <> a) \/
     (rc = SDB_SYS /\ set_mgr s (type_slot t) ms = s /\ no_spare s (BObj a))).
Proof.
  intros Hok Hg Hh. destruct (gk_mgr _ _ Hok t g Hg) as [Ho Hhd]. pose proof (total_range s frs Hok) as Ht.
  destruct (smgr_release_post (mp_mem s) (mp_handler s) g (frs t) idx a Ho Hh) as [E Hpost].
  unfold with_mgr. rewrite E.
  destruct Hpost as [(m' & g' & frs' & -> & Ho' & Hheld & Hf & i & p & p' & Hp & -> & En & Eh & _)|[-> Hns]].
  - eexists _, _. split; [done|]. left. split; [done|]. exists (set_free frs t frs').
    pose proof (lookup_lt_Some _ _ _ Hp) as Hi. split.
    + apply (mgrs_step Hok Hg); try done.
      * intros k x Hk Hx. cbn in Hk, Hx. rewrite Nat2Z.id in Hx. destruct (decide (k = i)) as [->|].
        -- rewrite list_lookup_insert_eq in Hx by done. simplify_eq. rewrite Eh. by eapply Hhd.
        -- rewrite list_lookup_insert_ne in Hx by done. by eapply Hhd.
      * unfold uncounted. rewrite <- (set_round_id g) at 1. rewrite (mgr_bytes_step _ g i p) by done.
        rewrite En. f_equal. lia.
    + intros u b. rewrite (obj_live_step Hok Hg). destruct (decide (u = t)) as [->|Hne].
      * rewrite (obj_live_here Hg). setoid_rewrite Hheld. split.
        -- intros [[_ (k & Hk & Hki)]|[? _]]; [|done]. split; [by exists k|].
           intros ->. apply Hki. eapply held_addr_inj; [exact Ho|exact Hk|exact Hh].
        -- intros [[k Hk] Hb]. left. split; [done|]. exists k. split; [done|].
           intros ->. apply Hb. eapply held_fun; [exact Ho|exact Hk|exact Hh].
      * split; [|tauto]. intros [[? _]|[_ Hu]]; [done|]. split; [done|].
        intros ->. apply Hne. eapply obj_live_type; [exact Hok|exact Hu|]. apply (obj_live_here Hg). by exists idx.
  - eexists _, _. split; [done|]. right. split; [done|]. split; [|by eapply no_spare_intro].
    destruct Hg as [_ Hlk], s. unfold set_mgr. cbn in *. by rewrite list_insert_id.
Qed.

(** [release] takes the block out of the heap, or refuses it and changes
    nothing. *)
Lemma mem_release_post s A p :
  mem_rel s A -> is_Some (A !! p) ->
  (exists s', mem_release (Some p) s = Some (None, s') /\ mem_rel s' (delete p A) /\
     forall q, q <> p -> mp_blocks s' !! q = mp_blocks s !! q) \/
  (mem_release (Some p) s = Some (Some p, s) /\ no_spare s p).
Proof.
  intros (frs & Hok & Hr) Hp. apply (heap_rel_live s frs A p Hok Hr) in Hp.
  destruct (get_live s frs p Hok Hp) as (b & t & size & Eg & Eb & Hk & Hb & Ec).
  unfold mem_release. rewrite Eg. cbn [mbind option_bind]. rewrite Ec. cbn [mbind option_bind].
  destruct p as [a|a].
  - destruct Hk as [(g & idx & Hg & Hh) _].
    assert (t <> TYPE_DYN) as Hnd by (intros ->; pose proof (pool_type_size _ (proj1 Hg)); cbn in *; lia).
    destruct (release_one s frs t g idx a (mk_mgrs _ _ Hok) Hg Hh) as (rc & ms & E & Hres).
    assert (Hm : mp_mgrs s !! type_slot t = Some (Some g)) by apply Hg.
    assert (forall X : option (option blk * memPool),
      match t with TYPE_DYN => None | _ => X end = X) as Hmt by (by destruct t).
    rewrite Hmt, Hm. cbn [mbind option_bind]. rewrite E. cbn [mbind option_bind].
    destruct Hres as [(-> & frs' & Hok' & Hl)|(-> & Es & Hns)].
    + left. eexists. split; [done|]. split; [|done].
      eapply mem_rel_delete; try done.
      * intros [c|c]; cbn [blk_live set_mgr mp_blocks]; [|naive_solver].
        setoid_rewrite Hl. naive_solver.
      * intros u c Hne Hc. apply Hl. split; [done|]. congruence.
    + right. by rewrite Es.
  - cbn in Hk. subst t. left. eexists. split; [done|]. cbn [set_blocks mp_blocks]. split.
    + eapply (mem_rel_delete s frs A _ frs); try done.
      * by eapply mgrs_ok_fields, Hok.
      * intros q Hq. cbn. by rewrite lookup_delete_ne.
      * intros [c|c]; cbn [blk_live set_blocks mp_blocks].
        -- change (exists u, obj_live (set_blocks s (delete (BDyn a) (mp_blocks s))) frs u c) with
             (exists u, obj_live s frs u c). naive_solver.
        -- rewrite lookup_delete_is_Some. naive_solver.
    + intros q Hq. by rewrite lookup_delete_ne.
Qed.

(** ** Writing and copying *)

Lemma lookup_read_bytes d n : forall a i,
  read_bytes d a n !! i = if decide (i < n)%nat then Some (byte_at d (a + Z.of_nat i)) else None.
Proof.
  induction n as [|n IH]; intros a i; cbn [read_bytes]; [by rewrite decide_False by lia|].
  destruct i as [|i]; cbn.
  - rewrite Z.add_0_r. done.
  - rewrite IH. destruct (decide (i < n)%nat), (decide (S i < S n)%nat); try lia; try done.
    do 2 f_equal. lia.
Qed.

(** What a write at [off] makes of the bytes. *)
Definition splice (l : list Z) (off : Z) (x : list Z) : list Z :=
  take (Z.to_nat off) l ++ x ++ drop (Z.to_nat off + length x) l.

Lemma length_splice l off x :
  0 <= off -> off + Z.of_nat (length x) <= Z.of_nat (length l) -> length (splice l off x) = length l.
Proof. intros. unfold splice. rewrite !length_app, length_take, length_drop. lia. Qed.

Lemma read_write_splice d a n off x :
  0 <= off -> off + Z.of_nat (length x) <= Z.of_nat n ->
  read_bytes (write_bytes d (a + off) x) a n = splice (read_bytes d a n) off x.
Proof.
  intros Ho Hl. apply list_eq. intros i. rewrite lookup_read_bytes, byte_at_write_bytes.
  unfold splice. destruct (decide (i < n)%nat) as [Hi|Hi].
  2:{ symmetry. apply lookup_ge_None. fold (splice (read_bytes d a n) off x).
      rewrite length_splice by (rewrite ?length_read_bytes; lia). rewrite length_read_bytes. lia. }
  assert (length (take (Z.to_nat off) (read_bytes d a n)) = Z.to_nat off) as Hlt
    by (rewrite length_take, length_read_bytes; lia).
  destruct (decide (i < Z.to_nat off)%nat).
  - rewrite decide_False by lia. rewrite lookup_app_l, lookup_take_lt, lookup_read_bytes by lia.
    by rewrite decide_True.
  - rewrite lookup_app_r, Hlt by lia. destruct (decide (i - Z.to_nat off < length x)%nat).
    + rewrite decide_True by lia. rewrite lookup_app_l by lia.
      replace (Z.to_nat (a + Z.of_nat i - (a + off))) with (i - Z.to_nat off)%nat by lia.
      destruct (lookup_lt_is_Some_2 x (i - Z.to_nat off)) as [y Hy]; [lia|].
      by rewrite Hy, (nth_lookup_Some _ _ _ _ Hy).
    + rewrite decide_False by lia. rewrite lookup_app_r, lookup_drop, lookup_read_bytes by lia.
      rewrite decide_True by lia. do 2 f_equal. lia.
Qed.

(** A write of the user to a block in use. *)
Lemma mem_write_post s A p l off x :
  mem_rel s A -> A !! p = Some l -> 0 <= off -> off + Z.of_nat (length x) <= Z.of_nat (length l) ->
  exists b b', get_block s p = Some b /\ user_bytes b = l /\ blk_write b (8 + off) x = Some b' /\
    mem_rel (set_blocks s (<[p := b']> (mp_blocks s))) (<[p := splice l off x]> A).
Proof.
  intros (frs & Hok & Hr) Hp Ho Hx. pose proof (proj1 (Hr p l) Hp) as (Hl & b0 & Hb0 & Hu).
  destruct (get_live s frs p Hok Hl) as (b & t & size & Eg & Eb & Hk & Hb & _).
  rewrite Hb0 in Eb. injection Eb as ->. pose proof (length_user_bytes _ _ _ Hb) as Hlen.
  rewrite Hu in Hlen.
  destruct (block_ok_write b t size off x Hb Ho ltac:(lia)) as (b' & Ew & Hb' & Ed).
  exists b, b'. split; [done|]. split; [done|]. split; [done|]. exists frs.
  assert (Hul : user_bytes b' = splice l off x).
  { unfold user_bytes in *. rewrite Ed, (bo_cap _ _ _ Hb'), <- (bo_cap _ _ _ Hb).
    rewrite <- Hu. pose proof (bo_cap _ _ _ Hb). apply read_write_splice; lia. }
  assert (Hlive : forall q, blk_live (set_blocks s (<[p := b']> (mp_blocks s))) frs q <-> blk_live s frs q).
  { intros [c|c]; [done|]. cbn [blk_live set_blocks mp_blocks].
    destruct (decide (p = BDyn c)) as [->|Hne]; [|by rewrite lookup_insert_ne].
    rewrite lookup_insert_eq, Hb0. done. }
  split.
  - split; [by eapply mgrs_ok_fields, Hok|]. intros q Hq%Hlive. cbn [set_blocks mp_blocks].
    destruct (decide (p = q)) as [<-|Hne].
    + rewrite lookup_insert_eq. exists b', t, size. split; [done|]. split; [|done].
      destruct p; done.
    + rewrite lookup_insert_ne by done.
      destruct (mk_blocks _ _ Hok q Hq) as (c & u & n & ? & Hku & ?). exists c, u, n.
      split; [done|]. split; [|done]. by destruct q.
  - intros q k. rewrite Hlive. cbn [set_blocks mp_blocks]. destruct (decide (p = q)) as [<-|Hne].
    + rewrite !lookup_insert_eq. split.
      * intros E. split; [done|]. exists b'. split; [done|congruence].
      * intros (_ & c & E & <-). congruence.
    + rewrite !lookup_insert_ne by done. apply Hr.
Qed.

(** ** The other operations and the refinement *)

(** ** Realloc *)

(** The outcome of [realloc] of a block [p] that holds [l]: the block itself
    when it is large enough, a block that starts with the old bytes in its
    place (or beside it, when the old one could not be released), or none, and
    then the old block is as it was. *)
Definition realloc_post (os : alloc_os) (p : blk) (size : Z) (l : list Z) (A : heap)
    (r : option (option blk * memPool)) : Prop :=
  exists res s', r = Some (res, s') /\
    match res with
    | None => ao_malloc os = None /\ mem_rel s' A
    | Some q =>
        (q = p /\ size <= Z.of_nat (length l) /\ mem_rel s' A) \/
        (exists l', take (length l) l' = l /\ size <= Z.of_nat (length l') /\
           (q = p \/ A !! q = None) /\
           (mem_rel s' (<[q := l']> (delete p A)) \/ mem_rel s' (<[q := l']> A) /\ no_spare s' p))
    end.

Lemma copy_user_post s A p q l l0 :
  mem_rel s A -> A !! p = Some l -> A !! q = Some l0 -> (length l <= length l0)%nat ->
  exists s', copy_user s q p (Z.of_nat (length l)) = Some s' /\
    mem_rel s' (<[q := l ++ drop (length l) l0]> A) .
Proof.
  intros Hrel Hp Hq Hlen.
  destruct (mem_write_post s A q l0 0 l Hrel Hq ltac:(lia) ltac:(lia)) as (d & d' & Eg & _ & Ew & Hrel').
  destruct (mem_write_post s A p l 0 [] Hrel Hp ltac:(lia) ltac:(cbn; lia)) as (b & _ & Egp & Hu & _).
  unfold copy_user. rewrite Egp. cbn [mbind option_bind].
  destruct Hrel as (frs & Hok & Hr). pose proof (proj1 (Hr p l) Hp) as (Hl & _).
  destruct (get_live s frs p Hok Hl) as (b2 & t & size & Eg2 & _ & _ & Hb & _).
  rewrite Egp in Eg2. injection Eg2 as <-. pose proof (length_user_bytes _ _ _ Hb) as Hlu.
  rewrite Hu in Hlu. pose proof (bo_cap _ _ _ Hb) as Hcap.
  unfold UTIL_MEM_HEAD_FILL_LEN. rewrite blk_read_in by lia. cbn [mbind option_bind].
  assert (read_bytes (bk_data b) 8 (Z.to_nat (Z.of_nat (length l))) = l) as ->.
  { rewrite <- Hu at 2. unfold user_bytes. f_equal. lia. }
  rewrite Eg. cbn [mbind option_bind]. change 8 with (8 + 0) at 1. rewrite Ew. cbn [mbind option_bind].
  eexists. split; [done|]. exact Hrel'.
Qed.

Lemma realloc_pooled os s A p l size t user :
  mem_rel s A -> A !! p = Some l -> alloc_fresh os s -> 0 < size -> size + 10 < 4294967296 ->
  user = Z.of_nat (length l) -> user < size -> t <> TYPE_DYN ->
  realloc_post os p size l A
    ('(r, _, s) ← mem_alloc os size s;
     match r with
     | None => Some (None, s)
     | Some q => s ← copy_user s q p user; '(_, s) ← mem_release (Some p) s; Some (Some q, s)
     end).
Proof.
  intros Hrel Hp Hf Hs0 Hs -> Hlt Ht.
  destruct (mem_alloc_post os size s A Hrel Hf Hs0 Hs) as (res & real & s1 & -> & Hres).
  cbn [mbind option_bind]. destruct res as [q|].
  2:{ exists None, s1. done. }
  destruct Hres as (l0 & HA & Hsz & _ & Hrel1).
  assert (q <> p) as Hne by congruence.
  destruct (copy_user_post s1 (<[q := l0]> A) p q l l0 Hrel1) as (s2 & -> & Hrel2).
  { by rewrite lookup_insert_ne. } { by rewrite lookup_insert_eq. } { lia. }
  rewrite insert_insert_eq in Hrel2. cbn [mbind option_bind].
  set (l' := l ++ drop (length l) l0) in *.
  assert (take (length l) l' = l /\ size <= Z.of_nat (length l')) as [Hl1 Hl2].
  { unfold l'. rewrite take_app_length. split; [done|]. rewrite length_app, length_drop. lia. }
  destruct (mem_release_post s2 (<[q := l']> A) p Hrel2) as [(s3 & -> & Hrel3 & _)|[-> Hns]].
  { rewrite lookup_insert_ne by done. by exists l. }
  - exists (Some q), s3. split; [done|]. right. exists l'. split; [done|]. split; [done|].
    split; [by right|]. left. by rewrite <- delete_insert_ne.
  - exists (Some q), s2. split; [done|]. right. exists l'. split; [done|]. split; [done|].
    split; [by right|]. by right.
Qed.

(** [SDB_OSS_REALLOC] may return the address it was given. *)
Definition realloc_fresh (os : alloc_os) (p : option blk) (s : memPool) : Prop :=
  os_fresh (ao_mgr os) (mp_mem s) /\
  forall q, ao_malloc os = Some q -> mp_blocks s !! BDyn q = None \/ p = Some (BDyn q).

Lemma realloc_dyn s frs A a l b size old q :
  mem_ok s frs -> heap_rel s frs A -> A !! BDyn a = Some l ->
  mp_blocks s !! BDyn a = Some b -> block_ok b TYPE_DYN old -> user_bytes b = l ->
  old - 10 < size -> size + 10 < 4294967296 ->
  mp_blocks s !! BDyn q = None \/ q = a ->
  exists b', fillPtr (mkBlock (size + 10) (bk_data b)) (type_val TYPE_DYN) (size + 10) = Some b' /\
    take (length l) (user_bytes b') = l /\ Z.of_nat (length (user_bytes b')) = size /\
    mem_rel (set_blocks s (<[BDyn q := b']> (delete (BDyn a) (mp_blocks s))))
      (<[BDyn q := user_bytes b']> (delete (BDyn a) A)).
Proof.
  intros Hok Hr Hp Hb Hbo Hu Hlt Hs Hq. pose proof (length_user_bytes _ _ _ Hbo) as Hlen.
  pose proof (bo_size _ _ _ Hbo). pose proof (bo_cap _ _ _ Hbo) as Hcap.
  destruct (fillPtr_ok (size + 10) (bk_data b) TYPE_DYN (size + 10)) as (b' & E & Hb' & Hbytes);
    [done|lia|by left|].
  exists b'. split; [done|]. pose proof (length_user_bytes _ _ _ Hb') as Hlen'.
  pose proof (bo_cap _ _ _ Hb') as Hcap'. split; [|split; [lia|]].
  - rewrite <- Hu. unfold user_bytes. apply list_eq. intros i. rewrite length_read_bytes.
    destruct (decide (i < Z.to_nat (bk_cap b - 10))%nat).
    + rewrite lookup_take_lt, !lookup_read_bytes by lia. rewrite !decide_True by lia. f_equal.
      apply Hbytes. lia.
    + rewrite lookup_take_ge, lookup_read_bytes by lia. by rewrite decide_False by lia.
  - assert (mem_rel (set_blocks s (delete (BDyn a) (mp_blocks s))) (delete (BDyn a) A)) as (f & Hok1 & Hr1).
    { eapply (mem_rel_delete s frs A _ frs); try done.
      - by eapply mgrs_ok_fields, Hok.
      - intros r Hne. cbn. by rewrite lookup_delete_ne.
      - intros [c|c]; cbn [blk_live set_blocks mp_blocks].
        + change (exists u, obj_live (set_blocks s (delete (BDyn a) (mp_blocks s))) frs u c) with
            (exists u, obj_live s frs u c). naive_solver.
        + rewrite lookup_delete_is_Some. naive_solver. }
    eapply (mem_rel_add _ f _ _ f (BDyn q) b' TYPE_DYN (size + 10)); try done.
    + by eapply mgrs_ok_fields, Hok1.
    + cbn [blk_live set_blocks mp_blocks]. rewrite lookup_delete_is_Some. intros [Hne [x Hx]].
      destruct Hq as [?| ->]; congruence.
    + intros [c|c]; cbn [blk_live set_blocks mp_blocks].
      * split; [by left|]. intros [?|?]; done.
      * destruct (decide (c = q)) as [->|]; [rewrite lookup_insert_eq; split; [by right|done]|].
        rewrite lookup_insert_ne by congruence. naive_solver.
Qed.

Lemma mem_realloc_post os s A p l size :
  mem_rel s A -> A !! p = Some l -> realloc_fresh os (Some p) s ->
  0 < size -> size + 10 < 4294967296 ->
  realloc_post os p size l A (mem_realloc os (Some p) size s).
Proof.
  intros Hrel Hp [Hf Hm] Hs0 Hs. pose proof Hrel as (frs & Hok & Hr).
  pose proof (proj1 (Hr p l) Hp) as (Hl & b0 & Hb0 & Hu).
  destruct (get_live s frs p Hok Hl) as (b & t & old & Eg & Eb & Hk & Hb & Ec).
  rewrite Hb0 in Eb. injection Eb as ->. pose proof (length_user_bytes _ _ _ Hb) as Hlen. rewrite Hu in Hlen.
  unfold mem_realloc. destruct (Z.eqb_spec size 0); [lia|]. rewrite Eg. cbn [mbind option_bind].
  rewrite Ec. cbn [mbind option_bind]. destruct (Z.leb_spec size (old - 10)) as [Hle|Hgt].
  { exists (Some p), s. split; [done|]. left. split; [done|]. split; [lia|done]. }
  destruct p as [a|a].
  - destruct Hk as [Hk _]. pose proof (pool_type_size t (obj_live_pool _ _ _ _ Hk)) as Hts.
    assert (t <> TYPE_DYN) as Hnd by (intros ->; cbn in Hts; lia).
    assert (alloc_fresh os s) as Haf.
    { split; [done|]. intros q E. destruct (Hm q E); [done|discriminate]. }
    pose proof (realloc_pooled os s A (BObj a) l size t (old - 10) Hrel Hp Haf Hs0 Hs ltac:(lia)
      ltac:(lia) Hnd) as Hpost. by destruct t.
  - cbn in Hk. subst t. unfold UTIL_MEM_SIZE_2_REALSIZE, UTIL_MEM_TOTAL_FILL_LEN.
    rewrite u32_id by lia. destruct (Z.eqb_spec (size + 10) 0); [lia|].
    destruct (ao_malloc os) as [q|] eqn:Em.
    2:{ exists None, s. done. }
    destruct (realloc_dyn s frs A a l b size old q Hok Hr Hp Hb0 Hb Hu) as (b' & -> & Ht & Hn & Hrel');
      [lia|lia| |].
    { destruct (Hm q eq_refl) as [?|[= ->]]; [by left|by right]. }
    cbn [mbind option_bind]. eexists (Some (BDyn q)), _. split; [done|]. right.
    exists (user_bytes b'). split; [done|]. split; [lia|]. split; [|by left].
    destruct (Hm q eq_refl) as [Hnone|[= ->]]; [|by left]. right.
    destruct (A !! BDyn q) as [k|] eqn:Ek; [|done]. apply Hr in Ek as (_ & c & Hc & _). congruence.
Qed.

(** ** Shrink and limits *)

Lemma shrink_one s frs t g os keep :
  mgrs_ok s frs -> mgr_at s t g -> 0 <= keep < 2147483648 ->
  exists rc n ms frs', smgr_shrink (type2Size t) (objX_size t) os keep (with_mgr s g) = Some (rc, n, ms) /\
    mgrs_ok (set_mgr s (type_slot t) ms) frs' /\
    forall u a, obj_live (set_mgr s (type_slot t) ms) frs' u a <-> obj_live s frs u a.
Proof.
  intros Hok Hg Hk. destruct (gk_mgr _ _ Hok t g Hg) as [Ho Hh]. pose proof (total_range s frs Hok) as Ht.
  destruct (shrink_loop_post (type2Size t) (objX_size t) os keep (Z.to_nat (sm_poolNum g)) 0 0
    (mp_mem s) (mp_handler s) g (frs t) Ho Hk) as (rc & f & m' & h' & g' & frs' & E & Hs & _); [lia|].
  exists rc, f, (mkMgrState m' h' g'), (set_free frs t frs'). split; [exact E|]. destruct Hs. split.
  - apply (mgrs_step Hok Hg); auto. split.
    + intros b Hb _. by apply gs_frame.
    + intros b Hb. left. by apply gs_segs.
  - intros u a. rewrite (obj_live_step Hok Hg). destruct (decide (u = t)) as [->|]; [|tauto].
    rewrite (obj_live_here Hg). setoid_rewrite gs_held. naive_solver.
Qed.

Lemma shrink_types_post os isFull types : forall s A,
  mem_rel s A -> (forall t, t ∈ types -> t ∈ pool_types) ->
  exists s', shrink_types os isFull types s = Some s' /\ mem_rel s' A.
Proof.
  induction types as [|t types IH]; intros s A Hrel Hty; cbn [shrink_types]; [by exists s|].
  assert (Hty' : forall u, u ∈ types -> u ∈ pool_types) by (intros u Hu; apply Hty; by right).
  destruct (mp_mgrs s !! type_slot t) as [[g|]|] eqn:Eg; [|by apply IH|by apply IH].
  destruct Hrel as (frs & Hok & Hr).
  assert (Hg : mgr_at s t g) by (split; [apply Hty; left|done]).
  assert (0 <= shrink_keep t isFull < 2147483648) as Hk by (destruct t, isFull; cbn; lia).
  destruct (shrink_one s frs t g (os t) _ (mk_mgrs _ _ Hok) Hg Hk) as (rc & n & ms & frs' & -> & Hok' & Hl).
  cbn [mbind option_bind]. apply IH; [|done]. by eapply mem_rel_same.
Qed.

Lemma setMax_at maxSize s t g' :
  mgr_at (mem_setMaxSize maxSize s) t g' <->
  exists g n, mgr_at s t g /\ g' = smgr_setMaxObjects n g /\
    n = Z.shiftr maxSize 3 / type2Size (nth (type_slot t) pool_types TYPE_DYN).
Proof.
  unfold mgr_at, mem_setMaxSize. cbn [mp_mgrs]. rewrite list_lookup_imap.
  destruct (mp_mgrs s !! type_slot t) as [[g|]|]; cbn; naive_solver.
Qed.

Lemma mem_setMaxSize_post maxSize s A : mem_rel s A -> mem_rel (mem_setMaxSize maxSize s) A.
Proof.
  intros (frs & Hok & Hr). pose proof (mk_mgrs _ _ Hok) as Hm.
  eapply (mem_rel_same s frs A _ frs Hok Hr); [|done|].
  - split.
    + cbn. rewrite length_imap. apply Hm.
    + intros t g' (g & n & Hg & -> & _)%setMax_at. destruct (gk_mgr _ _ Hm t g Hg) as [Ho Hh].
      destruct (smgr_setMaxObjects_ok (mp_mem s) g (frs t) n Ho) as (? & _ & _ & _ & ? & _). auto.
    + intros t u g1 g2 b (g & n & Hg & -> & _)%setMax_at (g' & n' & Hg' & -> & _)%setMax_at.
      destruct (gk_mgr _ _ Hm t g Hg) as [Ho _]. destruct (gk_mgr _ _ Hm u g' Hg') as [Ho' _].
      destruct (smgr_setMaxObjects_ok (mp_mem s) g (frs t) n Ho) as (_ & _ & _ & -> & _).
      destruct (smgr_setMaxObjects_ok (mp_mem s) g' (frs u) n' Ho') as (_ & _ & _ & -> & _).
      by apply (gk_disjoint _ _ Hm).
    + unfold getTotalSize. cbn [mem_setMaxSize mp_handler mh_totalSize].
      pose proof (gk_total _ _ Hm) as E. unfold getTotalSize in E. rewrite E. f_equal.
      unfold all_bytes. f_equal. apply list_fmap_ext. intros i t Ht%list_elem_of_lookup_2.
      unfold type_bytes. cbn [mem_setMaxSize mp_mgrs]. rewrite list_lookup_imap.
      destruct (mp_mgrs s !! type_slot t) as [[g|]|] eqn:Eg;
        cbn [fmap option_fmap option_map]; try done.
      destruct (gk_mgr _ _ Hm t g (conj Ht Eg)) as [Ho _].
      eapply smgr_setMaxObjects_ok in Ho as (_ & _ & _ & _ & _ & ->). done.
  - intros t a. unfold obj_live. split.
    + intros (g' & idx & (g & n & Hg & -> & _)%setMax_at & Hh). exists g, idx. split; [done|].
      destruct (gk_mgr _ _ Hm t g Hg) as [Ho _].
      destruct (smgr_setMaxObjects_ok (mp_mem s) g (frs t) n Ho) as (_ & Hx & _). by apply Hx.
    + intros (g & idx & Hg & Hh). eexists _, idx. split; [apply setMax_at; by eexists g, _|].
      destruct (gk_mgr _ _ Hm t g Hg) as [Ho _].
      destruct (smgr_setMaxObjects_ok (mp_mem s) g (frs t)
        (Z.shiftr maxSize 3 / type2Size (nth (type_slot t) pool_types TYPE_DYN)) Ho) as (_ & Hx & _).
      by apply Hx.
Qed.

(** ** Setting up *)

Lemma new_mgr_ok os maxSize t m :
  t ∈ pool_types -> 0 <= maxSize -> exists og, new_mgr os maxSize t = Some og /\
    forall g, og = Some g -> exists frs, mgr_ok m g frs /\ all_handled g /\ mgr_segs g = [] /\
      forall i p, sm_pool g !! i = Some p -> sp_numOfObjs p = 0.
Proof.
  intros Ht Hm. unfold new_mgr. destruct os; [|by exists None].
  pose proof (pool_type_size t Ht) as Hts.
  destruct (type_blocks t) as [size pools] eqn:Eb.
  assert (0 <= pools < 256 /\ 2 <= size * pools / type2Size t / pool_count pools < 4294967296) as [Hp Hn].
  { destruct t; cbn in Eb; injection Eb as <- <-; try (cbn in Hts; lia); by vm_compute. }
  assert (0 <= Z.shiftr maxSize 3 / type2Size t) as Hmx.
  { apply Z.div_pos; [|lia]. rewrite shiftr_div by lia. apply Z.div_pos; lia. }
  destruct (smgr_init_ok m _ _ pools true Hp Hmx Hn) as (g & -> & _ & Ho & Hh & _ & Hs & Hz).
  exists (Some g). split; [done|]. intros g' [= <-]. eexists. split; [exact Ho|]. auto.
Qed.

(** What is counted when no pool has an object. *)
Lemma mgr_bytes_zero X g :
  (forall i p, sm_pool g !! i = Some p -> sp_numOfObjs p = 0) -> mgr_bytes X g = 0.
Proof.
  intros Hz. unfold mgr_bytes.
  assert (forall l : list utilSegmentPool, (forall p, p ∈ l -> sp_numOfObjs p = 0) ->
    sumZ (map (fun p => sp_numOfObjs p * X) l) = 0) as Hs.
  { induction l as [|p l IH]; intros Hl; [done|]. simpl. rewrite (Hl p), IH; [lia| |left].
    intros q Hq. apply Hl. by right. }
  apply Hs. intros p [i Hi]%list_elem_of_lookup. by eapply Hz.
Qed.

Lemma pool_types_slot t : t ∈ pool_types -> pool_types !! type_slot t = Some t.
Proof. intros Ht. pose proof (pool_type_size t Ht) as Hs. destruct t; try done. cbn in Hs. lia. Qed.

(** The free lists of a manager without objects. *)
Lemma mgr_ok_empty m g frs :
  mgr_ok m g frs -> (forall i p, sm_pool g !! i = Some p -> sp_numOfObjs p = 0) ->
  mgr_ok m g (replicate (Z.to_nat (sm_poolNum g)) []).
Proof.
  intros Ho Hz. assert (frs = replicate (Z.to_nat (sm_poolNum g)) []) as <-; [|done].
  apply list_eq. intros i. destruct (frs !! i) as [fr|] eqn:Ei.
  - pose proof (lookup_lt_Some _ _ _ Ei) as Hi. rewrite (mo_frs _ _ _ Ho) in Hi.
    rewrite lookup_replicate_2 by done.
    destruct (mgr_pool_at Ho i Hi) as (p & fr' & Hp & Hf' & _ & _ & Hpo). simplify_eq.
    pose proof (po_count _ _ _ Hpo) as Hc. rewrite (Hz i p Hp) in Hc.
    pose proof (po_begin _ _ _ Hpo). destruct fr; [done|]. simpl in Hc. lia.
  - symmetry. apply lookup_replicate_None. apply lookup_ge_None in Ei.
    rewrite (mo_frs _ _ _ Ho) in Ei. lia.
Qed.

Lemma mem_init_post os maxSize :
  0 <= maxSize -> exists s, mem_init os maxSize memPool_new = Some s /\ mem_rel s ∅.
Proof.
  intros Hm. unfold mem_init.
  destruct (mapM_is_Some_2 (fun t => new_mgr (os t) maxSize t) pool_types) as [mgrs E].
  { apply Forall_forall. intros t Ht. destruct (new_mgr_ok (os t) maxSize t ∅ Ht Hm) as (og & Eo & _).
    by exists og. }
  rewrite E. cbn [mbind option_bind]. eexists. split; [done|].
  apply mapM_Some in E as Hf. set (s := mkMemPool _ _ _ _ _).
  assert (Hat : forall t g, mgr_at s t g -> exists frs, mgr_ok ∅ g frs /\ all_handled g /\ mgr_segs g = [] /\
      forall i p, sm_pool g !! i = Some p -> sp_numOfObjs p = 0).
  { intros t g [Ht Hlk]. unfold s in Hlk. cbn [mp_mgrs] in Hlk.
    destruct (new_mgr_ok (os t) maxSize t ∅ Ht Hm) as (og & Eo & Hg). apply Hg.
    destruct (Forall2_lookup_r _ _ _ _ _ Hf Hlk) as (t' & Ht' & Eo').
    rewrite (pool_types_slot t Ht) in Ht'. congruence. }
  assert (exists frs : frees, forall t g, mgr_at s t g -> mgr_ok ∅ g (frs t)) as [frs Hfrs].
  { exists (fun t => match mp_mgrs s !! type_slot t with
                    | Some (Some g) => replicate (Z.to_nat (sm_poolNum g)) []
                    | _ => []
                    end).
    intros t g Hg. pose proof (Hat t g Hg) as (frs & Ho & _ & Hs & Hz). destruct Hg as [_ ->].
    by apply (mgr_ok_empty _ _ frs). }
  assert (Hno : forall t a, ~ obj_live s frs t a).
  { intros t a (g & idx & Hg & Hh). destruct (Hat t g Hg) as (_ & _ & _ & Hs & _).
    pose proof (held_in_segs ∅ g _ idx a (Hfrs t g Hg) Hh) as Hx. rewrite Hs in Hx. set_solver. }
  assert (Hnl : forall p, ~ blk_live s frs p).
  { intros [a|a]; cbn; [intros [t Ht]; by apply Hno in Ht|]. rewrite lookup_empty. by intros []. }
  exists frs. split; [split|].
  - split.
    + unfold s. cbn. by rewrite <- (Forall2_length _ _ _ Hf).
    + intros t g Hg. split; [by apply Hfrs|]. by destruct (Hat t g Hg) as (_ & _ & ? & _).
    + intros t u g g' b Hg _ Hb. destruct (Hat t g Hg) as (_ & _ & _ & Hs & _). rewrite Hs in Hb. set_solver.
    + assert (all_bytes s = 0) as ->; [|done]. unfold all_bytes.
      assert (map (type_bytes s) pool_types = map (fun _ => 0) pool_types) as ->; [|done].
      apply list_fmap_ext. intros i t Ht%list_elem_of_lookup_2. unfold type_bytes.
      destruct (mp_mgrs s !! type_slot t) as [[g|]|] eqn:Eg; try done.
      destruct (Hat t g (conj Ht Eg)) as (_ & _ & _ & _ & Hz). by apply mgr_bytes_zero.
  - intros p Hp. by apply Hnl in Hp.
  - intros p l. rewrite lookup_empty. split; [done|]. intros [Hp _]. by apply Hnl in Hp.
Qed.

(** ** The theorems *)

(** What the program does with the pool; [MWrite] is a user writing to its
    block. *)
Inductive mem_op :=
| MAlloc (os : alloc_os) (size : Z)
| MRealloc (os : alloc_os) (p : blk) (size : Z)
| MRelease (p : blk)
| MWrite (p : blk) (off : Z) (x : list Z)
| MShrink (os : MEMBLOCKPOOL_TYPE -> Z -> pool_os)
| MSetMaxSize (maxSize : Z).

(** The pointer an operation returns or leaves, and the pool after it. *)
Definition mem_run (op : mem_op) (s : memPool) : option (option blk * memPool) :=
  match op with
  | MAlloc os size => '(r, _, s) ← mem_alloc os size s; Some (r, s)
  | MRealloc os p size => mem_realloc os (Some p) size s
  | MRelease p => mem_release (Some p) s
  | MWrite p off x =>
      b ← get_block s p; b ← blk_write b (UTIL_MEM_HEAD_FILL_LEN + off) x;
      Some (Some p, set_blocks s (<[p := b]> (mp_blocks s)))
  | MShrink os => s ← mem_shrink os s; Some (None, s)
  | MSetMaxSize n => Some (None, mem_setMaxSize n s)
  end.

(** The program uses blocks of the heap [A] only and within their bounds, asks
    for sizes that leave room for header and trailer below [2^32], and the
    allocator answers with fresh addresses. *)
Definition mem_allowed (op : mem_op) (s : memPool) (A : heap) : Prop :=
  match op with
  | MAlloc os size => alloc_fresh os s /\ 0 < size /\ size + 10 < 4294967296
  | MRealloc os p size =>
      is_Some (A !! p) /\ realloc_fresh os (Some p) s /\ 0 < size /\ size + 10 < 4294967296
  | MRelease p => is_Some (A !! p)
  | MWrite p off x => exists l, A !! p = Some l /\ 0 <= off /\
                        off + Z.of_nat (length x) <= Z.of_nat (length l)
  | MShrink _ | MSetMaxSize _ => True
  end.

(** The heap: blocks and what their users wrote; [stuck] are the blocks that
    cannot be released. *)
Definition heap_step (stuck : blk -> Prop) (op : mem_op) (A : heap) (r : option blk) (A' : heap) : Prop :=
  match op with
  | MAlloc os size =>
      match r with
      | None => ao_malloc os = None /\ A' = A
      | Some p => exists l, A !! p = None /\ size <= Z.of_nat (length l) /\ A' = <[p := l]> A
      end
  | MRealloc os p size =>
      match r with
      | None => ao_malloc os = None /\ A' = A
      | Some q => exists l, A !! p = Some l /\
          ((q = p /\ size <= Z.of_nat (length l) /\ A' = A) \/
           (exists l', take (length l) l' = l /\ size <= Z.of_nat (length l') /\
              (q = p \/ A !! q = None) /\
              (A' = <[q := l']> (delete p A) \/ A' = <[q := l']> A /\ stuck p)))
      end
  | MRelease p => (r = None /\ A' = delete p A) \/ (r = Some p /\ A' = A /\ stuck p)
  | MWrite p off x => exists l, A !! p = Some l /\ A' = <[p := splice l off x]> A
  | MShrink _ | MSetMaxSize _ => A' = A
  end.

(** C13: The memory pool refines a heap: set up, it is the empty one, and each
    operation the program may ask for is defined (it never leaves a block, a
    list or a live segment) and does to the blocks in use what a heap does.
    [alloc] returns a block that was not in use, with at least the bytes asked
    for, or nothing when there is no memory; [realloc] keeps the bytes of the
    block it moves, and the old block is no longer in use unless it could not be
    released; [shrink] and [setMaxSize] keep every block and its bytes;
    [release] removes its block, or, only where the pool the block is from has
    no spare object, refuses it and leaves the pointer. *)
Theorem mempool_refines_heap :
  (forall os maxSize, 0 <= maxSize ->
     exists s, mem_init os maxSize memPool_new = Some s /\ mem_rel s ∅) /\
  (forall op s A, mem_rel s A -> mem_allowed op s A ->
     exists r s' A', mem_run op s = Some (r, s') /\ heap_step (no_spare s') op A r A' /\ mem_rel s' A' /\
       forall p, op = MRelease p -> r = Some p -> no_spare s p).
Proof.
  split; [apply mem_init_post|]. intros op s A Hrel Ha.
  destruct op as [os size|os p size|p|p off x|os|n]; cbn [mem_run mem_allowed heap_step] in *.
  - destruct Ha as (Hf & Hs0 & Hs).
    destruct (mem_alloc_post os size s A Hrel Hf Hs0 Hs) as (r & real & s' & -> & Hr).
    exists r, s'. cbn [mbind option_bind]. destruct r as [p|]; [|exists A; naive_solver].
    destruct Hr as (l & ? & ? & _ & ?). exists (<[p := l]> A). split; [done|]. split; [by exists l|done].
  - destruct Ha as ([l Hl] & Hf & Hs0 & Hs).
    destruct (mem_realloc_post os s A p l size Hrel Hl Hf Hs0 Hs) as (r & s' & -> & Hr).
    exists r, s'. destruct r as [q|]; [|exists A; naive_solver].
    destruct Hr as [(-> & ? & ?)|(l' & ? & ? & ? & Hor)].
    + exists A. split; [done|]. split; [|done]. exists l. split; [done|]. by left.
    + assert (exists A', (A' = <[q := l']> (delete p A) \/ A' = <[q := l']> A /\ no_spare s' p) /\ mem_rel s' A')
        as (A' & HA & Hr') by (destruct Hor as [?|[? ?]]; eauto 6).
      exists A'. split; [done|]. split; [|by split]. exists l. split; [done|]. right. exists l'. auto.
  - destruct (mem_release_post s A p Hrel Ha) as [(s' & -> & Hr & _)|[-> Hns]].
    + exists None, s', (delete p A). split; [done|]. split; [by left|]. split; [done|congruence].
    + exists (Some p), s, A. split; [done|]. split; [by right|]. split; [done|]. by intros q [= ->].
  - destruct Ha as (l & Hl & Ho & Hx).
    destruct (mem_write_post s A p l off x Hrel Hl Ho Hx) as (b & b' & -> & _ & Ew & Hr).
    cbn [mbind option_bind]. unfold UTIL_MEM_HEAD_FILL_LEN. rewrite Ew. cbn [mbind option_bind].
    eexists _, _, _. split; [done|]. split; [|by split]. by exists l.
  - unfold mem_shrink. cbv zeta.
    destruct (shrink_types_post os ((mh_maxSize (mp_handler s) =? 0)
      || (mh_maxSize (mp_handler s) <=? mh_totalSize (mp_handler s))) pool_types s A Hrel) as (s' & -> & Hr); [done|].
    exists None, s', A. done.
  - exists None, (mem_setMaxSize n s), A. split; [done|]. split; [done|].
    split; [by apply mem_setMaxSize_post|done].
Qed.

(** The total the pool reports is the number of bytes of all live segments of
    its managers. *)
Theorem mempool_total_exact s A : mem_rel s A -> getTotalSize s = all_bytes s.
Proof.
  intros (frs & Hok & _). pose proof (mk_mgrs _ _ Hok) as Hm. rewrite (gk_total _ _ Hm).
  apply u64_id.
  assert (forall t, t ∈ pool_types -> 0 <= type_bytes s t <= 16 * (268435456 * 8200)) as Ht.
  { intros t Ht. unfold type_bytes. destruct (mp_mgrs s !! type_slot t) as [[g|]|] eqn:Eg; try lia.
    destruct (gk_mgr _ _ Hm t g (conj Ht Eg)) as [Ho _]. unfold mgr_bytes.
    pose proof (sumZ_map_bound (fun p => sp_numOfObjs p * objX_size t) (sm_pool g) (268435456 * 8200)) as Hb.
    rewrite (mo_len _ _ _ Ho) in Hb. apply Hb. intros p [i Hi]%list_elem_of_lookup.
    pose proof (pool_type_size t Ht) as Hs. unfold objX_size. destruct (frs t !! i) as [fr|] eqn:Ef.
    - destruct (mo_pool _ _ _ Ho i p fr Hi Ef) as (_ & _ & Hpo).
      pose proof (po_num_le _ _ _ Hpo). pose proof (po_begin _ _ _ Hpo). pose proof (po_count _ _ _ Hpo). nia.
    - rewrite (mo_rest _ _ _ Ho i p Hi Ef). cbn. lia. }
  pose proof (sumZ_map_bound (type_bytes s) pool_types (16 * (268435456 * 8200)) Ht) as Hb.
  unfold all_bytes. cbn [length pool_types] in Hb. lia.
Qed.
