(* ===== verification/UtilMemPoolExample.v ===== *)
(** * The memory pool, evaluated

    Runs of the pools on concrete inputs: the theorems about them at those
    inputs, and the two ways in which the memory pool goes wrong. *)
From S2P Require Import Prelude.
From S2P Require Import ByteBits.
From S2P Require Import OssBase.
From S2P Require Import UtilBitmap.
From S2P Require Import UtilSegment.
From S2P Require Import UtilSegmentOk.
From S2P Require Import UtilSegmentShrink.
From S2P Require Import UtilSegmentMgr.
From S2P Require Import UtilSegmentMgrOk.
From S2P Require Import UtilSegmentHist.
From S2P Require Import UtilMemPool.
From S2P Require Import UtilMemPoolOk.
From S2P Require Import UtilMemPoolHist.

(** An allocator that has memory, its next segment at [b]. *)
Definition ex_pool_os (b : Z) : pool_os := mkPoolOs (Some b) true true true.

Definition ex_alloc_os (b : Z) : alloc_os :=
  mkAllocOs (fun _ _ => (0, ex_pool_os b)) (Some b).

(** [n] blocks of [size] bytes, one after the other. *)
Fixpoint ex_alloc_many (n : nat) (size : Z) (s : memPool) : option (list blk * memPool) :=
  match n with
  | O => Some ([], s)
  | S n =>
      '(r, _, s) ← mem_alloc (ex_alloc_os (Z.of_nat (S n))) size s;
      p ← r;
      '(l, s) ← ex_alloc_many n size s;
      Some (p :: l, s)
  end.

(** 1024 blocks of 8000 bytes fill the first segment of both pools of the 8K
    manager; [shrink] then deletes the spare segments, and none of the blocks
    can be released any more. *)
Definition ex_stranded : option (bool * bool) :=
  s ← mem_init (fun _ => true) 8589934592 memPool_new;
  '(l, s) ← ex_alloc_many 1024 8000 s;
  p ← l !! 0%nat;
  '(before, _) ← mem_release (Some p) s;
  s ← mem_shrink (fun _ _ => ex_pool_os 5000) s;
  '(after, _) ← mem_release (Some p) s;
  Some (bool_decide (before = None), bool_decide (after = Some p)).

Lemma ex_stranded_eval : ex_stranded = Some (true, true).
Proof. vm_compute. reflexivity. Qed.

(** C39: After [shrink], a block in use cannot always be given back: with 1024 blocks
    of 8000 bytes, which could be released before, [release] leaves the
    pointer and the block stays in use.  [shrink] keeps no segment of the 1K to
    8K managers, so that a full pool loses its spare object, and [release] of
    an object needs one. *)
Theorem mem_release_stranded :
  exists s l s1 s2 p s3 s4,
    mem_init (fun _ => true) 8589934592 memPool_new = Some s /\
    ex_alloc_many 1024 8000 s = Some (l, s1) /\ l !! 0%nat = Some p /\
    mem_release (Some p) s1 = Some (None, s3) /\
    mem_shrink (fun _ _ => ex_pool_os 5000) s1 = Some s2 /\
    mem_release (Some p) s2 = Some (Some p, s4).
Proof.
  pose proof ex_stranded_eval as E. unfold ex_stranded in E.
  destruct (mem_init _ _ _) as [s|] eqn:E1; [|discriminate]. cbn [mbind option_bind] in E.
  destruct (ex_alloc_many 1024 8000 s) as [[l s1]|] eqn:E2; [|discriminate]. cbn [mbind option_bind] in E.
  destruct (l !! 0%nat) as [p|] eqn:E3; [|discriminate]. cbn [mbind option_bind] in E.
  destruct (mem_release (Some p) s1) as [[b s3]|] eqn:E4; [|discriminate]. cbn [mbind option_bind] in E.
  destruct (mem_shrink _ s1) as [s2|] eqn:E5; [|discriminate]. cbn [mbind option_bind] in E.
  destruct (mem_release (Some p) s2) as [[a s4]|] eqn:E6; [|discriminate]. cbn [mbind option_bind] in E.
  injection E as Hb Ha. apply bool_decide_eq_true_1 in Hb as ->. apply bool_decide_eq_true_1 in Ha as ->.
  exists s, l, s1, s2, p, s3, s4. exact (conj eq_refl (conj E2 (conj E3 (conj E4 (conj E5 E6))))).
Qed.

(** A request for 4294967290 bytes, to which the header and the trailer do not
    fit in 32 bits: with the pool switched off, 4 bytes are allocated and the
    header is written outside of them. *)
Theorem mem_alloc_size_wrap :
  exists s, mem_init (fun _ => true) 0 memPool_new = Some s /\
    mem_alloc (ex_alloc_os 1) 4294967290 s = None.
Proof. eexists. split; [vm_compute; reflexivity|]. vm_compute. reflexivity. Qed.

(** ** Witnesses *)

Definition ex_mgr : utilSegmentManager :=
  match smgr_init 4 8 1 true segmentManager_new with Some (_, g) => g | None => segmentManager_new end.

Definition ex_state : hist := (mkMgrState ∅ (mkHandler 100000 0) ex_mgr, ∅).

Definition ex_acquire : seg_op := SAcquire (fun k => (0, ex_pool_os (Z.of_nat k + 1))).

Lemma segment_objects_exclusive_witness :
  exists rc s', seg_run 24 32 ex_acquire ex_state = Some (rc, s') /\
    seg_result ex_acquire ex_state rc s' /\
    (forall idx a, s'.2 !! idx = Some a ->
       load (ms_mem s'.1) a = Some (mkObjX SEGMENT_OBJ_EYE_CATCHER SEGMENT_OBJ_FLAG_ACQUIRED idx)).
Proof.
  destruct (segment_objects_exclusive 24 32 4 8 1 true ltac:(lia) ltac:(lia) ltac:(by vm_compute)
    ex_mgr ltac:(by vm_compute) ∅ (mkHandler 100000 0) ex_state ex_acquire) as (rc & s' & E & Hr & _ & Hl).
  - apply reach_init.
  - intros k. cbn. split; [lia|]. split; [lia|done].
  - by exists rc, s'.
Defined.

Definition ex_state1 : hist :=
  match seg_run 24 32 ex_acquire ex_state with Some (_, s) => s | None => ex_state end.

Lemma segment_release_succeeds_witness :
  exists s', seg_run 24 32 (SRelease 0) ex_state1 = Some (SDB_OK, s') /\
    seg_run 24 32 (SReleaseAddr 0) ex_state1 = Some (SDB_OK, s') /\ s'.2 = delete 0 ex_state1.2.
Proof.
  apply (segment_release_succeeds 24 32 4 8 1 true ltac:(lia) ltac:(lia) ltac:(by vm_compute)
    ex_mgr ltac:(by vm_compute) ∅ (mkHandler 100000 0) ex_state1 0).
  - apply (reach_step 24 32 seg_keeps ex_mgr ∅ (mkHandler 100000 0) ex_acquire ex_state SDB_OK).
    + apply reach_init.
    + exact I.
    + intros k. cbn. split; [lia|]. split; [lia|done].
    + vm_compute. reflexivity.
  - vm_compute. by eexists.
Defined.

(** With one object per segment the pool is not expanded early: the first
    object that is acquired leaves no spare one, and its release is refused with
    [SDB_SYS] although nothing was ever shrunk. *)
Lemma segment_single_refused :
  exists g s1 a s2, smgr_init 1 8 1 true segmentManager_new = Some (SDB_OK, g) /\
    seg_run 24 32 ex_acquire (mkMgrState ∅ (mkHandler 100000 0) g, ∅) = Some (SDB_OK, s1) /\
    s1.2 !! 0 = Some a /\
    seg_run 24 32 (SRelease 0) s1 = Some (SDB_SYS, s2) /\ s2.2 = s1.2.
Proof.
  destruct (smgr_init 1 8 1 true segmentManager_new) as [[rc g]|] eqn:E; [|by vm_compute in E].
  vm_compute in E. injection E as <- <-. eexists _, _, _, _.
  split; [reflexivity|]. split; [vm_compute; reflexivity|].
  split; [vm_compute; reflexivity|]. split; vm_compute; reflexivity.
Qed.

(** A pool that was set up has no segment and no block. *)
Lemma mem_init_empty os maxSize s :
  mem_init os maxSize memPool_new = Some s -> mp_mem s = ∅ /\ mp_blocks s = ∅.
Proof.
  unfold mem_init. destruct (mapM _ _) as [mgrs|]; [|done]. cbn [mbind option_bind].
  intros [= <-]. done.
Qed.

Lemma mempool_refines_heap_witness :
  exists s r s' A', mem_init (fun _ => true) 8589934592 memPool_new = Some s /\
    mem_run (MAlloc (ex_alloc_os 1) 100) s = Some (r, s') /\
    heap_step (no_spare s') (MAlloc (ex_alloc_os 1) 100) ∅ r A' /\ mem_rel s' A'.
Proof.
  destruct mempool_refines_heap as [Hinit Hstep].
  destruct (Hinit (fun _ => true) 8589934592 ltac:(lia)) as (s & E & Hrel).
  destruct (mem_init_empty _ _ _ E) as [Em Eb].
  destruct (Hstep (MAlloc (ex_alloc_os 1) 100) s ∅ Hrel) as (r & s' & A' & E' & Hh & Hr & _).
  - split; [|lia]. split.
    + intros l k. rewrite Em. cbn. split; [lia|]. split; [lia|done].
    + intros p _. by rewrite Eb.
  - exists s, r, s', A'. exact (conj E (conj E' (conj Hh Hr))).
Defined.

Lemma mempool_total_exact_witness :
  exists s, mem_init (fun _ => true) 8589934592 memPool_new = Some s /\ getTotalSize s = all_bytes s.
Proof.
  destruct (mem_init_post (fun _ => true) 8589934592 ltac:(lia)) as (s & E & Hrel).
  exists s. exact (conj E (mempool_total_exact s ∅ Hrel)).
Defined.
